(* ===== verification/_CoqProject ===== *)
-Q . S2P
Prelude.v
GoStrings.v
GoBytes.v
GoJson.v
GoHash.v
GoValue.v
GoTime.v
GoNet.v
GoUrl.v
GoCsv.v
Domain.v
Ownership.v
Lease.v
LeaseRedis.v
Run.v
Session.v
Budget.v
Canonical.v
Scheduling.v
Codec.v
Telegram.v
Delegation.v
Admission.v
Input.v
ApprovalGate.v
Converter.v
ConverterText.v
ConverterProofs.v
ConverterCheck.v
Approval.v
ApprovalProofs.v
Effect.v
BrowserScope.v
EffectExternal.v
EffectProofs.v
Loop.v
LoopProofs.v
Mandate.v
MandateProofs.v
Outbox.v
Delivery.v
OutboxProofs.v
Egress.v
EgressProofs.v
Binding.v
Authorize.v
AuthorizeProofs.v
