(* ===== verification/Prelude.v ===== *)
(** * Butler: a verification of the orchestrator's core

    Butler runs an assistant's work as _runs_ inside _sessions_.  A worker
    may write for a session only while it holds the session's lease; every
    authoritative write is fenced by the lease's token; a run moves through a
    fixed lifecycle; and whatever a run does is charged in advance to budgets
    that can never be overspent.  Work arrives as inputs in a queue per
    session, and an action that needs consent waits for the owner's decision
    on exactly that action.  What an action does to the outside world is
    journalled before it happens and stays within the owner's mandates,
    notifications leave through an outbox, connections only go where the
    network boundary lets them, and generated converters are accepted against
    an independent suite.  This library
    models those parts of the Go sources under src/ as executable definitions
    and proves what makes them correct.

    ** The parts and their files

    - [Prelude] (this file): Go errors, the [(T, error)] convention as a
      monad, 64-bit and 32-bit integers with their wrap-around, the tactics
      [go_ok] and [unbool], and the hint databases.
    - [GoStrings], [GoBytes], [GoJson], [GoHash], [GoValue], [GoTime],
      [GoNet], [GoUrl], [GoCsv]: what the sources use of packages strings,
      html, encoding/binary, encoding/json, crypto/sha256, time, net/netip,
      net/url and encoding/csv, on bytes and integers; [GoValue] has the
      decoder and the printer of JSON values, [GoCsv] the reader and the
      writer of records, and that they are inverse.
    - [Domain] (internal/domain): run states, the transition table, terminal
      states, and the conversions to and from the wire.
    - [Ownership] (internal/ownership): the row of table session_ownership, the
      token, [Begin], fenced transactions with [Commit] and [Rollback], and
      the slots and locks of [Authority] as a step relation.
    - [Lease], [LeaseRedis] (apps/orchestrator/internal/session): the interface
      [LeaseManager] as a class with laws, the PostgreSQL and the Redis
      implementation as its two instances, the Lua scripts, the handlers.
    - [Run] (apps/orchestrator/internal/run): the runs table and its log as the
      record [run_db], every operation of the repository, of the service and
      of the owning transactions, and the other writers of the table:
      [AttachRun] of package task, the suspensions of packages approval
      ([durable_suspend_run]) and singletab, and the privacy deletion.
    - [Session] (same package as the leases): the sessions table, the
      session server, and its run handlers over the class [RunManager], which
      [Run] implements.
    - [Budget] (internal/budget): units, scopes, canonical requests, the two
      ledger tables as the record [ledger], policies, quotes, deadlines.
    - [Canonical] (internal/budget/canonical.go, [NormalizeResult] of loop.go,
      [ArgumentsHash] of internal/actionauth/binding.go): what identifies the
      arguments and the result of a tool call, from the bytes of its JSON.
    - [Delegation] (internal/delegation): bounded contracts and permissions.
    - [Admission] (internal/budget/controller.go): which scopes an execution is
      charged to and the admission of model calls; it composes the tables of
      [Run], [Session], [Ownership], [Delegation] and the ledger.
    - [Input] (apps/orchestrator/internal/input: store, control, interaction
      and communication_claim files): the table of accepted inputs as the
      record [queue_db], acceptance, claims, checkpoints, completion, and the
      hooks by which approvals, interactions and the owner's controls move
      an input; its histories also hold the privacy deletions
      (internal/memory/catalog/privacy.go) and the other statements on the
      table.
    - [ApprovalGate] (apps/orchestrator/internal/orchestrator/approval.go): the
      waiters of the running process, with their deadlines and cancellation.
    - [Approval] (apps/orchestrator/internal/approval: store, service, durable
      and control files): requests, exact actions, decisions, the choice
      between tabs, the sweep; [approval_db] extends [queue_db].  What a
      request needs of the queue is the record [CheckpointHooks], what it
      tells the process is the class [GateOps]; [ApprovalGate] is an instance.
    - [ApprovalProofs]: the theorems on [Approval], against those interfaces,
      the instance [input_hooks] of the first one, and what follows when the
      queue of [Input] stands behind it.
    - [Effect] (internal/actionauth: postgres.go, effect_postgres.go, the types
      of effect.go and the evidence rules of its browser, login and sign-on
      files): intents, grants, dispatches and evidence as the record
      [effect_db] beside the queue.
    - [EffectExternal] (internal/actionauth: external_auth_journal.go and the
      settling statements of stopped_local.go, external_auth_stopped.go and
      owner_outcome.go): the other writers of the journal; [EffectProofs] has
      the theorems on the journal under all its writers.
    - [Loop] (internal/budget: loop.go, external_auth.go, stopped_attempt.go,
      reviewed_preparation.go, communication_abandoned.go and [ReserveToolTx]):
      the guards and the price of a tool call, on the tables of the journal
      and of [Admission]; [loop_budgets] implements the interface [ToolBudgets]
      that a dispatch of [Effect] calls; [LoopProofs] has its theorems.
    - [BrowserScope] (internal/browserpage, browserauth, browsersso and
      externalauth): pages, login scopes, their origins and digests, and the
      network scope of a login.
    - [Mandate] (internal/actionauth: mandate.go, owner_authority.go,
      owner_deadline.go and the files of single capabilities): mandates,
      active hours and deadlines, resource scopes, denials, and the checks
      inside the transaction that dispatches; [MandateProofs] has the
      theorems and puts those checks behind the guard of [Effect].
    - [Binding] (internal/actionauth: binding.go, release.go,
      public_web_reads.go): the action a tool call is bound to and the
      release of data to the network; [Authorize] (service.go): preparation,
      authorization and verification over the store of [Effect], with the
      readers of other components as the fields of [Service];
      [AuthorizeProofs] has the theorems.
    - [Converter] (internal/generatedtools: manifest.go, interpreter.go,
      checker.go): packages of pure converters, the interpreter from
      delimited text to JSON, and the acceptance suite; [ConverterText] has
      the lemmas on the texts, [ConverterProofs] what a conversion returns,
      [ConverterCheck] what the suite guarantees.
    - [Outbox] (apps/orchestrator/internal/deliveryoutbox), [Delivery]
      (apps/orchestrator/internal/communication/delivery.go): the table of
      notifications, the interface [ClaimStore] as a class with the two
      stores as its instances, the round of the worker over it, and the
      redaction of results (privacy.go) and of publications (the trigger of
      migrations/090_communication_privacy.up.sql);
      [OutboxProofs] states the laws of the interface ([ClaimStoreLaws]),
      discharges them for both and has the theorems on the table.
    - [Egress] (internal/security/egress: policy.go, counter.go, http.go,
      proxy.go): public addresses, resolution, dialling, and the scoped proxy
      as a machine of its critical sections; [EgressProofs] has its theorems.
    - [Scheduling] (internal/scheduling): calendar schedules in a time zone.
    - [Telegram] (channel/telegram/formatting.go), [Codec]
      (internal/audio/wav.go and the browser bridge's frames): text and binary
      formats at the edges.

    ** How the sources are modelled

    A table is a finite map from its primary key to a record of its columns;
    an SQL statement is the function on that map it performs, its conditions
    written out.  A call takes the instants its statements read, the random
    bytes it draws and the errors its statements may return as arguments, so
    every interleaving of clocks and faults is covered by quantifying over
    them; it returns the new tables and a value or an error.  A transaction
    that is rolled back returns the tables it started from.  Histories are
    lists of calls, or step relations where calls interleave, and the
    invariants are proved for every history.  Instants are nanoseconds since
    the Unix epoch.

    ** What the theorems show

    Ownership: a token that was superseded never becomes valid again
    ([stale_token_stays_stale]); a live holder is not displaced
    ([live_lease_is_stable]); over either manager an acquisition is exclusive
    ([Server_AcquireLease_exclusive]); a fenced transaction publishes all or
    nothing and only under a token valid at its commit
    ([fenced_transaction_atomic]); the guards exclude each other and some
    thread can always proceed ([guards_exclusive_and_live]); a Redis lease
    says exactly when it ends ([redis_renewal_is_exact]).

    Runs: the table stays well formed ([run_table_invariant]) and runs only
    move along the lifecycle and never leave a terminal state
    ([run_lifecycle_respected]); of two transitions from one state one wins
    ([transition_from_same_state_once]); creation is idempotent
    ([create_run_idempotent], [Server_CreateRun_once]); the lifecycle itself
    passes its milestones and has no dead end ([completed_run_milestones],
    [lifecycle_progress]); encodings are inverse
    ([proto_conversions_inverse], [finished_at_round_trip]); error codes are
    as stated ([UpdateRunState_codes]).

    Sessions: the first creation wins ([session_identity_stable]), keys are
    distinct ([resolved_keys_are_distinct]), metadata is valid and compact
    ([normalized_metadata_is_compact]).

    Inputs: one input of a session runs at a time, in the order of acceptance
    ([session_inputs_serial]); a claim takes the oldest input that heads its
    session ([Claim_takes_oldest_head]); a claim once lost never writes again
    ([lost_input_claim_stays_lost]); a delivery is accepted once, and a
    different one under its identity, or any one after a privacy deletion of
    the first, is refused ([accept_once]).

    Approvals: every history of calls refines a machine that decides each
    request once ([approvals_refine_decisions]); no action goes ahead without
    the owner's recorded consent ([dispatched_actions_are_approved]), which is
    given only for the action as it was bound ([durable_approval_exact]); the
    sweep only expires ([sweep_only_expires]); a waiting call is decided at
    most once and never blocks ([gate_decides_once]), and is told what is
    stored ([gate_told_stored_decision]); a decision wakes exactly the input
    that waits for it ([decision_wakes_input]); one tab at most is selected
    ([SelectTabCandidate_exclusive]).

    Budgets: the ledger is exact and never overspent ([ledger_exact]);
    charging one scope is exact at machine width ([addWithinPolicy_exact]); a
    reservation charges once however often it is retried
    ([reservation_charges_once]); policies are immutable
    ([scope_policy_immutable]); quotes do not overflow ([ModelQuote_exact]);
    tool deadlines are the tightest ([ToolDeadlineTx_tightest]); no admitted
    work escapes an applicable budget ([scopes_complete]); an admitted model
    call is authorised, paid for and bounded ([AdmitModel_accounted]);
    so is a dispatched action ([dispatch_is_paid]);
    delegated permissions are exact ([Allows_exact]); the guards against
    repetition identify calls and results by what they say, numbers by their
    exact value ([loop_identity_exact]); the arguments an action is bound to
    have one meaning ([canonicalJSON_exact]).

    Effects: an external effect is dispatched at most once, whatever fails and
    however often it is asked for ([effects_dispatched_once]); a dispatch
    happens only under a live permission and lease, for a run in none of the
    states the guard refuses (a run that timed out is not among them) and for
    an active task ([dispatch_is_authorized]), a commit only when nothing of its task or
    conversation is uncertain ([commit_waits_for_uncertainty]), and the same
    call with the same result only as often as the policy allows
    ([repetition_is_bounded]); the journal stays consistent
    ([journal_invariant]) and every effect follows its life
    ([journal_refines_life]); a reconciliation settles an uncertain effect
    only by an independently captured read of its resource
    ([reconciliation_is_independent]); the reviews of stopped attempts, the
    owner's decision on an outcome and the end of an external login settle
    effects too, each by its own evidence, and are among the histories; and an
    interrupted effect can always be closed ([interrupted_effect_closes]).

    Authority: a permission is issued only for what an approval, a mandate or
    the autonomy of the run justifies ([grant_is_justified]), it ends with the
    lease and the authority behind it ([grant_is_bounded]), and it is verified
    only while what it was issued for is current
    ([verified_grant_is_current]); a dispatch stays within the mandate of its
    task and outside every denial ([dispatch_within_mandate]); a resource
    scope holds only resources under its origin and path
    ([resource_confined]), with the exception [encoded_separator_accepted];
    authority ends at its deadline and at the end of the active hours
    ([authority_ends_in_time]), and hours that stay open for two days are
    refused ([long_hours_are_refused]).

    Converters: a conversion returns exactly the JSON of the rows of its
    input, within every limit, or nothing ([Convert_spec]); its errors are
    fixed ([Convert_errors]); a package that passes the acceptance suite
    converts every input as its need describes
    ([accepted_program_meets_need]), but for what the module [Exceptions] of
    [ConverterCheck] shows.

    Notifications: splitting loses nothing and cuts no rune
    ([Split_lossless]); rows stay well typed ([outbox_rows_typed]) and follow
    one life under the calls of both stores, the writers and redactions
    ([outbox_refines_life]); chunks are tried in order
    ([chunks_tried_in_order]); a message is tried again only after an explicit
    absence ([redelivery_needs_absence]); the channel is called under a live
    claim only ([channel_called_under_claim]); the reported state is the worst
    one ([State_is_worst]) and the verdict on an attempt is as stated
    ([DeliveryOutcome_verdict]).

    Network: an address is public exactly when it is in no special range
    ([PublicAddress_not_special]); connections go to checked addresses of one
    resolution ([dial_is_pinned], with its exception in
    [zoned_literal_resolves]); in a frozen proxy every tunnel is closed, and a
    connection that is still open belongs to a cancelled request and never
    becomes a tunnel ([frozen_proxy_is_silent]); a proxy stays within its
    bounds ([proxy_is_bounded]), is never reopened once exhausted
    ([exhaustion_is_final]), and a request from before a freeze gets no tunnel
    after it ([stale_request_gets_no_tunnel]).

    Edges: schedules find exactly the wall-clock instants
    ([LocalInstants_exact]), the next occurrence ([NextAfter_least], with the
    case its condition excludes in [NextAfter_steps_over_a_date]) and at most
    one tick at a time ([Due_once]); rendering is safe and lossless
    ([render_safe_and_lossless]) and splitting terminates and keeps the text
    ([splitMessage_spec]); the binary formats round-trip ([wav_canonical],
    [frames_round_trip]).

    ** Bounds and fuel

    Integers keep their width wherever the code could overflow ([wrap64],
    [wrap_u32]); hypotheses named [*_int64] or [*_typed] only say that an
    argument is a value of its Go type.  The loops of [NextAfter] and [Due]
    try fifteen days, as in the code.  [splitMessage] and the renderer run on
    as much fuel as the text has bytes, and every round consumes a byte; the
    JSON decoder runs on [decode_fuel], and more changes nothing
    ([decode_fuel_enough]); the reader of records and the interpreter run on
    as much fuel as the text has bytes, every record is shorter than what was
    left ([Read_shorter]) and more fuel changes nothing
    ([parse_record_fuel]); the search for the end of the active hours tries
    the minutes of 48 hours, as in the code; the
    walk up a chain of tasks runs on the number of tasks, which only a cycle
    would exceed.  Runes are read on as much fuel as the text has bytes; the
    groups of an IPv6 address are at most eight.  The epoch of a proxy wraps at
    64 bits, so the theorem that compares epochs bounds the number of steps.
    A statement reads the clock of the database once.

    ** Parameters

    The normalisation of [::jsonb] in [Run], the status codes of the RPC
    library in [Session], the time zone database in [Scheduling], the payload
    decoder in [Codec], the installed authority resolver in [Admission], the
    texts of [jsonb] values and the JSON of events in [Input], and the JSON of
    a binding, the digest of arguments (which [Canonical] defines) and the
    order of texts in [Approval], the JSON columns, the scope rules and the
    guards of other components in [Effect], the guards, the decoder of
    arguments and the [jsonb] of a text in [Delivery], the resolver, the
    dialler and the Unicode tables in [Egress], the functions of the database
    that guard schedules and delegations in [Mandate], the JSON of a binding,
    the upper case of other scripts and the parsers of protocol arguments in
    [Binding], the fields of [Service] in [Authorize], and the decoder of a
    manifest and the answers of a context in [Converter]
    are arguments, with what is assumed of them stated by name.  [Effect]
    assumes that the JSON column of a piece of evidence keeps its verdict.

    ** Not modelled, and the plan

    Left out: of internal/budget the admission of local inference and of
    memory jobs; of internal/actionauth [PutMandate],
    which writes the tables that [Mandate] reads, [GetActionContext],
    [ResolveEffectPolicy], [BindDataSources], [BindExtensionAccess] and the
    parsers of the protocol messages; the durable life of converter packages
    (admission, activation and the developer's runs of
    internal/generatedtools); of package input the worker loop (service.go)
    and the decisions of the stopped attempts, of the retries of a model call
    and of the action slots (stopped_finalize.go, stopped_control.go,
    model_retry.go, action_slot.go, bounded_admission.go,
    converter_continuation.go, operator_doctor.go, communication_ingress.go),
    whose statements on accepted inputs only are in the histories of [Input];
    of the stopped attempts and outcome reviews of internal/actionauth
    everything but the statements that settle an effect; of publications,
    interactions and widgets of package communication all but the delivery;
    the task controller; memory selection.  Of package approval, [LockForControlTx] only
    takes row locks and owner_facts.go only reads.  The API handlers, the
    channels' network code, the providers and generated code are glue or I/O
    and stay outside. *)
From stdpp Require Export base gmap strings list fin_maps.
From Stdlib Require Export ZArith Lia.
From Corelib Require Export ssreflect.
#[export] Set Warnings "-rewrite-rw,-clear-no-such-hyp,-register-all".

Declare Scope go_scope.
Delimit Scope go_scope with go.
Open Scope Z_scope.
Global Open Scope general_if_scope.

(** ** Errors and fallible results *)

(** Status codes of the RPC layer that the services return. *)
Inductive grpc_code :=
| OK_ | Unknown | InvalidArgument | NotFound | AlreadyExists
| FailedPrecondition | Unimplemented | Internal.

(** An [error] value: a package-level sentinel made by [errors.New], a
    formatted message, a message that wraps another error ([%w]), an error
    type that unwraps to a cause but does not print it, or a status error of
    the RPC layer. *)
Inductive error :=
| ErrNew (name text : string)
| Errorf (text : string)
| ErrWrap (text : string) (inner : error)
| ErrOpaque (text : string) (inner : error)
| ErrStatus (code : grpc_code) (text : string).

#[global] Instance grpc_code_eq_dec : EqDecision grpc_code.
Proof. solve_decision. Defined.
#[global] Instance error_eq_dec : EqDecision error.
Proof. solve_decision. Defined.

(** [err.Error()]: [%w] prints the wrapped error after the prefix. *)
Fixpoint error_text (e : error) : string :=
  match e with
  | ErrNew _ text | Errorf text | ErrOpaque text _ | ErrStatus _ text => text
  | ErrWrap text inner => text +:+ error_text inner
  end.

(** [errors.Is]: walk the chain of wrapped errors. *)
Fixpoint errors_is (e target : error) : bool :=
  bool_decide (e = target) ||
  match e with ErrWrap _ inner | ErrOpaque _ inner => errors_is inner target | _ => false end.

(** The [(T, error)] convention. *)
Inductive res (A : Type) :=
| Ok (a : A)
| Err (e : error).
Arguments Ok {A} a.
Arguments Err {A} e.

#[global] Instance res_eq_dec `{EqDecision A} : EqDecision (res A).
Proof. solve_decision. Defined.

Definition res_bind {A B} (r : res A) (k : A -> res B) : res B :=
  match r with Ok a => k a | Err e => Err e end.

Notation "x <-! r ;; k" := (res_bind r (fun x => k))
  (at level 60, r at next level, right associativity) : go_scope.

(** An early return: [if c { return err }]. *)
Definition fail_if {A} (c : bool) (e : error) (k : res A) : res A :=
  if c then Err e else k.

Notation "'fail_when' c 'with' e ;; k" := (fail_if c e k)
  (at level 60, c at next level, e at next level, right associativity) : go_scope.

Definition is_ok {A} (r : res A) : bool :=
  match r with Ok _ => true | Err _ => false end.

Lemma res_bind_Ok {A B} (r : res A) (k : A -> res B) b :
  res_bind r k = Ok b <-> exists a, r = Ok a /\ k a = Ok b.
Proof. destruct r; simpl; naive_solver. Qed.

Lemma res_bind_Err {A B} (r : res A) (k : A -> res B) e :
  res_bind r k = Err e <-> r = Err e \/ exists a, r = Ok a /\ k a = Err e.
Proof. destruct r; simpl; naive_solver. Qed.

Lemma fail_if_Ok {A} c e (k : res A) a :
  fail_if c e k = Ok a <-> c = false /\ k = Ok a.
Proof. destruct c; simpl; naive_solver. Qed.

(** ** Machine-width integers *)

Definition max_int64 : Z := 9223372036854775807.
Definition min_int64 : Z := -9223372036854775808.
Definition in_int64 (z : Z) : Prop := min_int64 <= z <= max_int64.

(** Two's-complement wrap-around of a mathematical result. *)
Definition wrap64 (z : Z) : Z :=
  (z + 9223372036854775808) mod 18446744073709551616 - 9223372036854775808.

Definition wrap_u32 (z : Z) : Z := z mod 4294967296.

Lemma wrap64_id z : in_int64 z -> wrap64 z = z.
Proof.
  unfold in_int64, wrap64, min_int64, max_int64. intros H.
  rewrite Z.mod_small; lia.
Qed.

Lemma wrap64_range z : in_int64 (wrap64 z).
Proof.
  unfold in_int64, wrap64, min_int64, max_int64.
  pose proof (Z.mod_pos_bound (z + 9223372036854775808) 18446744073709551616).
  lia.
Qed.

Lemma wrap_u32_id z : 0 <= z < 4294967296 -> wrap_u32 z = z.
Proof. intros. by apply Z.mod_small. Qed.

(** Division of Go truncates toward zero. *)
Definition go_div (a b : Z) : Z := Z.quot a b.

(** ** Automation *)

Create HintDb go.
Create Rewrite HintDb go_rw.
#[export] Hint Rewrite @res_bind_Ok @fail_if_Ok : go_rw.
#[export] Hint Resolve wrap64_range : go.

(** Split a chain of guards in a hypothesis [... = Ok _] into its parts. *)
Ltac go_ok H :=
  repeat first
    [ rewrite res_bind_Ok in H
    | rewrite fail_if_Ok in H
    | match type of H with
      | _ /\ _ => let H1 := fresh "Hg" in destruct H as [H1 H]
      | exists x, _ => let x := fresh x in destruct H as [x H]
      end ].

(** Turn boolean tests in hypotheses into propositions. *)
Ltac unbool :=
  repeat match goal with
  | H : orb _ _ = false |- _ => apply orb_false_iff in H; destruct H
  | H : andb _ _ = true |- _ => apply andb_true_iff in H; destruct H
  | H : negb _ = true |- _ => apply negb_true_iff in H
  | H : negb _ = false |- _ => apply negb_false_iff in H
  | H : bool_decide _ = true |- _ => apply bool_decide_eq_true in H
  | H : bool_decide _ = false |- _ => apply bool_decide_eq_false in H
  | H : Z.ltb _ _ = true |- _ => apply Z.ltb_lt in H
  | H : Z.ltb _ _ = false |- _ => apply Z.ltb_ge in H
  | H : Z.leb _ _ = true |- _ => apply Z.leb_le in H
  | H : Z.leb _ _ = false |- _ => apply Z.leb_gt in H
  | H : Z.eqb _ _ = true |- _ => apply Z.eqb_eq in H
  | H : Z.eqb _ _ = false |- _ => apply Z.eqb_neq in H
  end.
