(* ===== verification/GoStrings.v ===== *)
(** * GoStrings: package [strings] on byte strings

    The functions of package [strings] the components call, written on the
    bytes of a Go string: [TrimSpace] knows the UTF-8 encodings of every
    Unicode white-space rune, as [unicode.IsSpace] does. *)
From S2P Require Import Prelude.
From Stdlib Require Import Ascii.

Definition byte_at (n : N) : ascii := ascii_of_N n.
Definition byte_val (a : ascii) : Z := Z.of_N (N_of_ascii a).

(** [len(s)]: the number of bytes. *)
Definition go_len (s : string) : Z := Z.of_nat (String.length s).

(** ** Prefixes, suffixes, substrings *)

Fixpoint HasPrefix (s p : string) {struct p} : bool :=
  match p, s with
  | EmptyString, _ => true
  | String b p', String a s' => bool_decide (a = b) && HasPrefix s' p'
  | _, EmptyString => false
  end.

Definition HasSuffix (s p : string) : bool :=
  HasPrefix (String.rev s) (String.rev p).

Fixpoint Contains (s sub : string) : bool :=
  HasPrefix s sub ||
  match s with EmptyString => false | String _ s' => Contains s' sub end.

(** [strings.Join(parts, sep)]. *)
Fixpoint Join (parts : list string) (sep : string) : string :=
  match parts with
  | [] => ""
  | [p] => p
  | p :: rest => p +:+ sep +:+ Join rest sep
  end.

(** ** White space *)

(** The one-, two- and three-byte encodings of white-space runes. *)
Definition space1 (a : ascii) : bool :=
  let n := N_of_ascii a in
  (N.leb 9 n && N.leb n 13) || N.eqb n 32.

Definition space2 (a b : ascii) : bool :=
  N.eqb (N_of_ascii a) 0xC2 &&
  (N.eqb (N_of_ascii b) 0x85 || N.eqb (N_of_ascii b) 0xA0).

Definition space3 (a b c : ascii) : bool :=
  let x := N_of_ascii a in let y := N_of_ascii b in let z := N_of_ascii c in
  (N.eqb x 0xE1 && N.eqb y 0x9A && N.eqb z 0x80)
  || (N.eqb x 0xE2 && N.eqb y 0x80 &&
      ((N.leb 0x80 z && N.leb z 0x8A) || N.eqb z 0xA8 || N.eqb z 0xA9 || N.eqb z 0xAF))
  || (N.eqb x 0xE2 && N.eqb y 0x81 && N.eqb z 0x9F)
  || (N.eqb x 0xE3 && N.eqb y 0x80 && N.eqb z 0x80).

Section trimming.
(** [two a b] and [three a b c] recognise a multi-byte space in reading
    order: forward for the left end, backward for the right end. *)
Context (two : ascii -> ascii -> bool) (three : ascii -> ascii -> ascii -> bool).

Fixpoint trim_with (s : string) : string :=
  match s with
  | String a s1 =>
      if space1 a then trim_with s1 else
      match s1 with
      | String b s2 =>
          if two a b then trim_with s2 else
          match s2 with
          | String c s3 => if three a b c then trim_with s3 else s
          | EmptyString => s
          end
      | EmptyString => s
      end
  | EmptyString => s
  end.

(** Nothing to trim at this end. *)
Definition trimmed (s : string) : bool :=
  match s with
  | String a s1 => negb (space1 a) &&
      match s1 with
      | String b s2 => negb (two a b) &&
          match s2 with String c _ => negb (three a b c) | EmptyString => true end
      | EmptyString => true
      end
  | EmptyString => true
  end.

Lemma trim_with_trimmed_id s : trimmed s = true -> trim_with s = s.
Proof.
  destruct s as [|a [|b [|c s]]]; simpl; [done|..];
    destruct (space1 a); simpl; try done;
    destruct (two a b); simpl; try done;
    by destruct (three a b c).
Qed.

Lemma trim_with_strong n s :
  (String.length s <= n)%nat ->
  trimmed (trim_with s) = true /\ exists p, s = p +:+ trim_with s.
Proof.
  revert s. induction n as [|n IH]; intros [|a s1] Hn; simpl in Hn; try lia.
  1,2: split; [done | by exists ""].
  assert (Hstep : forall s2 p, (String.length s2 <= n)%nat ->
    trimmed (trim_with s2) = true /\
    exists q, p +:+ s2 = q +:+ trim_with s2).
  { intros s2 p H2. destruct (IH s2 H2) as [Ht [q Hq]]. split; [done|].
    exists (p +:+ q). rewrite {1}Hq. clear.
    induction p; [done|]. rewrite /String.append /=. by f_equal. }
  simpl. destruct (space1 a) eqn:E1.
  { by apply (Hstep s1 (String a "")); lia. }
  destruct s1 as [|b s2]; simpl in *.
  { rewrite E1. split; [done | by exists ""]. }
  destruct (two a b) eqn:E2.
  { by apply (Hstep s2 (String a (String b ""))); lia. }
  destruct s2 as [|c s3]; simpl in *.
  { rewrite E1 E2. split; [done | by exists ""]. }
  destruct (three a b c) eqn:E3.
  { by apply (Hstep s3 (String a (String b (String c "")))); lia. }
  simpl. rewrite E1 E2 E3. split; [done | by exists ""].
Qed.

Lemma trim_with_trimmed s : trimmed (trim_with s) = true.
Proof. by apply (trim_with_strong (String.length s) s). Qed.

Lemma trim_with_suffix s : exists p, s = p +:+ trim_with s.
Proof. by apply (trim_with_strong (String.length s) s). Qed.

(** A prefix of a trimmed string is trimmed. *)
Lemma trimmed_prefix p q : trimmed (p +:+ q) = true -> trimmed p = true.
Proof.
  destruct p as [|a [|b [|c p]]]; simpl; try done; intros H.
  - by destruct (space1 a).
  - destruct (space1 a), (two a b); simpl in *; done.
Qed.
End trimming.

Definition trim_left : string -> string := trim_with space2 space3.
Definition trim_right_rev : string -> string :=
  trim_with (fun a b => space2 b a) (fun a b c => space3 c b a).

(** [strings.TrimSpace]. *)
Definition TrimSpace (s : string) : string :=
  String.rev (trim_right_rev (String.rev (trim_left s))).

(** ** Lemmas on byte strings *)

Lemma append_nil_r (s : string) : s +:+ "" = s.
Proof. induction s; [done|]. rewrite /String.append /=. by f_equal. Qed.

Lemma append_assoc (s t u : string) : s +:+ (t +:+ u) = (s +:+ t) +:+ u.
Proof. induction s; [done|]. rewrite /String.append /=. by f_equal. Qed.

Lemma length_append (s t : string) :
  String.length (s +:+ t) = (String.length s + String.length t)%nat.
Proof. induction s; [done|]. rewrite /String.append /=. by f_equal. Qed.

Lemma rev_app_append (s t : string) : String.rev_app s t = String.rev s +:+ t.
Proof.
  unfold String.rev. revert t. induction s as [|a s IH]; intros t; [done|].
  simpl. rewrite IH (IH (String a "")). by rewrite -append_assoc.
Qed.

Lemma rev_cons (a : ascii) (s : string) :
  String.rev (String a s) = String.rev s +:+ String a "".
Proof. unfold String.rev. simpl. by rewrite rev_app_append. Qed.

Lemma rev_append (s t : string) :
  String.rev (s +:+ t) = String.rev t +:+ String.rev s.
Proof.
  induction s as [|a s IH].
  - by rewrite append_nil_r.
  - change (String a s +:+ t) with (String a (s +:+ t)).
    by rewrite !rev_cons IH -append_assoc.
Qed.

Lemma rev_involutive (s : string) : String.rev (String.rev s) = s.
Proof. induction s as [|a s IH]; [done|]. by rewrite rev_cons rev_append IH. Qed.

Lemma HasPrefix_spec s p : HasPrefix s p = true <-> exists t, s = p +:+ t.
Proof.
  revert s. induction p as [|b p IH]; intros s; simpl.
  - split; [intros _; by exists s | done].
  - destruct s as [|a s]; [split; [done | by intros [t ?]]|].
    rewrite andb_true_iff bool_decide_eq_true IH. split.
    + intros [-> [t ->]]. by exists t.
    + intros [t [= -> ->]]. eauto.
Qed.

Lemma HasSuffix_spec s p : HasSuffix s p = true <-> exists t, s = t +:+ p.
Proof.
  unfold HasSuffix. rewrite HasPrefix_spec. split; intros [t Ht].
  - exists (String.rev t). by rewrite -(rev_involutive s) Ht rev_append rev_involutive.
  - exists (String.rev t). by rewrite Ht rev_append.
Qed.

Lemma Contains_spec s sub :
  Contains s sub = true <-> exists p t, s = p +:+ sub +:+ t.
Proof.
  induction s as [|a s IH]; simpl; rewrite orb_true_iff HasPrefix_spec.
  - split.
    + intros [[t Ht]|]; [by exists "", t | done].
    + intros (p & t & H). left. exists t. by destruct p.
  - rewrite IH. split.
    + intros [[t Ht]|(p & t & ->)]; [by exists "", t | by exists (String a p), t].
    + intros ([|b p] & t & H); [left; by exists t|].
      right. exists p, t. by injection H.
Qed.

(** [TrimSpace] is idempotent: a stored, trimmed key is its own key. *)
Lemma TrimSpace_idemp s : TrimSpace (TrimSpace s) = TrimSpace s.
Proof.
  unfold TrimSpace. set (l := trim_left s). set (r := trim_right_rev (String.rev l)).
  assert (Hl : trimmed space2 space3 (String.rev r) = true).
  { destruct (trim_with_suffix (fun a b => space2 b a) (fun a b c => space3 c b a)
      (String.rev l)) as [p Hp].
    apply (trimmed_prefix _ _ _ (String.rev p)). rewrite -rev_append.
    unfold r, trim_right_rev. rewrite -Hp rev_involutive.
    apply trim_with_trimmed. }
  unfold trim_left at 1. rewrite (trim_with_trimmed_id _ _ _ Hl) rev_involutive.
  f_equal. unfold r, trim_right_rev at 1.
  apply trim_with_trimmed_id, trim_with_trimmed.
Qed.

(** A visible ASCII character is no part of a white-space rune. *)
Definition visible (a : ascii) : bool :=
  N.leb 33 (N_of_ascii a) && N.leb (N_of_ascii a) 126.

Lemma visible_trimmed two three a s :
  (forall b, two a b = false) -> (forall b c, three a b c = false) ->
  visible a = true -> trim_with two three (String a s) = String a s.
Proof.
  intros H2 H3 Ha. apply trim_with_trimmed_id. unfold visible in Ha.
  apply andb_true_iff in Ha as [Ha1%N.leb_le Ha2%N.leb_le]. simpl.
  assert (space1 a = false) as ->.
  { unfold space1. apply orb_false_iff. split.
    - apply andb_false_iff. right. apply N.leb_gt. lia.
    - apply N.eqb_neq. lia. }
  simpl. destruct s as [|b [|c s]]; rewrite ?H2 ?H3; done.
Qed.

Lemma visible_space2 a b : visible a = true -> space2 a b = false.
Proof.
  unfold visible, space2. intros [_ H%N.leb_le]%andb_true_iff.
  apply andb_false_iff. left. apply N.eqb_neq. lia.
Qed.

Lemma visible_space3 a b c : visible a = true -> space3 a b c = false.
Proof.
  unfold visible, space3. intros [_ H%N.leb_le]%andb_true_iff.
  rewrite !(proj2 (N.eqb_neq (N_of_ascii a) _)); solve [lia|done].
Qed.

Lemma visible_space2_r a b : visible b = true -> space2 a b = false.
Proof.
  unfold visible, space2. intros [_ H%N.leb_le]%andb_true_iff.
  rewrite !(proj2 (N.eqb_neq (N_of_ascii b) _)); solve [lia|by rewrite andb_false_r].
Qed.

Lemma visible_space3_r a b c : visible c = true -> space3 a b c = false.
Proof.
  unfold visible, space3. intros [_ H%N.leb_le]%andb_true_iff.
  assert (N.leb 0x80 (N_of_ascii c) = false) as -> by (apply N.leb_gt; lia).
  rewrite !(proj2 (N.eqb_neq (N_of_ascii c) _)); solve [lia|by rewrite !andb_false_r].
Qed.

(** Text between visible characters is left alone. *)
Lemma TrimSpace_visible a s b : visible a = true -> visible b = true ->
  TrimSpace (String a s +:+ String b "") = String a s +:+ String b "".
Proof.
  intros Ha Hb. unfold TrimSpace, trim_left, trim_right_rev.
  change (String a s +:+ String b "") with (String a (s +:+ String b "")).
  rewrite visible_trimmed; [by intros; apply visible_space2|by intros; apply visible_space3|done|].
  rewrite rev_cons rev_append.
  change (String.rev (String b "")) with (String b "").
  change ((String b "" +:+ String.rev s) +:+ String a "")
    with (String b (String.rev s +:+ String a "")).
  rewrite visible_trimmed; [by intros; apply visible_space2_r|by intros; apply visible_space3_r|done|].
  rewrite rev_cons rev_append rev_involutive. done.
Qed.

(** ** Texts joined by colons *)

Lemma append_inj_l (p s t : string) : p +:+ s = p +:+ t -> s = t.
Proof. induction p as [|a p IH]; [done|]. intros [= H]. by apply IH. Qed.

Definition no_colon (s : string) : Prop := Contains s ":" = false.

Lemma no_colon_append s t : ~ no_colon (s +:+ ":" +:+ t).
Proof.
  intros H. unfold no_colon in H. apply not_true_iff_false in H. apply H, Contains_spec. eauto.
Qed.

(** The last colon splits a string in one way. *)
Lemma last_colon_inj s1 t1 s2 t2 : no_colon t1 -> no_colon t2 ->
  s1 +:+ ":" +:+ t1 = s2 +:+ ":" +:+ t2 -> s1 = s2 /\ t1 = t2.
Proof.
  intros H1 H2. revert s2. induction s1 as [|a s1 IH]; intros [|b s2] E.
  - by injection E.
  - change (String ":" t1 = String b (s2 +:+ ":" +:+ t2)) in E. injection E as <- E.
    subst t1. by apply no_colon_append in H1.
  - change (String a (s1 +:+ ":" +:+ t1) = String ":" t2) in E. injection E as -> E.
    subst t2. by apply no_colon_append in H2.
  - change (String a (s1 +:+ ":" +:+ t1) = String b (s2 +:+ ":" +:+ t2)) in E.
    injection E as <- E. apply IH in E as [-> ->]. done.
Qed.

(** So does the first. *)
Lemma first_colon_inj s1 t1 s2 t2 : no_colon s1 -> no_colon s2 ->
  s1 +:+ ":" +:+ t1 = s2 +:+ ":" +:+ t2 -> s1 = s2 /\ t1 = t2.
Proof.
  revert s2. induction s1 as [|a s1 IH]; intros [|b s2] H1 H2 E.
  - by injection E.
  - change (String ":" t1 = String b (s2 +:+ ":" +:+ t2)) in E. injection E as <- E.
    unfold no_colon in H2. simpl in H2. done.
  - change (String a (s1 +:+ ":" +:+ t1) = String ":" t2) in E. injection E as -> E.
    unfold no_colon in H1. simpl in H1. done.
  - change (String a (s1 +:+ ":" +:+ t1) = String b (s2 +:+ ":" +:+ t2)) in E.
    injection E as <- E. apply IH in E as [-> ->]; [done|..];
      unfold no_colon in *; simpl in *; by apply orb_false_iff in H1 as [_ ?], H2 as [_ ?].
Qed.

Lemma go_len_nonneg s : 0 <= go_len s.
Proof. unfold go_len. lia. Qed.

Lemma go_len_append s t : go_len (s +:+ t) = go_len s + go_len t.
Proof. unfold go_len. rewrite length_append. lia. Qed.

#[export] Hint Resolve go_len_nonneg : go.
#[export] Hint Rewrite go_len_append append_nil_r TrimSpace_idemp : go_rw.
