(* ===== verification/GoBytes.v ===== *)
(** * GoBytes: byte sequences

    Strings and byte slices that the code indexes and cuts, as lists of
    bytes: prefix tests, [strings.Index], [strings.LastIndex], trimming of
    one byte, [strings.ReplaceAll], [strings.ToLower], [html.EscapeString] and
    the little-endian integers of [encoding/binary]. *)
From Stdlib Require Import Ascii.
From S2P Require Import Prelude GoStrings.
Open Scope Z_scope.

Definition bytes := list ascii.
Definition lit (s : string) : bytes := String.list_ascii_of_string s.
Definition str (b : bytes) : string := String.string_of_list_ascii b.
Definition blen (b : bytes) : Z := Z.of_nat (length b).

(** The line feed, the carriage return and the apostrophe. *)
Definition LF : ascii := "010".
Definition CR : ascii := "013".

(** ** Searching *)

Fixpoint has_prefix (s p : bytes) {struct p} : bool :=
  match p, s with
  | [], _ => true
  | c :: p', a :: s' => bool_decide (a = c) && has_prefix s' p'
  | _ :: _, [] => false
  end.

(** [strings.Index], [strings.IndexByte]. *)
Fixpoint index (s sub : bytes) : option nat :=
  if has_prefix s sub then Some O
  else match s with [] => None | _ :: s' => S <$> index s' sub end.

Definition index_byte (s : bytes) (c : ascii) : option nat := index s [c].

(** [strings.LastIndex]. *)
Fixpoint last_index (s sub : bytes) : option nat :=
  match s with
  | [] => if has_prefix [] sub then Some O else None
  | _ :: s' =>
      match last_index s' sub with
      | Some i => Some (S i)
      | None => if has_prefix s sub then Some O else None
      end
  end.

(** [strings.TrimLeft] and [strings.Trim] with one byte as the cut set. *)
Fixpoint trim_left (c : ascii) (s : bytes) : bytes :=
  match s with [] => [] | a :: s' => if bool_decide (a = c) then trim_left c s' else s end.

Definition trim (c : ascii) (s : bytes) : bytes := reverse (trim_left c (reverse (trim_left c s))).

(** [strings.ReplaceAll(s, old, new)] for an [old] that is not empty; [skip]
    bytes of a match are still to be passed over. *)
Fixpoint replace_from (skip : nat) (old new s : bytes) : bytes :=
  match s with
  | [] => []
  | a :: s' =>
      match skip with
      | S k => replace_from k old new s'
      | O => if has_prefix s old then new ++ replace_from (length old - 1) old new s'
             else a :: replace_from O old new s'
      end
  end.

Definition replace_all (s old new : bytes) : bytes := replace_from O old new s.

(** [html.EscapeString]. *)
Definition escape_byte (c : ascii) : bytes :=
  if bool_decide (c = "&"%char) then lit "&amp;"
  else if bool_decide (c = "'"%char) then lit "&#39;"
  else if bool_decide (c = "<"%char) then lit "&lt;"
  else if bool_decide (c = ">"%char) then lit "&gt;"
  else if bool_decide (c = "034"%char) then lit "&#34;"
  else [c].

Definition escape (s : bytes) : bytes := s ≫= escape_byte.

(** ** Facts *)

Lemma has_prefix_spec s p : has_prefix s p = true <-> exists t, s = p ++ t.
Proof.
  revert s. induction p as [|c p IH]; intros s; simpl.
  { split; [by exists s|done]. }
  destruct s as [|a s]; simpl; [split; [done|by intros [t Ht]]|].
  rewrite andb_true_iff bool_decide_eq_true IH. split.
  - intros [-> [t ->]]. by exists t.
  - intros [t [= -> ->]]. split; [done|by exists t].
Qed.

Lemma index_Some s sub i : index s sub = Some i ->
  exists pre post, s = pre ++ sub ++ post /\ length pre = i.
Proof.
  revert i. induction s as [|a s IH]; intros i; simpl.
  - destruct (has_prefix [] sub) eqn:E; [|done]. intros [= <-].
    apply has_prefix_spec in E as [t Ht]. by exists [], t.
  - destruct (has_prefix (a :: s) sub) eqn:E.
    + intros [= <-]. apply has_prefix_spec in E as [t Ht]. by exists [], t.
    + intros (j & Hj & ->)%fmap_Some. apply IH in Hj as (pre & post & -> & <-).
      by exists (a :: pre), post.
Qed.

Lemma last_index_Some s sub i : last_index s sub = Some i ->
  exists pre post, s = pre ++ sub ++ post /\ length pre = i.
Proof.
  revert i. induction s as [|a s IH]; intros i; simpl.
  - destruct (has_prefix [] sub) eqn:E; [|done]. intros [= <-].
    apply has_prefix_spec in E as [t Ht]. by exists [], t.
  - destruct (last_index s sub) as [j|].
    + intros [= <-]. destruct (IH j eq_refl) as (pre & post & -> & <-). by exists (a :: pre), post.
    + destruct (has_prefix (a :: s) sub) eqn:E; [|done]. intros [= <-].
      apply has_prefix_spec in E as [t Ht]. by exists [], t.
Qed.

Lemma trim_left_spec c s : exists k, s = replicate k c ++ trim_left c s.
Proof.
  induction s as [|a s [k IH]]; simpl; [by exists O|].
  case_bool_decide as E; [|by exists O]. exists (S k). simpl. by rewrite E {1}IH.
Qed.

Lemma trim_left_length c s : (length (trim_left c s) <= length s)%nat.
Proof. induction s; simpl; [done|]. case_bool_decide; simpl; lia. Qed.

Lemma trim_spec c s : exists j k, s = replicate j c ++ trim c s ++ replicate k c.
Proof.
  destruct (trim_left_spec c s) as [j Hj].
  destruct (trim_left_spec c (reverse (trim_left c s))) as [k Hk].
  exists j, k. rewrite {1}Hj. f_equal. unfold trim.
  rewrite -(reverse_involutive (trim_left c s)) {1}Hk reverse_app reverse_replicate.
  by rewrite reverse_involutive.
Qed.

(** Bytes that have a meaning in the markup. *)
Definition markup : list ascii := ["<"; ">"; "034"; "'"]%char.

Lemma escape_byte_safe c a : a ∈ escape_byte c -> a ∉ markup.
Proof.
  unfold escape_byte. repeat case_bool_decide; intros Ha; vm_compute in Ha; unfold markup; set_solver.
Qed.

Lemma escape_safe s a : a ∈ escape s -> a ∉ markup.
Proof. unfold escape. intros (c & Ha & _)%list_elem_of_bind. by apply (escape_byte_safe c). Qed.

Lemma escape_app s t : escape (s ++ t) = escape s ++ escape t.
Proof. apply bind_app. Qed.

(** ** Case, trimming, sets of bytes *)

Definition byte_of (z : Z) : ascii := ascii_of_N (Z.to_N (z mod 256)).

(** The lower case of text that is not ASCII. *)
Class UnicodeLower := unicode_lower : string -> string.

Definition lower_byte (c : ascii) : ascii :=
  if Z.leb 65 (byte_val c) && Z.leb (byte_val c) 90 then byte_of (byte_val c + 32) else c.

(** [strings.ToLower]. *)
Definition ToLower `{!UnicodeLower} (s : string) : string :=
  if forallb (fun c => Z.ltb (byte_val c) 128) (lit s) then str (map lower_byte (lit s))
  else unicode_lower s.

Definition TrimSuffix (s suffix : string) : string :=
  if HasSuffix s suffix then String.substring 0 (String.length s - String.length suffix) s else s.
Definition TrimPrefix (s prefix : string) : string :=
  if HasPrefix s prefix
  then String.substring (String.length prefix) (String.length s - String.length prefix) s else s.

(** [strings.ContainsAny] for a set of ASCII bytes. *)
Definition ContainsAny (s : string) (set : list ascii) : bool :=
  existsb (fun c => bool_decide (c ∈ set)) (lit s).

(** ** Little-endian integers *)

(** [PutUint16], [PutUint32] and the readers. *)
Definition put16 (z : Z) : bytes := [byte_of z; byte_of (z / 256)].
Definition put32 (z : Z) : bytes :=
  [byte_of z; byte_of (z / 256); byte_of (z / 65536); byte_of (z / 16777216)].

Definition get16 (b : bytes) : Z :=
  match b with [a; c] => byte_val a + 256 * byte_val c | _ => 0 end.
Definition get32 (b : bytes) : Z :=
  match b with
  | [a; c; d; e] => byte_val a + 256 * byte_val c + 65536 * byte_val d + 16777216 * byte_val e
  | _ => 0
  end.

Lemma byte_val_of z : byte_val (byte_of z) = z mod 256.
Proof.
  unfold byte_val, byte_of. rewrite N_ascii_embedding.
  - pose proof (Z.mod_pos_bound z 256). lia.
  - pose proof (Z.mod_pos_bound z 256). rewrite Z2N.id; lia.
Qed.

Lemma byte_val_range a : 0 <= byte_val a < 256.
Proof. unfold byte_val. pose proof (N_ascii_bounded a). lia. Qed.

Lemma byte_of_val a : byte_of (byte_val a) = a.
Proof.
  pose proof (byte_val_range a). unfold byte_of. rewrite Z.mod_small; [done|].
  unfold byte_val. by rewrite N2Z.id ascii_N_embedding.
Qed.

Lemma byte_of_eq z a : z mod 256 = byte_val a -> byte_of z = a.
Proof. intros E. rewrite -(byte_of_val a) -E. unfold byte_of. by rewrite Z.mod_mod. Qed.

Lemma get16_put z : 0 <= z < 65536 -> get16 (put16 z) = z.
Proof. intros H. cbn [get16 put16]. rewrite !byte_val_of. Z.to_euclidean_division_equations; lia. Qed.

Lemma get32_put z : 0 <= z < 4294967296 -> get32 (put32 z) = z.
Proof. intros H. cbn [get32 put32]. rewrite !byte_val_of. Z.to_euclidean_division_equations; lia. Qed.

Lemma put16_get b : length b = 2%nat -> put16 (get16 b) = b.
Proof.
  destruct b as [|a [|c [|]]]; try done. intros _. cbn [get16]. unfold put16.
  pose proof (byte_val_range a). pose proof (byte_val_range c).
  rewrite (byte_of_eq _ a); [Z.to_euclidean_division_equations; lia|].
  rewrite (byte_of_eq _ c); [Z.to_euclidean_division_equations; lia|done].
Qed.

Lemma put32_get b : length b = 4%nat -> put32 (get32 b) = b.
Proof.
  destruct b as [|a [|c [|d [|e [|]]]]]; try done. intros _. cbn [get32]. unfold put32.
  pose proof (byte_val_range a). pose proof (byte_val_range c).
  pose proof (byte_val_range d). pose proof (byte_val_range e).
  rewrite (byte_of_eq _ a); [Z.to_euclidean_division_equations; lia|].
  rewrite (byte_of_eq _ c); [Z.to_euclidean_division_equations; lia|].
  rewrite (byte_of_eq _ d); [Z.to_euclidean_division_equations; lia|].
  rewrite (byte_of_eq _ e); [Z.to_euclidean_division_equations; lia|done].
Qed.

Lemma get32_range b : 0 <= get32 b < 4294967296.
Proof.
  destruct b as [|a [|c [|d [|e [|]]]]]; cbn [get32]; try lia.
  pose proof (byte_val_range a). pose proof (byte_val_range c).
  pose proof (byte_val_range d). pose proof (byte_val_range e). lia.
Qed.

(** ** Bytes and strings *)

Lemma lit_append s t : lit (s +:+ t) = lit s ++ lit t.
Proof. induction s as [|a s IH]; [done|]. by rewrite /String.append /= -/(lit _) IH. Qed.
Lemma lit_str b : lit (str b) = b.
Proof. apply String.list_ascii_of_string_of_list_ascii. Qed.
Lemma str_lit s : str (lit s) = s.
Proof. apply String.string_of_list_ascii_of_string. Qed.
Lemma str_inj a b : str a = str b -> a = b.
Proof. intros H. by rewrite -(lit_str a) H lit_str. Qed.
