(* ===== verification/GoJson.v ===== *)
(** * GoJson: the scanner of package [encoding/json]

    [json.Valid] and [json.Compact] run the byte-by-byte scanner of
    [encoding/json]: a state, and a stack of the objects and arrays that are
    open.  The same machine is written here; compaction keeps the bytes that
    the scanner does not report as insignificant. *)
From Stdlib Require Import Ascii.
From S2P Require Import Prelude GoStrings.
Open Scope Z_scope.

(** What is open around the current position. *)
Inductive jctx := ObjectKey | ObjectValue | ArrayValue.

Inductive jstate :=
| BeginValueOrEmpty | BeginValue | BeginStringOrEmpty | BeginString | EndValue | EndTop
| InString | InStringEsc | EscU (left : nat)
| NumNeg | Num1 | Num0 | NumDot | NumDot0 | NumE | NumESign | NumE0
| Literal (rest : string).

#[global] Instance jctx_eq_dec : EqDecision jctx.
Proof. solve_decision. Defined.
#[global] Instance jstate_eq_dec : EqDecision jstate.
Proof. solve_decision. Defined.

(** [scanContinue] and its like keep the byte; [scanSkipSpace] and [scanEnd]
    drop it. *)
Inductive jverdict := Keep | Drop.

Abbreviation jconf := (jstate * list jctx)%type.

Definition is_char (c d : ascii) : bool := bool_decide (c = d).
Definition is_space (c : ascii) : bool :=
  let n := byte_val c in Z.eqb n 32 || Z.eqb n 9 || Z.eqb n 10 || Z.eqb n 13.
Definition is_digit (c : ascii) : bool := let n := byte_val c in Z.leb 48 n && Z.leb n 57.
Definition is_digit19 (c : ascii) : bool := let n := byte_val c in Z.leb 49 n && Z.leb n 57.
Definition is_hex (c : ascii) : bool :=
  let n := byte_val c in
  is_digit c || (Z.leb 97 n && Z.leb n 102) || (Z.leb 65 n && Z.leb n 70).
Definition quote_char : ascii := ascii_of_nat 34.
Definition backslash : ascii := ascii_of_nat 92.

Definition maxNestingDepth : Z := 10000.

Definition push (k : jctx) (st : jstate) (stk : list jctx) : option (jverdict * jconf) :=
  if Z.leb (Z.of_nat (S (length stk))) maxNestingDepth then Some (Keep, (st, k :: stk)) else None.

(** [popParseState]. *)
Definition pop (stk : list jctx) : option (jverdict * jconf) :=
  Some (Keep, (match stk with [] => EndTop | _ => EndValue end, stk)).

(** [stateEndTop]. *)
Definition step_end_top (stk : list jctx) (c : ascii) : option (jverdict * jconf) :=
  if is_space c then Some (Drop, (EndTop, stk)) else None.

(** [stateEndValue]. *)
Definition step_end_value (stk : list jctx) (c : ascii) : option (jverdict * jconf) :=
  match stk with
  | [] => step_end_top stk c
  | k :: below =>
      if is_space c then Some (Drop, (EndValue, stk)) else
      match k with
      | ObjectKey =>
          if is_char c ":" then Some (Keep, (BeginValue, ObjectValue :: below)) else None
      | ObjectValue =>
          if is_char c "," then Some (Keep, (BeginString, ObjectKey :: below))
          else if is_char c "}" then pop below else None
      | ArrayValue =>
          if is_char c "," then Some (Keep, (BeginValue, stk))
          else if is_char c "]" then pop below else None
      end
  end.

(** [stateBeginValue]. *)
Definition step_begin_value (stk : list jctx) (c : ascii) : option (jverdict * jconf) :=
  if is_space c then Some (Drop, (BeginValue, stk))
  else if is_char c "{" then push ObjectKey BeginStringOrEmpty stk
  else if is_char c "[" then push ArrayValue BeginValueOrEmpty stk
  else if is_char c quote_char then Some (Keep, (InString, stk))
  else if is_char c "-" then Some (Keep, (NumNeg, stk))
  else if is_char c "0" then Some (Keep, (Num0, stk))
  else if is_char c "t" then Some (Keep, (Literal "rue", stk))
  else if is_char c "f" then Some (Keep, (Literal "alse", stk))
  else if is_char c "n" then Some (Keep, (Literal "ull", stk))
  else if is_digit19 c then Some (Keep, (Num1, stk))
  else None.

Definition step_begin_string (st : jstate) (stk : list jctx) (c : ascii) :
    option (jverdict * jconf) :=
  if is_space c then Some (Drop, (st, stk))
  else if is_char c quote_char then Some (Keep, (InString, stk)) else None.

Definition step_exp (stk : list jctx) (c : ascii) : option (jverdict * jconf) :=
  if is_digit c then Some (Keep, (NumE0, stk)) else None.

Definition is_exp (c : ascii) : bool := is_char c "e" || is_char c "E".

Definition step_num0 (stk : list jctx) (c : ascii) : option (jverdict * jconf) :=
  if is_char c "." then Some (Keep, (NumDot, stk))
  else if is_exp c then Some (Keep, (NumE, stk))
  else step_end_value stk c.

Definition is_escape (c : ascii) : bool :=
  existsb (is_char c) ["b"; "f"; "n"; "r"; "t"; backslash; "/"; quote_char]%char.

Definition json_step (cf : jconf) (c : ascii) : option (jverdict * jconf) :=
  let '(st, stk) := cf in
  match st with
  | BeginValueOrEmpty =>
      if is_space c then Some (Drop, (BeginValueOrEmpty, stk))
      else if is_char c "]" then step_end_value stk c else step_begin_value stk c
  | BeginValue => step_begin_value stk c
  | BeginStringOrEmpty =>
      if is_space c then Some (Drop, (BeginStringOrEmpty, stk))
      else if is_char c "}" then
        step_end_value (match stk with _ :: below => ObjectValue :: below | [] => [] end) c
      else step_begin_string BeginStringOrEmpty stk c
  | BeginString => step_begin_string BeginString stk c
  | EndValue => step_end_value stk c
  | EndTop => step_end_top stk c
  | InString =>
      if is_char c quote_char then Some (Keep, (EndValue, stk))
      else if is_char c backslash then Some (Keep, (InStringEsc, stk))
      else if Z.ltb (byte_val c) 32 then None
      else Some (Keep, (InString, stk))
  | InStringEsc =>
      if is_escape c then Some (Keep, (InString, stk))
      else if is_char c "u" then Some (Keep, (EscU 3, stk)) else None
  | EscU n =>
      if is_hex c
      then Some (Keep, (match n with O => InString | S m => EscU m end, stk)) else None
  | NumNeg =>
      if is_char c "0" then Some (Keep, (Num0, stk))
      else if is_digit19 c then Some (Keep, (Num1, stk)) else None
  | Num1 => if is_digit c then Some (Keep, (Num1, stk)) else step_num0 stk c
  | Num0 => step_num0 stk c
  | NumDot => if is_digit c then Some (Keep, (NumDot0, stk)) else None
  | NumDot0 =>
      if is_digit c then Some (Keep, (NumDot0, stk))
      else if is_exp c then Some (Keep, (NumE, stk)) else step_end_value stk c
  | NumE =>
      if is_char c "+" || is_char c "-" then Some (Keep, (NumESign, stk)) else step_exp stk c
  | NumESign => step_exp stk c
  | NumE0 => if is_digit c then Some (Keep, (NumE0, stk)) else step_end_value stk c
  | Literal (String d rest) =>
      if is_char c d
      then Some (Keep, (match rest with EmptyString => EndValue | _ => Literal rest end, stk))
      else None
  | Literal EmptyString => None
  end.

(** [scanner.eof]: the value is complete, or one space completes it. *)
Definition json_eof (cf : jconf) : bool :=
  match cf.1 with
  | EndTop => true
  | _ => match json_step cf " " with Some (_, (EndTop, _)) => true | _ => false end
  end.

(** The kept bytes of a text that the scanner accepts to its end. *)
Fixpoint scan (cf : jconf) (s : string) : option string :=
  match s with
  | EmptyString => if json_eof cf then Some "" else None
  | String c rest =>
      match json_step cf c with
      | None => None
      | Some (v, cf') =>
          out ← scan cf' rest;
          Some (match v with Keep => String c out | Drop => out end)
      end
  end.

Definition json_start : jconf := (BeginValue, []).

(** [json.Valid] and [json.Compact]. *)
Definition json_valid (s : string) : bool :=
  match scan json_start s with Some _ => true | None => false end.
Definition json_compact (s : string) : option string := scan json_start s.

Example compact_ex :
  json_compact " [ 1 , -2.5e+3 , true , [ ] , { } ] " = Some "[1,-2.5e+3,true,[],{}]".
Proof. reflexivity. Qed.

(** ** Compaction is idempotent *)

(** States in which a number may end. *)
Definition num_end (st : jstate) : bool :=
  match st with Num1 | Num0 | NumDot0 | NumE0 => true | _ => false end.

(** [st'], reached on the kept bytes, stands for [st], reached on the text. *)
Definition stands_for (st' st : jstate) : Prop :=
  st' = st \/ ((num_end st' = true \/ st' = EndValue) /\ (st = EndValue \/ st = EndTop)).

Lemma is_char_eq c d : is_char c d = true -> c = d.
Proof. unfold is_char. by intros ?%bool_decide_eq_true. Qed.

(** Punctuation and space end a number. *)
Lemma num_ends st stk c : num_end st = true ->
  is_digit c = false -> is_char c "." = false -> is_exp c = false ->
  json_step (st, stk) c = step_end_value stk c.
Proof. intros Hn H1 H2 H3. destruct st; try done; simpl; unfold step_num0; by rewrite ?H1 ?H2 ?H3. Qed.

Lemma end_value_kept stk c cf : step_end_value stk c = Some (Keep, cf) ->
  is_digit c = false /\ is_char c "." = false /\ is_exp c = false.
Proof.
  assert (Hp : forall d, is_char c d = true ->
    is_digit d = false /\ is_char d "." = false /\ is_exp d = false ->
    is_digit c = false /\ is_char c "." = false /\ is_exp c = false)
    by (intros d ->%is_char_eq; done).
  unfold step_end_value, step_end_top, pop. destruct stk as [|k below]; [by destruct (is_space c)|].
  destruct (is_space c); [done|]. destruct k.
  - destruct (is_char c ":") eqn:E; [|done]. intros _. by apply (Hp ":"%char).
  - destruct (is_char c ",") eqn:E; [intros _; by apply (Hp ","%char)|].
    destruct (is_char c "}") eqn:E'; [|done]. intros _. by apply (Hp "}"%char).
  - destruct (is_char c ",") eqn:E; [intros _; by apply (Hp ","%char)|].
    destruct (is_char c "]") eqn:E'; [|done]. intros _. by apply (Hp "]"%char).
Qed.

Lemma end_top_kept stk c cf : step_end_top stk c <> Some (Keep, cf).
Proof. unfold step_end_top. by destruct (is_space c). Qed.

(** A kept byte moves the stand-in the same way. *)
Lemma stands_for_keep st' st stk c cf : stands_for st' st ->
  json_step (st, stk) c = Some (Keep, cf) -> json_step (st', stk) c = Some (Keep, cf).
Proof.
  intros [->|[Hst' [->| ->]]] H; [done| |by apply end_top_kept in H].
  simpl in H. destruct (end_value_kept _ _ _ H) as (H1 & H2 & H3).
  destruct Hst' as [Hn| ->]; [|done]. by rewrite (num_ends _ _ _ Hn H1 H2 H3).
Qed.

Lemma end_value_drop stk c cf : step_end_value stk c = Some (Drop, cf) ->
  cf.2 = stk /\ (cf.1 = EndValue \/ cf.1 = EndTop).
Proof.
  unfold step_end_value, step_end_top, pop, is_char. destruct stk as [|k below].
  - destruct (is_space c); [|done]. intros [= <-]. auto.
  - destruct (is_space c); [intros [= <-]; auto|].
    destruct k; repeat case_bool_decide; done.
Qed.

Lemma begin_drop st stk c cf :
  json_step (st, stk) c = Some (Drop, cf) ->
  cf.2 = stk /\ (cf.1 = st \/ ((num_end st = true \/ st = EndValue)
                              /\ (cf.1 = EndValue \/ cf.1 = EndTop))).
Proof.
  assert (Hv : forall s0, step_end_value s0 c = Some (Drop, cf) -> s0 = stk ->
    num_end st = true \/ st = EndValue ->
    cf.2 = stk /\ (cf.1 = st \/ ((num_end st = true \/ st = EndValue)
                              /\ (cf.1 = EndValue \/ cf.1 = EndTop)))).
  { intros s0 H -> Hs. destruct (end_value_drop _ _ _ H). auto. }
  destruct st as [| | | | | | | |n| | | | | | | | |l]; simpl.
  - destruct (is_space c) eqn:Es; [intros [= <-]; auto|].
    destruct (is_char c "]") eqn:E.
    + unfold step_end_value, step_end_top, pop. destruct stk as [|[] ?]; rewrite Es; try done;
        repeat case_match; done.
    + unfold step_begin_value, push. rewrite Es. repeat case_match; done.
  - unfold step_begin_value, push. destruct (is_space c); [intros [= <-]; auto|].
    repeat case_match; done.
  - destruct (is_space c) eqn:Es; [intros [= <-]; auto|].
    destruct (is_char c "}") eqn:E.
    + destruct stk as [|? below]; simpl; [unfold step_end_top; by rewrite Es|].
      rewrite Es E. unfold pop. repeat case_match; done.
    + unfold step_begin_string. rewrite Es. repeat case_match; done.
  - unfold step_begin_string. destruct (is_space c); [intros [= <-]; auto|]. by case_match.
  - intros H. apply (Hv stk); auto.
  - unfold step_end_top. destruct (is_space c); [|done]. intros [= <-]. auto.
  - repeat case_match; done.
  - repeat case_match; done.
  - repeat case_match; done.
  - repeat case_match; done.
  - unfold step_num0. repeat case_match; try done. intros Hd. apply (Hv stk); auto.
  - unfold step_num0. repeat case_match; try done. intros Hd. apply (Hv stk); auto.
  - repeat case_match; done.
  - repeat case_match; try done. intros Hd. apply (Hv stk); auto.
  - unfold step_exp. repeat case_match; done.
  - unfold step_exp. repeat case_match; done.
  - repeat case_match; try done. intros Hd. apply (Hv stk); auto.
  - repeat case_match; done.
Qed.

Lemma stands_for_drop st' st stk c cf : stands_for st' st ->
  json_step (st, stk) c = Some (Drop, cf) -> cf.2 = stk /\ stands_for st' cf.1.
Proof.
  intros Hs H. destruct (begin_drop _ _ _ _ H) as [E2 E1]. split; [done|].
  unfold stands_for in *. destruct Hs as [->|[Hs1 Hs2]], E1 as [->|[Ha Hb]]; auto.
Qed.

Lemma step_end_value_space stk : exists k cf, step_end_value stk " " = Some (k, cf)
  /\ (cf.1 = EndTop <-> stk = []).
Proof. destruct stk as [|[] ?]; vm_compute; eauto 10; eexists _, _; split; try done. Qed.

Lemma stands_for_eof st' st stk : stands_for st' st ->
  json_eof (st, stk) = true -> (st = EndTop -> stk = []) -> json_eof (st', stk) = true.
Proof.
  intros [->|[Hst' Hst]] He Htop; [done|].
  assert (stk = []) as ->.
  { destruct Hst as [->| ->]; [|auto]. destruct stk as [|[] ?]; done. }
  destruct Hst' as [Hn| ->]; [|done]. by destruct st'.
Qed.

(** A complete value leaves nothing open. *)
Lemma json_step_top cf c v cf' : json_step cf c = Some (v, cf') ->
  (cf.1 = EndTop -> cf.2 = []) -> cf'.1 = EndTop -> cf'.2 = [].
Proof.
  destruct cf as [st stk]. simpl. intros H Htop.
  assert (Hv : forall s0 x, step_end_value s0 c = Some (v, x) -> x.1 = EndTop -> x.2 = []).
  { intros s0 x. unfold step_end_value, step_end_top, pop.
    destruct s0 as [|k [|k' below]]; destruct (is_space c); try destruct k;
      unfold is_char; repeat case_bool_decide; intros; simplify_eq/=; done. }
  assert (Hb : forall s0 x, step_begin_value s0 c = Some (v, x) -> x.1 <> EndTop).
  { intros s0 x. unfold step_begin_value, push. repeat case_match; intros; simplify_eq/=; done. }
  destruct st as [| | | | | | | |n| | | | | | | | |l]; simpl in H;
    unfold step_num0, step_exp, step_begin_string, step_end_top in H;
    repeat case_match; simplify_eq/=; try done;
    first [exact (Hv _ _ H) | exact (Hv [] _ H) | exact (Hv (ObjectValue :: _) _ H)
          | intros E; exfalso; exact (Hb _ _ H E)].
Qed.

#[local] Arguments json_step : simpl never.

Lemma scan_stands st' st stk s out : stands_for st' st -> (st = EndTop -> stk = []) ->
  scan (st, stk) s = Some out -> scan (st', stk) out = Some out.
Proof.
  revert st' st stk out. induction s as [|c s IH]; intros st' st stk out Hst Htop; simpl.
  - destruct (json_eof (st, stk)) eqn:He; [|done]. intros [= <-]. simpl.
    by rewrite (stands_for_eof _ _ _ Hst He Htop).
  - destruct (json_step (st, stk) c) as [[v cf]|] eqn:Hs; [|done].
    destruct (scan cf s) as [rest|] eqn:Hr; simpl; [|done]. intros [= <-].
    pose proof (json_step_top _ _ _ _ Hs Htop) as Htop'.
    destruct cf as [st2 stk2]. simpl in Htop'. destruct v.
    + simpl. rewrite (stands_for_keep _ _ _ _ _ Hst Hs).
      pose proof (IH st2 st2 stk2 rest (or_introl eq_refl) Htop' Hr) as ->. done.
    + destruct (stands_for_drop _ _ _ _ _ Hst Hs) as [E2 Hst2]. simpl in *. subst stk2.
      by apply (IH st' st2).
Qed.

(** What compaction returns is valid and compact. *)
Lemma json_compact_idemp s out : json_compact s = Some out -> json_compact out = Some out.
Proof. unfold json_compact. intros H. by apply (scan_stands BeginValue BeginValue [] s); [left| |]. Qed.

Lemma json_valid_compact s : json_valid s = true -> exists out, json_compact s = Some out.
Proof. unfold json_valid, json_compact. destruct (scan _ _); naive_solver. Qed.

(** A compact text has no outer white space to trim and is not empty. *)
Lemma json_compact_nonempty s out : json_compact s = Some out -> out <> "".
Proof. intros H%json_compact_idemp ->. done. Qed.
