(* ===== verification/GoHash.v ===== *)
(** * GoHash: SHA-256, hexadecimal and JSON text

    [sha256.Sum256], [hex.EncodeToString], [hex.DecodeString] as a test, and
    the JSON text [json.Marshal] prints for strings, integers and lists:
    what the packages use to derive identities. *)
From Stdlib Require Import Ascii.
From stdpp Require Import pretty.
From S2P Require Import Prelude GoStrings.
Open Scope Z_scope.

(** ** SHA-256 (FIPS 180-4) on bytes *)

Definition mask32 : Z := 4294967295.
Definition add32 (a b : Z) : Z := Z.land (a + b) mask32.
Definition rotr (x n : Z) : Z :=
  Z.lor (Z.shiftr x n) (Z.land (Z.shiftl x (32 - n)) mask32).

(** The constants are the leading 32 bits of the fractional parts of roots of
    the first primes: square roots for the initial state, cube roots for the
    rounds. *)
Definition is_prime (n : nat) : bool :=
  forallb (fun d => negb (Nat.eqb (Nat.modulo n d) 0)) (seq 2 (n - 2)).

Definition primes : list Z := Z.of_nat <$> List.filter is_prime (seq 2 310).

(** The integer part of the [k]-th root, bit by bit. *)
Definition iroot (k n : Z) : Z :=
  foldr (fun bit r => let r' := r + 2 ^ Z.of_nat bit in if Z.leb (r' ^ k) n then r' else r)
    0 (seq 0 40).

Definition root_bits (k p : Z) : Z := iroot k (p * 2 ^ (32 * k)) mod 4294967296.

Definition sha_k : list Z := Eval vm_compute in root_bits 3 <$> primes.
Definition sha_init : list Z := Eval vm_compute in root_bits 2 <$> take 8 primes.

Definition small_sigma0 (x : Z) : Z := Z.lxor (Z.lxor (rotr x 7) (rotr x 18)) (Z.shiftr x 3).
Definition small_sigma1 (x : Z) : Z := Z.lxor (Z.lxor (rotr x 17) (rotr x 19)) (Z.shiftr x 10).
Definition big_sigma0 (x : Z) : Z := Z.lxor (Z.lxor (rotr x 2) (rotr x 13)) (rotr x 22).
Definition big_sigma1 (x : Z) : Z := Z.lxor (Z.lxor (rotr x 6) (rotr x 11)) (rotr x 25).
Definition sha_ch (x y z : Z) : Z := Z.lxor (Z.land x y) (Z.land (Z.lxor x mask32) z).
Definition sha_maj (x y z : Z) : Z :=
  Z.lxor (Z.lxor (Z.land x y) (Z.land x z)) (Z.land y z).

(** The next word of the schedule from the last sixteen. *)
Definition sha_next (w : list Z) : Z :=
  match w with
  | [w0; w1; _; _; _; _; _; _; _; w9; _; _; _; _; w14; _] =>
      add32 (add32 (small_sigma1 w14) w9) (add32 (small_sigma0 w1) w0)
  | _ => 0
  end.

Fixpoint sha_rounds (ks w st : list Z) : list Z :=
  match ks, w, st with
  | k :: ks', w0 :: wr, [a; b; c; d; e; f; g; h] =>
      let t1 := add32 (add32 (add32 h (big_sigma1 e)) (add32 (sha_ch e f g) k)) w0 in
      let t2 := add32 (big_sigma0 a) (sha_maj a b c) in
      sha_rounds ks' (wr ++ [sha_next w]) [add32 t1 t2; a; b; c; add32 d t1; e; f; g]
  | _, _, _ => st
  end.

Definition be_word (b : list Z) : Z := foldl (fun acc x => acc * 256 + x) 0 b.

Fixpoint chunks (fuel n : nat) (l : list Z) : list (list Z) :=
  match fuel, l with
  | S fuel', _ :: _ => take n l :: chunks fuel' n (drop n l)
  | _, _ => []
  end.

Definition be_bytes (n : nat) (x : Z) : list Z :=
  (fun i => Z.land (Z.shiftr x (8 * (Z.of_nat n - 1 - Z.of_nat i))) 255) <$> seq 0 n.

Definition sha_pad (m : list Z) : list Z :=
  let n := Z.of_nat (length m) in
  m ++ 128 :: replicate (Z.to_nat ((55 - n) mod 64)) 0 ++ be_bytes 8 (8 * n).

Definition sha_block (st : list Z) (block : list Z) : list Z :=
  let w := be_word <$> chunks 16 4 block in
  zip_with add32 st (sha_rounds sha_k w st).

Definition sha256 (m : list Z) : list Z :=
  let p := sha_pad m in
  mbind (be_bytes 4) (foldl sha_block sha_init (chunks (length p) 64 p)).

(** ** Bytes and hexadecimal *)

Definition string_bytes (s : string) : list Z := byte_val <$> String.list_ascii_of_string s.

Definition hex_digit (d : Z) : ascii :=
  ascii_of_N (Z.to_N (if Z.ltb d 10 then 48 + d else 87 + d)).

Definition hex_encode (bs : list Z) : string :=
  String.string_of_list_ascii (mbind (fun b => [hex_digit (b / 16); hex_digit (b mod 16)]) bs).

Definition is_hex_char (c : ascii) : bool :=
  let n := byte_val c in
  (Z.leb 48 n && Z.leb n 57) || (Z.leb 97 n && Z.leb n 102) || (Z.leb 65 n && Z.leb n 70).

(** [hex.DecodeString] succeeds. *)
Definition hex_decodes (s : string) : bool :=
  forallb is_hex_char (String.list_ascii_of_string s) && Z.even (go_len s).

Definition sha256_hex (s : string) : string := hex_encode (sha256 (string_bytes s)).

Example sha256_abc :
  sha256_hex "abc" = "ba7816bf8f01cfea414140de5dae2223b00361a396177a9cb410ff61f20015ad".
Proof. vm_compute. reflexivity. Qed.

(** ** JSON text *)

Definition quote_mark : ascii := ascii_of_nat 34.
Definition back_slash : ascii := ascii_of_nat 92.

Definition u_escape (hi lo : Z) : string :=
  String back_slash (String "u" (String "0" (String "0"
    (String (hex_digit hi) (String (hex_digit lo) ""))))).

(** The text of one byte below 0x80 inside a JSON string; [<], [>] and [&]
    are escaped as for HTML. *)
Definition json_byte (c : ascii) : string :=
  let n := byte_val c in
  if Z.eqb n 34 || Z.eqb n 92 then String back_slash (String c "")
  else if Z.eqb n 8 then String back_slash "b"
  else if Z.eqb n 12 then String back_slash "f"
  else if Z.eqb n 10 then String back_slash "n"
  else if Z.eqb n 13 then String back_slash "r"
  else if Z.eqb n 9 then String back_slash "t"
  else if Z.ltb n 32 || Z.eqb n 60 || Z.eqb n 62 || Z.eqb n 38 then u_escape (n / 16) (n mod 16)
  else String c "".

Definition in_range (lo hi : Z) (c : ascii) : bool :=
  Z.leb lo (byte_val c) && Z.leb (byte_val c) hi.

(** The length of the UTF-8 sequence a byte starts, with the range of the
    second byte ([utf8.DecodeRuneInString]). *)
Definition utf8_lead (c : ascii) : option (nat * Z * Z) :=
  let n := byte_val c in
  if Z.leb 194 n && Z.leb n 223 then Some (2%nat, 128, 191)
  else if Z.eqb n 224 then Some (3%nat, 160, 191)
  else if Z.eqb n 237 then Some (3%nat, 128, 159)
  else if Z.leb 225 n && Z.leb n 239 then Some (3%nat, 128, 191)
  else if Z.eqb n 240 then Some (4%nat, 144, 191)
  else if Z.leb 241 n && Z.leb n 243 then Some (4%nat, 128, 191)
  else if Z.eqb n 244 then Some (4%nat, 128, 143)
  else None.

Definition replacement_escape : string := String back_slash "ufffd".

(** The text between the quotes.  A byte that starts no valid sequence is
    printed as U+FFFD; U+2028 and U+2029 are escaped. *)
Fixpoint json_chars (s : string) {struct s} : string :=
  match s with
  | EmptyString => ""
  | String a s1 =>
      if Z.ltb (byte_val a) 128 then json_byte a +:+ json_chars s1 else
      match utf8_lead a, s1 with
      | Some (2%nat, lo, hi), String b s2 =>
          if in_range lo hi b then String a (String b (json_chars s2))
          else replacement_escape +:+ json_chars s1
      | Some (3%nat, lo, hi), String b (String c s3) =>
          if in_range lo hi b && in_range 128 191 c then
            (if Z.eqb (byte_val a) 226 && Z.eqb (byte_val b) 128
                && (Z.eqb (byte_val c) 168 || Z.eqb (byte_val c) 169)
             then String back_slash (if Z.eqb (byte_val c) 168 then "u2028" else "u2029")
             else String a (String b (String c ""))) +:+ json_chars s3
          else replacement_escape +:+ json_chars s1
      | Some (4%nat, lo, hi), String b (String c (String d s4)) =>
          if in_range lo hi b && in_range 128 191 c && in_range 128 191 d
          then String a (String b (String c (String d (json_chars s4))))
          else replacement_escape +:+ json_chars s1
      | _, _ => replacement_escape +:+ json_chars s1
      end
  end.

Definition json_string (s : string) : string :=
  String quote_mark (json_chars s +:+ String quote_mark "").

Definition json_list (items : list string) : string := "[" +:+ Join items "," +:+ "]".
Definition json_object (fields : list (string * string)) : string :=
  "{" +:+ Join ((fun kv => json_string kv.1 +:+ ":" +:+ kv.2) <$> fields) "," +:+ "}".
Definition json_int (n : Z) : string := pretty n.
Definition json_bool (b : bool) : string := if b then "true" else "false".
