(* ===== verification/GoValue.v ===== *)
(** * GoValue: JSON values of package [encoding/json]

    What [Decoder] with [UseNumber] makes of a text, and what [Marshal] prints:
    a value of type [any], a number kept as its text, and a [map[string]any]
    as the list of its entries in the order of the keys, which is the order
    [Marshal] prints them in.  Printing and decoding are inverse. *)
From Stdlib Require Import Ascii.
From S2P Require Import Prelude GoStrings GoBytes GoJson GoHash.
Open Scope Z_scope.

Inductive gval :=
| VNull
| VBool (b : bool)
| VNumber (text : string)
| VString (s : string)
| VArray (l : list gval)
| VObject (fields : list (string * gval)).

(** ** Maps *)

(** The order of the bytes. *)
Fixpoint text_lt (a b : string) : bool :=
  match a, b with
  | _, EmptyString => false
  | EmptyString, String _ _ => true
  | String x a', String y b' =>
      Z.ltb (byte_val x) (byte_val y) || Z.eqb (byte_val x) (byte_val y) && text_lt a' b'
  end.

(** [m[k] = v]. *)
Fixpoint put_field {A} (k : string) (v : A) (m : list (string * A)) : list (string * A) :=
  match m with
  | [] => [(k, v)]
  | (k', v') :: rest =>
      if bool_decide (k = k') then (k, v) :: rest
      else if text_lt k k' then (k, v) :: m else (k', v') :: put_field k v rest
  end.

Definition has_field {A} (k : string) (m : list (string * A)) : bool :=
  existsb (fun kv => bool_decide (kv.1 = k)) m.

(** ** Strings *)

(** [utf8.AppendRune]. *)
Definition put_rune (r : Z) (t : string) : string :=
  if Z.ltb r 128 then String (byte_of r) t
  else if Z.ltb r 2048
  then String (byte_of (192 + r / 64)) (String (byte_of (128 + r mod 64)) t)
  else if Z.ltb r 65536
  then String (byte_of (224 + r / 4096))
         (String (byte_of (128 + (r / 64) mod 64)) (String (byte_of (128 + r mod 64)) t))
  else String (byte_of (240 + r / 262144))
         (String (byte_of (128 + (r / 4096) mod 64))
            (String (byte_of (128 + (r / 64) mod 64)) (String (byte_of (128 + r mod 64)) t))).

Definition RuneError : Z := 65533.

Definition hex_val (c : ascii) : option Z :=
  let n := byte_val c in
  if Z.leb 48 n && Z.leb n 57 then Some (n - 48)
  else if Z.leb 97 n && Z.leb n 102 then Some (n - 87)
  else if Z.leb 65 n && Z.leb n 70 then Some (n - 55)
  else None.

Definition hex4 (a b c d : ascii) : option Z :=
  x ← hex_val a; y ← hex_val b; z ← hex_val c; w ← hex_val d;
  Some (x * 4096 + y * 256 + z * 16 + w).

Definition is_surrogate (r : Z) : bool := Z.leb 55296 r && Z.leb r 57343.

(** [utf16.DecodeRune] of a pair. *)
Definition surrogate_pair (r1 r2 : Z) : option Z :=
  if Z.leb 55296 r1 && Z.ltb r1 56320 && Z.leb 56320 r2 && Z.leb r2 57343
  then Some ((r1 - 55296) * 1024 + (r2 - 56320) + 65536) else None.

(** The characters after a backslash, other than [u]. *)
Definition simple_escape (c : ascii) : option ascii :=
  let n := byte_val c in
  if Z.eqb n 34 || Z.eqb n 92 || Z.eqb n 47 then Some c
  else if Z.eqb n 98 then Some (byte_of 8)
  else if Z.eqb n 102 then Some (byte_of 12)
  else if Z.eqb n 110 then Some (byte_of 10)
  else if Z.eqb n 114 then Some (byte_of 13)
  else if Z.eqb n 116 then Some (byte_of 9)
  else None.

Definition then_text (f : string -> string) (r : option (string * string)) :
    option (string * string) :=
  match r with Some (t, rest) => Some (f t, rest) | None => None end.

(** [unquote]: the text after an opening quote gives the string and what
    follows the closing quote.  Bytes that are not UTF-8 and lone surrogates
    become U+FFFD. *)
Fixpoint unquote (s : string) {struct s} : option (string * string) :=
  match s with
  | EmptyString => None
  | String a s1 =>
      if Z.eqb (byte_val a) 34 then Some ("", s1)
      else if Z.eqb (byte_val a) 92 then
        match s1 with
        | String e s2 =>
            if Z.eqb (byte_val e) 117 then
              match s2 with
              | String h1 (String h2 (String h3 (String h4 s6))) =>
                  match hex4 h1 h2 h3 h4 with
                  | None => None
                  | Some r =>
                      if is_surrogate r then
                        match s6 with
                        | String b (String u (String k1 (String k2 (String k3 (String k4 s12))))) =>
                            if Z.eqb (byte_val b) 92 && Z.eqb (byte_val u) 117 then
                              match hex4 k1 k2 k3 k4 with
                              | None => None
                              | Some r2 =>
                                  match surrogate_pair r r2 with
                                  | Some p => then_text (put_rune p) (unquote s12)
                                  | None => then_text (put_rune RuneError) (unquote s6)
                                  end
                              end
                            else then_text (put_rune RuneError) (unquote s6)
                        | _ => then_text (put_rune RuneError) (unquote s6)
                        end
                      else then_text (put_rune r) (unquote s6)
                  end
              | _ => None
              end
            else match simple_escape e with
                 | Some c => then_text (String c) (unquote s2)
                 | None => None
                 end
        | EmptyString => None
        end
      else if Z.ltb (byte_val a) 32 then None
      else if Z.ltb (byte_val a) 128 then then_text (String a) (unquote s1)
      else
        match utf8_lead a, s1 with
        | Some (2%nat, lo, hi), String b s2 =>
            if in_range lo hi b then then_text (fun t => String a (String b t)) (unquote s2)
            else then_text (put_rune RuneError) (unquote s1)
        | Some (3%nat, lo, hi), String b (String c s3) =>
            if in_range lo hi b && in_range 128 191 c
            then then_text (fun t => String a (String b (String c t))) (unquote s3)
            else then_text (put_rune RuneError) (unquote s1)
        | Some (4%nat, lo, hi), String b (String c (String d s4)) =>
            if in_range lo hi b && in_range 128 191 c && in_range 128 191 d
            then then_text (fun t => String a (String b (String c (String d t)))) (unquote s4)
            else then_text (put_rune RuneError) (unquote s1)
        | _, _ => then_text (put_rune RuneError) (unquote s1)
        end
  end.

(** ** Numbers *)

Fixpoint span_digits (s : string) : string * string :=
  match s with
  | String c s' => if is_digit c then let '(d, r) := span_digits s' in (String c d, r) else ("", s)
  | EmptyString => ("", "")
  end.

(** One digit or more. *)
Definition digits1 (s : string) : option (string * string) :=
  match span_digits s with (EmptyString, _) => None | p => Some p end.

Definition number_int (s : string) : option (string * string) :=
  match s with
  | String c s' => if is_char c "0" then Some ("0", s')
                   else if is_digit c then Some (span_digits s) else None
  | EmptyString => None
  end.

Definition number_frac (s : string) : option (string * string) :=
  match s with
  | String c s' => if is_char c "." then then_text (String c) (digits1 s') else Some ("", s)
  | EmptyString => Some ("", s)
  end.

Definition number_exp (s : string) : option (string * string) :=
  match s with
  | String c s' =>
      if is_exp c then
        match s' with
        | String sg s'' => if is_char sg "+" || is_char sg "-"
                           then then_text (fun t => String c (String sg t)) (digits1 s'')
                           else then_text (String c) (digits1 s')
        | EmptyString => None
        end
      else Some ("", s)
  | EmptyString => Some ("", s)
  end.

Definition number_sign (s : string) : string * string :=
  match s with
  | String c s' => if is_char c "-" then ("-", s') else ("", s)
  | EmptyString => ("", s)
  end.

(** The longest number literal. *)
Definition number_lit (s : string) : option (string * string) :=
  let '(sign, s1) := number_sign s in
  '(i, s2) ← number_int s1; '(f, s3) ← number_frac s2; '(e, s4) ← number_exp s3;
  Some (sign +:+ (i +:+ (f +:+ e)), s4).

(** ** Decoding *)

Fixpoint skip_space (s : string) : string :=
  match s with
  | String c s' => if is_space c then skip_space s' else s
  | EmptyString => ""
  end.

Fixpoint strip_prefix (p s : string) : option string :=
  match p, s with
  | EmptyString, _ => Some s
  | String a p', String b s' => if bool_decide (a = b) then strip_prefix p' s' else None
  | _, EmptyString => None
  end.

(** Punctuation, after white space. *)
Definition punct (c : ascii) (s : string) : option string :=
  match skip_space s with
  | String d s' => if is_char d c then Some s' else None
  | EmptyString => None
  end.

(** How deep values and containers may lie, whether a key must not be given
    twice, and whether else its first value is kept rather than its last. *)
Record decoding := mkDecoding {
  dc_value : nat -> bool;
  dc_container : nat -> bool;
  dc_unique : bool;
  dc_first : bool;
}.

Definition put_member (dc : decoding) {A} (k : string) (v : A) (m : list (string * A)) :
    list (string * A) :=
  if dc_first dc && has_field k m then m else put_field k v m.

(** [Decode] into a variable of type [any]. *)
Definition decode_any : decoding :=
  mkDecoding (fun _ => true) (fun d => Z.ltb (Z.of_nat d) maxNestingDepth) false false.

(** A reader that keeps the first value of a key. *)
Definition decode_first : decoding :=
  mkDecoding (fun _ => true) (fun d => Z.ltb (Z.of_nat d) maxNestingDepth) false true.

Definition scalar (s : string) : option (gval * string) :=
  match s with
  | EmptyString => None
  | String c s' =>
      if is_char c quote_char then '(t, rest) ← unquote s'; Some (VString t, rest)
      else if is_char c "n" then rest ← strip_prefix "null" s; Some (VNull, rest)
      else if is_char c "t" then rest ← strip_prefix "true" s; Some (VBool true, rest)
      else if is_char c "f" then rest ← strip_prefix "false" s; Some (VBool false, rest)
      else '(t, rest) ← number_lit s; Some (VNumber t, rest)
  end.

(** The key of a member and the colon. *)
Definition member_key (s : string) : option (string * string) :=
  s1 ← punct quote_char s; '(k, s2) ← unquote s1; s3 ← punct ":" s2; Some (k, s3).

Section decoder.
Context (dc : decoding).

(** A value; the elements of an array after those read, and the members of an
    object after those read. *)
Fixpoint parse_value (fuel depth : nat) (s : string) {struct fuel} : option (gval * string) :=
  match fuel with
  | O => None
  | S fuel =>
      if negb (dc_value dc depth) then None else
      match skip_space s with
      | EmptyString => None
      | String c s' =>
          if is_char c "[" then
            if negb (dc_container dc depth) then None else
            match punct "]" s' with
            | Some rest => Some (VArray [], rest)
            | None => parse_elements fuel depth [] s'
            end
          else if is_char c "{" then
            if negb (dc_container dc depth) then None else
            match punct "}" s' with
            | Some rest => Some (VObject [], rest)
            | None => parse_members fuel depth [] s'
            end
          else scalar (String c s')
      end
  end
with parse_elements (fuel depth : nat) (acc : list gval) (s : string) {struct fuel} :
    option (gval * string) :=
  match fuel with
  | O => None
  | S fuel =>
      '(v, s1) ← parse_value fuel (S depth) s;
      match punct "," s1 with
      | Some s2 => parse_elements fuel depth (acc ++ [v]) s2
      | None => s2 ← punct "]" s1; Some (VArray (acc ++ [v]), s2)
      end
  end
with parse_members (fuel depth : nat) (acc : list (string * gval)) (s : string) {struct fuel} :
    option (gval * string) :=
  match fuel with
  | O => None
  | S fuel =>
      '(k, s1) ← member_key s;
      if dc_unique dc && has_field k acc then None else
      '(v, s2) ← parse_value fuel (S depth) s1;
      match punct "," s2 with
      | Some s3 => parse_members fuel depth (put_member dc k v acc) s3
      | None => s3 ← punct "}" s2; Some (VObject (put_member dc k v acc), s3)
      end
  end.

(** Every call reads a byte or more before the next but one. *)
Definition decode_fuel (s : string) : nat := 2 * String.length s + 2.

(** One value, and then the end of the text. *)
Definition decode (s : string) : option gval :=
  '(v, rest) ← parse_value (decode_fuel s) 0 s;
  match skip_space rest with EmptyString => Some v | _ => None end.

End decoder.

(** ** Printing *)

(** [json.Marshal]. *)
Fixpoint encode (v : gval) : string :=
  match v with
  | VNull => "null"
  | VBool b => json_bool b
  | VNumber t => t
  | VString s => json_string s
  | VArray l => json_list (map encode l)
  | VObject m => json_object (map (fun kv => (kv.1, encode kv.2)) m)
  end.

Definition sample_text : string :=
  "{" +:+ json_string "b" +:+ " : [1.50e+2 , true,null],"
  +:+ json_string "a" +:+ ":" +:+ json_string "<é>" +:+ "}".

Example sample_decoded : decode decode_any sample_text
  = Some (VObject [("a", VString "<é>"); ("b", VArray [VNumber "1.50e+2"; VBool true; VNull])]).
Proof. vm_compute. reflexivity. Qed.

Example sample_printed : encode <$> decode decode_any sample_text
  = Some ("{" +:+ json_string "a" +:+ ":" +:+ json_string "<é>" +:+ ","
          +:+ json_string "b" +:+ ":[1.50e+2,true,null]}").
Proof. vm_compute. reflexivity. Qed.

(** ** Strings round-trip *)

(** The string is UTF-8. *)
Fixpoint utf8_valid (s : string) {struct s} : bool :=
  match s with
  | EmptyString => true
  | String a s1 =>
      if Z.ltb (byte_val a) 128 then utf8_valid s1 else
      match utf8_lead a, s1 with
      | Some (2%nat, lo, hi), String b s2 => in_range lo hi b && utf8_valid s2
      | Some (3%nat, lo, hi), String b (String c s3) =>
          in_range lo hi b && in_range 128 191 c && utf8_valid s3
      | Some (4%nat, lo, hi), String b (String c (String d s4)) =>
          in_range lo hi b && in_range 128 191 c && in_range 128 191 d && utf8_valid s4
      | _, _ => false
      end
  end.

Lemma append_cons (a : ascii) (s t : string) : String a s +:+ t = String a (s +:+ t).
Proof. reflexivity. Qed.

Lemma byte_val_inj a b : byte_val a = byte_val b -> a = b.
Proof. intros H. by rewrite -(byte_of_val a) -(byte_of_val b) H. Qed.

(** The text of one ASCII byte. *)
Lemma unquote_byte a t : Z.ltb (byte_val a) 128 = true ->
  unquote (json_byte a +:+ t) = then_text (String a) (unquote t).
Proof. destruct a as [[] [] [] [] [] [] [] []]; intros H; try discriminate H; reflexivity. Qed.

(** A byte that is not ASCII. *)
Lemma unquote_high a s1 : Z.ltb (byte_val a) 128 = false ->
  unquote (String a s1) =
  match utf8_lead a, s1 with
  | Some (2%nat, lo, hi), String b s2 =>
      if in_range lo hi b then then_text (fun t => String a (String b t)) (unquote s2)
      else then_text (put_rune RuneError) (unquote s1)
  | Some (3%nat, lo, hi), String b (String c s3) =>
      if in_range lo hi b && in_range 128 191 c
      then then_text (fun t => String a (String b (String c t))) (unquote s3)
      else then_text (put_rune RuneError) (unquote s1)
  | Some (4%nat, lo, hi), String b (String c (String d s4)) =>
      if in_range lo hi b && in_range 128 191 c && in_range 128 191 d
      then then_text (fun t => String a (String b (String c (String d t)))) (unquote s4)
      else then_text (put_rune RuneError) (unquote s1)
  | _, _ => then_text (put_rune RuneError) (unquote s1)
  end.
Proof.
  intros Ha. cbn [unquote]. rewrite Ha. apply Z.ltb_ge in Ha.
  rewrite (proj2 (Z.eqb_neq _ 34)); [lia|]. rewrite (proj2 (Z.eqb_neq _ 92)); [lia|].
  rewrite (proj2 (Z.ltb_ge _ 32)); [lia|]. done.
Qed.

Lemma unquote_chars s rest : utf8_valid s = true ->
  unquote (json_chars s +:+ String quote_mark rest) = Some (s, rest).
Proof.
  assert (forall n s, (String.length s <= n)%nat -> utf8_valid s = true ->
    unquote (json_chars s +:+ String quote_mark rest) = Some (s, rest)) as H; [|by apply (H (String.length s) s)].
  clear s. induction n as [|n IH]; intros [|a s1] Hn Hv; try done; [simpl in Hn; lia|].
  cbn [utf8_valid json_chars] in *. cbn [String.length] in Hn.
  destruct (Z.ltb (byte_val a) 128) eqn:Ha.
  { rewrite -append_assoc unquote_byte // IH //. lia. }
  destruct (utf8_lead a) as [[[[|[|[|[|[|m]]]]] lo] hi]|] eqn:El; try discriminate.
  - destruct s1 as [|b s2]; [discriminate|]. apply andb_true_iff in Hv as [Hb Hv].
    rewrite Hb !append_cons (unquote_high _ _ Ha) El Hb.
    rewrite (IH s2) //. cbn [String.length] in Hn. lia.
  - destruct s1 as [|b [|c s3]]; [discriminate..|]. apply andb_true_iff in Hv as [Hbc Hv].
    rewrite Hbc. cbn [String.length] in Hn. destruct (_ && _ && _) eqn:E28.
    + apply andb_true_iff in E28 as [E28 Ec]. apply andb_true_iff in E28 as [Ea Eb].
      apply Z.eqb_eq in Ea, Eb.
      rewrite (byte_val_inj a (byte_of 226)) // (byte_val_inj b (byte_of 128)) //.
      destruct (Z.eqb (byte_val c) 168) eqn:Ec1.
      * apply Z.eqb_eq in Ec1. rewrite (byte_val_inj c (byte_of 168)) // -append_assoc.
        change (unquote (String back_slash "u2028" +:+
          (json_chars s3 +:+ String quote_mark rest))) with
          (then_text (put_rune 8232) (unquote (json_chars s3 +:+ String quote_mark rest))).
        rewrite IH //. lia.
      * apply Z.eqb_eq in Ec. rewrite (byte_val_inj c (byte_of 169)) // -append_assoc.
        change (unquote (String back_slash "u2029" +:+
          (json_chars s3 +:+ String quote_mark rest))) with
          (then_text (put_rune 8233) (unquote (json_chars s3 +:+ String quote_mark rest))).
        rewrite IH //. lia.
    + rewrite !append_cons (unquote_high _ _ Ha) El Hbc. rewrite (IH s3) //. lia.
  - destruct s1 as [|b [|c [|d s4]]]; [discriminate..|]. apply andb_true_iff in Hv as [Hbc Hv].
    rewrite Hbc !append_cons (unquote_high _ _ Ha) El Hbc.
    rewrite (IH s4) //. cbn [String.length] in Hn. lia.
Qed.

(** ** Decoded strings are UTF-8 *)

(** Decide the comparisons of a goal by arithmetic. *)
Ltac compare_bytes :=
  repeat match goal with
  | |- context [Z.leb ?x ?y] => destruct (Z.leb_spec x y); try (exfalso; lia)
  | |- context [Z.ltb ?x ?y] => destruct (Z.ltb_spec x y); try (exfalso; lia)
  | |- context [Z.eqb ?x ?y] => destruct (Z.eqb_spec x y); try (exfalso; lia)
  end.

Lemma utf8_two a b t : 194 <= byte_val a <= 223 -> 128 <= byte_val b <= 191 ->
  utf8_valid (String a (String b t)) = utf8_valid t.
Proof. intros Ha Hb. cbn [utf8_valid]. unfold utf8_lead. compare_bytes; cbn [andb];
  unfold in_range; by compare_bytes. Qed.

Lemma utf8_three a b c t : 224 <= byte_val a <= 239 -> 128 <= byte_val b <= 191 ->
  128 <= byte_val c <= 191 -> (byte_val a = 224 -> 160 <= byte_val b) ->
  (byte_val a = 237 -> byte_val b <= 159) ->
  utf8_valid (String a (String b (String c t))) = utf8_valid t.
Proof. intros Ha Hb Hc H1 H2. cbn [utf8_valid]. unfold utf8_lead. compare_bytes; cbn [andb];
  unfold in_range; by compare_bytes. Qed.

Lemma utf8_four a b c d t : 240 <= byte_val a <= 244 -> 128 <= byte_val b <= 191 ->
  128 <= byte_val c <= 191 -> 128 <= byte_val d <= 191 -> (byte_val a = 240 -> 144 <= byte_val b) ->
  (byte_val a = 244 -> byte_val b <= 143) ->
  utf8_valid (String a (String b (String c (String d t)))) = utf8_valid t.
Proof.
  intros Ha Hb Hc Hd H1 H2. cbn [utf8_valid]. unfold utf8_lead. compare_bytes; cbn [andb];
  unfold in_range; by compare_bytes.
Qed.

Lemma byte_val_small z : 0 <= z < 256 -> byte_val (byte_of z) = z.
Proof. intros H. by rewrite byte_val_of Z.mod_small. Qed.

(** The encoding of a rune is UTF-8. *)
Lemma put_rune_valid r t : 0 <= r < 1114112 -> is_surrogate r = false ->
  utf8_valid (put_rune r t) = utf8_valid t.
Proof.
  intros Hr Hs. unfold is_surrogate in Hs. apply andb_false_iff in Hs.
  rewrite !Z.leb_gt in Hs. unfold put_rune.
  destruct (Z.ltb_spec r 128); [|destruct (Z.ltb_spec r 2048); [|destruct (Z.ltb_spec r 65536)]].
  - cbn [utf8_valid]. rewrite byte_val_small; [lia|]. by rewrite (proj2 (Z.ltb_lt _ _)).
  - apply utf8_two; rewrite byte_val_small; Z.to_euclidean_division_equations; lia.
  - apply utf8_three; rewrite !byte_val_small; Z.to_euclidean_division_equations; lia.
  - apply utf8_four; rewrite !byte_val_small; Z.to_euclidean_division_equations; lia.
Qed.

Lemma hex_val_range c x : hex_val c = Some x -> 0 <= x < 16.
Proof.
  unfold hex_val. compare_bytes; cbn [andb]; intros [= <-]; lia.
Qed.

Lemma hex4_range a b c d r : hex4 a b c d = Some r -> 0 <= r < 65536.
Proof.
  unfold hex4. destruct (hex_val a) as [x|] eqn:Ea, (hex_val b) as [y|] eqn:Eb,
    (hex_val c) as [z|] eqn:Ec, (hex_val d) as [w|] eqn:Ed; intros [= <-].
  apply hex_val_range in Ea, Eb, Ec, Ed. lia.
Qed.

Lemma surrogate_pair_range r1 r2 p : surrogate_pair r1 r2 = Some p -> 65536 <= p < 1114112.
Proof. unfold surrogate_pair. compare_bytes; cbn [andb]; intros [= <-]; lia. Qed.

Lemma then_text_Some f o t r : then_text f o = Some (t, r) ->
  exists t0, o = Some (t0, r) /\ t = f t0.
Proof. destruct o as [[t0 r0]|]; [|discriminate]. intros [= <- <-]. by exists t0. Qed.

Lemma simple_escape_ascii c e : simple_escape c = Some e -> Z.ltb (byte_val e) 128 = true.
Proof.
  unfold simple_escape. compare_bytes; cbn [orb]; intros Hc; try discriminate Hc; injection Hc as <-;
    first [reflexivity|exfalso; lia|by case: H].
Qed.

(** The text of a piece and the validity of the rest. *)
Lemma then_text_valid f o t r : then_text f o = Some (t, r) ->
  (forall t0, utf8_valid (f t0) = utf8_valid t0) ->
  (forall t0, o = Some (t0, r) -> utf8_valid t0 = true) -> utf8_valid t = true.
Proof.
  intros H Hf Ho. destruct (then_text_Some _ _ _ _ H) as (t0 & H0 & ->). rewrite Hf. exact (Ho _ H0).
Qed.

Lemma unquote_valid s t r : unquote s = Some (t, r) -> utf8_valid t = true.
Proof.
  assert (forall n s t, (String.length s <= n)%nat -> unquote s = Some (t, r) ->
    utf8_valid t = true) as H; [|by apply (H (String.length s) s)].
  clear s t. induction n as [|n IH]; intros [|a s1] t Hn; try done; [simpl in Hn; lia|].
  cbn [unquote String.length] in *.
  assert (Herr : forall t0, utf8_valid (put_rune RuneError t0) = utf8_valid t0)
    by (intros t0; apply put_rune_valid; [unfold RuneError; lia|done]).
  destruct (Z.eqb (byte_val a) 34); [by intros [= <- _]|].
  destruct (Z.eqb (byte_val a) 92).
  { destruct s1 as [|e s2]; [discriminate|]. cbn [String.length] in Hn.
    destruct (Z.eqb (byte_val e) 117).
    2:{ destruct (simple_escape e) as [c|] eqn:Ee; [|discriminate]. intros H.
        apply (then_text_valid _ _ _ _ H); [|intros t0; apply IH; lia].
        intros t0. cbn [utf8_valid]. by rewrite (simple_escape_ascii _ _ Ee). }
    destruct s2 as [|h1 [|h2 [|h3 [|h4 s6]]]]; try discriminate. cbn [String.length] in Hn.
    destruct (hex4 h1 h2 h3 h4) as [q|] eqn:Eh; [|discriminate]. apply hex4_range in Eh.
    destruct (is_surrogate q) eqn:Es.
    2:{ intros H. apply (then_text_valid _ _ _ _ H); [|intros t0; apply IH; lia].
        intros t0. apply put_rune_valid; [lia|done]. }
    assert (Hlone : then_text (put_rune RuneError) (unquote s6) = Some (t, r) ->
      utf8_valid t = true).
    { intros H. apply (then_text_valid _ _ _ _ H); [exact Herr|intros t0; apply IH; lia]. }
    destruct s6 as [|b [|u [|k1 [|k2 [|k3 [|k4 s12]]]]]]; try exact Hlone.
    destruct (Z.eqb (byte_val b) 92 && Z.eqb (byte_val u) 117); [|exact Hlone].
    destruct (hex4 k1 k2 k3 k4) as [q2|]; [|discriminate].
    destruct (surrogate_pair q q2) as [p|] eqn:Ep; [|exact Hlone]. cbn [String.length] in Hn.
    apply surrogate_pair_range in Ep. intros H.
    apply (then_text_valid _ _ _ _ H); [|intros t0; apply IH; lia].
    intros t0. apply put_rune_valid; [lia|]. unfold is_surrogate. by compare_bytes. }
  destruct (Z.ltb (byte_val a) 32); [discriminate|]. destruct (Z.ltb (byte_val a) 128) eqn:Ha.
  { intros H. apply (then_text_valid _ _ _ _ H); [|intros t0; apply IH; lia].
    intros t0. cbn [utf8_valid]. by rewrite Ha. }
  assert (Hbad : then_text (put_rune RuneError) (unquote s1) = Some (t, r) -> utf8_valid t = true).
  { intros H. apply (then_text_valid _ _ _ _ H); [exact Herr|intros t0; apply IH; lia]. }
  destruct (utf8_lead a) as [[[[|[|[|[|[|m]]]]] lo] hi]|] eqn:El; try exact Hbad.
  - destruct s1 as [|b s2]; [exact Hbad|]. destruct (in_range lo hi b) eqn:Eb; [|exact Hbad].
    intros H. apply (then_text_valid _ _ _ _ H);
      [|intros t0; apply IH; cbn [String.length] in Hn; lia].
    intros t0. cbn [utf8_valid]. by rewrite Ha El Eb.
  - destruct s1 as [|b [|c s3]]; try exact Hbad. destruct (_ && _) eqn:Eb; [|exact Hbad].
    intros H. apply (then_text_valid _ _ _ _ H);
      [|intros t0; apply IH; cbn [String.length] in Hn; lia].
    intros t0. cbn [utf8_valid]. by rewrite Ha El Eb.
  - destruct s1 as [|b [|c [|d s4]]]; try exact Hbad. destruct (_ && _ && _) eqn:Eb; [|exact Hbad].
    intros H. apply (then_text_valid _ _ _ _ H);
      [|intros t0; apply IH; cbn [String.length] in Hn; lia].
    intros t0. cbn [utf8_valid]. by rewrite Ha El Eb.
Qed.

(** ** Numbers round-trip *)

(** The text does not start with such a byte. *)
Definition head_free (p : ascii -> bool) (s : string) : bool :=
  match s with String c _ => negb (p c) | EmptyString => true end.

Definition int_part (c : ascii) : bool := is_digit c.
Definition frac_part (c : ascii) : bool := is_digit c || is_char c ".".
Definition number_part (c : ascii) : bool := is_digit c || is_char c "." || is_exp c.

Lemma head_free_weaken (p q : ascii -> bool) s : (forall c, q c = true -> p c = true) ->
  head_free p s = true -> head_free q s = true.
Proof.
  intros H. destruct s as [|c s]; [done|]. simpl. rewrite !negb_true_iff. intros Hp.
  destruct (q c) eqn:Hq; [|done]. by rewrite (H _ Hq) in Hp.
Qed.

Lemma frac_free_int s : head_free frac_part s = true -> head_free is_digit s = true.
Proof. apply head_free_weaken. intros c H. unfold frac_part. by rewrite H. Qed.
Lemma number_free_frac s : head_free number_part s = true -> head_free frac_part s = true.
Proof. apply head_free_weaken. unfold frac_part, number_part. intros c H. by rewrite H. Qed.
Lemma number_free_exp s c t : head_free number_part s = true -> s = String c t -> is_exp c = false.
Proof.
  intros H ->. simpl in H. apply negb_true_iff, orb_false_iff in H as [_ H]. exact H.
Qed.

(** A reader of a prefix: what it takes is read again before anything that
    does not continue it. *)
Definition reads_prefix (f : string -> option (string * string)) (stop : ascii -> bool)
    (s t r : string) : Prop :=
  s = t +:+ r /\ forall x, head_free stop x = true -> f (t +:+ x) = Some (t, x).

Lemma span_digits_prefix s d r : span_digits s = (d, r) ->
  s = d +:+ r /\ forall x, head_free is_digit x = true -> span_digits (d +:+ x) = (d, x).
Proof.
  revert d r. induction s as [|c s IH]; intros d r; cbn [span_digits].
  - intros [= <- <-]. split; [done|]. intros [|c x]; [done|]. simpl.
    rewrite negb_true_iff. change ("" +:+ String c x) with (String c x). cbn [span_digits].
    by intros ->.
  - destruct (is_digit c) eqn:Hc.
    + destruct (span_digits s) as [d0 r0] eqn:E. intros [= <- <-].
      destruct (IH _ _ eq_refl) as [-> Hx]. split; [done|]. intros x H.
      rewrite append_cons. cbn [span_digits]. by rewrite Hc (Hx _ H).
    + intros [= <- <-]. split; [done|]. intros [|c' x]; [done|]. simpl. rewrite negb_true_iff.
      change ("" +:+ String c' x) with (String c' x). cbn [span_digits]. by intros ->.
Qed.

Lemma digits1_prefix s d r : digits1 s = Some (d, r) -> reads_prefix digits1 is_digit s d r /\ d <> "".
Proof.
  unfold digits1. destruct (span_digits s) as [[|c d0] r0] eqn:E; [discriminate|].
  intros [= <- <-]. destruct (span_digits_prefix _ _ _ E) as [Hs Hx]. split; [|done].
  split; [exact Hs|]. intros x H. by rewrite (Hx x H).
Qed.

Lemma number_int_prefix s i r : number_int s = Some (i, r) ->
  reads_prefix number_int is_digit s i r /\ exists c u, i = String c u.
Proof.
  unfold number_int. destruct s as [|c s]; [discriminate|]. destruct (is_char c "0") eqn:E0.
  - intros [= <- <-]. apply is_char_eq in E0 as ->. split; [|by eexists _, _].
    split; [done|]. intros x _. done.
  - destruct (is_digit c) eqn:Hc; [|discriminate]. intros [= H].
    destruct (span_digits_prefix (String c s) _ _ H) as [Hs Hx]. cbn [span_digits] in H. rewrite Hc in H.
    destruct (span_digits s) as [d0 r0]. injection H as <- <-. split; [|by eexists _, _].
    split; [exact Hs|]. intros x Hh. rewrite append_cons E0 Hc. by rewrite -(Hx _ Hh).
Qed.

Lemma number_frac_prefix s f r : number_frac s = Some (f, r) ->
  reads_prefix number_frac frac_part s f r
  /\ forall x, head_free frac_part x = true -> head_free is_digit (f +:+ x) = true.
Proof.
  assert (Hnone : reads_prefix number_frac frac_part s "" s
    /\ forall x, head_free frac_part x = true -> head_free is_digit ("" +:+ x) = true).
  { split; [split; [done|]|intros x; apply frac_free_int]. intros [|c x] H; [done|].
    simpl in H. apply negb_true_iff, orb_false_iff in H as [_ H].
    change ("" +:+ String c x) with (String c x). unfold number_frac. by rewrite H. }
  unfold number_frac at 1. destruct s as [|c s]; [by intros [= <- <-]|].
  destruct (is_char c ".") eqn:Ed; [|by intros [= <- <-]]. intros H.
  apply then_text_Some in H as (d & Hd & ->). apply is_char_eq in Ed as ->.
  apply digits1_prefix in Hd as [[-> Hx] _]. split; [split|].
  - done.
  - intros x Hh. rewrite append_cons. cbn. by rewrite (Hx _ (frac_free_int _ Hh)).
  - done.
Qed.

Lemma number_exp_prefix s e r : number_exp s = Some (e, r) ->
  reads_prefix number_exp number_part s e r
  /\ forall x, head_free number_part x = true -> head_free frac_part (e +:+ x) = true.
Proof.
  assert (Hnone : reads_prefix number_exp number_part s "" s
    /\ forall x, head_free number_part x = true -> head_free frac_part ("" +:+ x) = true).
  { split; [split; [done|]|intros x; apply number_free_frac]. intros [|c x] H; [done|].
    change ("" +:+ String c x) with (String c x). unfold number_exp.
    by rewrite (number_free_exp _ _ _ H eq_refl). }
  assert (Hex : forall c u, is_exp c = true -> head_free frac_part (String c u) = true).
  { intros c u H. unfold is_exp in H. apply orb_true_iff in H as [H|H]; by apply is_char_eq in H as ->. }
  unfold number_exp at 1. destruct s as [|c s]; [by intros [= <- <-]|].
  destruct (is_exp c) eqn:Ee; [|by intros [= <- <-]]. destruct s as [|sg s]; [discriminate|].
  destruct (_ || _) eqn:Es; intros H; apply then_text_Some in H as (d & Hd & ->);
    apply digits1_prefix in Hd as [[Hs Hx] Hne]; (split; [split|]); try by rewrite Hs.
  - intros x Hh. rewrite !append_cons. unfold number_exp. rewrite Ee Es.
    by rewrite (Hx _ (frac_free_int _ (number_free_frac _ Hh))).
  - intros x _. rewrite append_cons. by apply Hex.
  - intros x Hh. rewrite append_cons. unfold number_exp. rewrite Ee.
    destruct d as [|c' d]; [done|]. injection Hs as <- Hs. rewrite append_cons Es -append_cons.
    by rewrite (Hx _ (frac_free_int _ (number_free_frac _ Hh))).
  - intros x _. rewrite append_cons. by apply Hex.
Qed.

Lemma number_sign_prefix s sign s1 : number_sign s = (sign, s1) ->
  s = sign +:+ s1 /\ forall c u, (exists v, s1 = String c v) ->
    number_sign (sign +:+ String c u) = (sign, String c u).
Proof.
  unfold number_sign at 1. destruct s as [|c s]; [|destruct (is_char c "-") eqn:E].
  - intros [= <- <-]. split; [done|]. by intros c u [v [=]].
  - intros [= <- <-]. apply is_char_eq in E as ->. by split.
  - intros [= <- <-]. split; [done|]. intros c' u [v [= <- <-]].
    change ("" +:+ String c u) with (String c u). unfold number_sign. by rewrite E.
Qed.

Lemma number_lit_prefix s t r : number_lit s = Some (t, r) ->
  reads_prefix number_lit number_part s t r /\ exists c u, t = String c u.
Proof.
  unfold number_lit at 1. destruct (number_sign s) as [sign s1] eqn:Es.
  destruct (number_int s1) as [[i s2]|] eqn:Ei; [|discriminate].
  cbn -[number_frac number_exp]. destruct (number_frac s2) as [[f s3]|] eqn:Ef; [|discriminate].
  cbn -[number_exp]. destruct (number_exp s3) as [[e s4]|] eqn:Ee; [|discriminate].
  cbn. intros [= <- <-].
  apply number_sign_prefix in Es as [-> Hsign]. apply number_int_prefix in Ei as [[-> Hi] (c & u & ->)].
  apply number_frac_prefix in Ef as [[-> Hf] Hfx]. apply number_exp_prefix in Ee as [[-> He] Hex].
  split; [split|].
  - by rewrite !append_assoc.
  - intros x Hx. rewrite -!append_assoc. rewrite append_cons. unfold number_lit at 1.
    rewrite (Hsign c (u +:+ (f +:+ (e +:+ x)))); [by eexists|].
    rewrite -append_cons (Hi (f +:+ (e +:+ x))); [apply Hfx, Hex, Hx|].
    cbn -[number_frac number_exp]. rewrite (Hf (e +:+ x)); [apply Hex, Hx|].
    cbn -[number_exp]. by rewrite (He x Hx).
  - destruct sign as [|c' sign]; by eexists _, _.
Qed.

(** ** Maps *)

Lemma text_lt_irrefl a : text_lt a a = false.
Proof. induction a as [|x a IH]; [done|]. simpl. by rewrite IH Z.ltb_irrefl andb_false_r. Qed.

Lemma text_lt_trans a b c : text_lt a b = true -> text_lt b c = true -> text_lt a c = true.
Proof.
  revert b c. induction a as [|x a IH]; intros [|y b] [|z c]; simpl; try done.
  rewrite !orb_true_iff !andb_true_iff !Z.ltb_lt !Z.eqb_eq.
  intros [H1|[H1 H2]] [H3|[H3 H4]]; try (left; lia). right. split; [lia|]. exact (IH _ _ H2 H4).
Qed.

Lemma text_lt_asym a b : text_lt a b = true -> text_lt b a = false.
Proof.
  intros H. destruct (text_lt b a) eqn:E; [|done]. pose proof (text_lt_trans _ _ _ H E) as Hc.
  by rewrite text_lt_irrefl in Hc.
Qed.

Lemma text_lt_total a b : a <> b -> text_lt a b = false -> text_lt b a = true.
Proof.
  revert b. induction a as [|x a IH]; intros [|y b]; simpl; try done.
  rewrite !orb_false_iff !andb_false_iff !orb_true_iff !andb_true_iff Z.ltb_ge Z.ltb_lt Z.eqb_eq.
  rewrite Z.eqb_neq. intros Hne [Hle Hc]. destruct (decide (byte_val x = byte_val y)) as [E|E].
  - right. split; [done|]. apply byte_val_inj in E as <-. apply IH; [congruence|].
    by destruct Hc.
  - left. lia.
Qed.

(** The keys increase. *)
Fixpoint sorted_fields {A} (m : list (string * A)) : bool :=
  match m with
  | [] => true
  | (k, _) :: rest => forallb (fun kv => text_lt k kv.1) rest && sorted_fields rest
  end.

Lemma forallb_lt_cons {A} k k' (m : list (string * A)) : text_lt k k' = true ->
  forallb (fun kv => text_lt k' kv.1) m = true -> forallb (fun kv => text_lt k kv.1) m = true.
Proof.
  intros H. rewrite !forallb_forall. intros Hm kv Hin. exact (text_lt_trans _ _ _ H (Hm kv Hin)).
Qed.

Lemma put_field_lt {A} k0 k (v : A) m : text_lt k0 k = true ->
  forallb (fun kv => text_lt k0 kv.1) m = true ->
  forallb (fun kv => text_lt k0 kv.1) (put_field k v m) = true.
Proof.
  intros H. induction m as [|[k' v'] m IH]; simpl; [by rewrite H|].
  rewrite andb_true_iff. intros [H1 H2]. case_bool_decide; simpl; [by rewrite H H2|].
  destruct (text_lt k k'); simpl; by rewrite ?H H1 ?H2 ?IH.
Qed.

Lemma put_field_sorted {A} k (v : A) m : sorted_fields m = true ->
  sorted_fields (put_field k v m) = true.
Proof.
  induction m as [|[k' v'] m IH]; [done|]. simpl. rewrite andb_true_iff. intros [H1 H2].
  case_bool_decide as E; [subst k'; simpl; by rewrite H1 H2|].
  destruct (text_lt k k') eqn:Hlt; simpl.
  - by rewrite Hlt (forallb_lt_cons _ _ _ Hlt H1) H1 H2.
  - rewrite (IH H2) andb_true_r. apply put_field_lt; [|exact H1]. by apply text_lt_total.
Qed.

(** A key above those of the map goes to its end, and is new. *)
Lemma put_field_end {A} k (v : A) m : forallb (fun kv => text_lt kv.1 k) m = true ->
  put_field k v m = m ++ [(k, v)] /\ has_field k m = false.
Proof.
  unfold has_field. induction m as [|[k' v'] m IH]; [done|]. simpl. rewrite andb_true_iff.
  intros [H1 H2]. destruct (IH H2) as [E1 E2]. rewrite (text_lt_asym _ _ H1) E1.
  rewrite !bool_decide_false; [by intros ->; rewrite text_lt_irrefl in H1..|]. by rewrite E2.
Qed.

Lemma sorted_fields_app {A} (a b : list (string * A)) k v : sorted_fields (a ++ (k, v) :: b) = true ->
  forallb (fun kv => text_lt kv.1 k) a = true.
Proof.
  induction a as [|[k' v'] a IH]; [done|]. simpl. rewrite !andb_true_iff forallb_app.
  intros [H1 H2]. split; [|exact (IH H2)]. apply andb_true_iff in H1 as [_ H1]. simpl in H1.
  by apply andb_true_iff in H1 as [H1 _].
Qed.

(** ** Values round-trip *)

Section induction.
Context (P : gval -> Prop) (Pnull : P VNull) (Pbool : forall b, P (VBool b))
  (Pnumber : forall t, P (VNumber t)) (Pstring : forall s, P (VString s))
  (Parray : forall l, Forall P l -> P (VArray l))
  (Pobject : forall m, Forall (fun kv => P kv.2) m -> P (VObject m)).

Fixpoint gval_nested_ind (v : gval) : P v :=
  match v with
  | VNull => Pnull
  | VBool b => Pbool b
  | VNumber t => Pnumber t
  | VString s => Pstring s
  | VArray l => Parray l ((fix go l : Forall P l := match l with
                           | [] => Forall_nil_2 _
                           | v :: l' => Forall_cons_2 _ _ _ (gval_nested_ind v) (go l')
                           end) l)
  | VObject m => Pobject m ((fix go m : Forall (fun kv => P kv.2) m := match m with
                             | [] => Forall_nil_2 _
                             | kv :: m' => Forall_cons_2 _ _ _ (gval_nested_ind kv.2) (go m')
                             end) m)
  end.
End induction.

(** What a decoder can produce. *)
Fixpoint value_ok (v : gval) : bool :=
  match v with
  | VNull | VBool _ => true
  | VNumber t => bool_decide (number_lit t = Some (t, ""))
  | VString s => utf8_valid s
  | VArray l => forallb value_ok l
  | VObject m => sorted_fields m && forallb (fun kv => utf8_valid kv.1 && value_ok kv.2) m
  end.

(** The value lies within the limits of the decoder. *)
Fixpoint fits (dc : decoding) (d : nat) (v : gval) : bool :=
  dc_value dc d &&
  match v with
  | VArray l => dc_container dc d && forallb (fits dc (S d)) l
  | VObject m => dc_container dc d && forallb (fun kv => fits dc (S d) kv.2) m
  | _ => true
  end.

(** The bytes a printed value starts with. *)
Definition value_head (c : ascii) : bool :=
  is_char c quote_char || is_char c "n" || is_char c "t" || is_char c "f" || is_char c "["
  || is_char c "{" || is_char c "-" || is_digit c.

Lemma value_head_plain c : value_head c = true ->
  is_space c = false /\ is_char c "]" = false /\ is_char c "}" = false.
Proof. destruct c as [[] [] [] [] [] [] [] []]; intros H; try discriminate H; by vm_compute. Qed.

Lemma number_head c u p : number_lit (String c u) = Some p ->
  is_char c "-" = true \/ is_digit c = true.
Proof.
  unfold number_lit, number_sign. destruct (is_char c "-"); [by left|].
  unfold number_int. destruct (is_char c "0") eqn:E0.
  - apply is_char_eq in E0 as ->. by right.
  - destruct (is_digit c); [by right|discriminate].
Qed.

Lemma encode_head v : value_ok v = true -> exists c u, encode v = String c u /\ value_head c = true.
Proof.
  destruct v as [|[]|t|s|l|m]; intros H; try by eexists _, _.
  simpl in H. apply bool_decide_eq_true in H. destruct t as [|c u]; [discriminate|].
  exists c, u. split; [done|]. unfold value_head. by destruct (number_head _ _ _ H) as [->| ->];
    rewrite ?orb_true_r.
Qed.

Lemma punct_miss c d s : is_space d = false -> is_char d c = false -> punct c (String d s) = None.
Proof. intros H1 H2. unfold punct. cbn. by rewrite H1 H2. Qed.

Lemma scalar_number t rest : number_lit t = Some (t, "") -> head_free number_part rest = true ->
  exists c u, t = String c u /\ is_space c = false /\ is_char c "[" = false /\ is_char c "{" = false
  /\ scalar (String c (u +:+ rest)) = Some (VNumber t, rest).
Proof.
  intros H Hr. destruct (number_lit_prefix _ _ _ H) as [[_ Hx] (c & u & ->)].
  specialize (Hx rest Hr). rewrite append_cons in Hx. exists c, u. split; [done|].
  assert (Hc : is_space c = false /\ is_char c "[" = false /\ is_char c "{" = false
    /\ is_char c quote_char = false /\ is_char c "n" = false /\ is_char c "t" = false
    /\ is_char c "f" = false).
  { destruct (number_head _ _ _ H) as [E|E];
      [apply is_char_eq in E as ->; by vm_compute|].
    destruct c as [[] [] [] [] [] [] [] []]; try discriminate E; by vm_compute. }
  destruct Hc as (H1 & H2 & H3 & H4 & H5 & H6 & H7). split_and!; try done.
  unfold scalar. by rewrite H4 H5 H6 H7 Hx.
Qed.

Section round_trip.
Context (dc : decoding).

Definition read_back (v : gval) : Prop := forall fuel d rest,
  value_ok v = true -> fits dc d v = true -> (2 * String.length (encode v) <= fuel)%nat ->
  head_free number_part rest = true ->
  parse_value dc fuel d (encode v +:+ rest) = Some (v, rest).

Definition listed (l : list gval) : string := Join (map encode l) ",".

Lemma Join_cons2 a b l sep : Join (a :: b :: l) sep = a +:+ (sep +:+ Join (b :: l) sep).
Proof. reflexivity. Qed.

Lemma punct_hit c s : is_space c = false -> punct c (String c s) = Some s.
Proof. intros H. unfold punct. cbn. rewrite H. unfold is_char. by rewrite bool_decide_true. Qed.

Lemma elements_read_back l : Forall read_back l -> l <> [] -> forall fuel d acc rest,
  forallb value_ok l = true -> forallb (fits dc (S d)) l = true ->
  (2 * String.length (listed l) + 1 <= fuel)%nat ->
  parse_elements dc fuel d acc (listed l +:+ String "]" rest) = Some (VArray (acc ++ l), rest).
Proof.
  induction 1 as [|v l Hv Hl IH]; [done|]. intros _ fuel d acc rest Hok Hfit Hfuel.
  simpl in Hok, Hfit. apply andb_true_iff in Hok as [Ho1 Ho2], Hfit as [Hf1 Hf2].
  destruct fuel as [|fuel]; [lia|]. unfold listed in *. destruct l as [|w l].
  - cbn [map Join] in *. cbn [parse_elements]. rewrite Hv //. lia.
  - cbn [map] in *. rewrite Join_cons2 in Hfuel |- *. rewrite !length_append in Hfuel.
    cbn [String.length] in Hfuel. rewrite -!append_assoc. cbn [parse_elements].
    rewrite Hv //; [lia|]. cbn -[punct Join]. rewrite append_cons punct_hit //.
    change ("" +:+ (Join (encode w :: map encode l) "," +:+ String "]" rest))
      with (Join (encode w :: map encode l) "," +:+ String "]" rest).
    rewrite IH //; [lia|]. by rewrite -app_assoc.
Qed.

Definition member_text (kv : string * gval) : string := json_string kv.1 +:+ (":" +:+ encode kv.2).
Definition membered (m : list (string * gval)) : string := Join (map member_text m) ",".

Lemma encode_object m : encode (VObject m) = "{" +:+ (membered m +:+ "}").
Proof. cbn [encode]. unfold json_object, membered. by rewrite -list_fmap_compose. Qed.

Lemma member_key_text k rest : utf8_valid k = true ->
  member_key (json_string k +:+ (":" +:+ rest)) = Some (k, rest).
Proof.
  intros Hk. unfold member_key, json_string. rewrite append_cons -append_assoc.
  change quote_mark with quote_char. rewrite punct_hit //. cbn -[unquote punct].
  change quote_char with quote_mark. rewrite append_cons (unquote_chars _ _ Hk). cbn -[punct].
  rewrite append_cons. by rewrite punct_hit.
Qed.

Lemma members_read_back m : Forall (fun kv => read_back kv.2) m -> m <> [] ->
  forall fuel d acc rest, sorted_fields (acc ++ m) = true ->
  forallb (fun kv => utf8_valid kv.1 && value_ok kv.2) m = true ->
  forallb (fun kv => fits dc (S d) kv.2) m = true ->
  (2 * String.length (membered m) + 1 <= fuel)%nat ->
  parse_members dc fuel d acc (membered m +:+ String "}" rest) = Some (VObject (acc ++ m), rest).
Proof.
  induction 1 as [|[k v] m Hv Hm IH]; [done|]. intros _ fuel d acc rest Hs Hok Hfit Hfuel.
  simpl in Hok, Hfit, Hv. apply andb_true_iff in Hok as [Ho1 Ho2], Hfit as [Hf1 Hf2].
  apply andb_true_iff in Ho1 as [Hk Ho1].
  destruct (put_field_end k v acc (sorted_fields_app _ _ _ _ Hs)) as [Hput' Hnew].
  assert (Hput : put_member dc k v acc = acc ++ [(k, v)])
    by (unfold put_member; by rewrite Hnew andb_false_r).
  destruct fuel as [|fuel]; [lia|]. unfold membered in *. destruct m as [|w m].
  - cbn [map Join] in *. unfold member_text in *. cbn [fst snd] in *.
    rewrite !length_append in Hfuel. cbn [parse_members]. rewrite -!append_assoc.
    rewrite member_key_text //. cbn -[parse_value punct]. rewrite Hnew andb_false_r.
    rewrite Hv //; [lia|]. cbn -[punct]. rewrite punct_miss //. rewrite punct_hit //. cbn.
    by rewrite Hput.
  - cbn [map] in *. rewrite Join_cons2 in Hfuel |- *. unfold member_text in Hfuel at 1 |- * at 1.
    cbn [fst snd] in *. rewrite !length_append in Hfuel. cbn [String.length] in Hfuel.
    cbn [parse_members]. rewrite -!append_assoc. rewrite member_key_text //.
    cbn -[parse_value parse_members punct Join]. rewrite Hnew andb_false_r. rewrite Hv //; [lia|].
    cbn -[parse_members punct Join]. rewrite append_cons punct_hit //.
    change ("" +:+ (Join (member_text w :: map member_text m) "," +:+ String "}" rest))
      with (Join (member_text w :: map member_text m) "," +:+ String "}" rest).
    rewrite Hput IH //; [by rewrite -app_assoc|lia|by rewrite -app_assoc].
Qed.

Lemma scalar_string x :
  scalar (String quote_mark x) = '(t, rest) ← unquote x; Some (VString t, rest).
Proof. reflexivity. Qed.

(** A printed value is read back, whatever follows it. *)
Lemma value_read_back v : read_back v.
Proof.
  induction v as [|b|t|s|l IH|m IH] using gval_nested_ind; intros [|fuel] d rest Hok Hfit Hfuel Hrest;
    try (destruct (encode_head _ Hok) as (c & u & E & _); rewrite E in Hfuel; simpl in Hfuel; lia);
    cbn [parse_value]; simpl in Hfit; apply andb_true_iff in Hfit as [Hd Hfit]; rewrite Hd;
    cbn [negb].
  - done.
  - by destruct b.
  - simpl in Hok. apply bool_decide_eq_true in Hok.
    destruct (scalar_number t rest Hok Hrest) as (c & u & -> & H1 & H2 & H3 & H4).
    cbn [encode]. rewrite append_cons. cbn [skip_space]. by rewrite H1 H2 H3 H4.
  - cbn [encode]. unfold json_string. rewrite append_cons. cbn [skip_space]. simpl in Hok.
    change (is_space quote_mark) with false. change (is_char quote_mark "[") with false.
    change (is_char quote_mark "{") with false. rewrite -append_assoc append_cons. cbv iota.
    rewrite scalar_string (unquote_chars _ _ Hok). done.
  - apply andb_true_iff in Hfit as [Hc Hfit]. simpl in Hok. destruct l as [|w l].
    { cbn. by rewrite Hc. }
    cbn [encode] in *. unfold json_list in *. fold (listed (w :: l)) in *.
    rewrite !length_append in Hfuel. rewrite -!append_assoc append_cons. cbn [skip_space].
    change (is_space "[") with false. cbv iota. change (is_char "[" "[") with true. rewrite Hc.
    cbn [negb]. cbv iota.
    change ("" +:+ (listed (w :: l) +:+ ("]" +:+ rest))) with
      (listed (w :: l) +:+ String "]" rest).
    simpl in Hok. pose proof (proj1 (proj1 (andb_true_iff _ _) Hok)) as Hw.
    destruct (encode_head _ Hw) as (c & u & Ew & Hh).
    destruct (value_head_plain _ Hh) as (Hsp & Hbr & _).
    assert (exists u', listed (w :: l) +:+ String "]" rest = String c u') as [u' Eu].
    { unfold listed. destruct l; cbn [map Join]; rewrite Ew; by eexists. }
    rewrite Eu (punct_miss "]" c u') // -Eu. cbn [String.length] in Hfuel.
    apply elements_read_back; try done. lia.
  - apply andb_true_iff in Hfit as [Hc Hfit]. simpl in Hok. apply andb_true_iff in Hok as [Hs Hok].
    destruct m as [|w m].
    { cbn. by rewrite Hc. }
    rewrite encode_object in Hfuel |- *. rewrite !length_append in Hfuel.
    rewrite -!append_assoc append_cons. cbn [skip_space].
    change (is_space "{") with false. cbv iota. change (is_char "{" "[") with false.
    change (is_char "{" "{") with true. rewrite Hc. cbn [negb]. cbv iota.
    change ("" +:+ (membered (w :: m) +:+ ("}" +:+ rest))) with
      (membered (w :: m) +:+ String "}" rest).
    assert (exists u', membered (w :: m) +:+ String "}" rest = String quote_char u') as [u' Eu].
    { unfold membered. destruct m; cbn [map Join]; unfold member_text; by eexists. }
    rewrite Eu (punct_miss "}" quote_char u') // -Eu. cbn [String.length] in Hfuel.
    apply members_read_back; try done. lia.
Qed.

(** ** Decoded values are well formed *)

Lemma scalar_sound s v r : scalar s = Some (v, r) ->
  value_ok v = true /\ forall d, dc_value dc d = true -> fits dc d v = true.
Proof.
  unfold scalar. destruct s as [|c s]; [discriminate|]. intros H.
  assert (Hv : value_ok v = true
    /\ match v with VArray _ | VObject _ => False | _ => True end).
  { destruct (is_char c quote_char).
    { destruct (unquote s) as [[t r0]|] eqn:E; [|discriminate]. injection H as <- _.
      split; [exact (unquote_valid _ _ _ E)|done]. }
    destruct (is_char c "n"); [destruct (strip_prefix _ _); [|discriminate]; by injection H as <- _|].
    destruct (is_char c "t"); [destruct (strip_prefix _ _); [|discriminate]; by injection H as <- _|].
    destruct (is_char c "f"); [destruct (strip_prefix _ _); [|discriminate]; by injection H as <- _|].
    destruct (number_lit _) as [[t r0]|] eqn:E; [|discriminate]. injection H as <- _.
    destruct (number_lit_prefix _ _ _ E) as [[_ Hx] _]. split; [|done]. apply bool_decide_eq_true.
    rewrite -{1}(append_nil_r t). by apply Hx. }
  destruct Hv as [Hv Hs]. split; [exact Hv|]. intros d Hd. destruct v; simpl; by rewrite ?Hd.
Qed.

Lemma put_field_forallb (P : string * gval -> bool) k v m : P (k, v) = true ->
  forallb P m = true -> forallb P (put_field k v m) = true.
Proof.
  intros Hk. induction m as [|[k' v'] m IH]; simpl; [by rewrite Hk|]. rewrite andb_true_iff.
  intros [H1 H2]. case_bool_decide; simpl; [by rewrite Hk H2|].
  destruct (text_lt k k'); simpl; by rewrite ?Hk H1 ?H2 ?IH.
Qed.

Definition sound (d : nat) (v : gval) : Prop := value_ok v = true /\ fits dc d v = true.

Lemma parse_sound fuel :
  (forall d s v r, parse_value dc fuel d s = Some (v, r) -> sound d v)
  /\ (forall d acc s v r, parse_elements dc fuel d acc s = Some (v, r) ->
       sound d (VArray acc) -> sound d v)
  /\ (forall d acc s v r, parse_members dc fuel d acc s = Some (v, r) ->
       sound d (VObject acc) -> sound d v).
Proof.
  unfold sound. induction fuel as [|fuel (IHv & IHe & IHm)]; [done|]. split_and!.
  - intros d s v r. cbn [parse_value]. destruct (dc_value dc d) eqn:Hd; [|done]. cbn [negb].
    destruct (skip_space s) as [|c s']; [done|].
    destruct (is_char c "["); [|destruct (is_char c "{")].
    + destruct (dc_container dc d) eqn:Hc; [|done]. cbn [negb].
      assert (H0 : value_ok (VArray []) = true /\ fits dc d (VArray []) = true)
        by (cbn; by rewrite Hd Hc).
      destruct (punct _ _); [by intros [= <- <-]|]. intros H. exact (IHe _ _ _ _ _ H H0).
    + destruct (dc_container dc d) eqn:Hc; [|done]. cbn [negb].
      assert (H0 : value_ok (VObject []) = true /\ fits dc d (VObject []) = true)
        by (cbn; by rewrite Hd Hc).
      destruct (punct _ _); [by intros [= <- <-]|]. intros H. exact (IHm _ _ _ _ _ H H0).
    + intros H. apply scalar_sound in H as [Hv Hf]. split; [exact Hv|exact (Hf d Hd)].
  - intros d acc s v r. cbn [parse_elements].
    destruct (parse_value dc fuel (S d) s) as [[w s1]|] eqn:E; [|done]. cbn -[punct parse_elements].
    destruct (IHv _ _ _ _ E) as [Hw1 Hw2]. intros H [Ha Hb].
    assert (H0 : value_ok (VArray (acc ++ [w])) = true /\ fits dc d (VArray (acc ++ [w])) = true).
    { simpl in *. rewrite !forallb_app Ha. apply andb_true_iff in Hb as [-> Hb].
      apply andb_true_iff in Hb as [-> ->]. simpl. by rewrite Hw1 Hw2. }
    destruct (punct "," s1); [exact (IHe _ _ _ _ _ H H0)|].
    destruct (punct "]" s1); [|discriminate]. by injection H as <- <-.
  - intros d acc s v r. cbn [parse_members]. destruct (member_key s) as [[k s1]|] eqn:Ek; [|done].
    cbn -[punct parse_members parse_value]. destruct (_ && _); [done|].
    destruct (parse_value dc fuel (S d) s1) as [[w s2]|] eqn:E; [|done].
    cbn -[punct parse_members]. destruct (IHv _ _ _ _ E) as [Hw1 Hw2]. intros H [Ha Hb].
    assert (Hk : utf8_valid k = true).
    { unfold member_key in Ek. destruct (punct _ s) as [q|]; [|discriminate]. cbn -[punct] in Ek.
      destruct (unquote q) as [[t q2]|] eqn:Eu; [|discriminate]. cbn -[punct] in Ek.
      destruct (punct _ q2); [|discriminate]. injection Ek as <- _. exact (unquote_valid _ _ _ Eu). }
    assert (H0 : value_ok (VObject (put_member dc k w acc)) = true
      /\ fits dc d (VObject (put_member dc k w acc)) = true).
    { unfold put_member. destruct (dc_first dc && _); [by split|]. simpl in *. apply andb_true_iff in Ha as [Ha1 Ha2], Hb as [Hb1 Hb2].
      apply andb_true_iff in Hb2 as [Hb2 Hb3].
      rewrite (put_field_sorted _ _ _ Ha1) Hb1 Hb2 !put_field_forallb //=. by rewrite Hk. }
    destruct (punct "," s2); [exact (IHm _ _ _ _ _ H H0)|].
    destruct (punct "}" s2); [|discriminate]. by injection H as <- <-.
Qed.

(** What is decoded prints, and decodes to itself. *)
Lemma decode_sound s v : decode dc s = Some v -> value_ok v = true /\ fits dc 0 v = true.
Proof.
  unfold decode. destruct (parse_value _ _ _ _) as [[w r]|] eqn:E; [|discriminate].
  cbn. destruct (skip_space r); [|discriminate]. intros [= <-].
  exact (proj1 (parse_sound _) _ _ _ _ E).
Qed.

Lemma decode_encode v : value_ok v = true -> fits dc 0 v = true -> decode dc (encode v) = Some v.
Proof.
  intros Hok Hfit. unfold decode. rewrite -{2}(append_nil_r (encode v)).
  rewrite (value_read_back v _ 0%nat "") //. unfold decode_fuel. lia.
Qed.

End round_trip.

Lemma encode_inj v w : value_ok v = true -> value_ok w = true -> encode v = encode w -> v = w.
Proof.
  intros Hv Hw E. set (dc := mkDecoding (fun _ => true) (fun _ => true) false false).
  assert (Hfit : forall v d, fits dc d v = true).
  { clear. induction v as [|b|t|s|l IH|m IH] using gval_nested_ind; intros d; try done.
    - simpl. apply forallb_forall. intros x Hx. rewrite List.Forall_forall in IH. by apply IH.
    - simpl. apply forallb_forall. intros x Hx. rewrite List.Forall_forall in IH. by apply IH. }
  pose proof (decode_encode dc v Hv (Hfit v 0%nat)) as H1.
  rewrite E (decode_encode dc w Hw (Hfit w 0%nat)) in H1. by injection H1.
Qed.

(** ** The fuel is enough *)

Lemma unquote_shorter s t r : unquote s = Some (t, r) ->
  (String.length r < String.length s)%nat.
Proof.
  assert (forall n s t, (String.length s <= n)%nat -> unquote s = Some (t, r) ->
    (String.length r < String.length s)%nat) as H; [|by apply (H (String.length s) s t)].
  clear s t. induction n as [|n IH]; intros [|a s1] t Hn; try done; [simpl in Hn; lia|].
  assert (Hstep : forall f s', (String.length s' <= String.length s1)%nat ->
    then_text f (unquote s') = Some (t, r) -> (String.length r < String.length (String a s1))%nat).
  { intros f s' Hs H. apply then_text_Some in H as (t0 & H & _). simpl in *. apply IH in H; lia. }
  cbn [unquote]. intros H. cbn [String.length] in Hn.
  repeat first
    [ injection H as _ <-; simpl; lia
    | discriminate H
    | refine (Hstep _ _ _ H); simpl; lia
    | match type of H with
      | (if ?b then _ else _) = _ => destruct b
      | match ?x with _ => _ end = _ => destruct x
      end ].
Qed.

Lemma skip_space_le s : (String.length (skip_space s) <= String.length s)%nat.
Proof. induction s as [|c s IH]; [done|]. simpl. destruct (is_space c); simpl; lia. Qed.

Lemma punct_shorter c s r : punct c s = Some r -> (String.length r < String.length s)%nat.
Proof.
  unfold punct. pose proof (skip_space_le s) as H. destruct (skip_space s) as [|d s']; [done|].
  destruct (is_char d c); [|done]. intros [= <-]. simpl in H. lia.
Qed.

Lemma strip_prefix_le p s r : strip_prefix p s = Some r ->
  String.length s = (String.length p + String.length r)%nat.
Proof.
  revert s. induction p as [|a p IH]; intros [|b s]; simpl; try done; [by intros [= <-]..|].
  case_bool_decide as E; [|done]. intros H. by rewrite (IH _ H).
Qed.

Lemma literal_shorter a p s (w v : gval) r :
  (rest ← strip_prefix (String a p) s; Some (w, rest)) = Some (v, r) ->
  (String.length r < String.length s)%nat.
Proof.
  destruct (strip_prefix _ s) as [q|] eqn:E; [|done]. intros [= _ <-].
  apply strip_prefix_le in E. simpl in E. lia.
Qed.

Lemma scalar_shorter s v r : scalar s = Some (v, r) -> (String.length r < String.length s)%nat.
Proof.
  destruct s as [|c s]; [done|]. unfold scalar. destruct (is_char c quote_char).
  { destruct (unquote s) as [[t q]|] eqn:E; [|done]. intros [= _ <-].
    apply unquote_shorter in E. simpl. lia. }
  destruct (is_char c "n"); [apply literal_shorter|].
  destruct (is_char c "t"); [apply literal_shorter|].
  destruct (is_char c "f"); [apply literal_shorter|].
  destruct (number_lit (String c s)) as [[t q]|] eqn:E; [|done]. intros [= _ <-].
  destruct (number_lit_prefix _ _ _ E) as [[-> _] (c' & u & ->)]. rewrite length_append. simpl. lia.
Qed.

Lemma member_key_shorter s k r : member_key s = Some (k, r) ->
  (String.length r < String.length s)%nat.
Proof.
  unfold member_key. destruct (punct quote_char s) as [s1|] eqn:E1; [|done]. cbn -[punct].
  destruct (unquote s1) as [[t s2]|] eqn:E2; [|done]. cbn -[punct].
  destruct (punct ":" s2) as [s3|] eqn:E3; [|done]. intros [= _ <-].
  apply punct_shorter in E1, E3. apply unquote_shorter in E2. lia.
Qed.

Section fuel.
Context (dc : decoding).

Lemma parse_shorter fuel :
  (forall d s v r, parse_value dc fuel d s = Some (v, r) ->
     (String.length r < String.length s)%nat)
  /\ (forall d acc s v r, parse_elements dc fuel d acc s = Some (v, r) ->
       (String.length r < String.length s)%nat)
  /\ (forall d acc s v r, parse_members dc fuel d acc s = Some (v, r) ->
       (String.length r < String.length s)%nat).
Proof.
  induction fuel as [|fuel (IHv & IHe & IHm)]; [done|]. split_and!.
  - intros d s v r. cbn [parse_value]. destruct (negb _); [done|].
    pose proof (skip_space_le s) as Hs. destruct (skip_space s) as [|c s']; [done|]. simpl in Hs.
    destruct (is_char c "["); [|destruct (is_char c "{")].
    + destruct (negb _); [done|]. destruct (punct "]" s') eqn:E.
      * intros [= _ <-]. apply punct_shorter in E. lia.
      * intros H. apply IHe in H. lia.
    + destruct (negb _); [done|]. destruct (punct "}" s') eqn:E.
      * intros [= _ <-]. apply punct_shorter in E. lia.
      * intros H. apply IHm in H. lia.
    + intros H. apply scalar_shorter in H. simpl in H. lia.
  - intros d acc s v r. cbn [parse_elements].
    destruct (parse_value dc fuel (S d) s) as [[w s1]|] eqn:E; [|done]. cbn -[punct parse_elements].
    apply IHv in E. destruct (punct "," s1) eqn:Ec.
    + intros H. apply IHe in H. apply punct_shorter in Ec. lia.
    + destruct (punct "]" s1) eqn:Eb; [|done]. intros [= _ <-]. apply punct_shorter in Eb. lia.
  - intros d acc s v r. cbn [parse_members]. destruct (member_key s) as [[k s1]|] eqn:Ek; [|done].
    cbn -[punct parse_members parse_value]. destruct (_ && _); [done|].
    destruct (parse_value dc fuel (S d) s1) as [[w s2]|] eqn:E; [|done].
    cbn -[punct parse_members]. apply IHv in E. apply member_key_shorter in Ek.
    destruct (punct "," s2) eqn:Ec.
    + intros H. apply IHm in H. apply punct_shorter in Ec. lia.
    + destruct (punct "}" s2) eqn:Eb; [|done]. intros [= _ <-]. apply punct_shorter in Eb. lia.
Qed.

(** More fuel changes nothing. *)
Lemma parse_enough fuel : forall more,
  (forall d s, (2 * String.length s + 1 <= fuel)%nat ->
     parse_value dc (fuel + more) d s = parse_value dc fuel d s)
  /\ (forall d acc s, (2 * String.length s + 2 <= fuel)%nat ->
       parse_elements dc (fuel + more) d acc s = parse_elements dc fuel d acc s)
  /\ (forall d acc s, (2 * String.length s + 2 <= fuel)%nat ->
       parse_members dc (fuel + more) d acc s = parse_members dc fuel d acc s).
Proof.
  intros more. induction fuel as [|fuel (IHv & IHe & IHm)]; [split_and!; intros; lia|].
  cbn [Nat.add]. split_and!.
  - intros d s Hf. cbn [parse_value]. destruct (negb _); [done|].
    pose proof (skip_space_le s) as Hs. destruct (skip_space s) as [|c s']; [done|]. simpl in Hs.
    rewrite IHe; [lia|]. rewrite IHm; [lia|]. done.
  - intros d acc s Hf. cbn [parse_elements]. rewrite IHv; [lia|].
    destruct (parse_value dc fuel (S d) s) as [[w s1]|] eqn:E; [|done]. cbn -[punct parse_elements].
    apply (proj1 (parse_shorter _)) in E. destruct (punct "," s1) eqn:Ec; [|done].
    apply punct_shorter in Ec. apply IHe. lia.
  - intros d acc s Hf. cbn [parse_members]. destruct (member_key s) as [[k s1]|] eqn:Ek; [|done].
    cbn -[punct parse_members parse_value]. apply member_key_shorter in Ek.
    destruct (_ && _); [done|]. rewrite IHv; [lia|].
    destruct (parse_value dc fuel (S d) s1) as [[w s2]|] eqn:E; [|done].
    cbn -[punct parse_members]. apply (proj1 (parse_shorter _)) in E.
    destruct (punct "," s2) eqn:Ec; [|done]. apply punct_shorter in Ec. apply IHm. lia.
Qed.

Lemma decode_fuel_enough s more :
  parse_value dc (decode_fuel s + more) 0 s = parse_value dc (decode_fuel s) 0 s.
Proof. apply parse_enough. unfold decode_fuel. lia. Qed.

End fuel.

(** ** Comparing decoders *)

(** What the first accepts the second accepts. *)
Record stricter (dc dc' : decoding) : Prop := mkStricter {
  st_value : forall d, dc_value dc d = true -> dc_value dc' d = true;
  st_container : forall d, dc_value dc d = true -> dc_container dc d = true ->
    dc_container dc' d = true;
  st_unique : dc_unique dc' = true -> dc_unique dc = true;
  st_first : dc_unique dc = true \/ dc_first dc' = dc_first dc;
}.

Lemma parse_stricter dc dc' fuel : stricter dc dc' ->
  (forall d s x, parse_value dc fuel d s = Some x -> parse_value dc' fuel d s = Some x)
  /\ (forall d acc s x, parse_elements dc fuel d acc s = Some x ->
       parse_elements dc' fuel d acc s = Some x)
  /\ (forall d acc s x, parse_members dc fuel d acc s = Some x ->
       parse_members dc' fuel d acc s = Some x).
Proof.
  intros Hs. induction fuel as [|fuel (IHv & IHe & IHm)]; [done|]. split_and!.
  - intros d s x. cbn [parse_value]. destruct (dc_value dc d) eqn:Hd; [|done].
    rewrite (st_value _ _ Hs _ Hd). cbn [negb]. destruct (skip_space s) as [|c s']; [done|].
    destruct (is_char c "["); [|destruct (is_char c "{"); [|done]];
      (destruct (dc_container dc d) eqn:Hc; [|done]); rewrite (st_container _ _ Hs _ Hd Hc);
      cbn [negb]; destruct (punct _ _); auto.
  - intros d acc s x. cbn [parse_elements].
    destruct (parse_value dc fuel (S d) s) as [[w s1]|] eqn:E; [|done].
    rewrite (IHv _ _ _ E). cbn -[punct parse_elements]. destruct (punct "," s1); auto.
  - intros d acc s x. cbn [parse_members]. destruct (member_key s) as [[k s1]|]; [|done].
    cbn -[punct parse_members parse_value put_member].
    destruct (dc_unique dc && has_field k acc) eqn:Hu; [done|].
    assert (Hu' : dc_unique dc' && has_field k acc = false).
    { destruct (dc_unique dc') eqn:E; [|done]. by rewrite (st_unique _ _ Hs E) in Hu. }
    rewrite Hu'. destruct (parse_value dc fuel (S d) s1) as [[w s2]|] eqn:E; [|done].
    assert (Hput : put_member dc' k w acc = put_member dc k w acc).
    { unfold put_member. destruct (st_first _ _ Hs) as [H1| ->]; [|done]. rewrite H1 in Hu.
      cbn in Hu. by rewrite Hu !andb_false_r. }
    rewrite (IHv _ _ _ E). cbn -[punct parse_members put_member]. rewrite Hput. destruct (punct "," s2); auto.
Qed.
