(* ===== verification/GoTime.v ===== *)
(** * GoTime: instants, durations, the calendar and RFC 3339

    A [time.Time] is its instant: nanoseconds since the Unix epoch, in UTC;
    a [time.Duration] is a number of nanoseconds.  The calendar is the
    proleptic Gregorian one of package [time]; [format_rfc3339] and
    [parse_rfc3339] follow the layout [time.RFC3339Nano]. *)
From S2P Require Import Prelude GoStrings.
From Stdlib Require Import Ascii.
From stdpp Require Import pretty.
Open Scope Z_scope.

(** ** Instants and durations *)

Definition microsecond : Z := 1000.
Definition millisecond : Z := 1000000.
Definition second : Z := 1000000000.
Definition minute : Z := 60 * second.
Definition hour : Z := 60 * minute.

(** The zero [time.Time] is 0001-01-01T00:00:00Z. *)
Definition zero_time : Z := -62135596800 * second.
Definition IsZero (t : Z) : bool := Z.eqb t zero_time.
Definition After (t u : Z) : bool := Z.ltb u t.
Definition Before (t u : Z) : bool := Z.ltb t u.

(** [t.Sub(u)] saturates at the range of a 64-bit duration. *)
Definition Sub (t u : Z) : Z := Z.max min_int64 (Z.min max_int64 (t - u)).

(** [t.Truncate(d)] counts from the zero time. *)
Definition Truncate (t d : Z) : Z :=
  if Z.leb d 0 then t else t - (t - zero_time) mod d.

(** ** The Gregorian calendar *)

Definition is_leap (y : Z) : bool :=
  Z.eqb (y mod 4) 0 && (negb (Z.eqb (y mod 100) 0) || Z.eqb (y mod 400) 0).

(** Days from 0001-01-01 to January 1 of year [y]. *)
Definition days_before_year (y : Z) : Z :=
  365 * (y - 1) + (y - 1) / 4 - (y - 1) / 100 + (y - 1) / 400.

(** Days of a common year before the first of month [m]. *)
Definition days_before_month (m : Z) : Z :=
  match m with
  | 1 => 0 | 2 => 31 | 3 => 59 | 4 => 90 | 5 => 120 | 6 => 151
  | 7 => 181 | 8 => 212 | 9 => 243 | 10 => 273 | 11 => 304 | 12 => 334
  | _ => 0
  end.

Definition leap_day (y m : Z) : Z := if is_leap y && Z.ltb 2 m then 1 else 0.

(** [daysIn(month, year)]. *)
Definition days_in (y m : Z) : Z :=
  match m with
  | 2 => if is_leap y then 29 else 28
  | 4 | 6 | 9 | 11 => 30
  | _ => 31
  end.

Definition valid_date (y m d : Z) : Prop :=
  1 <= m <= 12 /\ 1 <= d <= days_in y m.

(** Days from 1970-01-01 to the given date. *)
Definition date_to_days (y m d : Z) : Z :=
  days_before_year y + days_before_month m + leap_day y m + (d - 1) - 719162.

(** The date of a day number. *)
Definition civil_of_days (n : Z) : Z * Z * Z :=
  let z := n + 719468 in
  let era := z / 146097 in
  let doe := z - era * 146097 in
  let yoe := (doe - doe / 1460 + doe / 36524 - doe / 146096) / 365 in
  let doy := doe - (365 * yoe + yoe / 4 - yoe / 100) in
  let mp := (5 * doy + 2) / 153 in
  let d := doy - (153 * mp + 2) / 5 + 1 in
  let m := if Z.ltb mp 10 then mp + 3 else mp - 9 in
  let y := yoe + era * 400 in
  ((if Z.leb m 2 then y + 1 else y), m, d).

(** Sunday is 0, as in [time.Weekday]; 1970-01-01 was a Thursday. *)
Definition weekday_of_days (n : Z) : Z := (n + 4) mod 7.

(** The fields of an instant in UTC. *)
Definition unix_seconds (t : Z) : Z := t / second.
Definition nanos_of (t : Z) : Z := t mod second.
Definition days_of (t : Z) : Z := unix_seconds t / 86400.
Definition sec_of_day (t : Z) : Z := unix_seconds t mod 86400.

(** [time.Date(y, m, d, hh, mm, ss, ns, time.UTC)] on fields in range. *)
Definition make_time (y m d hh mm ss ns : Z) : Z :=
  (date_to_days y m d * 86400 + hh * 3600 + mm * 60 + ss) * second + ns.

(** ** Decimal digits *)

Definition digit_char (d : Z) : ascii := ascii_of_N (Z.to_N (48 + d)).

Definition digit_val (a : ascii) : option Z :=
  let n := byte_val a in
  if Z.leb 48 n && Z.leb n 57 then Some (n - 48) else None.

Arguments digit_char : simpl never.
Arguments digit_val : simpl never.

Definition pad2 (n : Z) : string :=
  String (digit_char (n / 10)) (String (digit_char (n mod 10)) "").

Definition pad4 (n : Z) : string := pad2 (n / 100) +:+ pad2 (n mod 100).

(** The fraction without trailing zeros: [k] digits are left, [r] of them
    still to be printed. *)
Fixpoint frac_digits (k : nat) (r : Z) : string :=
  match k with
  | O => ""
  | S k' =>
      if Z.eqb r 0 then ""
      else String (digit_char (r / 10 ^ Z.of_nat k')) (frac_digits k' (r mod 10 ^ Z.of_nat k'))
  end.

Definition format_year (y : Z) : string :=
  if Z.leb 0 y && Z.leb y 9999 then pad4 y else pretty y.

(** The date and time of day with the given text for the fraction. *)
Definition format_with (frac : string) (t : Z) : string :=
  let '(y, m, d) := civil_of_days (days_of t) in
  let s := sec_of_day t in
  format_year y +:+ "-" +:+ pad2 m +:+ "-" +:+ pad2 d +:+ "T" +:+
  pad2 (s / 3600) +:+ ":" +:+ pad2 (s mod 3600 / 60) +:+ ":" +:+ pad2 (s mod 60) +:+
  frac +:+ "Z".

(** [t.UTC().Format(time.RFC3339Nano)]. *)
Definition format_rfc3339 (t : Z) : string :=
  format_with (if Z.eqb (nanos_of t) 0 then "" else "." +:+ frac_digits 9 (nanos_of t)) t.

(** ** Parsing *)

Definition parse_lit (c : ascii) (s : string) : option string :=
  match s with
  | String a s' => if decide (a = c) then Some s' else None
  | EmptyString => None
  end.

(** [getnum(s, fixed)]: one or two digits; exactly two when [fixed]. *)
Definition getnum (fixed : bool) (s : string) : option (Z * string) :=
  match s with
  | String a s1 =>
      match digit_val a with
      | None => None
      | Some x =>
          match s1 with
          | String b s2 =>
              match digit_val b with
              | Some y => Some (10 * x + y, s2)
              | None => if fixed then None else Some (x, s1)
              end
          | EmptyString => if fixed then None else Some (x, s1)
          end
      end
  | EmptyString => None
  end.

(** Every digit is consumed; the first nine count. *)
Fixpoint parse_frac (k : nat) (s : string) : Z * string :=
  match s with
  | String a s' =>
      match digit_val a with
      | Some d =>
          let '(v, rest) := parse_frac (Nat.pred k) s' in
          ((match k with O => 0 | S k' => d * 10 ^ Z.of_nat k' end) + v, rest)
      | None => (0, s)
      end
  | EmptyString => (0, s)
  end.

(** The optional fractional second; [strict] parsing refuses a comma. *)
Definition parse_fraction (strict : bool) (s : string) : Z * string :=
  match s with
  | String a (String b s2) =>
      if (bool_decide (a = "."%char) || (negb strict && bool_decide (a = ","%char)))
         && (match digit_val b with Some _ => true | None => false end)
      then parse_frac 9 (String b s2)
      else (0, s)
  | _ => (0, s)
  end.

(** The zone: [Z], or a signed [hh:mm] offset; in seconds east of UTC. *)
Definition parse_zone (strict : bool) (s : string) : option (Z * string) :=
  match s with
  | String a s1 =>
      if decide (a = "Z"%char) then Some (0, s1) else
      '(hh, s2) ← getnum true s1;
      s3 ← parse_lit ":" s2;
      '(mm, s4) ← getnum true s3;
      if Z.ltb (if strict then 23 else 24) hh || Z.ltb (if strict then 59 else 60) mm then None
      else if decide (a = "+"%char) then Some ((hh * 60 + mm) * 60, s4)
      else if decide (a = "-"%char) then Some (- ((hh * 60 + mm) * 60), s4)
      else None
  | EmptyString => None
  end.

(** [time.Parse(time.RFC3339Nano, s)]; with [strict], the additional checks
    [time.Time.UnmarshalJSON] makes. *)
Definition parse_rfc3339 (strict : bool) (s : string) : option Z :=
  '(y1, s) ← getnum true s;
  '(y2, s) ← getnum true s;
  s ← parse_lit "-" s;
  '(m, s) ← getnum true s;
  s ← parse_lit "-" s;
  '(d, s) ← getnum true s;
  s ← parse_lit "T" s;
  '(hh, s) ← getnum strict s;
  s ← parse_lit ":" s;
  '(mm, s) ← getnum true s;
  s ← parse_lit ":" s;
  '(ss, s) ← getnum true s;
  let '(ns, s) := parse_fraction strict s in
  '(off, s) ← parse_zone strict s;
  let y := 100 * y1 + y2 in
  if bool_decide (s = "") && Z.leb 1 m && Z.leb m 12 && Z.leb 1 d && Z.leb d (days_in y m)
     && Z.ltb hh 24 && Z.ltb mm 60 && Z.ltb ss 60
  then Some (make_time y m d hh mm ss ns - off * second)
  else None.

(** ** The calendar is a bijection *)

Ltac div_lia := Z.to_euclidean_division_equations; lia.

Lemma is_leap_spec y :
  is_leap y = true <-> y mod 4 = 0 /\ (y mod 100 <> 0 \/ y mod 400 = 0).
Proof.
  unfold is_leap. rewrite andb_true_iff orb_true_iff negb_true_iff.
  rewrite !Z.eqb_eq Z.eqb_neq. done.
Qed.

Lemma is_leap_false y :
  is_leap y = false <-> y mod 4 <> 0 \/ (y mod 100 = 0 /\ y mod 400 <> 0).
Proof.
  rewrite -not_true_iff_false is_leap_spec. lia.
Qed.

(** A year has 365 days, or 366 when it is a leap year. *)
Lemma days_before_year_succ y :
  days_before_year (y + 1) = days_before_year y + 365 + (if is_leap y then 1 else 0).
Proof.
  unfold days_before_year. destruct (is_leap y) eqn:E.
  - apply is_leap_spec in E. div_lia.
  - apply is_leap_false in E. div_lia.
Qed.

Lemma days_before_year_mono y y' : y < y' -> days_before_year (y + 1) <= days_before_year y'.
Proof. unfold days_before_year. intros. div_lia. Qed.

(** Case analysis on a month number. *)
Lemma month_cases m : 1 <= m <= 12 ->
  m = 1 \/ m = 2 \/ m = 3 \/ m = 4 \/ m = 5 \/ m = 6 \/ m = 7 \/ m = 8 \/ m = 9
  \/ m = 10 \/ m = 11 \/ m = 12.
Proof. lia. Qed.

Ltac by_month H :=
  apply month_cases in H;
  repeat match type of H with _ \/ _ => destruct H as [H|H] end; subst.

Lemma date_in_year y m d : valid_date y m d ->
  days_before_year y <= date_to_days y m d + 719162 < days_before_year (y + 1).
Proof.
  intros [Hm Hd]. rewrite days_before_year_succ.
  unfold date_to_days, leap_day. unfold days_in in Hd.
  by_month Hm; simpl in *; destruct (is_leap y); simpl in *; lia.
Qed.

Lemma date_to_days_inj y m d y' m' d' :
  valid_date y m d -> valid_date y' m' d' ->
  date_to_days y m d = date_to_days y' m' d' -> (y, m, d) = (y', m', d').
Proof.
  intros Hv Hv' E.
  pose proof (date_in_year _ _ _ Hv). pose proof (date_in_year _ _ _ Hv').
  assert (y = y') as <-.
  { destruct (Z.lt_trichotomy y y') as [L|[L|L]]; [|done|];
      apply days_before_year_mono in L; lia. }
  destruct Hv as [Hm Hd], Hv' as [Hm' Hd'].
  unfold date_to_days, leap_day in E. unfold days_in in Hd, Hd'.
  by_month Hm; by_month Hm'; simpl in *; destruct (is_leap y); simpl in *;
    solve [lia | f_equal; lia].
Qed.

(** The year of an era and the day of that (March-based) year. *)
Definition yoe_of (doe : Z) : Z := (doe - doe / 1460 + doe / 36524 - doe / 146096) / 365.
Definition doy_of (doe : Z) : Z := doe - (365 * yoe_of doe + yoe_of doe / 4 - yoe_of doe / 100).

Lemma yoe_of_bounds doe : 0 <= doe < 146097 ->
  0 <= yoe_of doe < 400 /\ 0 <= doy_of doe <= 365.
Proof. unfold doy_of, yoe_of. intros. div_lia. Qed.

(** Day 365 of a March-based year is February 29 of the next year. *)
Lemma doy_of_leap doe : 0 <= doe < 146097 -> doy_of doe = 365 ->
  is_leap (yoe_of doe + 1) = true.
Proof.
  intros H E. apply is_leap_spec. revert E. unfold doy_of.
  assert (Hy : 365 * yoe_of doe <= doe - doe / 1460 + doe / 36524 - doe / 146096
               < 365 * yoe_of doe + 365).
  { unfold yoe_of. div_lia. }
  set (y := yoe_of doe) in *. clearbody y. intros. div_lia.
Qed.

Lemma is_leap_era y era : is_leap (y + 400 * era) = is_leap y.
Proof.
  unfold is_leap. replace (y + 400 * era) with (y + (era * 100) * 4) by lia.
  rewrite Z.mod_add; [lia|].
  replace (y + era * 100 * 4) with (y + (era * 4) * 100) by lia.
  rewrite Z.mod_add; [lia|].
  replace (y + era * 4 * 100) with (y + era * 400) by lia.
  rewrite Z.mod_add; [lia|]. done.
Qed.

Lemma days_before_year_era y era : 0 <= y < 400 ->
  days_before_year (y + 400 * era + 1) = era * 146097 + 365 * y + y / 4 - y / 100.
Proof. unfold days_before_year. intros. div_lia. Qed.

(** The date of a March-based day of the year, by month. *)
Lemma civil_month Y doy mp :
  0 <= doy <= 365 -> mp = (5 * doy + 2) / 153 -> (doy = 365 -> is_leap (Y + 1) = true) ->
  let d := doy - (153 * mp + 2) / 5 + 1 in
  let m := if Z.ltb mp 10 then mp + 3 else mp - 9 in
  let y := if Z.leb m 2 then Y + 1 else Y in
  valid_date y m d /\ date_to_days y m d = days_before_year (Y + 1) + doy - 306 - 719162.
Proof.
  intros Hd Hmp Hleap d m y.
  assert (0 <= mp <= 11) as Hr by (subst mp; div_lia).
  assert (153 * mp <= 5 * doy + 2 < 153 * mp + 153) as Hb by (subst mp; div_lia).
  clear Hmp. pose proof (days_before_year_succ Y) as HY.
  unfold valid_date, date_to_days, leap_day, days_in.
  assert (Hc : mp = 0 \/ mp = 1 \/ mp = 2 \/ mp = 3 \/ mp = 4 \/ mp = 5 \/ mp = 6
    \/ mp = 7 \/ mp = 8 \/ mp = 9 \/ mp = 10 \/ mp = 11) by lia.
  subst d m y.
  repeat (destruct Hc as [->|Hc]); try subst mp; simpl in *;
    destruct (is_leap Y), (is_leap (Y + 1)) eqn:EL; simpl in *;
    solve [div_lia
          | assert (doy <> 365) by (intros Hx; by specialize (Hleap Hx)); div_lia].
Qed.

(** [civil_of_days] returns the date with the given day number. *)
Lemma civil_of_days_spec n y m d : civil_of_days n = (y, m, d) ->
  valid_date y m d /\ date_to_days y m d = n.
Proof.
  unfold civil_of_days. set (z := n + 719468). set (era := z / 146097).
  set (doe := z - era * 146097).
  assert (Hdoe : 0 <= doe < 146097) by (unfold doe, era; div_lia).
  change ((doe - doe / 1460 + doe / 36524 - doe / 146096) / 365) with (yoe_of doe).
  change (doe - (365 * yoe_of doe + yoe_of doe / 4 - yoe_of doe / 100)) with (doy_of doe).
  destruct (yoe_of_bounds _ Hdoe) as [Hy Hd].
  intros [= <- <- <-].
  replace (yoe_of doe + era * 400) with (yoe_of doe + 400 * era) by lia.
  destruct (civil_month (yoe_of doe + 400 * era) (doy_of doe) ((5 * doy_of doe + 2) / 153))
    as [Hv He]; [done|done| |].
  { intros E. replace (yoe_of doe + 400 * era + 1) with (yoe_of doe + 1 + 400 * era) by lia.
    rewrite is_leap_era. by apply doy_of_leap. }
  split; [exact Hv|]. etrans; [exact He|].
  rewrite days_before_year_era; [done|]. unfold doy_of, doe, z. lia.
Qed.

Lemma civil_of_date y m d : valid_date y m d -> civil_of_days (date_to_days y m d) = (y, m, d).
Proof.
  intros Hv. destruct (civil_of_days _) as [[y' m'] d'] eqn:E.
  apply civil_of_days_spec in E as [Hv' E]. by apply date_to_days_inj.
Qed.

(** ** Round trips of the textual form *)

Lemma digit_val_char d : 0 <= d < 10 -> digit_val (digit_char d) = Some d.
Proof.
  intros H. assert (d = 0 \/ d = 1 \/ d = 2 \/ d = 3 \/ d = 4 \/ d = 5 \/ d = 6 \/ d = 7
    \/ d = 8 \/ d = 9) as Hd by lia.
  repeat (destruct Hd as [->|Hd]); try subst d; reflexivity.
Qed.

Lemma getnum_pad2 b n s : 0 <= n < 100 -> getnum b (pad2 n +:+ s) = Some (n, s).
Proof.
  intros H.
  change (pad2 n +:+ s) with (String (digit_char (n / 10)) (String (digit_char (n mod 10)) s)).
  simpl. rewrite !digit_val_char; [div_lia|div_lia|]. do 2 f_equal. div_lia.
Qed.

Lemma parse_lit_head c s : parse_lit c (String c "" +:+ s) = Some s.
Proof. change (String c "" +:+ s) with (String c s). simpl. by rewrite decide_True. Qed.

Lemma frac_digits_cons k r s : r <> 0 ->
  frac_digits (S k) r +:+ s =
  String (digit_char (r / 10 ^ Z.of_nat k)) (frac_digits k (r mod 10 ^ Z.of_nat k) +:+ s).
Proof. intros H. simpl. by destruct (Z.eqb_spec r 0). Qed.

(** The leading digit of a fraction with [k+1] digits. *)
Lemma lead_digit k r : 0 <= r < 10 ^ Z.of_nat (S k) -> 0 <= r / 10 ^ Z.of_nat k < 10.
Proof.
  rewrite Nat2Z.inj_succ Z.pow_succ_r; [lia|]. intros H.
  pose proof (Z.pow_pos_nonneg 10 (Z.of_nat k)).
  split; [apply Z.div_pos; lia | apply Z.div_lt_upper_bound; lia].
Qed.

Lemma parse_frac_digits k r a s : digit_val a = None -> 0 <= r < 10 ^ Z.of_nat k ->
  parse_frac k (frac_digits k r +:+ String a s) = (r, String a s).
Proof.
  intros Ha. revert r. induction k as [|k IH]; intros r Hr.
  - simpl in *. rewrite Ha. f_equal. lia.
  - destruct (decide (r = 0)) as [->|Hn].
    { change (frac_digits (S k) 0 +:+ String a s) with (String a s). simpl. by rewrite Ha. }
    rewrite (frac_digits_cons _ _ _ Hn). cbn [parse_frac Nat.pred].
    rewrite (digit_val_char _ (lead_digit _ _ Hr)).
    pose proof (Z.pow_pos_nonneg 10 (Z.of_nat k)).
    rewrite IH; [apply Z.mod_pos_bound; lia|]. f_equal.
    rewrite {3}(Z.div_mod r (10 ^ Z.of_nat k)); lia.
Qed.

Definition year_of (t : Z) : Z := (civil_of_days (days_of t)).1.1.

Lemma parse_fraction_format strict ns :
  0 <= ns < second ->
  parse_fraction strict ((if Z.eqb ns 0 then "" else "." +:+ frac_digits 9 ns) +:+ "Z")
  = (ns, "Z").
Proof.
  intros H. destruct (Z.eqb_spec ns 0) as [->|Hn]; [by destruct strict|].
  rewrite -append_assoc (frac_digits_cons 8 ns "Z" Hn).
  set (c := digit_char _). set (r := frac_digits 8 _ +:+ "Z").
  change ("." +:+ String c r) with (String "." (String c r)). cbn [parse_fraction].
  unfold c at 1. rewrite (digit_val_char _ (lead_digit 8 ns H)).
  rewrite bool_decide_true; [done|]. cbn [orb andb]. unfold c, r.
  rewrite -(frac_digits_cons 8 ns "Z" Hn). by apply parse_frac_digits.
Qed.

Lemma make_time_fields t y m d :
  date_to_days y m d = days_of t ->
  let s := sec_of_day t in
  make_time y m d (s / 3600) (s mod 3600 / 60) (s mod 60) (nanos_of t) = t.
Proof.
  intros E. cbv zeta. unfold make_time. rewrite E. unfold sec_of_day, days_of, nanos_of.
  remember (unix_seconds t mod 86400) as s eqn:Hs.
  assert (unix_seconds t / 86400 * 86400 + s / 3600 * 3600 + s mod 3600 / 60 * 60 + s mod 60
          = unix_seconds t) as ->.
  { subst s. set (u := unix_seconds t). clearbody u. clear. div_lia. }
  unfold unix_seconds, second. div_lia.
Qed.

(** Parsing a formatted instant returns it, for every four-digit year. *)
Lemma parse_format_with strict frac t :
  0 <= year_of t <= 9999 -> parse_fraction strict (frac +:+ "Z") = (nanos_of t, "Z") ->
  parse_rfc3339 strict (format_with frac t) = Some t.
Proof.
  unfold year_of, format_with. intros Hy Hfrac.
  destruct (civil_of_days (days_of t)) as [[y m] d] eqn:E. simpl in Hy.
  apply civil_of_days_spec in E as [[Hm Hd] E].
  assert (Hs : 0 <= sec_of_day t < 86400) by (apply Z.mod_pos_bound; done).
  pose proof (make_time_fields t y m d E) as Hmk.
  cbv zeta in Hmk. remember (sec_of_day t) as s eqn:Hst. clear Hst.
  remember (nanos_of t) as ns eqn:Hnt. clear Hnt.
  assert (Hd31 : d <= 31) by (unfold days_in in Hd; by_month Hm; destruct (is_leap y); lia).
  assert (Hh : 0 <= s / 3600 < 24) by div_lia.
  assert (Hmi : 0 <= s mod 3600 / 60 < 60) by div_lia.
  assert (Hse : 0 <= s mod 60 < 60) by div_lia.
  assert (Hy100 : 100 * (y / 100) + y mod 100 = y) by div_lia.
  unfold format_year. destruct (Z.leb_spec 0 y); [|lia]. destruct (Z.leb_spec y 9999); [|lia].
  unfold pad4. simpl andb. cbv iota. rewrite -!append_assoc.
  unfold parse_rfc3339.
  do 2 (rewrite getnum_pad2; [div_lia|]; cbn [mbind option_bind]).
  do 5 (rewrite parse_lit_head; cbn [mbind option_bind]; rewrite getnum_pad2; [lia|];
        cbn [mbind option_bind]).
  rewrite Hfrac. simpl. rewrite Hy100 Hmk.
  repeat match goal with |- context [Z.leb ?a ?b] => destruct (Z.leb_spec a b); [|lia] end.
  repeat match goal with |- context [Z.ltb ?a ?b] => destruct (Z.ltb_spec a b); [|lia] end.
  simpl. f_equal. lia.
Qed.

Lemma parse_format_rfc3339 strict t :
  0 <= year_of t <= 9999 -> parse_rfc3339 strict (format_rfc3339 t) = Some t.
Proof.
  intros Hy. unfold format_rfc3339. rewrite parse_format_with; [done| |done].
  apply parse_fraction_format, Z.mod_pos_bound. done.
Qed.
