(* ===== verification/GoNet.v ===== *)
(** * GoNet: addresses of package [net/netip]

    [Addr] with its predicates, [ParseAddr], [AddrFromSlice], prefixes and
    [net.SplitHostPort].  An address is a number of 32 or of 128 bits; what an
    error says is left out. *)
From Stdlib Require Import Ascii.
From S2P Require Import Prelude GoStrings GoBytes.
Open Scope Z_scope.

(** The zero value, an IPv4 address, an IPv6 address with its zone. *)
Inductive Addr :=
  | AddrZero
  | Addr4 (n : Z)
  | Addr6 (n : Z) (zone : string).
#[global] Instance Addr_eq_dec : EqDecision Addr.
Proof. solve_decision. Defined.

(** The bits of [n] from bit [k] on. *)
Definition top (n k : Z) : Z := Z.shiftr n k.

Definition Is4In6 (ip : Addr) : bool :=
  match ip with Addr6 n _ => Z.eqb (top n 32) 65535 | _ => false end.

(** [Unmap]: an IPv4-mapped address becomes the IPv4 address; its zone goes. *)
Definition Unmap (ip : Addr) : Addr :=
  match ip with
  | Addr6 n _ => if Is4In6 ip then Addr4 (Z.land n (Z.ones 32)) else ip
  | _ => ip
  end.

Definition IsLoopback (ip : Addr) : bool :=
  match Unmap ip with
  | AddrZero => false
  | Addr4 n => Z.eqb (top n 24) 127
  | Addr6 n _ => Z.eqb n 1
  end.

Definition IsMulticast (ip : Addr) : bool :=
  match Unmap ip with
  | AddrZero => false
  | Addr4 n => Z.eqb (Z.land (top n 24) 240) 224
  | Addr6 n _ => Z.eqb (top n 120) 255
  end.

Definition IsLinkLocalUnicast (ip : Addr) : bool :=
  match Unmap ip with
  | AddrZero => false
  | Addr4 n => Z.eqb (top n 24) 169 && Z.eqb (Z.land (top n 16) 255) 254
  | Addr6 n _ => Z.eqb (Z.land (top n 112) 65472) 65152
  end.

Definition IsLinkLocalMulticast (ip : Addr) : bool :=
  match Unmap ip with
  | AddrZero => false
  | Addr4 n => Z.eqb (top n 24) 224 && Z.eqb (Z.land (top n 16) 255) 0
               && Z.eqb (Z.land (top n 8) 255) 0
  | Addr6 n _ => Z.eqb (Z.land (top n 112) 65295) 65282
  end.

Definition IsPrivate (ip : Addr) : bool :=
  match Unmap ip with
  | AddrZero => false
  | Addr4 n =>
      Z.eqb (top n 24) 10
      || (Z.eqb (top n 24) 172 && Z.eqb (Z.land (top n 16) 240) 16)
      || (Z.eqb (top n 24) 192 && Z.eqb (Z.land (top n 16) 255) 168)
  | Addr6 n _ => Z.eqb (Z.land (top n 120) 254) 252
  end.

Definition IPv6Unspecified : Addr := Addr6 0 "".
Definition IsUnspecified (ip : Addr) : bool :=
  bool_decide (ip = Addr4 0) || bool_decide (ip = IPv6Unspecified).

Definition IsGlobalUnicast (ip : Addr) : bool :=
  match Unmap ip with
  | AddrZero => false
  | ip =>
      negb (bool_decide (ip = Addr4 0)) && negb (bool_decide (ip = Addr4 (Z.ones 32)))
      && negb (bool_decide (ip = IPv6Unspecified)) && negb (IsLoopback ip)
      && negb (IsMulticast ip) && negb (IsLinkLocalUnicast ip)
  end.

(** A prefix: the address and how many of its bits count. *)
Record Prefix := mkPrefix { pf_addr : Addr; pf_bits : Z }.

(** [Prefix.Contains]: no address with a zone, none of the other family. *)
Definition PrefixContains (p : Prefix) (ip : Addr) : bool :=
  match pf_addr p, ip with
  | Addr4 m, Addr4 n => Z.eqb (top (Z.lxor n m) (32 - pf_bits p)) 0
  | Addr6 m _, Addr6 n "" => Z.eqb (top (Z.lxor n m) (128 - pf_bits p)) 0
  | _, _ => false
  end.

(** Big-endian bytes. *)
Definition from_bytes (b : bytes) : Z := fold_left (fun n c => n * 256 + byte_val c) b 0.

Definition AddrFromSlice (b : bytes) : option Addr :=
  if bool_decide (length b = 4%nat) then Some (Addr4 (from_bytes b))
  else if bool_decide (length b = 16%nat) then Some (Addr6 (from_bytes b) "")
  else None.

(** ** Parsing *)

Definition digit (c : ascii) : option Z :=
  let v := byte_val c - 48 in if Z.leb 0 v && Z.leb v 9 then Some v else None.

(** [parseIPv4Fields]; [after_dot] holds at the start and after a dot. *)
Fixpoint parse_fields (after_dot : bool) (val dig : Z) (fields : list Z) (s : bytes) :
    option (list Z) :=
  match s with
  | [] => if Nat.ltb (length fields) 3 then None else Some (fields ++ [val])
  | c :: rest =>
      match digit c with
      | Some d =>
          if Z.eqb dig 1 && Z.eqb val 0 then None else
          let val' := val * 10 + d in
          if Z.ltb 255 val' then None else parse_fields false val' (dig + 1) fields rest
      | None =>
          if bool_decide (c = ".")%char then
            if after_dot || bool_decide (rest = []) || Nat.eqb (length fields) 3 then None
            else parse_fields true 0 0 (fields ++ [val]) rest
          else None
      end
  end.

Definition parseIPv4 (s : bytes) : option Addr :=
  fields ← parse_fields true 0 0 [] s;
  Some (Addr4 (fold_left (fun n f => n * 256 + f) fields 0)).

Definition hex_digit (c : ascii) : option Z :=
  let v := byte_val c in
  if Z.leb 48 v && Z.leb v 57 then Some (v - 48)
  else if Z.leb 97 v && Z.leb v 102 then Some (v - 97 + 10)
  else if Z.leb 65 v && Z.leb v 70 then Some (v - 65 + 10)
  else None.

(** The digits of one group: their value, their number and the rest. *)
Fixpoint hex_run (off : nat) (acc : Z) (s : bytes) : option (Z * nat * bytes) :=
  match s with
  | [] => Some (acc, off, [])
  | c :: rest =>
      match hex_digit c with
      | None => Some (acc, off, s)
      | Some d =>
          let acc' := acc * 16 + d in
          if Nat.ltb 3 off || Z.ltb 65535 acc' then None else hex_run (S off) acc' rest
      end
  end.

(** The end of [parseIPv6]: the ellipsis stands for the groups that miss. *)
Definition expand (groups : list Z) (ellipsis : option nat) (s : bytes) : option (list Z) :=
  match s with
  | _ :: _ => None
  | [] =>
      let n := (8 - length groups)%nat in
      match ellipsis with
      | Some e => if Nat.eqb n 0 then None
                  else Some (take e groups ++ replicate n 0 ++ drop e groups)
      | None => if Nat.eqb n 0 then Some groups else None
      end
  end.

(** The loop of [parseIPv6], with room for [n] groups. *)
Fixpoint parse_groups (n : nat) (groups : list Z) (ellipsis : option nat) (s : bytes) :
    option (list Z) :=
  match n with
  | O => expand groups ellipsis s
  | S n =>
      match hex_run 0 0 s with
      | None | Some (_, O, _) => None
      | Some (acc, S _, rest) =>
          let next := groups ++ [acc] in
          match rest with
          | [] => expand next ellipsis []
          | ("." :: _)%char =>
              if bool_decide (ellipsis = None) && negb (Nat.eqb (length groups) 6) then None else
              if Nat.ltb 6 (length groups) then None else
              match parse_fields true 0 0 [] s with
              | Some [a; b; c; d] => expand (groups ++ [a * 256 + b; c * 256 + d]) ellipsis []
              | _ => None
              end
          | (":" :: rest)%char =>
              match rest with
              | [] => None
              | (":" :: rest)%char =>
                  match ellipsis, rest with
                  | Some _, _ => None
                  | None, [] => expand next (Some (length next)) []
                  | None, _ => parse_groups n next (Some (length next)) rest
                  end
              | _ => parse_groups n next ellipsis rest
              end
          | _ => None
          end
      end
  end.

Definition from_groups (groups : list Z) : Z := fold_left (fun n g => n * 65536 + g) groups 0.

Definition parseIPv6 (s : bytes) : option Addr :=
  '(s, zone) ← match index_byte s "%"%char with
               | None => Some (s, "")
               | Some i => if bool_decide (drop (S i) s = []) then None
                           else Some (take i s, str (drop (S i) s))
               end;
  if has_prefix s [":"; ":"]%char then
    if bool_decide (drop 2 s = []) then Some (Addr6 0 zone)
    else groups ← parse_groups 8 [] (Some O) (drop 2 s); Some (Addr6 (from_groups groups) zone)
  else groups ← parse_groups 8 [] None s; Some (Addr6 (from_groups groups) zone).

Fixpoint parse_kind (s whole : bytes) : option Addr :=
  match s with
  | [] => None
  | c :: rest =>
      if bool_decide (c = ".")%char then parseIPv4 whole
      else if bool_decide (c = ":")%char then parseIPv6 whole
      else if bool_decide (c = "%")%char then None
      else parse_kind rest whole
  end.

Definition ParseAddr (s : string) : option Addr := parse_kind (lit s) (lit s).

(** [net.SplitHostPort]. *)
Definition SplitHostPort (hostport : string) : option (string * string) :=
  let s := lit hostport in
  match last_index s [":"]%char, s with
  | None, _ => None
  | Some i, ("[" :: _)%char =>
      match index_byte s "]"%char with
      | None => None
      | Some e =>
          if Nat.eqb (S e) i && bool_decide (index_byte (drop 1 s) "["%char = None)
             && bool_decide (index_byte (drop (S e) s) "]"%char = None)
          then Some (str (take (e - 1) (drop 1 s)), str (drop (S i) s)) else None
      end
  | Some i, _ =>
      let host := take i s in
      if bool_decide (index_byte host ":"%char = None) && bool_decide (index_byte s "["%char = None)
         && bool_decide (index_byte s "]"%char = None)
      then Some (str host, str (drop (S i) s)) else None
  end.

(** Addresses in their range. *)
Definition addr_ok (ip : Addr) : bool :=
  match ip with
  | AddrZero => true
  | Addr4 n => Z.leb 0 n && Z.ltb n (2 ^ 32)
  | Addr6 n _ => Z.leb 0 n && Z.ltb n (2 ^ 128)
  end.

Example parse_private : ParseAddr "10.1.2.3" = Some (Addr4 167838211).
Proof. reflexivity. Qed.
Example parse_mapped : Unmap <$> ParseAddr "::ffff:127.0.0.1" = Some (Addr4 2130706433).
Proof. reflexivity. Qed.
Example parse_zoned : ParseAddr "fe80::1%eth0" = Some (Addr6 (65152 * 2 ^ 112 + 1) "eth0").
Proof. reflexivity. Qed.
Example parse_rejects :
  ParseAddr <$> ["1.2.3"; "1.2.3.04"; "1.2.3.256"; "1:2"; "::1::"; "1:2:3:4:5:6:7:8:9"; "12345::";
                 "::%"; "host"; "1.2.3.4%x"; ":1:2:3:4:5:6:7"]
  = replicate 11 None.
Proof. reflexivity. Qed.
Example split_examples : SplitHostPort <$> ["a:80"; "[::1]:443"; "::1:80"; "[::1]"; "a"]
  = [Some ("a", "80"); Some ("::1", "443"); None; None; None].
Proof. reflexivity. Qed.
