(* ===== verification/GoUrl.v ===== *)
(** * GoUrl: URLs and slash-separated paths

    Package [net/url] ([Parse], [String], [EscapedPath], [Hostname], [Port])
    and [path.Clean], on the bytes of a Go string.  A [url.URL] is its
    record; a parsing error is [None]. *)
From Stdlib Require Import Ascii.
From S2P Require Import Prelude GoStrings GoBytes GoNet.
Open Scope Z_scope.

(** ** Percent encoding *)

(** The encodings that differ between the parts of a URL. *)
Inductive encoding := encodePath | encodeUserPassword | encodeHost | encodeZone | encodeFragment.

#[global] Instance encoding_eq_dec : EqDecision encoding.
Proof. solve_decision. Defined.

Definition in_bytes (lo hi : Z) (c : ascii) : bool := Z.leb lo (byte_val c) && Z.leb (byte_val c) hi.
Definition letter (c : ascii) : bool := in_bytes 97 122 c || in_bytes 65 90 c.
Definition digit_byte (c : ascii) : bool := in_bytes 48 57 c.
Definition DQUOTE : ascii := "034".
Definition SQUOTE : ascii := "039".

Definition shouldEscape (c : ascii) (mode : encoding) : bool :=
  if letter c || digit_byte c then false else
  if bool_decide (mode ∈ [encodeHost; encodeZone])
     && bool_decide (c ∈ ["!"; "$"; "&"; SQUOTE; "("; ")"; "*"; "+"; ","; ";"; "="; ":"; "["; "]";
                          "<"; ">"; DQUOTE]%char)
  then false else
  if bool_decide (c ∈ ["-"; "_"; "."; "~"]%char) then false else
  if bool_decide (c ∈ ["$"; "&"; "+"; ","; "/"; ":"; ";"; "="; "?"; "@"]%char)
     && bool_decide (mode ∈ [encodePath; encodeUserPassword; encodeFragment])
  then match mode with
       | encodePath => bool_decide (c = "?"%char)
       | encodeUserPassword => bool_decide (c ∈ ["@"; "/"; "?"; ":"]%char)
       | _ => false
       end
  else
  negb (bool_decide (mode = encodeFragment) && bool_decide (c ∈ ["!"; "("; ")"; "*"]%char)).

(** What [unescape] makes of [%ab]. *)
Definition escape_value (mode : encoding) (a b : ascii) : option ascii :=
  match hex_digit a, hex_digit b with
  | Some x, Some y =>
      let v := byte_of (16 * x + y) in
      let percent := bool_decide (a = "2"%char) && bool_decide (b = "5"%char) in
      if bool_decide (mode = encodeHost) && Z.ltb x 8 && negb percent then None
      else if bool_decide (mode = encodeZone) && negb percent
              && negb (bool_decide (v = " "%char)) && shouldEscape v encodeHost then None
      else Some v
  | _, _ => None
  end.

Fixpoint unescape (mode : encoding) (s : bytes) : option bytes :=
  match s with
  | [] => Some []
  | "%"%char :: rest =>
      match rest with
      | a :: b :: rest => c ← escape_value mode a b; t ← unescape mode rest; Some (c :: t)
      | _ => None
      end
  | c :: rest =>
      if bool_decide (mode ∈ [encodeHost; encodeZone]) && Z.ltb (byte_val c) 128
         && shouldEscape c mode then None
      else t ← unescape mode rest; Some (c :: t)
  end.

Definition upper_hex (n : Z) : ascii := byte_of (if Z.ltb n 10 then 48 + n else 55 + n).

Definition escape_url_byte (mode : encoding) (c : ascii) : bytes :=
  if shouldEscape c mode
  then ["%"%char; upper_hex (byte_val c / 16); upper_hex (byte_val c mod 16)] else [c].
Definition escape_url (mode : encoding) (s : bytes) : bytes := s ≫= escape_url_byte mode.

(** [validEncoded]. *)
Definition validEncoded (mode : encoding) (s : bytes) : bool :=
  forallb (fun c =>
    bool_decide (c ∈ ["!"; "$"; "&"; SQUOTE; "("; ")"; "*"; "+"; ","; ";"; "="; ":"; "@"; "["; "]";
                      "%"]%char)
    || negb (shouldEscape c mode)) s.

(** ** URLs *)

(** [Userinfo]: the name, and the password when there is one. *)
Record Userinfo := mkUserinfo { ui_username : bytes; ui_password : option bytes }.

Record URL := mkURL {
  u_scheme : bytes;
  u_opaque : bytes;
  u_user : option Userinfo;
  u_host : bytes;
  u_path : bytes;
  u_raw_path : bytes;
  u_omit_host : bool;
  u_force_query : bool;
  u_raw_query : bytes;
  u_fragment : bytes;
  u_raw_fragment : bytes;
}.

(** [strings.Cut] at a byte. *)
Definition cut (c : ascii) (s : bytes) : bytes * bytes :=
  match index_byte s c with Some i => (take i s, drop (S i) s) | None => (s, []) end.

(** [getScheme]: the scheme and the rest; [n] bytes have been read. *)
Fixpoint scheme_from (n : nat) (raw s : bytes) : option (bytes * bytes) :=
  match s with
  | [] => Some ([], raw)
  | c :: rest =>
      if letter c then scheme_from (S n) raw rest
      else if digit_byte c || bool_decide (c ∈ ["+"; "-"; "."]%char) then
        if Nat.eqb n 0 then Some ([], raw) else scheme_from (S n) raw rest
      else if bool_decide (c = ":"%char) then
        if Nat.eqb n 0 then None else Some (take n raw, rest)
      else Some ([], raw)
  end.
Definition getScheme (raw : bytes) : option (bytes * bytes) := scheme_from 0 raw raw.

Definition validOptionalPort (port : bytes) : bool :=
  match port with
  | [] => true
  | c :: rest => bool_decide (c = ":"%char) && forallb digit_byte rest
  end.

(** [parseHost] for a scheme that allows one host. *)
Definition parseHost (host : bytes) : option bytes :=
  match last_index host ["["%char] with
  | Some (S _) => None
  | Some O =>
      close ← last_index host ["]"%char];
      let port := drop (S close) host in
      if negb (validOptionalPort port) then None else
      colonPort ← unescape encodeHost port;
      let name := take (close - 1) (drop 1 host) in
      hostname ← match index name (lit "%25") with
                 | Some i => a ← unescape encodeHost (take i name);
                             z ← unescape encodeZone (drop i name); Some (a ++ z)
                 | None => unescape encodeHost name
                 end;
      match ParseAddr (str hostname) with
      | Some (Addr6 _ _) => Some (["["%char] ++ hostname ++ ["]"%char] ++ colonPort)
      | _ => None
      end
  | None =>
      match index_byte host ":"%char with
      | Some i => if validOptionalPort (drop i host) then unescape encodeHost host else None
      | None => unescape encodeHost host
      end
  end.

Definition validUserinfo (s : bytes) : bool :=
  forallb (fun c => letter c || digit_byte c
    || bool_decide (c ∈ ["-"; "."; "_"; ":"; "~"; "!"; "$"; "&"; SQUOTE; "("; ")"; "*"; "+"; ",";
                         ";"; "="; "%"; "@"]%char)) s.

Definition parseAuthority (authority : bytes) : option (option Userinfo * bytes) :=
  match last_index authority ["@"%char] with
  | None => host ← parseHost authority; Some (None, host)
  | Some i =>
      host ← parseHost (drop (S i) authority);
      let userinfo := take i authority in
      if negb (validUserinfo userinfo) then None else
      match index_byte userinfo ":"%char with
      | None => name ← unescape encodeUserPassword userinfo; Some (Some (mkUserinfo name None), host)
      | Some k =>
          name ← unescape encodeUserPassword (take k userinfo);
          password ← unescape encodeUserPassword (drop (S k) userinfo);
          Some (Some (mkUserinfo name (Some password)), host)
      end
  end.

(** [setPath] and [setFragment]: the decoded text, and the given one when it
    is not the default encoding. *)
Definition with_encoding (mode : encoding) (s : bytes) : option (bytes * bytes) :=
  text ← unescape mode s;
  Some (text, if bool_decide (s = escape_url mode text) then [] else s).

(** The control characters. *)
Definition ctl (c : ascii) : bool := Z.ltb (byte_val c) 32 || Z.eqb (byte_val c) 127.

(** The query: a trailing question mark alone is remembered. *)
Definition split_query (rest : bytes) : bytes * bool * bytes :=
  match index_byte rest "?"%char with
  | Some i => if Nat.eqb (S i) (length rest) then (take i rest, true, [])
              else (take i rest, false, drop (S i) rest)
  | None => (rest, false, [])
  end.

Definition rooted (p : bytes) : bool := has_prefix p ["/"%char].

(** The host and the path, [rest] being what follows the scheme and precedes
    the query. *)
Definition parse_rest (scheme : bytes) (force : bool) (query rest : bytes) : option URL :=
  if negb (rooted rest) && negb (bool_decide (scheme = [])) then
    Some (mkURL scheme rest None [] [] [] false force query [] [])
  else if negb (rooted rest) && bool_decide (":"%char ∈ fst (cut "/" rest)) then None
  else if (negb (bool_decide (scheme = [])) || negb (has_prefix rest (lit "///")))
          && has_prefix rest (lit "//") then
    let body := drop 2 rest in
    let split := default (length body) (index_byte body "/"%char) in
    '(user, host) ← parseAuthority (take split body);
    '(path, raw_path) ← with_encoding encodePath (drop split body);
    Some (mkURL scheme [] user host path raw_path false force query [] [])
  else
    '(path, raw_path) ← with_encoding encodePath rest;
    Some (mkURL scheme [] None [] path raw_path
            (negb (bool_decide (scheme = [])) && rooted rest) force query [] []).

Definition parse_url (raw : bytes) : option URL :=
  if existsb ctl raw then None
  else if bool_decide (raw = ["*"%char]) then
    Some (mkURL [] [] None [] raw [] false false [] [] [])
  else
    '(scheme, rest) ← getScheme raw;
    let '(rest, force, query) := split_query rest in
    parse_rest (map lower_byte scheme) force query rest.

Definition set_fragment (u : URL) (text raw : bytes) : URL :=
  mkURL (u_scheme u) (u_opaque u) (u_user u) (u_host u) (u_path u) (u_raw_path u) (u_omit_host u)
    (u_force_query u) (u_raw_query u) text raw.

(** [url.Parse]. *)
Definition Parse (raw : string) : option URL :=
  let '(front, frag) := cut "#" (lit raw) in
  u ← parse_url front;
  if bool_decide (frag = []) then Some u
  else '(text, raw_text) ← with_encoding encodeFragment frag; Some (set_fragment u text raw_text).

(** The encoding to print: the one that was given when it still fits. *)
Definition print_encoding (mode : encoding) (text raw : bytes) : bytes :=
  if negb (bool_decide (raw = [])) && validEncoded mode raw
     && bool_decide (unescape mode raw = Some text)
  then raw
  else if bool_decide (mode = encodePath) && bool_decide (text = ["*"%char]) then text
  else escape_url mode text.
Definition EscapedPath (u : URL) : bytes := print_encoding encodePath (u_path u) (u_raw_path u).
Definition EscapedFragment (u : URL) : bytes :=
  print_encoding encodeFragment (u_fragment u) (u_raw_fragment u).

Definition print_user (ui : Userinfo) : bytes :=
  escape_url encodeUserPassword (ui_username ui)
  ++ match ui_password ui with
     | Some p => ":"%char :: escape_url encodeUserPassword p
     | None => []
     end.

(** The part of [URL.String] before the path. *)
Definition print_authority (u : URL) : bytes :=
  if bool_decide (u_scheme u = []) && bool_decide (u_host u = []) && bool_decide (u_user u = None)
  then []
  else if u_omit_host u && bool_decide (u_host u = []) && bool_decide (u_user u = None) then []
  else (if bool_decide (u_host u = []) && bool_decide (u_path u = []) && bool_decide (u_user u = None)
        then [] else lit "//")
       ++ match u_user u with Some ui => print_user ui ++ ["@"%char] | None => [] end
       ++ escape_url encodeHost (u_host u).

(** [URL.String]. *)
Definition URL_String (u : URL) : bytes :=
  let scheme := if bool_decide (u_scheme u = []) then [] else u_scheme u ++ [":"%char] in
  let front := scheme ++ print_authority u in
  let path := EscapedPath u in
  (if negb (bool_decide (u_opaque u = [])) then scheme ++ u_opaque u
   else front
        ++ (if negb (bool_decide (path = [])) && negb (rooted path)
               && negb (bool_decide (u_host u = [])) then ["/"%char] else [])
        ++ (if bool_decide (front = []) && bool_decide (":"%char ∈ fst (cut "/" path))
            then lit "./" else [])
        ++ path)
  ++ (if u_force_query u || negb (bool_decide (u_raw_query u = []))
      then "?"%char :: u_raw_query u else [])
  ++ (if bool_decide (u_fragment u = []) then [] else "#"%char :: EscapedFragment u).

(** [splitHostPort]. *)
Definition split_host (hostport : bytes) : bytes * bytes :=
  let '(host, port) :=
    match last_index hostport [":"%char] with
    | Some i => if validOptionalPort (drop i hostport) then (take i hostport, drop (S i) hostport)
                else (hostport, [])
    | None => (hostport, [])
    end in
  (if has_prefix host ["["%char] && bool_decide (last host = Some "]"%char)
   then take (length host - 2) (drop 1 host) else host, port).
Definition Hostname (u : URL) : bytes := fst (split_host (u_host u)).
Definition Port (u : URL) : bytes := snd (split_host (u_host u)).

(** ** Paths *)

(** [strings.Split(s, "/")]. *)
Fixpoint segments (s : bytes) : list bytes :=
  match s with
  | [] => [[]]
  | c :: rest =>
      if bool_decide (c = "/"%char) then [] :: segments rest
      else match segments rest with
           | seg :: more => (c :: seg) :: more
           | [] => [[c]]
           end
  end.

Definition dot : bytes := ["."%char].
Definition dotdot : bytes := ["."; "."]%char.

(** The loop of [path.Clean]: the elements kept so far, the last one first. *)
Fixpoint clean_loop (root : bool) (out : list bytes) (segs : list bytes) : list bytes :=
  match segs with
  | [] => reverse out
  | seg :: rest =>
      if bool_decide (seg = []) || bool_decide (seg = dot) then clean_loop root out rest
      else if bool_decide (seg = dotdot) then
        match out with
        | top :: below =>
            if bool_decide (top = dotdot) then clean_loop root (seg :: out) rest
            else clean_loop root below rest
        | [] => clean_loop root (if root then [] else [seg]) rest
        end
      else clean_loop root (seg :: out) rest
  end.

Fixpoint join_path (segs : list bytes) : bytes :=
  match segs with
  | [] => []
  | [seg] => seg
  | seg :: rest => seg ++ "/"%char :: join_path rest
  end.

(** [path.Clean]. *)
Definition Clean (p : bytes) : bytes :=
  let out := (if rooted p then ["/"%char] else [])
             ++ join_path (clean_loop (rooted p) [] (segments p)) in
  if bool_decide (out = []) then dot else out.

(** ** Lemmas on paths *)

(** The elements of a path that are not empty. *)
Definition elements (p : bytes) : list bytes := filter (fun seg => seg <> []) (segments p).

Lemma segments_nonempty s : segments s <> [].
Proof. destruct s as [|c s]; [done|]. simpl. case_bool_decide; [done|]. by destruct (segments s). Qed.

Lemma segments_slash a b : segments (a ++ "/"%char :: b) = segments a ++ segments b.
Proof.
  induction a as [|c a IH]; simpl; [done|]. case_bool_decide; [by rewrite IH|].
  rewrite IH. pose proof (segments_nonempty a). by destruct (segments a).
Qed.

Lemma elements_slash a b : elements (a ++ "/"%char :: b) = elements a ++ elements b.
Proof. unfold elements. by rewrite segments_slash filter_app. Qed.

Lemma segments_whole seg : "/"%char ∉ seg -> segments seg = [seg].
Proof.
  induction seg as [|c seg IH]; [done|]. rewrite not_elem_of_cons. intros [Hc Hs]. simpl.
  rewrite bool_decide_eq_false_2; [congruence|]. by rewrite IH.
Qed.

Lemma segments_no_slash p seg : seg ∈ segments p -> "/"%char ∉ seg.
Proof.
  revert seg. induction p as [|c p IH]; intros seg; simpl.
  - intros ->%list_elem_of_singleton. by apply not_elem_of_nil.
  - case_bool_decide as Hc.
    + intros [->|H]%elem_of_cons; [apply not_elem_of_nil|by apply IH].
    + destruct (segments p) as [|s0 more]; simpl.
      * intros ->%list_elem_of_singleton. apply not_elem_of_cons. split; [congruence|apply not_elem_of_nil].
      * intros [->|H]%elem_of_cons; [|by apply IH, list_elem_of_further].
        apply not_elem_of_cons. split; [congruence|]. apply IH, list_elem_of_here.
Qed.

(** A plain element names a place below the current one. *)
Definition plain (seg : bytes) : Prop := seg <> [] /\ seg <> dot /\ seg <> dotdot /\ "/"%char ∉ seg.

Lemma elements_join segs : Forall plain segs -> elements (join_path segs) = segs.
Proof.
  induction 1 as [|seg segs (Hne & _ & _ & Hs) Hall IH]; [done|].
  assert (Hseg : elements seg = [seg]).
  { unfold elements. rewrite segments_whole //. by rewrite filter_cons_True. }
  destruct segs as [|s0 more]; simpl in *; [done|]. by rewrite elements_slash Hseg IH.
Qed.

(** A rooted path loses every dot element. *)
Lemma clean_loop_plain out segs : Forall plain out -> Forall (fun s => "/"%char ∉ s) segs ->
  Forall plain (clean_loop true out segs).
Proof.
  revert out. induction segs as [|seg segs IH]; intros out Hout Hs; simpl.
  { by apply Forall_reverse. }
  apply Forall_cons in Hs as [H1 Hs].
  destruct (bool_decide (seg = []) || bool_decide (seg = dot)) eqn:E; [by apply IH|].
  apply orb_false_iff in E as [E1%bool_decide_eq_false E2%bool_decide_eq_false].
  case_bool_decide as E3.
  - destruct out as [|top below]; [by apply IH|]. apply Forall_cons in Hout as [(_ & _ & Ht & _) Hb].
    rewrite bool_decide_eq_false_2 //. by apply IH.
  - apply IH; [|done]. constructor; [by split_and!|done].
Qed.

Lemma Clean_rooted p : rooted p = true ->
  exists segs, Clean p = "/"%char :: join_path segs /\ Forall plain segs.
Proof.
  intros Hr. exists (clean_loop true [] (segments p)). unfold Clean. rewrite Hr. split; [done|].
  apply clean_loop_plain; [constructor|]. apply Forall_forall. intros s. apply segments_no_slash.
Qed.

Lemma TrimSuffix_slash p : TrimSuffix (str p) "/" = str p \/
  exists q, p = q ++ ["/"%char] /\ TrimSuffix (str p) "/" = str q.
Proof.
  unfold TrimSuffix. destruct (HasSuffix (str p) "/") eqn:E; [right|by left].
  apply HasSuffix_spec in E as [t Ht].
  exists (lit t). split; [by rewrite -(lit_str p) Ht lit_append|].
  rewrite str_lit Ht length_append Nat.add_sub. clear. induction t as [|c t IH]; [done|].
  rewrite /String.append /=. by f_equal.
Qed.

(** A path that is its own canonical form, but for a slash at the end, has
    plain elements only. *)
Lemma canonical_plain p : rooted p = true -> str (Clean p) = TrimSuffix (str p) "/" ->
  Forall plain (elements p).
Proof.
  intros Hr Hc. destruct (Clean_rooted p Hr) as (segs & Hp & Hall). rewrite Hp in Hc.
  assert (He : elements ("/"%char :: join_path segs) = segs).
  { rewrite (elements_slash [] (join_path segs)). by rewrite elements_join. }
  destruct (TrimSuffix_slash p) as [E|(q & -> & E)]; rewrite E in Hc; apply str_inj in Hc.
  - by rewrite -Hc He.
  - by rewrite elements_slash -Hc He app_nil_r.
Qed.

(** ** The path of a URL with a host *)

Lemma unescape_rooted p q : unescape encodePath p = Some q -> p = [] \/ rooted p = true ->
  q = [] \/ rooted q = true.
Proof.
  intros H [->|Hr]; [by left; injection H as <-|].
  destruct p as [|c p]; [done|]. unfold rooted in *. simpl in Hr.
  rewrite andb_true_r in Hr. apply bool_decide_eq_true in Hr as ->.
  cbn -[shouldEscape] in H. destruct (unescape encodePath p); simpl in H; [|done].
  injection H as <-. by right.
Qed.

Lemma index_byte_Some s c i : index_byte s c = Some i -> s !! i = Some c.
Proof.
  unfold index_byte. intros (pre & post & -> & <-)%index_Some. by rewrite lookup_app_r ?Nat.sub_diag.
Qed.

Lemma drop_index s c : drop (default (length s) (index_byte s c)) s = []
  \/ has_prefix (drop (default (length s) (index_byte s c)) s) [c] = true.
Proof.
  destruct (index_byte s c) as [i|] eqn:E; simpl; [right|left; by rewrite drop_all].
  apply index_byte_Some in E. rewrite (drop_S _ _ _ E). simpl. by rewrite bool_decide_eq_true_2.
Qed.

Lemma Parse_path raw u : Parse raw = Some u -> u_host u <> [] ->
  u_path u = [] \/ rooted (u_path u) = true.
Proof.
  unfold Parse. destruct (cut "#" (lit raw)) as [front frag]. intros H Hh.
  apply bind_Some in H as (u0 & Hu0 & H).
  assert (Hsame : u_host u0 = u_host u /\ u_path u0 = u_path u).
  { case_bool_decide; [by injection H as ->|].
    apply bind_Some in H as ([t rt] & _ & H). by injection H as <-. }
  destruct Hsame as [Hh0 <-]. rewrite -Hh0 in Hh. clear H Hh0 u.
  unfold parse_url in Hu0. destruct (existsb ctl front); [done|].
  case_bool_decide; [by injection Hu0 as <-|].
  apply bind_Some in Hu0 as ([scheme rest] & _ & Hu0).
  destruct (split_query rest) as [[rest' force] query]. unfold parse_rest in Hu0.
  destruct (negb (rooted rest') && _); [by injection Hu0 as <-|].
  destruct (negb (rooted rest') && _); [done|].
  destruct ((_ || _) && has_prefix rest' (lit "//")).
  - apply bind_Some in Hu0 as ([user host] & _ & Hu0).
    apply bind_Some in Hu0 as ([path raw_path] & Hp & Hu0). injection Hu0 as <-. simpl.
    unfold with_encoding in Hp. apply bind_Some in Hp as (text & Ht & Hp). injection Hp as <- _.
    apply (unescape_rooted _ _ Ht). unfold rooted. apply drop_index.
  - apply bind_Some in Hu0 as ([path raw_path] & Hp & Hu0). by injection Hu0 as <-.
Qed.
