(* ===== verification/GoCsv.v ===== *)
(** * GoCsv: package [encoding/csv]

    What the sources use of it: a [Reader] with a one-byte [Comma] and a fixed
    number of fields, and a [Writer].  The reader works line by line, as the
    package does; on records without carriage returns it inverts the writer. *)
From Stdlib Require Import Ascii.
From S2P Require Import Prelude GoStrings GoBytes.
Open Scope Z_scope.

Definition QUOTE : ascii := "034".

(** ** Lines *)

(** The bytes up to and with the next line feed, and the rest. *)
Fixpoint cut_line (s : bytes) : bytes * bytes :=
  match s with
  | [] => ([], [])
  | c :: s' => if bool_decide (c = LF) then ([c], s')
               else let '(line, rest) := cut_line s' in (c :: line, rest)
  end.

(** A carriage return before the line feed is dropped, and one at the end of
    the text. *)
Definition normal_line (line : bytes) : bytes :=
  match reverse line with
  | c :: d :: t => if bool_decide (c = LF) && bool_decide (d = CR) then reverse (c :: t)
                   else if bool_decide (c = CR) then reverse (d :: t) else line
  | [c] => if bool_decide (c = CR) then [] else line
  | [] => line
  end.

(** [readLine]; [None] is the end of the text. *)
Definition readLine (s : bytes) : option (bytes * bytes) :=
  match s with
  | [] => None
  | _ => let '(line, rest) := cut_line s in Some (normal_line line, rest)
  end.

(** [len(line) == lengthNL(line)]. *)
Definition blank (line : bytes) : bool := bool_decide (line = []) || bool_decide (line = [LF]).

(** The line without its line feed. *)
Definition strip_nl (line : bytes) : bytes :=
  match reverse line with
  | c :: t => if bool_decide (c = LF) then reverse t else line
  | [] => line
  end.

(** ** Reading *)

(** At the start of a field, or inside a quoted one that has been read so far. *)
Inductive csv_mode := Start | Quoted (buf : bytes).

Section reader.
Context (comma : ascii).

(** The fields of a record, from a line and the rest of the text; [None] is a
    parse error.  Every step takes a byte of the line. *)
Fixpoint parse_record (fuel : nat) (mode : csv_mode) (line rest : bytes) (acc : list string) :
    option (list string * bytes) :=
  match fuel with
  | O => None
  | S fuel =>
      match mode with
      | Start =>
          match line with
          | c :: line' =>
              if bool_decide (c = QUOTE) then parse_record fuel (Quoted []) line' rest acc
              else
              match index_byte line comma with
              | Some i =>
                  let field := take i line in
                  if bool_decide (QUOTE ∈ field) then None
                  else parse_record fuel Start (drop (S i) line) rest (acc ++ [str field])
              | None =>
                  let field := strip_nl line in
                  if bool_decide (QUOTE ∈ field) then None else Some (acc ++ [str field], rest)
              end
          | [] => Some (acc ++ [""], rest)
          end
      | Quoted buf =>
          match index_byte line QUOTE with
          | Some i =>
              let buf := buf ++ take i line in
              match drop (S i) line with
              | c :: line' =>
                  if bool_decide (c = QUOTE) then parse_record fuel (Quoted (buf ++ [c])) line' rest acc
                  else if bool_decide (c = comma)
                  then parse_record fuel Start line' rest (acc ++ [str buf])
                  else if blank (c :: line') then Some (acc ++ [str buf], rest) else None
              | [] => Some (acc ++ [str buf], rest)
              end
          | None =>
              match line with
              | [] => None
              | _ =>
                  let '(next, rest') := default ([], []) (readLine rest) in
                  parse_record fuel (Quoted (buf ++ line)) next rest' acc
              end
          end
      end
  end.

Definition parse_fields (mode : csv_mode) (line rest : bytes) (acc : list string) :
    option (list string * bytes) :=
  parse_record (S (length line + length rest)) mode line rest acc.

(** The next line that is not blank. *)
Fixpoint next_line (fuel : nat) (s : bytes) : option (bytes * bytes) :=
  match fuel with
  | O => None
  | S fuel =>
      match readLine s with
      | None => None
      | Some (line, rest) => if blank line then next_line fuel rest else Some (line, rest)
      end
  end.

(** [Read]: the end of the text, an error, or a record and the rest. *)
Inductive csv_read := ReadEOF | ReadError | ReadRecord (fields : list string) (rest : bytes).

Definition Read (fieldsPerRecord : nat) (s : bytes) : csv_read :=
  match next_line (S (length s)) s with
  | None => ReadEOF
  | Some (line, rest) =>
      match parse_fields Start line rest [] with
      | None => ReadError
      | Some (fields, rest) =>
          if Nat.eqb (length fields) fieldsPerRecord then ReadRecord fields rest else ReadError
      end
  end.

(** ** Writing *)

(** The first rune is white space. *)
Definition starts_with_space (s : string) : bool := negb (trimmed space2 space3 s).

Definition special (c : ascii) : bool :=
  bool_decide (c = LF) || bool_decide (c = CR) || bool_decide (c = QUOTE) || bool_decide (c = comma).

Definition fieldNeedsQuotes (s : string) : bool :=
  if bool_decide (s = "") then false
  else if bool_decide (s = "\.") then true
  else existsb special (lit s) || starts_with_space s.

Definition double_quotes (s : bytes) : bytes :=
  s ≫= fun c => if bool_decide (c = QUOTE) then [c; c] else [c].

Definition write_field (s : string) : bytes :=
  if fieldNeedsQuotes s then QUOTE :: double_quotes (lit s) ++ [QUOTE] else lit s.

(** [Write]. *)
Fixpoint WriteRecord (record : list string) : bytes :=
  match record with
  | [] => [LF]
  | [f] => write_field f ++ [LF]
  | f :: rest => write_field f ++ comma :: WriteRecord rest
  end.
End reader.

(** ** The reader reads on *)

Lemma cut_line_app s : (cut_line s).1 ++ (cut_line s).2 = s.
Proof.
  induction s as [|c s IH]; [done|]. simpl. case_bool_decide; [done|].
  destruct (cut_line s) as [line rest]. simpl in *. by f_equal.
Qed.

Lemma cut_line_nonempty s : s <> [] -> (cut_line s).1 <> [].
Proof. destruct s as [|c s]; [done|]. intros _. simpl. case_bool_decide; [done|]. by destruct (cut_line s). Qed.

Lemma normal_line_le line : (length (normal_line line) <= length line)%nat.
Proof.
  unfold normal_line. rewrite -(length_reverse line).
  destruct (reverse line) as [|c [|d t]] eqn:E; simpl; [by rewrite -(length_reverse line) E|..];
    repeat case_bool_decide; simpl; rewrite ?length_reverse ?reverse_cons ?length_app ?length_reverse /=;
    rewrite -?(length_reverse line) ?E /=; lia.
Qed.

Lemma readLine_shorter s line rest : readLine s = Some (line, rest) ->
  (length line + length rest <= length s /\ length rest < length s)%nat.
Proof.
  unfold readLine. destruct s as [|c s']; [done|]. set (s := c :: s'). fold s.
  pose proof (cut_line_app s) as Happ. pose proof (cut_line_nonempty s ltac:(done)) as Hne.
  destruct (cut_line s) as [l r]. simpl in *. intros [= <- <-].
  pose proof (normal_line_le l). apply (f_equal length) in Happ. rewrite length_app in Happ.
  destruct l; [done|]. simpl in *. lia.
Qed.

Lemma index_byte_lt s c i : index_byte s c = Some i -> (i < length s)%nat.
Proof.
  unfold index_byte. intros (pre & post & -> & <-)%index_Some. rewrite !length_app /=. lia.
Qed.

Lemma index_byte_cons a s c : index_byte (a :: s) c
  = if bool_decide (a = c) then Some O else S <$> index_byte s c.
Proof. unfold index_byte. cbn [index has_prefix]. by rewrite andb_true_r. Qed.

Lemma index_byte_here s c t : c ∉ s -> index_byte (s ++ c :: t) c = Some (length s).
Proof.
  induction s as [|a s IH]; intros H; rewrite index_byte_cons.
  - by rewrite bool_decide_eq_true_2.
  - apply not_elem_of_cons in H as [Ha Hs]. rewrite bool_decide_eq_false_2; [congruence|].
    by rewrite IH.
Qed.

Lemma index_byte_none s c : c ∉ s -> index_byte s c = None.
Proof.
  induction s as [|a s IH]; intros H; [done|]. rewrite index_byte_cons.
  apply not_elem_of_cons in H as [Ha Hs]. rewrite bool_decide_eq_false_2; [congruence|]. by rewrite IH.
Qed.

Section reading.
Context (comma : ascii).

(** More fuel than bytes changes nothing. *)
Lemma parse_record_fuel fuel : forall fuel' mode line rest acc,
  (length line + length rest < fuel)%nat -> (length line + length rest < fuel')%nat ->
  parse_record comma fuel mode line rest acc = parse_record comma fuel' mode line rest acc.
Proof.
  induction fuel as [|fuel IH]; intros [|fuel'] mode line rest acc H H'; try lia.
  destruct mode as [|buf]; simpl.
  - destruct line as [|c line']; [done|]. simpl in H, H'. case_bool_decide; [apply IH; lia|].
    destruct (index_byte (c :: line') comma) as [i|] eqn:Ei; [|done]. case_bool_decide; [done|].
    apply index_byte_lt in Ei. simpl in Ei. apply IH; rewrite length_drop /=; lia.
  - destruct (index_byte line QUOTE) as [i|] eqn:Ei.
    + apply index_byte_lt in Ei. pose proof (length_drop line (S i)) as Hd.
      destruct (drop (S i) line) as [|c line']; [done|]. simpl in Hd.
      repeat case_bool_decide; try done; apply IH; lia.
    + destruct line as [|c line']; [done|]. simpl in H, H'.
      destruct (readLine rest) as [[next rest']|] eqn:Er; simpl.
      * apply readLine_shorter in Er. apply IH; lia.
      * apply IH; simpl; lia.
Qed.

Lemma parse_record_fields fuel mode line rest acc : (length line + length rest < fuel)%nat ->
  parse_record comma fuel mode line rest acc = parse_fields comma mode line rest acc.
Proof. intros H. apply parse_record_fuel; lia. Qed.

Lemma next_line_fuel fuel : forall fuel' s, (length s < fuel)%nat -> (length s < fuel')%nat ->
  next_line fuel s = next_line fuel' s.
Proof.
  induction fuel as [|fuel IH]; intros [|fuel'] s H H'; try lia. simpl.
  destruct (readLine s) as [[line rest]|] eqn:E; [|done]. destruct (blank line); [|done].
  apply readLine_shorter in E. apply IH; lia.
Qed.

(** A record takes at least a byte. *)
Lemma parse_record_rest fuel : forall mode line rest acc fields rest',
  parse_record comma fuel mode line rest acc = Some (fields, rest') -> (length rest' <= length rest)%nat.
Proof.
  induction fuel as [|fuel IH]; intros mode line rest acc fields rest' H; [done|].
  destruct mode as [|buf]; simpl in H.
  - destruct line as [|c line']; [by injection H as _ <-|]. case_bool_decide; [by apply IH in H|].
    destruct (index_byte _ _) as [i|]; case_bool_decide; try done; [by apply IH in H|].
    by injection H as _ <-.
  - destruct (index_byte line QUOTE) as [i|].
    + destruct (drop (S i) line) as [|c line']; [by injection H as _ <-|].
      case_bool_decide; [by apply IH in H|]. case_bool_decide; [by apply IH in H|].
      destruct (blank _); [|done]. by injection H as _ <-.
    + destruct line as [|c line']; [done|].
      destruct (readLine rest) as [[next rest1]|] eqn:Er; simpl in H; apply IH in H.
      * apply readLine_shorter in Er. lia.
      * simpl in H. lia.
Qed.

Lemma next_line_shorter fuel : forall s line rest, next_line fuel s = Some (line, rest) ->
  (length rest < length s)%nat.
Proof.
  induction fuel as [|fuel IH]; intros s line rest H; [done|]. simpl in H.
  destruct (readLine s) as [[l r]|] eqn:E; [|done]. apply readLine_shorter in E.
  destruct (blank l); [apply IH in H; lia|]. injection H as _ <-. lia.
Qed.

Lemma Read_shorter n s fields rest : Read comma n s = ReadRecord fields rest ->
  (length rest < length s)%nat /\ length fields = n.
Proof.
  unfold Read. destruct (next_line _ s) as [[line r]|] eqn:E; [|done].
  destruct (parse_fields _ _ _ _ _) as [[fs r']|] eqn:Ep; [|done].
  destruct (Nat.eqb_spec (length fs) n); [|done]. intros [= <- <-].
  apply next_line_shorter in E. apply parse_record_rest in Ep. split; [lia|done].
Qed.
End reading.

(** ** Reading inverts writing *)

Lemma normal_line_id line : CR ∉ line -> normal_line line = line.
Proof.
  intros H. unfold normal_line. assert (Hr : CR ∉ reverse line) by by rewrite elem_of_reverse.
  destruct (reverse line) as [|c [|d t]]; [done|..]; repeat case_bool_decide; try done; subst; simpl in *;
    set_solver.
Qed.

Lemma cut_line_cons c s : c <> LF -> cut_line (c :: s) = (c :: (cut_line s).1, (cut_line s).2).
Proof. intros H. simpl. rewrite bool_decide_eq_false_2 //. by destruct (cut_line s). Qed.

Lemma cut_line_prefix p s : LF ∉ p -> cut_line (p ++ s) = (p ++ (cut_line s).1, (cut_line s).2).
Proof.
  induction p as [|c p IH]; intros H; simpl; [by destruct (cut_line s)|].
  apply not_elem_of_cons in H as [Hc Hp]. rewrite bool_decide_eq_false_2; [congruence|]. by rewrite IH.
Qed.

Lemma drop_after {A} (f : list A) c l : drop (S (length f)) (f ++ c :: l) = l.
Proof. by induction f. Qed.

Section round_trip.
Context (comma : ascii) (Hcomma : comma <> QUOTE /\ comma <> LF /\ comma <> CR).

(** The steps of the reader, without fuel. *)
Lemma parse_fields_start line rest acc : parse_fields comma Start line rest acc =
  match line with
  | c :: line' =>
      if bool_decide (c = QUOTE) then parse_fields comma (Quoted []) line' rest acc
      else match index_byte line comma with
           | Some i => if bool_decide (QUOTE ∈ take i line) then None
                       else parse_fields comma Start (drop (S i) line) rest (acc ++ [str (take i line)])
           | None => if bool_decide (QUOTE ∈ strip_nl line) then None
                     else Some (acc ++ [str (strip_nl line)], rest)
           end
  | [] => Some (acc ++ [""], rest)
  end.
Proof.
  destruct line as [|c line]; [done|]. unfold parse_fields at 1. cbn [parse_record]. cbv zeta.
  case_bool_decide; [apply parse_record_fields; simpl; lia|].
  destruct (index_byte (c :: line) comma) as [i|] eqn:E; [|done]. case_bool_decide; [done|].
  apply index_byte_lt in E. apply parse_record_fields. rewrite length_drop. lia.
Qed.

Lemma parse_fields_quoted buf line rest acc : parse_fields comma (Quoted buf) line rest acc =
  match index_byte line QUOTE with
  | Some i =>
      match drop (S i) line with
      | c :: line' =>
          if bool_decide (c = QUOTE)
          then parse_fields comma (Quoted ((buf ++ take i line) ++ [c])) line' rest acc
          else if bool_decide (c = comma)
          then parse_fields comma Start line' rest (acc ++ [str (buf ++ take i line)])
          else if blank (c :: line') then Some (acc ++ [str (buf ++ take i line)], rest) else None
      | [] => Some (acc ++ [str (buf ++ take i line)], rest)
      end
  | None =>
      match line with
      | [] => None
      | _ => parse_fields comma (Quoted (buf ++ line)) (default ([], []) (readLine rest)).1
               (default ([], []) (readLine rest)).2 acc
      end
  end.
Proof.
  unfold parse_fields at 1. cbn [parse_record]. cbv zeta.
  destruct (index_byte line QUOTE) as [i|] eqn:E.
  - apply index_byte_lt in E. pose proof (length_drop line (S i)) as Hd.
    destruct (drop (S i) line) as [|c line']; [done|]. simpl in Hd.
    repeat case_bool_decide; try done; apply parse_record_fields; lia.
  - destruct line as [|c line]; [done|].
    destruct (readLine rest) as [[next rest']|] eqn:Er; apply parse_record_fields; simpl.
    + apply readLine_shorter in Er. lia.
    + lia.
Qed.

(** The reader at a place of the text. *)
Definition reads (mode : csv_mode) (text : bytes) (acc : list string) : option (list string * bytes) :=
  parse_fields comma mode (cut_line text).1 (cut_line text).2 acc.

Lemma reads_open T acc : reads Start (QUOTE :: T) acc = reads (Quoted []) T acc.
Proof. unfold reads. by rewrite cut_line_cons // parse_fields_start. Qed.

(** The bytes of a field that is not quoted. *)
Definition plain_field (f : bytes) : Prop := (QUOTE ∉ f) /\ (comma ∉ f) /\ (LF ∉ f).

Lemma plain_head f c l : plain_field f -> c <> QUOTE -> match f ++ c :: l with [] => False | d :: _ => d <> QUOTE end.
Proof. intros (Hq & _) Hc. destruct f; [done|]. set_solver. Qed.

Lemma reads_field f T acc : plain_field f -> reads Start (f ++ comma :: T) acc = reads Start T (acc ++ [str f]).
Proof.
  intros Hf. destruct Hcomma as (C1 & C2 & C3). unfold reads.
  pose proof (plain_head f comma (cut_line T).1 Hf C1) as Hh. destruct Hf as (Hq & Hc & Hl).
  rewrite cut_line_prefix // cut_line_cons //= parse_fields_start index_byte_here // take_app_length drop_after.
  destruct (f ++ comma :: (cut_line T).1) as [|d l]; [done|]. by rewrite !bool_decide_eq_false_2.
Qed.

Lemma reads_last f T acc : plain_field f -> reads Start (f ++ LF :: T) acc = Some (acc ++ [str f], T).
Proof.
  intros Hf. destruct Hcomma as (C1 & C2 & C3). unfold reads.
  pose proof (plain_head f LF [] Hf ltac:(done)) as Hh. destruct Hf as (Hq & Hc & Hl).
  rewrite cut_line_prefix //= parse_fields_start index_byte_none; [set_solver|].
  replace (strip_nl (f ++ [LF])) with f by (unfold strip_nl; rewrite reverse_snoc; by rewrite reverse_involutive).
  destruct (f ++ [LF]) as [|d l]; [done|]. by rewrite !bool_decide_eq_false_2.
Qed.

Lemma reads_quoted buf c T acc : c <> QUOTE -> CR ∉ T -> T <> [] ->
  reads (Quoted buf) (c :: T) acc = reads (Quoted (buf ++ [c])) T acc.
Proof.
  intros Hq Hcr HT. unfold reads. destruct (decide (c = LF)) as [->|Hl].
  - simpl. rewrite parse_fields_quoted index_byte_none; [set_solver|].
    assert (E : default ([], []) (readLine T) = cut_line T); [|by rewrite E].
    unfold readLine. destruct T as [|d T]; [done|]. pose proof (cut_line_app (d :: T)) as Happ.
    destruct (cut_line (d :: T)) as [l r]. simpl. rewrite normal_line_id //.
    intros Hin. apply Hcr. rewrite -Happ /=. set_solver.
  - rewrite cut_line_cons //=. pose proof (cut_line_nonempty T HT) as Hne.
    destruct (cut_line T) as [l r]. simpl in *.
    rewrite (parse_fields_quoted buf) (parse_fields_quoted (buf ++ [c]) l) index_byte_cons bool_decide_eq_false_2 //.
    destruct (index_byte l QUOTE) as [i|]; simpl; [by rewrite -!(assoc_L (++)) /=|].
    destruct l as [|d l]; [done|]. by rewrite -(assoc_L (++)).
Qed.

Lemma reads_double buf T acc :
  reads (Quoted buf) (QUOTE :: QUOTE :: T) acc = reads (Quoted (buf ++ [QUOTE])) T acc.
Proof.
  unfold reads. rewrite !cut_line_cons //= parse_fields_quoted index_byte_cons /= app_nil_r //.
Qed.

Lemma reads_close buf T acc : reads (Quoted buf) (QUOTE :: comma :: T) acc = reads Start T (acc ++ [str buf]).
Proof.
  destruct Hcomma as (C1 & C2 & C3). unfold reads.
  rewrite !cut_line_cons //= parse_fields_quoted index_byte_cons /= app_nil_r.
  by rewrite bool_decide_eq_false_2 // bool_decide_eq_true_2.
Qed.

Lemma reads_close_last buf T acc : reads (Quoted buf) (QUOTE :: LF :: T) acc = Some (acc ++ [str buf], T).
Proof.
  destruct Hcomma as (C1 & C2 & C3). unfold reads.
  rewrite (cut_line_cons QUOTE) //= parse_fields_quoted index_byte_cons /= app_nil_r.
  destruct (bool_decide (LF = comma)) eqn:E; [|done]. by apply bool_decide_eq_true in E; subst.
Qed.

Lemma reads_body f : forall buf T acc, CR ∉ f -> CR ∉ T -> T <> [] ->
  reads (Quoted buf) (double_quotes f ++ T) acc = reads (Quoted (buf ++ f)) T acc.
Proof.
  induction f as [|c f IH]; intros buf T acc Hf HT Hne; [by rewrite app_nil_r|].
  apply not_elem_of_cons in Hf as [Hc Hf]. unfold double_quotes. simpl.
  rewrite -/(double_quotes f). case_bool_decide as Eq; simpl.
  - subst c. rewrite reads_double IH // -(assoc_L (++)) //.
  - rewrite reads_quoted //.
    + rewrite not_elem_of_app. split; [|done]. unfold double_quotes. rewrite list_elem_of_bind.
      intros (x & Hx & Hin). apply Hf. case_bool_decide; set_solver.
    + by intros [_ ?]%app_nil.
    + rewrite IH // -(assoc_L (++)) //.
Qed.

(** The bytes that need quotes are those the reader would stop at. *)
Lemma unquoted_plain f : fieldNeedsQuotes comma f = false -> plain_field (lit f).
Proof.
  unfold fieldNeedsQuotes. case_bool_decide; [subst; repeat split; set_solver|].
  case_bool_decide; [done|]. intros [Hn _]%orb_false_iff.
  assert (Hs : forall c, c ∈ lit f -> special comma c = false).
  { intros c Hc. destruct (special comma c) eqn:E; [|done].
    rewrite -Hn. symmetry. apply existsb_exists. exists c. split; [by apply list_elem_of_In|done]. }
  unfold special in Hs. repeat split; intros Hin; apply Hs in Hin; repeat case_bool_decide; by simplify_eq/=.
Qed.

Lemma write_field_CR f : CR ∉ lit f -> CR ∉ write_field comma f.
Proof.
  intros H. unfold write_field. destruct (fieldNeedsQuotes comma f); [|done].
  unfold double_quotes. rewrite not_elem_of_cons not_elem_of_app list_elem_of_bind.
  split; [done|split; [|set_solver]]. intros (x & Hx & Hin). case_bool_decide; set_solver.
Qed.

Lemma reads_written f T acc : CR ∉ lit f -> CR ∉ T ->
  reads Start (write_field comma f ++ comma :: T) acc = reads Start T (acc ++ [f]).
Proof.
  intros Hf HT. destruct Hcomma as (C1 & C2 & C3). unfold write_field.
  destruct (fieldNeedsQuotes comma f) eqn:E.
  - simpl. rewrite reads_open -(assoc_L (++)) /= reads_body //; [set_solver|].
    by rewrite reads_close str_lit.
  - apply unquoted_plain in E. by rewrite reads_field // str_lit.
Qed.

Lemma reads_written_last f T acc : CR ∉ lit f -> CR ∉ T ->
  reads Start (write_field comma f ++ LF :: T) acc = Some (acc ++ [f], T).
Proof.
  intros Hf HT. unfold write_field. destruct (fieldNeedsQuotes comma f) eqn:E.
  - simpl. rewrite reads_open -(assoc_L (++)) /= reads_body //; [set_solver|].
    by rewrite reads_close_last str_lit.
  - apply unquoted_plain in E. by rewrite reads_last // str_lit.
Qed.

Definition no_CR (record : list string) : Prop := Forall (fun f => CR ∉ lit f) record.

Lemma WriteRecord_CR record : no_CR record -> CR ∉ WriteRecord comma record.
Proof.
  destruct Hcomma as (C1 & C2 & C3).
  induction 1 as [|f record Hf Hr IH]; simpl; [set_solver|]. apply write_field_CR in Hf.
  destruct record; set_solver.
Qed.

Lemma reads_WriteRecord record rest acc : record <> [] -> no_CR record -> CR ∉ rest ->
  reads Start (WriteRecord comma record ++ rest) acc = Some (acc ++ record, rest).
Proof.
  intros Hne Hcr HT. revert acc. induction record as [|f record IH]; intros acc; [done|].
  apply Forall_cons in Hcr as [Hf Hr]. simpl. destruct record as [|g record].
  - rewrite -(assoc_L (++)) /=. by apply reads_written_last.
  - rewrite -(assoc_L (++)) -app_comm_cons reads_written //.
    { rewrite not_elem_of_app. split; [by apply WriteRecord_CR|done]. }
    rewrite IH // -(assoc_L (++)) //.
Qed.

(** A record is not read as a blank line, unless its only field is empty. *)
Lemma WriteRecord_head record rest : record <> [] -> record <> [""] ->
  exists c t, WriteRecord comma record ++ rest = c :: t /\ c <> LF.
Proof.
  destruct Hcomma as (C1 & C2 & C3). intros H1 H2. destruct record as [|f record]; [done|].
  assert (Hw : f = "" /\ write_field comma f = [] \/ exists c t, write_field comma f = c :: t /\ c <> LF).
  { unfold write_field. destruct (fieldNeedsQuotes comma f) eqn:E; [right; by eexists _, _|].
    apply unquoted_plain in E as (_ & _ & Hl). destruct f as [|c f]; [by left|].
    right. exists c, (lit f). split; [done|]. intros ->. apply Hl. by left. }
  simpl. destruct Hw as [[-> ->]|(c & t & -> & Hc)]; destruct record as [|g record]; try done; simpl; eauto.
Qed.

Lemma Read_WriteRecord n record rest : record <> [] -> record <> [""] -> no_CR record -> CR ∉ rest ->
  Read comma n (WriteRecord comma record ++ rest)
  = if Nat.eqb (length record) n then ReadRecord record rest else ReadError.
Proof.
  intros H1 H2 Hcr HT. destruct (WriteRecord_head record rest H1 H2) as (c & t & E & Hc).
  pose proof (reads_WriteRecord record rest [] H1 Hcr HT) as Hr.
  assert (HCR : CR ∉ c :: t).
  { rewrite -E not_elem_of_app. split; [by apply WriteRecord_CR|done]. }
  rewrite E in Hr |- *. unfold Read. cbn [next_line readLine].
  unfold reads in Hr. pose proof (cut_line_app (c :: t)) as Happ. rewrite cut_line_cons // in Hr Happ |- *.
  destruct (cut_line t) as [l r]. simpl fst in *. simpl snd in *.
  rewrite normal_line_id.
  { intros Hin. apply HCR. rewrite -Happ. set_solver. }
  unfold blank. rewrite bool_decide_eq_false_2 // bool_decide_eq_false_2; [congruence|].
  simpl orb. cbv iota. by rewrite Hr.
Qed.

(** A line without the bytes the reader stops at is one field. *)
Lemma Read_line n line rest : line <> [] -> plain_field line -> CR ∉ line ->
  Read comma n (line ++ LF :: rest) = if Nat.eqb 1 n then ReadRecord [str line] rest else ReadError.
Proof.
  intros Hne Hp Hcr. pose proof (reads_last line rest [] Hp) as Hr. pose proof Hp as (_ & _ & Hl).
  unfold reads in Hr. unfold Read. cbn [next_line]. unfold readLine.
  rewrite cut_line_prefix // in Hr |- *. simpl fst in Hr |- *. simpl snd in Hr |- *.
  destruct line as [|c line]; [done|]. rewrite normal_line_id; [set_solver|].
  simpl app in *. unfold blank. rewrite bool_decide_eq_false_2 // bool_decide_eq_false_2.
  { by intros [= _ []%app_nil]. }
  simpl orb. cbv iota. by rewrite Hr.
Qed.

Lemma Read_end n : Read comma n [] = ReadEOF.
Proof. done. Qed.
End round_trip.
