(* ===== verification/Domain.v ===== *)
(** * Domain: the run lifecycle and its wire encodings

    [internal/domain/domain.go]: run states, error classes, autonomy modes
    and the transition table; [internal/domain/errors.go]: the sentinels;
    [internal/domain/convert/convert.go]: the maps between the string enums
    and the integers of the protocol. *)
From S2P Require Import Prelude GoStrings.
From stdpp Require Import pretty.
Open Scope Z_scope.

(** ** Table lookups *)

(** The first element of [l] whose key [f] is [b]: a Go map keyed by [f]. *)
Definition find_by {A B} `{EqDecision B} (f : A -> B) (l : list A) (b : B) : option A :=
  snd <$> list_find (fun a => f a = b) l.

Section find_by.
Context {A B : Type} `{EqDecision B} (f : A -> B) (l : list A).

Lemma find_by_key a b : find_by f l b = Some a -> f a = b.
Proof.
  unfold find_by. intros ([i x] & Hf & ->)%fmap_Some.
  by apply list_find_Some in Hf as (_ & H & _).
Qed.

Lemma find_by_inj a : Inj (=) (=) f -> a ∈ l -> find_by f l (f a) = Some a.
Proof.
  intros Hi. unfold find_by.
  induction l as [|b l' IH]; [by intros ?%not_elem_of_nil|]. intros H. simpl.
  destruct (decide (f b = f a)) as [E|E]; [by apply (inj f) in E as ->|].
  apply elem_of_cons in H as [->|H]; [done|]. specialize (IH H).
  destruct (list_find _ l') as [[]|]; simpl in *; naive_solver.
Qed.
End find_by.

(** ** Enumerations *)

(** [domain.RunState]: the constants. *)
Inductive RunState :=
| RunStateCreated | RunStateQueued | RunStateAcquired | RunStatePreparing
| RunStateModelRunning | RunStateToolPending | RunStateAwaitingApproval
| RunStateToolRunning | RunStateAwaitingModelResume | RunStateFinalizing
| RunStateCompleted | RunStateFailed | RunStateCancelled | RunStateTimedOut.

#[global] Instance RunState_eq_dec : EqDecision RunState.
Proof. solve_decision. Defined.

(** The string value of each constant. *)
Definition run_state_name (s : RunState) : string :=
  match s with
  | RunStateCreated => "created"
  | RunStateQueued => "queued"
  | RunStateAcquired => "acquired"
  | RunStatePreparing => "preparing"
  | RunStateModelRunning => "model_running"
  | RunStateToolPending => "tool_pending"
  | RunStateAwaitingApproval => "awaiting_approval"
  | RunStateToolRunning => "tool_running"
  | RunStateAwaitingModelResume => "awaiting_model_resume"
  | RunStateFinalizing => "finalizing"
  | RunStateCompleted => "completed"
  | RunStateFailed => "failed"
  | RunStateCancelled => "cancelled"
  | RunStateTimedOut => "timed_out"
  end.

Definition all_run_states : list RunState :=
  [RunStateCreated; RunStateQueued; RunStateAcquired; RunStatePreparing;
   RunStateModelRunning; RunStateToolPending; RunStateAwaitingApproval;
   RunStateToolRunning; RunStateAwaitingModelResume; RunStateFinalizing;
   RunStateCompleted; RunStateFailed; RunStateCancelled; RunStateTimedOut].

(** A [RunState] of Go is any string; the known ones have a constant. *)
Definition run_state_of_name (name : string) : option RunState :=
  find_by run_state_name all_run_states name.

Inductive ErrorClass :=
| ErrorClassValidation | ErrorClassTransport | ErrorClassTool | ErrorClassPolicy
| ErrorClassCredential | ErrorClassApproval | ErrorClassTimeout
| ErrorClassCancelled | ErrorClassInternal.

Definition error_class_name (c : ErrorClass) : string :=
  match c with
  | ErrorClassValidation => "validation_error"
  | ErrorClassTransport => "transport_error"
  | ErrorClassTool => "tool_error"
  | ErrorClassPolicy => "policy_denied"
  | ErrorClassCredential => "credential_error"
  | ErrorClassApproval => "approval_error"
  | ErrorClassTimeout => "timeout"
  | ErrorClassCancelled => "cancelled"
  | ErrorClassInternal => "internal_error"
  end.

Definition all_error_classes : list ErrorClass :=
  [ErrorClassValidation; ErrorClassTransport; ErrorClassTool; ErrorClassPolicy;
   ErrorClassCredential; ErrorClassApproval; ErrorClassTimeout;
   ErrorClassCancelled; ErrorClassInternal].

Inductive AutonomyMode := AutonomyMode0 | AutonomyMode1 | AutonomyMode2 | AutonomyMode3.

Definition autonomy_mode_name (m : AutonomyMode) : string :=
  match m with
  | AutonomyMode0 => "mode_0" | AutonomyMode1 => "mode_1"
  | AutonomyMode2 => "mode_2" | AutonomyMode3 => "mode_3"
  end.

Definition all_autonomy_modes : list AutonomyMode :=
  [AutonomyMode0; AutonomyMode1; AutonomyMode2; AutonomyMode3].

(** ** Sentinel errors *)

Definition ErrRunNotFound : error := ErrNew "domain.ErrRunNotFound" "run not found".
Definition ErrRunDuplicate : error :=
  ErrNew "domain.ErrRunDuplicate" "run already exists for idempotency key".
Definition ErrSessionNotFound : error :=
  ErrNew "domain.ErrSessionNotFound" "session not found".

(** ** The transition table *)

Definition transitions_of (s : RunState) : list RunState :=
  match s with
  | RunStateCreated =>
      [RunStateQueued; RunStateFailed; RunStateCancelled; RunStateTimedOut]
  | RunStateQueued =>
      [RunStateAcquired; RunStateFailed; RunStateCancelled; RunStateTimedOut]
  | RunStateAcquired =>
      [RunStatePreparing; RunStateFailed; RunStateCancelled; RunStateTimedOut]
  | RunStatePreparing =>
      [RunStateModelRunning; RunStateFailed; RunStateCancelled; RunStateTimedOut]
  | RunStateModelRunning =>
      [RunStateToolPending; RunStateFinalizing; RunStateFailed; RunStateCancelled;
       RunStateTimedOut]
  | RunStateToolPending =>
      [RunStateAwaitingApproval; RunStateToolRunning; RunStateFailed;
       RunStateCancelled; RunStateTimedOut]
  | RunStateAwaitingApproval =>
      [RunStateToolRunning; RunStateAwaitingModelResume; RunStateCancelled;
       RunStateTimedOut; RunStateFailed]
  | RunStateToolRunning =>
      [RunStateAwaitingModelResume; RunStateFailed; RunStateCancelled; RunStateTimedOut]
  | RunStateAwaitingModelResume =>
      [RunStateModelRunning; RunStateFailed; RunStateCancelled; RunStateTimedOut]
  | RunStateFinalizing =>
      [RunStateCompleted; RunStateFailed; RunStateCancelled; RunStateTimedOut]
  | RunStateCompleted | RunStateFailed | RunStateCancelled | RunStateTimedOut => []
  end.

(** [allowedTransitions]: a map from the string of a state. *)
Definition allowedTransitions (from : string) : option (list string) :=
  s ← run_state_of_name from; Some (run_state_name <$> transitions_of s).

(** [%q] of a string none of whose characters needs an escape. *)
Definition quoted (s : string) : string :=
  String (Ascii.ascii_of_nat 34) "" +:+ s +:+ String (Ascii.ascii_of_nat 34) "".

Definition err_transition (from to : string) : error :=
  Errorf ("run state transition " +:+ quoted from +:+ " -> " +:+ quoted to +:+ " is not allowed").

Definition ValidateRunStateTransition (from to : string) : res unit :=
  if bool_decide (from = to) then Err (err_transition from to) else
  match allowedTransitions from with
  | None => Err (Errorf ("unknown source run state " +:+ quoted from))
  | Some transitions =>
      match allowedTransitions to with
      | None => Err (Errorf ("unknown target run state " +:+ quoted to))
      | Some _ =>
          if bool_decide (to ∈ transitions) then Ok tt else Err (err_transition from to)
      end
  end.

Definition IsTerminalRunState (state : string) : bool :=
  bool_decide (state = run_state_name RunStateCompleted)
  || bool_decide (state = run_state_name RunStateFailed)
  || bool_decide (state = run_state_name RunStateCancelled)
  || bool_decide (state = run_state_name RunStateTimedOut).

(** ** Conversions to and from the protocol enums *)

(** The generated enums are consecutive 32-bit integers in declaration
    order, with 0 for UNSPECIFIED. *)
Definition run_state_number (s : RunState) : Z :=
  match s with
  | RunStateCreated => 1 | RunStateQueued => 2 | RunStateAcquired => 3
  | RunStatePreparing => 4 | RunStateModelRunning => 5 | RunStateToolPending => 6
  | RunStateAwaitingApproval => 7 | RunStateToolRunning => 8
  | RunStateAwaitingModelResume => 9 | RunStateFinalizing => 10
  | RunStateCompleted => 11 | RunStateFailed => 12 | RunStateCancelled => 13
  | RunStateTimedOut => 14
  end.

Definition RunStateToProto (state : string) : Z :=
  match run_state_of_name state with Some s => run_state_number s | None => 0 end.

Definition RunStateStringToProto (state : string) : Z := RunStateToProto state.

(** [runStateProtoToDomain]: the inverse table. *)
Definition run_state_of_number (n : Z) : option RunState :=
  find_by run_state_number all_run_states n.

Definition ProtoToRunState (n : Z) : res string :=
  match run_state_of_number n with
  | Some s => Ok (run_state_name s)
  | None => Err (Errorf ("unrecognised proto RunState " +:+ pretty n))
  end.

Definition autonomy_mode_number (m : AutonomyMode) : Z :=
  match m with
  | AutonomyMode0 => 1 | AutonomyMode1 => 2 | AutonomyMode2 => 3 | AutonomyMode3 => 4
  end.

Definition AutonomyModeToProto (mode : string) : Z :=
  match find_by autonomy_mode_name all_autonomy_modes mode with
  | Some m => autonomy_mode_number m
  | None => 0
  end.

Definition AutonomyModeStringToProto (mode : string) : Z := AutonomyModeToProto mode.

Definition ProtoToAutonomyMode (n : Z) : res string :=
  match find_by autonomy_mode_number all_autonomy_modes n with
  | Some m => Ok (autonomy_mode_name m)
  | None => Err (Errorf ("unrecognised proto AutonomyMode " +:+ pretty n))
  end.

Definition ProtoToAutonomyModeString (n : Z) : res string := ProtoToAutonomyMode n.

Definition error_class_number (c : ErrorClass) : Z :=
  match c with
  | ErrorClassValidation => 1 | ErrorClassTransport => 2 | ErrorClassTool => 3
  | ErrorClassPolicy => 4 | ErrorClassCredential => 5 | ErrorClassApproval => 6
  | ErrorClassTimeout => 7 | ErrorClassCancelled => 8 | ErrorClassInternal => 9
  end.

(** An unrecognised class is reported as internal. *)
Definition ErrorClassToProto (ec : string) : Z :=
  match find_by error_class_name all_error_classes ec with
  | Some c => error_class_number c
  | None => error_class_number ErrorClassInternal
  end.

Definition ErrorClassStringToProto (ec : string) : Z :=
  if bool_decide (ec = "") then 0 else ErrorClassToProto ec.

Definition ProtoToErrorClass (n : Z) : res string :=
  match find_by error_class_number all_error_classes n with
  | Some c => Ok (error_class_name c)
  | None => Err (Errorf ("unrecognised proto ErrorClass " +:+ pretty n))
  end.

Definition ProtoToErrorClassString (n : Z) : res string := ProtoToErrorClass n.

(** ** Lemmas *)

Lemma elem_of_all_run_states s : s ∈ all_run_states.
Proof. destruct s; unfold all_run_states; set_solver. Qed.

#[global] Instance run_state_name_inj : Inj (=) (=) run_state_name.
Proof. intros [] []; by vm_compute. Qed.

Lemma run_state_of_name_name s : run_state_of_name (run_state_name s) = Some s.
Proof. apply find_by_inj; [apply _|apply elem_of_all_run_states]. Qed.

Lemma run_state_of_name_Some name s :
  run_state_of_name name = Some s <-> name = run_state_name s.
Proof.
  split; [|intros ->; apply run_state_of_name_name].
  intros H. symmetry. by eapply find_by_key.
Qed.

#[export] Hint Rewrite run_state_of_name_name : go_rw.

(** The table, as a relation on states. *)
Definition edge (s s' : RunState) : Prop := s' ∈ transitions_of s.

#[global] Instance edge_dec s s' : Decision (edge s s').
Proof. unfold edge. apply _. Defined.

Definition terminal (s : RunState) : bool :=
  match s with
  | RunStateCompleted | RunStateFailed | RunStateCancelled | RunStateTimedOut => true
  | _ => false
  end.

Lemma IsTerminal_name s : IsTerminalRunState (run_state_name s) = terminal s.
Proof. by destruct s; vm_compute. Qed.

Lemma IsTerminal_known name :
  IsTerminalRunState name = true -> exists s, name = run_state_name s /\ terminal s = true.
Proof.
  unfold IsTerminalRunState. rewrite !orb_true_iff !bool_decide_eq_true.
  intros [[[->| ->]| ->]| ->]; eexists; split; done.
Qed.

Lemma edge_irrefl s : ~ edge s s.
Proof. unfold edge. destruct s; vm_compute; set_solver. Qed.

Lemma terminal_no_edge s s' : terminal s = true -> ~ edge s s'.
Proof. unfold edge. destruct s; try done; set_solver. Qed.

(** The check accepts exactly the edges of the table. *)
Lemma validate_edge from to :
  ValidateRunStateTransition from to = Ok tt <->
  exists s s', from = run_state_name s /\ to = run_state_name s' /\ edge s s'.
Proof.
  unfold ValidateRunStateTransition, allowedTransitions. split.
  - case_bool_decide as Hne; [done|].
    destruct (run_state_of_name from) as [s|] eqn:Es; [|done]. simpl.
    destruct (run_state_of_name to) as [s'|] eqn:Es'; [|done]. simpl.
    apply run_state_of_name_Some in Es as ->, Es' as ->.
    case_bool_decide as Hin; [|done]. intros _. exists s, s'. split_and!; [done..|].
    apply list_elem_of_fmap in Hin as (x & E & ?). by apply (inj run_state_name) in E as ->.
  - intros (s & s' & -> & -> & He). rewrite !run_state_of_name_name. simpl.
    rewrite bool_decide_false; [intros ?%(inj run_state_name); subst; by apply edge_irrefl in He|].
    rewrite bool_decide_true; [apply list_elem_of_fmap; eauto|done].
Qed.

(** ** Runs of the lifecycle *)

(** The states a run has gone through, each step accepted by the check. *)
Inductive run_trace : list string -> string -> Prop :=
| trace_created : run_trace [run_state_name RunStateCreated] (run_state_name RunStateCreated)
| trace_step tr s s' :
    run_trace tr s -> ValidateRunStateTransition s s' = Ok tt -> run_trace (tr ++ [s']) s'.

(** What must have happened, in this order, before a run is in a state. *)
Definition milestones (s : RunState) : list RunState :=
  match s with
  | RunStateCreated | RunStateFailed | RunStateCancelled | RunStateTimedOut =>
      [RunStateCreated]
  | RunStateQueued => [RunStateCreated; RunStateQueued]
  | RunStateAcquired => [RunStateCreated; RunStateQueued; RunStateAcquired]
  | RunStatePreparing =>
      [RunStateCreated; RunStateQueued; RunStateAcquired; RunStatePreparing]
  | RunStateModelRunning =>
      [RunStateCreated; RunStateQueued; RunStateAcquired; RunStatePreparing;
       RunStateModelRunning]
  | RunStateToolPending | RunStateAwaitingApproval | RunStateToolRunning
  | RunStateAwaitingModelResume =>
      [RunStateCreated; RunStateQueued; RunStateAcquired; RunStatePreparing;
       RunStateModelRunning; RunStateToolPending]
  | RunStateFinalizing =>
      [RunStateCreated; RunStateQueued; RunStateAcquired; RunStatePreparing;
       RunStateModelRunning; RunStateFinalizing]
  | RunStateCompleted =>
      [RunStateCreated; RunStateQueued; RunStateAcquired; RunStatePreparing;
       RunStateModelRunning; RunStateFinalizing; RunStateCompleted]
  end.

Lemma milestones_edge s s' : edge s s' ->
  milestones s' = milestones s ++ [s'] \/ milestones s' `prefix_of` milestones s.
Proof.
  intros He. apply (bool_decide_unpack _). unfold edge in He.
  destruct s; simpl in He; repeat (apply elem_of_cons in He as [->|He]);
    solve [by vm_compute | by apply not_elem_of_nil in He].
Qed.

Lemma trace_milestones tr s : run_trace tr s ->
  exists st, s = run_state_name st /\ (run_state_name <$> milestones st) `sublist_of` tr.
Proof.
  induction 1 as [|tr s s' _ (st & -> & Hsub) Hv]; [by exists RunStateCreated|].
  apply validate_edge in Hv as (a & b & Ha & -> & He).
  apply (inj run_state_name) in Ha as <-. exists b. split; [done|].
  destruct (milestones_edge _ _ He) as [->|[k Hk]].
  - rewrite fmap_app. by apply sublist_app.
  - etrans; [|apply sublist_inserts_r, Hsub].
    rewrite Hk fmap_app. by apply sublist_inserts_r.
Qed.

(** Following a path of accepted transitions. *)
Fixpoint check_path (from : string) (path : list string) : bool :=
  match path with
  | [] => true
  | t :: rest => bool_decide (ValidateRunStateTransition from t = Ok tt) && check_path t rest
  end.

Lemma check_path_trace tr s path :
  run_trace tr s -> check_path s path = true -> run_trace (tr ++ path) (default s (last path)).
Proof.
  revert tr s. induction path as [|t path IH]; intros tr s Ht Hp; simpl in *.
  - by rewrite app_nil_r.
  - unbool. rewrite (cons_middle t tr path) app_assoc.
    replace (default s (last (t :: path))) with (default t (last path))
      by (rewrite last_cons; by destruct (last path)).
    apply IH; [|done]. by eapply trace_step.
Qed.

(** every run that reaches "completed" was queued, acquired, prepared,
    handed to the model and finalized, in that order: no accepted sequence
    of transitions skips a stage. *)
Theorem completed_run_milestones (tr : list string) :
  run_trace tr "completed" ->
  ["created"; "queued"; "acquired"; "preparing"; "model_running"; "finalizing"; "completed"]
    `sublist_of` tr.
Proof.
  intros (st & E & Hsub)%trace_milestones.
  change "completed" with (run_state_name RunStateCompleted) in E.
  by apply (inj run_state_name) in E as <-.
Qed.

Lemma completed_run_milestones_witness :
  exists tr, run_trace tr "completed" /\
    ["created"; "queued"; "acquired"; "preparing"; "model_running"; "finalizing"; "completed"]
      `sublist_of` tr.
Proof.
  pose (path := ["queued"; "acquired"; "preparing"; "model_running"; "tool_pending";
                 "tool_running"; "awaiting_model_resume"; "model_running"; "finalizing";
                 "completed"]).
  assert (H : run_trace ("created" :: path) "completed")
    by exact (check_path_trace _ _ path trace_created eq_refl).
  exists ("created" :: path). split; [exact H | exact (completed_run_milestones _ H)].
Defined.

(** A shortest way to finish the run. *)
Definition way_out (s : RunState) : list RunState :=
  let finish := [RunStateFinalizing; RunStateCompleted] in
  let resume := RunStateModelRunning :: finish in
  match s with
  | RunStateCreated => [RunStateQueued; RunStateAcquired; RunStatePreparing] ++ resume
  | RunStateQueued => [RunStateAcquired; RunStatePreparing] ++ resume
  | RunStateAcquired => RunStatePreparing :: resume
  | RunStatePreparing | RunStateAwaitingModelResume => resume
  | RunStateModelRunning => finish
  | RunStateToolPending => [RunStateToolRunning; RunStateAwaitingModelResume] ++ resume
  | RunStateAwaitingApproval | RunStateToolRunning => RunStateAwaitingModelResume :: resume
  | RunStateFinalizing => [RunStateCompleted]
  | _ => []
  end.

(** the lifecycle has no dead end and terminal states are final.  From a
    state that is not terminal the run may always fail, be cancelled or time
    out, and can still be driven to "completed" by accepted transitions;
    from a terminal state no transition at all is accepted. *)
Theorem lifecycle_progress (s : RunState) :
  if IsTerminalRunState (run_state_name s) then
    forall to, is_ok (ValidateRunStateTransition (run_state_name s) to) = false
  else
    (forall t, t ∈ ["failed"; "cancelled"; "timed_out"] ->
        ValidateRunStateTransition (run_state_name s) t = Ok tt)
    /\ exists path, last path = Some "completed" /\ check_path (run_state_name s) path = true.
Proof.
  rewrite IsTerminal_name. destruct (terminal s) eqn:Et.
  - intros to. destruct (ValidateRunStateTransition _ _) as [[]|] eqn:E; [|done].
    apply validate_edge in E as (a & b & Ha%(inj _) & _ & He); subst a.
    by apply terminal_no_edge in He.
  - split.
    + intros t Ht. repeat (apply elem_of_cons in Ht as [->|Ht]); [..|by apply not_elem_of_nil in Ht];
        destruct s; solve [done | by vm_compute].
    + exists (run_state_name <$> way_out s). destruct s; by vm_compute.
Qed.

(** ** Conversions *)

#[global] Instance run_state_number_inj : Inj (=) (=) run_state_number.
Proof. intros [] []; by vm_compute. Qed.
#[global] Instance autonomy_mode_name_inj : Inj (=) (=) autonomy_mode_name.
Proof. intros [] []; by vm_compute. Qed.
#[global] Instance autonomy_mode_number_inj : Inj (=) (=) autonomy_mode_number.
Proof. intros [] []; by vm_compute. Qed.
#[global] Instance error_class_name_inj : Inj (=) (=) error_class_name.
Proof. intros [] []; by vm_compute. Qed.
#[global] Instance error_class_number_inj : Inj (=) (=) error_class_number.
Proof. intros [] []; by vm_compute. Qed.

Section enum.
(** A string enum and its integer encoding, 0 standing for "unspecified". *)
Context {A : Type} (name : A -> string) (number : A -> Z) (all : list A).
Context `{!Inj (=) (=) name, !Inj (=) (=) number}.
Context (complete : forall a, a ∈ all).

Lemma enum_inverse (s : string) (n : Z) :
  name <$> find_by number all n = Some s <->
  number <$> find_by name all s = Some n.
Proof.
  split; intros (a & Ha & ->)%fmap_Some.
  - rewrite (find_by_inj name all a _ (complete a)). simpl.
    apply find_by_key in Ha. by subst.
  - rewrite (find_by_inj number all a _ (complete a)). simpl.
    apply find_by_key in Ha. by subst.
Qed.
End enum.

(** the string and protocol encodings of run states and autonomy modes
    are mutually inverse: decoding a number gives a name exactly when that
    name encodes to the number and the number is not UNSPECIFIED; every
    error class that decodes also encodes back to the same number, and any
    other non-empty class is reported as the internal-error number. *)
Theorem proto_conversions_inverse (name : string) (n : Z) :
  (ProtoToRunState n = Ok name <-> RunStateToProto name = n /\ n <> 0)
  /\ (ProtoToAutonomyMode n = Ok name <-> AutonomyModeToProto name = n /\ n <> 0)
  /\ (ProtoToErrorClass n = Ok name -> ErrorClassStringToProto name = n)
  /\ (name <> "" -> (forall m, ProtoToErrorClass m <> Ok name) ->
        ErrorClassStringToProto name = 9).
Proof.
  pose proof (enum_inverse run_state_name run_state_number all_run_states
    elem_of_all_run_states name n) as H1.
  assert (Hm : forall a, a ∈ all_autonomy_modes)
    by (intros []; unfold all_autonomy_modes; set_solver).
  assert (Hc : forall a, a ∈ all_error_classes)
    by (intros []; unfold all_error_classes; set_solver).
  pose proof (enum_inverse autonomy_mode_name autonomy_mode_number _ Hm name n) as H2.
  pose proof (enum_inverse error_class_name error_class_number _ Hc name) as H3.
  split_and!.
  - unfold ProtoToRunState, RunStateToProto, run_state_of_number, run_state_of_name.
    destruct (find_by run_state_number _ _), (find_by run_state_name _ _) as [[]|];
      simpl in *; naive_solver.
  - unfold ProtoToAutonomyMode, AutonomyModeToProto.
    destruct (find_by autonomy_mode_number _ _), (find_by autonomy_mode_name _ _) as [[]|];
      simpl in *; naive_solver.
  - unfold ProtoToErrorClass, ErrorClassStringToProto, ErrorClassToProto. specialize (H3 n).
    case_bool_decide as E.
    + subst. destruct (find_by error_class_number _ _) as [[]|]; done.
    + destruct (find_by error_class_number _ _), (find_by error_class_name _ _);
        simpl in *; naive_solver.
  - intros Hne Hno. unfold ErrorClassStringToProto. rewrite bool_decide_false; [done|].
    unfold ErrorClassToProto. destruct (find_by error_class_name _ _) as [c|] eqn:E; [|done].
    exfalso. apply (Hno (error_class_number c)). unfold ProtoToErrorClass.
    rewrite (find_by_inj error_class_number _ c _ (Hc c)).
    apply find_by_key in E. by subst.
Qed.
