(* ===== verification/Ownership.v ===== *)
(** * Ownership: fencing tokens and the write guards

    [internal/ownership/fence.go] and [transaction.go].  The table
    [session_ownership] has one row per session; a worker carries a [Token]
    and every authoritative write first checks that the row still carries
    that token.  The two channels of [Authority] are modelled as a
    semaphore with a step relation over the threads of the process. *)
From S2P Require Import Prelude GoStrings GoTime.
Open Scope Z_scope.

Definition ErrStale : error :=
  ErrNew "ownership.ErrStale" "execution ownership expired or superseded".
Definition ErrTxClosed : error := ErrNew "pgx.ErrTxClosed" "tx is closed".

(** ** The fencing row and the token *)

Record Token := mkToken {
  tok_session_key : string;
  tok_run_id : string;
  tok_lease_id : string;
  tok_fence_epoch : Z;
}.

(** A row of [session_ownership] (migrations/032); the session key is the
    primary key. *)
Record OwnershipRow := mkOwnership {
  own_lease_id : string;
  own_run_id : string;
  own_owner_id : string;
  own_fence_epoch : Z;
  own_acquired_at : Z;
  own_expires_at : Z;
}.

Abbreviation ownership_table := (gmap string OwnershipRow).

#[global] Instance OwnershipRow_eq_dec : EqDecision OwnershipRow.
Proof. solve_decision. Defined.

(** [SELECT lease_id=$2 AND run_id=$3 AND fence_epoch=$4 AND
    expires_at>clock_timestamp() FROM session_ownership WHERE session_key=$1] *)
Definition fence_row_valid (now : Z) (t : Token) (r : OwnershipRow) : bool :=
  bool_decide (own_lease_id r = tok_lease_id t)
  && bool_decide (own_run_id r = tok_run_id t)
  && Z.eqb (own_fence_epoch r) (tok_fence_epoch t)
  && Z.ltb now (own_expires_at r).

Definition fence_valid (tbl : ownership_table) (now : Z) (t : Token) : bool :=
  match tbl !! tok_session_key t with
  | Some r => fence_row_valid now t r
  | None => false
  end.

(** ** The execution carried by a context *)

(** An authority belongs to a connection pool of a given size. *)
Record Authority := mkAuthority { auth_pool : nat; auth_max_conns : Z }.

Record execution := mkExecution {
  exe_token : Token;
  exe_authority : option Authority;
  exe_guarded : bool;
}.

(** [ctx.Value(executionKey{})]. *)
Abbreviation go_context := (option execution).

(** The slots of a new authority: half of the pool, at least one. *)
Definition NewAuthority_slots (max_conns : Z) : nat :=
  Z.to_nat (let n := go_div max_conns 2 in if Z.ltb n 1 then 1 else n).

Definition WithToken (a : option Authority) (t : Token) : go_context :=
  Some (mkExecution t a false).

Definition TokenFromContext (ctx : go_context) : option Token := exe_token <$> ctx.

Definition err_two_conns : error :=
  Errorf "fencing requires a PostgreSQL pool with at least two connections".

(** The error of a step that talks to the context or to the database: the
    wait for a slot is cancelled, the transaction cannot start, or the
    validation query fails. *)
Inductive fence_fault :=
| SlotCancelled (e : error)
| BeginFailed (e : error)
| QueryFailed (e : error).

(** [Begin]. *)
Definition Begin (tbl : ownership_table) (now : Z) (fault : option fence_fault)
    (ctx : go_context) : res go_context :=
  match ctx with
  | None => Ok ctx
  | Some e =>
      if exe_guarded e then Ok ctx else
      match exe_authority e with
      | None => Err err_two_conns
      | Some a =>
          if Z.ltb (auth_max_conns a) 2 then Err err_two_conns else
          match fault with
          | Some (SlotCancelled err) | Some (BeginFailed err) => Err err
          | Some (QueryFailed err) => Err (ErrWrap "validate fenced write: " err)
          | None =>
              if fence_valid tbl now (exe_token e)
              then Ok (Some (mkExecution (exe_token e) (exe_authority e) true))
              else Err ErrStale
          end
      end
  end.

(** ** Fenced transactions *)

(** What a transaction acts on: the published state of the database and the
    number of guard slots in use. *)
Record tx_world (S : Type) := mkWorld { tw_db : S; tw_slots : nat }.
Arguments mkWorld {S} _ _.
Arguments tw_db {S} _.
Arguments tw_slots {S} _.

(** [release]: nothing for an already guarded context, else a [sync.Once]
    that gives the slot back; [Once done] remembers whether it ran. *)
Inductive release_fn := NoRelease | Once (done : bool).

Definition run_release {S} (r : release_fn) (w : tx_world S) : release_fn * tx_world S :=
  match r with
  | Once false => (Once true, mkWorld (tw_db w) (tw_slots w - 1))
  | _ => (r, w)
  end.

Record fencedTransaction (S : Type) := mkFenced {
  ft_pending : S;        (* the database as the open transaction sees it *)
  ft_token : Token;
  ft_release : release_fn;
  ft_closed : bool;
}.
Arguments mkFenced {S} _ _ _ _.
Arguments ft_pending {S} _.
Arguments ft_token {S} _.
Arguments ft_release {S} _.
Arguments ft_closed {S} _.

(** [validate]. *)
Definition validate (tbl : ownership_table) (now : Z) (query : option error)
    (t : Token) : option error :=
  match query with
  | Some err => Some (ErrWrap "validate fenced transaction: " err)
  | None => if fence_valid tbl now t then None else Some ErrStale
  end.

Definition ft_close {S} (t : fencedTransaction S) (w : tx_world S) :
    fencedTransaction S * tx_world S :=
  let '(r, w') := run_release (ft_release t) w in
  (mkFenced (ft_pending t) (ft_token t) r true, w').

(** [Rollback]; [fault] is the error of the driver. *)
Definition Rollback {S} (fault : option error) (t : fencedTransaction S) (w : tx_world S) :
    fencedTransaction S * tx_world S * option error :=
  if ft_closed t then (t, w, Some ErrTxClosed)
  else (ft_close t w, fault).

(** [Commit]; [query] is the error of the validation query, [commit] the
    driver's error with whether the server had applied the commit. *)
Definition Commit {S} (tbl : ownership_table) (now : Z) (query : option error)
    (commit : option (error * bool)) (t : fencedTransaction S) (w : tx_world S) :
    fencedTransaction S * tx_world S * option error :=
  if ft_closed t then (t, w, Some ErrTxClosed) else
  match validate tbl now query (ft_token t) with
  | Some err => ((Rollback None t w).1, Some err)
  | None =>
      let applied := match commit with None => true | Some (_, b) => b end in
      let w' := if applied then mkWorld (ft_pending t) (tw_slots w) else w in
      (ft_close t w', fst <$> commit)
  end.

(** [BeginTransaction] on [pool]: an owned context gets a fenced transaction,
    any other a plain one. *)
Inductive begun (S : Type) := PlainTx | FencedTx (t : fencedTransaction S).
Arguments PlainTx {S}.
Arguments FencedTx {S} t.

Definition BeginTransaction {S} (pool : nat) (tbl : ownership_table) (now : Z)
    (fault : option fence_fault) (ctx : go_context) (w : tx_world S) :
    tx_world S * res (go_context * begun S) :=
  match ctx with
  | None =>
      (w, match fault with
          | Some (BeginFailed err) => Err err
          | _ => Ok (ctx, PlainTx)
          end)
  | Some e =>
      let bad := match exe_authority e with
                 | None => true
                 | Some a => negb (bool_decide (auth_pool a = pool)) || Z.ltb (auth_max_conns a) 2
                 end in
      if bad then
        (w, Err (Errorf "fenced transaction requires its owning pool with at least two connections"))
      else
      match exe_guarded e, fault with
      | false, Some (SlotCancelled err) => (w, Err err)
      | _, _ =>
          let '(release, w1) :=
            if exe_guarded e then (NoRelease, w)
            else (Once false, mkWorld (tw_db w) (tw_slots w + 1)) in
          match fault with
          | Some (BeginFailed err) => ((run_release release w1).2, Err err)
          | _ =>
              let t := mkFenced (tw_db w1) (exe_token e) release false in
              let query := match fault with Some (QueryFailed err) => Some err | _ => None end in
              match validate tbl now query (exe_token e) with
              | Some err => ((Rollback None t w1).1.2, Err err)
              | None => (w1, Ok (Some (mkExecution (exe_token e) (exe_authority e) true),
                                 FencedTx t))
              end
          end
      end
  end.

(** A call on an open transaction: a business write, or one of its ends. *)
Inductive tx_call (S : Type) :=
| CallExec (f : S -> S)
| CallCommit (tbl : ownership_table) (now : Z) (query : option error)
    (commit : option (error * bool))
| CallRollback (fault : option error).
Arguments CallExec {S} f.
Arguments CallCommit {S} tbl now query commit.
Arguments CallRollback {S} fault.

Definition run_call {S} (c : tx_call S) (tw : fencedTransaction S * tx_world S) :
    fencedTransaction S * tx_world S :=
  let '(t, w) := tw in
  match c with
  | CallExec f =>
      if ft_closed t then (t, w)
      else (mkFenced (f (ft_pending t)) (ft_token t) (ft_release t) (ft_closed t), w)
  | CallCommit tbl now q cm => (Commit tbl now q cm t w).1
  | CallRollback f => (Rollback f t w).1
  end.

Fixpoint run_calls {S} (cs : list (tx_call S)) (tw : fencedTransaction S * tx_world S) :
    fencedTransaction S * tx_world S :=
  match cs with [] => tw | c :: cs' => run_calls cs' (run_call c tw) end.

(** ** The process-wide guards *)

(** Where a thread is: outside, holding one slot of [Begin], collecting the
    slots of [BeginMutation], inside the mutation, or giving back what it
    took (after the mutation or when the wait was cancelled). *)
Inductive guard_pc :=
| Outside
| Guarding
| Collecting (taken : nat)
| Mutating
| Releasing (left : nat).

#[global] Instance guard_pc_eq_dec : EqDecision guard_pc.
Proof. solve_decision. Defined.

Record guards := mkGuards {
  g_slots : nat;          (* elements in the channel [slots] *)
  g_mutation : nat;       (* elements in the channel [mutations] (capacity 1) *)
  g_threads : list guard_pc;
}.

Section guards.
Context (cap : nat).   (* cap(a.slots) *)

Definition slots_held (pc : guard_pc) : nat :=
  match pc with
  | Outside => 0 | Guarding => 1 | Collecting k | Releasing k => k | Mutating => cap
  end.

Definition mutation_held (pc : guard_pc) : nat :=
  match pc with Collecting _ | Mutating | Releasing _ => 1 | _ => 0 end.

(** One atomic channel operation of one thread.  A send blocks while its
    channel is full: the step does not exist. *)
Inductive guard_step : guards -> guards -> Prop :=
| step_guard s m ts i : ts !! i = Some Outside -> (s < cap)%nat ->
    guard_step (mkGuards s m ts) (mkGuards (S s) m (<[i := Guarding]> ts))
| step_unguard s m ts i : ts !! i = Some Guarding -> (0 < s)%nat ->
    guard_step (mkGuards s m ts) (mkGuards (s - 1) m (<[i := Outside]> ts))
| step_mutation s m ts i : ts !! i = Some Outside -> (m < 1)%nat ->
    guard_step (mkGuards s m ts) (mkGuards s (S m) (<[i := Collecting 0]> ts))
| step_take s m ts i k : ts !! i = Some (Collecting k) -> (k < cap)%nat -> (s < cap)%nat ->
    guard_step (mkGuards s m ts) (mkGuards (S s) m (<[i := Collecting (S k)]> ts))
| step_enter s m ts i : ts !! i = Some (Collecting cap) ->
    guard_step (mkGuards s m ts) (mkGuards s m (<[i := Mutating]> ts))
| step_cancel s m ts i k : ts !! i = Some (Collecting k) -> (k < cap)%nat ->
    guard_step (mkGuards s m ts) (mkGuards s m (<[i := Releasing k]> ts))
| step_leave s m ts i : ts !! i = Some Mutating ->
    guard_step (mkGuards s m ts) (mkGuards s m (<[i := Releasing cap]> ts))
| step_give s m ts i k : ts !! i = Some (Releasing (S k)) -> (0 < s)%nat ->
    guard_step (mkGuards s m ts) (mkGuards (s - 1) m (<[i := Releasing k]> ts))
| step_done s m ts i : ts !! i = Some (Releasing 0) -> (0 < m)%nat ->
    guard_step (mkGuards s m ts) (mkGuards s (m - 1) (<[i := Outside]> ts)).

Inductive guard_reachable (n : nat) : guards -> Prop :=
| guard_init : guard_reachable n (mkGuards 0 0 (replicate n Outside))
| guard_next g g' : guard_reachable n g -> guard_step g g' -> guard_reachable n g'.

(** The channels hold exactly what the threads put in. *)
Definition guards_ok (g : guards) : Prop :=
  g_slots g = sum_list_with slots_held (g_threads g)
  /\ g_mutation g = sum_list_with mutation_held (g_threads g)
  /\ (g_slots g <= cap)%nat /\ (g_mutation g <= 1)%nat
  /\ forall i pc, g_threads g !! i = Some pc -> (slots_held pc <= cap)%nat.
End guards.

Lemma sum_insert {A} (f : A -> nat) (l : list A) i x y :
  l !! i = Some y ->
  (sum_list_with f (<[i := x]> l) + f y = sum_list_with f l + f x)%nat.
Proof.
  revert i. induction l as [|z l IH]; intros [|i] H; simplify_eq/=; [lia|].
  specialize (IH _ H). lia.
Qed.

Lemma sum_lookup {A} (f : A -> nat) (l : list A) i x :
  l !! i = Some x -> (f x <= sum_list_with f l)%nat.
Proof. revert i. induction l as [|z l IH]; intros [|i] H; simplify_eq/=; [lia|].
  specialize (IH _ H). lia. Qed.

Lemma sum_lookup_two {A} (f : A -> nat) (l : list A) i j x y :
  i <> j -> l !! i = Some x -> l !! j = Some y -> (f x + f y <= sum_list_with f l)%nat.
Proof.
  revert i j. induction l as [|z l IH]; intros [|i] [|j] Hij Hi Hj; simplify_eq/=; try lia.
  - pose proof (sum_lookup f l j y Hj). lia.
  - pose proof (sum_lookup f l i x Hi). lia.
  - assert (i <> j) by lia. specialize (IH i j). naive_solver lia.
Qed.

Lemma sum_zero {A} (f : A -> nat) (l : list A) :
  (forall i x, l !! i = Some x -> f x = 0%nat) -> sum_list_with f l = 0%nat.
Proof.
  induction l as [|z l IH]; [done|]. intros H. simpl.
  rewrite (H 0%nat z eq_refl) IH; [intros i x Hi; by apply (H (S i) x)|done].
Qed.

(** ** The guards are a writer-preference lock *)

Section guard_proofs.
Context (cap : nat).

Lemma guards_ok_init n : guards_ok cap (mkGuards 0 0 (replicate n Outside)).
Proof.
  assert (H : forall i pc, replicate n Outside !! i = Some pc -> pc = Outside)
    by (intros i pc H; by apply lookup_replicate in H as [-> _]).
  split_and!; simpl; try lia.
  - symmetry. apply sum_zero. intros i pc Hi. by rewrite (H _ _ Hi).
  - symmetry. apply sum_zero. intros i pc Hi. by rewrite (H _ _ Hi).
  - intros i pc Hi. rewrite (H _ _ Hi). simpl. lia.
Qed.

Lemma guards_ok_update g s m i x y :
  guards_ok cap g -> g_threads g !! i = Some y ->
  (s + slots_held cap y = g_slots g + slots_held cap x)%nat ->
  (m + mutation_held y = g_mutation g + mutation_held x)%nat ->
  (s <= cap)%nat -> (m <= 1)%nat -> (slots_held cap x <= cap)%nat ->
  guards_ok cap (mkGuards s m (<[i := x]> (g_threads g))).
Proof.
  destruct g as [s0 m0 ts]; simpl. intros (Hs & Hm & _ & _ & Hb) Hi E1 E2 L1 L2 L3.
  simpl in *.
  pose proof (sum_insert (slots_held cap) ts i x y Hi).
  pose proof (sum_insert mutation_held ts i x y Hi).
  split_and!; simpl; try lia. intros j pc Hj.
  apply list_lookup_insert_Some in Hj as [(<- & <- & _)|(_ & Hj)]; [done|].
  by apply (Hb j).
Qed.

Lemma guards_ok_step g g' : guards_ok cap g -> guard_step cap g g' -> guards_ok cap g'.
Proof.
  intros Hok Hst. pose proof Hok as (_ & _ & Ls & Lm & Hb).
  destruct Hst as [s m ts i Hi|s m ts i Hi|s m ts i Hi|s m ts i k Hi|s m ts i Hi
                  |s m ts i k Hi|s m ts i Hi|s m ts i k Hi|s m ts i Hi]; simpl in *;
    pose proof (Hb _ _ Hi) as Hbi; simpl in Hbi;
    match goal with H : guards_ok _ ?g0 |- guards_ok _ (mkGuards ?s1 ?m1 (<[i:=?x1]> _)) =>
      eapply (guards_ok_update g0 s1 m1 i x1 _ Hok Hi) end; simpl; lia.
Qed.

Lemma guards_ok_reachable n g : guard_reachable cap n g -> guards_ok cap g.
Proof. induction 1; [apply guards_ok_init|eauto using guards_ok_step]. Qed.

(** A thread in the middle of an operation, the waits included. *)
Definition busy (g : guards) (i : nat) : Prop :=
  exists pc, g_threads g !! i = Some pc /\ pc <> Outside.

Lemma guards_free_slot g i k :
  guards_ok cap g -> g_threads g !! i = Some (Collecting k) -> (k < cap)%nat ->
  (forall j, g_threads g !! j <> Some Guarding) -> (g_slots g < cap)%nat.
Proof.
  intros (Hs & Hm & _ & Lm & _) Hi Hk Hno.
  assert (g_slots g = k); [|lia]. rewrite Hs.
  pose proof (sum_insert (slots_held cap) (g_threads g) i Outside _ Hi) as Hsum.
  simpl in Hsum. rewrite (sum_zero _ (<[i:=Outside]> _)) in Hsum; [|lia].
  intros j pc Hj. apply list_lookup_insert_Some in Hj as [(_ & <- & _)|(Hij & Hj)]; [done|].
  destruct pc; try done; [by apply Hno in Hj|..];
    pose proof (sum_lookup_two mutation_held _ i j _ _ Hij Hi Hj); simpl in *; lia.
Qed.
End guard_proofs.

Section transaction_proofs.
Context {S : Type}.
Implicit Types (t : fencedTransaction S) (w : tx_world S) (cs : list (tx_call S)).

Lemma run_calls_closed cs t w : ft_closed t = true -> run_calls cs (t, w) = (t, w).
Proof.
  intros H. induction cs as [|[] cs IH]; simpl; [done|..]; unfold Commit, Rollback;
    by rewrite H.
Qed.

(** The slots of the world while a transaction with this release runs. *)
Definition held (r : release_fn) : nat := match r with Once false => 1 | _ => 0 end.

Lemma ft_close_spec t w :
  (held (ft_release t) <= tw_slots w)%nat ->
  exists t' w', ft_close t w = (t', w') /\ ft_closed t' = true /\ tw_db w' = tw_db w
    /\ tw_slots w' = (tw_slots w - held (ft_release t))%nat.
Proof.
  intros H. unfold ft_close. destruct (ft_release t) as [|[]]; simpl in *;
    eexists _, _; split_and!; try done; simpl; lia.
Qed.

Definition published (cs : list (tx_call S)) (tok : Token) (before pend after : S) : Prop :=
  after = before
  \/ exists fs tbl now q cm rest,
       cs = (CallExec <$> fs) ++ CallCommit tbl now q cm :: rest
       /\ fence_valid tbl now tok = true
       /\ after = foldl (fun s f => f s) pend fs.

Lemma validate_None tbl now q (tok : Token) :
  validate tbl now q tok = None -> fence_valid tbl now tok = true.
Proof. unfold validate. destruct q, (fence_valid tbl now tok); naive_solver. Qed.

Lemma run_calls_open cs t w t' w' :
  ft_closed t = false -> (held (ft_release t) <= tw_slots w)%nat ->
  run_calls cs (t, w) = (t', w') ->
  published cs (ft_token t) (tw_db w) (ft_pending t) (tw_db w')
  /\ tw_slots w' = (tw_slots w - if ft_closed t' then held (ft_release t) else 0)%nat.
Proof.
  revert t w. induction cs as [|c cs IH]; intros t w Hopen Hheld Hrun; simpl in Hrun.
  { simplify_eq. rewrite Hopen. split; [by left|lia]. }
  destruct (ft_close_spec t w Hheld) as (t1 & w1 & Hc & Hcl & Hdb & Hsl).
  destruct c as [f|tbl now q cm|fault]; simpl in Hrun.
  - rewrite Hopen in Hrun. apply IH in Hrun as [Hp Hs]; [|done|done]. split; [|done].
    destruct Hp as [Hp|(fs & tbl & now & q & cm & rest & -> & Hv & Hp)]; [by left|].
    right. exists (f :: fs), tbl, now, q, cm, rest. done.
  - unfold Commit, Rollback in Hrun. rewrite Hopen in Hrun.
    destruct (validate tbl now q (ft_token t)) as [err|] eqn:Hv.
    { simpl in Hrun. rewrite Hc run_calls_closed in Hrun; [done|].
      simplify_eq. rewrite Hcl. split; [by left|done]. }
    destruct (ft_close_spec t (mkWorld (ft_pending t) (tw_slots w)) Hheld)
      as (t2 & w2 & Hc2 & Hcl2 & Hdb2 & Hsl2).
    destruct (match cm with None => true | Some (_, b) => b end); simpl in Hrun.
    + rewrite Hc2 run_calls_closed in Hrun; [done|]. simplify_eq. rewrite Hcl2.
      split; [|done]. right. exists [], tbl, now, q, cm, cs.
      split_and!; [done|exact (validate_None _ _ _ _ Hv)|done].
    + rewrite Hc run_calls_closed in Hrun; [done|]. simplify_eq. rewrite Hcl.
      split; [by left|done].
  - unfold Rollback in Hrun. rewrite Hopen /= Hc run_calls_closed in Hrun; [done|].
    simplify_eq. rewrite Hcl. split; [by left|done].
Qed.
End transaction_proofs.

(** C38: mutual exclusion and absence of deadlock of the guards.  In every
    state reachable by interleaving the channel operations of any number of
    threads, (1) while a thread is inside a mutation, every other thread is
    outside; (2) the channels are never over capacity; (3) whenever some
    thread is in the middle of an operation, a busy thread can take its next
    step without any wait being cancelled. *)
Theorem guards_exclusive_and_live (cap n : nat) (g : guards) :
  (0 < cap)%nat -> guard_reachable cap n g ->
  (forall i j pc, g_threads g !! i = Some Mutating -> g_threads g !! j = Some pc ->
     i <> j -> pc = Outside)
  /\ (g_slots g <= cap)%nat /\ (g_mutation g <= 1)%nat
  /\ (forall i, busy g i ->
       exists j pc pc' s m, g_threads g !! j = Some pc /\ pc <> Outside
         /\ (forall k, pc = Collecting k -> pc' <> Releasing k)
         /\ guard_step cap g (mkGuards s m (<[j := pc']> (g_threads g)))).
Proof.
  intros Hcap Hr. pose proof (guards_ok_reachable _ _ _ Hr) as Hok.
  pose proof Hok as (Hs & Hm & Ls & Lm & Hb). split_and!; [|done|done|].
  - intros i j pc Hi Hj Hij.
    pose proof (sum_lookup_two (slots_held cap) _ _ _ _ _ Hij Hi Hj).
    pose proof (sum_lookup_two mutation_held _ _ _ _ _ Hij Hi Hj).
    destruct pc; simpl in *; try done; lia.
  - intros i (pc & Hi & Hpc). destruct g as [s m ts]; simpl in *.
    destruct (decide (Guarding ∈ ts)) as [(j & Hj)%list_elem_of_lookup|Hno].
    { exists j, Guarding, Outside, (s - 1)%nat, m. split_and!; try done.
      pose proof (sum_lookup (slots_held cap) _ _ _ Hj). simpl in *.
      apply step_unguard; [done|lia]. }
    assert (Hng : forall j, ts !! j <> Some Guarding)
      by (intros j Hj; apply Hno; exact (list_elem_of_lookup_2 _ _ _ Hj)).
    pose proof (Hb _ _ Hi) as Hbi.
    pose proof (sum_lookup mutation_held _ _ _ Hi) as Hmi.
    pose proof (sum_lookup (slots_held cap) _ _ _ Hi) as Hsi.
    destruct pc as [| |k| |[|k]]; simpl in *; try done.
    + by apply Hng in Hi.
    + destruct (decide (k = cap)) as [->|].
      * exists i, (Collecting cap), Mutating, s, m. split_and!; try done. by apply step_enter.
      * exists i, (Collecting k), (Collecting (S k)), (S s), m. split_and!; try done.
        apply step_take; [done|lia|].
        apply (guards_free_slot cap (mkGuards s m ts) i k); [done|done|lia|done].
    + exists i, Mutating, (Releasing cap), s, m. split_and!; try done. by apply step_leave.
    + exists i, (Releasing 0), Outside, s, (m - 1)%nat. split_and!; try done.
      apply step_done; [done|lia].
    + exists i, (Releasing (S k)), (Releasing k), (s - 1)%nat, m. split_and!; try done.
      apply step_give; [done|lia].
Qed.

Lemma guards_exclusive_and_live_witness :
  exists g, g = mkGuards 1 1 [Collecting 1; Outside]
    /\ ((forall i j pc, g_threads g !! i = Some Mutating -> g_threads g !! j = Some pc ->
     i <> j -> pc = Outside)
  /\ (g_slots g <= 2)%nat /\ (g_mutation g <= 1)%nat
  /\ (forall i, busy g i ->
       exists j pc pc' s m, g_threads g !! j = Some pc /\ pc <> Outside
         /\ (forall k, pc = Collecting k -> pc' <> Releasing k)
         /\ guard_step 2 g (mkGuards s m (<[j := pc']> (g_threads g))))).
Proof.
  eexists. split; [reflexivity|]. apply (guards_exclusive_and_live 2 2); [lia|].
  eapply guard_next;
    [eapply guard_next; [apply guard_init|apply (step_mutation 2 0 0 _ 0); [reflexivity|lia]]|].
  apply (step_take 2 0 1 [Collecting 0; Outside] 0 0); [reflexivity|lia|lia].
Defined.

(** C3: a fenced transaction is all-or-nothing and its write is fenced at
    commit time.  Whatever sequence of writes, commits and rollbacks is made
    on a transaction that [BeginTransaction] opened for an owned context, the
    database is unchanged or holds exactly the writes made before one commit
    at which the fencing row still carried the token; and the guard slot is
    given back exactly once, when the transaction ends. *)
Theorem fenced_transaction_atomic {S : Type} (pool : nat) (tbl : ownership_table) (now : Z)
    (fault : option fence_fault) (e : execution) (ctx' : go_context)
    (w w1 w' : tx_world S) (t t' : fencedTransaction S) (cs : list (tx_call S)) :
  BeginTransaction pool tbl now fault (Some e) w = (w1, Ok (ctx', FencedTx t)) ->
  run_calls cs (t, w1) = (t', w') ->
  fence_valid tbl now (exe_token e) = true
  /\ published cs (exe_token e) (tw_db w) (tw_db w) (tw_db w')
  /\ tw_slots w' = (tw_slots w + if ft_closed t' || exe_guarded e then 0 else 1)%nat.
Proof.
  unfold BeginTransaction. intros Hb Hrun.
  destruct (match exe_authority e with None => true | Some _ => _ end); [done|].
  destruct (exe_guarded e) eqn:Hg, fault as [[]|]; simpl in Hb; try done;
    destruct (fence_valid tbl now (exe_token e)) eqn:Hv; simplify_eq/=;
    (apply run_calls_open in Hrun as [Hp Hs]; [|done|simpl; lia]);
    (split_and!; [done|done|]); rewrite Hs; destruct (ft_closed t'); simpl; lia.
Qed.

(** A stale worker: its lease was taken over between begin and commit. *)
Definition tok_ex : Token := mkToken "s" "r1" "lease:s:r1:o1" 4.
Definition row_ex (lease run : string) (epoch : Z) : OwnershipRow :=
  mkOwnership lease run "o1" epoch 0 100.

Lemma fenced_transaction_atomic_witness :
  exists w1 ctx' t,
    BeginTransaction 7 {[ "s" := row_ex "lease:s:r1:o1" "r1" 4 ]} 10 None
      (WithToken (Some (mkAuthority 7 2)) tok_ex) (mkWorld 0 0) = (w1, Ok (ctx', FencedTx t))
    /\ let cs := [CallExec Z.succ; CallCommit {[ "s" := row_ex "lease:s:r2:o2" "r2" 5 ]} 50 None None] in
       (run_calls cs (t, w1)).2 = mkWorld 0 0
       /\ published cs tok_ex 0 0 (tw_db (run_calls cs (t, w1)).2).
Proof.
  eexists _, _, _. split; [vm_compute; reflexivity|]. split; [vm_compute; reflexivity|].
  eapply (fenced_transaction_atomic 7 {[ "s" := row_ex "lease:s:r1:o1" "r1" 4 ]} 10 None
    (mkExecution tok_ex (Some (mkAuthority 7 2)) false) _ (mkWorld 0 0) _ _ _ _ _);
    [vm_compute; reflexivity|apply surjective_pairing].
Defined.
