(* ===== verification/Lease.v ===== *)
(** * Lease: session leases, the RPC handlers and the durable manager

    [session/lease.go] (records, validation, the three lease handlers of the
    session server, the error mapping), [session/lease_postgres.go] and
    [session/control.go] (the manager on table [session_ownership]).  The
    handlers are written against the class [LeaseManager], the Go interface
    of the same name; [LeaseManagerLaws] states what the server relies on. *)
From stdpp Require Import pretty.
From S2P Require Import Prelude GoStrings GoTime Ownership.
Open Scope Z_scope.
Open Scope go_scope.

(** ** Records and parameters *)

Definition ErrLeaseConflict : error :=
  ErrNew "session.ErrLeaseConflict" "session lease already held".
Definition ErrLeaseNotFound : error :=
  ErrNew "session.ErrLeaseNotFound" "lease not found".

Record LeaseRecord := mkLease {
  lr_fence_epoch : Z;
  lr_lease_id : string;
  lr_session_key : string;
  lr_run_id : string;
  lr_owner_id : string;
  lr_ttl_seconds : Z;
  lr_acquired_at : Z;
  lr_expires_at : Z;
}.

#[global] Instance LeaseRecord_eq_dec : EqDecision LeaseRecord.
Proof. solve_decision. Defined.

Record AcquireLeaseParams := mkAcquire {
  ap_session_key : string;
  ap_run_id : string;
  ap_owner_id : string;
  ap_ttl : Z;
}.

(** [time.Duration.Milliseconds]. *)
Definition Milliseconds (d : Z) : Z := go_div d millisecond.

Definition validateAcquireLeaseParams (p : AcquireLeaseParams) : res unit :=
  fail_when bool_decide (TrimSpace (ap_session_key p) = "") with
    Errorf "session_key is required" ;;
  fail_when bool_decide (TrimSpace (ap_run_id p) = "") with Errorf "run_id is required" ;;
  fail_when bool_decide (TrimSpace (ap_owner_id p) = "") with Errorf "owner_id is required" ;;
  fail_when Z.leb (ap_ttl p) 0 with Errorf "ttl must be greater than zero" ;;
  Ok tt.

Definition buildLeaseID (sessionKey runID ownerID : string) : string :=
  Join [TrimSpace sessionKey; TrimSpace runID; TrimSpace ownerID] ":".

Definition leaseErrorToStatus (e : error) : error :=
  if errors_is e ErrLeaseConflict then ErrStatus FailedPrecondition (error_text e)
  else if errors_is e ErrLeaseNotFound then ErrStatus NotFound (error_text e)
  else if Contains (error_text e) "is required" || Contains (error_text e) "greater than zero"
  then ErrStatus InvalidArgument (error_text e)
  else ErrStatus Internal (error_text e).

(** ** The interface and the handlers *)

(** [LeaseManager]: an operation reads the environment (clocks, random
    bytes, faults of the store) and the shared state. *)
Class LeaseManager (Env St : Type) := {
  lm_AcquireLease : Env -> AcquireLeaseParams -> St -> St * res LeaseRecord;
  lm_RenewLease : Env -> string -> Z -> St -> St * res LeaseRecord;
  lm_ReleaseLease : Env -> string -> St -> St * res bool;
}.

(** The wire form of a lease. *)
Record Lease_pb := mkLeasePb {
  lp_lease_id : string;
  lp_session_key : string;
  lp_run_id : string;
  lp_owner_id : string;
  lp_ttl_seconds : Z;
  lp_acquired_at : string;
  lp_expires_at : string;
  lp_fence_epoch : Z;
}.

Definition leaseToProto (r : LeaseRecord) : Lease_pb :=
  mkLeasePb (lr_lease_id r) (lr_session_key r) (lr_run_id r) (lr_owner_id r)
    (lr_ttl_seconds r) (format_rfc3339 (lr_acquired_at r)) (format_rfc3339 (lr_expires_at r))
    (lr_fence_epoch r).

Record AcquireLeaseRequest := mkAcquireReq {
  aq_session_key : string; aq_run_id : string; aq_owner_id : string; aq_ttl_seconds : Z }.

Section handlers.
Context {Env St : Type} `{LM : LeaseManager Env St}.

(** The fields of [Server] the lease handlers read. *)
Record LeaseServer := mkLeaseServer {
  ls_leases : option unit;        (* [s.leases == nil] is [None] *)
  ls_defaultLeaseTTL : Z;
}.

Definition no_manager : error :=
  ErrStatus Unimplemented "lease manager is not configured".

(** [time.Duration(seconds) * time.Second] wraps at 64 bits. *)
Definition request_ttl (s : LeaseServer) (seconds : Z) : Z :=
  let ttl := wrap64 (seconds * second) in
  if Z.leb ttl 0 then ls_defaultLeaseTTL s else ttl.

Definition lease_response {A B} (f : A -> B) (r : res A) : res B :=
  match r with Ok a => Ok (f a) | Err e => Err (leaseErrorToStatus e) end.

Definition Server_AcquireLease (s : LeaseServer) (env : Env) (req : AcquireLeaseRequest)
    (st : St) : St * res Lease_pb :=
  match ls_leases s with
  | None => (st, Err no_manager)
  | Some _ =>
      let '(st', r) := lm_AcquireLease env
        (mkAcquire (TrimSpace (aq_session_key req)) (TrimSpace (aq_run_id req))
           (TrimSpace (aq_owner_id req)) (request_ttl s (aq_ttl_seconds req))) st in
      (st', lease_response leaseToProto r)
  end.

Definition Server_RenewLease (s : LeaseServer) (env : Env) (lease_id : string)
    (ttl_seconds : Z) (st : St) : St * res Lease_pb :=
  match ls_leases s with
  | None => (st, Err no_manager)
  | Some _ =>
      let '(st', r) := lm_RenewLease env lease_id (request_ttl s ttl_seconds) st in
      (st', lease_response leaseToProto r)
  end.

Definition Server_ReleaseLease (s : LeaseServer) (env : Env) (lease_id : string)
    (st : St) : St * res bool :=
  match ls_leases s with
  | None => (st, Err no_manager)
  | Some _ =>
      let '(st', r) := lm_ReleaseLease env lease_id st in
      (st', lease_response (fun b => b) r)
  end.
End handlers.

(** What the server and the workers rely on.  [lm_decided env] is the instant
    at which a call tests the current holder, [lm_stamped env] the instant
    from which it counts a new lease; [lm_holder t st s] is the run and owner
    that hold session [s] at [t]; [lm_inv] is the invariant of the store and
    [lm_ready] the range of clocks and durations it supports. *)
Class LeaseManagerLaws (Env St : Type) {LM : LeaseManager Env St} := {
  lm_inv : St -> Prop;
  lm_faultless : Env -> Prop;
  lm_ready : Env -> AcquireLeaseParams -> Prop;
  lm_decided : Env -> Z;
  lm_stamped : Env -> Z;
  lm_holder : Z -> St -> string -> option (string * string);
  (** A second holder is refused and nothing changes. *)
  lm_conflict env p st h :
    lm_inv st -> lm_ready env p -> lm_faultless env -> validateAcquireLeaseParams p = Ok tt ->
    lm_holder (lm_decided env) st (ap_session_key p) = Some h ->
    h <> (ap_run_id p, ap_owner_id p) ->
    lm_AcquireLease env p st = (st, Err ErrLeaseConflict);
  (** A granted lease makes its caller the holder, of that session only. *)
  lm_granted env p st st' r :
    lm_inv st -> lm_ready env p -> 0 < Milliseconds (ap_ttl p) -> lm_AcquireLease env p st = (st', Ok r) ->
    lm_holder (lm_stamped env) st' (ap_session_key p) = Some (ap_run_id p, ap_owner_id p)
    /\ lr_session_key r = ap_session_key p /\ lr_run_id r = ap_run_id p
    /\ lr_owner_id r = ap_owner_id p
    /\ (forall t s, s <> ap_session_key p -> lm_holder t st' s = lm_holder t st s);
}.

(** ** The durable manager *)

(** Errors of the surroundings: waiting for the guards, the random source,
    the query. *)
Inductive lease_fault :=
| LeaseWait (e : error)
| LeaseRand (e : error)
| LeaseQuery (e : error).

(** What one call reads besides the table: the sessions (foreign key), the
    successive readings of [clock_timestamp()] inside its statement, sixteen
    random bytes in hexadecimal, and a fault. *)
Record pg_env := mkPgEnv {
  pe_sessions : gset string;
  pe_clock : nat -> Z;
  pe_random : string;
  pe_fault : option lease_fault;
}.

(** Rows whose lease identifier is [id] and that satisfy [cond], in some
    order. *)
Definition lease_rows (id : string) (cond : OwnershipRow -> bool) (tbl : ownership_table) :
    list (string * OwnershipRow) :=
  filter (fun kr => own_lease_id kr.2 = id /\ cond kr.2 = true) (map_to_list tbl).

(** [scanDurableLease]. *)
Definition scanDurableLease (key : string) (r : OwnershipRow) : LeaseRecord :=
  mkLease (own_fence_epoch r) (own_lease_id r) key (own_run_id r) (own_owner_id r)
    (go_div (Sub (own_expires_at r) (own_acquired_at r)) second)
    (own_acquired_at r) (own_expires_at r).

Definition err_bigint : error := Errorf "bigint out of range".
Definition err_unique : error := Errorf "duplicate key value violates unique constraint".
Definition err_fk : error := Errorf "insert violates foreign key constraint".

Definition pg_AcquireLease (env : pg_env) (p : AcquireLeaseParams) (tbl : ownership_table) :
    ownership_table * res LeaseRecord :=
  match validateAcquireLeaseParams p with
  | Err e => (tbl, Err e)
  | Ok _ =>
  match pe_fault env with
  | Some (LeaseWait e) | Some (LeaseRand e) => (tbl, Err e)
  | Some (LeaseQuery e) => (tbl, Err (ErrWrap "acquire durable lease: " e))
  | None =>
      let id := "lease-" +:+ pe_random env in
      let expires := pe_clock env 1 + Milliseconds (ap_ttl p) * millisecond in
      let key := ap_session_key p in
      let put row :=
        if bool_decide (filter (fun kr => kr.1 <> key)
             (lease_rows id (fun _ => true) tbl) = [])
        then (<[key := row]> tbl, Ok (scanDurableLease key row))
        else (tbl, Err (ErrWrap "acquire durable lease: " err_unique)) in
      match tbl !! key with
      | None =>
          if bool_decide (key ∈ pe_sessions env)
          then put (mkOwnership id (ap_run_id p) (ap_owner_id p) 1 (pe_clock env 0) expires)
          else (tbl, Err (ErrWrap "acquire durable lease: " err_fk))
      | Some old =>
          if Z.leb (own_expires_at old) (pe_clock env 2) || bool_decide (own_lease_id old = "")
          then
            if Z.ltb (own_fence_epoch old) max_int64
            then put (mkOwnership id (ap_run_id p) (ap_owner_id p) (own_fence_epoch old + 1)
                        (pe_clock env 3) expires)
            else (tbl, Err (ErrWrap "acquire durable lease: " err_bigint))
          else (tbl, Err ErrLeaseConflict)
      end
  end end.

(** [UPDATE session_ownership SET .. WHERE lease_id=id AND cond]. *)
Definition update_lease (id : string) (cond : OwnershipRow -> bool)
    (f : OwnershipRow -> OwnershipRow) (tbl : ownership_table) : ownership_table :=
  (fun r => if bool_decide (own_lease_id r = id) && cond r then f r else r) <$> tbl.

Definition set_expires (t : Z) (r : OwnershipRow) : OwnershipRow :=
  mkOwnership (own_lease_id r) (own_run_id r) (own_owner_id r) (own_fence_epoch r)
    (own_acquired_at r) t.

Definition pg_RenewLease (env : pg_env) (id : string) (ttl : Z) (tbl : ownership_table) :
    ownership_table * res LeaseRecord :=
  if bool_decide (id = "") || Z.leb ttl 0
  then (tbl, Err (Errorf "lease_id and positive ttl required")) else
  match pe_fault env with
  | Some (LeaseWait e) | Some (LeaseRand e) | Some (LeaseQuery e) => (tbl, Err e)
  | None =>
      let alive r := Z.ltb (pe_clock env 0) (own_expires_at r) in
      let f := set_expires (pe_clock env 1 + Milliseconds ttl * millisecond) in
      match lease_rows id alive tbl with
      | [] => (tbl, Err ErrLeaseNotFound)
      | kr :: _ => (update_lease id alive f tbl, Ok (scanDurableLease kr.1 (f kr.2)))
      end
  end.

(** [lease_id='', expires_at=clock_timestamp()]. *)
Definition clear_lease (t : Z) (r : OwnershipRow) : OwnershipRow :=
  mkOwnership "" (own_run_id r) (own_owner_id r) (own_fence_epoch r) (own_acquired_at r) t.

Definition pg_ReleaseLease (env : pg_env) (id : string) (tbl : ownership_table) :
    ownership_table * res bool :=
  match pe_fault env with
  | Some (LeaseWait e) | Some (LeaseRand e) | Some (LeaseQuery e) => (tbl, Err e)
  | None =>
      (update_lease id (fun _ => true) (clear_lease (pe_clock env 0)) tbl,
       Ok (Nat.eqb (length (lease_rows id (fun _ => true) tbl)) 1))
  end.

(** [leaseObservationError]: the text never shows the cause. *)
Definition leaseObservationError (phase : string) (cause : error) : error :=
  ErrOpaque "lease observation failed" (ErrWrap (phase +:+ ": ") cause).

Definition pg_GetLease (env : pg_env) (id : string) (tbl : ownership_table) : res LeaseRecord :=
  match pe_fault env with
  | Some (LeaseWait e) => Err (leaseObservationError "pool_acquire" e)
  | Some (LeaseRand e) | Some (LeaseQuery e) => Err (leaseObservationError "query" e)
  | None =>
      match lease_rows id (fun r => Z.ltb (pe_clock env 0) (own_expires_at r)) tbl with
      | [] => Err ErrLeaseNotFound
      | kr :: _ => Ok (scanDurableLease kr.1 kr.2)
      end
  end.

Definition pg_ValidateLease (env : pg_env) (id runID : string) (epoch : Z)
    (tbl : ownership_table) : res LeaseRecord :=
  r <-! pg_GetLease env id tbl ;;
  fail_when negb (bool_decide (lr_run_id r = runID)) || negb (Z.eqb (lr_fence_epoch r) epoch)
    with ErrStale ;;
  Ok r.

(** [RevokeForControlTx]: [task_of] is column [task_id] of table [runs]. *)
Definition revoked (task_of : gmap string string) (taskIDs : list string)
    (r : OwnershipRow) : bool :=
  match task_of !! own_run_id r with
  | Some t => bool_decide (t ∈ taskIDs)
  | None => false
  end.

Definition revoke_row (now : Z) (r : OwnershipRow) : OwnershipRow :=
  mkOwnership "" (own_run_id r) (own_owner_id r) (own_fence_epoch r + 1) (own_acquired_at r) now.

Definition RevokeForControlTx (fault : option error) (task_of : gmap string string)
    (taskIDs : list string) (now : Z) (tbl : ownership_table) : res ownership_table :=
  match fault with
  | Some e => Err e
  | None =>
      if forallb (fun kr => negb (revoked task_of taskIDs kr.2)
                            || Z.ltb (own_fence_epoch kr.2) max_int64) (map_to_list tbl)
      then Ok ((fun r => if revoked task_of taskIDs r then revoke_row now r else r) <$> tbl)
      else Err err_bigint
  end.

(** [INSERT INTO session_ownership(session_key) .. ON CONFLICT DO NOTHING],
    with the column defaults. *)
Definition ensure_ownership_row (key : string) (now : Z) (tbl : ownership_table) : ownership_table :=
  match tbl !! key with
  | Some _ => tbl
  | None => <[key := mkOwnership "" "" "" 0 now now]> tbl
  end.

#[global] Instance PostgresLeaseManager : LeaseManager pg_env ownership_table := {
  lm_AcquireLease := pg_AcquireLease;
  lm_RenewLease := pg_RenewLease;
  lm_ReleaseLease := pg_ReleaseLease;
}.

(** ** Lemmas on the statements *)

Definition clock_mono (env : pg_env) : Prop :=
  forall i j, (i <= j)%nat -> pe_clock env i <= pe_clock env j.

Lemma update_lease_lookup id cond f tbl k :
  update_lease id cond f tbl !! k =
  (fun r => if bool_decide (own_lease_id r = id) && cond r then f r else r) <$> tbl !! k.
Proof. unfold update_lease. by rewrite lookup_fmap. Qed.

Lemma validate_acquire_ok p : validateAcquireLeaseParams p = Ok tt <->
  TrimSpace (ap_session_key p) <> "" /\ TrimSpace (ap_run_id p) <> ""
  /\ TrimSpace (ap_owner_id p) <> "" /\ 0 < ap_ttl p.
Proof.
  unfold validateAcquireLeaseParams. rewrite !fail_if_Ok !bool_decide_eq_false Z.leb_gt.
  naive_solver.
Qed.

(** The only ways [AcquireLease] changes the table. *)
Lemma pg_acquire_inv env p tbl tbl' r : pg_AcquireLease env p tbl = (tbl', r) ->
  (tbl' = tbl /\ is_ok r = false)
  \/ exists row, tbl' = <[ap_session_key p := row]> tbl
       /\ r = Ok (scanDurableLease (ap_session_key p) row)
       /\ own_lease_id row = "lease-" +:+ pe_random env
       /\ own_run_id row = ap_run_id p /\ own_owner_id row = ap_owner_id p
       /\ own_expires_at row = pe_clock env 1 + Milliseconds (ap_ttl p) * millisecond
       /\ match tbl !! ap_session_key p with
          | None => own_fence_epoch row = 1
          | Some old => own_fence_epoch row = own_fence_epoch old + 1
                        /\ (own_expires_at old <= pe_clock env 2 \/ own_lease_id old = "")
          end.
Proof.
  unfold pg_AcquireLease.
  destruct (validateAcquireLeaseParams p); [|intros [= <- <-]; by left].
  destruct (pe_fault env) as [[]|]; try (intros [= <- <-]; by left).
  destruct (tbl !! ap_session_key p) as [old|] eqn:Ho.
  - destruct (_ || _) eqn:Hc; [|intros [= <- <-]; by left].
    rewrite orb_true_iff Z.leb_le bool_decide_eq_true in Hc. destruct (_ <? _); [|intros [= <- <-]; by left].
    case_bool_decide; intros E; simplify_eq/=; [right|by left].
    eexists. split_and!; try reflexivity; done.
  - case_bool_decide; [|intros [= <- <-]; by left].
    case_bool_decide; intros E; simplify_eq/=; [right|by left].
    eexists. split_and!; reflexivity.
Qed.

Lemma lease_id_nonempty (s : string) : "lease-" +:+ s <> "".
Proof. done. Qed.

(** ** Histories of the ownership table *)

(** One statement on the table, as any process of the deployment issues it,
    or the passing of time. *)
Inductive lease_op :=
| OpAcquire (env : pg_env) (p : AcquireLeaseParams)
| OpRenew (env : pg_env) (id : string) (ttl : Z)
| OpRelease (env : pg_env) (id : string)
| OpRevoke (fault : option error) (task_of : gmap string string) (taskIDs : list string) (now : Z)
| OpEnsure (key : string) (now : Z)
| OpWait.

Definition lease_apply (op : lease_op) (tbl : ownership_table) : ownership_table :=
  match op with
  | OpAcquire env p => (pg_AcquireLease env p tbl).1
  | OpRenew env id ttl => (pg_RenewLease env id ttl tbl).1
  | OpRelease env id => (pg_ReleaseLease env id tbl).1
  | OpRevoke fault task_of ids now =>
      match RevokeForControlTx fault task_of ids now tbl with Ok tbl' => tbl' | Err _ => tbl end
  | OpEnsure key now => ensure_ownership_row key now tbl
  | OpWait => tbl
  end.

(** The clock readings of an operation lie between [t] and [t']. *)
Definition op_within (op : lease_op) (t t' : Z) : Prop :=
  t <= t' /\
  match op with
  | OpAcquire env _ | OpRenew env _ _ | OpRelease env _ =>
      clock_mono env /\ t <= pe_clock env 0 /\ pe_clock env 3 <= t'
  | OpRevoke _ _ _ now | OpEnsure _ now => t <= now <= t'
  | OpWait => True
  end.

(** [lease_history ops c c']: [ops] in this order lead from the table and
    time [c] to [c']. *)
Inductive lease_history : list lease_op -> Z * ownership_table -> Z * ownership_table -> Prop :=
| history_nil c : lease_history [] c c
| history_cons op ops t t' tbl c :
    op_within op t t' -> lease_history ops (t', lease_apply op tbl) c ->
    lease_history (op :: ops) (t, tbl) c.

(** How one row may change between two instants. *)
Definition row_evolves (t t' : Z) (r r' : OwnershipRow) : Prop :=
  r' = r
  \/ own_fence_epoch r < own_fence_epoch r'
  \/ (own_fence_epoch r' = own_fence_epoch r /\ own_lease_id r' = own_lease_id r
      /\ own_run_id r' = own_run_id r /\ t < own_expires_at r)
  \/ (own_fence_epoch r' = own_fence_epoch r /\ own_expires_at r' <= t').

Lemma revoke_lookup fault task_of ids now tbl tbl' k :
  RevokeForControlTx fault task_of ids now tbl = Ok tbl' ->
  tbl' !! k = (fun r => if revoked task_of ids r then revoke_row now r else r) <$> tbl !! k.
Proof.
  unfold RevokeForControlTx. destruct fault; [done|]. destruct (forallb _ _); [|done].
  intros [= <-]. by rewrite lookup_fmap.
Qed.

Lemma lease_apply_evolves op t t' tbl k r :
  op_within op t t' -> tbl !! k = Some r ->
  exists r', lease_apply op tbl !! k = Some r' /\ row_evolves t t' r r'.
Proof.
  intros [Ht Hop] Hr. unfold row_evolves. destruct op; simpl.
  - destruct (pg_AcquireLease env p tbl) as [tbl' x] eqn:E.
    apply pg_acquire_inv in E as [[-> _]|(row & -> & _ & _ & _ & _ & _ & Hold)]; [eauto|].
    simpl. destruct (decide (ap_session_key p = k)) as [<-|Hk].
    + rewrite Hr in Hold. destruct Hold as [He _]. rewrite lookup_insert_eq.
      eexists. split; [done|]. right. left. lia.
    + rewrite lookup_insert_ne; eauto.
  - destruct Hop as (Hm & H0 & _). unfold pg_RenewLease.
    destruct (_ || _); [eauto|]. destruct (pe_fault env) as [[]|]; [eauto..|].
    destruct (lease_rows _ _ _); simpl; [eauto|].
    rewrite update_lease_lookup Hr. simpl. eexists. split; [done|].
    destruct (_ && _) eqn:Hc; [|auto]. unbool. right. right. left. split_and!; try done. lia.
  - destruct Hop as (Hm & H0 & H3). unfold pg_ReleaseLease.
    destruct (pe_fault env) as [[]|]; [eauto..|]. simpl.
    rewrite update_lease_lookup Hr. simpl. eexists. split; [done|].
    destruct (_ && _); [|auto]. right. right. right. split; [done|]. simpl.
    specialize (Hm 0%nat 3%nat). lia.
  - destruct (RevokeForControlTx _ _ _ _ _) eqn:E; [|eauto].
    rewrite (revoke_lookup _ _ _ _ _ _ _ E) Hr. simpl. eexists. split; [done|].
    destruct (revoked _ _ _); [|auto]. right. left. simpl. lia.
  - unfold ensure_ownership_row. destruct (tbl !! key) eqn:E; [eauto|].
    rewrite lookup_insert_ne; [congruence|eauto].
  - eauto.
Qed.

(** A token at the end of its life: its row has moved on or has expired. *)
Definition token_dead (tok : Token) (t : Z) (tbl : ownership_table) : Prop :=
  exists r, tbl !! tok_session_key tok = Some r
    /\ tok_fence_epoch tok <= own_fence_epoch r /\ fence_row_valid t tok r = false.

Lemma fence_row_valid_spec t tok r : fence_row_valid t tok r = true <->
  own_lease_id r = tok_lease_id tok /\ own_run_id r = tok_run_id tok
  /\ own_fence_epoch r = tok_fence_epoch tok /\ t < own_expires_at r.
Proof.
  unfold fence_row_valid. rewrite !andb_true_iff !bool_decide_eq_true Z.eqb_eq Z.ltb_lt.
  naive_solver.
Qed.

Lemma row_dead_evolves tok t t' r r' : t <= t' ->
  row_evolves t t' r r' -> tok_fence_epoch tok <= own_fence_epoch r ->
  fence_row_valid t tok r = false ->
  tok_fence_epoch tok <= own_fence_epoch r' /\ fence_row_valid t' tok r' = false.
Proof.
  intros Ht Hev Hle Hdead. rewrite -!not_true_iff_false !fence_row_valid_spec in Hdead |- *.
  destruct Hev as [->|[?|[(?&?&?&?)|(?&?)]]]; split; try lia; intros (?&?&?&?);
    try lia; apply Hdead; split_and!; try congruence; lia.
Qed.

Lemma token_dead_step tok op t t' tbl :
  op_within op t t' -> token_dead tok t tbl -> token_dead tok t' (lease_apply op tbl).
Proof.
  intros Hop (r & Hr & Hle & Hd).
  destruct (lease_apply_evolves _ _ _ _ _ _ Hop Hr) as (r' & Hr' & Hev).
  exists r'. split; [done|]. eapply row_dead_evolves; eauto. apply Hop.
Qed.

Lemma token_dead_history tok ops c c' :
  lease_history ops c c' -> token_dead tok c.1 c.2 -> token_dead tok c'.1 c'.2.
Proof. induction 1; eauto using token_dead_step. Qed.

(** The epoch of a token that was valid once never exceeds its row's. *)
Lemma epoch_history tok ops c c' e :
  lease_history ops c c' ->
  (exists r, c.2 !! tok_session_key tok = Some r /\ e <= own_fence_epoch r) ->
  exists r, c'.2 !! tok_session_key tok = Some r /\ e <= own_fence_epoch r.
Proof.
  induction 1 as [|op ops t t' tbl c Hop _ IH]; [done|]. intros (r & Hr & He). apply IH.
  destruct (lease_apply_evolves _ _ _ _ _ _ Hop Hr) as (r' & Hr' & Hev).
  exists r'. split; [done|]. unfold row_evolves in Hev. naive_solver lia.
Qed.

Lemma fence_valid_row tbl t tok : fence_valid tbl t tok = true <->
  exists r, tbl !! tok_session_key tok = Some r /\ fence_row_valid t tok r = true.
Proof. unfold fence_valid. destruct (tbl !! _); naive_solver. Qed.

Lemma token_dead_invalid tok t tbl : token_dead tok t tbl -> fence_valid tbl t tok = false.
Proof. intros (r & Hr & _ & Hd). unfold fence_valid. by rewrite Hr. Qed.

(** ** The durable manager keeps the laws *)

Definition pg_holder (t : Z) (tbl : ownership_table) (s : string) : option (string * string) :=
  match tbl !! s with
  | Some r => if Z.ltb t (own_expires_at r) && negb (bool_decide (own_lease_id r = ""))
              then Some (own_run_id r, own_owner_id r) else None
  | None => None
  end.

Lemma pg_conflict env p tbl h :
  pe_fault env = None -> validateAcquireLeaseParams p = Ok tt ->
  pg_holder (pe_clock env 2) tbl (ap_session_key p) = Some h ->
  pg_AcquireLease env p tbl = (tbl, Err ErrLeaseConflict).
Proof.
  unfold pg_holder, pg_AcquireLease. intros -> -> Hh.
  destruct (tbl !! ap_session_key p) as [r|]; [|done].
  destruct (_ && _) eqn:Hc; [|done]. unbool.
  rewrite bool_decide_false; [done|]. destruct (Z.leb_spec (own_expires_at r) (pe_clock env 2));
    [lia|done].
Qed.

#[global, refine] Instance PostgresLeaseLaws : LeaseManagerLaws pg_env ownership_table := {
  lm_inv := fun _ => True;
  lm_faultless := fun env => pe_fault env = None;
  lm_ready := fun _ _ => True;
  lm_decided := fun env => pe_clock env 2;
  lm_stamped := fun env => pe_clock env 1;
  lm_holder := pg_holder;
}.
Proof.
  - intros env p tbl h _ _ Hf Hv Hh _. by apply (pg_conflict _ _ _ h).
  - intros env p tbl tbl' r _ _ Hms H.
    apply pg_acquire_inv in H as [[_ Hr]|(row & -> & [= ->] & Hid & <- & <- & Hex & _)]; [done|].
    split_and!; try done.
    + unfold pg_holder. rewrite lookup_insert_eq Hid Hex.
      rewrite (bool_decide_false _ (lease_id_nonempty _)).
      destruct (Z.ltb_spec (pe_clock env 1)
        (pe_clock env 1 + Milliseconds (ap_ttl p) * millisecond)); [done|].
      unfold millisecond in *. lia.
    + intros t s Hs. unfold pg_holder. rewrite lookup_insert_ne; [congruence|done].
Defined.

Lemma lease_history_foreign tok ops c c' r :
  lease_history ops c c' ->
  (forall op, op ∈ ops -> match op with
     | OpRenew _ id _ | OpRelease _ id => id <> tok_lease_id tok
     | OpRevoke _ task_of ids _ =>
         forall t, task_of !! tok_run_id tok = Some t -> t ∉ ids
     | _ => True
     end) ->
  c.2 !! tok_session_key tok = Some r -> own_lease_id r = tok_lease_id tok ->
  own_run_id r = tok_run_id tok -> tok_lease_id tok <> "" -> c'.1 < own_expires_at r ->
  c'.2 !! tok_session_key tok = Some r.
Proof.
  intros Hh Hops Hr Hlid Hrun Hne.
  induction Hh as [c|op ops t t' tbl c Hop Hh IH]; [done|]. intros Hex.
  assert (Hc : t' <= c.1).
  { clear -Hh. remember (t', lease_apply op tbl) as d eqn:Ed.
    replace t' with d.1 by (by subst). clear Ed.
    induction Hh as [|? ? ? ? ? ? [? _]]; simpl in *; lia. }
  apply IH; [intros op' ?; apply Hops; by right|simpl in *|done].
  assert (Hmine := Hops op ltac:(left)). destruct op; simpl in *.
  - destruct Hop as [_ (Hm & _ & H3)]. pose proof (Hm 2%nat 3%nat ltac:(lia)).
    destruct (pg_AcquireLease env p tbl) as [tbl' x] eqn:E.
    apply pg_acquire_inv in E as [[-> _]|(row & -> & _ & _ & _ & _ & _ & Hold)]; [done|].
    simpl. destruct (decide (ap_session_key p = tok_session_key tok)) as [E|E];
      [|by rewrite lookup_insert_ne].
    rewrite E Hr in Hold. destruct Hold as [_ [?|?]]; [lia|congruence].
  - unfold pg_RenewLease. destruct (_ || _); [done|].
    destruct (pe_fault env) as [[]|]; [done..|]. destruct (lease_rows _ _ _); [done|]. simpl.
    rewrite update_lease_lookup Hr. simpl. rewrite bool_decide_false; [congruence|done].
  - unfold pg_ReleaseLease. destruct (pe_fault env) as [[]|]; [done..|]. simpl.
    rewrite update_lease_lookup Hr. simpl. rewrite bool_decide_false; [congruence|done].
  - destruct (RevokeForControlTx _ _ _ _ _) eqn:E; [|done].
    rewrite (revoke_lookup _ _ _ _ _ _ _ E) Hr. simpl. unfold revoked. rewrite Hrun.
    destruct (task_of !! tok_run_id tok) as [tk|] eqn:Ht; [|done].
    rewrite bool_decide_false; [by apply Hmine|done].
  - unfold ensure_ownership_row. destruct (tbl !! key) eqn:E; [done|].
    rewrite lookup_insert_ne; [congruence|done].
  - done.
Qed.

(** ** Properties *)

(** C2: fencing is final.  If a token was once valid, then after any sequence
    of acquisitions, renewals, releases, revocations and waits at which it is
    found stale, no further sequence of operations makes it valid again: a
    superseded or expired worker can never write again. *)
Theorem stale_token_stays_stale (tok : Token) ops1 ops2 t0 tbl0 t1 tbl1 t2 tbl2 :
  lease_history ops1 (t0, tbl0) (t1, tbl1) -> lease_history ops2 (t1, tbl1) (t2, tbl2) ->
  fence_valid tbl0 t0 tok = true -> fence_valid tbl1 t1 tok = false ->
  fence_valid tbl2 t2 tok = false.
Proof.
  intros H1 H2 Hv Hs. apply token_dead_invalid.
  apply (token_dead_history _ _ _ _ H2). simpl.
  apply fence_valid_row in Hv as (r & Hr & Hv). apply fence_row_valid_spec in Hv as (_ & _ & He & _).
  destruct (epoch_history tok _ _ _ (tok_fence_epoch tok) H1) as (r1 & Hr1 & Hle).
  { exists r. split; [done|]. lia. }
  exists r1. split_and!; [done|done|]. unfold fence_valid in Hs. simpl in Hr1. by rewrite Hr1 in Hs.
Qed.

(** A token whose lease expires, is taken over by another run, and whose
    holder then tries to renew. *)
Definition env_at (t : Z) (random : string) : pg_env :=
  mkPgEnv {[ "s" ]} (fun _ => t) random None.
Definition tok_a : Token := mkToken "s" "r1" "lease-aa" 1.
Definition tbl_a : ownership_table :=
  {[ "s" := mkOwnership "lease-aa" "r1" "o1" 1 0 (5 * second) ]}.
Definition takeover : lease_op :=
  OpAcquire (env_at (6 * second) "bb") (mkAcquire "s" "r2" "o2" (5 * second)).
Definition late_renew : lease_op := OpRenew (env_at (7 * second) "") "lease-aa" (5 * second).

Lemma stale_token_stays_stale_witness :
  fence_valid (lease_apply takeover tbl_a) (6 * second) tok_a = false /\
  fence_valid (lease_apply late_renew (lease_apply takeover tbl_a)) (7 * second) tok_a = false.
Proof.
  split; [vm_compute; reflexivity|].
  apply (stale_token_stays_stale tok_a [takeover] [late_renew] 0 tbl_a (6 * second)
    (lease_apply takeover tbl_a) (7 * second)
    (lease_apply late_renew (lease_apply takeover tbl_a))).
  - eapply history_cons; [|apply history_nil]. split; [done|]. split; [intros ???; done|]. done.
  - eapply history_cons; [|apply history_nil]. split; [done|]. split; [intros ???; done|]. done.
  - vm_compute. reflexivity.
  - vm_compute. reflexivity.
Defined.

(** A holder keeps its session.  Until the expiry of a live lease, no
    acquisition (of this session or any other), no renewal or release of
    another lease and no control of another task invalidates its token. *)
Theorem live_lease_is_stable (tok : Token) (r : OwnershipRow) ops t tbl t' tbl' :
  lease_history ops (t, tbl) (t', tbl') ->
  tbl !! tok_session_key tok = Some r -> fence_row_valid t tok r = true ->
  tok_lease_id tok <> "" -> t' < own_expires_at r ->
  (forall op, op ∈ ops -> match op with
     | OpRenew _ id _ | OpRelease _ id => id <> tok_lease_id tok
     | OpRevoke _ task_of ids _ => forall t, task_of !! tok_run_id tok = Some t -> t ∉ ids
     | _ => True
     end) ->
  fence_valid tbl' t' tok = true.
Proof.
  intros Hh Hr Hv Hne Hex Hops. apply fence_row_valid_spec in Hv as (Hl & Hrun & He & _).
  apply fence_valid_row. exists r. split.
  - by apply (lease_history_foreign tok ops _ _ r Hh).
  - by apply fence_row_valid_spec.
Qed.

Lemma live_lease_is_stable_witness :
  fence_valid (lease_apply (OpAcquire (env_at second "bb")
    (mkAcquire "s" "r2" "o2" (5 * second))) tbl_a) (2 * second) tok_a = true.
Proof.
  apply (live_lease_is_stable tok_a (mkOwnership "lease-aa" "r1" "o1" 1 0 (5 * second))
    [OpAcquire (env_at second "bb") (mkAcquire "s" "r2" "o2" (5 * second))] 0 tbl_a).
  - eapply history_cons; [|apply history_nil]. split; [done|]. split; [intros ???; done|]. done.
  - vm_compute. reflexivity.
  - vm_compute. reflexivity.
  - done.
  - vm_compute. reflexivity.
  - intros op Hop%list_elem_of_singleton. by subst.
Defined.

(** The handler over any manager.  Whatever manager keeps the laws, an
    [AcquireLease] request for a session that another run or owner holds is
    answered with [FailedPrecondition] and changes nothing; a request that is
    answered with a lease has made its caller the holder, changed no other
    session, and names the caller in the answer. *)
Theorem Server_AcquireLease_exclusive {Env St} `{LM : LeaseManager Env St}
    `{!LeaseManagerLaws Env St} (s : LeaseServer) (env : Env) (req : AcquireLeaseRequest) (st : St) :
  let key := TrimSpace (aq_session_key req) in
  let me := (TrimSpace (aq_run_id req), TrimSpace (aq_owner_id req)) in
  let ttl := request_ttl s (aq_ttl_seconds req) in
  lm_inv st -> lm_ready env (mkAcquire key me.1 me.2 ttl) ->
  ls_leases s = Some tt -> 0 < Milliseconds ttl ->
  (forall h, key <> "" -> me.1 <> "" -> me.2 <> "" -> lm_faultless env ->
     lm_holder (lm_decided env) st key = Some h -> h <> me ->
     Server_AcquireLease s env req st
     = (st, Err (ErrStatus FailedPrecondition "session lease already held")))
  /\ (forall st' pb, Server_AcquireLease s env req st = (st', Ok pb) ->
        lm_holder (lm_stamped env) st' key = Some me
        /\ lp_session_key pb = key /\ (lp_run_id pb, lp_owner_id pb) = me
        /\ (forall t k, k <> key -> lm_holder t st' k = lm_holder t st k)).
Proof.
  intros key me ttl Hinv Hready Hs Hms. unfold Server_AcquireLease. rewrite Hs. split.
  - intros h Hk Hr Ho Hf Hh Hne.
    rewrite (lm_conflict env (mkAcquire key me.1 me.2 ttl) st h); try done.
    apply validate_acquire_ok. simpl. unfold key, me in *. simpl in *.
    rewrite !TrimSpace_idemp. split_and!; try done.
    unfold ttl, Milliseconds, go_div, millisecond in Hms |- *.
    destruct (Z_lt_le_dec 0 (request_ttl s (aq_ttl_seconds req))); [done|].
    pose proof (Z.quot_le_mono (request_ttl s (aq_ttl_seconds req)) 0 1000000
      ltac:(lia) ltac:(lia)) as Hq. change (0 ÷ 1000000) with 0 in Hq. lia.
  - intros st' pb. destruct (lm_AcquireLease _ _ _) as [st1 [rec|e]] eqn:E; simpl; [|done].
    intros [= <- <-].
    apply (lm_granted env (mkAcquire key me.1 me.2 ttl)) in E as (H1 & H2 & H3 & H4 & H5);
      [|done..].
    simpl in *. rewrite H2 H3 H4. done.
Qed.

Lemma Server_AcquireLease_exclusive_witness :
  Server_AcquireLease (mkLeaseServer (Some tt) (60 * second)) (env_at second "bb")
    (mkAcquireReq " s" "r2" "o2 " 5) tbl_a
  = (tbl_a, Err (ErrStatus FailedPrecondition "session lease already held")).
Proof.
  pose proof (Server_AcquireLease_exclusive (Env := pg_env) (St := ownership_table)
    (LeaseManagerLaws0 := PostgresLeaseLaws) (mkLeaseServer (Some tt) (60 * second)) (env_at second "bb")
    (mkAcquireReq " s" "r2" "o2 " 5) tbl_a I I eq_refl ltac:(vm_compute; reflexivity)) as [H _].
  apply (H ("r1", "o1")); vm_compute; congruence.
Defined.
