(* ===== verification/LeaseRedis.v ===== *)
(** * LeaseRedis: the Redis lease manager and its scripts

    [session/lease.go]: [RedisLeaseManager] and the three Lua scripts, run
    against a store of keys with a millisecond expiry.  A lease payload is
    the JSON object of [LeaseRecord]; it is kept here as its fields, with the
    two instants in their textual form, which is what the scripts rewrite. *)
From Stdlib Require Import Ascii.
From stdpp Require Import pretty.
From S2P Require Import Prelude GoStrings GoTime Ownership Lease.
Open Scope Z_scope.
Open Scope go_scope.

(** ** Payloads *)

Record lease_payload := mkPayload {
  pl_fence_epoch : Z;
  pl_lease_id : string;
  pl_session_key : string;
  pl_run_id : string;
  pl_owner_id : string;
  pl_ttl_seconds : Z;
  pl_acquired_at : string;
  pl_expires_at : string;
}.

(** A string value of the store or of a reply: plain text or a payload. *)
Inductive redis_text :=
| Text (s : string)
| Json (p : lease_payload).

#[global] Instance lease_payload_eq_dec : EqDecision lease_payload.
Proof. solve_decision. Defined.
#[global] Instance redis_text_eq_dec : EqDecision redis_text.
Proof. solve_decision. Defined.

Definition in_json_year (t : Z) : bool := Z.leb 0 (year_of t) && Z.leb (year_of t) 9999.

(** [marshalLease]: [time.Time] has no JSON form outside years 0 to 9999. *)
Definition marshalLease (r : LeaseRecord) : res redis_text :=
  fail_when negb (in_json_year (lr_acquired_at r) && in_json_year (lr_expires_at r)) with
    ErrWrap "marshal lease: " (Errorf "Time.MarshalJSON: year outside of range [0,9999]") ;;
  Ok (Json (mkPayload (lr_fence_epoch r) (lr_lease_id r) (lr_session_key r) (lr_run_id r)
       (lr_owner_id r) (lr_ttl_seconds r) (format_rfc3339 (lr_acquired_at r))
       (format_rfc3339 (lr_expires_at r)))).

(** Replies of the server, as the client library types them. *)
Inductive redis_reply :=
| RNil
| RInt (n : Z)
| RText (t : redis_text)
| RArray (l : list redis_reply).

Definition unmarshalLease (value : redis_reply) : res LeaseRecord :=
  match value with
  | RText (Json p) =>
      match parse_rfc3339 true (pl_acquired_at p), parse_rfc3339 true (pl_expires_at p) with
      | Some a, Some e =>
          Ok (mkLease (pl_fence_epoch p) (pl_lease_id p) (pl_session_key p) (pl_run_id p)
                (pl_owner_id p) (pl_ttl_seconds p) a e)
      | _, _ => Err (ErrWrap "unmarshal lease: " (Errorf "parsing time"))
      end
  | RText (Text _) => Err (ErrWrap "unmarshal lease: " (Errorf "invalid character"))
  | RNil => Err ErrLeaseNotFound
  | _ => Err (Errorf "unexpected lease payload type")
  end.

(** [toResultSlice]: integers become decimal text. *)
Fixpoint result_items (items : list redis_reply) : res (list redis_text) :=
  match items with
  | [] => Ok []
  | RText t :: rest => l <-! result_items rest ;; Ok (t :: l)
  | RInt n :: rest => l <-! result_items rest ;; Ok (Text (pretty n) :: l)
  | _ => Err (Errorf "unexpected lease script value type")
  end.

Definition toResultSlice (value : redis_reply) : res (list redis_text) :=
  match value with
  | RArray items => result_items items
  | _ => Err (Errorf "unexpected lease script result type")
  end.

Definition parseLeaseResult (values : list redis_text) : res LeaseRecord :=
  match values with
  | [_; payload] => unmarshalLease (RText payload)
  | _ => Err (Errorf "unexpected lease script response length")
  end.

(** ** The store *)

Definition leaseKey (sessionKey : string) : string := "butler:session_lease:" +:+ sessionKey.
Definition leaseIndexKey (leaseID : string) : string := "butler:lease_index:" +:+ leaseID.

(** Values with the last millisecond at which they exist. *)
Abbreviation redis_store := (gmap string (redis_text * Z)).

Section scripts.
(** Inside a script the server clock does not move; microseconds. *)
Context (now_us : Z).

Definition now_ms : Z := now_us / 1000.

Definition redis_get (k : string) (st : redis_store) : option redis_text :=
  match st !! k with
  | Some (v, until) => if Z.leb now_ms until then Some v else None
  | None => None
  end.

(** [SET key value PX ttl] refuses a ttl that is not positive. *)
Definition redis_set (k : string) (v : redis_text) (px : Z) (st : redis_store) :
    res redis_store :=
  fail_when Z.leb px 0 with Errorf "invalid expire time in 'set' command" ;;
  Ok (<[k := (v, now_ms + px)]> st).

(** [string.format("%0kd", n)]. *)
Fixpoint fixed_digits (k : nat) (n : Z) : string :=
  match k with
  | O => ""
  | S k' => String (digit_char (n / 10 ^ Z.of_nat k')) (fixed_digits k' (n mod 10 ^ Z.of_nat k'))
  end.

Definition lua_pad (k : nat) (n : Z) : string :=
  if Z.ltb n 0 then "-" +:+ (if Z.ltb (- n) (10 ^ Z.of_nat (k - 1))
                             then fixed_digits (k - 1) (- n) else pretty (- n))
  else if Z.ltb n (10 ^ Z.of_nat k) then fixed_digits k n else pretty n.

(** [math.floor(a / b)] and [a % b] of integers that a double holds. *)
Definition epoch_to_iso (epoch : Z) : string :=
  let s := epoch in
  let z := s / 86400 + 719468 in
  let era := (if Z.leb 0 z then z else z - 146096) / 146097 in
  let doe := z - era * 146097 in
  let yoe := (doe - doe / 1460 + doe / 36524 - doe / 146096) / 365 in
  let y := yoe + era * 400 in
  let doy := doe - (365 * yoe + yoe / 4 - yoe / 100) in
  let mp := (5 * doy + 2) / 153 in
  let d := doy - (153 * mp + 2) / 5 + 1 in
  let m := mp + (if Z.ltb mp 10 then 3 else -9) in
  let y := if Z.leb m 2 then y + 1 else y in
  let daySec := s mod 86400 in
  let h := daySec / 3600 in
  let mi := daySec mod 3600 / 60 in
  let sec := daySec mod 60 in
  lua_pad 4 y +:+ "-" +:+ lua_pad 2 m +:+ "-" +:+ lua_pad 2 d +:+ "T" +:+
  lua_pad 2 h +:+ ":" +:+ lua_pad 2 mi +:+ ":" +:+ lua_pad 2 sec.

(** [expires_at] of an extended lease, from [TIME] and the ttl. *)
Definition script_expires_at (ttlMillis : Z) : string :=
  let seconds := now_us / 1000000 in
  let micros := now_us mod 1000000 in
  let expiresAtMillis := seconds * 1000 + micros / 1000 + ttlMillis in
  let expiresAtSeconds := expiresAtMillis / 1000 in
  let expiresAtNanos := expiresAtMillis mod 1000 * 1000000 in
  epoch_to_iso expiresAtSeconds +:+ "." +:+ lua_pad 9 expiresAtNanos +:+ "Z".

Definition extend_payload (p : lease_payload) (ttlSeconds ttlMillis : Z) : lease_payload :=
  mkPayload (pl_fence_epoch p) (pl_lease_id p) (pl_session_key p) (pl_run_id p)
    (pl_owner_id p) ttlSeconds (pl_acquired_at p) (script_expires_at ttlMillis).

Definition cjson_decode (t : redis_text) : res lease_payload :=
  match t with
  | Json p => Ok p
  | Text _ => Err (Errorf "Expected value but found invalid token")
  end.

Definition acquireLeaseScript (key1 key2 : string) (payload : redis_text) (px : Z)
    (session run owner : string) (st : redis_store) : res (redis_store * redis_reply) :=
  match redis_get key1 st with
  | None =>
      st1 <-! redis_set key1 payload px st ;;
      st2 <-! redis_set key2 (Text session) px st1 ;;
      Ok (st2, RArray [RInt 1; RText payload])
  | Some existing =>
      current <-! cjson_decode existing ;;
      if bool_decide (pl_run_id current = run) && bool_decide (pl_owner_id current = owner)
      then
        let renewed := Json (extend_payload current (px / 1000) px) in
        st1 <-! redis_set key1 renewed px st ;;
        st2 <-! redis_set key2 (Text session) px st1 ;;
        Ok (st2, RArray [RInt 0; RText renewed])
      else Ok (st, RArray [RInt (-1); RText existing])
  end.

Definition text_of (t : redis_text) : string :=
  match t with Text s => s | Json _ => "" end.

Definition renewLeaseScript (key1 leaseID : string) (px ttlSeconds : Z) (st : redis_store) :
    res (redis_store * redis_reply) :=
  match redis_get key1 st with
  | None => Ok (st, RNil)
  | Some sessionKey =>
      let lkey := leaseKey (text_of sessionKey) in
      match redis_get lkey st with
      | None => Ok (delete key1 st, RNil)
      | Some existing =>
          current <-! cjson_decode existing ;;
          if bool_decide (pl_lease_id current = leaseID) then
            let renewed := Json (extend_payload current ttlSeconds px) in
            st1 <-! redis_set lkey renewed px st ;;
            st2 <-! redis_set key1 sessionKey px st1 ;;
            Ok (st2, RText renewed)
          else Ok (delete key1 st, RNil)
      end
  end.

Definition releaseLeaseScript (key1 leaseID : string) (st : redis_store) :
    res (redis_store * redis_reply) :=
  match redis_get key1 st with
  | None => Ok (st, RInt 0)
  | Some sessionKey =>
      let lkey := leaseKey (text_of sessionKey) in
      match redis_get lkey st with
      | None => Ok (delete key1 st, RInt 0)
      | Some existing =>
          current <-! cjson_decode existing ;;
          if bool_decide (pl_lease_id current = leaseID)
          then Ok (delete key1 (delete lkey st), RInt 1)
          else Ok (st, RInt 0)
      end
  end.
End scripts.

(** ** The manager *)

(** The client's clock (nanoseconds), the server's (microseconds), and an
    error of the connection, with whether the script had run. *)
Record redis_env := mkRedisEnv {
  re_now : Z;
  re_server_us : Z;
  re_fault : option (error * bool);
}.

(** [Script.Run]: a failing script leaves the store as it was, since the
    first command of each is the one that fails. *)
Definition run_script (env : redis_env)
    (script : redis_store -> res (redis_store * redis_reply)) (st : redis_store) :
    redis_store * res redis_reply :=
  match re_fault env, script st with
  | None, Ok (st', r) => (st', Ok r)
  | None, Err e => (st, Err e)
  | Some (e, true), Ok (st', _) => (st', Err e)
  | Some (e, _), _ => (st, Err e)
  end.

(** The client's reading of a reply of the acquire script. *)
Definition read_acquire (reply : redis_reply) : res LeaseRecord :=
  values <-! toResultSlice reply ;;
  record <-! parseLeaseResult values ;;
  fail_when bool_decide (head values = Some (Text "-1")) with ErrLeaseConflict ;;
  Ok record.

Definition redis_AcquireLease (env : redis_env) (p : AcquireLeaseParams) (st : redis_store) :
    redis_store * res LeaseRecord :=
  match validateAcquireLeaseParams p with
  | Err e => (st, Err e)
  | Ok _ =>
      let lease := mkLease 0 (buildLeaseID (ap_session_key p) (ap_run_id p) (ap_owner_id p))
        (ap_session_key p) (ap_run_id p) (ap_owner_id p) (go_div (ap_ttl p) second)
        (re_now env) (re_now env + ap_ttl p) in
      match marshalLease lease with
      | Err e => (st, Err e)
      | Ok payload =>
          let '(st', result) := run_script env
            (acquireLeaseScript (re_server_us env) (leaseKey (ap_session_key p))
               (leaseIndexKey (lr_lease_id lease)) payload (Milliseconds (ap_ttl p))
               (ap_session_key p) (ap_run_id p) (ap_owner_id p)) st in
          (st',
           match result with
           | Err e => Err (ErrWrap "acquire lease: " e)
           | Ok reply => read_acquire reply
           end)
      end
  end.

Definition redis_RenewLease (env : redis_env) (lease_id : string) (ttl : Z) (st : redis_store) :
    redis_store * res LeaseRecord :=
  let leaseID := TrimSpace lease_id in
  if bool_decide (leaseID = "") then (st, Err (Errorf "lease_id is required"))
  else if Z.leb ttl 0 then (st, Err (Errorf "ttl must be greater than zero"))
  else
    let '(st', result) := run_script env
      (renewLeaseScript (re_server_us env) (leaseIndexKey leaseID) leaseID
         (Milliseconds ttl) (go_div ttl second)) st in
    (st',
     match result with
     | Err e => Err (ErrWrap "renew lease: " e)
     | Ok RNil => Err ErrLeaseNotFound
     | Ok reply => unmarshalLease reply
     end).

Definition redis_ReleaseLease (env : redis_env) (lease_id : string) (st : redis_store) :
    redis_store * res bool :=
  let leaseID := TrimSpace lease_id in
  if bool_decide (leaseID = "") then (st, Err (Errorf "lease_id is required"))
  else
    let '(st', result) := run_script env
      (releaseLeaseScript (re_server_us env) (leaseIndexKey leaseID) leaseID) st in
    (st',
     match result with
     | Err e => Err (ErrWrap "release lease: " e)
     | Ok (RInt n) => Ok (Z.eqb n 1)
     | Ok _ => Err (ErrWrap "release lease: " (Errorf "unexpected type for Int"))
     end).

#[global] Instance RedisLeaseManager : LeaseManager redis_env redis_store := {
  lm_AcquireLease := redis_AcquireLease;
  lm_RenewLease := redis_RenewLease;
  lm_ReleaseLease := redis_ReleaseLease;
}.

(** A lease granted at 2026-01-02T03:04:05.25Z for a minute, then extended by
    its holder, refused to another run, and released. *)
Definition redis_ex_env (ns : Z) : redis_env := mkRedisEnv ns (ns / 1000) None.
Definition t_ex : Z := make_time 2026 1 2 3 4 5 250000000.
Definition ex_params : AcquireLeaseParams := mkAcquire "telegram:chat:1" "r1" "o1" (60 * second).
Definition ex_store : redis_store := (redis_AcquireLease (redis_ex_env t_ex) ex_params ∅).1.

Example redis_renew_ex :
  (redis_RenewLease (redis_ex_env (t_ex + second)) "telegram:chat:1:r1:o1" (90 * second) ex_store).2
  = Ok (mkLease 0 "telegram:chat:1:r1:o1" "telegram:chat:1" "r1" "o1" 90 t_ex
          (t_ex + 91 * second)).
Proof. vm_compute. reflexivity. Qed.

Example redis_conflict_ex :
  (redis_AcquireLease (redis_ex_env (t_ex + second))
     (mkAcquire "telegram:chat:1" "r2" "o2" (60 * second)) ex_store).2 = Err ErrLeaseConflict.
Proof. vm_compute. reflexivity. Qed.

(** ** The instants the scripts write *)

Lemma fixed_digits_2 n : fixed_digits 2 n = pad2 n.
Proof.
  unfold pad2. simpl. change (10 ^ Z.of_nat 1) with 10. change (10 ^ Z.of_nat 0) with 1.
  by rewrite Z.div_1_r.
Qed.

Lemma fixed_digits_4 n : 0 <= n < 10000 -> fixed_digits 4 n = pad4 n.
Proof.
  intros H. unfold pad4, pad2. simpl.
  change (10 ^ Z.of_nat 3) with 1000. change (10 ^ Z.of_nat 2) with 100.
  change (10 ^ Z.of_nat 1) with 10. change (10 ^ Z.of_nat 0) with 1.
  rewrite Z.div_1_r.
  assert (n / 1000 = n / 100 / 10) as -> by div_lia.
  assert (n mod 1000 / 100 = (n / 100) mod 10) as -> by div_lia.
  assert (n mod 1000 mod 100 = n mod 100) as -> by div_lia. reflexivity.
Qed.

Lemma lua_pad_fixed k n : 0 <= n < 10 ^ Z.of_nat k -> lua_pad k n = fixed_digits k n.
Proof.
  intros H. unfold lua_pad. destruct (Z.ltb_spec n 0); [lia|].
  destruct (Z.ltb_spec n (10 ^ Z.of_nat k)); [done|lia].
Qed.

Lemma lua_pad_2 n : 0 <= n < 100 -> lua_pad 2 n = pad2 n.
Proof. intros. rewrite lua_pad_fixed; [done|]. apply fixed_digits_2. Qed.

Lemma lua_pad_4 n : 0 <= n < 10000 -> lua_pad 4 n = pad4 n.
Proof. intros. rewrite lua_pad_fixed; [done|]. by apply fixed_digits_4. Qed.

Lemma parse_frac_fixed k n a s : digit_val a = None -> 0 <= n < 10 ^ Z.of_nat k ->
  parse_frac k (fixed_digits k n +:+ String a s) = (n, String a s).
Proof.
  intros Ha. revert n. induction k as [|k IH]; intros n Hn.
  - change (10 ^ Z.of_nat 0) with 1 in Hn. simpl. rewrite Ha. f_equal. lia.
  - change (fixed_digits (S k) n +:+ String a s)
      with (String (digit_char (n / 10 ^ Z.of_nat k))
              (fixed_digits k (n mod 10 ^ Z.of_nat k) +:+ String a s)).
    cbn [parse_frac Nat.pred]. rewrite (digit_val_char _ (lead_digit _ _ Hn)).
    pose proof (Z.pow_pos_nonneg 10 (Z.of_nat k)).
    rewrite IH; [apply Z.mod_pos_bound; lia|]. f_equal.
    rewrite {3}(Z.div_mod n (10 ^ Z.of_nat k)); lia.
Qed.

Lemma parse_fraction_fixed strict ns : 0 <= ns < second ->
  parse_fraction strict (("." +:+ fixed_digits 9 ns) +:+ "Z") = (ns, "Z").
Proof.
  intros H. rewrite -append_assoc.
  change (fixed_digits 9 ns +:+ "Z")
    with (String (digit_char (ns / 10 ^ Z.of_nat 8))
            (fixed_digits 8 (ns mod 10 ^ Z.of_nat 8) +:+ "Z")).
  set (c := digit_char _). set (r := fixed_digits 8 _ +:+ "Z").
  change ("." +:+ String c r) with (String "."%char (String c r)). cbn [parse_fraction].
  unfold c at 1. rewrite (digit_val_char _ (lead_digit 8 ns H)).
  rewrite bool_decide_true; [done|]. cbn [orb andb]. unfold c, r.
  by apply (parse_frac_fixed 9 ns "Z"%char "").
Qed.

Lemma valid_date_pad y m d : valid_date y m d -> 0 <= m < 100 /\ 0 <= d < 100.
Proof.
  intros [Hm Hd]. unfold days_in in Hd.
  assert (d <= 31) by (by_month Hm; destruct (is_leap y); lia). lia.
Qed.

Lemma year_of_days t :
  days_before_year (year_of t) <= days_of t + 719162 < days_before_year (year_of t + 1).
Proof.
  unfold year_of. destruct (civil_of_days (days_of t)) as [[y m] d] eqn:E. simpl.
  apply civil_of_days_spec in E as [Hv <-]. exact (date_in_year _ _ _ Hv).
Qed.

Lemma year_of_nonneg t : 0 <= t -> 0 <= year_of t.
Proof.
  intros Ht. pose proof (year_of_days t) as H.
  assert (0 <= days_of t) by (unfold days_of, unix_seconds, second; div_lia).
  unfold days_before_year in H. generalize dependent (days_of t).
  generalize (year_of t). intros. div_lia.
Qed.

(** Instants that fit in 64 bits of nanoseconds, and twice that. *)
Lemma year_of_int64 t : 0 <= t <= 2 * max_int64 -> year_of t <= 9999.
Proof.
  intros Ht. pose proof (year_of_days t) as H.
  assert (days_of t <= 213504) by
    (unfold days_of, unix_seconds, second; unfold max_int64 in Ht; div_lia).
  unfold days_before_year in H. generalize dependent (days_of t).
  generalize (year_of t). intros. div_lia.
Qed.

Lemma epoch_to_iso_format t rest : 0 <= year_of t <= 9999 -> 0 <= t ->
  epoch_to_iso (unix_seconds t) +:+ rest +:+ "Z" = format_with rest t.
Proof.
  unfold year_of, format_with, epoch_to_iso. intros Hy Ht. fold (days_of t) (sec_of_day t).
  assert (Hn : 0 <= days_of t).
  { unfold days_of, unix_seconds, second. do 2 (apply Z.div_pos; [|lia]). done. }
  destruct (Z.leb_spec 0 (days_of t + 719468)); [|lia].
  destruct (civil_of_days (days_of t)) as [[y m] d] eqn:E. simpl in Hy.
  pose proof (civil_of_days_spec _ _ _ _ E) as [Hv _].
  destruct (valid_date_pad _ _ _ Hv) as [Hm Hd]. unfold civil_of_days in E.
  set (mp := (5 * _ + 2) / 153) in *.
  replace (mp + (if mp <? 10 then 3 else -9)) with (if mp <? 10 then mp + 3 else mp - 9)
    by (destruct (mp <? 10); lia).
  injection E as Ey Em Ed. rewrite Ey Em Ed.
  assert (Hs : 0 <= sec_of_day t < 86400) by (apply Z.mod_pos_bound; done).
  remember (sec_of_day t) as s eqn:Hst. clear Hst.
  rewrite lua_pad_4; [lia|]. rewrite (lua_pad_2 m Hm) (lua_pad_2 d Hd).
  rewrite (lua_pad_2 (s / 3600)); [div_lia|]. rewrite (lua_pad_2 (s mod 3600 / 60)); [div_lia|].
  rewrite (lua_pad_2 (s mod 60)); [div_lia|].
  unfold format_year. destruct (Z.leb_spec 0 y); [|lia]. destruct (Z.leb_spec y 9999); [|lia].
  cbn [andb]. by rewrite -!append_assoc.
Qed.

(** What an extended lease's text means: the server's time in milliseconds
    plus the ttl. *)
Lemma script_expires_at_parse now_us px :
  0 <= now_us -> 0 <= px -> year_of ((now_ms now_us + px) * millisecond) <= 9999 ->
  parse_rfc3339 true (script_expires_at now_us px) = Some ((now_ms now_us + px) * millisecond).
Proof.
  intros Hn Hp Hy. unfold script_expires_at.
  replace (now_us / 1000000 * 1000 + now_us mod 1000000 / 1000 + px) with (now_ms now_us + px)
    by (unfold now_ms; div_lia).
  assert (Hms : 0 <= now_ms now_us + px) by (unfold now_ms; div_lia).
  remember (now_ms now_us + px) as ms eqn:Hms'. clear Hms'.
  set (t := ms * millisecond) in *.
  assert (Hns : ms mod 1000 * 1000000 = nanos_of t).
  { unfold nanos_of, t, second, millisecond.
    replace (ms * 1000000) with (1000000 * ms) by lia.
    change 1000000000 with (1000000 * 1000). rewrite Zmult_mod_distr_l. lia. }
  assert (Hsec : ms / 1000 = unix_seconds t).
  { unfold unix_seconds, t, second, millisecond.
    change 1000000000 with (1000 * 1000000). rewrite Z.div_mul_cancel_r; lia. }
  rewrite Hns Hsec.
  assert (Hrange : 0 <= nanos_of t < second) by (by apply Z.mod_pos_bound).
  rewrite lua_pad_fixed; [exact Hrange|]. rewrite append_assoc.
  assert (Hy0 : 0 <= year_of t) by (apply year_of_nonneg; unfold t, millisecond; lia).
  rewrite -append_assoc (epoch_to_iso_format t ("." +:+ fixed_digits 9 (nanos_of t)));
    [lia|unfold t, millisecond; lia|].
  apply parse_format_with; [lia|]. by apply parse_fraction_fixed.
Qed.

(** ** The manager keeps the laws *)

(** A lease key holds the payload of its own session, with readable times. *)
Definition payload_ok (s : string) (p : lease_payload) : Prop :=
  pl_session_key p = s /\ is_Some (parse_rfc3339 true (pl_acquired_at p))
  /\ is_Some (parse_rfc3339 true (pl_expires_at p)).

Definition redis_inv (st : redis_store) : Prop :=
  forall s v e, st !! leaseKey s = Some (v, e) -> exists p, v = Json p /\ payload_ok s p.

Definition redis_holder (now_us : Z) (st : redis_store) (s : string) : option (string * string) :=
  match redis_get now_us (leaseKey s) st with
  | Some (Json p) => Some (pl_run_id p, pl_owner_id p)
  | _ => None
  end.

(** Client and server clocks after 1970 and before 2262. *)
Definition redis_clock_ok (env : redis_env) : Prop :=
  0 <= re_now env <= max_int64 /\ 0 <= re_server_us env <= max_int64 / 1000.

Lemma leaseKey_inj s t : leaseKey s = leaseKey t -> s = t.
Proof. apply append_inj_l. Qed.

Lemma leaseKey_index s id : leaseKey s <> leaseIndexKey id.
Proof. done. Qed.

Lemma redis_get_set now_us k v st px : 0 < px ->
  redis_get now_us k (<[k := (v, now_ms now_us + px)]> st) = Some v.
Proof.
  intros. unfold redis_get. rewrite lookup_insert_eq.
  destruct (Z.leb_spec (now_ms now_us) (now_ms now_us + px)); [done|lia].
Qed.

Lemma redis_get_ne now_us k k' x st : k <> k' ->
  redis_get now_us k (<[k' := x]> st) = redis_get now_us k st.
Proof. intros. unfold redis_get. rewrite lookup_insert_ne; [congruence|done]. Qed.

Lemma redis_get_inv now_us s st v : redis_inv st ->
  redis_get now_us (leaseKey s) st = Some v -> exists p, v = Json p /\ payload_ok s p.
Proof.
  intros Hinv. unfold redis_get. destruct (st !! leaseKey s) as [[v' e]|] eqn:E; [|done].
  destruct (_ <=? _); intros [= <-]. exact (Hinv _ _ _ E).
Qed.

(** The two writes of a granted or extended lease. *)
Lemma redis_set_two now_us k1 v1 k2 v2 px (st st2 : redis_store) (r r' : redis_reply) :
  (st1 <-! redis_set now_us k1 v1 px st ;;
   st2 <-! redis_set now_us k2 v2 px st1 ;; Ok (st2, r)) = Ok (st2, r') ->
  0 < px /\ r' = r
  /\ st2 = <[k2 := (v2, now_ms now_us + px)]> (<[k1 := (v1, now_ms now_us + px)]> st).
Proof.
  unfold redis_set, fail_if. destruct (Z.leb_spec px 0); simpl; [done|]. intros. by simplify_eq.
Qed.

(** Every outcome of the acquire script on a well-formed store. *)
Lemma acquire_script_cases now_us s id payload px run owner st st' r :
  redis_inv st ->
  acquireLeaseScript now_us (leaseKey s) (leaseIndexKey id) payload px s run owner st
    = Ok (st', r) ->
  let write v := <[leaseIndexKey id := (Text s, now_ms now_us + px)]>
                   (<[leaseKey s := (v, now_ms now_us + px)]> st) in
  (redis_get now_us (leaseKey s) st = None /\ 0 < px /\ st' = write payload
    /\ r = RArray [RInt 1; RText payload])
  \/ exists p, redis_get now_us (leaseKey s) st = Some (Json p) /\ payload_ok s p /\
     ((pl_run_id p = run /\ pl_owner_id p = owner /\ 0 < px
        /\ let v := Json (extend_payload now_us p (px / 1000) px) in
           st' = write v /\ r = RArray [RInt 0; RText v])
      \/ ((pl_run_id p, pl_owner_id p) <> (run, owner) /\ st' = st
          /\ r = RArray [RInt (-1); RText (Json p)])).
Proof.
  intros Hinv H write. unfold acquireLeaseScript in H.
  destruct (redis_get now_us (leaseKey s) st) as [v|] eqn:Hg.
  - right. destruct (redis_get_inv _ _ _ _ Hinv Hg) as (p & -> & Hp). exists p.
    split; [done|]. split; [done|]. simpl in H.
    destruct (_ && _) eqn:Hc.
    + left. unbool. apply redis_set_two in H as (Hpx & -> & ->). done.
    + right. simplify_eq. split; [|done]. intros [= E1 E2].
      by rewrite !bool_decide_true in Hc.
  - left. apply redis_set_two in H as (Hpx & -> & ->). done.
Qed.

Lemma unmarshal_ok s p : payload_ok s p ->
  exists a e, unmarshalLease (RText (Json p)) =
    Ok (mkLease (pl_fence_epoch p) (pl_lease_id p) s (pl_run_id p) (pl_owner_id p)
          (pl_ttl_seconds p) a e).
Proof. intros (<- & [a Ha] & [e He]). exists a, e. simpl. by rewrite Ha He. Qed.

Lemma marshal_ok env p : redis_clock_ok env -> in_int64 (ap_ttl p) -> 0 < ap_ttl p ->
  let lease := mkLease 0 (buildLeaseID (ap_session_key p) (ap_run_id p) (ap_owner_id p))
    (ap_session_key p) (ap_run_id p) (ap_owner_id p) (go_div (ap_ttl p) second)
    (re_now env) (re_now env + ap_ttl p) in
  exists q, marshalLease lease = Ok (Json q) /\ payload_ok (ap_session_key p) q
    /\ unmarshalLease (RText (Json q)) = Ok lease
    /\ (pl_run_id q, pl_owner_id q) = (ap_run_id p, ap_owner_id p).
Proof.
  intros [[Hn0 Hn] _] [_ Htl] Htp lease. unfold marshalLease.
  assert (Hy : forall t, 0 <= t <= 2 * max_int64 -> 0 <= year_of t <= 9999).
  { intros t Ht. split; [apply year_of_nonneg; lia|by apply year_of_int64]. }
  assert (Hj : forall t, 0 <= t <= 2 * max_int64 -> in_json_year t = true).
  { intros t Ht. unfold in_json_year. specialize (Hy t Ht).
    destruct (Z.leb_spec 0 (year_of t)); [|lia].
    destruct (Z.leb_spec (year_of t) 9999); [done|lia]. }
  subst lease. simpl. rewrite !Hj; [lia|lia|]. eexists. split; [done|].
  unfold payload_ok. simpl. rewrite !parse_format_rfc3339; [apply Hy; lia|apply Hy; lia|].
  split_and!; eauto.
Qed.

Lemma read_acquire_pair n v : read_acquire (RArray [RInt n; RText v]) =
  res_bind (unmarshalLease (RText v)) (fun record =>
    if bool_decide (Some (Text (pretty n)) = Some (Text "-1")) then Err ErrLeaseConflict
    else Ok record).
Proof. reflexivity. Qed.

Lemma read_acquire_Ok n v r : read_acquire (RArray [RInt n; RText v]) = Ok r ->
  unmarshalLease (RText v) = Ok r /\ n <> -1.
Proof.
  rewrite read_acquire_pair. destruct (unmarshalLease _) as [rec|]; [|done].
  cbn [res_bind]. case_bool_decide as E; [done|]. intros [= <-]. split; [done|].
  intros ->. by apply E.
Qed.

Lemma redis_conflict env p st h :
  redis_inv st -> re_fault env = None -> redis_clock_ok env -> in_int64 (ap_ttl p) ->
  validateAcquireLeaseParams p = Ok tt ->
  redis_holder (re_server_us env) st (ap_session_key p) = Some h ->
  h <> (ap_run_id p, ap_owner_id p) ->
  redis_AcquireLease env p st = (st, Err ErrLeaseConflict).
Proof.
  intros Hinv Hf Hck Hin Hv Hh Hne. unfold redis_AcquireLease. rewrite Hv.
  apply validate_acquire_ok in Hv as (_ & _ & _ & Htp).
  destruct (marshal_ok env p Hck Hin Htp) as (q & -> & _). unfold run_script. rewrite Hf.
  unfold redis_holder in Hh. unfold acquireLeaseScript.
  destruct (redis_get _ _ _) as [[|cur]|] eqn:Hg; simplify_eq/=.
  destruct (redis_get_inv _ _ _ _ Hinv Hg) as (? & [= <-] & Hok).
  destruct (_ && _) eqn:Hc; [unbool; congruence|].
  destruct (unmarshal_ok _ _ Hok) as (a & e & Hu). rewrite read_acquire_pair Hu. reflexivity.
Qed.

Lemma redis_acquire_Ok env p st st' r :
  redis_inv st -> redis_clock_ok env -> in_int64 (ap_ttl p) ->
  redis_AcquireLease env p st = (st', Ok r) ->
  let until := now_ms (re_server_us env) + Milliseconds (ap_ttl p) in
  0 < Milliseconds (ap_ttl p) /\ exists q, unmarshalLease (RText (Json q)) = Ok r
    /\ (pl_run_id q, pl_owner_id q) = (ap_run_id p, ap_owner_id p)
    /\ pl_session_key q = ap_session_key p
    /\ st' = <[leaseIndexKey (buildLeaseID (ap_session_key p) (ap_run_id p) (ap_owner_id p))
                := (Text (ap_session_key p), until)]>
              (<[leaseKey (ap_session_key p) := (Json q, until)]> st).
Proof.
  intros Hinv Hck Hin. unfold redis_AcquireLease.
  destruct (validateAcquireLeaseParams p) as [[]|] eqn:Hv; [|done].
  apply validate_acquire_ok in Hv as (_ & _ & _ & Htp).
  destruct (marshal_ok env p Hck Hin Htp) as (q & -> & Hq & Hu & Hro). unfold run_script.
  destruct (acquireLeaseScript _ _ _ _ _ _ _ _ _) as [[st1 rep]|e] eqn:Hs;
    [|destruct (re_fault env) as [[? []]|]; done].
  destruct (re_fault env) as [[? []]|]; [done..|]. cbv zeta.
  apply (acquire_script_cases _ _ _ _ _ _ _ _ _ _ Hinv) in Hs.
  destruct Hs as [(_ & Hpx & -> & ->)|(c & _ & Hc & [(Hr & Ho & Hpx & -> & ->)|(_ & -> & ->)])].
  - intros [<- [H _]%read_acquire_Ok]%pair_equal_spec. split; [done|].
    exists q. split_and!; [done|done|apply Hq|done].
  - intros [<- [H _]%read_acquire_Ok]%pair_equal_spec. split; [done|].
    eexists. split_and!; [exact H|exact (f_equal2 pair Hr Ho)|apply Hc|reflexivity].
  - by intros [_ [_ H]%read_acquire_Ok]%pair_equal_spec.
Qed.

Lemma redis_holder_ne t st s s' id x y : s <> s' ->
  redis_holder t (<[leaseIndexKey id := x]> (<[leaseKey s' := y]> st)) s = redis_holder t st s.
Proof.
  intros H. unfold redis_holder. rewrite redis_get_ne; [apply leaseKey_index|].
  rewrite redis_get_ne; [by intros ?%leaseKey_inj|done].
Qed.

(** An environment whose clocks are in range and a duration of 64 bits. *)
#[global, refine] Instance RedisLeaseLaws : LeaseManagerLaws redis_env redis_store := {
  lm_inv := redis_inv;
  lm_faultless := fun env => re_fault env = None;
  lm_ready := fun env p => redis_clock_ok env /\ in_int64 (ap_ttl p);
  lm_decided := re_server_us;
  lm_stamped := re_server_us;
  lm_holder := redis_holder;
}.
Proof.
  - intros env p st h Hinv [Hck Hin] Hf Hv Hh Hne. by apply (redis_conflict env p st h).
  - intros env p st st' r Hinv [Hck Hin] _ H.
    destruct (redis_acquire_Ok _ _ _ _ _ Hinv Hck Hin H) as (Hpx & q & Hu & Hro & Hs & ->).
    simpl in Hu. destruct (parse_rfc3339 _ (pl_acquired_at q)); [|done].
    destruct (parse_rfc3339 _ (pl_expires_at q)); simplify_eq/=. split_and!; try done.
    + unfold redis_holder. rewrite redis_get_ne; [apply leaseKey_index|].
      rewrite redis_get_set; [done|congruence].
    + intros t s Hne. by apply redis_holder_ne.
Defined.

(** ** Renewal and the store invariant *)

Lemma extend_expiry env ttl : redis_clock_ok env -> in_int64 ttl -> 0 < ttl ->
  parse_rfc3339 true (script_expires_at (re_server_us env) (Milliseconds ttl))
  = Some ((now_ms (re_server_us env) + Milliseconds ttl) * millisecond).
Proof.
  intros [_ [Hs0 Hs]] [_ Ht] Hp.
  assert (Hms : 0 <= Milliseconds ttl * millisecond <= ttl).
  { unfold Milliseconds, go_div, millisecond.
    rewrite Z.quot_div_nonneg; [lia|lia|]. div_lia. }
  assert (Hnow : 0 <= now_ms (re_server_us env) * millisecond <= max_int64).
  { unfold now_ms, millisecond. unfold max_int64 in *. div_lia. }
  unfold millisecond in *.
  apply script_expires_at_parse; [done|lia|].
  apply year_of_int64. unfold millisecond. lia.
Qed.

Lemma payload_ok_extend env s p ttl x : redis_clock_ok env -> in_int64 ttl -> 0 < ttl ->
  payload_ok s p -> payload_ok s (extend_payload (re_server_us env) p x (Milliseconds ttl)).
Proof.
  intros Hck Hin Hp (Hs & Ha & _). split_and!; [done|done|]. simpl.
  rewrite extend_expiry; eauto.
Qed.

Lemma redis_inv_write st s q x id y :
  redis_inv st -> payload_ok s q ->
  redis_inv (<[leaseIndexKey id := y]> (<[leaseKey s := (Json q, x)]> st)).
Proof.
  intros Hinv Hq s' v e. rewrite lookup_insert_ne; [apply not_eq_sym, leaseKey_index|].
  destruct (decide (s = s')) as [<-|Hne].
  - rewrite lookup_insert_eq. intros [= <- <-]. eauto.
  - rewrite lookup_insert_ne; [by intros ?%leaseKey_inj|]. apply Hinv.
Qed.

Lemma redis_inv_delete st k : redis_inv st -> redis_inv (delete k st).
Proof. intros Hinv s v e [_ H]%lookup_delete_Some. eauto. Qed.

(** Every outcome of the renew script on a well-formed store. *)
Lemma renew_script_cases now_us id px secs st st' r :
  redis_inv st -> renewLeaseScript now_us (leaseIndexKey id) id px secs st = Ok (st', r) ->
  (r = RNil /\ (st' = st \/ st' = delete (leaseIndexKey id) st))
  \/ exists s p t, redis_get now_us (leaseKey s) st = Some (Json p) /\ payload_ok s p
       /\ pl_lease_id p = id /\ 0 < px
       /\ let v := extend_payload now_us p secs px in
          r = RText (Json v)
          /\ st' = <[leaseIndexKey id := (t, now_ms now_us + px)]>
                     (<[leaseKey s := (Json v, now_ms now_us + px)]> st).
Proof.
  intros Hinv. unfold renewLeaseScript.
  destruct (redis_get now_us (leaseIndexKey id) st) as [t|]; [|intros; simplify_eq; auto].
  destruct (redis_get now_us (leaseKey (text_of t)) st) as [v|] eqn:Hg;
    [|intros; simplify_eq; auto].
  destruct (redis_get_inv _ _ _ _ Hinv Hg) as (p & -> & Hp). simpl.
  case_bool_decide as Hid; [|intros; simplify_eq; auto].
  intros (Hpx & -> & ->)%redis_set_two. right. exists (text_of t), p, t. done.
Qed.

(** A renewed lease says exactly when the server will drop it.  A
    successful [RenewLease] of the Redis manager answers with the lease's own
    identifier, session, run and owner, an [expires_at] that parses to the
    server time (in milliseconds) plus the ttl, and that is the expiry of the
    stored key; no holder of any session changes. *)
Theorem redis_renewal_is_exact (env : redis_env) (lease_id : string) (ttl : Z)
    (st st' : redis_store) (r : LeaseRecord) :
  redis_inv st -> redis_clock_ok env -> in_int64 ttl ->
  redis_RenewLease env lease_id ttl st = (st', Ok r) ->
  let until := now_ms (re_server_us env) + Milliseconds ttl in
  lr_lease_id r = TrimSpace lease_id /\ lr_ttl_seconds r = go_div ttl second
  /\ lr_expires_at r = until * millisecond
  /\ redis_holder (re_server_us env) st (lr_session_key r) = Some (lr_run_id r, lr_owner_id r)
  /\ snd <$> st' !! leaseKey (lr_session_key r) = Some until
  /\ forall s, redis_holder (re_server_us env) st' s = redis_holder (re_server_us env) st s.
Proof.
  intros Hinv Hck Hin. unfold redis_RenewLease. case_bool_decide; [done|].
  destruct (Z.leb_spec ttl 0) as [|Hp]; [done|]. unfold run_script.
  destruct (renewLeaseScript _ _ _ _ _ _) as [[st1 rep]|e] eqn:Hs;
    [|destruct (re_fault env) as [[? []]|]; done].
  destruct (re_fault env) as [[? []]|]; [done..|]. cbv zeta.
  apply (renew_script_cases _ _ _ _ _ _ _ Hinv) in Hs.
  destruct Hs as [[-> _]|(s & p & t & Hg & Hok & Hid & Hpx & -> & ->)]; [done|].
  intros [<- Hu]%pair_equal_spec. pose proof Hok as (Hsk & [a Ha] & _).
  cbn [unmarshalLease] in Hu. cbn [extend_payload pl_acquired_at pl_expires_at] in Hu.
  rewrite Ha extend_expiry in Hu; [done..|]. injection Hu as <-. simpl. rewrite Hsk.
  assert (Hh : redis_holder (re_server_us env) st s = Some (pl_run_id p, pl_owner_id p))
    by (unfold redis_holder; by rewrite Hg).
  split_and!; try done.
  - rewrite lookup_insert_ne; [apply not_eq_sym, leaseKey_index|]. by rewrite lookup_insert_eq.
  - intros s'. destruct (decide (s' = s)) as [->|Hne]; [|by apply redis_holder_ne].
    unfold redis_holder at 1. rewrite redis_get_ne; [apply leaseKey_index|].
    by rewrite redis_get_set.
Qed.

(** An empty store is well formed, and so is what the three operations of the
    manager make of a well-formed store, whether or not the connection fails. *)
Lemma redis_ops_keep_inv env st :
  redis_inv st -> redis_clock_ok env ->
  (forall p, in_int64 (ap_ttl p) -> redis_inv (redis_AcquireLease env p st).1)
  /\ (forall id ttl, in_int64 ttl -> redis_inv (redis_RenewLease env id ttl st).1)
  /\ (forall id, redis_inv (redis_ReleaseLease env id st).1).
Proof.
  intros Hinv Hck.
  assert (Hrun : forall script, (forall st' r, script st = Ok (st', r) -> redis_inv st') ->
            redis_inv (run_script env script st).1).
  { intros script H. unfold run_script.
    destruct (re_fault env) as [[? []]|], (script st) as [[]|]; simpl; eauto. }
  split_and!.
  - intros p Hin. unfold redis_AcquireLease.
    destruct (validateAcquireLeaseParams p) as [[]|] eqn:Hv; [|done].
    apply validate_acquire_ok in Hv as (_ & _ & _ & Htp).
    destruct (marshal_ok env p Hck Hin Htp) as (q & -> & Hq & _).
    destruct (run_script _ _ _) as [st1 res] eqn:E. simpl. change st1 with (st1, res).1.
    rewrite -E. apply Hrun. intros st' r H.
    apply (acquire_script_cases _ _ _ _ _ _ _ _ _ _ Hinv) in H.
    destruct H as [(_ & _ & -> & _)|(c & _ & Hc & [(_ & _ & _ & -> & _)|(_ & -> & _)])];
      [by apply redis_inv_write| |done].
    apply redis_inv_write; [done|]. by apply payload_ok_extend.
  - intros id ttl Hin. unfold redis_RenewLease. case_bool_decide; [done|].
    destruct (Z.leb_spec ttl 0); [done|].
    destruct (run_script _ _ _) as [st1 res] eqn:E. simpl. change st1 with (st1, res).1.
    rewrite -E. apply Hrun. intros st' r H'.
    apply (renew_script_cases _ _ _ _ _ _ _ Hinv) in H'.
    destruct H' as [[_ [->| ->]]|(s & p & t & _ & Hp & _ & _ & _ & ->)];
      [done|by apply redis_inv_delete|].
    apply redis_inv_write; [done|]. by apply payload_ok_extend.
  - intros id. unfold redis_ReleaseLease. case_bool_decide; [done|].
    destruct (run_script _ _ _) as [st1 res] eqn:E. simpl. change st1 with (st1, res).1.
    rewrite -E. apply Hrun. intros st' r. unfold releaseLeaseScript.
    destruct (redis_get _ _ _); [|intros; by simplify_eq].
    destruct (redis_get _ _ _) as [v|]; [|intros; simplify_eq; by apply redis_inv_delete].
    destruct (cjson_decode v); simpl; [|done].
    case_bool_decide; intros; simplify_eq; [|done]. by do 2 apply redis_inv_delete.
Qed.

Lemma redis_inv_empty : redis_inv ∅.
Proof. intros s v e. by rewrite lookup_empty. Qed.

Lemma redis_clock_ex ns : 0 <= ns <= max_int64 -> redis_clock_ok (redis_ex_env ns).
Proof. intros H. split; [done|]. simpl. unfold max_int64 in *. div_lia. Qed.

(** A store with one lease that expires at 00:01 on the first day. *)
Definition lit_payload : lease_payload :=
  mkPayload 0 "a:r1:o1" "a" "r1" "o1" 60 "1970-01-01T00:00:00Z" "1970-01-01T00:01:00Z".
Definition lit_store : redis_store :=
  {[ "butler:session_lease:a" := (Json lit_payload, 60000);
     "butler:lease_index:a:r1:o1" := (Text "a", 60000) ]}.

Lemma lit_store_inv : redis_inv lit_store.
Proof.
  intros s v e H. unfold lit_store in H.
  apply lookup_insert_Some in H as [[Hs [= <- <-]]|[_ H]].
  - exists lit_payload. split; [done|]. apply (leaseKey_inj "a" s) in Hs as <-.
    split_and!; [done|by eexists; vm_compute|by eexists; vm_compute].
  - by apply lookup_singleton_Some in H as [Hs _].
Qed.

Definition lit_env : redis_env := mkRedisEnv 30000000000 30000000 None.
Definition lit_record : LeaseRecord :=
  mkLease 0 "a:r1:o1" "a" "r1" "o1" 90 0 120000000000.

Lemma redis_renewal_is_exact_witness :
  (redis_RenewLease lit_env "a:r1:o1 " (90 * second) lit_store).2 = Ok lit_record
  /\ lr_expires_at lit_record
     = (now_ms (re_server_us lit_env) + Milliseconds (90 * second)) * millisecond.
Proof.
  assert (H : (redis_RenewLease lit_env "a:r1:o1 " (90 * second) lit_store).2 = Ok lit_record)
    by (vm_compute; reflexivity).
  split; [exact H|].
  refine (proj1 (proj2 (proj2 (redis_renewal_is_exact lit_env "a:r1:o1 " (90 * second) lit_store
    (redis_RenewLease lit_env "a:r1:o1 " (90 * second) lit_store).1 lit_record
    lit_store_inv _ _ _)))).
  - vm_compute. split; split; congruence.
  - vm_compute. split; congruence.
  - rewrite -H. apply surjective_pairing.
Defined.

(** ** Lease identifiers *)

(** two Redis leases share an identifier only if they agree on session,
    run and owner, as long as run and owner identifiers contain no colon;
    session keys may contain any number of them. *)
Theorem buildLeaseID_injective (s r o s' r' o' : string) :
  no_colon (TrimSpace r) -> no_colon (TrimSpace o) ->
  no_colon (TrimSpace r') -> no_colon (TrimSpace o') ->
  buildLeaseID s r o = buildLeaseID s' r' o' ->
  TrimSpace s = TrimSpace s' /\ TrimSpace r = TrimSpace r' /\ TrimSpace o = TrimSpace o'.
Proof.
  intros Hr Ho Hr' Ho' E. unfold buildLeaseID in E. simpl in E.
  rewrite !append_assoc -(append_assoc _ ":" (TrimSpace o))
    -(append_assoc _ ":" (TrimSpace o')) in E.
  apply last_colon_inj in E as [E ->]; [|done|done].
  rewrite -!append_assoc in E. by apply last_colon_inj in E as [-> ->].
Qed.

Lemma buildLeaseID_injective_witness :
  buildLeaseID "telegram:chat:1" "run-1" "o" <> buildLeaseID "telegram:chat:1" "run-2" "o".
Proof.
  intros E. apply buildLeaseID_injective in E as (_ & E & _); vm_compute in *; congruence.
Defined.

(** Without the restriction identifiers collide. *)
Example lease_id_ambiguous :
  buildLeaseID "a" "b:c" "d" = buildLeaseID "a:b" "c" "d".
Proof. vm_compute. reflexivity. Qed.
