(* ===== verification/Run.v ===== *)
(** * Run: run records, their repository and service

    Package [apps/orchestrator/internal/run]: the run service, the
    repository on table [runs], the transition log, and the owning
    transactions that complete, recover, suspend, fail or cancel runs; and
    the writers of the table in other packages: [task.Store.AttachRun], the
    suspensions of [approval/durable.go] and [singletab/checkpoint.go], and
    the privacy deletion of [internal/memory/catalog/privacy.go].  The
    database is the record [run_db]; a call also reads a [call_env] (clock,
    execution context, faults).  The conversion of JSON text by the database
    ([::jsonb], which refuses ill-formed text and normalises the rest) is the
    parameter [jsonb] of the section. *)
From Stdlib Require Import Ascii.
From stdpp Require Import pretty sorting.
From S2P Require Import Prelude GoStrings GoTime Domain Ownership.
Open Scope Z_scope.
Open Scope go_scope.

Definition ErrNoRows : error := ErrNew "pgx.ErrNoRows" "no rows in result set".

(** ** Rows and records *)

(** A row of table [runs] (migrations 002, 006, 007, 029); [run_id] is the
    primary key. *)
Record RunRow := mkRunRow {
  rr_session_key : string;
  rr_input_event_id : string;
  rr_idempotency_key : option string;
  rr_status : string;
  rr_autonomy_mode : string;
  rr_current_state : string;
  rr_model_provider : string;
  rr_provider_session_ref : option string;
  rr_lease_id : option string;
  rr_resumes_run_id : option string;
  rr_started_at : Z;
  rr_updated_at : Z;
  rr_finished_at : option Z;
  rr_error_type : option string;
  rr_error_message : option string;
  rr_metadata_json : string;
  rr_task_id : option string;
  rr_task_revision : option Z;
}.

(** The Go struct [run.Record]. *)
Record RunRecord := mkRunRecord {
  rc_run_id : string;
  rc_session_key : string;
  rc_input_event_id : string;
  rc_idempotency_key : string;
  rc_status : string;
  rc_autonomy_mode : string;
  rc_current_state : string;
  rc_model_provider : string;
  rc_provider_session_ref : string;
  rc_lease_id : string;
  rc_resumes_run_id : string;
  rc_started_at : Z;
  rc_updated_at : Z;
  rc_finished_at : option Z;
  rc_error_type : string;
  rc_error_message : string;
  rc_metadata_json : string;
}.

(** A NULL column leaves the Go field empty. *)
Definition scanRunRow (run_id : string) (r : RunRow) : RunRecord :=
  mkRunRecord run_id (rr_session_key r) (rr_input_event_id r)
    (default "" (rr_idempotency_key r)) (rr_status r) (rr_autonomy_mode r) (rr_current_state r)
    (rr_model_provider r) (default "" (rr_provider_session_ref r)) (default "" (rr_lease_id r))
    (default "" (rr_resumes_run_id r)) (rr_started_at r) (rr_updated_at r) (rr_finished_at r)
    (default "" (rr_error_type r)) (default "" (rr_error_message r)) (rr_metadata_json r).

Definition nullString (value : string) : option string :=
  if bool_decide (value = "") then None else Some value.

Definition normalizeJSON (value : string) : string :=
  if bool_decide (value = "") then "{}" else value.

(** A JSON object the database builds ([jsonb_build_object]) or a text. *)
Inductive json_meta :=
| MetaText (text : string)
| MetaObject (fields : list (string * string)).

(** A row of [run_state_transitions]; [id] is its serial number. *)
Record StateTransition := mkTransition {
  st_id : Z;
  st_run_id : string;
  st_from_state : string;
  st_to_state : string;
  st_triggered_by : string;
  st_metadata_json : json_meta;
  st_transitioned_at : Z;
}.

Record run_db := mkRunDb {
  rd_sessions : gset string;
  rd_ownership : ownership_table;
  rd_runs : gmap string RunRow;
  rd_log : list StateTransition;
}.

Definition set_runs (db : run_db) (runs : gmap string RunRow) : run_db :=
  mkRunDb (rd_sessions db) (rd_ownership db) runs (rd_log db).

Definition add_log (db : run_db) (entries : list (Z -> StateTransition)) : run_db :=
  mkRunDb (rd_sessions db) (rd_ownership db) (rd_runs db)
    (rd_log db ++ imap (fun i mk => mk (Z.of_nat (length (rd_log db) + i + 1))) entries).

(** What a call reads: the clock, the context, and the faults of the fence
    and of the database. *)
Record call_env := mkCall {
  ce_now : Z;
  ce_ctx : go_context;
  ce_fence_fault : option fence_fault;
  ce_db_fault : option error;
}.

Definition fenced {A} (env : call_env) (db : run_db) (k : run_db * res A) : run_db * res A :=
  match Begin (rd_ownership db) (ce_now env) (ce_fence_fault env) (ce_ctx env) with
  | Err e => (db, Err e)
  | Ok _ => k
  end.

(** ** Requests and replies of the session service *)

Record InputEvent := mkInputEvent { ie_event_id : string; ie_idempotency_key : string }.

Record CreateRunRequest := mkCreateRun {
  cr_session_key : string;
  cr_input_event : option InputEvent;
  cr_autonomy_mode : Z;
  cr_model_provider : string;
  cr_resumes_run_id : string;
  cr_metadata_json : string;
}.

Record UpdateRunStateRequest := mkUpdateState {
  ur_run_id : string;
  ur_from_state : Z;
  ur_to_state : Z;
  ur_lease_id : string;
  ur_error_type : Z;
  ur_error_message : string;
  ur_finished_at : string;
}.

Record RunRecord_pb := mkRunPb {
  rp_run_id : string;
  rp_session_key : string;
  rp_input_event_id : string;
  rp_status : string;
  rp_autonomy_mode : Z;
  rp_current_state : Z;
  rp_model_provider : string;
  rp_provider_session_ref : string;
  rp_lease_id : string;
  rp_resumes_run_id : string;
  rp_started_at : string;
  rp_updated_at : string;
  rp_finished_at : string;
  rp_error_type : Z;
  rp_error_message : string;
  rp_metadata_json : string;
}.

Definition recordToProto (r : RunRecord) : RunRecord_pb :=
  mkRunPb (rc_run_id r) (rc_session_key r) (rc_input_event_id r) (rc_status r)
    (AutonomyModeStringToProto (rc_autonomy_mode r)) (RunStateStringToProto (rc_current_state r))
    (rc_model_provider r) (rc_provider_session_ref r) (rc_lease_id r) (rc_resumes_run_id r)
    (format_rfc3339 (rc_started_at r)) (format_rfc3339 (rc_updated_at r))
    (match rc_finished_at r with Some t => format_rfc3339 t | None => "" end)
    (ErrorClassStringToProto (rc_error_type r)) (rc_error_message r) (rc_metadata_json r).

(** ** Validation *)

Record createParams := mkCreateParams {
  cp_session_key : string;
  cp_input_event_id : string;
  cp_idempotency_key : string;
  cp_autonomy_mode : string;
  cp_model_provider : string;
  cp_resumes_run_id : string;
  cp_metadata_json : string;
}.

Definition validateCreateRunRequest (req : CreateRunRequest) : res createParams :=
  fail_when bool_decide (TrimSpace (cr_session_key req) = "") with
    Errorf "session_key is required" ;;
  match cr_input_event req with
  | None => Err (Errorf "input_event is required")
  | Some ev =>
      fail_when bool_decide (TrimSpace (ie_event_id ev) = "") with
        Errorf "input_event.event_id is required" ;;
      fail_when bool_decide (TrimSpace (cr_model_provider req) = "") with
        Errorf "model_provider is required" ;;
      mode <-! ProtoToAutonomyModeString (cr_autonomy_mode req) ;;
      Ok (mkCreateParams (TrimSpace (cr_session_key req)) (TrimSpace (ie_event_id ev))
            (TrimSpace (ie_idempotency_key ev)) mode (TrimSpace (cr_model_provider req))
            (TrimSpace (cr_resumes_run_id req)) (TrimSpace (cr_metadata_json req)))
  end.

Definition parseFinishedAt (value : string) : res (option Z) :=
  let value := TrimSpace value in
  if bool_decide (value = "") then Ok None else
  match parse_rfc3339 false value with
  | Some t => Ok (Some t)
  | None => Err (Errorf "finished_at must be RFC3339")
  end.

Record transitionParams := mkTransitionParams {
  tp_run_id : string;
  tp_from_state : string;
  tp_to_state : string;
  tp_lease_id : string;
  tp_error_type : string;
  tp_error_message : string;
  tp_finished_at : option Z;
}.

(** [commonv1.ErrorClass_ERROR_CLASS_UNSPECIFIED] is 0. *)
Definition validateTransitionRequest (req : UpdateRunStateRequest) : res transitionParams :=
  fail_when bool_decide (TrimSpace (ur_run_id req) = "") with Errorf "run_id is required" ;;
  fromState <-! ProtoToRunState (ur_from_state req) ;;
  toState <-! ProtoToRunState (ur_to_state req) ;;
  finishedAt <-! parseFinishedAt (ur_finished_at req) ;;
  fail_when bool_decide (is_Some finishedAt) && negb (IsTerminalRunState toState) with
    Errorf "finished_at is only allowed for terminal states" ;;
  errorType <-! (if Z.eqb (ur_error_type req) 0 then Ok ""
                 else ProtoToErrorClassString (ur_error_type req)) ;;
  Ok (mkTransitionParams (TrimSpace (ur_run_id req)) fromState toState
        (TrimSpace (ur_lease_id req)) errorType (TrimSpace (ur_error_message req)) finishedAt).

(** [newRunID]: the clock and eight random bytes, when there are any. *)
Definition newRunID (now : Z) (random : option string) : string :=
  match random with
  | None => "run-" +:+ pretty (wrap64 now)
  | Some hex => "run-" +:+ pretty (wrap64 now) +:+ "-" +:+ hex
  end.

Section database.
Context (jsonb : string -> option string).

(** ** The repository *)

Definition err_json : error := Errorf "invalid input syntax for type json".

(** [PostgresRepository.CreateRun]: the row is inserted unless a constraint
    fails: the session must exist (23503), the run identifier and the pair
    of session and idempotency key must be new (23505). *)
Definition duplicate_key (runs : gmap string RunRow) (session : string) (key : option string) :
    bool :=
  match key with
  | None => false
  | Some k => existsb (fun kr => bool_decide (rr_session_key kr.2 = session)
                                 && bool_decide (rr_idempotency_key kr.2 = Some k))
                (map_to_list runs)
  end.

Definition repo_CreateRun (env : call_env) (rec : RunRecord) (db : run_db) :
    run_db * res RunRecord :=
  match ce_db_fault env with
  | Some e => (db, Err (ErrWrap "create run: " e))
  | None =>
      match jsonb (normalizeJSON (rc_metadata_json rec)) with
      | None => (db, Err (ErrWrap "create run: " err_json))
      | Some meta =>
          let row := mkRunRow (rc_session_key rec) (rc_input_event_id rec)
            (nullString (rc_idempotency_key rec)) (rc_status rec) (rc_autonomy_mode rec)
            (rc_current_state rec) (rc_model_provider rec)
            (nullString (rc_provider_session_ref rec)) (nullString (rc_lease_id rec))
            (nullString (rc_resumes_run_id rec)) (rc_started_at rec) (rc_updated_at rec)
            (rc_finished_at rec) (nullString (rc_error_type rec))
            (nullString (rc_error_message rec)) meta None None in
          if bool_decide (is_Some (rd_runs db !! rc_run_id rec))
             || duplicate_key (rd_runs db) (rr_session_key row) (rr_idempotency_key row)
          then (db, Err ErrRunDuplicate)
          else if negb (bool_decide (rc_session_key rec ∈ rd_sessions db))
          then (db, Err ErrSessionNotFound)
          else (set_runs db (<[rc_run_id rec := row]> (rd_runs db)),
                Ok (scanRunRow (rc_run_id rec) row))
      end
  end.

(** [getRun]. *)
Definition repo_GetRun (env : call_env) (run_id : string) (db : run_db) : res RunRecord :=
  match ce_db_fault env with
  | Some e => Err (ErrWrap "get run: " e)
  | None =>
      match rd_runs db !! run_id with
      | Some r => Ok (scanRunRow run_id r)
      | None => Err ErrRunNotFound
      end
  end.

(** [WHERE session_key = $1 AND idempotency_key = $2]. *)
Definition keyed_runs (session key : string) (runs : gmap string RunRow) :
    list (string * RunRow) :=
  filter (fun kr => rr_session_key kr.2 = session /\ rr_idempotency_key kr.2 = Some key)
    (map_to_list runs).

Definition repo_FindRunByIdempotencyKey (env : call_env) (session key : string)
    (db : run_db) : res RunRecord :=
  match ce_db_fault env with
  | Some e => Err (ErrWrap "find run by idempotency key: " e)
  | None =>
      match keyed_runs session key (rd_runs db) with
      | kr :: _ => Ok (scanRunRow kr.1 kr.2)
      | [] => Err ErrRunNotFound
      end
  end.

Record UpdateParams := mkUpdateParams {
  up_run_id : string;
  up_current_state : string;
  up_next_state : string;
  up_status : string;
  up_lease_id : string;
  up_error_type : string;
  up_error_message : string;
  up_finished_at : option Z;
  up_updated_at : Z;
}.

Definition updated_row (p : UpdateParams) (r : RunRow) : RunRow :=
  mkRunRow (rr_session_key r) (rr_input_event_id r) (rr_idempotency_key r) (up_status p)
    (rr_autonomy_mode r) (up_next_state p) (rr_model_provider r) (rr_provider_session_ref r)
    (nullString (up_lease_id p)) (rr_resumes_run_id r) (rr_started_at r) (up_updated_at p)
    (up_finished_at p) (nullString (up_error_type p)) (nullString (up_error_message p))
    (rr_metadata_json r) (rr_task_id r) (rr_task_revision r).

(** [UpdateRun]: compare-and-set on the current state, under the fence. *)
Definition repo_UpdateRun (env : call_env) (p : UpdateParams) (db : run_db) :
    run_db * res RunRecord :=
  fenced env db
    match ce_db_fault env with
    | Some e => (db, Err (ErrWrap "update run: " e))
    | None =>
        match rd_runs db !! up_run_id p with
        | Some r =>
            if bool_decide (rr_current_state r = up_current_state p)
            then (set_runs db (<[up_run_id p := updated_row p r]> (rd_runs db)),
                  Ok (scanRunRow (up_run_id p) (updated_row p r)))
            else (db, Err ErrRunNotFound)
        | None => (db, Err ErrRunNotFound)
        end
    end.

Definition with_provider_ref (ref : string) (now : Z) (r : RunRow) : RunRow :=
  mkRunRow (rr_session_key r) (rr_input_event_id r) (rr_idempotency_key r) (rr_status r)
    (rr_autonomy_mode r) (rr_current_state r) (rr_model_provider r) (nullString ref)
    (rr_lease_id r) (rr_resumes_run_id r) (rr_started_at r) now (rr_finished_at r)
    (rr_error_type r) (rr_error_message r) (rr_metadata_json r) (rr_task_id r)
    (rr_task_revision r).

Definition repo_UpdateProviderSessionRef (env : call_env) (run_id ref : string)
    (db : run_db) : run_db * res RunRecord :=
  fenced env db
    match ce_db_fault env with
    | Some e => (db, Err (ErrWrap "update provider session ref: " e))
    | None =>
        match rd_runs db !! run_id with
        | Some r =>
            let r' := with_provider_ref ref (ce_now env) r in
            (set_runs db (<[run_id := r']> (rd_runs db)), Ok (scanRunRow run_id r'))
        | None => (db, Err ErrRunNotFound)
        end
    end.

(** [ORDER BY started_at DESC]. *)
Definition started_desc (a b : RunRecord) : Prop := rc_started_at b <= rc_started_at a.
#[global] Instance started_desc_dec a b : Decision (started_desc a b).
Proof. unfold started_desc. apply _. Defined.

Definition repo_ListRunsBySessionKey (env : call_env) (session : string) (db : run_db) :
    res (list RunRecord) :=
  match ce_db_fault env with
  | Some e => Err (ErrWrap "list runs by session key: " e)
  | None =>
      Ok (merge_sort started_desc
            ((fun kr => scanRunRow kr.1 kr.2) <$>
               filter (fun kr => rr_session_key kr.2 = session) (map_to_list (rd_runs db))))
  end.

(** ** The transition log *)

(** [InsertTransition]; the run must exist (foreign key). *)
Definition InsertTransition (env : call_env) (run_id from to trigger meta : string) (at_ : Z)
    (db : run_db) : run_db * res unit :=
  fenced env db
    match ce_db_fault env with
    | Some e => (db, Err (ErrWrap "insert state transition: " e))
    | None =>
        match jsonb (normalizeJSON meta) with
        | None => (db, Err (ErrWrap "insert state transition: " err_json))
        | Some m =>
            if bool_decide (is_Some (rd_runs db !! run_id))
            then (add_log db [fun id => mkTransition id run_id from to trigger (MetaText m) at_],
                  Ok tt)
            else (db, Err (ErrWrap "insert state transition: "
                             (Errorf "insert violates foreign key constraint")))
        end
    end.

(** [ORDER BY transitioned_at ASC, id ASC]. *)
Definition log_order (a b : StateTransition) : Prop :=
  st_transitioned_at a < st_transitioned_at b
  \/ (st_transitioned_at a = st_transitioned_at b /\ st_id a <= st_id b).
#[global] Instance log_order_dec a b : Decision (log_order a b).
Proof. unfold log_order. apply _. Defined.

Definition ListTransitions (env : call_env) (run_id : string) (db : run_db) :
    res (list StateTransition) :=
  match ce_db_fault env with
  | Some e => Err (ErrWrap "list state transitions: " e)
  | None => Ok (merge_sort log_order (filter (fun t => st_run_id t = run_id) (rd_log db)))
  end.

(** ** The service *)

Definition svc_CreateRun (env : call_env) (random : option string) (req : CreateRunRequest)
    (db : run_db) : run_db * res RunRecord_pb :=
  match validateCreateRunRequest req with
  | Err e => (db, Err e)
  | Ok p =>
      let now := ce_now env in
      let created := run_state_name RunStateCreated in
      let rec := mkRunRecord (newRunID now random) (cp_session_key p) (cp_input_event_id p)
        (cp_idempotency_key p) created (cp_autonomy_mode p) created (cp_model_provider p)
        "" "" (cp_resumes_run_id p) now now None "" "" (cp_metadata_json p) in
      match repo_CreateRun env rec db with
      | (db', Ok stored) => (db', Ok (recordToProto stored))
      | (db', Err e) =>
          if negb (bool_decide (cp_idempotency_key p = "")) && bool_decide (e = ErrRunDuplicate)
          then (db', r <-! repo_FindRunByIdempotencyKey env (cp_session_key p)
                             (cp_idempotency_key p) db' ;;
                     Ok (recordToProto r))
          else (db', Err e)
      end
  end.

Definition svc_FindRunByIdempotencyKey (env : call_env) (session key : string) (db : run_db) :
    res RunRecord_pb :=
  r <-! repo_FindRunByIdempotencyKey env (TrimSpace session) (TrimSpace key) db ;;
  Ok (recordToProto r).

Definition svc_GetRun (env : call_env) (run_id : string) (db : run_db) : res RunRecord_pb :=
  r <-! repo_GetRun env (TrimSpace run_id) db ;; Ok (recordToProto r).

Definition svc_PersistProviderSessionRef (env : call_env) (run_id ref : string) (db : run_db) :
    run_db * res RunRecord_pb :=
  let run_id := TrimSpace run_id in
  if bool_decide (run_id = "") then (db, Err (Errorf "run_id is required")) else
  let '(db', r) := repo_UpdateProviderSessionRef env run_id (TrimSpace ref) db in
  (db', rec <-! r ;; Ok (recordToProto rec)).

Definition svc_ListRunsBySessionKey (env : call_env) (session : string) (db : run_db) :
    res (list RunRecord_pb) :=
  let session := TrimSpace session in
  fail_when bool_decide (session = "") with Errorf "session_key is required" ;;
  records <-! repo_ListRunsBySessionKey env session db ;;
  Ok (recordToProto <$> records).

(** [TransitionRun]: the finish time of a terminal state defaults to now. *)
Definition svc_TransitionRun (env : call_env) (req : UpdateRunStateRequest) (db : run_db) :
    run_db * res RunRecord_pb :=
  match validateTransitionRequest req with
  | Err e => (db, Err e)
  | Ok p =>
      match ValidateRunStateTransition (tp_from_state p) (tp_to_state p) with
      | Err e => (db, Err e)
      | Ok _ =>
          let finishedAt :=
            match tp_finished_at p with
            | Some t => Some t
            | None => if IsTerminalRunState (tp_to_state p) then Some (ce_now env) else None
            end in
          let '(db', r) := repo_UpdateRun env
            (mkUpdateParams (tp_run_id p) (tp_from_state p) (tp_to_state p) (tp_to_state p)
               (tp_lease_id p) (tp_error_type p) (tp_error_message p) finishedAt (ce_now env)) db in
          (db', rec <-! r ;; Ok (recordToProto rec))
      end
  end.
End database.

(** ** Owning transactions *)

(** [SET status=.., current_state=.., ..] of a row: the new state, and
    optionally a finish time, a lease and an error. *)
Definition move_row (state : string) (finished : option Z) (lease : option string)
    (err : option (string * string)) (now : Z) (r : RunRow) : RunRow :=
  mkRunRow (rr_session_key r) (rr_input_event_id r) (rr_idempotency_key r) state
    (rr_autonomy_mode r) state (rr_model_provider r) (rr_provider_session_ref r)
    (match lease with Some l => Some l | None => rr_lease_id r end)
    (rr_resumes_run_id r) (rr_started_at r) now
    (match finished with Some t => Some t | None => rr_finished_at r end)
    (match err with Some (t, _) => Some t | None => rr_error_type r end)
    (match err with Some (_, m) => Some m | None => rr_error_message r end)
    (rr_metadata_json r) (rr_task_id r) (rr_task_revision r).

Definition log_entry (run_id from to trigger : string) (meta : json_meta) (now : Z) :
    Z -> StateTransition :=
  fun id => mkTransition id run_id from to trigger meta now.

Record CompletionState := mkCompletionState {
  cs_task_id : string;
  cs_task_revision : Z;
  cs_state : string;
}.

(** [LockCompletionTx] of the run repository. *)
Definition LockCompletionTx (env : call_env) (run_id session : string) (db : run_db) :
    res CompletionState :=
  match TokenFromContext (ce_ctx env) with
  | None => Err ErrStale
  | Some tok =>
      fail_when negb (bool_decide (tok_run_id tok = run_id))
                || negb (bool_decide (tok_session_key tok = session)) with ErrStale ;;
      match ce_db_fault env, rd_runs db !! run_id with
      | Some e, _ => Err e
      | None, None => Err ErrNoRows
      | None, Some r =>
          fail_when negb (bool_decide (rr_session_key r = session))
                    || negb (bool_decide (default "" (rr_lease_id r) = tok_lease_id tok))
                    || negb (bool_decide (rr_current_state r = "finalizing")) with
            ErrOpaque "execution ownership expired or superseded: run is not owned finalizing execution"
              ErrStale ;;
          Ok (mkCompletionState (default "" (rr_task_id r)) (default 0 (rr_task_revision r))
                (rr_current_state r))
      end
  end.

(** [CompleteTx]: one row in [finalizing], owned by the token's lease. *)
Definition CompleteTx (env : call_env) (run_id : string) (at_ : Z) (db : run_db) :
    run_db * res unit :=
  match TokenFromContext (ce_ctx env) with
  | None => (db, Err ErrStale)
  | Some tok =>
      if negb (bool_decide (tok_run_id tok = run_id)) then (db, Err ErrStale) else
      match ce_db_fault env, rd_runs db !! run_id with
      | Some e, _ => (db, Err e)
      | None, None => (db, Err (Errorf "completion state changed"))
      | None, Some r =>
          if bool_decide (rr_current_state r = "finalizing")
             && bool_decide (rr_session_key r = tok_session_key tok)
             && bool_decide (rr_lease_id r = Some (tok_lease_id tok))
          then
            (add_log (set_runs db (<[run_id := move_row "completed" (Some at_) None None at_ r]>
                                     (rd_runs db)))
               [log_entry run_id "finalizing" "completed" "atomic_result" (MetaText "{}") at_],
             Ok tt)
          else (db, Err (Errorf "completion state changed"))
      end
  end.

(** [UpdatePreparation]. *)
Definition UpdatePreparation (jsonb : string -> option string) (env : call_env)
    (run_id metadata : string) (db : run_db) : run_db * res unit :=
  fenced env db
    match ce_db_fault env with
    | Some e => (db, Err e)
    | None =>
        match jsonb metadata with
        | None => (db, Err err_json)
        | Some m =>
            match rd_runs db !! run_id with
            | Some r =>
                if bool_decide (rr_current_state r = "preparing")
                then (set_runs db (<[run_id :=
                        mkRunRow (rr_session_key r) (rr_input_event_id r) (rr_idempotency_key r)
                          (rr_status r) (rr_autonomy_mode r) (rr_current_state r)
                          (rr_model_provider r) (rr_provider_session_ref r) (rr_lease_id r)
                          (rr_resumes_run_id r) (rr_started_at r) (ce_now env) (rr_finished_at r)
                          (rr_error_type r) (rr_error_message r) m (rr_task_id r)
                          (rr_task_revision r)]> (rd_runs db)), Ok tt)
                else (db, Err ErrRunNotFound)
            | None => (db, Err ErrRunNotFound)
            end
        end
    end.

(** [RecoverPreparation]; [commit] is the error of the commit.  The row is
    read again after it. *)
Definition RecoverPreparation (env : call_env) (commit : option error) (run_id lease : string)
    (db : run_db) : run_db * res RunRecord_pb :=
  fenced env db
    match ce_db_fault env, rd_runs db !! run_id with
    | Some e, _ => (db, Err e)
    | None, None => (db, Err ErrNoRows)
    | None, Some r =>
        let old := rr_current_state r in
        if negb (bool_decide (old = "acquired")) && negb (bool_decide (old = "preparing"))
        then (db, Err (Errorf "run is beyond safe preparation recovery"))
        else
          match commit with
          | Some e => (db, Err e)
          | None =>
              let r' := move_row "queued" None (Some lease) None (ce_now env) r in
              (add_log (set_runs db (<[run_id := r']> (rd_runs db)))
                 [log_entry run_id old "queued" "checkpoint_recovery"
                    (MetaObject [("recovered_before_model_dispatch", "true")]) (ce_now env)],
               Ok (recordToProto (scanRunRow run_id r')))
          end
    end.

Definition with_lease (lease : string) (now : Z) (r : RunRow) : RunRow :=
  mkRunRow (rr_session_key r) (rr_input_event_id r) (rr_idempotency_key r) (rr_status r)
    (rr_autonomy_mode r) (rr_current_state r) (rr_model_provider r) (rr_provider_session_ref r)
    (Some lease) (rr_resumes_run_id r) (rr_started_at r) now (rr_finished_at r)
    (rr_error_type r) (rr_error_message r) (rr_metadata_json r) (rr_task_id r)
    (rr_task_revision r).

(** [RefreshExecutionLease]: inside a fenced transaction, which checks the
    fence again at commit ([commit_now]). *)
Definition RefreshExecutionLease (pool : nat) (env : call_env) (commit_now : Z)
    (commit : option (error * bool)) (run_id lease : string) (slots : nat) (db : run_db) :
    tx_world run_db * res RunRecord_pb :=
  let w := mkWorld db slots in
  match TokenFromContext (ce_ctx env) with
  | None => (w, Err ErrStale)
  | Some tok =>
      if negb (bool_decide (tok_run_id tok = run_id)) || negb (bool_decide (tok_lease_id tok = lease))
      then (w, Err ErrStale) else
      match BeginTransaction pool (rd_ownership db) (ce_now env) (ce_fence_fault env)
              (ce_ctx env) w with
      | (w1, Err e) => (w1, Err e)
      | (w1, Ok (_, PlainTx)) => (w1, Err ErrStale)
      | (w1, Ok (_, FencedTx t)) =>
          match ce_db_fault env, rd_runs (ft_pending t) !! run_id with
          | Some e, _ => ((Rollback None t w1).1.2, Err e)
          | None, Some r =>
              if IsTerminalRunState (rr_current_state r)
              then ((Rollback None t w1).1.2, Err ErrRunNotFound)
              else
                let r'' := with_lease lease (ce_now env) r in
                let db' := set_runs (ft_pending t) (<[run_id := r'']> (rd_runs (ft_pending t))) in
                let t' := mkFenced db' (ft_token t) (ft_release t) (ft_closed t) in
                match Commit (rd_ownership db') commit_now None commit t' w1 with
                | (_, w2, Some e) => (w2, Err e)
                | (_, w2, None) => (w2, Ok (recordToProto (scanRunRow run_id r'')))
                end
          | None, None => ((Rollback None t w1).1.2, Err ErrRunNotFound)
          end
      end
  end.

(** [suspendInteractionTx]. *)
Definition suspendInteractionTx (env : call_env) (id trigger kind : string) (db : run_db) :
    run_db * res unit :=
  match TokenFromContext (ce_ctx env) with
  | None => (db, Err ErrStale)
  | Some tok =>
      if negb (bool_decide (tok_run_id tok = id)) then (db, Err ErrStale) else
      match ce_db_fault env, rd_runs db !! id with
      | Some e, _ => (db, Err e)
      | None, None => (db, Err ErrStale)
      | None, Some r =>
          if bool_decide (rr_session_key r = tok_session_key tok)
             && bool_decide (rr_lease_id r = Some (tok_lease_id tok))
             && bool_decide (rr_current_state r = "tool_running")
          then
            (add_log (set_runs db (<[id := move_row "awaiting_approval" None None None
                                            (ce_now env) r]> (rd_runs db)))
               [log_entry id "tool_running" "awaiting_approval" trigger
                  (MetaObject [("kind", kind)]) (ce_now env)],
             Ok tt)
          else (db, Err ErrStale)
      end
  end.

Definition SuspendInteractionTx (env : call_env) (id : string) : run_db -> run_db * res unit :=
  suspendInteractionTx env id "communication_interaction" "preference_wait".

Definition SuspendBrowserOutcomeTx (env : call_env) (id : string) : run_db -> run_db * res unit :=
  suspendInteractionTx env id "browser_outcome_review" "effect_review".

(** ** Owner controls *)

(** The columns of [accepted_inputs] and [input_stopped_attempts] that the
    controls read. *)
Record accepted_input := mkAccepted {
  ai_input_id : string;
  ai_run_id : option string;
  ai_owner_id : string;
  ai_task_id : option string;
  ai_status : string;
  ai_claim_id : string;
  ai_claim_expires_at : option Z;
}.

Record stopped_attempt := mkStopped {
  sa_input_id : string;
  sa_run_id : string;
  sa_owner_id : string;
  sa_session_key : string;
  sa_classification : string;
}.

(** [WITH previous .., changed AS (UPDATE ..) INSERT INTO
    run_state_transitions ..]: the selected rows that are not terminal move
    to [state], and each leaves one log entry with its previous state. *)
Definition finish_runs (sel : string -> RunRow -> option json_meta) (state trigger : string)
    (err : option (string * string)) (now : Z) (db : run_db) : run_db :=
  let hit run_id r :=
    if IsTerminalRunState (rr_current_state r) then None else sel run_id r in
  let runs' := map_imap (fun run_id r =>
    Some match hit run_id r with
         | Some _ => move_row state (Some now) None err now r
         | None => r
         end) (rd_runs db) in
  add_log (set_runs db runs')
    (omap (fun kr : string * RunRow =>
             match hit kr.1 kr.2 with
             | Some meta => Some (log_entry kr.1 (rr_current_state kr.2) state trigger meta now)
             | None => None
             end) (map_to_list (rd_runs db))).

(** [FailStoppedKernelTx]. *)
Definition FailStoppedKernelTx (fault : option error) (now : Z) (inputs : list accepted_input)
    (attempts : list stopped_attempt) (inputID : string) (db : run_db) : run_db * res unit :=
  match fault with
  | Some e => (db, Err e)
  | None =>
      let sel run_id r :=
        i ← list_find (fun i => ai_run_id i = Some run_id /\ ai_input_id i = inputID
               /\ ai_status i = "failed" /\ ai_claim_id i = "" /\ ai_claim_expires_at i = None) inputs;
        f ← list_find (fun f => sa_input_id f = ai_input_id i.2 /\ sa_run_id f = run_id
               /\ sa_owner_id f = ai_owner_id i.2 /\ sa_session_key f = rr_session_key r) attempts;
        Some (MetaObject [("kind", "stopped_attempt_finalized"); ("input_id", inputID);
                          ("classification", sa_classification f.2);
                          ("effect_reconciled", "false")]) in
      (finish_runs sel "failed" "kernel" None now db, Ok tt)
  end.

(** [owneridentity.FromContext]. *)
Record owner_identity := mkOwner { oi_owner_id : string; oi_delivery_id : string }.

(** [FailStoppedInputTx]; [ack] is the JSON list of the acknowledged unknown
    effects. *)
Definition FailStoppedInputTx (fault : option error) (now : Z) (who : option owner_identity)
    (inputs : list accepted_input) (id inputID ack : string) (db : run_db) : run_db * res unit :=
  match who with
  | None => (db, Err ErrStale)
  | Some a =>
      if bool_decide (oi_owner_id a = "") || bool_decide (oi_delivery_id a = "")
      then (db, Err ErrStale) else
      match fault with
      | Some e => (db, Err e)
      | None =>
          let sel run_id (r : RunRow) :=
            if bool_decide (run_id = id) then
              i ← list_find (fun i => ai_run_id i = Some run_id /\ ai_input_id i = inputID
                     /\ ai_owner_id i = oi_owner_id a /\ ai_task_id i = None
                     /\ ai_status i = "failed") inputs;
              Some (MetaObject [("kind", "close_stopped_input"); ("input_id", inputID);
                                ("control_id", oi_delivery_id a); ("unknown_effect_ids", ack);
                                ("effect_reconciled", "false")])
            else None in
          (finish_runs sel "failed" "owner" None now db, Ok tt)
      end
  end.

(** [CancelForControlTx]. *)
Definition CancelForControlTx (fault : option error) (now : Z) (taskIDs : list string)
    (controlID : string) (db : run_db) : run_db * res unit :=
  match fault with
  | Some e => (db, Err e)
  | None =>
      let sel (_ : string) r :=
        match rr_task_id r with
        | Some t => if bool_decide (t ∈ taskIDs)
                    then Some (MetaObject [("control_id", controlID)]) else None
        | None => None
        end in
      (finish_runs sel "cancelled" "owner" (Some ("owner_control", controlID)) now db, Ok tt)
  end.

(** ** Writers of the table in other packages *)

(** [task.ErrConflict], [approval.ErrActionInvalid] and
    [singletabcontrol.ErrDenied]. *)
Definition task_ErrConflict : error :=
  ErrNew "task.ErrConflict" "task revision or state conflict".
Definition approval_ErrActionInvalid : error :=
  ErrNew "ErrActionInvalid" "approval action changed, expired or cancelled".
Definition singletab_ErrDenied : error :=
  ErrNew "singletabcontrol.ErrDenied" "current guarded owner tab selection required".

(** [SET task_id=.., task_revision=..]. *)
Definition with_task (task : string) (revision : Z) (r : RunRow) : RunRow :=
  mkRunRow (rr_session_key r) (rr_input_event_id r) (rr_idempotency_key r) (rr_status r)
    (rr_autonomy_mode r) (rr_current_state r) (rr_model_provider r) (rr_provider_session_ref r)
    (rr_lease_id r) (rr_resumes_run_id r) (rr_started_at r) (rr_updated_at r) (rr_finished_at r)
    (rr_error_type r) (rr_error_message r) (rr_metadata_json r) (Some task) (Some revision).

(** What [AttachRun] meets outside the run tables: the locked row of table
    [tasks] (revision, status and session), the answer of
    [CheckTaskAuthorityTx], and the faults of the two statements and of the
    commit. *)
Record attach_world := mkAttachWorld {
  aw_task : res (Z * string * string);
  aw_update : option error;
  aw_authority : option error;
  aw_last_run : option error;
  aw_commit : option error;
}.

(** [Store.AttachRun] of package [task]: the run is bound to a task that is
    active at the given revision, unless it is bound to another one. *)
Definition AttachRun (env : call_env) (w : attach_world) (task : string) (revision : Z)
    (run_id session : string) (db : run_db) : run_db * res unit :=
  fenced env db
    match ce_db_fault env, aw_task w with
    | Some e, _ => (db, Err e)
    | None, Err e => (db, Err e)
    | None, Ok (rev, status, key) =>
        if negb (Z.eqb rev revision) || negb (bool_decide (status = "active"))
           || negb (bool_decide (key = session))
        then (db, Err task_ErrConflict) else
        match aw_update w, rd_runs db !! run_id with
        | Some e, _ => (db, Err e)
        | None, None => (db, Err task_ErrConflict)
        | None, Some r =>
            if bool_decide (rr_session_key r = session)
               && (bool_decide (rr_task_id r = None)
                   || bool_decide (rr_task_id r = Some task)
                      && bool_decide (rr_task_revision r = Some revision))
            then match aw_authority w, aw_last_run w, aw_commit w with
                 | Some e, _, _ | None, Some e, _ | None, None, Some e => (db, Err e)
                 | None, None, None =>
                     (set_runs db (<[run_id := with_task task revision r]> (rd_runs db)), Ok tt)
                 end
            else (db, Err task_ErrConflict)
        end
    end.

(** The statements of [CreateDurable] (package [approval]) on the run tables:
    the run is locked in [tool_pending] and suspended.  [other] is the first
    error of the rest of the transaction, which includes its checks of the
    owner and of the task; the whole call is [CreateDurable] of file
    [Approval]. *)
Definition durable_suspend_run (env : call_env) (other : option error) (run_id session : string)
    (meta : json_meta) (db : run_db) : run_db * res unit :=
  fenced env db
    match ce_db_fault env, rd_runs db !! run_id with
    | Some e, _ => (db, Err e)
    | None, None => (db, Err ErrNoRows)
    | None, Some r =>
        if negb (bool_decide (rr_session_key r = session)) then (db, Err ErrNoRows) else
        if negb (bool_decide (rr_current_state r = "tool_pending"))
        then (db, Err approval_ErrActionInvalid) else
        match other with
        | Some e => (db, Err e)
        | None =>
            (add_log (set_runs db (<[run_id := move_row "awaiting_approval" None None None
                                                 (ce_now env) r]> (rd_runs db)))
               [log_entry run_id "tool_pending" "awaiting_approval" "orchestrator" meta
                  (ce_now env)], Ok tt)
        end
    end.

(** The fields of [resources.Binding] and of the selection that
    [suspendSelectionTx] reads. *)
Record tab_selection := mkTabSelection {
  ts_run_id : string;
  ts_session_key : string;
  ts_task_id : string;
  ts_task_revision : Z;
  ts_lease_epoch : Z;
  ts_expires_at : Z;
}.

(** [suspendSelectionTx] of package [singletab], from [tool_pending]
    ([SuspendSelectionTx]) or [tool_running] ([SuspendToolSelectionTx]).
    [suspend] is the error of the input queue, [task_ok] whether the task row
    was moved, [late] whether the source guard and the pending claim were
    confirmed after the writes; an error rolls the transaction back. *)
Definition suspendSelectionTx (env : call_env) (suspend : option error) (task_ok late : bool)
    (b : tab_selection) (payload : json_meta) (from : string) (db : run_db) :
    run_db * res unit :=
  match suspend with
  | Some e => (db, Err e)
  | None =>
      match ce_db_fault env, rd_runs db !! ts_run_id b with
      | None, Some r =>
          if negb (bool_decide (rr_session_key r = ts_session_key b)
                   && bool_decide (rr_task_id r = Some (ts_task_id b))
                   && bool_decide (rr_task_revision r = Some (ts_task_revision b))
                   && bool_decide (rr_current_state r = from)) || negb task_ok
          then (db, Err singletab_ErrDenied) else
          match TokenFromContext (ce_ctx env), rd_ownership db !! ts_session_key b with
          | Some tok, Some own =>
              if bool_decide (own_run_id own = ts_run_id b)
                 && bool_decide (own_lease_id own = tok_lease_id tok)
                 && Z.eqb (own_fence_epoch own) (ts_lease_epoch b)
                 && Z.ltb (ce_now env) (own_expires_at own) && Z.ltb (ce_now env) (ts_expires_at b)
                 && late
              then (add_log (set_runs db (<[ts_run_id b :=
                               move_row "awaiting_approval" None None None (ce_now env) r]>
                               (rd_runs db)))
                      [log_entry (ts_run_id b) from "awaiting_approval" "orchestrator" payload
                         (ce_now env)], Ok tt)
              else (db, Err singletab_ErrDenied)
          | _, _ => (db, Err singletab_ErrDenied)
          end
      | _, _ => (db, Err singletab_ErrDenied)
      end
  end.

Definition SuspendSelectionTx (env : call_env) (suspend : option error) (task_ok late : bool)
    (b : tab_selection) (payload : json_meta) : run_db -> run_db * res unit :=
  suspendSelectionTx env suspend task_ok late b payload "tool_pending".

(** [mapped]: the guarded dispatch of the request is on record. *)
Definition SuspendToolSelectionTx (env : call_env) (mapped : bool) (suspend : option error)
    (task_ok late : bool) (b : tab_selection) (payload : json_meta) (db : run_db) :
    run_db * res unit :=
  if negb mapped then (db, Err singletab_ErrDenied)
  else suspendSelectionTx env suspend task_ok late b payload "tool_running" db.

(** [redactPinnedRunsTx] of package [catalog] on table [runs]: the metadata
    of the runs [pinned] to the deleted sources becomes the object [meta]. *)
Definition with_metadata (meta : string) (r : RunRow) : RunRow :=
  mkRunRow (rr_session_key r) (rr_input_event_id r) (rr_idempotency_key r) (rr_status r)
    (rr_autonomy_mode r) (rr_current_state r) (rr_model_provider r) (rr_provider_session_ref r)
    (rr_lease_id r) (rr_resumes_run_id r) (rr_started_at r) (rr_updated_at r) (rr_finished_at r)
    (rr_error_type r) (rr_error_message r) meta (rr_task_id r) (rr_task_revision r).

Definition redactPinnedRuns (pinned : gset string) (meta : string) (db : run_db) : run_db :=
  set_runs db (map_imap (fun run_id r =>
    Some (if bool_decide (run_id ∈ pinned) then with_metadata meta r else r)) (rd_runs db)).

(** ** Histories of the run table *)

Section histories.
Context (jsonb : string -> option string).

(** One write of the run tables, as any process of the deployment makes it:
    the calls of the package and the writers in other packages.  An operation
    of an enclosing transaction that is rolled back does not happen. *)
Inductive run_op :=
| OpCreateRun (env : call_env) (random : option string) (req : CreateRunRequest)
| OpTransition (env : call_env) (req : UpdateRunStateRequest)
| OpProviderRef (env : call_env) (run_id ref : string)
| OpInsertLog (env : call_env) (run_id from to trigger meta : string) (at_ : Z)
| OpComplete (env : call_env) (run_id : string) (at_ : Z)
| OpPreparation (env : call_env) (run_id metadata : string)
| OpRecover (env : call_env) (commit : option error) (run_id lease : string)
| OpRefresh (pool : nat) (env : call_env) (commit_now : Z) (commit : option (error * bool))
    (run_id lease : string) (slots : nat)
| OpSuspend (env : call_env) (id trigger kind : string)
| OpFailKernel (fault : option error) (now : Z) (inputs : list accepted_input)
    (attempts : list stopped_attempt) (inputID : string)
| OpFailInput (fault : option error) (now : Z) (who : option owner_identity)
    (inputs : list accepted_input) (id inputID ack : string)
| OpCancel (fault : option error) (now : Z) (taskIDs : list string) (controlID : string)
| OpAttach (env : call_env) (w : attach_world) (task : string) (revision : Z)
    (run_id session : string)
| OpDurable (env : call_env) (other : option error) (run_id session : string) (meta : json_meta)
| OpSelection (env : call_env) (suspend : option error) (task_ok late : bool)
    (b : tab_selection) (payload : json_meta)
| OpToolSelection (env : call_env) (mapped : bool) (suspend : option error)
    (task_ok late : bool) (b : tab_selection) (payload : json_meta)
| OpRedactRuns (pinned : gset string) (meta : string).

Definition run_apply (op : run_op) (db : run_db) : run_db :=
  match op with
  | OpCreateRun env random req => (svc_CreateRun jsonb env random req db).1
  | OpTransition env req => (svc_TransitionRun env req db).1
  | OpProviderRef env id ref => (svc_PersistProviderSessionRef env id ref db).1
  | OpInsertLog env id from to trigger meta at_ =>
      (InsertTransition jsonb env id from to trigger meta at_ db).1
  | OpComplete env id at_ => (CompleteTx env id at_ db).1
  | OpPreparation env id meta => (UpdatePreparation jsonb env id meta db).1
  | OpRecover env commit id lease => (RecoverPreparation env commit id lease db).1
  | OpRefresh pool env cn commit id lease slots =>
      tw_db (RefreshExecutionLease pool env cn commit id lease slots db).1
  | OpSuspend env id trigger kind => (suspendInteractionTx env id trigger kind db).1
  | OpFailKernel fault now inputs attempts id =>
      (FailStoppedKernelTx fault now inputs attempts id db).1
  | OpFailInput fault now who inputs id inputID ack =>
      (FailStoppedInputTx fault now who inputs id inputID ack db).1
  | OpCancel fault now ids control => (CancelForControlTx fault now ids control db).1
  | OpAttach env w task revision id session => (AttachRun env w task revision id session db).1
  | OpDurable env other id session meta => (durable_suspend_run env other id session meta db).1
  | OpSelection env suspend task_ok late b payload =>
      (SuspendSelectionTx env suspend task_ok late b payload db).1
  | OpToolSelection env mapped suspend task_ok late b payload =>
      (SuspendToolSelectionTx env mapped suspend task_ok late b payload db).1
  | OpRedactRuns pinned meta => redactPinnedRuns pinned meta db
  end.

Definition run_history (ops : list run_op) (db : run_db) : run_db :=
  foldl (fun d op => run_apply op d) db ops.
End histories.

(** The moves a run makes between states: the edges of the table, and three
    that owning transactions make beside it. *)
Inductive run_move : RunState -> RunState -> Prop :=
| move_edge s s' : edge s s' -> run_move s s'
| move_recover_acquired : run_move RunStateAcquired RunStateQueued
| move_recover_preparing : run_move RunStatePreparing RunStateQueued
| move_suspend : run_move RunStateToolRunning RunStateAwaitingApproval.

(** Columns that no operation changes; the task is bound once. *)
Definition same_identity (r r' : RunRow) : Prop :=
  rr_session_key r' = rr_session_key r /\ rr_input_event_id r' = rr_input_event_id r
  /\ rr_idempotency_key r' = rr_idempotency_key r /\ rr_autonomy_mode r' = rr_autonomy_mode r
  /\ rr_model_provider r' = rr_model_provider r /\ rr_resumes_run_id r' = rr_resumes_run_id r
  /\ rr_started_at r' = rr_started_at r
  /\ (rr_task_id r = None
      \/ rr_task_id r' = rr_task_id r /\ rr_task_revision r' = rr_task_revision r).

Definition same_state (r r' : RunRow) : Prop :=
  rr_status r' = rr_status r /\ rr_current_state r' = rr_current_state r
  /\ rr_finished_at r' = rr_finished_at r.

Definition moved (r r' : RunRow) : Prop :=
  exists s s', rr_current_state r = run_state_name s /\ rr_current_state r' = run_state_name s'
    /\ rr_status r' = run_state_name s' /\ run_move s s'
    /\ (is_Some (rr_finished_at r') <-> terminal s' = true).

Definition row_evolves (r r' : RunRow) : Prop :=
  same_identity r r' /\ (same_state r r' \/ moved r r').

(** A well-formed row. *)
Definition row_ok (r : RunRow) : Prop :=
  rr_status r = rr_current_state r
  /\ exists s, rr_current_state r = run_state_name s
       /\ (is_Some (rr_finished_at r) <-> terminal s = true).

Definition fresh_row (db : run_db) (r : RunRow) : Prop :=
  rr_status r = "created" /\ rr_current_state r = "created" /\ rr_finished_at r = None
  /\ rr_session_key r ∈ rd_sessions db
  /\ forall id r' k, rd_runs db !! id = Some r' -> rr_session_key r' = rr_session_key r ->
       rr_idempotency_key r = Some k -> rr_idempotency_key r' = Some k -> False.

Definition db_evolves (db db' : run_db) : Prop :=
  rd_sessions db' = rd_sessions db /\ rd_ownership db' = rd_ownership db
  /\ (forall id r, rd_runs db !! id = Some r ->
        exists r', rd_runs db' !! id = Some r' /\ row_evolves r r')
  /\ (rd_runs db' = rd_runs db
      \/ (forall id, rd_runs db !! id = None -> rd_runs db' !! id = None)
      \/ exists id r, rd_runs db !! id = None /\ fresh_row db r
           /\ rd_runs db' = <[id := r]> (rd_runs db)).

Definition rows_ok (db : run_db) : Prop := forall id r, rd_runs db !! id = Some r -> row_ok r.

(** ** Every operation evolves every row *)

Ltac same_identity := split_and!; try done; by right.

Lemma same_identity_refl r : same_identity r r.
Proof. same_identity. Qed.

Lemma same_identity_trans r1 r2 r3 :
  same_identity r1 r2 -> same_identity r2 r3 -> same_identity r1 r3.
Proof.
  intros (A1 & A2 & A3 & A4 & A5 & A6 & A7 & A8) (B1 & B2 & B3 & B4 & B5 & B6 & B7 & B8).
  split_and!; try congruence. destruct A8 as [A8|[A8 A9]]; [by left|].
  destruct B8 as [B8|[B8 B9]]; [left; congruence|right; split; congruence].
Qed.

Lemma row_evolves_refl r : row_evolves r r.
Proof. split; [apply same_identity_refl|left; by split_and!]. Qed.

Lemma db_evolves_refl db : db_evolves db db.
Proof. split_and!; try done; [|by left]. eauto using row_evolves_refl. Qed.

#[export] Hint Resolve row_evolves_refl db_evolves_refl : go.

Lemma db_evolves_update db id r r' log :
  rd_runs db !! id = Some r -> row_evolves r r' ->
  db_evolves db (mkRunDb (rd_sessions db) (rd_ownership db) (<[id := r']> (rd_runs db)) log).
Proof.
  intros Hr Hev. split_and!; try done; simpl.
  - intros id0 r0 H0. destruct (decide (id = id0)) as [<-|Hne].
    + rewrite lookup_insert_eq. simplify_eq. eauto.
    + rewrite lookup_insert_ne; [done|]. eauto with go.
  - right. left. intros id0 H0. rewrite lookup_insert_ne; [congruence|done].
Qed.

Lemma run_move_not_terminal s s' : run_move s s' -> terminal s = false.
Proof.
  destruct 1 as [s s' He| | |]; [|done..]. destruct (terminal s) eqn:E; [|done].
  by apply (terminal_no_edge _ _ E) in He.
Qed.

Lemma not_terminal_fails s : terminal s = false ->
  edge s RunStateFailed /\ edge s RunStateCancelled.
Proof. unfold edge. destruct s; intros; try done; split; set_solver. Qed.

(** A row in the state with the given name. *)
Lemma moved_row r s s' finished lease err now :
  row_ok r -> rr_current_state r = run_state_name s -> run_move s s' ->
  (is_Some finished <-> terminal s' = true) ->
  row_evolves r (move_row (run_state_name s') finished lease err now r).
Proof.
  intros (Hst & s0 & Hs0 & Hfin) Hs Hm Hf. split; [same_identity|]. right.
  exists s, s'. split_and!; try done. simpl.
  rewrite Hs in Hs0. apply (inj run_state_name) in Hs0 as <-.
  rewrite (run_move_not_terminal _ _ Hm) in Hfin.
  destruct finished; [done|]. destruct (rr_finished_at r); [|done].
  exfalso. by assert (false = true) by (apply Hfin; eauto).
Qed.

Lemma fenced_cases {A} env db (k : run_db * res A) :
  (fenced env db k).1 = db \/ fenced env db k = k.
Proof. unfold fenced. destruct (Begin _ _ _ _); auto. Qed.

Lemma finish_runs_evolves sel s' trigger err now db :
  rows_ok db -> (s' = RunStateFailed \/ s' = RunStateCancelled) ->
  db_evolves db (finish_runs sel (run_state_name s') trigger err now db).
Proof.
  intros Hok Hs'. split_and!; try done; simpl.
  - intros id r Hr. rewrite map_lookup_imap Hr. simpl. eexists. split; [done|].
    destruct (IsTerminalRunState (rr_current_state r)) eqn:Ht; [eauto with go|].
    destruct (sel id r); [|eauto with go].
    pose proof (Hok _ _ Hr) as Hrow. destruct Hrow as (_ & s & Hs & _).
    apply (moved_row _ s); [by apply (Hok id)|done| |].
    + rewrite Hs IsTerminal_name in Ht. destruct (not_terminal_fails _ Ht).
      apply move_edge. destruct Hs' as [->| ->]; done.
    + destruct Hs' as [->| ->]; split; eauto.
  - right. left. intros id Hid. by rewrite map_lookup_imap Hid.
Qed.

Lemma duplicate_key_spec runs session k :
  duplicate_key runs session (Some k) = false ->
  forall id r, runs !! id = Some r -> rr_session_key r = session ->
    rr_idempotency_key r = Some k -> False.
Proof.
  unfold duplicate_key. intros H id r Hr Hs Hk.
  rewrite -not_true_iff_false existsb_exists in H. apply H. exists (id, r). split.
  - apply list_elem_of_In, elem_of_map_to_list, Hr.
  - simpl. by rewrite !bool_decide_true.
Qed.

Lemma repo_CreateRun_evolves jsonb env rec db :
  rc_status rec = "created" -> rc_current_state rec = "created" -> rc_finished_at rec = None ->
  db_evolves db (repo_CreateRun jsonb env rec db).1.
Proof.
  intros Hst Hcs Hfin. unfold repo_CreateRun.
  destruct (ce_db_fault env); [auto with go|]. destruct (jsonb _); [|auto with go].
  cbv zeta. destruct (_ || _) eqn:Hdup; [auto with go|].
  apply orb_false_iff in Hdup as [Hid%bool_decide_eq_false Hdup].
  destruct (negb _) eqn:Hsess; [auto with go|].
  apply negb_false_iff, bool_decide_eq_true in Hsess.
  match goal with |- context [<[_ := ?row]> _] => set (r := row) in * end.
  assert (Hnone : rd_runs db !! rc_run_id rec = None).
  { destruct (rd_runs db !! rc_run_id rec); [|done]. exfalso. eauto. }
  split_and!; try done; simpl.
  - intros id r0 Hr0. rewrite lookup_insert_ne; [congruence|]. eauto with go.
  - right. right. exists (rc_run_id rec), r. split_and!; try done.
    split_and!; try done. intros id r' k Hr' Hs Hk Hk'.
    rewrite Hk in Hdup. exact (duplicate_key_spec _ _ _ Hdup id r' Hr' Hs Hk').
Qed.

Lemma svc_CreateRun_evolves jsonb env random req db :
  db_evolves db (svc_CreateRun jsonb env random req db).1.
Proof.
  unfold svc_CreateRun. destruct (validateCreateRunRequest req); [|auto with go]. cbv zeta.
  match goal with |- context [repo_CreateRun _ _ ?rec _] =>
    pose proof (repo_CreateRun_evolves jsonb env rec db eq_refl eq_refl eq_refl) as H end.
  destruct (repo_CreateRun _ _ _ _) as [db' [r|e]]; [done|]. by destruct (_ && _).
Qed.

(** What an accepted transition request has established. *)
Lemma validateTransition_ok req p :
  validateTransitionRequest req = Ok p ->
  tp_run_id p = TrimSpace (ur_run_id req) /\ tp_run_id p <> ""
  /\ (is_Some (tp_finished_at p) -> IsTerminalRunState (tp_to_state p) = true).
Proof.
  unfold validateTransitionRequest. intros H. go_ok H. injection H as <-. simpl.
  split_and!; [done|by unbool|]. intros Hf.
  match goal with H : _ && _ = false |- _ => rename H into Hc end.
  rewrite bool_decide_true in Hc; [done|]. simpl in Hc. by unbool.
Qed.

Lemma svc_TransitionRun_evolves env req db :
  rows_ok db -> db_evolves db (svc_TransitionRun env req db).1.
Proof.
  intros Hok. unfold svc_TransitionRun.
  destruct (validateTransitionRequest req) as [p|] eqn:Hp; [|auto with go].
  destruct (ValidateRunStateTransition _ _) as [[]|] eqn:Hv; [|auto with go]. cbv zeta.
  apply validateTransition_ok in Hp as (_ & _ & Hfin).
  apply validate_edge in Hv as (s & s' & Hs & Hs' & He).
  destruct (repo_UpdateRun _ _ _) as [db' x] eqn:E. simpl. change db' with (db', x).1.
  rewrite -E. clear E db' x. unfold repo_UpdateRun.
  match goal with |- context [fenced env db ?k] =>
    destruct (fenced_cases env db k) as [->| ->]; [auto with go|] end.
  destruct (ce_db_fault env); [auto with go|]. simpl.
  destruct (rd_runs db !! tp_run_id p) as [r|] eqn:Hr; [|auto with go].
  case_bool_decide as Hc; [|auto with go]. apply (db_evolves_update db _ r); [done|].
  split; [same_identity|]. right. exists s, s'. simpl. split_and!; try congruence.
  - by apply move_edge.
  - rewrite -(IsTerminal_name s') -Hs'.
    destruct (tp_finished_at p); [by split; eauto|].
    destruct (IsTerminalRunState _); done.
Qed.

Lemma tx_world_db {S} (t : fencedTransaction S) (w : tx_world S) :
  tw_db (ft_close t w).2 = tw_db w.
Proof. unfold ft_close, run_release. by destruct (ft_release t) as [|[]]. Qed.

Lemma Rollback_db {S} f (t : fencedTransaction S) (w : tx_world S) :
  tw_db (Rollback f t w).1.2 = tw_db w.
Proof. unfold Rollback. destruct (ft_closed t); [done|]. apply tx_world_db. Qed.

Lemma Commit_db {S} tbl now q cm (t : fencedTransaction S) (w : tx_world S) :
  tw_db (Commit tbl now q cm t w).1.2 = tw_db w
  \/ tw_db (Commit tbl now q cm t w).1.2 = ft_pending t.
Proof.
  unfold Commit. destruct (ft_closed t) eqn:Hc; [auto|].
  destruct (validate _ _ _ _).
  - left. apply Rollback_db.
  - simpl. destruct (match cm with None => true | Some (_, b) => b end);
      rewrite tx_world_db; auto.
Qed.

Lemma BeginTransaction_db {S} pool tbl now fault ctx (w w1 : tx_world S) r :
  BeginTransaction pool tbl now fault ctx w = (w1, r) ->
  tw_db w1 = tw_db w
  /\ forall c t, r = Ok (c, FencedTx t) -> ft_pending t = tw_db w.
Proof.
  unfold BeginTransaction. destruct ctx as [e|]; [|destruct fault as [[]|]; naive_solver].
  destruct (match exe_authority e with None => true | Some _ => _ end); [naive_solver|].
  destruct (exe_guarded e), fault as [[]|]; simpl;
    destruct (fence_valid tbl now (exe_token e)); naive_solver.
Qed.

Lemma Refresh_evolves pool env cn commit id lease slots db :
  db_evolves db (tw_db (RefreshExecutionLease pool env cn commit id lease slots db).1).
Proof.
  unfold RefreshExecutionLease. destruct (TokenFromContext _) as [tok|]; [|auto with go].
  destruct (_ || _); [auto with go|].
  destruct (BeginTransaction _ _ _ _ _ _) as [w1 r] eqn:E.
  apply BeginTransaction_db in E as [Hw Ht].
  assert (Hsame : db_evolves db (tw_db w1)) by (rewrite Hw; auto with go).
  destruct r as [[c [|t]]|e]; [done| |done]. specialize (Ht c t eq_refl). rewrite Ht.
  destruct (ce_db_fault env); [simpl; by rewrite Rollback_db|].
  destruct (rd_runs _ !! id) as [row|] eqn:Hrow; [|simpl; by rewrite Rollback_db].
  destruct (IsTerminalRunState _); [simpl; by rewrite Rollback_db|]. cbv zeta.
  match goal with |- context [Commit ?a ?b ?c0 ?d ?e0 ?f] =>
    destruct (Commit_db a b c0 d e0 f) as [Hc|Hc];
    destruct (Commit a b c0 d e0 f) as [[t2 w2] [err|]] end; simpl in Hc |- *; rewrite Hc;
    try done; apply (db_evolves_update db _ row); try done;
    (split; [same_identity|left; by split_and!]).
Qed.

Lemma AttachRun_evolves env w task revision id session db :
  db_evolves db (AttachRun env w task revision id session db).1.
Proof.
  unfold AttachRun, fenced. destruct (Begin _ _ _ _); [|auto with go].
  destruct (ce_db_fault env); [auto with go|].
  destruct (aw_task w) as [[[rev st] key]|]; [|auto with go].
  destruct (_ || _); [auto with go|]. destruct (aw_update w); [auto with go|].
  destruct (rd_runs db !! id) as [r|] eqn:Hr; [|auto with go].
  destruct (_ && _) eqn:Hc; [|auto with go].
  destruct (aw_authority w), (aw_last_run w), (aw_commit w); try (by auto with go).
  apply (db_evolves_update db _ r); [done|]. split; [|left; by split_and!].
  apply andb_true_iff in Hc as [_ Hc]. split_and!; try done.
  apply orb_true_iff in Hc as [Hc|Hc]; unbool; [by left|right; simpl; split; congruence].
Qed.

Lemma suspended_row r s now : row_ok r -> rr_current_state r = run_state_name s ->
  s = RunStateToolPending \/ s = RunStateToolRunning ->
  row_evolves r (move_row "awaiting_approval" None None None now r).
Proof.
  intros Hok Hs Hor. apply (moved_row r s RunStateAwaitingApproval); [done|done| |by split; [intros []|]].
  destruct Hor as [->| ->]; [|apply move_suspend]. apply move_edge. vm_compute. set_solver.
Qed.

Lemma durable_suspend_evolves env other id session meta db :
  rows_ok db -> db_evolves db (durable_suspend_run env other id session meta db).1.
Proof.
  intros Hok. unfold durable_suspend_run, fenced. destruct (Begin _ _ _ _); [|auto with go].
  destruct (ce_db_fault env); [auto with go|].
  destruct (rd_runs db !! id) as [r|] eqn:Hr; [|auto with go].
  destruct (negb _); [auto with go|]. destruct (negb _) eqn:Hc; [auto with go|].
  destruct other; [auto with go|]. unbool. apply (db_evolves_update db _ r); [done|].
  apply (suspended_row r RunStateToolPending); auto. by apply (Hok id).
Qed.

Lemma suspendSelection_evolves env suspend task_ok late b payload from db :
  rows_ok db -> from = "tool_pending" \/ from = "tool_running" ->
  db_evolves db (suspendSelectionTx env suspend task_ok late b payload from db).1.
Proof.
  intros Hok Hfrom. unfold suspendSelectionTx. destruct suspend; [auto with go|].
  destruct (ce_db_fault env); [auto with go|].
  destruct (rd_runs db !! ts_run_id b) as [r|] eqn:Hr; [|auto with go].
  destruct (_ || _) eqn:Hc; [auto with go|]. apply orb_false_iff in Hc as [Hc _]. unbool.
  destruct (TokenFromContext _); [|auto with go].
  destruct (rd_ownership db !! _); [|auto with go]. destruct (_ && _); [|auto with go].
  apply (db_evolves_update db _ r); [done|].
  destruct Hfrom as [->| ->];
    [apply (suspended_row r RunStateToolPending)|apply (suspended_row r RunStateToolRunning)];
    auto; by apply (Hok (ts_run_id b)).
Qed.

Lemma redactPinnedRuns_evolves pinned meta db : db_evolves db (redactPinnedRuns pinned meta db).
Proof.
  split_and!; try done; simpl.
  - intros id r Hr. rewrite map_lookup_imap Hr. simpl. eexists. split; [done|].
    case_bool_decide; [|auto with go]. split; [same_identity|left; by split_and!].
  - right. left. intros id Hid. by rewrite map_lookup_imap Hid.
Qed.

Lemma run_apply_evolves jsonb op db : rows_ok db -> db_evolves db (run_apply jsonb op db).
Proof.
  intros Hok. destruct op; simpl.
  - apply svc_CreateRun_evolves.
  - by apply svc_TransitionRun_evolves.
  - unfold svc_PersistProviderSessionRef. case_bool_decide; [auto with go|].
    unfold repo_UpdateProviderSessionRef, fenced.
    destruct (Begin _ _ _ _); [|auto with go]. destruct (ce_db_fault env); [auto with go|].
    destruct (rd_runs db !! _) as [r|] eqn:Hr; [|auto with go].
    apply (db_evolves_update db _ r); [done|]. split; [same_identity|left; by split_and!].
  - unfold InsertTransition, fenced.
    destruct (Begin _ _ _ _); [|auto with go]. destruct (ce_db_fault env); [auto with go|].
    destruct (jsonb _); [|auto with go]. case_bool_decide; [|auto with go].
    split_and!; try done; [|by left]. eauto with go.
  - unfold CompleteTx. destruct (TokenFromContext _); [|auto with go].
    destruct (negb _); [auto with go|]. destruct (ce_db_fault env); [auto with go|].
    destruct (rd_runs db !! run_id) as [r|] eqn:Hr; [|auto with go].
    destruct (_ && _) eqn:Hc; [|auto with go]. unbool.
    apply (db_evolves_update db _ r); [done|].
    apply (moved_row r RunStateFinalizing RunStateCompleted); [by apply (Hok run_id)|done| |done].
    apply move_edge. vm_compute. set_solver.
  - unfold UpdatePreparation, fenced.
    destruct (Begin _ _ _ _); [|auto with go]. destruct (ce_db_fault env); [auto with go|].
    destruct (jsonb _); [|auto with go].
    destruct (rd_runs db !! run_id) as [r|] eqn:Hr; [|auto with go].
    case_bool_decide; [|auto with go]. apply (db_evolves_update db _ r); [done|].
    split; [same_identity|left; by split_and!].
  - unfold RecoverPreparation, fenced.
    destruct (Begin _ _ _ _); [|auto with go]. destruct (ce_db_fault env); [auto with go|].
    destruct (rd_runs db !! run_id) as [r|] eqn:Hr; [|auto with go].
    destruct (_ && _) eqn:Hc; [auto with go|]. destruct commit; [auto with go|].
    apply (db_evolves_update db _ r); [done|].
    apply andb_false_iff in Hc as [Hc|Hc]; unbool;
      [apply (moved_row r RunStateAcquired RunStateQueued); [|done|apply move_recover_acquired|]
      |apply (moved_row r RunStatePreparing RunStateQueued); [|done|apply move_recover_preparing|]];
      try (by apply (Hok run_id)); split; [by intros []|done|by intros []|done].
  - apply Refresh_evolves.
  - unfold suspendInteractionTx. destruct (TokenFromContext _); [|auto with go].
    destruct (negb _); [auto with go|]. destruct (ce_db_fault env); [auto with go|].
    destruct (rd_runs db !! id) as [r|] eqn:Hr; [|auto with go].
    destruct (_ && _) eqn:Hc; [|auto with go]. unbool.
    apply (db_evolves_update db _ r); [done|].
    apply (moved_row r RunStateToolRunning RunStateAwaitingApproval);
      [by apply (Hok id)|done|apply move_suspend|]. split; [by intros []|done].
  - unfold FailStoppedKernelTx. destruct fault; [auto with go|].
    apply (finish_runs_evolves _ RunStateFailed); auto.
  - unfold FailStoppedInputTx. destruct who; [|auto with go].
    destruct (_ || _); [auto with go|]. destruct fault; [auto with go|].
    apply (finish_runs_evolves _ RunStateFailed); auto.
  - unfold CancelForControlTx. destruct fault; [auto with go|].
    apply (finish_runs_evolves _ RunStateCancelled); auto.
  - apply AttachRun_evolves.
  - by apply durable_suspend_evolves.
  - apply suspendSelection_evolves; auto.
  - unfold SuspendToolSelectionTx. destruct (negb mapped); [auto with go|].
    apply suspendSelection_evolves; auto.
  - apply redactPinnedRuns_evolves.
Qed.

(** ** Invariants of histories *)

Definition keys_unique (db : run_db) : Prop :=
  forall id1 id2 r1 r2 k, rd_runs db !! id1 = Some r1 -> rd_runs db !! id2 = Some r2 ->
    rr_session_key r1 = rr_session_key r2 ->
    rr_idempotency_key r1 = Some k -> rr_idempotency_key r2 = Some k -> id1 = id2.

Definition sessions_exist (db : run_db) : Prop :=
  forall id r, rd_runs db !! id = Some r -> rr_session_key r ∈ rd_sessions db.

Definition run_db_ok (db : run_db) : Prop := rows_ok db /\ sessions_exist db /\ keys_unique db.

Lemma row_ok_evolves r r' : row_ok r -> row_evolves r r' -> row_ok r'.
Proof.
  intros (Hst & s & Hs & Hf) [_ [(H1 & H2 & H3)|(a & b & _ & Hb & Hsb & _ & Hfb)]].
  - split; [congruence|]. exists s. rewrite H2 H3. done.
  - split; [congruence|]. eauto.
Qed.

(** A row after an operation: an evolved one or a new one. *)
Lemma db_evolves_rows db db' id r' : db_evolves db db' -> rd_runs db' !! id = Some r' ->
  (exists r, rd_runs db !! id = Some r /\ row_evolves r r')
  \/ (rd_runs db !! id = None /\ fresh_row db r').
Proof.
  intros (_ & _ & Hrows & Hnew) H'. destruct (rd_runs db !! id) as [r|] eqn:Hr.
  - left. exists r. split; [done|]. destruct (Hrows _ _ Hr) as (r1 & H1 & Hev). by simplify_eq.
  - right. split; [done|]. destruct Hnew as [E|[E|(id0 & r0 & Hid0 & Hf & E)]].
    + congruence.
    + rewrite (E _ Hr) in H'. done.
    + rewrite E in H'. apply lookup_insert_Some in H' as [[<- <-]|[_ H']]; [done|congruence].
Qed.

Lemma fresh_row_ok db r : fresh_row db r -> row_ok r.
Proof.
  intros (Hst & Hc & Hf & _). split; [congruence|]. exists RunStateCreated.
  rewrite Hc Hf. split; [done|]. by split; [intros []|].
Qed.

(** The newly created row is the only one. *)
Lemma db_evolves_one_fresh db db' id1 id2 r1 r2 : db_evolves db db' ->
  rd_runs db' !! id1 = Some r1 -> rd_runs db' !! id2 = Some r2 ->
  rd_runs db !! id1 = None -> rd_runs db !! id2 = None -> id1 = id2.
Proof.
  intros (_ & _ & _ & [E|[E|(id & r & _ & _ & E)]]) H1 H2 N1 N2.
  - congruence.
  - rewrite (E _ N1) in H1. done.
  - rewrite E in H1, H2. apply lookup_insert_Some in H1 as [[<- _]|[_ H1]]; [|congruence].
    apply lookup_insert_Some in H2 as [[<- _]|[_ H2]]; congruence.
Qed.

Lemma run_db_ok_step db db' : run_db_ok db -> db_evolves db db' -> run_db_ok db'.
Proof.
  intros (Hok & Hse & Hk) Hev. pose proof Hev as (Hs & _). split_and!.
  - intros id r' H'. destruct (db_evolves_rows _ _ _ _ Hev H') as [(r & Hr & Hr')|[_ Hf]].
    + apply (row_ok_evolves r); [by apply (Hok id)|done].
    + by apply (fresh_row_ok db).
  - intros id r' H'. rewrite Hs.
    destruct (db_evolves_rows _ _ _ _ Hev H') as [(r & Hr & (E & _) & _)|[_ Hf]].
    + rewrite E. by apply (Hse id).
    + by apply Hf.
  - intros id1 id2 r1 r2 k H1 H2 Hss Hk1 Hk2.
    destruct (db_evolves_rows _ _ _ _ Hev H1) as [(q1 & Hq1 & (E1 & _ & F1 & _) & _)|[N1 Hf1]],
             (db_evolves_rows _ _ _ _ Hev H2) as [(q2 & Hq2 & (E2 & _ & F2 & _) & _)|[N2 Hf2]].
    + apply (Hk id1 id2 q1 q2 k); congruence.
    + exfalso. destruct Hf2 as (_ & _ & _ & _ & Hf). apply (Hf id1 q1 k Hq1); congruence.
    + exfalso. destruct Hf1 as (_ & _ & _ & _ & Hf). apply (Hf id2 q2 k Hq2); congruence.
    + by apply (db_evolves_one_fresh db db' id1 id2 r1 r2).
Qed.

Lemma run_history_snoc jsonb ops op db :
  run_history jsonb (ops ++ [op]) db = run_apply jsonb op (run_history jsonb ops db).
Proof. unfold run_history. by rewrite foldl_app. Qed.

Lemma run_history_ok jsonb ops db : run_db_ok db -> run_db_ok (run_history jsonb ops db).
Proof.
  intros Hok. induction ops as [|op ops IH] using rev_ind; [done|].
  rewrite run_history_snoc. apply (run_db_ok_step (run_history jsonb ops db)); [done|].
  apply run_apply_evolves, IH.
Qed.

(** The states a row goes through: single moves. *)
Definition state_of (r : RunRow) : option RunState := run_state_of_name (rr_current_state r).

Lemma run_history_row jsonb ops db id r :
  run_db_ok db -> rd_runs db !! id = Some r ->
  exists r', rd_runs (run_history jsonb ops db) !! id = Some r' /\ same_identity r r'
    /\ exists s s', state_of r = Some s /\ state_of r' = Some s' /\ rtc run_move s s'
        /\ (terminal s = true -> same_state r r').
Proof.
  intros Hok Hr. induction ops as [|op ops IH] using rev_ind.
  - destruct Hok as (Hok & _). destruct (Hok _ _ Hr) as (_ & s & Hs & _).
    exists r. split; [done|]. split; [apply same_identity_refl|].
    exists s, s. unfold state_of. rewrite Hs run_state_of_name_name.
    split_and!; [done|done|apply rtc_refl|intros _; by split_and!].
  - destruct IH as (r1 & H1 & Hid & s & s1 & Hs & Hs1 & Hp & Hsame).
    pose proof (run_history_ok jsonb ops _ Hok) as (Hrows & _).
    rewrite run_history_snoc.
    destruct (run_apply_evolves jsonb op _ Hrows) as (_ & _ & Hev & _).
    destruct (Hev _ _ H1) as (r2 & H2 & Hid2 & Hmv). exists r2. split; [done|].
    split; [by apply (same_identity_trans r r1)|].
    unfold state_of in *. destruct Hmv as [(E1 & E2 & E3)|(a & b & Ha & Hb & Hsb & Hm & Hf)].
    + exists s, s1. rewrite E2. split_and!; try done. intros Ht.
      destruct (Hsame Ht) as (F1 & F2 & F3). split_and!; congruence.
    + exists s, b. rewrite Hb run_state_of_name_name.
      rewrite Ha run_state_of_name_name in Hs1. injection Hs1 as <-.
      split_and!; try done; [eapply rtc_r; [exact Hp|exact Hm]|].
      intros Ht. exfalso. destruct (Hsame Ht) as (_ & F2 & _).
      rewrite -F2 Ha run_state_of_name_name in Hs. injection Hs as <-.
      rewrite (run_move_not_terminal _ _ Hm) in Ht. done.
Qed.

(** ** Properties *)

(** C33: the run table stays well formed.  After any sequence of calls of the
    package and of the writers of the table in packages [task], [approval],
    [singletab] and [catalog], in any order and with any faults, every run has equal [status]
    and [current_state], a state the domain knows, a finish time exactly when
    that state is terminal, an existing session, and no two runs of a session
    share an idempotency key. *)
Theorem run_table_invariant (jsonb : string -> option string) (ops : list run_op) (db : run_db) :
  run_db_ok db -> run_db_ok (run_history jsonb ops db).
Proof. apply run_history_ok. Qed.

(** C1: runs only move along the lifecycle and never leave a terminal state.
    Whatever the calls of package [run] and the other writers of the table do
    (task attachment, durable approvals, tab selections, privacy redaction of
    the metadata), an existing run stays in the table with its session, input,
    idempotency key, mode, provider, resumed run and start time; its task and
    task revision are kept once it has a task; its state is reached by moves
    that are each an edge of the transition table or one of the three recovery
    and suspension moves; and a run that was terminal keeps its status, state
    and finish time for ever. *)
Theorem run_lifecycle_respected (jsonb : string -> option string) (ops : list run_op)
    (db : run_db) (id : string) (r : RunRow) :
  run_db_ok db -> rd_runs db !! id = Some r ->
  exists r' s s', rd_runs (run_history jsonb ops db) !! id = Some r' /\ same_identity r r'
    /\ state_of r = Some s /\ state_of r' = Some s' /\ rtc run_move s s'
    /\ (IsTerminalRunState (rr_current_state r) = true -> same_state r r').
Proof.
  intros Hok Hr. destruct (run_history_row jsonb ops db id r Hok Hr)
    as (r' & Hr' & Hid & s & s' & Hs & Hs' & Hp & Ht).
  exists r', s, s'. split_and!; try done. intros H. apply Ht.
  unfold state_of in Hs. apply run_state_of_name_Some in Hs. by rewrite Hs IsTerminal_name in H.
Qed.

(** Optimistic concurrency.  After one [TransitionRun] from a state has
    succeeded, another one for the same run from the same state changes
    nothing and fails; when the request itself is acceptable and neither the
    fence nor the database fails, it fails with [ErrRunNotFound]. *)
Theorem transition_from_same_state_once (env1 env2 : call_env) (req1 req2 : UpdateRunStateRequest)
    (db db1 : run_db) (pb : RunRecord_pb) :
  svc_TransitionRun env1 req1 db = (db1, Ok pb) ->
  TrimSpace (ur_run_id req2) = TrimSpace (ur_run_id req1) ->
  ur_from_state req2 = ur_from_state req1 ->
  exists e, svc_TransitionRun env2 req2 db1 = (db1, Err e)
    /\ forall p ctx, validateTransitionRequest req2 = Ok p ->
        ValidateRunStateTransition (tp_from_state p) (tp_to_state p) = Ok tt ->
        Begin (rd_ownership db1) (ce_now env2) (ce_fence_fault env2) (ce_ctx env2) = Ok ctx ->
        ce_db_fault env2 = None -> e = ErrRunNotFound.
Proof.
  unfold svc_TransitionRun. intros H Hid Hfrom.
  destruct (validateTransitionRequest req1) as [p1|] eqn:Hp1; [|done].
  destruct (ValidateRunStateTransition (tp_from_state p1) (tp_to_state p1)) as [[]|] eqn:Hv1; [|done].
  apply validate_edge in Hv1 as (s & s' & Hs & Hs' & He).
  assert (Hrow : exists r, rd_runs db1 !! tp_run_id p1 = Some r
                   /\ rr_current_state r = tp_to_state p1).
  { revert H. cbv zeta. unfold repo_UpdateRun, fenced. destruct (Begin _ _ _ _); [|done].
    destruct (ce_db_fault env1); [done|]. simpl.
    destruct (rd_runs db !! tp_run_id p1) as [r|]; [|done].
    case_bool_decide; [|done]. intros [= <- _]. simpl. rewrite lookup_insert_eq. eauto. }
  destruct Hrow as (r & Hr & Hcur).
  destruct (validateTransitionRequest req2) as [p2|] eqn:Hp2; [|by eexists].
  destruct (ValidateRunStateTransition (tp_from_state p2) (tp_to_state p2)) as [[]|] eqn:Hv2;
    [|eexists; split; [done|]; intros; simplify_eq; congruence].
  assert (Hsame : tp_run_id p2 = tp_run_id p1 /\ tp_from_state p2 = tp_from_state p1).
  { unfold validateTransitionRequest in Hp1, Hp2. go_ok Hp1. go_ok Hp2.
    injection Hp1 as <-. injection Hp2 as <-. simpl. split; congruence. }
  destruct Hsame as [Eid Efrom]. cbv zeta. unfold repo_UpdateRun, fenced.
  destruct (Begin (rd_ownership db1) _ _ _) as [c|e] eqn:HB;
    [|exists e; split; [done|]; intros; simplify_eq; congruence].
  destruct (ce_db_fault env2) as [e|]; [eexists; split; [done|]; intros; simplify_eq|].
  cbn [up_run_id up_current_state]. rewrite Eid Hr bool_decide_false; [|by eexists].
  rewrite Hcur Efrom Hs Hs'. intros ?%(inj run_state_name). subst s'. by apply edge_irrefl in He.
Qed.

Lemma keyed_runs_elem session k runs id r :
  (id, r) ∈ keyed_runs session k runs <->
  runs !! id = Some r /\ rr_session_key r = session /\ rr_idempotency_key r = Some k.
Proof.
  unfold keyed_runs. rewrite list_elem_of_filter elem_of_map_to_list. simpl. naive_solver.
Qed.

(** A key in use finds its run first. *)
Lemma keyed_runs_find db session k id r :
  keys_unique db -> rd_runs db !! id = Some r -> rr_session_key r = session ->
  rr_idempotency_key r = Some k ->
  exists rest, keyed_runs session k (rd_runs db) = (id, r) :: rest.
Proof.
  intros Huniq Hr Hs Hk.
  assert (Hin : (id, r) ∈ keyed_runs session k (rd_runs db)) by (by apply keyed_runs_elem).
  destruct (keyed_runs session k (rd_runs db)) as [|[id' r'] rest] eqn:E;
    [by apply not_elem_of_nil in Hin|].
  assert (Hin' : (id', r') ∈ keyed_runs session k (rd_runs db)) by (rewrite E; left).
  apply keyed_runs_elem in Hin' as (Hr' & Hs' & Hk').
  assert (id' = id) as -> by (apply (Huniq id' id r' r k); congruence).
  simplify_eq. eauto.
Qed.

Lemma keyed_runs_head session k runs id r rest : keyed_runs session k runs = (id, r) :: rest ->
  runs !! id = Some r /\ rr_session_key r = session /\ rr_idempotency_key r = Some k.
Proof. intros E. apply keyed_runs_elem. rewrite E. left. Qed.

Lemma duplicate_key_true runs session k id r :
  runs !! id = Some r -> rr_session_key r = session -> rr_idempotency_key r = Some k ->
  duplicate_key runs session (Some k) = true.
Proof.
  intros Hr Hs Hk. destruct (duplicate_key _ _ _) eqn:E; [done|].
  exfalso. exact (duplicate_key_spec _ _ _ E id r Hr Hs Hk).
Qed.

(** Creating a run under a key that is in use answers with that run. *)
Lemma create_run_existing jsonb env random req p k db id r :
  run_db_ok db -> validateCreateRunRequest req = Ok p -> cp_idempotency_key p = k -> k <> "" ->
  is_Some (jsonb (normalizeJSON (cp_metadata_json p))) -> ce_db_fault env = None ->
  rd_runs db !! id = Some r -> rr_session_key r = cp_session_key p ->
  rr_idempotency_key r = Some k ->
  exists pb, svc_CreateRun jsonb env random req db = (db, Ok pb) /\ rp_run_id pb = id.
Proof.
  intros (_ & _ & Huniq) Hp Hk Hne [m Hm] Hf Hr Hs Hrk. unfold svc_CreateRun. rewrite Hp.
  cbv zeta. unfold repo_CreateRun. rewrite Hf. simpl. rewrite Hm Hk.
  assert (nullString k = Some k) as -> by (unfold nullString; by rewrite bool_decide_false).
  rewrite (duplicate_key_true _ _ _ _ _ Hr Hs Hrk) orb_true_r bool_decide_false; [done|].
  rewrite bool_decide_true; [done|]. simpl. unfold repo_FindRunByIdempotencyKey. rewrite Hf.
  destruct (keyed_runs_find db _ k id r Huniq Hr Hs Hrk) as [rest ->]. by eexists.
Qed.

(** A run that was answered under a key is in the table under that key. *)
Lemma create_run_stored jsonb env random req p db db1 pb :
  validateCreateRunRequest req = Ok p -> cp_idempotency_key p <> "" ->
  svc_CreateRun jsonb env random req db = (db1, Ok pb) ->
  exists r, rd_runs db1 !! rp_run_id pb = Some r /\ rr_session_key r = cp_session_key p
    /\ rr_idempotency_key r = Some (cp_idempotency_key p).
Proof.
  intros Hp Hne. unfold svc_CreateRun. rewrite Hp. cbv zeta.
  destruct (repo_CreateRun _ _ _ _) as [db' [rec|e]] eqn:E.
  - intros [= <- <-]. revert E. unfold repo_CreateRun.
    destruct (ce_db_fault env); [done|]. simpl. destruct (jsonb _); [|done].
    destruct (_ || _); [done|]. destruct (negb _); [done|].
    intros [= <- <-]. simpl. rewrite lookup_insert_eq. eexists. split_and!; try done. simpl.
    unfold nullString. by rewrite bool_decide_false.
  - destruct (_ && _); [|done].
    unfold repo_FindRunByIdempotencyKey. destruct (ce_db_fault env); [done|].
    destruct (keyed_runs _ _ _) as [|[id r] rest] eqn:Hk; [done|]. intros [= <- <-].
    exists r. exact (keyed_runs_head _ _ _ _ _ _ Hk).
Qed.

(** Creating a run is idempotent.  Once a request with a non-empty
    idempotency key has been answered with a run, every later acceptable
    request with the same session and key is answered with the same run and
    changes nothing, whatever has happened to the table in between. *)
Theorem create_run_idempotent (jsonb : string -> option string) (ops : list run_op)
    (env1 env2 : call_env) (random1 random2 : option string) (req1 req2 : CreateRunRequest)
    (p1 p2 : createParams) (db db1 : run_db) (pb1 : RunRecord_pb) :
  run_db_ok db -> validateCreateRunRequest req1 = Ok p1 -> validateCreateRunRequest req2 = Ok p2 ->
  cp_session_key p2 = cp_session_key p1 -> cp_idempotency_key p2 = cp_idempotency_key p1 ->
  cp_idempotency_key p1 <> "" -> is_Some (jsonb (normalizeJSON (cp_metadata_json p2))) ->
  ce_db_fault env2 = None ->
  svc_CreateRun jsonb env1 random1 req1 db = (db1, Ok pb1) ->
  let db2 := run_history jsonb ops db1 in
  exists pb2, svc_CreateRun jsonb env2 random2 req2 db2 = (db2, Ok pb2)
    /\ rp_run_id pb2 = rp_run_id pb1.
Proof.
  intros Hok Hp1 Hp2 Es Ek Hne Hj Hf H db2.
  assert (Hok1 : run_db_ok db1).
  { apply (run_db_ok_step db); [done|]. replace db1 with (svc_CreateRun jsonb env1 random1 req1 db).1
      by (by rewrite H). apply svc_CreateRun_evolves. }
  destruct (create_run_stored _ _ _ _ _ _ _ _ Hp1 Hne H) as (r & Hr & Hs & Hrk).
  destruct (run_history_row jsonb ops _ _ _ Hok1 Hr) as (r' & Hr' & (Is & _ & Ik & _) & _).
  apply (create_run_existing jsonb env2 random2 req2 p2 (cp_idempotency_key p1) db2 _ r');
    try done; try congruence. by apply run_history_ok.
Qed.

Lemma digit_visible d : 0 <= d < 10 -> visible (digit_char d) = true.
Proof.
  intros H. assert (d = 0 \/ d = 1 \/ d = 2 \/ d = 3 \/ d = 4 \/ d = 5 \/ d = 6 \/ d = 7
    \/ d = 8 \/ d = 9) as Hd by lia.
  repeat (destruct Hd as [->|Hd]); try subst d; reflexivity.
Qed.

Lemma format_rfc3339_shape t : 0 <= year_of t <= 9999 ->
  exists a s, visible a = true /\ format_rfc3339 t = String a s +:+ "Z".
Proof.
  unfold year_of, format_rfc3339, format_with. intros Hy.
  destruct (civil_of_days (days_of t)) as [[y m] d]. simpl in Hy. unfold format_year.
  destruct (Z.leb_spec 0 y); [|lia]. destruct (Z.leb_spec y 9999); [|lia]. cbn [andb].
  rewrite !append_assoc. eexists (digit_char (y / 100 / 10)), _.
  split; [apply digit_visible; div_lia|]. reflexivity.
Qed.

(** the finish time survives the wire.  The [finished_at] of a run
    record sent to a client, sent back in an [UpdateRunState] request, is
    read as the stored instant (and as absent when there is none). *)
Theorem finished_at_round_trip (r : RunRecord) :
  (forall t, rc_finished_at r = Some t -> 0 <= year_of t <= 9999) ->
  parseFinishedAt (rp_finished_at (recordToProto r)) = Ok (rc_finished_at r).
Proof.
  intros Hy. unfold parseFinishedAt. simpl. destruct (rc_finished_at r) as [t|]; [|done].
  specialize (Hy t eq_refl). destruct (format_rfc3339_shape t Hy) as (a & s & Ha & E).
  rewrite E (TrimSpace_visible a s "Z"%char Ha eq_refl) bool_decide_false; [done|].
  rewrite -E. by rewrite parse_format_rfc3339.
Qed.

(** ** Witnesses *)

Definition env_ex (now : Z) : call_env := mkCall now None None None.
Definition db_ex : run_db := mkRunDb {[ "s" ]} ∅ ∅ [].
Definition create_ex : CreateRunRequest :=
  mkCreateRun " s " (Some (mkInputEvent "e1" "k1")) 1 "openai" "" "".

Lemma db_ex_ok : run_db_ok db_ex.
Proof. split_and!; intros ?; intros; simplify_map_eq. Qed.

Definition queue_ex (id : string) : UpdateRunStateRequest :=
  mkUpdateState id 1 2 "" 0 "" "".

Lemma run_table_invariant_witness :
  run_db_ok (run_history Some [OpCreateRun (env_ex 5) (Some "ab") create_ex;
                               OpTransition (env_ex 6) (queue_ex "run-5-ab")] db_ex).
Proof. apply run_table_invariant. exact db_ex_ok. Defined.

(** A finished run, which a cancellation and a transition leave alone. *)
Definition row_done : RunRow :=
  mkRunRow "s" "e1" (Some "k1") "completed" "mode_1" "completed" "openai" None None None 1 9
    (Some 9) None None "{}" (Some "t1") (Some 1).
Definition db_done : run_db := mkRunDb {[ "s" ]} ∅ {[ "r1" := row_done ]} [].

Lemma db_done_ok : run_db_ok db_done.
Proof.
  assert (H : forall id r, rd_runs db_done !! id = Some r -> "r1" = id /\ row_done = r)
    by (intros id r; apply lookup_singleton_Some).
  split_and!.
  - intros id r [_ <-]%H. split; [done|]. by exists RunStateCompleted.
  - intros id r [_ <-]%H. simpl. set_solver.
  - by intros id1 id2 r1 r2 k [<- _]%H [<- _]%H.
Qed.

Lemma run_lifecycle_respected_witness :
  exists r', rd_runs (run_history Some [OpCancel None 10 ["t1"] "c1"] db_done) !! "r1" = Some r'
    /\ same_state row_done r'.
Proof.
  destruct (run_lifecycle_respected Some [OpCancel None 10 ["t1"] "c1"] db_done "r1" row_done
    db_done_ok eq_refl) as (r' & s & s' & H1 & _ & _ & _ & _ & H).
  exists r'. split; [exact H1|]. by apply H.
Defined.

(** A run in [created], queued twice. *)
Definition row_new : RunRow :=
  mkRunRow "s" "e1" (Some "k1") "created" "mode_1" "created" "openai" None None None 1 1
    None None None "{}" None None.
Definition db_new : run_db := mkRunDb {[ "s" ]} ∅ {[ "r1" := row_new ]} [].

(** A run is bound to the first task that attaches it. *)
Definition attach_ex : attach_world := mkAttachWorld (Ok (1, "active", "s")) None None None None.

Example attach_binds_once :
  rr_task_id <$> rd_runs (run_history Some [OpAttach (env_ex 2) attach_ex "t1" 1 "r1" "s";
                                            OpAttach (env_ex 3) attach_ex "t2" 1 "r1" "s"]
                            db_new) !! "r1" = Some (Some "t1").
Proof. vm_compute. reflexivity. Qed.

Lemma transition_from_same_state_once_witness :
  let req := queue_ex "r1" in
  exists db1 pb, svc_TransitionRun (env_ex 2) req db_new = (db1, Ok pb)
    /\ exists e, svc_TransitionRun (env_ex 3) req db1 = (db1, Err e).
Proof.
  assert (H : exists pb, (svc_TransitionRun (env_ex 2) (queue_ex "r1") db_new).2 = Ok pb)
    by (eexists; vm_compute; reflexivity).
  destruct H as [pb H]. exists (svc_TransitionRun (env_ex 2) (queue_ex "r1") db_new).1, pb.
  assert (H' : svc_TransitionRun (env_ex 2) (queue_ex "r1") db_new
    = ((svc_TransitionRun (env_ex 2) (queue_ex "r1") db_new).1, Ok pb))
    by (rewrite -H; apply surjective_pairing).
  split; [exact H'|].
  destruct (transition_from_same_state_once (env_ex 2) (env_ex 3) (queue_ex "r1") (queue_ex "r1")
    _ _ _ H' eq_refl eq_refl) as (e & He & _).
  exists e. exact He.
Defined.

Lemma create_run_idempotent_witness :
  exists pb1 pb2 db1 db2,
    svc_CreateRun Some (env_ex 5) (Some "ab") create_ex db_ex = (db1, Ok pb1)
    /\ svc_CreateRun Some (env_ex 9) (Some "cd") create_ex db2 = (db2, Ok pb2)
    /\ rp_run_id pb2 = rp_run_id pb1.
Proof.
  assert (H : exists pb, (svc_CreateRun Some (env_ex 5) (Some "ab") create_ex db_ex).2 = Ok pb)
    by (eexists; vm_compute; reflexivity).
  destruct H as [pb H].
  assert (H' : svc_CreateRun Some (env_ex 5) (Some "ab") create_ex db_ex
    = ((svc_CreateRun Some (env_ex 5) (Some "ab") create_ex db_ex).1, Ok pb))
    by (rewrite -H; apply surjective_pairing).
  destruct (create_run_idempotent Some [] (env_ex 5) (env_ex 9) (Some "ab") (Some "cd")
    create_ex create_ex (mkCreateParams "s" "e1" "k1" "mode_0" "openai" "" "")
    (mkCreateParams "s" "e1" "k1" "mode_0" "openai" "" "") db_ex _ _ db_ex_ok
    ltac:(vm_compute; reflexivity) ltac:(vm_compute; reflexivity) eq_refl eq_refl
    ltac:(done) ltac:(eexists; vm_compute; reflexivity) eq_refl H') as (pb2 & H2 & E).
  eexists _, _, _, _. split; [exact H'|]. split; [exact H2|exact E].
Defined.

Lemma finished_at_round_trip_witness :
  parseFinishedAt (rp_finished_at (recordToProto (scanRunRow "r1" row_done))) = Ok (Some 9).
Proof.
  apply (finished_at_round_trip (scanRunRow "r1" row_done)).
  intros t [= <-]. vm_compute. split; congruence.
Defined.
