(* ===== verification/Session.v ===== *)
(** * Session: the session table and the session server

    [session/service.go], [session/store.go], [session/admission.go] and
    [session/completion.go].  Run handlers are written against the class
    [RunManager], the Go interface of the same name, which package [run]
    implements.  [status.Code] of the RPC library is the parameter
    [status_code]: what the code relies on is stated in [StatusCodes]. *)
From Stdlib Require Import Ascii.
From stdpp Require Import sorting.
From S2P Require Import Prelude GoStrings GoJson GoTime Domain Ownership Run.
Open Scope Z_scope.
Open Scope go_scope.

(** ** Sessions *)

(** A row of table [sessions] and the Go struct [SessionRecord]; the session
    key is the primary key. *)
Record SessionRecord := mkSession {
  sr_session_id : string;
  sr_session_key : string;
  sr_user_id : string;
  sr_channel : string;
  sr_metadata_json : string;
  sr_summary : string;
  sr_created_at : Z;
  sr_updated_at : Z;
}.

Abbreviation session_table := (gmap string SessionRecord).

Record CreateSessionParams := mkCreateSession {
  sp_session_key : string;
  sp_user_id : string;
  sp_channel : string;
  sp_metadata_json : string;
}.

(** The clock of the database, the identifier it generates, and a fault. *)
Record session_env := mkSessionEnv {
  se_now : Z;
  se_uuid : string;
  se_fault : option error;
}.

Definition normalizeMetadataJSON (value : string) : res string :=
  let trimmed := TrimSpace value in
  if bool_decide (trimmed = "") then Ok "{}" else
  fail_when negb (json_valid trimmed) with Errorf "metadata_json must be valid JSON" ;;
  match json_compact trimmed with
  | Some out => Ok out
  | None => Err (Errorf "metadata_json must be valid JSON")
  end.

Definition validateCreateSessionRequest (key user channel metadata : string) :
    res CreateSessionParams :=
  fail_when bool_decide (TrimSpace key = "") with Errorf "session_key is required" ;;
  fail_when bool_decide (TrimSpace user = "") with Errorf "user_id is required" ;;
  fail_when bool_decide (TrimSpace channel = "") with Errorf "channel is required" ;;
  m <-! normalizeMetadataJSON metadata ;;
  Ok (mkCreateSession (TrimSpace key) (TrimSpace user) (TrimSpace channel) m).

(** ** The session repository *)

Section repository.
(** [::jsonb], as in [Run]. *)
Context (jsonb : string -> option string).

Definition GetSessionByKey (env : session_env) (key : string) (tbl : session_table) :
    res SessionRecord :=
  match se_fault env with
  | Some e => Err (ErrWrap "get session by key: " e)
  | None => match tbl !! key with Some r => Ok r | None => Err ErrSessionNotFound end
  end.

Definition new_session (env : session_env) (p : CreateSessionParams) (meta : string) :
    SessionRecord :=
  mkSession (se_uuid env) (sp_session_key p) (sp_user_id p) (sp_channel p) meta ""
    (se_now env) (se_now env).

(** [INSERT .. ON CONFLICT (session_key) DO NOTHING], then a read. *)
Definition CreateSession (env : session_env) (p : CreateSessionParams) (tbl : session_table) :
    session_table * res (SessionRecord * bool) :=
  match se_fault env with
  | Some e => (tbl, Err (ErrWrap "insert session: " e))
  | None =>
      match jsonb (sp_metadata_json p) with
      | None => (tbl, Err (ErrWrap "insert session: " err_json))
      | Some m =>
          match tbl !! sp_session_key p with
          | None => (<[sp_session_key p := new_session env p m]> tbl, Ok (new_session env p m, true))
          | Some _ => (tbl, r <-! GetSessionByKey env (sp_session_key p) tbl ;; Ok (r, false))
          end
      end
  end.

(** [CreateSessionTx]: an existing session must be the same one. *)
Definition CreateSessionTx (env : session_env) (p : CreateSessionParams) (tbl : session_table) :
    session_table * res (SessionRecord * bool) :=
  if bool_decide (sp_session_key p = "") || bool_decide (sp_user_id p = "")
     || bool_decide (sp_channel p = "") || Z.ltb 8192 (go_len (sp_metadata_json p))
     || negb (json_valid (sp_metadata_json p))
  then (tbl, Err (Errorf "invalid kernel session admission")) else
  match se_fault env with
  | Some e => (tbl, Err e)
  | None =>
      match jsonb (sp_metadata_json p) with
      | None => (tbl, Err err_json)
      | Some m =>
          match tbl !! sp_session_key p with
          | None => (<[sp_session_key p := new_session env p m]> tbl, Ok (new_session env p m, true))
          | Some r =>
              (tbl,
               if negb (bool_decide (sr_user_id r = sp_user_id p))
                  || negb (bool_decide (sr_channel r = sp_channel p))
                  || negb (bool_decide (sr_metadata_json r = m))
               then Err (Errorf "kernel session identity conflict")
               else Ok (r, false))
          end
      end
  end.

(** [ORDER BY updated_at DESC LIMIT .. OFFSET ..]. *)
Definition updated_desc (a b : SessionRecord) : Prop := sr_updated_at b <= sr_updated_at a.
#[global] Instance updated_desc_dec a b : Decision (updated_desc a b).
Proof. unfold updated_desc. apply _. Defined.

Definition ListSessions (env : session_env) (limit offset : Z) (tbl : session_table) :
    res (list SessionRecord) :=
  let limit := if Z.leb limit 0 || Z.ltb 100 limit then 50 else limit in
  let offset := if Z.ltb offset 0 then 0 else offset in
  match se_fault env with
  | Some e => Err (ErrWrap "list sessions: " e)
  | None =>
      Ok (take (Z.to_nat limit) (drop (Z.to_nat offset)
            (merge_sort updated_desc (map_to_list tbl).*2)))
  end.

Definition UpdateSummary (env : session_env) (key summary : string) (tbl : session_table) :
    session_table * res unit :=
  match se_fault env with
  | Some e => (tbl, Err (ErrWrap "update session summary: " e))
  | None =>
      match tbl !! key with
      | None => (tbl, Err ErrSessionNotFound)
      | Some r =>
          (<[key := mkSession (sr_session_id r) (sr_session_key r) (sr_user_id r) (sr_channel r)
                      (sr_metadata_json r) summary (sr_created_at r) (se_now env)]> tbl, Ok tt)
      end
  end.

Definition GetSummary (env : session_env) (key : string) (tbl : session_table) : res string :=
  match se_fault env with
  | Some e => Err (ErrWrap "get session summary: " e)
  | None => match tbl !! key with Some r => Ok (sr_summary r) | None => Err ErrSessionNotFound end
  end.

(** [LockCompletionTx] of the session repository: the channel of the
    session the token owns. *)
Definition Session_LockCompletionTx (env : session_env) (ctx : go_context) (key : string)
    (tbl : session_table) : res string :=
  match TokenFromContext ctx with
  | None => Err ErrStale
  | Some tok =>
      fail_when negb (bool_decide (tok_session_key tok = key)) with ErrStale ;;
      match se_fault env, tbl !! key with
      | Some e, _ => Err e
      | None, None => Err ErrNoRows
      | None, Some r => Ok (sr_channel r)
      end
  end.

(** ** Session handlers *)

Record Session_pb := mkSessionPb {
  sb_session_id : string;
  sb_session_key : string;
  sb_user_id : string;
  sb_channel : string;
  sb_metadata_json : string;
  sb_created_at : string;
  sb_updated_at : string;
}.

Definition sessionToProto (r : SessionRecord) : Session_pb :=
  mkSessionPb (sr_session_id r) (sr_session_key r) (sr_user_id r) (sr_channel r)
    (sr_metadata_json r) (format_rfc3339 (sr_created_at r)) (format_rfc3339 (sr_updated_at r)).

Definition Server_CreateSession (env : session_env) (key user channel metadata : string)
    (tbl : session_table) : session_table * res (Session_pb * bool) :=
  match validateCreateSessionRequest key user channel metadata with
  | Err e => (tbl, Err (ErrStatus InvalidArgument (error_text e)))
  | Ok p =>
      match CreateSession env p tbl with
      | (tbl', Err _) => (tbl', Err (ErrStatus Internal "create session failed"))
      | (tbl', Ok (r, created)) => (tbl', Ok (sessionToProto r, created))
      end
  end.

Definition Server_GetSession (env : session_env) (key : string) (tbl : session_table) :
    res Session_pb :=
  let key := TrimSpace key in
  fail_when bool_decide (key = "") with ErrStatus InvalidArgument "session_key is required" ;;
  match GetSessionByKey env key tbl with
  | Ok r => Ok (sessionToProto r)
  | Err e =>
      if bool_decide (e = ErrSessionNotFound) then Err (ErrStatus NotFound "session not found")
      else Err (ErrStatus Internal "get session failed")
  end.
End repository.

Definition resolveSessionKey (channel chatID userID : string) : string :=
  let channel := TrimSpace channel in
  if negb (bool_decide (chatID = ""))
  then Join [channel; "chat"; TrimSpace chatID] ":"
  else Join [channel; "user"; TrimSpace userID] ":".

Definition Server_ResolveSessionKey (channel chatID userID : string) : res string :=
  let channel := TrimSpace channel in
  fail_when bool_decide (channel = "") with ErrStatus InvalidArgument "channel is required" ;;
  let chatID := TrimSpace chatID in
  let userID := TrimSpace userID in
  fail_when bool_decide (chatID = "") && bool_decide (userID = "") with
    ErrStatus InvalidArgument "external_chat_id or external_user_id is required" ;;
  Ok (resolveSessionKey channel chatID userID).

(** ** Run handlers *)

(** [RunManager]. *)
Class RunManager (Env St : Type) := {
  rm_CreateRun : Env -> CreateRunRequest -> St -> St * res RunRecord_pb;
  rm_GetRun : Env -> string -> St -> res RunRecord_pb;
  rm_FindRunByIdempotencyKey : Env -> string -> string -> St -> res RunRecord_pb;
  rm_TransitionRun : Env -> UpdateRunStateRequest -> St -> St * res RunRecord_pb;
}.

(** No error of the RPC layer in the chain. *)
Fixpoint plain_error (e : error) : bool :=
  match e with
  | ErrStatus _ _ => false
  | ErrWrap _ inner | ErrOpaque _ inner => plain_error inner
  | _ => true
  end.

(** What the mapping relies on from [status.Code]: a status error has its
    code, an error without a status has code [Unknown]. *)
Record StatusCodes (status_code : error -> grpc_code) : Prop := {
  status_code_status c text : status_code (ErrStatus c text) = c;
  status_code_plain e : plain_error e = true -> status_code e = Unknown;
}.

Section run_handlers.
Context {Env St : Type} `{RM : RunManager Env St} (status_code : error -> grpc_code).

Definition no_runs : error := ErrStatus Unimplemented "run manager is not configured".

Definition mapRunError (e : error) : error :=
  if negb (bool_decide (status_code e = Unknown)) then e else
  let message := error_text e in
  if errors_is e ErrRunNotFound then ErrStatus NotFound message
  else if errors_is e ErrRunDuplicate then ErrStatus AlreadyExists message
  else if Contains message "is required" || Contains message "must be"
          || Contains message "not allowed"
  then ErrStatus InvalidArgument message
  else ErrStatus Internal message.

Definition run_response {A} (r : res A) : res A :=
  match r with Ok a => Ok a | Err e => Err (mapRunError e) end.

(** [s.runs == nil] is [configured = false]. *)
Definition Server_CreateRun (configured : bool) (env : Env) (req : CreateRunRequest) (st : St) :
    St * res RunRecord_pb :=
  if negb configured then (st, Err no_runs) else
  let create := let '(st', r) := rm_CreateRun env req st in (st', run_response r) in
  match cr_input_event req with
  | None => create
  | Some ev =>
      let key := TrimSpace (ie_idempotency_key ev) in
      if bool_decide (key = "") then create else
      match rm_FindRunByIdempotencyKey env (cr_session_key req) key st with
      | Ok existing => (st, Ok existing)
      | Err e => if errors_is e ErrRunNotFound then create else (st, Err (mapRunError e))
      end
  end.

Definition Server_UpdateRunState (configured : bool) (env : Env) (req : UpdateRunStateRequest)
    (st : St) : St * res RunRecord_pb :=
  if negb configured then (st, Err no_runs) else
  let '(st', r) := rm_TransitionRun env req st in (st', run_response r).

Definition Server_GetRun (configured : bool) (env : Env) (run_id : string) (st : St) :
    res RunRecord_pb :=
  if negb configured then Err no_runs else
  let run_id := TrimSpace run_id in
  fail_when bool_decide (run_id = "") with ErrStatus InvalidArgument "run_id is required" ;;
  run_response (rm_GetRun env run_id st).
End run_handlers.

(** Package [run] is a run manager; its environment adds the random bytes of
    a new identifier. *)
Section run_manager.
Context (jsonb : string -> option string).

Instance RunService : RunManager (call_env * option string) run_db := {
  rm_CreateRun env req db := svc_CreateRun jsonb env.1 env.2 req db;
  rm_GetRun env run_id db := svc_GetRun env.1 run_id db;
  rm_FindRunByIdempotencyKey env s k db := svc_FindRunByIdempotencyKey env.1 s k db;
  rm_TransitionRun env req db := svc_TransitionRun env.1 req db;
}.
End run_manager.

(** ** Sessions keep their identity *)

Inductive session_op :=
| OpCreateSession (env : session_env) (p : CreateSessionParams)
| OpCreateSessionTx (env : session_env) (p : CreateSessionParams)
| OpUpdateSummary (env : session_env) (key summary : string).

Definition session_apply (jsonb : string -> option string) (op : session_op)
    (tbl : session_table) : session_table :=
  match op with
  | OpCreateSession env p => (CreateSession jsonb env p tbl).1
  | OpCreateSessionTx env p => (CreateSessionTx jsonb env p tbl).1
  | OpUpdateSummary env key summary => (UpdateSummary env key summary tbl).1
  end.

Definition session_history (jsonb : string -> option string) (ops : list session_op)
    (tbl : session_table) : session_table :=
  foldl (fun t op => session_apply jsonb op t) tbl ops.

(** Equal but for the summary and the update time. *)
Definition same_session (r r' : SessionRecord) : Prop :=
  sr_session_id r' = sr_session_id r /\ sr_session_key r' = sr_session_key r
  /\ sr_user_id r' = sr_user_id r /\ sr_channel r' = sr_channel r
  /\ sr_metadata_json r' = sr_metadata_json r /\ sr_created_at r' = sr_created_at r.

Lemma same_session_refl r : same_session r r.
Proof. by split_and!. Qed.

#[export] Hint Resolve same_session_refl : go.

Lemma session_apply_keeps jsonb op tbl key r :
  tbl !! key = Some r ->
  exists r', session_apply jsonb op tbl !! key = Some r' /\ same_session r r'.
Proof.
  intros Hr.
  assert (Hins : forall k x, tbl !! k = None ->
    exists r', <[k := x]> tbl !! key = Some r' /\ same_session r r').
  { intros k x Hk. rewrite lookup_insert_ne; [congruence|]. eauto with go. }
  destruct op; simpl.
  - unfold CreateSession. destruct (se_fault env); [eauto with go|].
    destruct (jsonb _); [|eauto with go].
    destruct (tbl !! sp_session_key p) eqn:Hk; [eauto with go|]. by apply Hins.
  - unfold CreateSessionTx. destruct (_ || _); [eauto with go|].
    destruct (se_fault env); [eauto with go|]. destruct (jsonb _); [|eauto with go].
    destruct (tbl !! sp_session_key p) eqn:Hk; [eauto with go|]. by apply Hins.
  - unfold UpdateSummary. destruct (se_fault env); [eauto with go|].
    destruct (tbl !! key0) as [r0|] eqn:Hk; [|eauto with go]. simpl.
    destruct (decide (key0 = key)) as [->|Hne].
    + rewrite lookup_insert_eq. simplify_eq. eexists. split; [done|]. by split_and!.
    + rewrite lookup_insert_ne; [done|]. eauto with go.
Qed.

(** the first creation of a session wins.  Whatever creations and summary
    updates follow, an existing session keeps its identifier, user, channel,
    metadata and creation time; and a further [CreateSession] for its key
    changes nothing and answers with that session, marked as not created. *)
Theorem session_identity_stable (jsonb : string -> option string) (ops : list session_op)
    (tbl : session_table) (key : string) (r : SessionRecord) :
  tbl !! key = Some r ->
  exists r', session_history jsonb ops tbl !! key = Some r' /\ same_session r r'
    /\ forall env p, sp_session_key p = key -> se_fault env = None ->
         is_Some (jsonb (sp_metadata_json p)) ->
         CreateSession jsonb env p (session_history jsonb ops tbl)
         = (session_history jsonb ops tbl, Ok (r', false)).
Proof.
  intros Hr.
  assert (H : exists r', session_history jsonb ops tbl !! key = Some r' /\ same_session r r').
  { induction ops as [|op ops IH] using rev_ind; [eauto with go|].
    destruct IH as (r1 & H1 & E1). unfold session_history. rewrite foldl_app. simpl.
    destruct (session_apply_keeps jsonb op _ _ _ H1) as (r2 & H2 & E2).
    exists r2. split; [done|]. unfold same_session in *. naive_solver congruence. }
  destruct H as (r' & Hr' & Hsame). exists r'. split_and!; try done.
  intros env p <- Hf [m Hm]. unfold CreateSession, GetSessionByKey. by rewrite Hf Hm Hr'.
Qed.

Definition session_ex : SessionRecord := mkSession "id1" "k" "u1" "web" "{}" "" 1 1.

Lemma session_identity_stable_witness :
  exists r', session_history Some
      [OpCreateSession (mkSessionEnv 5 "id2" None) (mkCreateSession "k" "u2" "telegram" "{}");
       OpUpdateSummary (mkSessionEnv 6 "" None) "k" "hello"] {[ "k" := session_ex ]} !! "k"
    = Some r' /\ sr_user_id r' = "u1".
Proof.
  destruct (session_identity_stable Some
    [OpCreateSession (mkSessionEnv 5 "id2" None) (mkCreateSession "k" "u2" "telegram" "{}");
     OpUpdateSummary (mkSessionEnv 6 "" None) "k" "hello"] {[ "k" := session_ex ]} "k" session_ex)
    as (r' & H & (_ & _ & E & _) & _).
  - vm_compute. reflexivity.
  - exists r'. split; [exact H|exact E].
Defined.

(** ** Session keys *)

(** a resolved session key identifies the conversation.  As long as
    channel names contain no colon, two accepted requests get the same key
    only if they name the same channel and the same chat, or the same channel
    and (without a chat) the same user; a chat never shares a key with a
    user. *)
Theorem resolved_keys_are_distinct (c1 chat1 user1 c2 chat2 user2 key : string) :
  no_colon (TrimSpace c1) -> no_colon (TrimSpace c2) ->
  Server_ResolveSessionKey c1 chat1 user1 = Ok key ->
  Server_ResolveSessionKey c2 chat2 user2 = Ok key ->
  TrimSpace c1 = TrimSpace c2 /\ TrimSpace chat1 = TrimSpace chat2
  /\ (TrimSpace chat1 = "" -> TrimSpace user1 = TrimSpace user2).
Proof.
  intros Hc1 Hc2. unfold Server_ResolveSessionKey, resolveSessionKey.
  rewrite !TrimSpace_idemp. intros H1 H2. go_ok H1. go_ok H2.
  destruct (bool_decide_reflect (TrimSpace chat1 = "")) as [E1|N1],
           (bool_decide_reflect (TrimSpace chat2 = "")) as [E2|N2]; cbn [negb] in H1, H2;
    injection H1 as H1; injection H2 as H2; rewrite -H2 in H1; simpl in H1;
    apply first_colon_inj in H1 as [Ec E]; try done.
  - apply (append_inj_l "user:") in E. split_and!; congruence.
  - apply (append_inj_l "chat:") in E. split_and!; congruence.
Qed.

Lemma resolved_keys_are_distinct_witness :
  Server_ResolveSessionKey "telegram" " 7" "" = Ok "telegram:chat:7"
  /\ Server_ResolveSessionKey " telegram" "7 " "8" = Ok "telegram:chat:7"
  /\ TrimSpace " 7" = TrimSpace "7 ".
Proof.
  assert (H1 : Server_ResolveSessionKey "telegram" " 7" "" = Ok "telegram:chat:7")
    by (vm_compute; reflexivity).
  assert (H2 : Server_ResolveSessionKey " telegram" "7 " "8" = Ok "telegram:chat:7")
    by (vm_compute; reflexivity).
  split; [exact H1|]. split; [exact H2|].
  refine (proj1 (proj2 (resolved_keys_are_distinct "telegram" " 7" "" " telegram" "7 " "8"
    "telegram:chat:7" _ _ H1 H2))); vm_compute; reflexivity.
Defined.

(** accepted metadata is valid compact JSON.  A request's metadata is
    refused exactly when it is neither blank nor valid JSON; what is stored
    is valid JSON that compaction leaves as it is. *)
Theorem normalized_metadata_is_compact (value : string) :
  match normalizeMetadataJSON value with
  | Ok out => json_valid out = true /\ json_compact out = Some out
              /\ (TrimSpace value = "" -> out = "{}")
  | Err _ => TrimSpace value <> "" /\ json_valid (TrimSpace value) = false
  end.
Proof.
  unfold normalizeMetadataJSON. case_bool_decide as E; [done|].
  unfold fail_if. destruct (json_valid (TrimSpace value)) eqn:Hv; [|done]. simpl.
  destruct (json_valid_compact _ Hv) as [out Ho]. rewrite Ho.
  pose proof (json_compact_idemp _ _ Ho) as Hc. split_and!; [|done|done].
  unfold json_valid. unfold json_compact in Hc. by rewrite Hc.
Qed.

(** ** Run handlers *)

Section run_handler_proofs.
Context (jsonb : string -> option string) (status_code : error -> grpc_code).
Context (codes : StatusCodes status_code).
#[local] Existing Instance RunService.

Lemma mapRunError_plain e : plain_error e = true ->
  mapRunError status_code e =
    if errors_is e ErrRunNotFound then ErrStatus NotFound (error_text e)
    else if errors_is e ErrRunDuplicate then ErrStatus AlreadyExists (error_text e)
    else if Contains (error_text e) "is required" || Contains (error_text e) "must be"
            || Contains (error_text e) "not allowed"
    then ErrStatus InvalidArgument (error_text e)
    else ErrStatus Internal (error_text e).
Proof.
  intros H. unfold mapRunError. rewrite (status_code_plain _ codes _ H).
  by rewrite bool_decide_true.
Qed.

Lemma not_allowed_text from to :
  Contains (error_text (err_transition from to)) "not allowed" = true.
Proof.
  apply Contains_spec. simpl.
  exists ("run state transition " +:+ quoted from +:+ " -> " +:+ quoted to +:+ " is "), "".
  rewrite -!append_assoc. done.
Qed.
End run_handler_proofs.

(** The run of an answered request is stored under its key. *)
Lemma Server_CreateRun_stored (jsonb : string -> option string)
    (status_code : error -> grpc_code) env req ev db db1 pb :
  run_db_ok db -> cr_input_event req = Some ev -> TrimSpace (ie_idempotency_key ev) <> "" ->
  Server_CreateRun (RM := RunService jsonb) status_code true env req db = (db1, Ok pb) ->
  run_db_ok db1 /\ exists r, rd_runs db1 !! rp_run_id pb = Some r
    /\ rr_session_key r = TrimSpace (cr_session_key req)
    /\ rr_idempotency_key r = Some (TrimSpace (ie_idempotency_key ev)).
Proof.
  intros Hok He Hne. unfold Server_CreateRun. simpl. rewrite He bool_decide_false; [done|].
  unfold svc_FindRunByIdempotencyKey, repo_FindRunByIdempotencyKey. rewrite TrimSpace_idemp.
  set (create := let '(st', r) := svc_CreateRun jsonb env.1 env.2 req db in _).
  assert (Hcreate : create = (db1, Ok pb) ->
    run_db_ok db1 /\ exists r, rd_runs db1 !! rp_run_id pb = Some r
      /\ rr_session_key r = TrimSpace (cr_session_key req)
      /\ rr_idempotency_key r = Some (TrimSpace (ie_idempotency_key ev))).
  { unfold create. pose proof (svc_CreateRun_evolves jsonb env.1 env.2 req db) as Hev.
    destruct (svc_CreateRun _ _ _ _ _) as [d [pb0|e]] eqn:E; [|done].
    intros [= <- <-]. simpl in Hev. split; [by apply (run_db_ok_step db)|].
    destruct (validateCreateRunRequest req) as [p|] eqn:Hv;
      [|unfold svc_CreateRun in E; by rewrite Hv in E].
    pose proof Hv as Hv'. unfold validateCreateRunRequest in Hv'. rewrite He in Hv'.
    go_ok Hv'. destruct (create_run_stored jsonb env.1 env.2 req p db d pb0) as (r & Hr);
      [done|by injection Hv' as <-|done|]. exists r. by injection Hv' as <-. }
  destruct (ce_db_fault env.1) as [fe|].
  - simpl. destruct (errors_is fe ErrRunNotFound); [done|]. done.
  - destruct (keyed_runs _ _ (rd_runs db)) as [|[id r] rest] eqn:Hkr; simpl; [done|].
    intros [= <- <-]. simpl. split; [done|].
    apply keyed_runs_head in Hkr. eauto.
Qed.

(** the session server creates a run once per input event.  After a
    [CreateRun] request with an idempotency key has been answered with a run,
    every later request of the same session with the same key is answered
    with that run and leaves the database alone, even if the rest of the
    request has changed, as long as the lookup itself does not fail. *)
Theorem Server_CreateRun_once (jsonb : string -> option string)
    (status_code : error -> grpc_code) (ops : list run_op)
    (env1 env2 : call_env * option string) (req1 req2 : CreateRunRequest)
    (ev1 ev2 : InputEvent) (db db1 : run_db) (pb1 : RunRecord_pb) :
  run_db_ok db -> cr_input_event req1 = Some ev1 -> cr_input_event req2 = Some ev2 ->
  TrimSpace (cr_session_key req2) = TrimSpace (cr_session_key req1) ->
  TrimSpace (ie_idempotency_key ev2) = TrimSpace (ie_idempotency_key ev1) ->
  TrimSpace (ie_idempotency_key ev1) <> "" -> ce_db_fault env2.1 = None ->
  Server_CreateRun (RM := RunService jsonb) status_code true env1 req1 db = (db1, Ok pb1) ->
  exists pb2,
    Server_CreateRun (RM := RunService jsonb) status_code true env2 req2 (run_history jsonb ops db1)
      = (run_history jsonb ops db1, Ok pb2)
    /\ rp_run_id pb2 = rp_run_id pb1.
Proof.
  intros Hok He1 He2 Es Ek Hne Hf H.
  destruct (Server_CreateRun_stored _ _ _ _ _ _ _ _ Hok He1 Hne H) as (Hok1 & r & Hr & Hs & Hk).
  destruct (run_history_row jsonb ops _ _ _ Hok1 Hr) as (r' & Hr' & (Is & _ & Ik & _) & _).
  pose proof (run_history_ok jsonb ops _ Hok1) as (_ & _ & Huniq).
  unfold Server_CreateRun. simpl. rewrite He2 bool_decide_false; [congruence|].
  unfold svc_FindRunByIdempotencyKey, repo_FindRunByIdempotencyKey.
  rewrite TrimSpace_idemp Hf Es Ek.
  destruct (keyed_runs_find _ (TrimSpace (cr_session_key req1))
    (TrimSpace (ie_idempotency_key ev1)) _ _ Huniq Hr') as [rest ->]; [congruence|congruence|].
  by eexists.
Qed.

Fixpoint status_code_ex (e : error) : grpc_code :=
  match e with
  | ErrStatus c _ => c
  | ErrWrap _ inner | ErrOpaque _ inner => status_code_ex inner
  | _ => Unknown
  end.

Lemma status_code_ex_ok : StatusCodes status_code_ex.
Proof. split; [done|]. induction e; simpl; try done. Qed.

Lemma Server_CreateRun_once_witness :
  exists db1 pb1 pb2,
    Server_CreateRun (RM := RunService Some) status_code_ex true (env_ex 5, Some "ab")
      create_ex db_ex = (db1, Ok pb1)
    /\ Server_CreateRun (RM := RunService Some) status_code_ex true (env_ex 9, Some "cd")
         (mkCreateRun "s" (Some (mkInputEvent "other" " k1")) 99 "" "" "") db1 = (db1, Ok pb2)
    /\ rp_run_id pb2 = rp_run_id pb1.
Proof.
  set (call := Server_CreateRun (RM := RunService Some) status_code_ex true (env_ex 5, Some "ab")
                 create_ex db_ex).
  assert (H : exists pb, call.2 = Ok pb) by (eexists; vm_compute; reflexivity).
  destruct H as [pb H].
  assert (H' : call = (call.1, Ok pb)) by (rewrite -H; apply surjective_pairing).
  destruct (Server_CreateRun_once Some status_code_ex [] (env_ex 5, Some "ab") (env_ex 9, Some "cd")
    create_ex (mkCreateRun "s" (Some (mkInputEvent "other" " k1")) 99 "" "" "")
    (mkInputEvent "e1" "k1") (mkInputEvent "other" " k1") db_ex call.1 pb db_ex_ok
    eq_refl eq_refl ltac:(vm_compute; reflexivity) ltac:(vm_compute; reflexivity)
    ltac:(vm_compute; congruence) eq_refl H') as (pb2 & H2 & E).
  exists call.1, pb, pb2. split; [exact H'|]. split; [exact H2|exact E].
Defined.

Lemma validate_refusal s s' :
  ValidateRunStateTransition (run_state_name s) (run_state_name s') = Ok tt
  \/ ValidateRunStateTransition (run_state_name s) (run_state_name s')
     = Err (err_transition (run_state_name s) (run_state_name s')).
Proof.
  unfold ValidateRunStateTransition, allowedTransitions. case_bool_decide; [by right|].
  rewrite !run_state_of_name_name. simpl. case_bool_decide; auto.
Qed.

Lemma ProtoToRunState_name n name : ProtoToRunState n = Ok name -> exists s, name = run_state_name s.
Proof. unfold ProtoToRunState. destruct (run_state_of_number n); naive_solver. Qed.

Lemma transition_params_known req p : validateTransitionRequest req = Ok p ->
  exists s s', tp_from_state p = run_state_name s /\ tp_to_state p = run_state_name s'.
Proof.
  unfold validateTransitionRequest. intros H. go_ok H. injection H as <-. simpl.
  repeat match goal with H : ProtoToRunState _ = Ok _ |- _ =>
    apply ProtoToRunState_name in H as [? ->] end. eauto.
Qed.

(** how [UpdateRunState] reports failures.  (1) A blank run identifier
    and (2) a transition the table does not allow are [InvalidArgument];
    (3) an acceptable request whose run does not exist or is not in the
    expected state is [NotFound]; in each case nothing changes.  (4) A finish
    time on a target state that is not terminal, an error of the client too,
    is reported as [Internal]. *)
Theorem UpdateRunState_codes (jsonb : string -> option string) (status_code : error -> grpc_code)
    (env : call_env * option string) (req : UpdateRunStateRequest) (db : run_db) :
  StatusCodes status_code ->
  let call := Server_UpdateRunState (RM := RunService jsonb) status_code true env req db in
  (TrimSpace (ur_run_id req) = "" ->
     call = (db, Err (ErrStatus InvalidArgument "run_id is required")))
  /\ (forall p, validateTransitionRequest req = Ok p ->
      ValidateRunStateTransition (tp_from_state p) (tp_to_state p) <> Ok tt ->
      exists text, call = (db, Err (ErrStatus InvalidArgument text)))
  /\ (forall p ctx, validateTransitionRequest req = Ok p ->
      ValidateRunStateTransition (tp_from_state p) (tp_to_state p) = Ok tt ->
      Begin (rd_ownership db) (ce_now env.1) (ce_fence_fault env.1) (ce_ctx env.1) = Ok ctx ->
      ce_db_fault env.1 = None ->
      (forall r, rd_runs db !! tp_run_id p = Some r -> rr_current_state r <> tp_from_state p) ->
      call = (db, Err (ErrStatus NotFound "run not found")))
  /\ (forall from to t, TrimSpace (ur_run_id req) <> "" ->
      ProtoToRunState (ur_from_state req) = Ok from ->
      ProtoToRunState (ur_to_state req) = Ok to -> IsTerminalRunState to = false ->
      parseFinishedAt (ur_finished_at req) = Ok (Some t) ->
      call = (db, Err (ErrStatus Internal "finished_at is only allowed for terminal states"))).
Proof.
  intros Hcodes call. unfold call, Server_UpdateRunState. simpl. unfold svc_TransitionRun.
  split_and!.
  - intros H. unfold validateTransitionRequest. rewrite H. simpl.
    by rewrite (mapRunError_plain status_code Hcodes).
  - intros p Hp Hv. rewrite Hp. destruct (transition_params_known _ _ Hp) as (s & s' & Es & Es').
    rewrite Es Es' in Hv |- *. destruct (validate_refusal s s') as [E|E]; [done|]. rewrite E. simpl.
    rewrite (mapRunError_plain status_code Hcodes); [done|].
    cbn [errors_is err_transition]. rewrite !bool_decide_false; [done|done|].
    cbn [orb]. rewrite not_allowed_text orb_true_r. eauto.
  - intros p ctx Hp Hv HB Hf Hrow. rewrite Hp Hv. cbv zeta. unfold repo_UpdateRun, fenced.
    rewrite HB Hf. cbn [up_run_id up_current_state].
    destruct (rd_runs db !! tp_run_id p) as [r|] eqn:Hr;
      [rewrite bool_decide_false; [by apply Hrow|]|]; simpl;
      by rewrite (mapRunError_plain status_code Hcodes).
  - intros from to t Hid Hfrom Hto Hterm Hfin. unfold validateTransitionRequest.
    rewrite bool_decide_false; [done|]. rewrite Hfrom Hto Hfin. cbn [res_bind fail_if].
    rewrite bool_decide_true; [eauto|]. rewrite Hterm. cbn [negb andb fail_if]. simpl.
    by rewrite (mapRunError_plain status_code Hcodes).
Qed.

Lemma UpdateRunState_codes_witness :
  Server_UpdateRunState (RM := RunService Some) status_code_ex true (env_ex 3, None)
    (mkUpdateState "r1" 1 2 "" 0 "" "2026-01-02T03:04:05Z") db_new
  = (db_new, Err (ErrStatus Internal "finished_at is only allowed for terminal states")).
Proof.
  destruct (UpdateRunState_codes Some status_code_ex (env_ex 3, None)
    (mkUpdateState "r1" 1 2 "" 0 "" "2026-01-02T03:04:05Z") db_new status_code_ex_ok)
    as (_ & _ & _ & H).
  apply (H "created" "queued" (make_time 2026 1 2 3 4 5 0)); vm_compute; congruence.
Defined.
