(* ===== verification/Budget.v ===== *)
(** * Budget: the execution budget ledger

    Package [internal/budget]: units, scopes and conservative reservations
    ([types.go], [postgres.go]), the operator policy ([policy.go]), the
    prospective admission checks ([preflight.go]), tool deadlines
    ([tool_deadline.go]) and model attempts ([controller.go],
    [run_usage.go]).  The two ledger tables are the record [ledger]; amounts
    are 64-bit integers and every addition or subtraction of the code wraps
    explicitly. *)
From Stdlib Require Import Ascii.
From stdpp Require Import pretty sorting.
From S2P Require Import Prelude GoStrings GoHash GoTime.
Open Scope Z_scope.
Open Scope go_scope.

Definition ErrInvalid : error := ErrNew "budget.ErrInvalid" "invalid execution budget request".
Definition ErrConflict : error :=
  ErrNew "budget.ErrConflict" "execution budget identity or policy conflict".
Definition ErrUnknownCost : error :=
  ErrNew "budget.ErrUnknownCost" "execution budget requires a trusted cost quote".
Definition ErrNotFound : error := ErrNew "budget.ErrNotFound" "execution budget scope not found".

(** ** Units *)

Record Units := mkUnits {
  u_model_turns : Z;
  u_tokens : Z;
  u_cost_micros : Z;
  u_external_calls : Z;
  u_children : Z;
  u_active_millis : Z;
  u_egress_bytes : Z;
  u_provider_input_bytes : Z;
}.

#[global] Instance Units_eq_dec : EqDecision Units.
Proof. solve_decision. Defined.

Definition zero_units : Units := mkUnits 0 0 0 0 0 0 0 0.

Definition values (u : Units) : list Z :=
  [u_model_turns u; u_tokens u; u_cost_micros u; u_external_calls u; u_children u;
   u_active_millis u; u_egress_bytes u; u_provider_input_bytes u].

Definition fromValues (v : list Z) : Units :=
  match v with
  | [a; b; c; d; e; f; g; h] => mkUnits a b c d e f g h
  | _ => zero_units
  end.

Definition units_validate (u : Units) : res unit :=
  fail_when existsb (fun amount => Z.ltb amount 0) (values u) with ErrInvalid ;;
  Ok tt.

(** ** Scopes and requests *)

Record ScopeSpec := mkSpec {
  ss_kind : string;
  ss_owner_id : string;
  ss_subject_id : string;
  ss_limits : Units;
  ss_deadline : Z;
}.

Record Scope := mkScope {
  sc_id : string;
  sc_spec : ScopeSpec;
  sc_used : Units;
}.

Record Request := mkRequest {
  rq_owner_id : string;
  rq_operation_id : string;
  rq_scope_ids : list string;
  rq_charge : Units;
  rq_cost_known : bool;
}.

Record Reservation := mkReservation {
  rv_id : string;
  rv_request : Request;
  rv_created_at : Z;
}.

(** [ExhaustedError]. *)
Definition exhausted (kind dimension : string) : error :=
  ErrNew "budget.ExhaustedError"
    ("execution budget exhausted: " +:+ dimension +:+ " (" +:+ kind +:+ ")").

(** [digest] of a list of strings, and of a request. *)
Definition digest_strings (l : list string) : string :=
  sha256_hex (json_list (json_string <$> l)).

Definition json_units (u : Units) : string :=
  json_object (zip ["model_turns"; "tokens"; "cost_micros"; "external_calls"; "children";
                    "active_millis"; "egress_bytes"; "provider_input_bytes"]
                 (json_int <$> values u)).

Definition json_request (r : Request) : string :=
  json_object [("owner_id", json_string (rq_owner_id r));
               ("operation_id", json_string (rq_operation_id r));
               ("scope_ids", json_list (json_string <$> rq_scope_ids r));
               ("charge", json_units (rq_charge r));
               ("cost_known", json_bool (rq_cost_known r))].

Definition digest_request (r : Request) : string := sha256_hex (json_request r).

Definition ScopeID (kind owner subject : string) : string := digest_strings [kind; owner; subject].

(** ** Charging one scope *)

Definition dimension_names : list string :=
  ["model_turns"; "tokens"; "cost_micros"; "external_calls"; "children"; "active_millis";
   "egress_bytes"; "provider_input_bytes"].

(** The loop over the dimensions.  [waived] holds for the first dimension of
    a conversation when the operator disabled its comparison. *)
Fixpoint add_loop (kind : string) (waived : bool) (used limits amounts : list Z)
    (names : list string) : res (list Z) :=
  match used, limits, amounts, names with
  | u :: us, l :: ls, a :: amts, n :: ns =>
      if waived then
        fail_when Z.ltb (wrap64 (max_int64 - u)) a with ErrInvalid ;;
        rest <-! add_loop kind false us ls amts ns ;;
        Ok (wrap64 (u + a) :: rest)
      else
        fail_when Z.ltb l u || Z.ltb (wrap64 (l - u)) a with exhausted kind n ;;
        rest <-! add_loop kind false us ls amts ns ;;
        Ok (wrap64 (u + a) :: rest)
  | _, _, _, _ => Ok []
  end.

Definition addWithinPolicy (scope : Scope) (charge : Units) (now : Z) (disable : bool) :
    res Units :=
  let spec := sc_spec scope in
  fail_when negb (is_ok (units_validate (sc_used scope)))
            || negb (is_ok (units_validate (ss_limits spec)))
            || negb (is_ok (units_validate charge)) with ErrInvalid ;;
  fail_when negb (After (ss_deadline spec) now) with exhausted (ss_kind spec) "deadline" ;;
  v <-! add_loop (ss_kind spec) (bool_decide (ss_kind spec = "conversation") && disable)
          (values (sc_used scope)) (values (ss_limits spec)) (values charge) dimension_names ;;
  Ok (fromValues v).

Definition addWithin (scope : Scope) (charge : Units) (now : Z) : res Units :=
  addWithinPolicy scope charge now false.

Definition scope_kinds : list string :=
  ["task"; "mandate"; "owner_day"; "conversation"; "auxiliary"; "delegation"].

Definition validateScope (spec : ScopeSpec) : res unit :=
  fail_when bool_decide (ss_owner_id spec = "") || bool_decide (ss_subject_id spec = "")
            || Z.ltb 512 (go_len (ss_owner_id spec)) || Z.ltb 512 (go_len (ss_subject_id spec))
            || IsZero (ss_deadline spec) with ErrInvalid ;;
  fail_when negb (bool_decide (ss_kind spec ∈ scope_kinds)) with ErrInvalid ;;
  units_validate (ss_limits spec).

(** ** Canonical requests *)

(** [sort.Strings] compares bytes. *)
Definition string_le (a b : string) : Prop := String.leb a b = true.
#[global] Instance string_le_dec a b : Decision (string_le a b).
Proof. unfold string_le. apply _. Defined.

Fixpoint check_ids (prev : option string) (ids : list string) : res unit :=
  match ids with
  | [] => Ok tt
  | id :: rest =>
      fail_when negb (Z.eqb (go_len id) 64) with ErrInvalid ;;
      fail_when negb (hex_decodes id) with
        ErrOpaque "invalid execution budget request: invalid scope identity" ErrInvalid ;;
      fail_when bool_decide (Some id = prev) with ErrInvalid ;;
      check_ids (Some id) rest
  end.

Definition canonicalRequest (req : Request) : res Request :=
  fail_when bool_decide (TrimSpace (rq_owner_id req) = "") || Z.ltb 512 (go_len (rq_owner_id req))
            || bool_decide (TrimSpace (rq_operation_id req) = "")
            || Z.ltb 512 (go_len (rq_operation_id req))
            || Nat.eqb (length (rq_scope_ids req)) 0 || Nat.ltb 16 (length (rq_scope_ids req))
    with ErrInvalid ;;
  _ <-! units_validate (rq_charge req) ;;
  fail_when negb (rq_cost_known req) with ErrUnknownCost ;;
  let ids := merge_sort string_le (rq_scope_ids req) in
  _ <-! check_ids None ids ;;
  Ok (mkRequest (rq_owner_id req) (rq_operation_id req) ids (rq_charge req) (rq_cost_known req)).

(** ** The ledger *)

(** A row of [execution_budget_reservations]; the key is its digest. *)
Record reservation_row := mkResRow {
  rs_owner_id : string;
  rs_operation_id : string;
  rs_fingerprint : string;
  rs_request : Request;
  rs_created_at : Z;
}.

Record ledger := mkLedger {
  lg_scopes : gmap string Scope;
  lg_reservations : gmap string reservation_row;
}.

(** [scanScope] of the row with a given identifier. *)
Definition scanScope (lg : ledger) (id : string) : res Scope :=
  match lg_scopes lg !! id with Some s => Ok s | None => Err ErrNotFound end.

Definition same_subject (a b : ScopeSpec) : bool :=
  bool_decide (ss_kind a = ss_kind b) && bool_decide (ss_owner_id a = ss_owner_id b)
  && bool_decide (ss_subject_id a = ss_subject_id b).

(** [INSERT INTO execution_budget_scopes .. ON CONFLICT DO NOTHING]: neither
    the identifier nor the subject may exist; the deadline is stored to the
    microsecond. *)
Definition insert_scope (id : string) (spec : ScopeSpec) (lg : ledger) : ledger :=
  if bool_decide (is_Some (lg_scopes lg !! id))
     || existsb (fun ks => same_subject (sc_spec ks.2) spec) (map_to_list (lg_scopes lg))
  then lg
  else mkLedger
         (<[id := mkScope id (mkSpec (ss_kind spec) (ss_owner_id spec) (ss_subject_id spec)
                    (ss_limits spec) (Truncate (ss_deadline spec) microsecond)) zero_units]>
            (lg_scopes lg))
         (lg_reservations lg).

(** [EnsureTx]; [fault] is the error of one of its statements. *)
Definition EnsureTx (fault : option error) (spec : ScopeSpec) (lg : ledger) :
    ledger * res Scope :=
  match validateScope spec with
  | Err e => (lg, Err e)
  | Ok _ =>
      let id := ScopeID (ss_kind spec) (ss_owner_id spec) (ss_subject_id spec) in
      match fault with
      | Some e => (lg, Err e)
      | None =>
          let lg' := insert_scope id spec lg in
          (lg',
           s <-! scanScope lg' id ;;
           fail_when negb (same_subject (sc_spec s) spec)
                     || negb (bool_decide (ss_limits (sc_spec s) = ss_limits spec))
                     || negb (Z.eqb (ss_deadline (sc_spec s)) (Truncate (ss_deadline spec) microsecond))
             with ErrConflict ;;
           Ok s)
      end
  end.

(** [Ensure] commits only what [EnsureTx] returns without an error. *)
Definition Ensure (fault commit : option error) (spec : ScopeSpec) (lg : ledger) :
    ledger * res Scope :=
  match EnsureTx fault spec lg with
  | (_, Err e) => (lg, Err e)
  | (lg', Ok s) => match commit with Some e => (lg, Err e) | None => (lg', Ok s) end
  end.

(** Charge the scopes in order. *)
Fixpoint reserve_scopes (disable : bool) (owner : string) (charge : Units) (now : Z)
    (ids : list string) (lg : ledger) : ledger * res unit :=
  match ids with
  | [] => (lg, Ok tt)
  | id :: rest =>
      match scanScope lg id with
      | Err e => (lg, Err e)
      | Ok s =>
          if negb (bool_decide (ss_owner_id (sc_spec s) = owner)) then (lg, Err ErrConflict) else
          match addWithinPolicy s charge now disable with
          | Err e => (lg, Err e)
          | Ok next =>
              reserve_scopes disable owner charge now rest
                (mkLedger (<[id := mkScope (sc_id s) (sc_spec s) next]> (lg_scopes lg))
                   (lg_reservations lg))
          end
      end
  end.

(** [reserve]: insert the reservation unless it exists, compare fingerprints,
    and charge only when it is new.  [created] is the column default and
    [now] the later reading of the clock. *)
Definition reserve (disable : bool) (created now : Z) (req : Request) (lg : ledger) :
    ledger * res (Reservation * bool) :=
  let id := digest_strings [rq_owner_id req; rq_operation_id req] in
  let fingerprint := digest_request req in
  let conflict :=
    bool_decide (is_Some (lg_reservations lg !! id))
    || existsb (fun kr => bool_decide (rs_owner_id kr.2 = rq_owner_id req)
                          && bool_decide (rs_operation_id kr.2 = rq_operation_id req))
         (map_to_list (lg_reservations lg)) in
  let lg1 :=
    if conflict then lg
    else mkLedger (lg_scopes lg)
           (<[id := mkResRow (rq_owner_id req) (rq_operation_id req) fingerprint req created]>
              (lg_reservations lg)) in
  match lg_reservations lg1 !! id with
  | None => (lg1, Err (ErrNew "pgx.ErrNoRows" "no rows in result set"))
  | Some row =>
      if negb (bool_decide (fingerprint = rs_fingerprint row)) then (lg1, Err ErrConflict) else
      let r := mkReservation id req (rs_created_at row) in
      if conflict then (lg1, Ok (r, false)) else
      match reserve_scopes disable (rq_owner_id req) (rq_charge req) now (rq_scope_ids req) lg1 with
      | (lg2, Err e) => (lg2, Err e)
      | (lg2, Ok _) => (lg2, Ok (r, true))
      end
  end.

(** [ReserveTx]: inside a savepoint that is rolled back on any error. *)
Definition ReserveTx (disable : bool) (fault : option error) (created now : Z) (req : Request)
    (lg : ledger) : ledger * res (Reservation * bool) :=
  match canonicalRequest req with
  | Err e => (lg, Err e)
  | Ok creq =>
      match fault with
      | Some e => (lg, Err e)
      | None =>
          match reserve disable created now creq lg with
          | (_, Err e) => (lg, Err e)
          | (lg', Ok x) => (lg', Ok x)
          end
      end
  end.

(** [Reserve]. *)
Definition Reserve (disable : bool) (fault commit : option error) (created now : Z)
    (req : Request) (lg : ledger) : ledger * res (Reservation * bool) :=
  match ReserveTx disable fault created now req lg with
  | (_, Err e) => (lg, Err e)
  | (lg', Ok x) => match commit with Some e => (lg, Err e) | None => (lg', Ok x) end
  end.

(** ** The operator policy *)

Record ModelPrice := mkPrice {
  mp_basis : string;
  mp_input_micros_per_token : Z;
  mp_output_micros_per_token : Z;
}.

Record Policy := mkPolicy {
  po_disable_owner_day : bool;
  po_disable_conversation_model_turns : bool;
  po_task : Units;
  po_mandate : Units;
  po_day : Units;
  po_conversation : Units;
  po_task_lifetime_millis : Z;
  po_model_millis : Z;
  po_tool_millis : Z;
  po_output_tokens : Z;
  po_models : gmap string ModelPrice;
  po_repeat_limit : Z;
  po_tool_egress_bytes : Z;
  po_model_input_bytes : Z;
}.

Definition DefaultPolicy : Policy :=
  let u := mkUnits 64 67108864 0 128 8 3600000 134217728 268435456 in
  mkPolicy false false u u (mkUnits 256 268435456 0 512 32 14400000 536870912 1073741824) u
    604800000 120000 120000 8192 ∅ 3 4194304 8388608.

Definition price_validate (price : ModelPrice) : res unit :=
  let inp := mp_input_micros_per_token price in
  let out := mp_output_micros_per_token price in
  fail_when Z.ltb inp 0 || Z.ltb out 0 with ErrInvalid ;;
  if bool_decide (mp_basis price = "operator_rate") then
    fail_when Z.eqb inp 0 && Z.eqb out 0 with ErrUnknownCost ;; Ok tt
  else if bool_decide (mp_basis price = "subscription_no_overage")
          || bool_decide (mp_basis price = "local_no_billing") then
    fail_when negb (Z.eqb inp 0) || negb (Z.eqb out 0) with ErrInvalid ;; Ok tt
  else Err ErrUnknownCost.

Fixpoint validate_all {A} (f : A -> res unit) (l : list A) : res unit :=
  match l with [] => Ok tt | a :: l' => _ <-! f a ;; validate_all f l' end.

(** [Policy.Validate]; the prices are visited in some order of the map. *)
Definition Policy_Validate (p : Policy) : res unit :=
  _ <-! validate_all units_validate [po_task p; po_mandate p; po_day p; po_conversation p] ;;
  fail_when Z.leb (po_task_lifetime_millis p) 0 || Z.ltb 31536000000 (po_task_lifetime_millis p)
            || Z.leb (po_model_millis p) 0 || Z.ltb 86400000 (po_model_millis p)
            || Z.leb (po_tool_millis p) 0 || Z.ltb 86400000 (po_tool_millis p)
            || Z.leb (po_output_tokens p) 0 || Z.ltb 65536 (po_output_tokens p)
            || Z.ltb (po_repeat_limit p) 2 || Z.ltb 100 (po_repeat_limit p)
            || Z.ltb (po_tool_egress_bytes p) 4194304
            || Z.leb (po_model_input_bytes p) 0 || Z.ltb 8388608 (po_model_input_bytes p)
    with ErrInvalid ;;
  validate_all (fun kp => price_validate kp.2) (map_to_list (po_models p)).

(** [ModelQuote]: every product and sum wraps at 64 bits. *)
Definition ModelQuote (p : Policy) (provider model : string) (inputTokens : Z) : res Units :=
  match po_models p !! (provider +:+ ":" +:+ model) with
  | None => Err ErrUnknownCost
  | Some price =>
      fail_when Z.ltb inputTokens 0 || Z.ltb 100000000 inputTokens with ErrInvalid ;;
      fail_when Z.ltb (go_div max_int64 (wrap64 (inputTokens + 1))) (mp_input_micros_per_token price)
                || Z.ltb (go_div max_int64 (wrap64 (po_output_tokens p + 1)))
                     (mp_output_micros_per_token price) with ErrInvalid ;;
      let i := wrap64 (inputTokens * mp_input_micros_per_token price) in
      let o := wrap64 (po_output_tokens p * mp_output_micros_per_token price) in
      fail_when Z.ltb (wrap64 (max_int64 - o)) i with ErrInvalid ;;
      Ok (mkUnits 1 (wrap64 (inputTokens + po_output_tokens p)) (wrap64 (i + o)) 0 0
            (po_model_millis p) 0 (po_model_input_bytes p))
  end.

(** ** Prospective admission *)

Record MandateScope := mkMandate {
  md_id : string;
  md_owner_id : string;
  md_privacy : string;
  md_limits : Units;
  md_deadline : Z;
  md_authority_deadline : Z;
}.

Record ModelAllowance := mkAllowance {
  ma_provider : string;
  ma_model : string;
  ma_input_tokens : Z;
  ma_output_tokens : Z;
}.

(** [LoopError]. *)
Definition loop_error (reason : string) : error :=
  ErrNew "budget.LoopError" ("execution stopped: " +:+ reason).

(** [day.Format("2006-01-02")] in UTC. *)
Definition format_day (t : Z) : string :=
  let '(y, m, d) := civil_of_days (days_of t) in
  format_year y +:+ "-" +:+ pad2 m +:+ "-" +:+ pad2 d.

Definition day_length : Z := 24 * hour.

Definition owner_day_spec (p : Policy) (ownerID : string) (now : Z) : ScopeSpec :=
  let day := Truncate now day_length in
  mkSpec "owner_day" ownerID (format_day day) (po_day p) (day + day_length).

Definition mandate_spec (ownerID : string) (m : MandateScope) : ScopeSpec :=
  mkSpec "mandate" ownerID (md_id m) (md_limits m) (md_deadline m).

Definition spec_le (ownerID : string) (a b : ScopeSpec) : Prop :=
  string_le (ScopeID (ss_kind a) ownerID (ss_subject_id a))
            (ScopeID (ss_kind b) ownerID (ss_subject_id b)).
#[global] Instance spec_le_dec ownerID a b : Decision (spec_le ownerID a b).
Proof. unfold spec_le. apply _. Defined.

(** The check of one stored or prospective scope. *)
Definition check_spec (lg : ledger) (ownerID : string) (quote : Units) (now : Z)
    (spec : ScopeSpec) : res unit :=
  _ <-! validateScope spec ;;
  scope <-! (match scanScope lg (ScopeID (ss_kind spec) ownerID (ss_subject_id spec)) with
             | Err _ => Ok (mkScope "" spec zero_units)
             | Ok s =>
                 fail_when negb (bool_decide (ss_limits (sc_spec s) = ss_limits spec))
                           || negb (Z.eqb (ss_deadline (sc_spec s))
                                      (Truncate (ss_deadline spec) microsecond)) with ErrConflict ;;
                 Ok s
             end) ;;
  _ <-! addWithin scope quote now ;;
  Ok tt.

(** [checkRootAdmissionTx]: reads only. *)
Definition checkRootAdmissionTx (p : Policy) (lg : ledger) (now : Z) (ownerID : string)
    (m : option MandateScope) (a : ModelAllowance) : res unit :=
  quote <-! ModelQuote p (ma_provider a) (ma_model a) (ma_input_tokens a) ;;
  _ <-! addWithin
          (mkScope "" (mkSpec "task" ownerID "prospective_root" (po_task p)
                         (now + wrap64 (po_task_lifetime_millis p * millisecond))) zero_units)
          quote now ;;
  let specs :=
    (if po_disable_owner_day p then [] else [owner_day_spec p ownerID now])
    ++ (match m with Some md => [mandate_spec ownerID md] | None => [] end) in
  validate_all (check_spec lg ownerID quote now) (merge_sort (spec_le ownerID) specs).

Definition CheckRootAdmissionTx (p : Policy) (lg : ledger) (now : Z) (ownerID : string)
    (m : MandateScope) (a : ModelAllowance) : res unit :=
  fail_when bool_decide (md_id m = "") || bool_decide (ownerID = "")
            || negb (bool_decide (md_owner_id m = ownerID))
            || Z.leb (ma_input_tokens a) 0 || Z.leb (ma_output_tokens a) 0
            || Z.ltb (po_output_tokens p) (ma_output_tokens a) with ErrInvalid ;;
  fail_when negb (bool_decide (md_privacy m = "cloud_allowed")) with
    loop_error "mandate_model_privacy" ;;
  checkRootAdmissionTx p lg now ownerID (Some m) a.

Definition CheckScheduledRootAdmissionTx (p : Policy) (lg : ledger) (now : Z) (ownerID : string)
    (m : option MandateScope) (a : ModelAllowance) : res unit :=
  fail_when bool_decide (ownerID = "") || Z.leb (ma_input_tokens a) 0
            || Z.leb (ma_output_tokens a) 0 || Z.ltb (po_output_tokens p) (ma_output_tokens a)
    with ErrInvalid ;;
  match m with
  | Some md => CheckRootAdmissionTx p lg now ownerID md a
  | None => checkRootAdmissionTx p lg now ownerID None a
  end.

(** ** Deadlines of reserved tools *)

(** The reservation of an operation and the scopes it names, of its owner
    when [owned]. *)
Definition reserved_scopes (lg : ledger) (owned : bool) (row : reservation_row) : list Scope :=
  omap (fun id => s ← lg_scopes lg !! id;
                  if negb owned || bool_decide (ss_owner_id (sc_spec s) = rs_owner_id row)
                  then Some s else None) (rq_scope_ids (rs_request row)).

Definition find_reservation (lg : ledger) (owner operation : string) : option reservation_row :=
  snd <$> head (filter (fun kr => rs_owner_id kr.2 = owner /\ rs_operation_id kr.2 = operation)
                  (map_to_list (lg_reservations lg))).

Definition least_deadline (first : Z) (scopes : list Scope) : Z :=
  foldl (fun d s => Z.min d (ss_deadline (sc_spec s))) first scopes.

(** [ToolDeadlineTx]. *)
Definition ToolDeadlineTx (p : Policy) (lg : ledger) (now : Z) (ownerID effectID : string) : res Z :=
  fail_when bool_decide (ownerID = "") || bool_decide (effectID = "")
            || Z.leb (po_tool_millis p) 0 with ErrInvalid ;;
  match find_reservation lg ownerID ("effect:" +:+ effectID) with
  | None => Err (ErrNew "pgx.ErrNoRows" "no rows in result set")
  | Some row =>
      let scopes := reserved_scopes lg true row in
      fail_when Nat.eqb (length scopes) 0
                || negb (Nat.eqb (length scopes) (length (rq_scope_ids (rs_request row))))
        with ErrNew "pgx.ErrNoRows" "no rows in result set" ;;
      let deadline :=
        least_deadline (rs_created_at row + po_tool_millis p * millisecond) scopes in
      let request := rs_request row in
      fail_when negb (bool_decide (rq_owner_id request = ownerID))
                || negb (bool_decide (rq_operation_id request = "effect:" +:+ effectID))
                || negb (rq_cost_known request)
                || Nat.eqb (length (rq_scope_ids request)) 0
                || negb (is_ok (units_validate (rq_charge request)))
                || negb (Z.eqb (u_external_calls (rq_charge request)) 1)
                || negb (Z.eqb (u_active_millis (rq_charge request)) (po_tool_millis p))
                || negb (After deadline now) || After (rs_created_at row) now with ErrInvalid ;;
      Ok deadline
  end.

(** ** Model attempts *)

(** A row of [execution_model_attempts], keyed by operation. *)
Record attempt_row := mkAttempt {
  at_run_id : string;
  at_reservation_id : string;
  at_input_allowance : Z;
  at_output_allowance : Z;
  at_actual_input : option Z;
  at_actual_output : option Z;
  at_observed_at : option Z;
}.

(** [ObserveModel]: the first observation is the only one. *)
Definition ObserveModel (fault : option error) (now : Z) (op : string) (input output : option Z)
    (attempts : gmap string attempt_row) : gmap string attempt_row * res unit :=
  let negative v := match v with Some x => Z.ltb x 0 | None => false end in
  if bool_decide (op = "") || negative input || negative output then (attempts, Err ErrInvalid) else
  match fault with
  | Some e => (attempts, Err e)
  | None =>
      (alter (fun a =>
         match at_observed_at a with
         | Some _ => a
         | None => mkAttempt (at_run_id a) (at_reservation_id a) (at_input_allowance a)
                     (at_output_allowance a) input output (Some now)
         end) op attempts, Ok tt)
  end.

Record ModelUsage := mkUsage {
  mu_attempts : Z;
  mu_input_allowance : Z;
  mu_output_allowance : Z;
  mu_observed_input : option Z;
  mu_observed_output : option Z;
}.

Definition sum_all (l : list Z) : Z := foldr Z.add 0 l.

(** [sum(x)] of a column when no row has a NULL there, and there are rows. *)
Definition full_sum (col : list (option Z)) : option Z :=
  if bool_decide (col <> []) && forallb (fun v => bool_decide (is_Some v)) col
  then Some (sum_all (omap id col)) else None.

(** [ModelRunUsage]. *)
Definition ModelRunUsage (lg : ledger) (attempts : gmap string attempt_row) (owner run : string) :
    res ModelUsage :=
  fail_when bool_decide (owner = "") || bool_decide (run = "") with ErrInvalid ;;
  let rows := filter (fun a => at_run_id a = run /\
                (rs_owner_id <$> lg_reservations lg !! at_reservation_id a) = Some owner)
                (map_to_list attempts).*2 in
  Ok (mkUsage (Z.of_nat (length rows)) (sum_all (at_input_allowance <$> rows))
        (sum_all (at_output_allowance <$> rows)) (full_sum (at_actual_input <$> rows))
        (full_sum (at_actual_output <$> rows))).

(** ** Arithmetic of units *)

Definition units_add (a b : Units) : Units := fromValues (zip_with Z.add (values a) (values b)).
Definition units_le (a b : Units) : Prop := Forall2 Z.le (values a) (values b).
Definition units_int64 (u : Units) : Prop := Forall in_int64 (values u).
Definition units_nonneg (u : Units) : Prop := Forall (Z.le 0) (values u).

Lemma values_fromValues v : length v = 8%nat -> values (fromValues v) = v.
Proof. by do 9 (destruct v as [|? v]; try done). Qed.

Lemma values_add a b : values (units_add a b) = zip_with Z.add (values a) (values b).
Proof. done. Qed.

Lemma values_inj a b : values a = values b -> a = b.
Proof. destruct a, b. unfold values. simpl. by intros [= -> -> -> -> -> -> -> ->]. Qed.

#[global] Instance units_add_comm : Comm (=) units_add.
Proof. intros a b. unfold units_add. simpl. f_equal; lia. Qed.

#[global] Instance units_add_assoc : Assoc (=) units_add.
Proof. intros a b c. unfold units_add. simpl. f_equal; lia. Qed.

Lemma units_add_zero a : units_add zero_units a = a.
Proof. destruct a. reflexivity. Qed.

Lemma units_validate_ok u : is_ok (units_validate u) = true <-> units_nonneg u.
Proof.
  unfold units_validate, units_nonneg, fail_if. split.
  - destruct (existsb _ _) eqn:E; [done|]. intros _. apply Forall_forall. intros x Hx.
    destruct (Z.ltb_spec x 0); [|done]. exfalso. rewrite -not_true_iff_false existsb_exists in E.
    apply E. exists x. split; [by apply list_elem_of_In|]. by apply Z.ltb_lt.
  - intros H. destruct (existsb _ _) eqn:E; [|done].
    apply existsb_exists in E as (x & Hx%list_elem_of_In & Hneg%Z.ltb_lt).
    rewrite Forall_forall in H. specialize (H x Hx). lia.
Qed.

(** One dimension: the test on the difference is the test on the sum. *)
Lemma charge_dimension u l a :
  0 <= u -> 0 <= l <= max_int64 -> 0 <= a <= max_int64 ->
  (Z.ltb l u || Z.ltb (wrap64 (l - u)) a) = false <-> u + a <= l.
Proof.
  intros Hu Hl Ha. rewrite orb_false_iff !Z.ltb_ge. split.
  - intros [H1 H2]. rewrite wrap64_id in H2; [unfold in_int64, min_int64; lia|]. lia.
  - intros H. split; [lia|]. rewrite wrap64_id; [unfold in_int64, min_int64; lia|]. lia.
Qed.

Lemma waived_dimension u a : 0 <= u <= max_int64 -> 0 <= a <= max_int64 ->
  Z.ltb (wrap64 (max_int64 - u)) a = false <-> u + a <= max_int64.
Proof.
  intros Hu Ha. rewrite Z.ltb_ge wrap64_id; [unfold in_int64, min_int64; lia|]. lia.
Qed.

Definition ranged (v : list Z) : Prop := Forall (fun x => 0 <= x <= max_int64) v.

(** The bounds a charge must keep: each limit, or the machine range for a
    waived first dimension. *)
Definition bounds (waived : bool) (limits : list Z) : list Z :=
  match limits with
  | [] => []
  | l :: ls => (if waived then max_int64 else l) :: ls
  end.

Lemma add_loop_spec kind waived used limits amounts names v :
  ranged used -> ranged limits -> ranged amounts ->
  length limits = length used -> length amounts = length used -> length names = length used ->
  add_loop kind waived used limits amounts names = Ok v <->
  v = zip_with Z.add used amounts
  /\ Forall2 Z.le (zip_with Z.add used amounts) (bounds waived limits).
Proof.
  intros Hu. revert waived limits amounts names v.
  induction Hu as [|u us Hu Hus IH]; intros waived [|l ls] [|a amts] [|n ns] v Hl Ha; try done.
  { intros _ _ _. simpl. split; [intros [= <-]; auto|by intros [-> _]]. }
  intros E1 E2 E3. simpl in E1, E2, E3.
  apply Forall_cons in Hl as [Hl Hls]. apply Forall_cons in Ha as [Ha Hamts].
  assert (IH' : forall w, add_loop kind false us ls amts ns = Ok w <->
    w = zip_with Z.add us amts /\ Forall2 Z.le (zip_with Z.add us amts) ls).
  { intros w. rewrite IH; try done; try lia. destruct ls; simpl; done. }
  assert (Hdim : forall b c e, (c = false <-> u + a <= b) -> b <= max_int64 ->
    (fail_if c e (rest <-! add_loop kind false us ls amts ns ;; Ok (wrap64 (u + a) :: rest))) = Ok v <->
    v = u + a :: zip_with Z.add us amts
    /\ Forall2 Z.le (u + a :: zip_with Z.add us amts) (b :: ls)).
  { intros b c e Hc Hb. rewrite fail_if_Ok res_bind_Ok Hc Forall2_cons. split.
    - intros [Hle (w & [-> Hw]%IH' & [= <-])]. rewrite wrap64_id; [|done].
      unfold in_int64, min_int64. lia.
    - intros [-> [Hle Hw]]. split; [done|]. eexists. rewrite IH'. split; [done|].
      rewrite wrap64_id; [|done]. unfold in_int64, min_int64. lia. }
  simpl. destruct waived; apply Hdim; try lia.
  - by apply waived_dimension.
  - apply charge_dimension; lia.
Qed.

(** What a scope may hold in use. *)
Definition scope_bound (s : Scope) (disable : bool) : list Z :=
  bounds (bool_decide (ss_kind (sc_spec s) = "conversation") && disable)
    (values (ss_limits (sc_spec s))).

Lemma nonneg_int64 u : units_nonneg u -> units_int64 u -> ranged (values u).
Proof.
  unfold units_nonneg, units_int64, ranged. rewrite !Forall_forall. intros H1 H2 x Hx.
  specialize (H1 x Hx). specialize (H2 x Hx). unfold in_int64 in H2. lia.
Qed.

Lemma addWithinPolicy_iff (s : Scope) (charge : Units) (now : Z) (disable : bool) (next : Units) :
  units_int64 (sc_used s) -> units_int64 (ss_limits (sc_spec s)) -> units_int64 charge ->
  addWithinPolicy s charge now disable = Ok next <->
  units_nonneg (sc_used s) /\ units_nonneg (ss_limits (sc_spec s)) /\ units_nonneg charge
  /\ now < ss_deadline (sc_spec s)
  /\ Forall2 Z.le (values (units_add (sc_used s) charge)) (scope_bound s disable)
  /\ next = units_add (sc_used s) charge.
Proof.
  intros Hu Hl Hc. unfold addWithinPolicy. cbv zeta.
  rewrite !fail_if_Ok !orb_false_iff !negb_false_iff !units_validate_ok res_bind_Ok.
  unfold After. rewrite Z.ltb_lt.
  assert (Hloop : units_nonneg (sc_used s) -> units_nonneg (ss_limits (sc_spec s)) ->
    units_nonneg charge -> forall v,
    add_loop (ss_kind (sc_spec s)) (bool_decide (ss_kind (sc_spec s) = "conversation") && disable)
      (values (sc_used s)) (values (ss_limits (sc_spec s))) (values charge) dimension_names = Ok v
    <-> v = values (units_add (sc_used s) charge)
        /\ Forall2 Z.le (values (units_add (sc_used s) charge)) (scope_bound s disable)).
  { intros H1 H2 H3 v. rewrite values_add. apply add_loop_spec; try done; by apply nonneg_int64. }
  split.
  - intros ([[H1 H2] H3] & Hd & v & Hv & [= <-]). apply Hloop in Hv as [-> Hle]; [|done..].
    split_and!; try done.
  - intros (H1 & H2 & H3 & Hd & Hle & ->). split_and!; try done.
    eexists. split; [by apply Hloop|]. done.
Qed.

(** Charging a scope is exact.  For amounts in the 64-bit range, a charge
    is accepted exactly when used amounts, limits and charge are not
    negative, the deadline has not passed, and in every dimension the sum
    stays within the limit (within the machine range in the first dimension
    of a conversation whose comparison the operator disabled); the accepted
    result is the sum, with no wrap-around anywhere. *)
Theorem addWithinPolicy_exact (s : Scope) (charge : Units) (now : Z) (disable : bool) (next : Units) :
  units_int64 (sc_used s) -> units_int64 (ss_limits (sc_spec s)) -> units_int64 charge ->
  addWithinPolicy s charge now disable = Ok next <->
  units_nonneg (sc_used s) /\ units_nonneg (ss_limits (sc_spec s)) /\ units_nonneg charge
  /\ now < ss_deadline (sc_spec s)
  /\ Forall2 Z.le (values (units_add (sc_used s) charge)) (scope_bound s disable)
  /\ next = units_add (sc_used s) charge.
Proof. apply addWithinPolicy_iff. Qed.

Definition day_scope_ex : Scope :=
  mkScope "d" (mkSpec "owner_day" "o" "2026-01-02" (mkUnits 2 10 0 5 0 100 0 0) 1000)
    (mkUnits 1 4 0 0 0 0 0 0).

Lemma addWithinPolicy_exact_witness :
  addWithinPolicy day_scope_ex (mkUnits 1 6 0 5 0 100 0 0) 999 false
    = Ok (mkUnits 2 10 0 5 0 100 0 0)
  /\ addWithinPolicy day_scope_ex (mkUnits 1 7 0 5 0 100 0 0) 999 false
     = Err (exhausted "owner_day" "tokens").
Proof.
  split; [|vm_compute; reflexivity]. apply addWithinPolicy_exact.
  - repeat constructor; vm_compute; congruence.
  - repeat constructor; vm_compute; congruence.
  - repeat constructor; vm_compute; congruence.
  - split_and!; try (vm_compute; reflexivity); repeat constructor; vm_compute; congruence.
Defined.

(** ** Canonical requests *)

Lemma string_compare_trans a b c :
  (a ?= b)%string <> Gt -> (b ?= c)%string <> Gt -> (a ?= c)%string <> Gt.
Proof.
  revert b c. induction a as [|x a IH]; intros [|y b] [|z c]; simpl; try done.
  unfold Ascii.compare.
  destruct (N.compare_spec (N_of_ascii x) (N_of_ascii y)) as [E1|L1|G1],
           (N.compare_spec (N_of_ascii y) (N_of_ascii z)) as [E2|L2|G2]; try done;
    destruct (N.compare_spec (N_of_ascii x) (N_of_ascii z)); try done; try lia; apply IH.
Qed.

Lemma string_le_compare a b : string_le a b <-> (a ?= b)%string <> Gt.
Proof. unfold string_le, String.leb. by destruct (a ?= b)%string. Qed.

#[global] Instance string_le_trans : Transitive string_le.
Proof. intros a b c. rewrite !string_le_compare. apply string_compare_trans. Qed.
#[global] Instance string_le_total : Total string_le.
Proof. intros a b. apply String.leb_total. Qed.
#[global] Instance string_le_antisym : AntiSymm (=) string_le.
Proof. intros a b. apply String.leb_antisym. Qed.

Lemma check_ids_head prev id rest : check_ids prev (id :: rest) = Ok tt ->
  Some id <> prev /\ check_ids (Some id) rest = Ok tt.
Proof. simpl. rewrite !fail_if_Ok bool_decide_eq_false. naive_solver. Qed.

(** Sorted identifiers that pass the neighbour test are distinct. *)
Lemma check_ids_NoDup prev ids : StronglySorted string_le ids ->
  check_ids prev ids = Ok tt -> NoDup ids.
Proof.
  intros Hs. revert prev. induction Hs as [|id rest Hs IH Hle]; intros prev H; [constructor|].
  apply check_ids_head in H as [_ H]. constructor; [|by apply (IH (Some id))].
  intros Hin. destruct rest as [|b rest]; [by apply not_elem_of_nil in Hin|].
  apply check_ids_head in H as [Hne _]. apply Hne. f_equal.
  apply elem_of_cons in Hin as [->|Hin]; [done|].
  apply Forall_cons in Hle as [Hab _]. apply StronglySorted_inv in Hs as [_ Hb].
  rewrite Forall_forall in Hb. specialize (Hb id Hin). by apply (anti_symm string_le).
Qed.

Lemma canonicalRequest_ok req creq : canonicalRequest req = Ok creq ->
  creq = mkRequest (rq_owner_id req) (rq_operation_id req)
           (merge_sort string_le (rq_scope_ids req)) (rq_charge req) (rq_cost_known req)
  /\ NoDup (rq_scope_ids creq) /\ rq_scope_ids creq ≡ₚ rq_scope_ids req
  /\ units_nonneg (rq_charge creq).
Proof.
  unfold canonicalRequest. intros H. go_ok H. injection H as <-. simpl.
  repeat match goal with x : unit |- _ => destruct x end.
  split_and!; [done| |apply merge_sort_Permutation|].
  - eapply check_ids_NoDup; [apply StronglySorted_merge_sort; apply _|eassumption].
  - apply units_validate_ok. unfold units_validate, fail_if. by destruct Hg0 as [-> _].
Qed.

(** Requests that differ only in the order of their scopes are one request. *)
Lemma canonicalRequest_perm req ids : ids ≡ₚ rq_scope_ids req ->
  canonicalRequest (mkRequest (rq_owner_id req) (rq_operation_id req) ids (rq_charge req)
    (rq_cost_known req)) = canonicalRequest req.
Proof.
  intros Hp. unfold canonicalRequest. simpl.
  assert (merge_sort string_le ids = merge_sort string_le (rq_scope_ids req)) as ->.
  { apply (StronglySorted_unique string_le); [apply StronglySorted_merge_sort; apply _..|].
    by rewrite !merge_sort_Permutation. }
  by rewrite (Permutation_length Hp).
Qed.

Lemma canonicalRequest_idemp req creq :
  canonicalRequest req = Ok creq -> canonicalRequest creq = Ok creq.
Proof.
  intros H. pose proof H as (E & _)%canonicalRequest_ok. rewrite E.
  etrans; [apply canonicalRequest_perm, merge_sort_Permutation|]. by rewrite H E.
Qed.

(** ** The ledger invariant *)

(** The sum of the charges of the reservations that name a scope. *)
Definition charge_of (id : string) (row : reservation_row) (acc : Units) : Units :=
  if decide (id ∈ rq_scope_ids (rs_request row)) then units_add (rq_charge (rs_request row)) acc
  else acc.

Definition charged (id : string) (rows : gmap string reservation_row) : Units :=
  map_fold (fun _ => charge_of id) zero_units rows.

Lemma charged_insert id k row rows : rows !! k = None ->
  charged id (<[k := row]> rows) = charge_of id row (charged id rows).
Proof.
  intros Hk. unfold charged.
  refine (map_fold_insert_L (fun _ => charge_of id) zero_units k row rows _ Hk).
  intros _ _ r1 r2 acc _ _ _. cbv beta. unfold charge_of. repeat case_decide; try done.
  by rewrite !(assoc_L units_add) (comm_L units_add (rq_charge (rs_request r1))).
Qed.

Lemma charged_none id rows :
  (forall k row, rows !! k = Some row -> id ∉ rq_scope_ids (rs_request row)) ->
  charged id rows = zero_units.
Proof.
  induction rows as [|k row rows Hk _ IH] using map_first_key_ind; [done|]. intros H.
  rewrite charged_insert; [done|]. unfold charge_of. rewrite decide_False.
  { apply (H k). apply lookup_insert_eq. }
  apply IH. intros k' row' Hk'. apply (H k'). rewrite lookup_insert_ne; [congruence|done].
Qed.

Section Ledger.
Context (disable : bool).

Record scope_ok (rows : gmap string reservation_row) (id : string) (s : Scope) : Prop := {
  so_key : sc_id s = id;
  so_id : id = ScopeID (ss_kind (sc_spec s)) (ss_owner_id (sc_spec s)) (ss_subject_id (sc_spec s));
  so_limits : units_nonneg (ss_limits (sc_spec s)) /\ units_int64 (ss_limits (sc_spec s));
  so_exact : sc_used s = charged id rows;
  so_nonneg : units_nonneg (sc_used s);
  so_bound : Forall2 Z.le (values (sc_used s)) (scope_bound s disable);
}.

Record row_ok (scopes : gmap string Scope) (id : string) (row : reservation_row) : Prop := {
  ro_id : id = digest_strings [rs_owner_id row; rs_operation_id row];
  ro_owner : rq_owner_id (rs_request row) = rs_owner_id row;
  ro_operation : rq_operation_id (rs_request row) = rs_operation_id row;
  ro_fingerprint : rs_fingerprint row = digest_request (rs_request row);
  ro_canonical : canonicalRequest (rs_request row) = Ok (rs_request row);
  ro_scopes : forall sid, sid ∈ rq_scope_ids (rs_request row) ->
    exists s, scopes !! sid = Some s /\ ss_owner_id (sc_spec s) = rs_owner_id row;
}.

Definition ledger_ok (lg : ledger) : Prop :=
  map_Forall (scope_ok (lg_reservations lg)) (lg_scopes lg)
  /\ map_Forall (row_ok (lg_scopes lg)) (lg_reservations lg).

(** A bounded amount is in the machine range. *)
Lemma bounded_int64 us bs : ranged bs -> Forall (Z.le 0) us -> Forall2 Z.le us bs ->
  Forall in_int64 us.
Proof.
  intros Hb Hn H. revert Hb Hn. induction H as [|u b us bs Hle _ IH]; [constructor|].
  intros [? ?]%Forall_cons [? ?]%Forall_cons. constructor; [|by apply IH].
  unfold in_int64, min_int64. lia.
Qed.

Lemma bounds_ranged w ls : ranged ls -> ranged (bounds w ls).
Proof.
  destruct ls as [|l ls]; [done|]. intros [? ?]%Forall_cons. constructor; [|done].
  destruct w; unfold max_int64 in *; lia.
Qed.

Lemma scope_ok_int64 rows id s : scope_ok rows id s -> units_int64 (sc_used s).
Proof.
  intros [_ _ [Hl Hl'] _ Hn Hb]. eapply bounded_int64; [|exact Hn|exact Hb].
  by apply bounds_ranged, nonneg_int64.
Qed.

(** Charging distinct scopes in order. *)
Lemma reserve_scopes_ok owner charge now ids lg lg' :
  NoDup ids -> reserve_scopes disable owner charge now ids lg = (lg', Ok tt) ->
  lg_reservations lg' = lg_reservations lg
  /\ forall k,
     (k ∈ ids -> exists s next, lg_scopes lg !! k = Some s
        /\ ss_owner_id (sc_spec s) = owner
        /\ addWithinPolicy s charge now disable = Ok next
        /\ lg_scopes lg' !! k = Some (mkScope (sc_id s) (sc_spec s) next))
     /\ (k ∉ ids -> lg_scopes lg' !! k = lg_scopes lg !! k).
Proof.
  intros Hnd. revert lg. induction Hnd as [|id ids Hid Hnd IH]; intros lg; simpl.
  { intros [= <-]. split; [done|]. intros k. split; [by intros ?%not_elem_of_nil|done]. }
  unfold scanScope at 1. destruct (lg_scopes lg !! id) as [s|] eqn:Es; [|done].
  case_bool_decide as Ho; simpl; [|done].
  destruct (addWithinPolicy s charge now disable) as [next|] eqn:Ea; [|done].
  intros H. apply IH in H as [Hr Hk]. simpl in *. split; [done|]. intros k.
  destruct (Hk k) as [H1 H2]. rewrite elem_of_cons. split.
  - intros [->|Hin]; [|destruct (H1 Hin) as (s' & next' & E & ? & ? & ?)].
    + destruct (Hk id) as [_ H2']. specialize (H2' Hid). rewrite lookup_insert_eq in H2'. eauto 6.
    + rewrite lookup_insert_ne in E; [congruence|]. eauto 6.
  - intros [Hne Hn]%Decidable.not_or. specialize (H2 Hn).
    rewrite lookup_insert_ne in H2; [congruence|done].
Qed.

(** An error keeps the ledger; success is either a replay that keeps it, or a
    fresh reservation. *)
Inductive reserve_outcome (created now : Z) (req : Request) (lg lg' : ledger) :
    Reservation * bool -> Prop :=
| OutcomeReplay row : 
    lg' = lg ->
    lg_reservations lg !! digest_strings [rq_owner_id req; rq_operation_id req] = Some row ->
    rs_fingerprint row = digest_request req ->
    reserve_outcome created now req lg lg'
      (mkReservation (digest_strings [rq_owner_id req; rq_operation_id req]) req (rs_created_at row), false)
| OutcomeFresh :
    lg_reservations lg !! digest_strings [rq_owner_id req; rq_operation_id req] = None ->
    lg_reservations lg' =
      <[digest_strings [rq_owner_id req; rq_operation_id req] :=
         mkResRow (rq_owner_id req) (rq_operation_id req) (digest_request req) req created]>
        (lg_reservations lg) ->
    (forall k,
      (k ∈ rq_scope_ids req -> exists s next, lg_scopes lg !! k = Some s
        /\ ss_owner_id (sc_spec s) = rq_owner_id req
        /\ addWithinPolicy s (rq_charge req) now disable = Ok next
        /\ lg_scopes lg' !! k = Some (mkScope (sc_id s) (sc_spec s) next))
      /\ (k ∉ rq_scope_ids req -> lg_scopes lg' !! k = lg_scopes lg !! k)) ->
    reserve_outcome created now req lg lg'
      (mkReservation (digest_strings [rq_owner_id req; rq_operation_id req]) req created, true).

Lemma ReserveTx_outcome fault created now req lg lg' x :
  ReserveTx disable fault created now req lg = (lg', Ok x) ->
  exists creq, canonicalRequest req = Ok creq /\ reserve_outcome created now creq lg lg' x.
Proof.
  unfold ReserveTx. destruct (canonicalRequest req) as [creq|] eqn:Ec; [|done].
  destruct fault; [done|]. destruct (reserve disable created now creq lg) as [l [y|]] eqn:Er; [|done].
  intros [= -> ->]. exists creq. split; [done|].
  apply canonicalRequest_ok in Ec as (_ & Hnd & _). clear req. revert Er. unfold reserve. cbv zeta.
  destruct (bool_decide (is_Some _) || existsb _ _) eqn:Econf.
  - clear Econf. destruct (lg_reservations lg !! _) as [row|] eqn:Erow; [|done].
    case_bool_decide as Hf; simpl; [|done]. intros [= <- <-]. by apply OutcomeReplay.
  - simpl. rewrite lookup_insert_eq. simpl. rewrite bool_decide_true; [done|]. simpl.
    destruct (reserve_scopes _ _ _ _ _ _) as [lg2 [[]|]] eqn:Es; [|done]. intros [= <- <-].
    apply orb_false_iff in Econf as [Enone%bool_decide_eq_false _].
    apply reserve_scopes_ok in Es as [Hr Hk]; [|done]. apply OutcomeFresh; try done.
    by apply eq_None_not_Some.
Qed.

Lemma ReserveTx_error fault created now req lg lg' e :
  ReserveTx disable fault created now req lg = (lg', Err e) -> lg' = lg.
Proof.
  unfold ReserveTx. destruct (canonicalRequest req), fault; try congruence.
  destruct (reserve _ _ _ _ _) as [? []]; congruence.
Qed.

(** *** Histories of the ledger *)

Inductive budget_op :=
| OpEnsure (fault commit : option error) (spec : ScopeSpec)
| OpReserve (fault commit : option error) (created now : Z) (req : Request).

Definition budget_apply (lg : ledger) (op : budget_op) : ledger :=
  match op with
  | OpEnsure fault commit spec => (Ensure fault commit spec lg).1
  | OpReserve fault commit created now req => (Reserve disable fault commit created now req lg).1
  end.

Definition budget_history (ops : list budget_op) (lg : ledger) : ledger :=
  foldl budget_apply lg ops.

(** The arguments are 64-bit integers. *)
Definition op_typed (op : budget_op) : Prop :=
  match op with
  | OpEnsure _ _ spec => units_int64 (ss_limits spec)
  | OpReserve _ _ _ _ req => units_int64 (rq_charge req)
  end.

Definition new_scope (spec : ScopeSpec) : Scope :=
  mkScope (ScopeID (ss_kind spec) (ss_owner_id spec) (ss_subject_id spec))
    (mkSpec (ss_kind spec) (ss_owner_id spec) (ss_subject_id spec) (ss_limits spec)
       (Truncate (ss_deadline spec) microsecond)) zero_units.

(** [Ensure] keeps the ledger or adds one unused scope. *)
Lemma Ensure_cases fault commit spec lg :
  (Ensure fault commit spec lg).1 = lg
  \/ lg_scopes lg !! sc_id (new_scope spec) = None /\ is_ok (validateScope spec) = true
     /\ (Ensure fault commit spec lg).1
        = mkLedger (<[sc_id (new_scope spec) := new_scope spec]> (lg_scopes lg)) (lg_reservations lg).
Proof.
  unfold Ensure, EnsureTx. destruct (validateScope spec) as [u|]; [|by left].
  destruct fault; [by left|]. destruct (res_bind _ _) as [s|]; [|by left].
  destruct commit; [by left|]. simpl. unfold insert_scope.
  destruct (bool_decide _ || _) eqn:E; [by left|right].
  apply orb_false_iff in E as [E%bool_decide_eq_false _]. split_and!; [|done|done].
  by apply eq_None_not_Some.
Qed.

Lemma validateScope_nonneg spec :
  is_ok (validateScope spec) = true -> units_nonneg (ss_limits spec).
Proof.
  intros H. apply units_validate_ok. unfold validateScope, fail_if in H.
  by repeat (case_match; try done).
Qed.

Lemma zero_units_bounded s : units_nonneg (ss_limits (sc_spec s)) ->
  Forall2 Z.le (values zero_units) (scope_bound s disable).
Proof.
  unfold scope_bound, units_nonneg. destruct (ss_limits (sc_spec s)).
  cbn [values bounds u_model_turns u_tokens u_cost_micros u_external_calls u_children
    u_active_millis u_egress_bytes u_provider_input_bytes zero_units].
  rewrite !Forall_cons. intros. destruct_and!.
  repeat constructor; try assumption. case_match; [done|assumption].
Qed.

Lemma ledger_ok_new_scope spec lg :
  ledger_ok lg -> lg_scopes lg !! sc_id (new_scope spec) = None ->
  units_nonneg (ss_limits spec) -> units_int64 (ss_limits spec) ->
  ledger_ok (mkLedger (<[sc_id (new_scope spec) := new_scope spec]> (lg_scopes lg))
               (lg_reservations lg)).
Proof.
  intros [Hs Hr] Hnone Hn Hi. split; simpl.
  - apply map_Forall_insert_2; [|done]. constructor; try done.
    + symmetry. apply charged_none. intros k row Hk Hin.
      destruct (ro_scopes _ _ _ (Hr k row Hk) _ Hin) as (s & E & _).
      by pose proof (eq_trans (eq_sym E) Hnone).
    + by repeat constructor.
    + by apply zero_units_bounded.
  - intros k row Hk. destruct (Hr k row Hk) as [? ? ? ? ? Hsc]. constructor; try done.
    intros sid Hin. destruct (Hsc sid Hin) as (s & E & Ho). exists s. split; [|done].
    rewrite lookup_insert_ne; [|done]. intros <-.
    by pose proof (eq_trans (eq_sym E) Hnone).
Qed.

(** What a fresh reservation does to one scope. *)
Lemma charged_scope rows id s charge now next :
  scope_ok rows id s -> units_int64 charge ->
  addWithinPolicy s charge now disable = Ok next ->
  next = units_add (sc_used s) charge /\ units_nonneg next /\ units_nonneg charge
  /\ Forall2 Z.le (values next) (scope_bound s disable).
Proof.
  intros Hok Hc Ha. pose proof (scope_ok_int64 _ _ _ Hok) as Hu. destruct Hok as [_ _ [Hl Hl'] _ Hn _].
  apply addWithinPolicy_iff in Ha as (_ & _ & Hcn & _ & Hb & ->); [|done..].
  split_and!; try done. unfold units_nonneg in *. rewrite values_add.
  apply Forall_forall. intros x Hx. apply elem_of_lookup_zip_with in Hx as (i & a & b & -> & E1 & E2).
  rewrite !Forall_lookup in Hn, Hcn. specialize (Hn i a E1). specialize (Hcn i b E2). lia.
Qed.

Lemma ledger_ok_fresh created now req lg lg' r :
  ledger_ok lg -> canonicalRequest req = Ok req -> units_int64 (rq_charge req) ->
  reserve_outcome created now req lg lg' (r, true) -> ledger_ok lg'.
Proof.
  intros [Hs Hr] Hcan Hc Ho. inversion Ho as [|Hnone Erows Hk E]. clear Ho. subst r.
  assert (Hspec : forall k s, lg_scopes lg !! k = Some s ->
    exists s', lg_scopes lg' !! k = Some s' /\ sc_spec s' = sc_spec s).
  { intros k s Es. destruct (Hk k) as [H1 H2]. destruct (decide (k ∈ rq_scope_ids req)) as [Hin|Hn].
    - destruct (H1 Hin) as (s0 & next & E1 & _ & _ & E2). eexists. split; [exact E2|]. simpl. congruence.
    - exists s. by rewrite (H2 Hn). }
  split.
  - intros k s' Es'. rewrite Erows. destruct (Hk k) as [H1 H2].
    destruct (decide (k ∈ rq_scope_ids req)) as [Hin|Hn].
    + destruct (H1 Hin) as (s & next & E1 & _ & E2 & E3). rewrite E3 in Es'. injection Es' as <-.
      pose proof (Hs k s E1) as Hok. destruct (charged_scope _ _ _ _ _ _ Hok Hc E2) as (-> & ? & ? & ?).
      destruct Hok as [? ? ? Hex _ _]. constructor; try done. cbn [sc_used].
      rewrite charged_insert; [done|]. unfold charge_of. rewrite decide_True; [done|].
      by rewrite Hex (comm_L units_add).
    + rewrite (H2 Hn) in Es'. destruct (Hs k s' Es') as [? ? ? Hex ? ?]. constructor; try done.
      rewrite charged_insert; [done|]. unfold charge_of. by rewrite decide_False.
  - rewrite Erows. apply map_Forall_insert_2.
    + constructor; try done. intros sid Hin. destruct (Hk sid) as [H1 _].
      destruct (H1 Hin) as (s & next & _ & E1 & _ & E2).
      eexists. split; [exact E2|exact E1].
    + intros k row Ek. destruct (Hr k row Ek) as [? ? ? ? ? Hsc]. constructor; try done.
      intros sid Hin. destruct (Hsc sid Hin) as (s & E1 & E2).
      destruct (Hspec sid s E1) as (s' & E3 & E4). exists s'. by rewrite E4.
Qed.

Lemma Reserve_cases fault commit created now req lg :
  (Reserve disable fault commit created now req lg).1 = lg
  \/ exists lg' r creq, (Reserve disable fault commit created now req lg).1 = lg'
     /\ canonicalRequest req = Ok creq /\ reserve_outcome created now creq lg lg' (r, true).
Proof.
  unfold Reserve. destruct (ReserveTx _ _ _ _ _ _) as [lg' [[r b]|]] eqn:E; [|by left].
  destruct commit; [by left|]. simpl.
  apply ReserveTx_outcome in E as (creq & Hc & Ho). destruct b; [right; eauto 8|].
  left. by inversion Ho.
Qed.

Lemma ledger_ok_apply op lg : op_typed op -> ledger_ok lg -> ledger_ok (budget_apply lg op).
Proof.
  destruct op as [fault commit spec|fault commit created now req]; simpl; intros Ht Hok.
  - destruct (Ensure_cases fault commit spec lg) as [->|(Hn & Hv & ->)]; [done|].
    by apply ledger_ok_new_scope; [| |apply validateScope_nonneg|].
  - destruct (Reserve_cases fault commit created now req lg) as [->|(lg' & r & creq & -> & Hc & Ho)];
      [done|].
    eapply ledger_ok_fresh; [exact Hok|exact (canonicalRequest_idemp _ _ Hc)| |exact Ho].
    by apply canonicalRequest_ok in Hc as (-> & _).
Qed.

Lemma ledger_ok_history ops lg :
  Forall op_typed ops -> ledger_ok lg -> ledger_ok (budget_history ops lg).
Proof.
  intros Ht. revert lg. induction Ht as [|op ops Hop _ IH]; intros lg Hok; [done|].
  apply IH. by apply ledger_ok_apply.
Qed.

(** *** What never changes *)

Definition scope_grows (s s' : Scope) : Prop :=
  sc_spec s' = sc_spec s /\ units_le (sc_used s) (sc_used s').

#[global] Instance scope_grows_preorder : PreOrder scope_grows.
Proof.
  split; [intros s; split; [done|unfold units_le; reflexivity]|].
  intros s1 s2 s3 [E1 L1] [E2 L2]. split; [congruence|].
  unfold units_le in *. exact (transitivity L1 L2).
Qed.

Lemma Forall2_le_add us cs : length us = length cs -> Forall (Z.le 0) cs ->
  Forall2 Z.le us (zip_with Z.add us cs).
Proof.
  intros E H. revert us E. induction H as [|c cs Hc _ IH]; intros [|u us] E; try done.
  simpl in *. constructor; [lia|]. apply IH. lia.
Qed.

Lemma units_le_add u c : units_nonneg c -> units_le u (units_add u c).
Proof. intros H. unfold units_le. rewrite values_add. by apply Forall2_le_add. Qed.

Lemma budget_apply_grows op lg : op_typed op -> ledger_ok lg ->
  lg_reservations lg ⊆ lg_reservations (budget_apply lg op)
  /\ forall id s, lg_scopes lg !! id = Some s ->
     exists s', lg_scopes (budget_apply lg op) !! id = Some s' /\ scope_grows s s'.
Proof.
  intros Ht [Hs Hr]. assert (Hrefl : lg_reservations lg ⊆ lg_reservations lg
    /\ forall id s, lg_scopes lg !! id = Some s ->
       exists s', lg_scopes lg !! id = Some s' /\ scope_grows s s').
  { split; [done|]. intros id s E. exists s. split; [done|reflexivity]. }
  destruct op as [fault commit spec|fault commit created now req]; simpl in *.
  - destruct (Ensure_cases fault commit spec lg) as [->|(Hn & Hv & ->)]; [done|]. simpl.
    split; [done|]. intros id s E. exists s. split; [|reflexivity].
    rewrite lookup_insert_ne; [|done]. intros <-. by pose proof (eq_trans (eq_sym E) Hn).
  - destruct (Reserve_cases fault commit created now req lg) as [->|(lg' & r & creq & -> & Hc & Ho)];
      [done|].
    apply canonicalRequest_ok in Hc as (-> & _).
    inversion Ho as [|Hnone Erows Hk E]. rewrite Erows. split; [by apply insert_subseteq|].
    intros id s Es. destruct (Hk id) as [H1 H2].
    destruct (decide (id ∈ merge_sort string_le (rq_scope_ids req))) as [Hin|Hn].
    + destruct (H1 Hin) as (s0 & next & E1 & _ & E2 & E3). rewrite E1 in Es. injection Es as ->.
      eexists. split; [exact E3|]. split; [done|]. simpl.
      destruct (charged_scope _ _ _ _ _ _ (Hs id s E1) Ht E2) as (-> & _ & Hcn & _).
      by apply units_le_add.
    + exists s. rewrite (H2 Hn). split; [done|reflexivity].
Qed.

Lemma budget_history_grows ops lg : Forall op_typed ops -> ledger_ok lg ->
  lg_reservations lg ⊆ lg_reservations (budget_history ops lg)
  /\ forall id s, lg_scopes lg !! id = Some s ->
     exists s', lg_scopes (budget_history ops lg) !! id = Some s' /\ scope_grows s s'.
Proof.
  intros Ht. revert lg. induction Ht as [|op ops Hop _ IH]; intros lg Hok.
  { split; [done|]. intros id s E. exists s. split; [done|reflexivity]. }
  destruct (budget_apply_grows op lg Hop Hok) as [H1 H2].
  destruct (IH (budget_apply lg op)) as [H3 H4]; [by apply ledger_ok_apply|]. simpl. split.
  - exact (transitivity H1 H3).
  - intros id s E. destruct (H2 id s E) as (s1 & E1 & G1). destruct (H4 id s1 E1) as (s2 & E2 & G2).
    exists s2. split; [done|]. exact (transitivity G1 G2).
Qed.

Definition empty_ledger : ledger := mkLedger ∅ ∅.

Lemma ledger_ok_empty : ledger_ok empty_ledger.
Proof. split; apply map_Forall_empty. Qed.

End Ledger.

(** C4: the ledger never overspends and never loses a charge.  After any
    sequence of scope creations and reservations, failed ones included, what
    a scope has in use is exactly the sum of the charges of the recorded
    reservations that name it, it is not negative, and it is within the
    scope's limits in every dimension (the machine range in the first
    dimension of a conversation whose comparison is disabled). *)
Theorem ledger_exact (disable : bool) (ops : list budget_op) (id : string) (s : Scope) :
  Forall op_typed ops ->
  lg_scopes (budget_history disable ops empty_ledger) !! id = Some s ->
  sc_used s = charged id (lg_reservations (budget_history disable ops empty_ledger))
  /\ units_nonneg (sc_used s)
  /\ Forall2 Z.le (values (sc_used s)) (scope_bound s disable).
Proof.
  intros Ht Hs.
  destruct (ledger_ok_history disable ops _ Ht (ledger_ok_empty disable)) as [Hok _].
  by destruct (Hok id s Hs).
Qed.

Definition spec_ex : ScopeSpec := mkSpec "task" "o" "t" (mkUnits 2 10 0 5 0 100 0 0) 5000.
Definition scope_id_ex : string := ScopeID "task" "o" "t".
Definition request_ex (charge : Units) : Request := mkRequest "o" "op" [scope_id_ex] charge true.
Definition ops_ex : list budget_op :=
  [OpEnsure None None spec_ex;
   OpReserve None None 10 20 (request_ex (mkUnits 1 6 0 0 0 0 0 0));
   OpReserve None None 10 20 (mkRequest "o" "op2" [scope_id_ex] (mkUnits 1 5 0 0 0 0 0 0) true)].

Lemma ops_ex_typed : Forall op_typed ops_ex.
Proof. repeat constructor; vm_compute; congruence. Qed.

Lemma ledger_exact_witness : exists s,
  lg_scopes (budget_history false ops_ex empty_ledger) !! scope_id_ex = Some s
  /\ sc_used s = mkUnits 1 6 0 0 0 0 0 0
  /\ Forall2 Z.le (values (sc_used s)) (scope_bound s false).
Proof.
  assert (E : lg_scopes (budget_history false ops_ex empty_ledger) !! scope_id_ex
    = Some (mkScope scope_id_ex (mkSpec "task" "o" "t" (mkUnits 2 10 0 5 0 100 0 0) 5000)
              (mkUnits 1 6 0 0 0 0 0 0))) by (vm_compute; reflexivity).
  eexists. split; [exact E|].
  destruct (ledger_exact false ops_ex _ _ ops_ex_typed E) as (_ & _ & H). by split.
Defined.

(** A recorded request, however its scopes are ordered, is replayed. *)
Lemma ReserveTx_replay disable created now req creq ids row lg :
  canonicalRequest req = Ok creq -> ids ≡ₚ rq_scope_ids req ->
  lg_reservations lg !! digest_strings [rq_owner_id creq; rq_operation_id creq] = Some row ->
  rs_fingerprint row = digest_request creq ->
  ReserveTx disable None created now
    (mkRequest (rq_owner_id req) (rq_operation_id req) ids (rq_charge req) (rq_cost_known req)) lg
  = (lg, Ok (mkReservation (digest_strings [rq_owner_id creq; rq_operation_id creq]) creq
               (rs_created_at row), false)).
Proof.
  intros Hc Hp Hrow Hf. unfold ReserveTx. rewrite (canonicalRequest_perm req ids Hp) Hc.
  unfold reserve. cbv zeta. rewrite (bool_decide_true (is_Some _)); [exact (mk_is_Some _ _ Hrow)|].
  cbn [orb]. rewrite Hrow Hf (bool_decide_true (_ = _)); [done|]. reflexivity.
Qed.

Lemma reserve_fresh_typed disable fault created now req lg lg' r :
  ledger_ok disable lg -> units_int64 (rq_charge req) ->
  ReserveTx disable fault created now req lg = (lg', Ok (r, true)) -> ledger_ok disable lg'.
Proof.
  intros Hok Ht H. apply ReserveTx_outcome in H as (creq & Hc & Ho).
  eapply ledger_ok_fresh; [exact Hok|exact (canonicalRequest_idemp _ _ Hc)| |exact Ho].
  by apply canonicalRequest_ok in Hc as (-> & _).
Qed.

(** A reservation charges exactly once.  A failing reservation changes
    nothing.  A fresh one adds its charge to each scope it names and to no
    other; afterwards, whatever further operations ran, the same request,
    with its scopes in any order, is answered with the same reservation,
    reported as not fresh, and charges nothing. *)
Theorem reservation_charges_once (disable : bool) (before after : list budget_op)
    (fault : option error) (created now created' now' : Z) (req : Request) (ids : list string)
    (lg' : ledger) (out : res (Reservation * bool)) :
  Forall op_typed before -> Forall op_typed after -> units_int64 (rq_charge req) ->
  ids ≡ₚ rq_scope_ids req ->
  let lg := budget_history disable before empty_ledger in
  ReserveTx disable fault created now req lg = (lg', out) ->
  match out with
  | Err _ => lg' = lg
  | Ok (r, false) => lg' = lg
  | Ok (r, true) =>
      (forall k s, lg_scopes lg !! k = Some s -> exists s', lg_scopes lg' !! k = Some s'
         /\ sc_spec s' = sc_spec s
         /\ sc_used s' = if bool_decide (k ∈ rq_scope_ids req)
                         then units_add (sc_used s) (rq_charge req) else sc_used s)
      /\ let later := budget_history disable after lg' in
         ReserveTx disable None created' now'
           (mkRequest (rq_owner_id req) (rq_operation_id req) ids (rq_charge req)
              (rq_cost_known req)) later
         = (later, Ok (r, false))
  end.
Proof.
  intros Hb Ha Ht Hp. cbv zeta. intros H.
  pose proof (ledger_ok_history disable before _ Hb (ledger_ok_empty disable)) as Hok.
  revert H Hok. generalize (budget_history disable before empty_ledger) as lg. intros lg H Hok.
  destruct out as [[r []]|e]; [| |by apply ReserveTx_error in H].
  - pose proof (reserve_fresh_typed _ _ _ _ _ _ _ _ Hok Ht H) as Hok'.
    apply ReserveTx_outcome in H as (creq & Hc & Ho).
    pose proof Hc as (Ecreq & _ & Hperm & _)%canonicalRequest_ok.
    inversion Ho as [|Hnone Erows Hk E]. split.
    + intros k s Es. destruct (Hk k) as [H1 H2]. rewrite Hperm in H1, H2. case_bool_decide as Hin.
      * destruct (H1 Hin) as (s0 & next & E1 & _ & E2 & E3). rewrite E1 in Es. injection Es as ->.
        eexists. split; [exact E3|]. split; [done|]. simpl. rewrite Ecreq in E2.
        by destruct (charged_scope disable _ _ _ _ _ _ (proj1 Hok k s E1) Ht E2) as (-> & _).
      * exists s. by rewrite (H2 Hin).
    + destruct (budget_history_grows disable after lg' Ha Hok') as [Hsub _].
      assert (Hrow : lg_reservations (budget_history disable after lg')
        !! digest_strings [rq_owner_id creq; rq_operation_id creq]
        = Some (mkResRow (rq_owner_id creq) (rq_operation_id creq) (digest_request creq) creq created)).
      { eapply lookup_weaken; [|exact Hsub]. rewrite Erows. apply lookup_insert_eq. }
      by apply (ReserveTx_replay disable created' now' req creq ids _ _ Hc Hp Hrow).
  - apply ReserveTx_outcome in H as (creq & _ & Ho). by inversion Ho.
Qed.

Lemma reservation_charges_once_witness :
  let lg := budget_history false [OpEnsure None None spec_ex] empty_ledger in
  let req := request_ex (mkUnits 1 6 0 0 0 0 0 0) in
  let lg' := (ReserveTx false None 10 20 req lg).1 in
  exists r, ReserveTx false None 10 20 req lg = (lg', Ok (r, true))
    /\ ReserveTx false None 30 40 req (budget_history false ops_ex lg')
       = (budget_history false ops_ex lg', Ok (r, false)).
Proof.
  cbv zeta.
  assert (E : (ReserveTx false None 10 20 (request_ex (mkUnits 1 6 0 0 0 0 0 0))
      (budget_history false [OpEnsure None None spec_ex] empty_ledger)).2
    = Ok (mkReservation (digest_strings ["o"; "op"]) (request_ex (mkUnits 1 6 0 0 0 0 0 0)) 10, true))
    by (vm_compute; reflexivity).
  exists (mkReservation (digest_strings ["o"; "op"]) (request_ex (mkUnits 1 6 0 0 0 0 0 0)) 10).
  split; [rewrite -E; apply surjective_pairing|].
  refine (proj2 (reservation_charges_once false [OpEnsure None None spec_ex] ops_ex None 10 20 30 40
    (request_ex (mkUnits 1 6 0 0 0 0 0 0)) [scope_id_ex] _ (Ok (_, true)) _ ops_ex_typed _ _ _)).
  - repeat constructor; vm_compute; congruence.
  - repeat constructor; vm_compute; congruence.
  - reflexivity.
  - rewrite -E. apply surjective_pairing.
Defined.

Lemma EnsureTx_existing spec lg s : is_ok (validateScope spec) = true ->
  lg_scopes lg !! ScopeID (ss_kind spec) (ss_owner_id spec) (ss_subject_id spec) = Some s ->
  ss_limits (sc_spec s) <> ss_limits spec
  \/ ss_deadline (sc_spec s) <> Truncate (ss_deadline spec) microsecond ->
  Ensure None None spec lg = (lg, Err ErrConflict).
Proof.
  intros Hv Hs Hd. unfold Ensure, EnsureTx. destruct (validateScope spec); [|done].
  unfold insert_scope. rewrite (bool_decide_true (is_Some _)); [exact (mk_is_Some _ _ Hs)|].
  cbn [orb]. unfold scanScope. rewrite Hs. cbn [res_bind].
  assert (negb (same_subject (sc_spec s) spec)
          || negb (bool_decide (ss_limits (sc_spec s) = ss_limits spec))
          || negb (Z.eqb (ss_deadline (sc_spec s)) (Truncate (ss_deadline spec) microsecond)) = true)
    as ->; [|done].
  destruct Hd as [Hd|Hd].
  - rewrite (bool_decide_false _ Hd). by rewrite orb_true_r.
  - apply Z.eqb_neq in Hd. rewrite Hd. by rewrite orb_true_r.
Qed.

(** a scope's policy is fixed when it is created and its spending only
    grows.  After any further operations the scope is still there, with the
    same kind, owner, subject, limits and deadline, and with no dimension in
    use lower than before; and creating it again with other limits or another
    deadline is a conflict that changes nothing, so a restart or a changed
    default cannot reset spending or enlarge an allowance. *)
Theorem scope_policy_immutable (disable : bool) (before after : list budget_op) (s : Scope)
    (spec : ScopeSpec) :
  Forall op_typed before -> Forall op_typed after ->
  let id := ScopeID (ss_kind spec) (ss_owner_id spec) (ss_subject_id spec) in
  let lg := budget_history disable before empty_ledger in
  lg_scopes lg !! id = Some s ->
  (exists s', lg_scopes (budget_history disable after lg) !! id = Some s'
     /\ sc_spec s' = sc_spec s /\ units_le (sc_used s) (sc_used s'))
  /\ (is_ok (validateScope spec) = true ->
      ss_limits (sc_spec s) <> ss_limits spec
      \/ ss_deadline (sc_spec s) <> Truncate (ss_deadline spec) microsecond ->
      Ensure None None spec lg = (lg, Err ErrConflict)).
Proof.
  intros Hb Ha. cbv zeta. intros Hs. split; [|intros; by apply (EnsureTx_existing spec _ s)].
  destruct (budget_history_grows disable after _ Ha
    (ledger_ok_history disable before _ Hb (ledger_ok_empty disable))) as [_ H].
  destruct (H _ s Hs) as (s' & E & G1 & G2). by exists s'.
Qed.

Definition spec_raised_ex : ScopeSpec := mkSpec "task" "o" "t" (mkUnits 99 10 0 5 0 100 0 0) 5000.

Lemma scope_policy_immutable_witness :
  Ensure None None spec_raised_ex (budget_history false ops_ex empty_ledger)
  = (budget_history false ops_ex empty_ledger, Err ErrConflict).
Proof.
  assert (E : lg_scopes (budget_history false ops_ex empty_ledger)
      !! ScopeID (ss_kind spec_raised_ex) (ss_owner_id spec_raised_ex) (ss_subject_id spec_raised_ex)
    = Some (mkScope scope_id_ex (mkSpec "task" "o" "t" (mkUnits 2 10 0 5 0 100 0 0) 5000)
              (mkUnits 1 6 0 0 0 0 0 0))) by (vm_compute; reflexivity).
  refine (proj2 (scope_policy_immutable false ops_ex [] _ spec_raised_ex ops_ex_typed
    (Forall_nil_2 _) E) _ _).
  - vm_compute. reflexivity.
  - left. vm_compute. congruence.
Defined.

(** ** Quotes *)

Lemma validate_all_Ok {A} (f : A -> res unit) l :
  validate_all f l = Ok tt <-> Forall (fun a => f a = Ok tt) l.
Proof.
  induction l as [|a l IH]; simpl; [by split|]. rewrite res_bind_Ok Forall_cons -IH.
  split; [intros ([] & ? & ?); done|]. intros [? ?]. by exists tt.
Qed.

Lemma Policy_Validate_ok p : Policy_Validate p = Ok tt ->
  0 < po_output_tokens p <= 65536 /\ 0 < po_model_millis p <= 86400000
  /\ 0 < po_model_input_bytes p <= 8388608
  /\ forall k price, po_models p !! k = Some price ->
     0 <= mp_input_micros_per_token price /\ 0 <= mp_output_micros_per_token price.
Proof.
  unfold Policy_Validate. intros H. apply res_bind_Ok in H as ([] & _ & H).
  apply fail_if_Ok in H as [Hg H]. unbool. split_and!; try lia.
  apply validate_all_Ok in H. intros k price Hk. apply elem_of_map_to_list in Hk.
  rewrite Forall_forall in H. specialize (H _ Hk). simpl in H. unfold price_validate in H.
  apply fail_if_Ok in H as [Hp _]. unbool. lia.
Qed.

Lemma price_guard price n : 0 <= price -> 0 < n -> price <= Z.quot max_int64 n ->
  price * n <= max_int64.
Proof.
  intros Hp Hn Hle. rewrite Z.quot_div_nonneg in Hle; [done|unfold max_int64; lia|].
  pose proof (Z.mul_div_le max_int64 n Hn). nia.
Qed.

Lemma price_guard_complete price n : 0 <= price -> 0 < n -> price * n <= max_int64 ->
  price <= Z.quot max_int64 n.
Proof.
  intros Hp Hn Hle. rewrite Z.quot_div_nonneg; [done|unfold max_int64; lia|].
  apply Z.div_le_lower_bound; lia.
Qed.

(** Model quotes are exact.  Under a validated policy a quote is given
    only for a priced model and at most 100 million input tokens, and then
    its cost is the true sum of the two products, its token count the true
    sum, and every amount is a non-negative 64-bit integer: no product or sum
    overflowed.  Conversely a priced model is quoted whenever the cost with
    one token to spare on either side is below the machine maximum. *)
Theorem ModelQuote_exact (p : Policy) (provider model : string) (n : Z) (price : ModelPrice) (u : Units) :
  Policy_Validate p = Ok tt ->
  po_models p !! (provider +:+ ":" +:+ model) = Some price ->
  let cost := n * mp_input_micros_per_token price
              + po_output_tokens p * mp_output_micros_per_token price in
  (ModelQuote p provider model n = Ok u ->
   0 <= n <= 100000000
   /\ u = mkUnits 1 (n + po_output_tokens p) cost 0 0 (po_model_millis p) 0 (po_model_input_bytes p)
   /\ units_nonneg u /\ units_int64 u)
  /\ (0 <= n <= 100000000 ->
      (n + 1) * mp_input_micros_per_token price
      + (po_output_tokens p + 1) * mp_output_micros_per_token price <= max_int64 ->
      is_ok (ModelQuote p provider model n) = true).
Proof.
  intros Hv Hprice. cbv zeta.
  apply Policy_Validate_ok in Hv as (Hout & Hmm & Hib & Hprices).
  destruct (Hprices _ _ Hprice) as [Hpi Hpo]. unfold ModelQuote. rewrite Hprice. unfold go_div.
  rewrite (wrap64_id (po_output_tokens p + 1)); [unfold in_int64, min_int64, max_int64; lia|].
  set (pi := mp_input_micros_per_token price) in *. set (po := mp_output_micros_per_token price) in *.
  set (out := po_output_tokens p) in *.
  split.
  - intros H. apply fail_if_Ok in H as [Hn H]. unbool. rename H0 into Hn1, H1 into Hn2.
    rewrite (wrap64_id (n + 1)) in H; [unfold in_int64, min_int64, max_int64; lia|].
    apply fail_if_Ok in H as [Hg H]. unbool. rename H0 into Hgi, H1 into Hgo.
    apply price_guard in Hgi; [|lia..]. apply price_guard in Hgo; [|lia..].
    assert (in_int64 (n * pi)) by (unfold in_int64, min_int64; nia).
    assert (in_int64 (out * po)) by (unfold in_int64, min_int64; nia).
    rewrite !(wrap64_id (n * pi)) // !(wrap64_id (out * po)) // in H.
    assert (0 <= n * pi) by nia. assert (0 <= out * po) by nia.
    rewrite (wrap64_id (max_int64 - out * po)) in H; [unfold in_int64, min_int64, max_int64 in *; lia|].
    apply fail_if_Ok in H as [Hs H]. apply Z.ltb_ge in Hs. injection H as <-.
    rewrite !wrap64_id; [unfold in_int64, min_int64, max_int64 in *; lia..|].
    split_and!; try done; try lia; unfold units_nonneg, units_int64, in_int64, min_int64, max_int64 in *;
      repeat constructor; simpl; lia.
  - intros Hn Hc. assert (0 <= n * pi) by nia. assert (0 <= out * po) by nia.
    rewrite (wrap64_id (n + 1)); [unfold in_int64, min_int64, max_int64; lia|].
    assert (Hgi : pi <= Z.quot max_int64 (n + 1)) by (apply price_guard_complete; nia).
    assert (Hgo : po <= Z.quot max_int64 (out + 1)) by (apply price_guard_complete; nia).
    rewrite !(wrap64_id (n * pi)) ?(wrap64_id (out * po)) ?(wrap64_id (max_int64 - out * po));
      try (unfold in_int64, min_int64, max_int64 in *; nia).
    unfold fail_if.
    rewrite (proj2 (Z.ltb_ge n 0)); [lia|]. rewrite (proj2 (Z.ltb_ge 100000000 n)); [lia|].
    rewrite (proj2 (Z.ltb_ge (Z.quot max_int64 (n + 1)) pi)); [done|].
    rewrite (proj2 (Z.ltb_ge (Z.quot max_int64 (out + 1)) po)); [done|].
    rewrite (proj2 (Z.ltb_ge _ _)); [nia|]. done.
Qed.

Definition policy_ex : Policy :=
  mkPolicy false false zero_units zero_units zero_units zero_units 604800000 120000 120000 8192
    {["openai:gpt" := mkPrice "operator_rate" 3 12]} 3 4194304 8388608.

Lemma ModelQuote_exact_witness :
  ModelQuote policy_ex "openai" "gpt" 1000
  = Ok (mkUnits 1 9192 101304 0 0 120000 0 8388608)
  /\ units_nonneg (mkUnits 1 9192 101304 0 0 120000 0 8388608).
Proof.
  assert (E : ModelQuote policy_ex "openai" "gpt" 1000
    = Ok (mkUnits 1 9192 101304 0 0 120000 0 8388608)) by (vm_compute; reflexivity).
  split; [exact E|].
  eapply (ModelQuote_exact policy_ex "openai" "gpt" 1000 (mkPrice "operator_rate" 3 12));
    [vm_compute; reflexivity|vm_compute; reflexivity|exact E].
Defined.

(** ** Tool deadlines *)

Lemma find_reservation_Some lg owner op row : find_reservation lg owner op = Some row ->
  exists id, lg_reservations lg !! id = Some row /\ rs_owner_id row = owner
             /\ rs_operation_id row = op.
Proof.
  unfold find_reservation. intros H. apply fmap_Some in H as ([id row'] & Hh & ->).
  assert (Hin : (id, row') ∈ filter (fun kr : string * reservation_row =>
    rs_owner_id kr.2 = owner /\ rs_operation_id kr.2 = op) (map_to_list (lg_reservations lg))).
  { destruct (filter _ _); [done|]. injection Hh as ->. apply list_elem_of_here. }
  apply list_elem_of_filter in Hin as [[? ?] Hin%elem_of_map_to_list]. by exists id.
Qed.

Lemma least_deadline_spec first scopes :
  least_deadline first scopes <= first
  /\ Forall (fun s => least_deadline first scopes <= ss_deadline (sc_spec s)) scopes
  /\ (least_deadline first scopes = first
      \/ exists s, s ∈ scopes /\ least_deadline first scopes = ss_deadline (sc_spec s)).
Proof.
  revert first. induction scopes as [|s scopes IH]; intros first.
  { split_and!; [reflexivity|constructor|by left]. }
  change (least_deadline first (s :: scopes))
    with (least_deadline (Z.min first (ss_deadline (sc_spec s))) scopes).
  destruct (IH (Z.min first (ss_deadline (sc_spec s)))) as (H1 & H2 & H3). split_and!; [lia| |].
  - constructor; [lia|done].
  - destruct H3 as [->|(s' & Hin & E)].
    + destruct (Z.min_spec first (ss_deadline (sc_spec s))) as [[_ ->]|[_ ->]]; [by left|right].
      exists s. split; [apply list_elem_of_here|done].
    + right. exists s'. split; [by apply list_elem_of_further|done].
Qed.

Lemma omap_full_length {A B} (f : A -> option B) l :
  length (omap f l) = length l -> Forall (fun a => exists b, f a = Some b /\ b ∈ omap f l) l.
Proof.
  assert (Hle : forall k, (length (omap f k) <= length k)%nat).
  { induction k as [|a k IH]; csimpl; [done|]. destruct (f a); simpl; lia. }
  induction l as [|a l IH]; csimpl; [constructor|]. destruct (f a) as [b|] eqn:E; csimpl.
  - intros [= Hl]. constructor; [exists b; split; [done|apply list_elem_of_here]|].
    eapply Forall_impl; [exact (IH Hl)|]. intros x (y & E' & Hin). exists y.
    split; [done|by apply list_elem_of_further].
  - intros Hl. specialize (Hle l). lia.
Qed.

(** The deadline given to a reserved tool is the tightest one.  It is
    given only for a recorded reservation of that owner and effect that is
    charged one external call and the policy's tool time; it lies in the
    future, is no later than the reservation's own allowance nor than the
    deadline of any scope the reservation charges, and is one of these. *)
Theorem ToolDeadlineTx_tightest (p : Policy) (lg : ledger) (now : Z) (owner effect : string) (d : Z) :
  ToolDeadlineTx p lg now owner effect = Ok d ->
  exists id row, lg_reservations lg !! id = Some row
    /\ rs_owner_id row = owner /\ rs_operation_id row = "effect:" +:+ effect
    /\ u_external_calls (rq_charge (rs_request row)) = 1
    /\ u_active_millis (rq_charge (rs_request row)) = po_tool_millis p
    /\ rs_created_at row <= now < d
    /\ d <= rs_created_at row + po_tool_millis p * millisecond
    /\ (forall sid, sid ∈ rq_scope_ids (rs_request row) -> exists s, lg_scopes lg !! sid = Some s
          /\ ss_owner_id (sc_spec s) = owner /\ d <= ss_deadline (sc_spec s))
    /\ (d = rs_created_at row + po_tool_millis p * millisecond
        \/ exists sid s, sid ∈ rq_scope_ids (rs_request row) /\ lg_scopes lg !! sid = Some s
           /\ d = ss_deadline (sc_spec s)).
Proof.
  unfold ToolDeadlineTx. intros H. apply fail_if_Ok in H as [_ H].
  destruct (find_reservation _ _ _) as [row|] eqn:Ef; [|done].
  apply find_reservation_Some in Ef as (id & Hrow & Hown & Hop).
  exists id, row. cbv zeta in H. apply fail_if_Ok in H as [Hlen H]. apply fail_if_Ok in H as [Hg [= <-]].
  apply orb_false_iff in Hlen as [_ Hlen%negb_false_iff%Nat.eqb_eq].
  unfold After in Hg. unbool.
  set (first := rs_created_at row + po_tool_millis p * millisecond) in *.
  destruct (least_deadline_spec first (reserved_scopes lg true row)) as (L1 & L2 & L3).
  assert (Hscope : forall sid s, (s' ← lg_scopes lg !! sid;
      if negb true || bool_decide (ss_owner_id (sc_spec s') = rs_owner_id row)
      then Some s' else None) = Some s ->
      lg_scopes lg !! sid = Some s /\ ss_owner_id (sc_spec s) = owner).
  { intros sid s. destruct (lg_scopes lg !! sid) as [s'|]; simpl; [|done].
    case_bool_decide as E; [|done]. intros [= ->]. split; [done|congruence]. }
  split_and!; try done; try lia.
  - intros sid Hsid. pose proof (omap_full_length _ _ Hlen) as Hall. rewrite Forall_forall in Hall.
    destruct (Hall sid Hsid) as (s & Es & Hin). apply Hscope in Es as [Es Ho]. exists s.
    rewrite Forall_forall in L2. split_and!; try done. by apply L2.
  - destruct L3 as [->|(s & Hin & ->)]; [by left|right].
    apply list_elem_of_omap in Hin as (sid & Hsid & Es). apply Hscope in Es as [Es _]. by exists sid, s.
Qed.

Definition tool_ledger_ex : ledger :=
  mkLedger {["s1" := mkScope "s1" (mkSpec "task" "o" "t" zero_units 900) zero_units]}
    {["r1" := mkResRow "o" "effect:e" "f"
       (mkRequest "o" "effect:e" ["s1"] (mkUnits 0 0 0 1 0 120000 0 0) true) 10]}.

Lemma ToolDeadlineTx_tightest_witness :
  ToolDeadlineTx policy_ex tool_ledger_ex 20 "o" "e" = Ok 900
  /\ exists id row, lg_reservations tool_ledger_ex !! id = Some row /\ rs_created_at row <= 20 < 900.
Proof.
  assert (E : ToolDeadlineTx policy_ex tool_ledger_ex 20 "o" "e" = Ok 900) by (vm_compute; reflexivity).
  split; [exact E|].
  destruct (ToolDeadlineTx_tightest _ _ _ _ _ _ E) as (id & row & H & _ & _ & _ & _ & Hc & _).
  by exists id, row.
Defined.
