(* ===== verification/Canonical.v ===== *)
(** * Canonical: what a tool call says, whatever way it is spelt

    The canonical arguments of the loop guards (internal/budget/canonical.go
    and [NormalizeResult] of loop.go), and the exact arguments an action is
    bound to ([ArgumentsHash] of internal/actionauth/binding.go). *)
From Stdlib Require Import Ascii QArith Qreduction.
From stdpp Require Import pretty.
From S2P Require Import Prelude GoStrings GoBytes GoJson GoHash GoValue Budget.
Open Scope Z_scope.
Open Scope go_scope.

(** ** Numbers *)

Fixpoint digits_value (acc : Z) (s : string) : Z :=
  match s with
  | String c s' => digits_value (acc * 10 + (byte_val c - 48)) s'
  | EmptyString => acc
  end.

(** [strconv.ParseInt(s, 10, 64)]. *)
Definition parse_int64 (s : string) : option Z :=
  let '(neg, ds) := match s with
                    | String c s' => if is_char c "-" then (true, s')
                                     else if is_char c "+" then (false, s') else (false, s)
                    | EmptyString => (false, s)
                    end in
  match digits1 ds with
  | Some (d, EmptyString) =>
      let n := if neg then - digits_value 0 d else digits_value 0 d in
      if Z.leb min_int64 n && Z.leb n max_int64 then Some n else None
  | _ => None
  end.

(** [raw[strings.IndexAny(raw, "eE")+1:]]. *)
Fixpoint after_exponent (s : string) : option string :=
  match s with
  | String c s' => if is_exp c then Some s' else after_exponent s'
  | EmptyString => None
  end.

(** [m] times the [e]-th power of ten. *)
Definition decimal (m e : Z) : Q :=
  if Z.leb 0 e then inject_Z (m * 10 ^ e) else m # Z.to_pos (10 ^ (- e)).

(** [big.Rat.SetString] on a decimal literal. *)
Definition Rat_SetString (raw : string) : option Q :=
  let '(sign, s1) := number_sign raw in
  '(i, s2) ← number_int s1; '(f, s3) ← number_frac s2; '(e, s4) ← number_exp s3;
  let fd := match f with String _ d => d | EmptyString => "" end in
  x ← match after_exponent e with Some t => parse_int64 t | None => Some 0 end;
  let m := digits_value 0 (i +:+ fd) in
  match s4 with
  | EmptyString => Some (decimal (if bool_decide (sign = "") then m else - m) (x - go_len fd))
  | _ => None
  end.

(** [big.Rat.RatString]. *)
Definition RatString (q : Q) : string :=
  let r := Qred q in
  if Pos.eqb (Qden r) 1 then pretty (Qnum r) else pretty (Qnum r) +:+ "/" +:+ pretty (Zpos (Qden r)).

(** ** Canonical nodes *)

Definition tagged (tag : string) (rest : list gval) : gval := VArray (VString tag :: rest).

(** The number case of [canonicalNode]. *)
Definition canonical_number (raw : string) : res gval :=
  fail_when Z.ltb 512 (go_len raw) with ErrInvalid ;;
  fail_when match after_exponent raw with
            | Some t => match parse_int64 t with
                        | Some x => Z.ltb 1024 x || Z.ltb x (-1024)
                        | None => true
                        end
            | None => false
            end with ErrInvalid ;;
  match Rat_SetString raw with
  | Some q => Ok (tagged "number" [VString (RatString q)])
  | None => Err ErrInvalid
  end.

Section each.
Context {A B : Type} (f : A -> res B).

Fixpoint each (l : list A) : res (list B) :=
  match l with
  | [] => Ok []
  | a :: l' => b <-! f a ;; bs <-! each l' ;; Ok (b :: bs)
  end.
End each.

(** [canonicalNode].  The entries of a map are visited in the order of their
    keys; every error is the same one. *)
Fixpoint canonicalNode (v : gval) : res gval :=
  match v with
  | VNull => Ok (tagged "null" [])
  | VBool b => Ok (tagged "bool" [VBool b])
  | VString s => Ok (tagged "string" [VString s])
  | VNumber raw => canonical_number raw
  | VArray l => out <-! each canonicalNode l ;; Ok (tagged "array" [VArray out])
  | VObject m =>
      out <-! each (fun kv => n <-! canonicalNode kv.2 ;; Ok (kv.1, n)) m ;;
      Ok (tagged "object" [VObject out])
  end.

(** A text of one JSON value, as [NormalizedArgumentsHash] and
    [NormalizeResult] decode it. *)
Definition decode_one (limit : Z) (invalid : error) (raw : string) : res gval :=
  fail_when Z.ltb limit (go_len raw) with ErrInvalid ;;
  match parse_value decode_any (decode_fuel raw) 0 raw with
  | None => Err invalid
  | Some (v, rest) => if bool_decide (skip_space rest = "") then Ok v else Err ErrInvalid
  end.

Definition digest_value (v : gval) : string := sha256_hex (encode v).

(** [NormalizedArgumentsHash]. *)
Definition normalized_arguments (raw : string) : res gval :=
  v <-! decode_one (256 * 1024) ErrInvalid raw ;; canonicalNode v.

Definition NormalizedArgumentsHash (raw : string) : res string :=
  n <-! normalized_arguments raw ;; Ok (digest_value n).

(** ** Results *)

Definition volatile_keys : list string :=
  ["timestamp"; "observed_at"; "recorded_at"; "duration_ms"; "request_id"; "trace_id"].

Definition volatile (k : string) : bool := bool_decide (k ∈ volatile_keys).

(** [strip]. *)
Fixpoint strip (v : gval) : gval :=
  match v with
  | VArray l => VArray (map strip l)
  | VObject m => VObject (List.filter (fun kv => negb (volatile kv.1))
                            (map (fun kv => (kv.1, strip kv.2)) m))
  | _ => v
  end.

(** [NormalizeResult]. *)
Definition normalized_result (raw : string) : res gval :=
  v <-! decode_one (8 * 1024 * 1024) (Errorf "invalid tool result JSON") raw ;;
  canonicalNode (strip v).

Definition NormalizeResult (raw : string) : res string :=
  n <-! normalized_result raw ;; Ok (digest_value n).

(** ** Exact arguments *)

Definition maxArgumentBytes : Z := 256 * 1024.

(** [decodeUnique]: no value below depth 64, no key twice. *)
Definition decodeUnique : decoding :=
  mkDecoding (fun d => Z.leb (Z.of_nat d) 64) (fun _ => true) true false.

(** [canonicalJSON]. *)
Definition canonicalJSON (raw : string) : res string :=
  fail_when Z.ltb maxArgumentBytes (go_len raw)
    with Errorf "action arguments exceed the supported limit" ;;
  match parse_value decodeUnique (decode_fuel raw) 0 raw with
  | None => Err (Errorf "action arguments must be valid JSON")
  | Some (v, rest) =>
      if bool_decide (skip_space rest = "") then Ok (encode v)
      else Err (Errorf "action arguments must contain one JSON value")
  end.

(** [ArgumentsHash]. *)
Definition ArgumentsHash (raw : string) : res string :=
  c <-! canonicalJSON raw ;; Ok (sha256_hex c).

(** ** The same JSON *)

(** Equal values, numbers compared as rationals. *)
Definition same_number (a b : string) : bool :=
  match Rat_SetString a, Rat_SetString b with
  | Some p, Some q => Qeq_bool p q
  | _, _ => false
  end.

Section all2.
Context {A B : Type} (f : A -> B -> bool).

Fixpoint all2 (l : list A) (l' : list B) : bool :=
  match l, l' with
  | [], [] => true
  | a :: l, b :: l' => f a b && all2 l l'
  | _, _ => false
  end.
End all2.

Fixpoint same_json (v w : gval) : bool :=
  match v, w with
  | VNull, VNull => true
  | VBool a, VBool b => Bool.eqb a b
  | VNumber a, VNumber b => same_number a b
  | VString a, VString b => bool_decide (a = b)
  | VArray l, VArray l' => all2 same_json l l'
  | VObject m, VObject m' =>
      all2 (fun kv kv' => bool_decide (kv.1 = kv'.1) && same_json kv.2 kv'.2) m m'
  | _, _ => false
  end.

Example numbers_same :
  same_number "1.50e+2" "150" = true /\ same_number "-0" "0" = true
  /\ same_number "0.1" "1e-1" = true /\ same_number "0.1" "0.10000000000000001" = false.
Proof. vm_compute. auto. Qed.

Example rat_strings :
  (RatString <$> Rat_SetString "-2.50") = Some "-5/2" /\ (RatString <$> Rat_SetString "1e3") = Some "1000".
Proof. vm_compute. auto. Qed.

(** ** Fractions are printed exactly *)

Fixpoint all_chars (p : ascii -> bool) (s : string) : bool :=
  match s with String c s' => p c && all_chars p s' | EmptyString => true end.

Lemma all_chars_app p a b : all_chars p (a +:+ b) = all_chars p a && all_chars p b.
Proof. induction a as [|c a IH]; [done|]. rewrite append_cons. simpl. by rewrite IH andb_assoc. Qed.

(** Digits and the minus sign. *)
Definition int_char (c : ascii) : bool := is_digit c || is_char c "-".

Lemma pretty_N_go_chars x s : all_chars int_char s = true -> all_chars int_char (pretty_N_go x s) = true.
Proof.
  revert s. induction (N.lt_wf_0 x) as [x _ IH]; intros s Hs.
  assert (x = 0 \/ 0 < x)%N as [->|Hx] by lia; [by rewrite pretty_N_go_0|].
  rewrite pretty_N_go_step //. apply IH; [by apply N.div_lt|]. simpl. rewrite Hs andb_true_r.
  unfold pretty_N_char. by repeat case_match.
Qed.

Lemma pretty_Z_chars (z : Z) : all_chars int_char (pretty z) = true.
Proof.
  destruct z as [|p|p]; [done|..]; unfold pretty, pretty_Z.
  - by apply pretty_N_go_chars.
  - rewrite all_chars_app. simpl. by apply pretty_N_go_chars.
Qed.

(** A text before a slash. *)
Lemma slash_free_split a b x y : all_chars int_char a = true -> all_chars int_char b = true ->
  a +:+ String "/" x = b +:+ String "/" y -> a = b /\ x = y.
Proof.
  revert b. induction a as [|c a IH]; intros [|d b] Ha Hb; rewrite ?append_cons; simpl in Ha, Hb.
  - change ("" +:+ String "/" x) with (String "/" x).
    change ("" +:+ String "/" y) with (String "/" y). by intros [= ->].
  - change ("" +:+ String "/" x) with (String "/" x). intros [= <- _]. by vm_compute in Hb.
  - change ("" +:+ String "/" y) with (String "/" y). intros [= -> _]. by vm_compute in Ha.
  - apply andb_true_iff in Ha as [_ Ha], Hb as [_ Hb]. intros [= -> H].
    destruct (IH b Ha Hb H) as [-> ->]. done.
Qed.

Lemma slash_not_plain a b x : all_chars int_char a = true -> a <> b +:+ String "/" x.
Proof.
  revert b. induction a as [|c a IH]; intros [|d b] Ha; rewrite ?append_cons; try done.
  - change ("" +:+ String "/" x) with (String "/" x). intros [= -> _]. by vm_compute in Ha.
  - simpl in Ha. apply andb_true_iff in Ha as [_ Ha]. intros [= _ H]. by apply (IH b Ha).
Qed.

Lemma RatString_exact p q : RatString p = RatString q <-> (p == q)%Q.
Proof.
  split.
  - intros H. rewrite -(Qred_correct p) -(Qred_correct q).
    enough (Qred p = Qred q) as -> by reflexivity. revert H. unfold RatString.
    destruct (Qred p) as [np dp], (Qred q) as [nq dq]. cbn [Qnum Qden].
    destruct (Pos.eqb_spec dp 1) as [->|Hp], (Pos.eqb_spec dq 1) as [->|Hq]; intros H.
    + apply (inj pretty) in H as ->. done.
    + case: (slash_not_plain _ _ _ (pretty_Z_chars np) H).
    + case: (slash_not_plain _ _ _ (pretty_Z_chars nq) (eq_sym H)).
    + apply slash_free_split in H as [H1 H2]; [|apply pretty_Z_chars..].
      apply (inj pretty) in H1 as ->. apply (inj pretty) in H2 as [= ->]. done.
  - intros H. unfold RatString. by rewrite (Qred_complete _ _ H).
Qed.

Lemma RatString_chars q : utf8_valid (RatString q) = true.
Proof.
  assert (Hascii : forall s, all_chars (fun c => Z.ltb (byte_val c) 128) s = true -> utf8_valid s = true).
  { induction s as [|c s IH]; [done|]. cbn [all_chars utf8_valid]. rewrite andb_true_iff.
    intros [-> H]. by apply IH. }
  assert (Hint : forall s, all_chars int_char s = true ->
    all_chars (fun c => Z.ltb (byte_val c) 128) s = true).
  { induction s as [|c s IH]; [done|]. cbn [all_chars]. rewrite !andb_true_iff. intros [H1 H2].
    split; [|by apply IH]. by destruct c as [[] [] [] [] [] [] [] []]. }
  apply Hascii. unfold RatString. destruct (Pos.eqb _ _); [apply Hint, pretty_Z_chars|].
  rewrite !all_chars_app (Hint _ (pretty_Z_chars _)). apply Hint, pretty_Z_chars.
Qed.

(** ** Canonical nodes are equal exactly for the same JSON *)

Lemma each_Ok {A B} (f : A -> res B) l bs : each f l = Ok bs <-> Forall2 (fun a b => f a = Ok b) l bs.
Proof.
  revert bs. induction l as [|a l IH]; intros bs; simpl.
  - split; [by intros [= <-]|]. by inversion_clear 1.
  - rewrite res_bind_Ok. setoid_rewrite res_bind_Ok. setoid_rewrite IH. split.
    + intros (b & H1 & bs' & H2 & [= <-]). by constructor.
    + intros H. inversion H as [|? b ? bs' H1 H2]; subst. eauto.
Qed.

Lemma canonical_number_Ok raw n : canonical_number raw = Ok n ->
  exists q, Rat_SetString raw = Some q /\ n = tagged "number" [VString (RatString q)].
Proof.
  unfold canonical_number, fail_if. destruct (Z.ltb _ _); [done|]. destruct (match after_exponent raw with
    Some t => _ | None => _ end); [done|]. destruct (Rat_SetString raw) as [q|]; [|done].
  intros [= <-]. by exists q.
Qed.

Lemma all2_spec {A B} (f : A -> A -> bool) (g : A -> B -> Prop) (l l' : list A)
    (bs bs' : list B) :
  Forall (fun a => forall a' b b', g a b -> g a' b' -> (b = b' <-> f a a' = true)) l ->
  Forall2 g l bs -> Forall2 g l' bs' -> (bs = bs' <-> all2 f l l' = true).
Proof.
  intros H Hl. revert l' bs'. induction Hl as [|a b l bs Hab Hl IH]; intros l' bs' Hl'.
  - by inversion Hl'.
  - inversion Hl' as [|a' b' l1 bs1 Hab' Hl1]; subst; [by split|]. simpl.
    inversion H as [|? ? Ha Ht]; subst. rewrite andb_true_iff -(Ha _ _ _ Hab Hab').
    rewrite -(IH Ht _ _ Hl1). split; [by intros [= -> ->]|by intros [-> ->]].
Qed.

Lemma canonicalNode_exact v w n n' : canonicalNode v = Ok n -> canonicalNode w = Ok n' ->
  (n = n' <-> same_json v w = true).
Proof.
  revert w n n'. induction v as [|b|t|s|l IH|m IH] using gval_nested_ind; intros w n n';
    destruct w as [|b'|t'|s'|l'|m']; cbn [canonicalNode same_json];
    rewrite ?res_bind_Ok; intros Hn Hn'.
  all: try (destruct Hn as (out & Ho & Hn)); try (destruct Hn' as (out' & Ho' & Hn')).
  all: try (apply canonical_number_Ok in Hn as (q & Hq & ->));
    try (apply canonical_number_Ok in Hn' as (q' & Hq' & ->)).
  all: try (injection Hn as <-); try (injection Hn' as <-); try (by split).
  - rewrite Bool.eqb_true_iff. split; [by intros [= ->]|by intros ->].
  - unfold same_number. rewrite Hq Hq' Qeq_bool_iff -RatString_exact.
    split; [by intros [= ->]|by intros ->].
  - rewrite bool_decide_eq_true. split; [by intros [= ->]|by intros ->].
  - apply each_Ok in Ho, Ho'. rewrite -(all2_spec same_json _ _ _ _ _ IH Ho Ho').
    split; [by intros [= ->]|by intros ->].
  - apply each_Ok in Ho, Ho'.
    rewrite -(all2_spec _ _ _ _ _ _ _ Ho Ho'); [|split; [by intros [= ->]|by intros ->]].
    eapply Forall_impl; [exact IH|]. intros [k x] Hx [k' x'] b b'. cbn [fst snd].
    rewrite !res_bind_Ok. intros (n & H1 & [= <-]) (n' & H2 & [= <-]).
    rewrite andb_true_iff bool_decide_eq_true -(Hx _ _ _ H1 H2).
    split; [by intros [= -> ->]|by intros [-> ->]].
Qed.

(** ** Canonical nodes print *)

Lemma each_keys {A B} (f : A -> res B) (m : list (string * A)) out :
  each (fun kv => n <-! f kv.2 ;; Ok (kv.1, n)) m = Ok out -> map fst out = map fst m.
Proof.
  rewrite each_Ok. induction 1 as [|[k a] [k' b] m out H Hm IH]; [done|]. cbn [fst snd] in H.
  apply res_bind_Ok in H as (n & _ & [= <- _]). simpl. by rewrite IH.
Qed.

Lemma sorted_fields_keys {A B} (m : list (string * A)) (m' : list (string * B)) :
  map fst m = map fst m' -> sorted_fields m = sorted_fields m'.
Proof.
  revert m'. induction m as [|[k a] m IH]; intros [|[k' b] m']; simpl; try done.
  intros [= -> H]. rewrite (IH _ H). f_equal. clear IH. revert m' H.
  induction m as [|[k a'] m IH]; intros [|[k1 b'] m']; simpl; try done.
  intros [= -> H]. by rewrite (IH _ H).
Qed.

Lemma canonicalNode_ok v n : canonicalNode v = Ok n -> value_ok v = true -> value_ok n = true.
Proof.
  revert n. induction v as [|b|t|s|l IH|m IH] using gval_nested_ind; intros n; cbn [canonicalNode].
  - by intros [= <-].
  - by intros [= <-].
  - intros H _. apply canonical_number_Ok in H as (q & _ & ->). simpl. by rewrite RatString_chars.
  - intros [= <-] H. simpl in *. by rewrite H.
  - rewrite res_bind_Ok. intros (out & Ho & E) H. injection E as <-. apply each_Ok in Ho. simpl in *.
    rewrite andb_true_r. revert H. induction Ho as [|a b l out Hab Ho IHo]; [done|]. simpl.
    inversion IH as [|? ? Ha Ht]; subst. rewrite !andb_true_iff. intros [H1 H2].
    split; [exact (Ha _ Hab H1)|exact (IHo Ht H2)].
  - rewrite res_bind_Ok. intros (out & Ho & E) H. injection E as <-. simpl in *. rewrite andb_true_r.
    apply andb_true_iff in H as [Hs H].
    rewrite (sorted_fields_keys out m (each_keys canonicalNode _ _ Ho)) Hs. apply each_Ok in Ho.
    clear Hs. simpl. revert H. induction Ho as [|[k a] [k' b] m out Hab Ho IHo]; [done|]. simpl in *.
    inversion IH as [|? ? Ha Ht]; subst. apply res_bind_Ok in Hab as (n & Hn & [= <- <-]).
    rewrite !andb_true_iff. intros [[H1 H2] H3].
    split; [split; [exact H1|exact (Ha _ Hn H2)]|exact (IHo Ht H3)].
Qed.

Lemma sorted_fields_filter {A} (p : string * A -> bool) (m : list (string * A)) :
  sorted_fields m = true -> sorted_fields (List.filter p m) = true.
Proof.
  induction m as [|[k a] m IH]; [done|]. simpl. rewrite andb_true_iff. intros [H1 H2].
  destruct (p (k, a)); [|exact (IH H2)]. simpl. rewrite (IH H2) andb_true_r.
  apply forallb_forall. intros x Hx. apply filter_In in Hx as [Hx _].
  by apply (proj1 (forallb_forall _ _) H1).
Qed.

Lemma strip_ok v : value_ok v = true -> value_ok (strip v) = true.
Proof.
  induction v as [|b|t|s|l IH|m IH] using gval_nested_ind; try done; simpl.
  - rewrite !forallb_forall List.Forall_forall in IH |- *. intros H x Hx.
    apply in_map_iff in Hx as (y & <- & Hy). exact (IH y Hy (H y Hy)).
  - rewrite !andb_true_iff !forallb_forall List.Forall_forall in IH |- *. intros [Hs H]. split.
    + apply sorted_fields_filter. rewrite (sorted_fields_keys _ m) //. by rewrite map_map.
    + intros x Hx. apply filter_In in Hx as [Hx _]. apply in_map_iff in Hx as (y & <- & Hy).
      specialize (H y Hy). apply andb_true_iff in H as [H1 H2]. simpl. by rewrite H1 (IH y Hy H2).
Qed.

Lemma decode_one_Ok limit e raw v : decode_one limit e raw = Ok v ->
  go_len raw <= limit /\ decode decode_any raw = Some v.
Proof.
  unfold decode_one, fail_if, decode. destruct (Z.ltb_spec limit (go_len raw)); [done|].
  destruct (parse_value _ _ _ _) as [[w rest]|]; [|done]. case_bool_decide as Hr; [|done].
  intros [= <-]. split; [lia|]. cbn. by rewrite Hr.
Qed.

(** The loop guards identify the arguments of a call, and its result, by
    what they say: two texts get the same canonical text if and only if they
    decode to the same JSON, where the order of keys and white space do not
    matter and numbers count by their exact value; of a result, the volatile
    metadata is left out first.  The digests are those of the canonical
    texts. *)
Theorem loop_identity_exact :
  (forall a b n n', normalized_arguments a = Ok n -> normalized_arguments b = Ok n' ->
     exists v w, decode decode_any a = Some v /\ decode decode_any b = Some w
     /\ (encode n = encode n' <-> same_json v w = true)
     /\ NormalizedArgumentsHash a = Ok (sha256_hex (encode n)))
  /\ (forall a b n n', normalized_result a = Ok n -> normalized_result b = Ok n' ->
     exists v w, decode decode_any a = Some v /\ decode decode_any b = Some w
     /\ (encode n = encode n' <-> same_json (strip v) (strip w) = true)
     /\ NormalizeResult a = Ok (sha256_hex (encode n))).
Proof.
  assert (Hnodes : forall v w n n', value_ok v = true -> value_ok w = true ->
    canonicalNode v = Ok n -> canonicalNode w = Ok n' ->
    (encode n = encode n' <-> same_json v w = true)).
  { intros v w n n' Hv Hw Hn Hn'. rewrite -(canonicalNode_exact _ _ _ _ Hn Hn').
    split; [|by intros ->]. apply encode_inj;
      [exact (canonicalNode_ok _ _ Hn Hv)|exact (canonicalNode_ok _ _ Hn' Hw)]. }
  split; intros a b n n' Ha Hb; [unfold NormalizedArgumentsHash|unfold NormalizeResult]; rewrite Ha;
    apply res_bind_Ok in Ha as (v & Ha & Hn); apply res_bind_Ok in Hb as (w & Hb & Hn');
    apply decode_one_Ok in Ha as [_ Ha]; apply decode_one_Ok in Hb as [_ Hb];
    exists v, w; (split; [exact Ha|]); (split; [exact Hb|]); (split; [|done]);
    apply decode_sound in Ha as [Ha _], Hb as [Hb _].
  - exact (Hnodes _ _ _ _ Ha Hb Hn Hn').
  - exact (Hnodes _ _ _ _ (strip_ok _ Ha) (strip_ok _ Hb) Hn Hn').
Qed.

(** ** Exact arguments *)

Lemma decodeUnique_stricter first : stricter decodeUnique
  (mkDecoding (fun _ => true) (fun d => Z.ltb (Z.of_nat d) maxNestingDepth) false first).
Proof.
  split; [done| |done|by left]. cbn [decodeUnique dc_value dc_container]. intros d H _.
  apply Z.leb_le in H. apply Z.ltb_lt. unfold maxNestingDepth. lia.
Qed.

Lemma canonicalJSON_Ok raw c : canonicalJSON raw = Ok c ->
  exists v, decode decodeUnique raw = Some v /\ decode decode_any raw = Some v
  /\ decode decode_first raw = Some v /\ c = encode v.
Proof.
  unfold canonicalJSON, fail_if, decode. destruct (Z.ltb _ _); [done|].
  destruct (parse_value decodeUnique _ _ _) as [[v rest]|] eqn:E; [|done].
  pose proof (proj1 (parse_stricter _ _ _ (decodeUnique_stricter false)) _ _ _ E) as E1.
  pose proof (proj1 (parse_stricter _ _ _ (decodeUnique_stricter true)) _ _ _ E) as E2.
  fold decode_any in E1. fold decode_first in E2. rewrite E1 E2.
  case_bool_decide as Hr; [|done]. intros [= <-]. exists v. cbn. by rewrite Hr.
Qed.

Lemma canonicalJSON_encode v : value_ok v = true -> fits decodeUnique 0 v = true ->
  go_len (encode v) <= maxArgumentBytes -> canonicalJSON (encode v) = Ok (encode v).
Proof.
  intros Hok Hfit Hlen. pose proof (decode_encode _ _ Hok Hfit) as H. unfold decode in H.
  unfold canonicalJSON, fail_if. destruct (Z.ltb_spec maxArgumentBytes (go_len (encode v))); [lia|].
  destruct (parse_value _ _ _ _) as [[w rest]|]; [|discriminate]. cbn in H.
  destruct (skip_space rest) eqn:E; [|discriminate]. injection H as ->. by rewrite bool_decide_true.
Qed.

(** C39: The canonical arguments of an action have one meaning: the text that
    is hashed decodes to the very value that a reader of the original text
    gets, whether it would keep the first or the last value of a repeated
    key; when the canonical text is itself within the limit on arguments,
    canonicalising it again changes nothing (escapes such as that of [<] can
    push it beyond the limit, and then it is refused); and two accepted texts
    have the same canonical text if and only if they decode to the same value. *)
Theorem canonicalJSON_exact raw c : canonicalJSON raw = Ok c ->
  exists v, decode decode_any raw = Some v /\ decode decode_first raw = Some v
  /\ decode decode_any c = Some v /\ ArgumentsHash raw = Ok (sha256_hex c)
  /\ (go_len c <= maxArgumentBytes -> canonicalJSON c = Ok c)
  /\ (forall raw' c', canonicalJSON raw' = Ok c' -> (c' = c <-> decode decode_any raw' = Some v)).
Proof.
  intros H. unfold ArgumentsHash. rewrite H.
  destruct (canonicalJSON_Ok _ _ H) as (v & Hu & Hany & Hfirst & ->). exists v.
  pose proof (decode_sound _ _ _ Hu) as [Hok Hfit]. pose proof (decode_sound _ _ _ Hany) as [_ Hfit'].
  split_and!; [exact Hany|exact Hfirst|exact (decode_encode _ _ Hok Hfit')|done| |].
  - exact (canonicalJSON_encode _ Hok Hfit).
  - intros raw' c' H'. destruct (canonicalJSON_Ok _ _ H') as (w & Hu' & Hany' & _ & ->).
    pose proof (decode_sound _ _ _ Hu') as [Hok' _]. rewrite Hany'. split.
    + intros E. by rewrite (encode_inj _ _ Hok' Hok E).
    + by intros [= ->].
Qed.

(** ** Witnesses *)

Definition spelt : string :=
  "{ " +:+ json_string "b" +:+ ":[ 1.50e+2, null ], " +:+ json_string "a" +:+ ": true }".
Definition respelt : string :=
  "{" +:+ json_string "a" +:+ ":true," +:+ json_string "b" +:+ ":[150,null]}".

Lemma loop_identity_exact_witness :
  exists n n' v w, normalized_arguments spelt = Ok n /\ normalized_arguments respelt = Ok n'
  /\ decode decode_any spelt = Some v /\ decode decode_any respelt = Some w
  /\ same_json v w = true /\ encode n = encode n'.
Proof.
  destruct (normalized_arguments spelt) as [n|e] eqn:E1; [|vm_compute in E1; discriminate].
  destruct (normalized_arguments respelt) as [n'|e] eqn:E2; [|vm_compute in E2; discriminate].
  destruct (proj1 loop_identity_exact spelt respelt n n' E1 E2) as (v & w & Hv & Hw & Hs & _).
  exists n, n', v, w. split; [reflexivity|]. split; [reflexivity|]. split; [exact Hv|].
  split; [exact Hw|]. assert (H : same_json v w = true).
  { vm_compute in Hv, Hw. injection Hv as <-. injection Hw as <-. vm_compute. reflexivity. }
  split; [exact H|exact (proj2 Hs H)].
Defined.

Lemma canonicalJSON_exact_witness :
  exists c v, canonicalJSON spelt = Ok c /\ c <> spelt /\ decode decode_any spelt = Some v
  /\ decode decode_any c = Some v /\ canonicalJSON c = Ok c.
Proof.
  destruct (canonicalJSON spelt) as [c|e] eqn:E; [|vm_compute in E; discriminate].
  destruct (canonicalJSON_exact spelt c E) as (v & H1 & _ & H2 & _ & H3 & _).
  exists c, v. split; [reflexivity|]. split; [vm_compute in E; injection E as <-; discriminate|].
  split; [exact H1|]. split; [exact H2|]. apply H3.
  vm_compute in E. injection E as <-. vm_compute. discriminate.
Defined.

(** Fifty thousand less-than signs are within the limit; their canonical text,
    with six bytes for each, is not. *)
Definition angles : string :=
  String quote_char (String.string_of_list_ascii (replicate (N.to_nat 50000) "<"%char)
                     +:+ String quote_char "").

Example canonical_text_may_grow :
  match canonicalJSON angles with
  | Ok c => Z.ltb maxArgumentBytes (go_len c) && negb (is_ok (canonicalJSON c))
  | Err _ => false
  end = true.
Proof. vm_compute. reflexivity. Qed.

Example duplicate_key_refused :
  is_ok (canonicalJSON ("{" +:+ json_string "a" +:+ ":1," +:+ json_string "a" +:+ ":2}")) = false.
Proof. vm_compute. reflexivity. Qed.
