(* ===== verification/Scheduling.v ===== *)
(** * Scheduling: calendar schedules

    Package [internal/scheduling] ([calendar.go]): validation of a schedule,
    the instants of a wall-clock minute in a time zone, the next occurrence
    and the coalescing of missed ones.  The time zone database is a
    parameter: [zones name] is the zone with that name, as the function that
    gives the offset from UTC, in seconds, in force at a Unix second. *)
From Stdlib Require Import Ascii.
From stdpp Require Import sorting.
From S2P Require Import Prelude GoStrings GoTime.
Open Scope Z_scope.
Open Scope go_scope.

(** ** Wall-clock time in a zone *)

Definition zone := Z -> Z.

(** [t.In(loc)]: the Unix seconds its wall clock would have in UTC. *)
Definition local_sec (off : zone) (t : Z) : Z := unix_seconds t + off (unix_seconds t).
Definition local_day (off : zone) (t : Z) : Z := local_sec off t / 86400.

(** [t.In(loc).AddDate(0, 0, k)]: [time.Date] looks the offset up at the
    wall-clock time read as UTC, and once more at the result. *)
Definition AddDate (off : zone) (t k : Z) : Z :=
  let n := local_sec off t + k * 86400 in
  (n - off (n - off n)) * second + nanos_of t.

(** ** Schedules *)

Definition ErrInvalid : error := ErrNew "scheduling.ErrInvalid" "invalid schedule".

Record Schedule := mkSchedule {
  sd_id : string;
  sd_source_id : string;
  sd_time_zone : string;
  sd_kind : string;
  sd_hour : Z;
  sd_minute : Z;
  sd_interval_seconds : Z;
  sd_missed_policy : string;
  sd_grace_seconds : Z;
  sd_next_at : Z;
  sd_enabled : bool;
  sd_revision : Z;
  sd_at : Z;
  sd_weekdays : list Z;
}.

(** The expression [identifier]. *)
Definition alnum (c : ascii) : bool :=
  let n := byte_val c in
  (Z.leb 97 n && Z.leb n 122) || (Z.leb 65 n && Z.leb n 90) || (Z.leb 48 n && Z.leb n 57).

Definition identifier_char (c : ascii) : bool :=
  alnum c || bool_decide (c ∈ ["_"; "."; ":"; "/"; "-"]%char).

Definition identifier_match (s : string) : bool :=
  match String.list_ascii_of_string s with
  | [] => false
  | c :: rest => alnum c && Nat.leb (length rest) 199 && forallb identifier_char rest
  end.

Fixpoint check_weekdays (seen : list Z) (days : list Z) : res unit :=
  match days with
  | [] => Ok tt
  | day :: rest =>
      fail_when Z.ltb day 0 || Z.ltb 6 day || bool_decide (day ∈ seen) with ErrInvalid ;;
      check_weekdays (day :: seen) rest
  end.

Section calendar.
Context (zones : string -> option zone).

Definition Schedule_Validate (s : Schedule) : res unit :=
  fail_when negb (identifier_match (sd_id s)) || negb (identifier_match (sd_source_id s))
    with ErrInvalid ;;
  fail_when bool_decide (zones (sd_time_zone s) = None) || bool_decide (sd_time_zone s = "")
            || bool_decide (sd_time_zone s = "Local") with ErrInvalid ;;
  fail_when negb (bool_decide (sd_missed_policy s = "skip"))
            && negb (bool_decide (sd_missed_policy s = "coalesce")) with ErrInvalid ;;
  fail_when Z.ltb (sd_grace_seconds s) 0 || Z.ltb 3600 (sd_grace_seconds s) with ErrInvalid ;;
  _ <-! (if bool_decide (sd_kind s = "once") then
           fail_when IsZero (sd_at s) || negb (Z.eqb (sd_interval_seconds s) 0)
                     || negb (Z.eqb (sd_hour s) 0) || negb (Z.eqb (sd_minute s) 0)
                     || negb (Nat.eqb (length (sd_weekdays s)) 0) with ErrInvalid ;; Ok tt
         else if bool_decide (sd_kind s = "daily") then
           fail_when Z.ltb (sd_hour s) 0 || Z.ltb 23 (sd_hour s) || Z.ltb (sd_minute s) 0
                     || Z.ltb 59 (sd_minute s) || negb (Z.eqb (sd_interval_seconds s) 0)
             with ErrInvalid ;; Ok tt
         else if bool_decide (sd_kind s = "interval") then
           fail_when Z.ltb (sd_interval_seconds s) 60
                     || Z.ltb (7 * 24 * 3600) (sd_interval_seconds s)
                     || negb (Nat.eqb (length (sd_weekdays s)) 0) with ErrInvalid ;; Ok tt
         else Err ErrInvalid) ;;
  fail_when negb (bool_decide (sd_kind s = "once")) && negb (IsZero (sd_at s)) with ErrInvalid ;;
  check_weekdays [] (sd_weekdays s).

Definition dayAllowed (s : Schedule) (day : Z) : bool :=
  Nat.eqb (length (sd_weekdays s)) 0 || bool_decide (day ∈ sd_weekdays s).

(** The wall clock shows the given date, hour and minute. *)
Definition shows (local : Z) (y m d h mi : Z) : bool :=
  bool_decide (civil_of_days (local / 86400) = (y, m, d))
  && Z.eqb (local mod 86400 / 3600) h && Z.eqb (local mod 3600 / 60) mi.

(** [LocalInstants]. *)
Definition LocalInstants (off : zone) (y m d h mi : Z) : list Z :=
  let nominal := make_time y m d h mi 0 0 in
  let offsets :=
    remove_dups ((fun delta => off (unix_seconds (nominal + delta * hour)))
                   <$> [-48; -24; 0; 24; 48]) in
  merge_sort Z.le
    (filter (fun t => shows (local_sec off t) y m d h mi = true)
       ((fun o => nominal - o * second) <$> offsets)).

(** The instants of the schedule's minute on the date shown at [t]. *)
Definition date_instants (off : zone) (s : Schedule) (t : Z) : list Z :=
  let '(y, m, d) := civil_of_days (local_day off t) in
  LocalInstants off y m d (sd_hour s) (sd_minute s).

(** The loop of [NextAfter]: [fuel] days are left, [day] have been tried. *)
Fixpoint next_loop (off : zone) (s : Schedule) (at_ : Z) (fuel : nat) (day : Z) : Z :=
  match fuel with
  | O => zero_time
  | S fuel' =>
      let date := AddDate off at_ day in
      if negb (dayAllowed s (weekday_of_days (local_day off date))) then
        next_loop off s at_ fuel' (day + 1)
      else
        match date_instants off s date with
        | first :: _ =>
            if After first at_ then first else next_loop off s at_ fuel' (day + 1)
        | [] => next_loop off s at_ fuel' (day + 1)
        end
  end.

Definition NextAfter (s : Schedule) (at_ : Z) : Z :=
  if negb (is_ok (Schedule_Validate s)) || IsZero at_ then zero_time
  else if bool_decide (sd_kind s = "interval") then
    at_ + wrap64 (sd_interval_seconds s * second)
  else if bool_decide (sd_kind s = "once") then
    if After (sd_at s) at_ then sd_at s else zero_time
  else
    match zones (sd_time_zone s) with
    | None => zero_time
    | Some off => next_loop off s at_ 15 0
    end.

Record Tick := mkTick {
  tk_slot_key : string;
  tk_scheduled_at : Z;
  tk_next_at : Z;
  tk_missed_count : Z;
  tk_should_observe : bool;
}.

(** The backward loop of [Due]: the latest occurrence and the days missed. *)
Fixpoint due_loop (off : zone) (s : Schedule) (now : Z) (fuel : nat) (day : Z) : Z * Z :=
  match fuel with
  | O => (sd_next_at s, 0)
  | S fuel' =>
      let date := AddDate off now (- day) in
      if negb (dayAllowed s (weekday_of_days (local_day off date))) then
        due_loop off s now fuel' (day + 1)
      else
        match date_instants off s date with
        | first :: _ =>
            if negb (After first now) && negb (Before first (sd_next_at s)) then
              (first,
               go_div (Sub (local_day off date * 86400 * second)
                         (local_day off (sd_next_at s) * 86400 * second)) (24 * hour))
            else due_loop off s now fuel' (day + 1)
        | [] => due_loop off s now fuel' (day + 1)
        end
  end.

(** [t.In(loc).Format("2006-01-02")]. *)
Definition format_local_date (off : zone) (t : Z) : string :=
  let '(y, m, d) := civil_of_days (local_day off t) in
  format_year y +:+ "-" +:+ pad2 m +:+ "-" +:+ pad2 d.

(** [Due]: [None] is the result [false]. *)
Definition Due (s : Schedule) (now : Z) : option Tick :=
  if negb (is_ok (Schedule_Validate s)) || IsZero now || negb (sd_enabled s)
     || IsZero (sd_next_at s) || After (sd_next_at s) now then None
  else
    let interval := wrap64 (sd_interval_seconds s * second) in
    let is_interval := bool_decide (sd_kind s = "interval") in
    let is_daily := bool_decide (sd_kind s = "daily") in
    let off := default (fun _ => 0) (zones (sd_time_zone s)) in
    let '(latest, missed) :=
      if is_interval then
        let missed := go_div (Sub now (sd_next_at s)) interval in
        (sd_next_at s + wrap64 (missed * interval), missed)
      else if is_daily then due_loop off s now 15 0
      else (sd_next_at s, 0) in
    let slot := if is_daily then format_local_date off latest else format_with "" latest in
    let observe := bool_decide (sd_missed_policy s = "coalesce")
                   || Z.leb (Sub now latest) (wrap64 (sd_grace_seconds s * second)) in
    let next := if is_interval then latest + interval else NextAfter s now in
    Some (mkTick slot latest next missed observe).

End calendar.

(** ** The zone database *)

(** What the theorems assume of a zone: offsets are whole minutes, no more
    than a day, and two of them differ by less than a day; and within one
    day the offset changes at most once. *)
Record ZoneLaws (off : zone) : Prop := {
  zl_minutes : forall t, off t mod 60 = 0;
  zl_bound : forall t, -86400 <= off t <= 86400;
  zl_narrow : forall a b, off a - off b < 86400;
  zl_steps : forall a t b, a <= t <= b -> b - a <= 86400 -> off t = off a \/ off t = off b;
}.

Definition day_seconds : Z := 86400.

(** The wall-clock second of a date and minute. *)
Definition nominal_sec (n h mi : Z) : Z := n * 86400 + h * 3600 + mi * 60.

Lemma unix_seconds_whole n : unix_seconds (n * second) = n.
Proof. unfold unix_seconds, second. by rewrite Z.div_mul. Qed.

Lemma make_time_nominal y m d h mi :
  make_time y m d h mi 0 0 = nominal_sec (date_to_days y m d) h mi * second.
Proof. unfold make_time, nominal_sec. lia. Qed.

Lemma shows_iff local n y m d h mi : civil_of_days n = (y, m, d) ->
  0 <= h <= 23 -> 0 <= mi <= 59 ->
  shows local y m d h mi = true <-> local / 60 = nominal_sec n h mi / 60.
Proof.
  intros Hc Hh Hm. unfold shows, nominal_sec. rewrite -Hc.
  rewrite !andb_true_iff bool_decide_eq_true !Z.eqb_eq.
  assert (Hday : civil_of_days (local / 86400) = civil_of_days n <-> local / 86400 = n).
  { split; [|congruence]. intros E. rewrite Hc in E.
    apply civil_of_days_spec in E as [_ E]. apply civil_of_days_spec in Hc as [_ Hc]. congruence. }
  rewrite Hday. split.
  - intros [[<- <-] <-]. div_lia.
  - intros E. split_and!; div_lia.
Qed.

Section zone.
Context (off : zone) (Laws : ZoneLaws off).

(** An instant on a whole second shows a wall-clock second. *)
Definition reads (N t : Z) : Prop := nanos_of t = 0 /\ local_sec off t = N.

Lemma reads_whole N t : reads N t <-> exists u, t = u * second /\ u + off u = N.
Proof.
  unfold reads, local_sec. split.
  - intros [Hn Hl]. exists (unix_seconds t). split; [|done].
    unfold nanos_of, unix_seconds, second in *. div_lia.
  - intros (u & -> & E). rewrite unix_seconds_whole. split; [|done].
    unfold nanos_of, second. by rewrite Z.mod_mul.
Qed.

(** The offset of an instant that shows [N] is one of the sampled ones. *)
Lemma sampled N u : u + off u = N ->
  off u ∈ ((fun delta => off (unix_seconds (N * second + delta * hour))) <$> [-48; -24; 0; 24; 48]).
Proof.
  intros E. pose proof (zl_bound off Laws u) as Hb.
  assert (Hs : forall k, off (unix_seconds (N * second + k * hour)) = off (N + k * 3600)).
  { intros k. f_equal. rewrite -(unix_seconds_whole (N + k * 3600)). f_equal.
    unfold hour, minute, second. lia. }
  simpl. rewrite !Hs.
  destruct (decide (u <= N)) as [Hle|Hgt].
  - destruct (zl_steps off Laws (N + -24 * 3600) u (N + 0 * 3600)) as [->| ->]; try lia; set_solver.
  - destruct (zl_steps off Laws (N + 0 * 3600) u (N + 24 * 3600)) as [->| ->]; try lia; set_solver.
Qed.

Lemma LocalInstants_reads n y m d h mi t : civil_of_days n = (y, m, d) ->
  0 <= h <= 23 -> 0 <= mi <= 59 ->
  t ∈ LocalInstants off y m d h mi <-> reads (nominal_sec n h mi) t.
Proof.
  intros Hc Hh Hm. unfold LocalInstants. rewrite make_time_nominal.
  pose proof Hc as [_ ->]%civil_of_days_spec. set (N := nominal_sec n h mi).
  rewrite merge_sort_Permutation list_elem_of_filter reads_whole.
  rewrite (shows_iff _ n _ _ _ _ _ Hc Hh Hm) -/N.
  assert (Hmin : forall u o, o mod 60 = 0 -> u = N - o -> (u + off u) / 60 = N / 60 -> u + off u = N).
  { intros u o Ho -> E. pose proof (zl_minutes off Laws (N - o)).
    assert (N mod 60 = 0) by (unfold N, nominal_sec; div_lia). div_lia. }
  split.
  - intros [Hshow Hin]. apply list_elem_of_fmap in Hin as (o & -> & Ho).
    rewrite -Z.mul_sub_distr_r in Hshow |- *. exists (N - o). split; [done|].
    unfold local_sec in Hshow. rewrite unix_seconds_whole in Hshow.
    apply (Hmin _ o); [|done|done]. apply elem_of_remove_dups, list_elem_of_fmap in Ho as (k & -> & _).
    apply (zl_minutes off Laws).
  - intros (u & -> & E). split.
    + unfold local_sec. by rewrite unix_seconds_whole E.
    + apply list_elem_of_fmap. exists (off u). split; [lia|].
      apply elem_of_remove_dups. by apply sampled.
Qed.

End zone.

Lemma LocalInstants_sorted off y m d h mi : StronglySorted Z.le (LocalInstants off y m d h mi).
Proof. apply StronglySorted_merge_sort; apply _. Qed.

Lemma LocalInstants_NoDup off y m d h mi : NoDup (LocalInstants off y m d h mi).
Proof.
  unfold LocalInstants. rewrite merge_sort_Permutation. apply NoDup_filter, NoDup_fmap_2.
  - intros a b. unfold second. lia.
  - apply NoDup_remove_dups.
Qed.

Lemma StronglySorted_strict l : StronglySorted Z.le l -> NoDup l -> StronglySorted Z.lt l.
Proof.
  induction 1 as [|a l Hs IH Hle]; intros Hnd; [constructor|].
  apply NoDup_cons in Hnd as [Hn Hnd]. constructor; [by apply IH|].
  rewrite !Forall_forall in Hle |- *. intros b Hb. specialize (Hle b Hb).
  assert (a <> b) by congruence. lia.
Qed.

(** [LocalInstants] is exact.  In a zone that obeys the laws, it lists,
    in strictly increasing order, exactly the instants at which the zone's
    wall clock shows that date, hour and minute on the whole minute: none for
    a minute that daylight saving skips, two for one that it repeats. *)
Theorem LocalInstants_exact (off : zone) (y m d h mi t : Z) :
  ZoneLaws off -> valid_date y m d -> 0 <= h <= 23 -> 0 <= mi <= 59 ->
  (t ∈ LocalInstants off y m d h mi <->
   nanos_of t = 0 /\ local_sec off t = date_to_days y m d * 86400 + h * 3600 + mi * 60)
  /\ StronglySorted Z.lt (LocalInstants off y m d h mi).
Proof.
  intros HL Hv Hh Hm. split.
  - by apply (LocalInstants_reads off HL); [apply civil_of_date| |].
  - apply StronglySorted_strict; [apply LocalInstants_sorted|apply LocalInstants_NoDup].
Qed.

(** A zone with one change of offset, like a switch to or from summer time. *)
Definition switch_zone (at_ before after : Z) : zone := fun t => if Z.ltb t at_ then before else after.

Lemma switch_zone_laws at_ a b : a mod 60 = 0 -> b mod 60 = 0 ->
  -43200 < a < 43200 -> -43200 < b < 43200 -> ZoneLaws (switch_zone at_ a b).
Proof.
  intros Ha Hb Ra Rb. unfold switch_zone. constructor.
  - intros t. by destruct (Z.ltb_spec t at_).
  - intros t. destruct (Z.ltb_spec t at_); lia.
  - intros t u. destruct (Z.ltb_spec t at_), (Z.ltb_spec u at_); lia.
  - intros x t y Ht _.
    destruct (Z.ltb_spec t at_), (Z.ltb_spec x at_), (Z.ltb_spec y at_); lia.
Qed.

(** Berlin in 2026: summer time from 29 March to 25 October, 01:00 UTC. *)
Definition berlin_spring : zone := switch_zone 1774746000 3600 7200.
Definition berlin_autumn : zone := switch_zone 1792890000 7200 3600.

Lemma LocalInstants_exact_witness :
  LocalInstants berlin_spring 2026 3 29 2 30 = []
  /\ LocalInstants berlin_autumn 2026 10 25 2 30
     = [1792888200 * second; 1792891800 * second]
  /\ local_sec berlin_autumn (1792891800 * second)
     = date_to_days 2026 10 25 * 86400 + 2 * 3600 + 30 * 60.
Proof.
  split; [vm_compute; reflexivity|].
  assert (E : LocalInstants berlin_autumn 2026 10 25 2 30
    = [1792888200 * second; 1792891800 * second]) by (vm_compute; reflexivity).
  split; [exact E|].
  refine (proj2 (proj1 (proj1 (LocalInstants_exact berlin_autumn 2026 10 25 2 30
    (1792891800 * second) _ _ _ _)) _)); [|vm_compute; repeat split; congruence|lia|lia|].
  - apply switch_zone_laws; vm_compute; repeat split; reflexivity.
  - rewrite E. apply list_elem_of_further, list_elem_of_here.
Defined.

(** ** The next occurrence *)

Section occurrences.
Context (off : zone) (Laws : ZoneLaws off) (s : Schedule).
Context (Hhour : 0 <= sd_hour s <= 23) (Hminute : 0 <= sd_minute s <= 59).

Definition first_reading (N t : Z) : Prop := reads off N t /\ forall t', reads off N t' -> t <= t'.

(** An occurrence: the first instant at which the schedule's minute shows on
    an allowed date. *)
Definition occurs_on (n t : Z) : Prop :=
  dayAllowed s (weekday_of_days n) = true
  /\ first_reading (nominal_sec n (sd_hour s) (sd_minute s)) t.

Definition occurrence (t : Z) : Prop := exists n, occurs_on n t.

Lemma date_instants_head t :
  match date_instants off s t with
  | [] => forall u, ~ reads off (nominal_sec (local_day off t) (sd_hour s) (sd_minute s)) u
  | first :: _ => first_reading (nominal_sec (local_day off t) (sd_hour s) (sd_minute s)) first
  end.
Proof.
  unfold date_instants. destruct (civil_of_days (local_day off t)) as [[y m] d] eqn:Hc.
  pose proof (fun u => LocalInstants_reads off Laws _ _ _ _ _ _ u Hc Hhour Hminute) as Hin.
  pose proof (LocalInstants_sorted off y m d (sd_hour s) (sd_minute s)) as Hs.
  destruct (LocalInstants off y m d (sd_hour s) (sd_minute s)) as [|first rest].
  - intros u Hu%Hin. by apply not_elem_of_nil in Hu.
  - apply StronglySorted_inv in Hs as [_ Hle]. split; [apply Hin, list_elem_of_here|].
    intros u Hu%Hin. apply elem_of_cons in Hu as [->|Hu]; [reflexivity|].
    rewrite Forall_forall in Hle. by apply Hle.
Qed.

Lemma first_reading_unique N t u : first_reading N t -> first_reading N u -> t = u.
Proof. intros [H1 H2] [H3 H4]. specialize (H2 _ H3). specialize (H4 _ H1). lia. Qed.

(** Occurrences on later dates are later. *)
Lemma reading_order N M t u : reads off N t -> reads off M u -> N + 86400 <= M -> t < u.
Proof.
  rewrite !reads_whole. intros (a & -> & Ea) (b & -> & Eb) H.
  pose proof (zl_narrow off Laws b a). unfold second. lia.
Qed.

(** The first time a wall clock shows something, it has not been shown later
    by an earlier instant: clocks that step back repeat what they showed. *)
Lemma first_reading_forward N t at_ : first_reading N t -> at_ < t -> local_sec off at_ <= N.
Proof.
  intros [Hr Hleast] Hat. apply reads_whole in Hr as (u & -> & E).
  unfold local_sec. set (a := unix_seconds at_).
  assert (Hau : a < u) by (unfold a, unix_seconds, second in *; div_lia).
  destruct (decide (a + off a <= N)) as [|Hgt]; [done|exfalso].
  set (u' := N - off a). pose proof (zl_narrow off Laws a u).
  assert (E' : off a = off u').
  { destruct (zl_steps off Laws u' a u) as [|Hau']; unfold u' in *; try lia. }
  assert (Hr' : reads off N (u' * second)).
  { apply reads_whole. exists u'. split; [done|]. unfold u' in *. lia. }
  specialize (Hleast _ Hr'). unfold u', second in Hleast. lia.
Qed.

Context (at_ : Z).

(** The wall-clock time of [at_] exists on the following dates. *)
Definition clock_exists : Prop :=
  forall k, 0 <= k < 15 -> local_sec off (AddDate off at_ k) = local_sec off at_ + k * 86400.

Lemma clock_exists_day k : clock_exists -> 0 <= k < 15 ->
  local_day off (AddDate off at_ k) = local_day off at_ + k.
Proof. intros H Hk. unfold local_day. rewrite H; [done|]. div_lia. Qed.

Lemma next_loop_spec (fuel : nat) (day : Z) : clock_exists -> 0 <= day -> day + Z.of_nat fuel <= 15 ->
  let r := next_loop off s at_ fuel day in
  (r = zero_time /\ forall k t, day <= k < day + Z.of_nat fuel ->
     occurs_on (local_day off at_ + k) t -> t <= at_)
  \/ exists k, day <= k < day + Z.of_nat fuel /\ occurs_on (local_day off at_ + k) r /\ at_ < r
     /\ forall k' t, day <= k' < k -> occurs_on (local_day off at_ + k') t -> t <= at_.
Proof.
  intros Hc. revert day. induction fuel as [|fuel IH]; intros day Hd Hf; cbv zeta.
  { left. split; [done|]. intros. lia. }
  assert (Hskip : (forall t, occurs_on (local_day off at_ + day) t -> t <= at_) ->
    let r := next_loop off s at_ fuel (day + 1) in
    (r = zero_time /\ forall k t, day <= k < day + Z.of_nat (S fuel) ->
       occurs_on (local_day off at_ + k) t -> t <= at_)
    \/ exists k, day <= k < day + Z.of_nat (S fuel) /\ occurs_on (local_day off at_ + k) r /\ at_ < r
       /\ forall k' t, day <= k' < k -> occurs_on (local_day off at_ + k') t -> t <= at_).
  { intros Hday. cbv zeta. destruct (IH (day + 1)) as [[E H]|(k & Hk & Ho & Ha & H)]; [lia..| |].
    - left. split; [done|]. intros k t Hk Ho. destruct (decide (k = day)) as [->|]; [by apply Hday|].
      apply (H k); [lia|done].
    - right. exists k. split_and!; try lia; try done. intros k' t Hk' Ho'.
      destruct (decide (k' = day)) as [->|]; [by apply Hday|]. apply (H k'); [lia|done]. }
  simpl. rewrite clock_exists_day; [done|lia|].
  destruct (dayAllowed s _) eqn:Hallow; simpl; [|apply Hskip; intros t [? _]; congruence].
  pose proof (date_instants_head (AddDate off at_ day)) as Hh.
  rewrite clock_exists_day in Hh; [done|lia|].
  destruct (date_instants off s (AddDate off at_ day)) as [|first rest].
  - apply Hskip. intros t [_ [Hr _]]. by destruct (Hh t).
  - unfold After. destruct (Z.ltb_spec at_ first) as [Hlt|Hge].
    + right. exists day. split_and!; try lia; done.
    + apply Hskip. intros t [_ Hr]. rewrite (first_reading_unique _ _ _ Hr Hh). lia.
Qed.

Lemma nominal_sec_day n : nominal_sec n (sd_hour s) (sd_minute s) / 86400 = n.
Proof. unfold nominal_sec. div_lia. Qed.

Lemma occurs_on_day n t : occurs_on n t -> local_day off t = n.
Proof. intros [_ [[_ E] _]]. unfold local_day. by rewrite E nominal_sec_day. Qed.

Lemma occurs_on_from n t : occurs_on n t -> at_ < t -> local_day off at_ <= n.
Proof.
  intros [_ Hr] Hlt. pose proof (first_reading_forward _ _ _ Hr Hlt).
  rewrite -(nominal_sec_day n). unfold local_day. apply Z.div_le_mono; lia.
Qed.

Lemma occurs_on_order n m t u : occurs_on n t -> occurs_on m u -> n < m -> t < u.
Proof.
  intros [_ [H1 _]] [_ [H2 _]] Hnm. apply (reading_order _ _ _ _ H1 H2). unfold nominal_sec. lia.
Qed.

Lemma next_loop_least : clock_exists ->
  let r := next_loop off s at_ 15 0 in
  (occurrence r /\ at_ < r /\ forall t, occurrence t -> at_ < t -> r <= t)
  \/ (r = zero_time /\ forall t, occurrence t -> at_ < t -> local_day off at_ + 15 <= local_day off t).
Proof.
  intros Hc. cbv zeta. destruct (next_loop_spec 15 0 Hc) as [[E H]|(k & Hk & Ho & Ha & H)]; [lia..| |].
  - right. split; [done|]. intros t [n Hn] Hlt. rewrite (occurs_on_day _ _ Hn).
    pose proof (occurs_on_from _ _ Hn Hlt). destruct (decide (local_day off at_ + 15 <= n)); [done|].
    specialize (H (n - local_day off at_) t).
    replace (local_day off at_ + (n - local_day off at_)) with n in H by lia.
    specialize (H ltac:(lia) Hn). lia.
  - left. split_and!; [eexists; exact Ho|done|]. intros t [n Hn] Hlt.
    pose proof (occurs_on_from _ _ Hn Hlt).
    destruct (Z.lt_trichotomy n (local_day off at_ + k)) as [Hl|[->|Hg]].
    + specialize (H (n - local_day off at_) t).
      replace (local_day off at_ + (n - local_day off at_)) with n in H by lia.
      specialize (H ltac:(lia) Hn). lia.
    + destruct Hn as [_ H1], Ho as [_ H2]. rewrite (first_reading_unique _ _ _ H1 H2). lia.
    + apply Z.lt_le_incl. exact (occurs_on_order _ _ _ _ Ho Hn Hg).
Qed.

End occurrences.

Lemma Schedule_Validate_daily zones s :
  Schedule_Validate zones s = Ok tt -> sd_kind s = "daily" ->
  0 <= sd_hour s <= 23 /\ 0 <= sd_minute s <= 59 /\ Forall (fun d => 0 <= d <= 6) (sd_weekdays s).
Proof.
  unfold Schedule_Validate. intros H Hk. rewrite Hk in H. go_ok H. simpl in *.
  go_ok Hg3. unbool.
  assert (Hw : forall days seen, check_weekdays seen days = Ok tt -> Forall (fun d => 0 <= d <= 6) days).
  { induction days as [|d days IH]; intros seen; simpl; [constructor|].
    rewrite fail_if_Ok. intros [Hd Hr]. unbool. constructor; [lia|by apply (IH (d :: seen))]. }
  split_and!; try lia. by apply (Hw _ []).
Qed.

(** In a zone with one offset a schedule has an occurrence in the next week. *)
Lemma fixed_zone_occurrence off s at_ : (forall a b, off a = off b) ->
  0 <= sd_hour s <= 23 -> 0 <= sd_minute s <= 59 -> Forall (fun d => 0 <= d <= 6) (sd_weekdays s) ->
  exists n t, occurs_on off s n t /\ local_day off at_ < n <= local_day off at_ + 7 /\ at_ < t.
Proof.
  intros Hoff Hh Hm Hw.
  assert (Hday : exists n, dayAllowed s (weekday_of_days n) = true
    /\ local_day off at_ < n <= local_day off at_ + 7).
  { unfold dayAllowed. destruct (sd_weekdays s) as [|d days] eqn:Ew.
    { exists (local_day off at_ + 1). split; [done|lia]. }
    apply Forall_cons in Hw as [Hd _]. set (n0 := local_day off at_).
    exists (n0 + 1 + (d - n0 - 5) mod 7). split; [|pose proof (Z.mod_pos_bound (d - n0 - 5) 7); lia].
    rewrite bool_decide_true; [|apply orb_true_r].
    assert (weekday_of_days (n0 + 1 + (d - n0 - 5) mod 7) = d) as ->
      by (unfold weekday_of_days; div_lia). apply list_elem_of_here. }
  destruct Hday as (n & Ha & Hn). set (N := nominal_sec n (sd_hour s) (sd_minute s)).
  exists n, ((N - off 0) * second). split_and!; try lia; try done.
  - split; [done|]. split.
    + apply reads_whole. exists (N - off 0). split; [done|]. rewrite (Hoff _ 0). lia.
    + intros t' Hr%reads_whole. destruct Hr as (u & -> & E). rewrite (Hoff u 0) in E. lia.
  - unfold local_day, local_sec in Hn. rewrite (Hoff _ 0) in Hn. fold N.
    assert (unix_seconds at_ + off 0 < N) by (unfold N, nominal_sec; div_lia).
    unfold unix_seconds, second in *. div_lia.
Qed.

(** [NextAfter] gives the next occurrence of a daily schedule.  In a zone
    that obeys the laws, when the wall-clock time of [at_] exists on each of
    the fifteen dates tried, the result is the least instant after [at_] that
    is the first showing of the schedule's minute on an allowed date; or,
    when it is zero, there is no occurrence within those fifteen dates.  In a
    zone with a single offset the result is never zero. *)
Theorem NextAfter_least (zones : string -> option zone) (off : zone) (s : Schedule) (at_ : Z) :
  Schedule_Validate zones s = Ok tt -> sd_kind s = "daily" -> zones (sd_time_zone s) = Some off ->
  ZoneLaws off -> at_ <> zero_time -> clock_exists off at_ ->
  let r := NextAfter zones s at_ in
  let next := occurrence off s r /\ at_ < r /\ forall t, occurrence off s t -> at_ < t -> r <= t in
  (next \/ (r = zero_time /\ forall t, occurrence off s t -> at_ < t ->
              local_day off at_ + 15 <= local_day off t))
  /\ ((forall a b, off a = off b) -> next).
Proof.
  intros Hv Hk Hz HL Hat Hc. cbv zeta.
  destruct (Schedule_Validate_daily _ _ Hv Hk) as (Hh & Hm & Hw).
  assert (NextAfter zones s at_ = next_loop off s at_ 15 0) as ->.
  { unfold NextAfter, IsZero. apply Z.eqb_neq in Hat. by rewrite Hv Hat Hk Hz. }
  pose proof (next_loop_least off HL s Hh Hm at_ Hc) as Hnext. split; [exact Hnext|].
  intros Hfix. destruct Hnext as [Hnext|[_ Hno]]; [exact Hnext|exfalso].
  destruct (fixed_zone_occurrence off s at_ Hfix Hh Hm Hw) as (n & t & Ho & Hn & Hlt).
  specialize (Hno t (ex_intro _ n Ho) Hlt). rewrite (occurs_on_day off s Hh Hm n t Ho) in Hno. lia.
Qed.

Definition weekly_ex (tz : string) (h mi : Z) (days : list Z) (next : Z) : Schedule :=
  mkSchedule "sunday" "job" tz "daily" h mi 0 "coalesce" 0 next true 1 zero_time days.

Definition zones_ex (name : string) : option zone :=
  if bool_decide (name = "Europe/Berlin") then Some berlin_spring
  else if bool_decide (name = "America/Havana") then Some (switch_zone 1772946000 (-18000) (-14400))
  else if bool_decide (name = "UTC") then Some (fun _ => 0) else None.

Lemma clock_exists_by_days off at_ :
  forallb (fun k => Z.eqb (local_sec off (AddDate off at_ k)) (local_sec off at_ + k * 86400))
    [0; 1; 2; 3; 4; 5; 6; 7; 8; 9; 10; 11; 12; 13; 14] = true -> clock_exists off at_.
Proof.
  intros H k Hk. rewrite forallb_forall in H. apply Z.eqb_eq, H. simpl. lia.
Qed.

(** Sunday 02:30 in Berlin, asked on the Saturday before summer time starts:
    that Sunday has no 02:30, so it is the Sunday after. *)
Lemma NextAfter_least_witness :
  NextAfter zones_ex (weekly_ex "Europe/Berlin" 2 30 [0] zero_time) (1774656000 * second)
  = 1775349000 * second
  /\ occurrence berlin_spring (weekly_ex "Europe/Berlin" 2 30 [0] zero_time) (1775349000 * second).
Proof.
  assert (E : NextAfter zones_ex (weekly_ex "Europe/Berlin" 2 30 [0] zero_time) (1774656000 * second)
    = 1775349000 * second) by (vm_compute; reflexivity).
  split; [exact E|].
  destruct (NextAfter_least zones_ex berlin_spring (weekly_ex "Europe/Berlin" 2 30 [0] zero_time)
    (1774656000 * second)) as [[[H _]|[H _]] _].
  - vm_compute. reflexivity.
  - reflexivity.
  - reflexivity.
  - apply switch_zone_laws; vm_compute; repeat split; reflexivity.
  - vm_compute. congruence.
  - apply clock_exists_by_days. vm_compute. reflexivity.
  - by rewrite E in H.
  - rewrite E in H. by vm_compute in H.
Defined.

Lemma date_instants_single off s t : ZoneLaws off -> 0 <= sd_hour s <= 23 -> 0 <= sd_minute s <= 59 ->
  dayAllowed s (weekday_of_days (local_day off t)) = true ->
  head (date_instants off s t) = Some t -> occurrence off s t.
Proof.
  intros HL Hh Hm Ha Hd. exists (local_day off t). split; [done|].
  pose proof (date_instants_head off HL s Hh Hm t) as H.
  destruct (date_instants off s t); [done|]. by injection Hd as ->.
Qed.

(** The condition on the wall-clock time is needed.  Where summer time
    starts at midnight the loop can step over a date: in such a zone, asked
    at 00:30 on the Wednesday before, a schedule for Sundays at 09:00 answers
    with the Sunday after the next, although 09:00 of the next one is an
    occurrence after the instant asked for. *)
Theorem NextAfter_steps_over_a_date :
  let s := weekly_ex "America/Havana" 9 0 [0] zero_time in
  let at_ := 1772602200 * second in
  exists off t, zones_ex (sd_time_zone s) = Some off /\ ZoneLaws off
    /\ Schedule_Validate zones_ex s = Ok tt /\ occurrence off s t
    /\ at_ < t /\ NextAfter zones_ex s at_ = t + 7 * day_seconds * second.
Proof.
  cbv zeta. exists (switch_zone 1772946000 (-18000) (-14400)), (1772974800 * second).
  assert (HL : ZoneLaws (switch_zone 1772946000 (-18000) (-14400)))
    by (apply switch_zone_laws; vm_compute; repeat split; reflexivity).
  split; [reflexivity|]. split; [exact HL|]. split; [vm_compute; reflexivity|].
  split; [|split; vm_compute; reflexivity].
  apply date_instants_single; [exact HL|simpl; lia|simpl; lia|vm_compute; reflexivity..].
Qed.

(** ** Due ticks *)

Lemma next_loop_after off s at_ fuel day :
  next_loop off s at_ fuel day = zero_time \/ at_ < next_loop off s at_ fuel day.
Proof.
  revert day. induction fuel as [|fuel IH]; intros day; simpl; [by left|].
  destruct (negb _); [apply IH|]. destruct (date_instants _ _ _); [apply IH|].
  unfold After. destruct (Z.ltb_spec at_ z); [by right|apply IH].
Qed.

Lemma NextAfter_after zones s at_ : sd_kind s <> "interval" ->
  NextAfter zones s at_ = zero_time \/ at_ < NextAfter zones s at_.
Proof.
  intros Hk. unfold NextAfter. destruct (_ || _); [by left|].
  rewrite (bool_decide_false (_ = "interval")); [done|].
  case_bool_decide; [unfold After; destruct (Z.ltb_spec at_ (sd_at s)); auto|].
  destruct (zones _); [apply next_loop_after|by left].
Qed.

Lemma due_loop_range off s now fuel day : sd_next_at s <= now ->
  sd_next_at s <= (due_loop off s now fuel day).1 <= now.
Proof.
  intros H. revert day. induction fuel as [|fuel IH]; intros day; simpl; [lia|].
  destruct (negb _); [apply IH|]. destruct (date_instants _ _ _) as [|z l]; [apply IH|].
  destruct (negb (After z now) && negb (Before z (sd_next_at s))) eqn:E; [|apply IH].
  unfold After, Before in E. unbool. simpl. lia.
Qed.

Lemma interval_tick next now interval :
  next <= now -> now - next <= max_int64 -> 0 < interval <= max_int64 ->
  let missed := go_div (Sub now next) interval in
  wrap64 (missed * interval) = missed * interval
  /\ next <= next + missed * interval <= now
  /\ now < next + missed * interval + interval.
Proof.
  intros H1 H2 H3. cbv zeta. unfold go_div, Sub.
  replace (Z.max min_int64 (Z.min max_int64 (now - next))) with (now - next)
    by (unfold min_int64, max_int64 in *; lia).
  rewrite Z.quot_div_nonneg; [lia|lia|].
  pose proof (Z.mul_div_le (now - next) interval). pose proof (Z.mul_succ_div_gt (now - next) interval).
  assert (0 <= (now - next) / interval) by (apply Z.div_pos; lia).
  split; [|nia]. apply wrap64_id. unfold in_int64, min_int64. nia.
Qed.

Definition set_next (s : Schedule) (next : Z) : Schedule :=
  mkSchedule (sd_id s) (sd_source_id s) (sd_time_zone s) (sd_kind s) (sd_hour s) (sd_minute s)
    (sd_interval_seconds s) (sd_missed_policy s) (sd_grace_seconds s) next (sd_enabled s)
    (sd_revision s) (sd_at s) (sd_weekdays s).

Lemma set_next_not_due zones s next now : next = zero_time \/ now < next ->
  Due zones (set_next s next) now = None.
Proof.
  intros H. unfold Due. cbn [sd_next_at set_next sd_enabled].
  assert (IsZero next || After next now = true) as E.
  { unfold IsZero, After. apply orb_true_iff. rewrite Z.eqb_eq Z.ltb_lt. done. }
  by rewrite -orb_assoc E orb_true_r.
Qed.

Lemma Schedule_Validate_interval zones s :
  Schedule_Validate zones s = Ok tt -> sd_kind s = "interval" -> 60 <= sd_interval_seconds s <= 604800.
Proof.
  unfold Schedule_Validate. intros H Hk. rewrite Hk in H. go_ok H. simpl in *. go_ok Hg3. unbool. lia.
Qed.

Lemma Schedule_Validate_grace zones s :
  Schedule_Validate zones s = Ok tt -> 0 <= sd_grace_seconds s <= 3600.
Proof. unfold Schedule_Validate. intros H. go_ok H. unbool. lia. Qed.

Lemma is_ok_unit (r : res unit) : is_ok r = true -> r = Ok tt.
Proof. by destruct r as [[]|]. Qed.

(** A due schedule is observed at most once.  A tick lies between the
    stored next instant and now, so ticks missed while nothing ran are
    coalesced into the latest one; it is observed exactly when the policy is
    to coalesce or it is within the grace period; and the next instant it
    stores is past now, or zero when there is none, so that the schedule is
    not due again at the same moment.  For an interval schedule the tick is
    the missed number of whole intervals after the stored instant. *)
Theorem Due_once (zones : string -> option zone) (s : Schedule) (now : Z) (tk : Tick) :
  Due zones s now = Some tk -> now - sd_next_at s <= max_int64 ->
  sd_next_at s <= tk_scheduled_at tk <= now
  /\ (tk_next_at tk = zero_time \/ now < tk_next_at tk)
  /\ Due zones (set_next s (tk_next_at tk)) now = None
  /\ (tk_should_observe tk = true <->
      sd_missed_policy s = "coalesce" \/ now - tk_scheduled_at tk <= sd_grace_seconds s * second)
  /\ (sd_kind s = "interval" ->
      tk_scheduled_at tk = sd_next_at s + tk_missed_count tk * (sd_interval_seconds s * second)
      /\ tk_next_at tk = tk_scheduled_at tk + sd_interval_seconds s * second).
Proof.
  intros H Hmax. unfold Due in H.
  destruct (_ || After (sd_next_at s) now) eqn:E; [done|]. cbv zeta in H.
  unfold After in E. unbool. rename H0 into Hv, H1 into Hdue. apply is_ok_unit in Hv.
  assert (Hinterval : sd_kind s = "interval" ->
    wrap64 (sd_interval_seconds s * second) = sd_interval_seconds s * second
    /\ 0 < sd_interval_seconds s * second <= max_int64).
  { intros Hk%(Schedule_Validate_interval zones); [|exact Hv]. unfold second, max_int64.
    rewrite wrap64_id; [unfold in_int64, min_int64, max_int64; lia|]. lia. }
  destruct (if bool_decide (sd_kind s = "interval") then _ else _) as [latest missed] eqn:Ep.
  injection H as <-. cbn [tk_scheduled_at tk_next_at tk_missed_count tk_should_observe].
  assert (Hlatest : sd_next_at s <= latest <= now).
  { case_bool_decide as Hk.
    - destruct (Hinterval Hk) as [Ei Hi]. rewrite !Ei in Ep. injection Ep as <- <-.
      destruct (interval_tick _ _ _ Hdue Hmax Hi) as [-> ?]. lia.
    - case_bool_decide; [|by injection Ep as <- <-; lia].
      pose proof (due_loop_range (default (fun _ => 0) (zones (sd_time_zone s))) s now 15 0 Hdue) as Hr.
      by rewrite Ep in Hr. }
  assert (Hnext : sd_kind s = "interval" ->
    latest = sd_next_at s + missed * (sd_interval_seconds s * second)
    /\ now < latest + sd_interval_seconds s * second).
  { intros Hk. destruct (Hinterval Hk) as [Ei Hi]. rewrite (bool_decide_true _ Hk) !Ei in Ep.
    injection Ep as <- <-. destruct (interval_tick _ _ _ Hdue Hmax Hi) as [-> ?]. lia. }
  assert (Hafter : (if bool_decide (sd_kind s = "interval")
      then latest + wrap64 (sd_interval_seconds s * second) else NextAfter zones s now) = zero_time
    \/ now < (if bool_decide (sd_kind s = "interval")
      then latest + wrap64 (sd_interval_seconds s * second) else NextAfter zones s now)).
  { case_bool_decide as Hk; [|by apply NextAfter_after].
    destruct (Hinterval Hk) as [-> _]. right. by apply Hnext. }
  split_and!; try lia; try done.
  - by apply set_next_not_due.
  - rewrite orb_true_iff bool_decide_eq_true Z.leb_le. pose proof (Schedule_Validate_grace _ _ Hv).
    rewrite wrap64_id; [unfold in_int64, min_int64, max_int64, second; lia|].
    unfold Sub. replace (Z.max min_int64 (Z.min max_int64 (now - latest))) with (now - latest)
      by (unfold min_int64, max_int64 in *; lia). done.
  - intros Hk. rewrite (bool_decide_true _ Hk). destruct (Hinterval Hk) as [-> _].
    by destruct (Hnext Hk) as [-> _].
Qed.

Definition hourly_ex (next : Z) : Schedule :=
  mkSchedule "hourly" "job" "UTC" "interval" 0 0 3600 "skip" 60 next true 1 zero_time [].

Lemma Due_once_witness :
  Due zones_ex (hourly_ex (1000000 * second)) (1010000 * second)
  = Some (mkTick "1970-01-12T15:46:40Z" (1007200 * second) (1010800 * second) 2 false)
  /\ Due zones_ex (hourly_ex (1010800 * second)) (1010000 * second) = None.
Proof.
  assert (E : Due zones_ex (hourly_ex (1000000 * second)) (1010000 * second)
    = Some (mkTick "1970-01-12T15:46:40Z" (1007200 * second) (1010800 * second) 2 false))
    by (vm_compute; reflexivity).
  split; [exact E|].
  destruct (Due_once _ _ _ _ E) as (_ & _ & H & _); [vm_compute; congruence|exact H].
Defined.
