(* ===== verification/Codec.v ===== *)
(** * Codec: binary formats

    The canonical mono PCM WAV file of [internal/audio/wav.go] and the
    length-prefixed frames of the browser bridge
    ([apps/browser-bridge/internal/protocol/codec.go]).  A reader is the list
    of the bytes it still has; a writer is the list of the bytes written. *)
From Stdlib Require Import Ascii.
From S2P Require Import Prelude GoStrings GoBytes.
Open Scope Z_scope.
Open Scope go_scope.

(** [b[i:j]] with [i <= j <= len(b)]. *)
Definition slice (b : bytes) (i j : nat) : bytes := take (j - i) (drop i b).

(** ** PCM WAV *)

Definition ErrFormat : error := ErrNew "audio.ErrFormat" "bounded mono PCM WAV required".
Definition MaxSeconds : Z := 120.

Record PCM := mkPCM { pcm_samples : bytes; pcm_rate : Z }.

Definition rate_ok (rate : Z) : bool := Z.eqb rate 16000 || Z.eqb rate 24000.

(** [Decode]: the tests in the order of the code. *)
Definition Decode (wav : bytes) (rate maxSeconds : Z) : res PCM :=
  fail_when Nat.ltb (length wav) 44 || Z.eqb maxSeconds 0 || Z.ltb MaxSeconds maxSeconds
    || negb (rate_ok rate)
    || negb (bool_decide (slice wav 0 4 = lit "RIFF"))
    || negb (bool_decide (slice wav 8 16 = lit "WAVEfmt "))
    || negb (bool_decide (slice wav 36 40 = lit "data"))
    || negb (Z.eqb (get32 (slice wav 4 8)) (wrap_u32 (blen wav - 8)))
    || negb (Z.eqb (get32 (slice wav 16 20)) 16)
    || negb (Z.eqb (get16 (slice wav 20 22)) 1)
    || negb (Z.eqb (get16 (slice wav 22 24)) 1)
    || negb (Z.eqb (get32 (slice wav 24 28)) rate)
    || negb (Z.eqb (get32 (slice wav 28 32)) (wrap_u32 (rate * 2)))
    || negb (Z.eqb (get16 (slice wav 32 34)) 2)
    || negb (Z.eqb (get16 (slice wav 34 36)) 16)
    || negb (Z.eqb (get32 (slice wav 40 44)) (wrap_u32 (blen wav - 44)))
    || negb (Z.eqb ((blen wav - 44) mod 2) 0)
    || Nat.eqb (length wav) 44
    || Z.ltb (rate * 2 * maxSeconds) (blen wav - 44) with ErrFormat ;;
  Ok (mkPCM (drop 44 wav) rate).

(** [Encode]: the header is written field by field. *)
Definition wav_header (n rate : Z) : bytes :=
  lit "RIFF" ++ put32 (wrap_u32 (44 + n - 8)) ++ lit "WAVEfmt " ++ put32 16 ++ put16 1 ++ put16 1
  ++ put32 rate ++ put32 (wrap_u32 (rate * 2)) ++ put16 2 ++ put16 16 ++ lit "data"
  ++ put32 (wrap_u32 n).

Definition Encode (samples : bytes) (rate : Z) : res bytes :=
  fail_when Nat.eqb (length samples) 0 || negb (Z.eqb (blen samples mod 2) 0)
            || negb (rate_ok rate) || Z.ltb (MaxSeconds * rate * 2) (blen samples) with ErrFormat ;;
  Ok (wav_header (blen samples) rate ++ samples).

(** [PCM.Segment]: the bounds of the slice are 32-bit products. *)
Definition Segment (p : PCM) (start stop : Z) : res bytes :=
  fail_when Z.leb stop start || Z.ltb (blen (pcm_samples p)) (stop * 2) with ErrFormat ;;
  Encode (slice (pcm_samples p) (Z.to_nat (wrap_u32 (start * 2))) (Z.to_nat (wrap_u32 (stop * 2))))
    (pcm_rate p).

(** ** Frames of the browser bridge *)

Definition ErrEOF : error := ErrNew "io.EOF" "EOF".
Definition ErrUnexpectedEOF : error := ErrNew "io.ErrUnexpectedEOF" "unexpected EOF".

(** [io.ReadFull] of [n] bytes. *)
Definition ReadFull (n : Z) (r : bytes) : bytes * res bytes :=
  if Z.eqb n 0 then (r, Ok [])
  else match r with
       | [] => ([], Err ErrEOF)
       | _ => if Z.ltb (blen r) n then ([], Err ErrUnexpectedEOF)
              else (drop (Z.to_nat n) r, Ok (take (Z.to_nat n) r))
       end.

(** [binary.Read(r, binary.LittleEndian, &length)]. *)
Definition read_length (r : bytes) : bytes * res Z :=
  match ReadFull 4 r with
  | (r', Err e) => (r', Err e)
  | (r', Ok b) => (r', Ok (get32 b))
  end.

Definition readFrame (r : bytes) : bytes * res bytes :=
  match read_length r with
  | (r', Err e) => (r', Err e)
  | (r', Ok n) => ReadFull n r'
  end.

Definition writeFrame (payload w : bytes) : bytes :=
  w ++ put32 (wrap_u32 (blen payload)) ++ payload.

(** [ReadMessage] and [ReadGuardedMessage]; [decode] is [decodeMessage]. *)
Section messages.
Context {Msg : Type} (decode : bytes -> res Msg).

Definition decode_frame (f : bytes * res bytes) : bytes * res Msg :=
  match f with
  | (r', Err e) => (r', Err e)
  | (r', Ok payload) => (r', decode payload)
  end.

Definition ReadMessage (r : bytes) : bytes * res Msg := decode_frame (readFrame r).

Definition ReadGuardedMessage (r : bytes) : bytes * res Msg :=
  match read_length r with
  | (r', Err e) => (r', Err e)
  | (r', Ok n) =>
      if Z.eqb n 0 || Z.ltb 65536 n then (r', Err (Errorf "invalid guarded native frame"))
      else decode_frame (ReadFull n r')
  end.
End messages.

(** ** The WAV format is canonical *)

Lemma slice_app_skip (p q : bytes) i j : (length p <= i)%nat ->
  slice (p ++ q) i j = slice q (i - length p) (j - length p).
Proof.
  intros H. unfold slice. rewrite drop_app_ge; [done|]. f_equal. lia.
Qed.

Lemma slice_app_head (p q : bytes) : slice (p ++ q) 0 (length p) = p.
Proof. unfold slice. rewrite drop_0 Nat.sub_0_r. by rewrite take_app_length. Qed.

Lemma slice_split (b : bytes) i j k : (i <= j)%nat -> (j <= k)%nat ->
  slice b i k = slice b i j ++ slice b j k.
Proof.
  intros H1 H2. unfold slice.
  replace (drop j b) with (drop (j - i) (drop i b)) by (rewrite drop_drop; f_equal; lia).
  replace (k - i)%nat with ((j - i) + (k - j))%nat by lia. by rewrite take_take_drop.
Qed.

Lemma slice_length (b : bytes) i j : (j <= length b)%nat -> length (slice b i j) = (j - i)%nat.
Proof. intros H. unfold slice. rewrite length_take length_drop. lia. Qed.

Lemma lit_length s : length (lit s) = String.length s.
Proof. unfold lit. by induction s; simpl; [|f_equal]. Qed.

Lemma wav_header_length n rate : length (wav_header n rate) = 44%nat.
Proof. reflexivity. Qed.

Lemma rate_ok_cases rate : rate_ok rate = true <-> rate = 16000 \/ rate = 24000.
Proof. unfold rate_ok. by rewrite orb_true_iff !Z.eqb_eq. Qed.

(** The fields of a header followed by samples. *)
Lemma header_fields n rate s :
  slice (wav_header n rate ++ s) 0 4 = lit "RIFF"
  /\ slice (wav_header n rate ++ s) 8 16 = lit "WAVEfmt "
  /\ slice (wav_header n rate ++ s) 36 40 = lit "data"
  /\ slice (wav_header n rate ++ s) 4 8 = put32 (wrap_u32 (44 + n - 8))
  /\ slice (wav_header n rate ++ s) 16 20 = put32 16
  /\ slice (wav_header n rate ++ s) 20 22 = put16 1
  /\ slice (wav_header n rate ++ s) 22 24 = put16 1
  /\ slice (wav_header n rate ++ s) 24 28 = put32 rate
  /\ slice (wav_header n rate ++ s) 28 32 = put32 (wrap_u32 (rate * 2))
  /\ slice (wav_header n rate ++ s) 32 34 = put16 2
  /\ slice (wav_header n rate ++ s) 34 36 = put16 16
  /\ slice (wav_header n rate ++ s) 40 44 = put32 (wrap_u32 n).
Proof. by repeat split. Qed.

Lemma wrap_u32_range z : 0 <= wrap_u32 z < 4294967296.
Proof. by apply Z.mod_pos_bound. Qed.

Lemma get32_wrap z : get32 (put32 (wrap_u32 z)) = wrap_u32 z.
Proof. apply get32_put, wrap_u32_range. Qed.

Lemma blen_header n rate s : blen (wav_header n rate ++ s) = 44 + blen s.
Proof. unfold blen. rewrite length_app wav_header_length. lia. Qed.

(** What a file has to satisfy. *)
Definition pcm_bounds (samples : bytes) (rate limit : Z) : Prop :=
  (rate = 16000 \/ rate = 24000) /\ samples <> [] /\ blen samples mod 2 = 0 /\ blen samples <= limit.

Lemma Encode_iff samples rate w : Encode samples rate = Ok w <->
  pcm_bounds samples rate (MaxSeconds * rate * 2) /\ w = wav_header (blen samples) rate ++ samples.
Proof.
  unfold Encode, pcm_bounds. rewrite fail_if_Ok !orb_false_iff !negb_false_iff.
  rewrite rate_ok_cases Z.eqb_eq Z.ltb_ge Nat.eqb_neq.
  destruct samples; simpl; naive_solver.
Qed.

Lemma Decode_complete samples rate ms : 0 < ms <= MaxSeconds ->
  pcm_bounds samples rate (rate * 2 * ms) ->
  Decode (wav_header (blen samples) rate ++ samples) rate ms = Ok (mkPCM samples rate).
Proof.
  intros Hms (Hr & Hne & Heven & Hle). unfold Decode. rewrite fail_if_Ok. split; [|done].
  destruct (header_fields (blen samples) rate samples)
    as (-> & -> & -> & -> & -> & -> & -> & -> & -> & -> & -> & ->).
  rewrite !get32_wrap (get32_put rate); [lia|]. rewrite blen_header length_app wav_header_length.
  rewrite (proj2 (rate_ok_cases rate) Hr).
  replace (44 + blen samples - 44) with (blen samples) by lia. rewrite Heven.
  rewrite !bool_decide_true; try done.
  rewrite (proj2 (Nat.ltb_ge _ 44)); [lia|]. rewrite (proj2 (Nat.eqb_neq _ 44)).
  { destruct samples; [done|simpl; lia]. }
  rewrite (proj2 (Z.eqb_neq ms 0)); [lia|]. rewrite (proj2 (Z.ltb_ge MaxSeconds ms)); [lia|].
  rewrite (proj2 (Z.ltb_ge _ (blen samples))); [done|].
  by rewrite !Z.eqb_refl.
Qed.

(** A list cut at increasing positions. *)
Lemma slice_all (b : bytes) : slice b 0 (length b) = b.
Proof. unfold slice. rewrite drop_0 Nat.sub_0_r. by apply take_ge. Qed.

Lemma put32_slice (b : bytes) i z : (i + 4 <= length b)%nat -> get32 (slice b i (i + 4)) = z ->
  slice b i (i + 4) = put32 z.
Proof. intros Hl <-. rewrite put32_get; [|done]. rewrite slice_length; lia. Qed.

Lemma put16_slice (b : bytes) i z : (i + 2 <= length b)%nat -> get16 (slice b i (i + 2)) = z ->
  slice b i (i + 2) = put16 z.
Proof. intros Hl <-. rewrite put16_get; [|done]. rewrite slice_length; lia. Qed.

Lemma take_slices (b : bytes) : take 44 b =
  slice b 0 4 ++ slice b 4 8 ++ slice b 8 16 ++ slice b 16 20 ++ slice b 20 22 ++ slice b 22 24
  ++ slice b 24 28 ++ slice b 28 32 ++ slice b 32 34 ++ slice b 34 36 ++ slice b 36 40 ++ slice b 40 44.
Proof.
  change (take 44 b) with (slice b 0 44).
  rewrite (slice_split b 0 4 44); [lia..|]. rewrite (slice_split b 4 8 44); [lia..|].
  rewrite (slice_split b 8 16 44); [lia..|]. rewrite (slice_split b 16 20 44); [lia..|].
  rewrite (slice_split b 20 22 44); [lia..|]. rewrite (slice_split b 22 24 44); [lia..|].
  rewrite (slice_split b 24 28 44); [lia..|]. rewrite (slice_split b 28 32 44); [lia..|].
  rewrite (slice_split b 32 34 44); [lia..|]. rewrite (slice_split b 34 36 44); [lia..|].
  by rewrite (slice_split b 36 40 44); [lia..|].
Qed.

Lemma Decode_sound wav rate ms p : 0 <= ms -> Decode wav rate ms = Ok p ->
  0 < ms <= MaxSeconds /\ pcm_rate p = rate /\ pcm_bounds (pcm_samples p) rate (rate * 2 * ms)
  /\ wav = wav_header (blen (pcm_samples p)) rate ++ pcm_samples p.
Proof.
  intros Hms H. unfold Decode in H. apply fail_if_Ok in H as [Hg [= <-]]. cbn [pcm_samples pcm_rate].
  rewrite !orb_false_iff !negb_false_iff !bool_decide_eq_true !Z.eqb_eq in Hg.
  destruct Hg as [[[[[[[[[[[[[[[[[[Hlen Hms0] Hmax] Hrate] F0] F8] F36] F4] F16] F20] F22] F24] F28]
    F32] F34] F40] Heven] Hne] Hle].
  apply Nat.ltb_ge in Hlen. apply Z.eqb_neq in Hms0. apply Z.ltb_ge in Hmax, Hle.
  apply Nat.eqb_neq in Hne. apply rate_ok_cases in Hrate.
  assert (Hs : blen (drop 44 wav) = blen wav - 44) by (unfold blen; rewrite length_drop; lia).
  split_and!; try lia; try done.
  - unfold pcm_bounds. rewrite Hs. split_and!; try done.
    intros E. apply (f_equal length) in E. rewrite length_drop in E. simpl in E. lia.
  - rewrite -{1}(take_drop 44 wav). f_equal. rewrite take_slices F0 F8 F36 /wav_header Hs.
    rewrite (put32_slice wav 4 _ _ F4) ?(put32_slice wav 16 _ _ F16) ?(put16_slice wav 20 _ _ F20)
      ?(put16_slice wav 22 _ _ F22) ?(put32_slice wav 24 _ _ F24) ?(put32_slice wav 28 _ _ F28)
      ?(put16_slice wav 32 _ _ F32) ?(put16_slice wav 34 _ _ F34) ?(put32_slice wav 40 _ _ F40); try lia.
    do 3 f_equal. f_equal. lia.
Qed.

Lemma pcm_bounds_encode samples rate ms : 0 < ms <= MaxSeconds ->
  pcm_bounds samples rate (rate * 2 * ms) -> pcm_bounds samples rate (MaxSeconds * rate * 2).
Proof.
  intros Hms (Hr & ? & ? & ?). unfold pcm_bounds, MaxSeconds in *. split_and!; try done. nia.
Qed.

Lemma pcm_bounds_slice samples rate limit i j : pcm_bounds samples rate limit ->
  0 <= i < j -> 2 * j <= blen samples ->
  pcm_bounds (slice samples (Z.to_nat (i * 2)) (Z.to_nat (j * 2))) rate limit.
Proof.
  intros (Hr & _ & _ & Hle) Hij Hj.
  assert (Hlen : length (slice samples (Z.to_nat (i * 2)) (Z.to_nat (j * 2)))
    = (Z.to_nat (j * 2) - Z.to_nat (i * 2))%nat) by (apply slice_length; unfold blen in *; lia).
  unfold pcm_bounds, blen in *. split_and!; try done.
  - intros E. rewrite E in Hlen. simpl in Hlen. lia.
  - rewrite Hlen. Z.to_euclidean_division_equations; lia.
  - rewrite Hlen. lia.
Qed.

(** The WAV representation is canonical.  What is decoded encodes back
    to the same file, byte for byte, and what is encoded decodes to the same
    samples; so a file is accepted exactly when it is the encoding of its
    samples.  A segment of decoded audio is rejected exactly when it is empty
    or reaches past the samples, and otherwise decodes to the samples between
    its bounds. *)
Theorem wav_canonical (wav : bytes) (rate ms : Z) (p : PCM) (start stop : Z) :
  0 < ms <= MaxSeconds -> 0 <= start ->
  (Decode wav rate ms = Ok p <->
   pcm_rate p = rate /\ blen (pcm_samples p) <= rate * 2 * ms /\ Encode (pcm_samples p) rate = Ok wav)
  /\ (Decode wav rate ms = Ok p ->
      if Z.ltb start stop && Z.leb (2 * stop) (blen (pcm_samples p))
      then exists w, Segment p start stop = Ok w
           /\ Decode w rate ms
              = Ok (mkPCM (slice (pcm_samples p) (Z.to_nat (2 * start)) (Z.to_nat (2 * stop))) rate)
      else Segment p start stop = Err ErrFormat).
Proof.
  intros Hms Hstart. split.
  - split.
    + intros H. apply Decode_sound in H as (_ & Hr & Hb & ->); [|lia]. split_and!; try done.
      { by destruct Hb as (_ & _ & _ & ?). }
      apply Encode_iff. split; [|done]. by apply (pcm_bounds_encode _ _ ms).
    + intros (Hr & Hle & H). apply Encode_iff in H as [(Hr' & Hne & Heven & _) ->].
      destruct p as [samples r]. simpl in *. subst r. by apply Decode_complete.
  - intros H. apply Decode_sound in H as (_ & Hr & Hb & ->); [|lia]. unfold Segment, fail_if.
    destruct (Z.ltb_spec start stop) as [Hlt|Hge]; simpl.
    2: { by rewrite (proj2 (Z.leb_le stop start)); [lia|]. }
    rewrite (proj2 (Z.leb_gt stop start)); [lia|]. rewrite Z.mul_comm.
    destruct (Z.leb_spec (stop * 2) (blen (pcm_samples p))) as [Hin|Hout].
    2: { by rewrite (proj2 (Z.ltb_lt _ _) Hout). }
    rewrite (proj2 (Z.ltb_ge _ _) Hin) /= Hr.
    assert (Hbig : blen (pcm_samples p) < 4294967296)
      by (destruct Hb as (Hr' & _ & _ & ?); unfold MaxSeconds in *; nia).
    rewrite !wrap_u32_id; [lia|lia|].
    pose proof (pcm_bounds_slice _ _ _ start stop Hb ltac:(lia) ltac:(lia)) as Hs.
    eexists. split; [by apply Encode_iff; split; [apply (pcm_bounds_encode _ _ ms)|]|].
    replace (2 * start) with (start * 2) by lia. by apply Decode_complete.
Qed.

Lemma wav_canonical_witness :
  let s := lit "abcdef" in let w := wav_header 6 16000 ++ s in
  Decode w 16000 1 = Ok (mkPCM s 16000) /\ Encode s 16000 = Ok w
  /\ exists w', Segment (mkPCM s 16000) 1 2 = Ok w' /\ Decode w' 16000 1 = Ok (mkPCM (lit "cd") 16000).
Proof.
  cbv zeta.
  assert (E : Decode (wav_header 6 16000 ++ lit "abcdef") 16000 1 = Ok (mkPCM (lit "abcdef") 16000))
    by (vm_compute; reflexivity).
  split; [exact E|].
  destruct (wav_canonical (wav_header 6 16000 ++ lit "abcdef") 16000 1 (mkPCM (lit "abcdef") 16000) 1 2)
    as [H1 H2]; [unfold MaxSeconds; lia|lia|].
  split; [exact (proj2 (proj2 (proj1 H1 E)))|exact (H2 E)].
Defined.

(** ** Frames *)

Lemma ReadFull_app n (p r : bytes) : blen p = n -> ReadFull n (p ++ r) = (r, Ok p).
Proof.
  intros <-. unfold ReadFull. destruct (Z.eqb_spec (blen p) 0) as [E|E].
  { destruct p; [done|]. unfold blen in E. simpl in E. lia. }
  destruct p as [|a p]; [done|].
  change ((a :: p) ++ r) with (a :: (p ++ r)).
  rewrite (proj2 (Z.ltb_ge _ _)).
  { unfold blen. simpl. rewrite length_app. lia. }
  change (a :: (p ++ r)) with ((a :: p) ++ r). unfold blen. rewrite Nat2Z.id.
  by rewrite drop_app_length take_app_length.
Qed.

Lemma read_length_put z r : 0 <= z < 4294967296 -> read_length (put32 z ++ r) = (r, Ok z).
Proof. intros Hz. unfold read_length. rewrite (ReadFull_app 4); [done|]. by rewrite get32_put. Qed.

(** Read every frame of a stream. *)
Fixpoint read_frames (n : nat) (r : bytes) : bytes * res (list bytes) :=
  match n with
  | O => (r, Ok [])
  | S n' =>
      match readFrame r with
      | (r', Err e) => (r', Err e)
      | (r', Ok p) =>
          match read_frames n' r' with
          | (r'', Err e) => (r'', Err e)
          | (r'', Ok ps) => (r'', Ok (p :: ps))
          end
      end
  end.

Lemma readFrame_written p r : blen p < 4294967296 -> readFrame (writeFrame p [] ++ r) = (r, Ok p).
Proof.
  intros Hp. unfold readFrame, writeFrame. rewrite app_nil_l -app_assoc.
  rewrite wrap_u32_id; [unfold blen in *; lia|]. rewrite read_length_put; [unfold blen in *; lia|].
  by rewrite ReadFull_app.
Qed.

Lemma writeFrame_app p w : writeFrame p w = w ++ writeFrame p [].
Proof. done. Qed.

(** Frames survive the pipe.  Messages written one after another are
    read back in order and unchanged, whatever follows on the stream, as long
    as each is shorter than 4 GiB; and the guarded reader treats a frame of
    at most 64 KiB exactly as the plain reader does and rejects an empty or
    longer one as soon as it has read its four length bytes. *)
Theorem frames_round_trip {Msg} (decode : bytes -> res Msg) (ps : list bytes) (p rest : bytes) :
  Forall (fun q => blen q < 4294967296) (p :: ps) ->
  read_frames (length ps) (foldl (fun w q => writeFrame q w) [] ps ++ rest) = (rest, Ok ps)
  /\ ReadMessage decode (writeFrame p [] ++ rest) = (rest, decode p)
  /\ ReadGuardedMessage decode (writeFrame p [] ++ rest)
     = if Z.eqb (blen p) 0 || Z.ltb 65536 (blen p)
       then (p ++ rest, Err (Errorf "invalid guarded native frame"))
       else ReadMessage decode (writeFrame p [] ++ rest).
Proof.
  intros [Hp Hps]%Forall_cons. split_and!.
  - assert (Hw : forall w, foldl (fun w q => writeFrame q w) w ps = w ++ ((fun q => writeFrame q []) <$> ps) ≫= id).
    { clear. induction ps as [|q ps IH]; intros w; simpl; [by rewrite app_nil_r|].
      rewrite IH writeFrame_app. by rewrite -app_assoc. }
    rewrite Hw /=. clear Hw. induction Hps as [|q ps Hq _ IH]; [done|].
    simpl. rewrite -app_assoc readFrame_written; [done|]. by rewrite IH.
  - unfold ReadMessage. by rewrite readFrame_written.
  - unfold ReadMessage, ReadGuardedMessage, readFrame, writeFrame. rewrite app_nil_l -app_assoc.
    rewrite wrap_u32_id; [unfold blen in *; lia|]. rewrite read_length_put; [unfold blen in *; lia|].
    done.
Qed.

Lemma frames_round_trip_witness :
  read_frames 2 (foldl (fun w q => writeFrame q w) [] [lit "hello"; lit ""] ++ lit "x")
  = (lit "x", Ok [lit "hello"; lit ""]).
Proof.
  refine (proj1 (frames_round_trip (fun b => Ok b) [lit "hello"; lit ""] [] (lit "x") _)).
  repeat constructor.
Defined.
