(* ===== verification/Telegram.v ===== *)
(** * Telegram: outgoing message formatting

    [apps/orchestrator/internal/channel/telegram/formatting.go]: cutting a
    long text into messages and rendering the small markdown the model writes
    as the HTML subset Telegram accepts.  Texts are byte sequences.
    Loops run on fuel equal to the number of bytes; the theorems show it is
    enough. *)
From Stdlib Require Import Ascii.
From S2P Require Import Prelude GoStrings GoBytes.
Open Scope Z_scope.

Definition telegramMaxMessageLen : Z := 4000.

(** ** Splitting *)

(** [findSplitPoint] for [limit <= len(text)]. *)
Definition findSplitPoint (text : bytes) (limit : nat) : nat :=
  let window := take limit text in
  match last_index window [LF; LF] with
  | Some (S i) => S i
  | _ => match last_index window [LF] with
         | Some (S i) => S i
         | _ => limit
         end
  end.

(** The loop of [splitMessage]. *)
Fixpoint split_loop (fuel : nat) (text : bytes) (limit : nat) : list bytes :=
  match fuel with
  | O => []
  | S fuel' =>
      if Nat.eqb (length text) 0 then []
      else if Nat.leb (length text) limit then [text]
      else
        let cutAt := findSplitPoint text limit in
        take cutAt text :: split_loop fuel' (trim_left LF (drop cutAt text)) limit
  end.

Definition splitMessage (text : bytes) (limit : Z) : list bytes :=
  let limit := if Z.leb limit 0 then telegramMaxMessageLen else limit in
  if Z.leb (blen text) limit then [text]
  else split_loop (length text) text (Z.to_nat limit).

(** ** Rendering *)

Definition ascii_lower (c : ascii) : ascii :=
  let n := byte_val c in if Z.leb 65 n && Z.leb n 90 then byte_of (n + 32) else c.

(** [looksLikeURL]: no other rune has a lower-case form among the letters of
    the two prefixes, so lowering ASCII decides the same. *)
Definition looksLikeURL (value : bytes) : bool :=
  let v := ascii_lower <$> lit (TrimSpace (str value)) in
  has_prefix v (lit "http://") || has_prefix v (lit "https://").

Definition fence : bytes := lit "```".
Definition stars : bytes := lit "**".

(** One step at the front of the text: what is written, and how many bytes
    are consumed. *)
Definition try_fence (text : bytes) : option (bytes * nat) :=
  if has_prefix text fence then
    end_ ← index (drop 3 text) fence;
    Some (lit "<pre>" ++ escape (trim LF (take end_ (drop 3 text))) ++ lit "</pre>", 3 + end_ + 3)%nat
  else None.

Definition try_code (text : bytes) : option (bytes * nat) :=
  match text with
  | "`"%char :: rest =>
      end_ ← index_byte rest "`";
      Some (lit "<code>" ++ escape (take end_ rest) ++ lit "</code>", end_ + 2)%nat
  | _ => None
  end.

Definition try_bold (text : bytes) : option (bytes * nat) :=
  if has_prefix text stars then
    match index (drop 2 text) stars with
    | Some (S end_) =>
        Some (lit "<b>" ++ escape (take (S end_) (drop 2 text)) ++ lit "</b>", 2 + S end_ + 2)%nat
    | _ => None
    end
  else None.

(** The double quote around the link target. *)
Definition quote : bytes := ["034"%char].

Definition try_link (text : bytes) : option (bytes * nat) :=
  match text with
  | "["%char :: rest =>
      closeText ← index_byte rest "]";
      let openURL := (1 + closeText + 1)%nat in
      if Nat.ltb (openURL + 1) (length text) && bool_decide (text !! openURL = Some "("%char) then
        closeURL ← index_byte (drop (openURL + 1) text) ")";
        let label := take closeText rest in
        let url := take closeURL (drop (openURL + 1) text) in
        if looksLikeURL url then
          Some (lit "<a href=" ++ quote ++ escape url ++ quote ++ lit ">" ++ escape label ++ lit "</a>",
                openURL + 1 + closeURL + 1)%nat
        else None
      else None
  | _ => None
  end.

Definition render_step (text : bytes) : bytes * nat :=
  match try_fence text with
  | Some r => r
  | None =>
      match try_code text with
      | Some r => r
      | None =>
          match try_bold text with
          | Some r => r
          | None =>
              match try_link text with
              | Some r => r
              | None => (escape (take 1 text), 1%nat)
              end
          end
      end
  end.

Fixpoint render_loop (fuel : nat) (text : bytes) : bytes :=
  match fuel with
  | O => []
  | S fuel' =>
      match text with
      | [] => []
      | _ => let '(out, n) := render_step text in out ++ render_loop fuel' (drop n text)
      end
  end.

Definition renderTelegramSegment (text : bytes) : bytes := render_loop (length text) text.

Definition renderTelegramHTML (input : bytes) : bytes :=
  renderTelegramSegment (replace_all (replace_all input [CR; LF] [LF]) [CR] [LF]).

(** [toolDisplayName]. *)
Definition toolDisplayName (toolName : bytes) : bytes :=
  replace_all (lit (TrimSpace (str toolName))) (lit "_") (lit " ").

(** ** Splitting keeps the text *)

Lemma findSplitPoint_range text limit : (0 < limit <= length text)%nat ->
  (0 < findSplitPoint text limit <= limit)%nat.
Proof.
  intros H. unfold findSplitPoint.
  assert (Hi : forall sub i, last_index (take limit text) sub = Some i -> (i <= limit)%nat).
  { intros sub i (pre & post & E & <-)%last_index_Some. apply (f_equal length) in E.
    rewrite length_take !length_app in E. lia. }
  destruct (last_index _ [LF; LF]) as [[|i]|] eqn:E1;
    [|specialize (Hi _ _ E1); lia|];
    destruct (last_index _ [LF]) as [[|j]|] eqn:E2; try lia; specialize (Hi _ _ E2); lia.
Qed.

(** [chunks] with runs of line feeds between them make the text. *)
Inductive joins : list bytes -> bytes -> Prop :=
| joins_last c : joins [c] c
| joins_break c k cs t : joins cs t -> joins (c :: cs) (c ++ replicate k LF ++ t)
| joins_tail c k : joins [c] (c ++ replicate k LF).

Lemma split_loop_spec fuel text limit :
  (0 < limit)%nat -> (length text <= fuel)%nat -> text <> [] ->
  Forall (fun c => c <> [] /\ (length c <= limit)%nat) (split_loop fuel text limit)
  /\ joins (split_loop fuel text limit) text.
Proof.
  intros Hl. revert text. induction fuel as [|fuel IH]; intros text Hf Hne.
  { destruct text; [done|simpl in Hf; lia]. }
  simpl. rewrite (proj2 (Nat.eqb_neq _ 0)); [by destruct text|].
  destruct (Nat.leb_spec (length text) limit) as [Hle|Hgt].
  { split; [by repeat constructor|constructor]. }
  destruct (findSplitPoint_range text limit) as [Hc1 Hc2]; [lia|].
  set (cut := findSplitPoint text limit) in *. set (tail := trim_left LF (drop cut text)).
  assert (Htail : (length tail <= fuel)%nat).
  { pose proof (trim_left_length LF (drop cut text)) as H. rewrite length_drop in H. fold tail in H. lia. }
  destruct (trim_left_spec LF (drop cut text)) as [k Hk]. fold tail in Hk.
  assert (Htext : text = take cut text ++ replicate k LF ++ tail) by (by rewrite -Hk take_drop).
  assert (Hchunk : take cut text <> [] /\ (length (take cut text) <= limit)%nat).
  { rewrite length_take. split; [|lia]. intros E. apply (f_equal length) in E.
    rewrite length_take in E. simpl in E. lia. }
  destruct tail as [|a tail'].
  - assert (split_loop fuel [] limit = []) as -> by (by destruct fuel).
    split; [apply Forall_singleton; exact Hchunk|]. rewrite app_nil_r in Htext.
    rewrite {2}Htext. apply joins_tail.
  - destruct (IH (a :: tail') Htail) as [H1 H2]; [done|]. split; [by apply Forall_cons|].
    rewrite {2}Htext. by apply joins_break.
Qed.

(** C40: splitting fits every limit and loses nothing but line breaks at the
    cuts.  For a positive limit every message is at most that long, none is
    empty unless the text was, and the messages in order, with runs of line
    feeds between them, make up the text: the loop always terminates and
    never drops or reorders anything else. *)
Theorem splitMessage_spec (text : bytes) (limit : Z) :
  0 < limit ->
  Forall (fun c => blen c <= limit /\ (text <> [] -> c <> [])) (splitMessage text limit)
  /\ joins (splitMessage text limit) text.
Proof.
  intros Hl. unfold splitMessage. rewrite (proj2 (Z.leb_gt limit 0)); [lia|].
  destruct (Z.leb_spec (blen text) limit) as [Hle|Hgt].
  { split; [by repeat constructor|constructor]. }
  destruct (split_loop_spec (length text) text (Z.to_nat limit)) as [H1 H2]; [lia|lia| |].
  { intros ->. unfold blen in Hgt. simpl in Hgt. lia. }
  split; [|done]. eapply Forall_impl; [exact H1|]. intros c [Hne Hc]. unfold blen. split; [lia|done].
Qed.

Definition text_ex : bytes := lit "ab" ++ [LF; LF] ++ lit "cdefgh" ++ [LF] ++ lit "i".

Lemma splitMessage_spec_witness :
  splitMessage text_ex 5 = [lit "ab"; lit "cdefg"; lit "h" ++ [LF] ++ lit "i"]
  /\ joins [lit "ab"; lit "cdefg"; lit "h" ++ [LF] ++ lit "i"] text_ex.
Proof.
  assert (E : splitMessage text_ex 5 = [lit "ab"; lit "cdefg"; lit "h" ++ [LF] ++ lit "i"])
    by (vm_compute; reflexivity).
  split; [exact E|]. rewrite -{1}E. apply splitMessage_spec. lia.
Defined.

(** ** Rendering is lossless and safe *)

(** What one step recognises. *)
Inductive seg :=
| Plain (c : ascii)
| Pre (raw : bytes)
| Code (body : bytes)
| Bold (body : bytes)
| Link (label url : bytes).

(** Its markdown and its markup. *)
Definition source (g : seg) : bytes :=
  match g with
  | Plain c => [c]
  | Pre raw => fence ++ raw ++ fence
  | Code b => lit "`" ++ b ++ lit "`"
  | Bold b => stars ++ b ++ stars
  | Link l u => lit "[" ++ l ++ lit "](" ++ u ++ lit ")"
  end.

Definition html (g : seg) : bytes :=
  match g with
  | Plain c => escape [c]
  | Pre raw => lit "<pre>" ++ escape (trim LF raw) ++ lit "</pre>"
  | Code b => lit "<code>" ++ escape b ++ lit "</code>"
  | Bold b => lit "<b>" ++ escape b ++ lit "</b>"
  | Link l u => lit "<a href=" ++ quote ++ escape u ++ quote ++ lit ">" ++ escape l ++ lit "</a>"
  end.

Definition link_ok (g : seg) : Prop :=
  match g with Link _ u => looksLikeURL u = true | _ => True end.

(** A step recognised [g] at the front of [text]. *)
Definition recognises (text : bytes) (r : bytes * nat) (g : seg) : Prop :=
  r = (html g, length (source g)) /\ link_ok g /\ exists rest, text = source g ++ rest.

Lemma try_fence_Some text r : try_fence text = Some r -> exists g, recognises text r g.
Proof.
  unfold try_fence. destruct (has_prefix text fence) eqn:E; [|done].
  apply has_prefix_spec in E as [t ->]. change (drop 3 (fence ++ t)) with t.
  destruct (index t fence) as [e|] eqn:Ei; [|done]. cbn [mbind option_bind]. intros [= <-].
  apply index_Some in Ei as (pre & post & -> & <-). exists (Pre pre). split_and!; [|done|].
  - rewrite take_app_length. unfold source. rewrite !length_app. f_equal; simpl; lia.
  - exists post. cbn [source]. by rewrite -!app_assoc.
Qed.

Lemma try_code_Some text r : try_code text = Some r -> exists g, recognises text r g.
Proof.
  unfold try_code. destruct text as [|c t]; [done|].
  destruct (decide (c = "`"%char)) as [->|Hne]; [|intros H; exfalso].
  2: { revert H. destruct c as [[] [] [] [] [] [] [] []]; try done. }
  destruct (index_byte t "`") as [e|] eqn:Ei; [|done].
  cbn [mbind option_bind]. intros [= <-].
  apply index_Some in Ei as (pre & post & -> & <-). exists (Code pre). split_and!; [|done|].
  - rewrite take_app_length. unfold source. rewrite !length_app. f_equal; simpl; lia.
  - exists post. cbn [source]. by rewrite -!app_assoc.
Qed.

Lemma try_bold_Some text r : try_bold text = Some r -> exists g, recognises text r g.
Proof.
  unfold try_bold. destruct (has_prefix text stars) eqn:E; [|done].
  apply has_prefix_spec in E as [t ->]. change (drop 2 (stars ++ t)) with t.
  destruct (index t stars) as [[|e]|] eqn:Ei; [done| |done]. intros [= <-].
  apply index_Some in Ei as (pre & post & -> & Hl). exists (Bold pre). rewrite -Hl. split_and!; [|done|].
  - rewrite take_app_length. unfold source. rewrite !length_app. f_equal; simpl; lia.
  - exists post. cbn [source]. by rewrite -!app_assoc.
Qed.

Lemma try_link_Some text r : try_link text = Some r -> exists g, recognises text r g.
Proof.
  unfold try_link. destruct text as [|c t]; [done|].
  destruct (decide (c = "["%char)) as [->|Hne]; [|intros H; exfalso].
  2: { revert H. destruct c as [[] [] [] [] [] [] [] []]; try done. }
  destruct (index_byte t "]") as [e|] eqn:Ei; [|done]. cbn [mbind option_bind].
  apply index_Some in Ei as (label & t' & -> & <-).
  destruct (Nat.ltb _ _ && _) eqn:Eg; [|done]. apply andb_true_iff in Eg as [_ Eg%bool_decide_eq_true].
  assert (Hd : forall k, drop (k + (1 + length label + 1)) ("["%char :: label ++ ["]"%char] ++ t') = drop k t').
  { intros k.
    replace ("["%char :: label ++ ["]"%char] ++ t') with (("["%char :: label ++ ["]"%char]) ++ t')
      by (simpl; by rewrite -app_assoc).
    rewrite drop_app_ge; simpl; rewrite length_app /=; [lia|]. f_equal. lia. }
  replace (1 + length label + 1 + 1)%nat with (1 + (1 + length label + 1))%nat by lia. rewrite Hd.
  rewrite -{1}(Nat.add_0_r (1 + length label + 1)) -lookup_drop in Eg.
  rewrite -(Nat.add_0_l (1 + length label + 1)) Hd drop_0 in Eg.
  destruct t' as [|b t'']; [done|]. injection Eg as ->.
  change (drop 1 ("("%char :: t'')) with t''.
  destruct (index_byte t'' ")") as [e|] eqn:Eu; [|done]. cbn [mbind option_bind].
  apply index_Some in Eu as (url & post & -> & <-). rewrite !take_app_length.
  destruct (looksLikeURL url) eqn:Elink; [|done]. intros [= <-].
  exists (Link label url). split_and!; [|done|].
  - unfold source. rewrite !length_app. f_equal; simpl; lia.
  - exists post. cbn [source]. by rewrite -!app_assoc.
Qed.

Lemma render_step_spec text : text <> [] -> exists g, recognises text (render_step text) g.
Proof.
  intros Hne. unfold render_step.
  destruct (try_fence text) as [r|] eqn:E1; [by apply try_fence_Some|].
  destruct (try_code text) as [r|] eqn:E2; [by apply try_code_Some|].
  destruct (try_bold text) as [r|] eqn:E3; [by apply try_bold_Some|].
  destruct (try_link text) as [r|] eqn:E4; [by apply try_link_Some|].
  destruct text as [|c t]; [done|]. exists (Plain c). split_and!; [done|done|by exists t].
Qed.

Lemma render_loop_spec fuel text : (length text <= fuel)%nat ->
  exists segs, Forall link_ok segs /\ text = segs ≫= source /\ render_loop fuel text = segs ≫= html.
Proof.
  revert text. induction fuel as [|fuel IH]; intros text Hf.
  { destruct text; [|simpl in Hf; lia]. by exists []. }
  destruct text as [|c t]; [by exists []|]. set (text := c :: t) in *.
  destruct (render_step_spec text) as (g & Er & Hl & rest & Et); [done|].
  assert (Hpos : (0 < length (source g))%nat) by (destruct g; simpl; lia).
  destruct (IH rest) as (segs & H1 & H2 & H3).
  { rewrite Et length_app in Hf. lia. }
  exists (g :: segs). split_and!; [by constructor|by rewrite Et {1}H2|].
  change (render_loop (S fuel) text)
    with (let '(out, n) := render_step text in out ++ render_loop fuel (drop n text)).
  rewrite Er Et drop_app_length H3. done.
Qed.

(** ** The markup Telegram accepts *)

Definition plain_text (b : bytes) : Prop := Forall (fun a => a ∉ markup) b.

Inductive telegram_html : bytes -> Prop :=
| th_nil : telegram_html []
| th_text b r : plain_text b -> telegram_html r -> telegram_html (b ++ r)
| th_element tag b r : tag ∈ [lit "pre"; lit "code"; lit "b"] -> plain_text b -> telegram_html r ->
    telegram_html (lit "<" ++ tag ++ lit ">" ++ b ++ lit "</" ++ tag ++ lit ">" ++ r)
| th_link u b r : plain_text u -> plain_text b -> telegram_html r ->
    telegram_html (lit "<a href=" ++ quote ++ u ++ quote ++ lit ">" ++ b ++ lit "</a>" ++ r).

Lemma escape_plain b : plain_text (escape b).
Proof. apply Forall_forall. intros a. apply escape_safe. Qed.

Lemma html_accepted g r : telegram_html r -> telegram_html (html g ++ r).
Proof.
  intros Hr. destruct g; cbn [html]; [by apply th_text; [apply escape_plain|]|..];
    rewrite -!app_assoc.
  - apply (th_element (lit "pre")); [set_solver|apply escape_plain|done].
  - apply (th_element (lit "code")); [set_solver|apply escape_plain|done].
  - apply (th_element (lit "b")); [set_solver|apply escape_plain|done].
  - apply th_link; [apply escape_plain..|done].
Qed.

Lemma replace_byte a b s : replace_all s [a] [b] = (fun c => if bool_decide (c = a) then b else c) <$> s.
Proof.
  unfold replace_all. induction s as [|c s IH]; [done|]. simpl. rewrite andb_true_r.
  case_bool_decide; simpl; by rewrite IH.
Qed.

(** Rendering is safe and lossless.  For every input the output is in the
    HTML subset: text without markup characters, the three simple elements
    closed as they are opened, and links, none nested, so nothing in the
    model's answer can open or close an element or leave a link target.  And
    the output is the rendering of a sequence of recognised pieces whose
    markdown makes up the text, line endings normalised: nothing is dropped,
    repeated or reordered, and a link always points at an http address. *)
Theorem render_safe_and_lossless (input : bytes) :
  let text := replace_all (replace_all input [CR; LF] [LF]) [CR] [LF] in
  (CR ∉ text)
  /\ telegram_html (renderTelegramHTML input)
  /\ exists segs, Forall link_ok segs /\ text = segs ≫= source
     /\ renderTelegramHTML input = segs ≫= html.
Proof.
  cbv zeta. split.
  { rewrite replace_byte. intros (c & E & _)%list_elem_of_fmap. case_bool_decide; [done|congruence]. }
  unfold renderTelegramHTML, renderTelegramSegment.
  set (text := replace_all (replace_all input [CR; LF] [LF]) [CR] [LF]).
  destruct (render_loop_spec (length text) text) as (segs & H1 & H2 & H3); [done|].
  split; [|by exists segs]. rewrite H3. clear. induction segs as [|g segs IH]; [constructor|].
  by apply html_accepted.
Qed.

Example render_ex : renderTelegramHTML (lit "a<b **c** `d&e` [x](https://y) [z](file:f)")
  = lit "a&lt;b <b>c</b> <code>d&amp;e</code> <a href=" ++ quote ++ lit "https://y" ++ quote
    ++ lit ">x</a> [z](file:f)".
Proof. vm_compute. reflexivity. Qed.
