(* ===== verification/Delegation.v ===== *)
(** * Delegation: bounded executor contracts

    [internal/delegation/contract.go]: the validation of a contract, its
    authentication against the columns it is stored with, and the permission
    test.  A JSON column is what it unmarshals to, or [None] when it does not;
    [Limits] has the fields and the JSON names of [budget.Units]. *)
From Stdlib Require Import Ascii.
From S2P Require Import Prelude GoStrings GoBytes GoHash GoTime Budget.
Open Scope Z_scope.
Open Scope go_scope.

Definition ErrDenied : error :=
  ErrNew "delegation.ErrDenied" "delegation is stale or outside its bounded contract".

Record CredentialRef := mkCredRef { cr_alias : string; cr_field : string }.
#[global] Instance CredentialRef_eq_dec : EqDecision CredentialRef.
Proof. solve_decision. Defined.

Record SourceRef := mkSourceRef {
  sf_id : string; sf_revision : Z; sf_access_revision : Z; sf_hash : string }.

Record Permission := mkPermission {
  pm_tool : string;
  pm_contract_hash : string;
  pm_resources : list string;
  pm_effects : list string;
  pm_credentials : list CredentialRef;
}.

Record Contract := mkContract {
  ct_task_id : string;
  ct_root_task_id : string;
  ct_parent_task_id : string;
  ct_parent_revision : Z;
  ct_constraints_revision : Z;
  ct_revision : Z;
  ct_permissions : list Permission;
  ct_sources : list SourceRef;
  ct_contract_source : SourceRef;
  ct_budget : Units;
  ct_deadline : Z;
  ct_depth : Z;
  ct_state : string;
  ct_input_id : string;
}.

Definition NUL : ascii := "000".

(** [strings.ToLower(hash) != hash] on a string of hexadecimal digits: an
    upper-case letter. *)
Definition has_upper (s : string) : bool :=
  existsb (fun c => Z.leb 65 (byte_val c) && Z.leb (byte_val c) 90) (lit s).

Definition validHash (hash : string) : bool :=
  Z.eqb (go_len hash) 64 && hex_decodes hash && negb (has_upper hash).

(** Each loop keeps the set of the names already seen. *)
Fixpoint check_each {A K} `{EqDecision K} (key : A -> K) (bad : A -> bool) (seen : list K)
    (l : list A) : res unit :=
  match l with
  | [] => Ok tt
  | a :: l' =>
      fail_when bad a || bool_decide (key a ∈ seen) with ErrDenied ;;
      check_each key bad (key a :: seen) l'
  end.

Definition bad_resource (r : string) : bool :=
  bool_decide (r = "") || Z.ltb 2048 (go_len r) || ContainsAny r [NUL; CR; LF; "*"%char].

Definition bad_effect (e : string) : bool :=
  negb (bool_decide (e ∈ ["read"; "prepare"; "commit"; "unknown"])).

Definition bad_credential (r : CredentialRef) : bool :=
  bool_decide (cr_alias r = "") || Z.ltb 256 (go_len (cr_alias r))
  || bool_decide (cr_field r = "") || Z.ltb 128 (go_len (cr_field r))
  || ContainsAny (cr_alias r +:+ cr_field r) [NUL; CR; LF; "*"%char].

Definition bad_source (r : SourceRef) : bool :=
  bool_decide (sf_id r = "") || Z.ltb 512 (go_len (sf_id r)) || ContainsAny (sf_id r) [NUL; CR; LF]
  || Z.ltb (sf_revision r) 1 || Z.ltb (sf_access_revision r) 1 || negb (validHash (sf_hash r)).

Definition bad_permission (p : Permission) : bool :=
  bool_decide (pm_tool p = "") || Z.ltb 128 (go_len (pm_tool p))
  || ContainsAny (pm_tool p) [NUL; CR; LF; "*"; " "; "?"; "/"; "\"]%char
  || negb (validHash (pm_contract_hash p))
  || Nat.ltb (length (pm_resources p)) 1 || Nat.ltb 16 (length (pm_resources p))
  || Nat.ltb (length (pm_effects p)) 1 || Nat.ltb 4 (length (pm_effects p))
  || Nat.ltb 16 (length (pm_credentials p)).

(** The loop over the permissions. *)
Fixpoint check_permissions (seen : list string) (l : list Permission) : res unit :=
  match l with
  | [] => Ok tt
  | p :: l' =>
      fail_when bad_permission p || bool_decide (pm_tool p ∈ seen) with ErrDenied ;;
      _ <-! check_each id bad_resource [] (pm_resources p) ;;
      _ <-! check_each id bad_effect [] (pm_effects p) ;;
      _ <-! check_each id bad_credential [] (pm_credentials p) ;;
      check_permissions (pm_tool p :: seen) l'
  end.

(** [Validate]. *)
Definition Contract_Validate (c : Contract) (now : Z) : res unit :=
  fail_when bool_decide (ct_task_id c = "") || bool_decide (ct_parent_task_id c = "")
            || bool_decide (ct_root_task_id c = "")
            || bool_decide (ct_task_id c = ct_parent_task_id c)
            || bool_decide (ct_task_id c = ct_root_task_id c)
            || Z.ltb (ct_parent_revision c) 1 || Z.ltb (ct_constraints_revision c) 1
            || negb (Z.eqb (ct_revision c) 1) || Z.ltb (ct_depth c) 1 || Z.ltb 3 (ct_depth c)
            || negb (After (ct_deadline c) now) || After (ct_deadline c) (now + 24 * hour)
            || Nat.ltb 32 (length (ct_permissions c)) || Nat.ltb 64 (length (ct_sources c))
    with ErrDenied ;;
  _ <-! check_permissions [] (ct_permissions c) ;;
  _ <-! check_each sf_id bad_source [] (ct_sources c ++ [ct_contract_source c]) ;;
  fail_when existsb (fun v => Z.ltb v 0) (values (ct_budget c)) with ErrDenied ;;
  Ok tt.

(** A row of [task_delegations]. *)
Record delegation_row := mkDelegation {
  dg_contract : option Contract;
  dg_state : string;
  dg_input_id : string;
  dg_root_task_id : string;
  dg_parent_task_id : string;
  dg_parent_revision : Z;
  dg_constraints_revision : Z;
  dg_contract_revision : Z;
  dg_contract_source_id : string;
  dg_budget : option Units;
  dg_deadline : Z;
  dg_depth : Z;
  dg_created_at : Z;
}.

(** [LoadTx]: [None] is a task without a contract; the table may be absent,
    [fault] is the error of a query. *)
Definition LoadTx (fault : option error) (table : option (gmap string delegation_row)) (id : string) :
    res (option Contract) :=
  match fault with
  | Some e => Err e
  | None =>
      match t ← table; t !! id with
      | None => Ok None
      | Some row =>
          match dg_contract row, dg_budget row with
          | Some c, Some limits =>
              fail_when negb (is_ok (Contract_Validate c (dg_created_at row)))
                || negb (bool_decide (ct_task_id c = id))
                || negb (bool_decide (ct_root_task_id c = dg_root_task_id row))
                || negb (bool_decide (ct_parent_task_id c = dg_parent_task_id row))
                || negb (Z.eqb (ct_parent_revision c) (dg_parent_revision row))
                || negb (Z.eqb (ct_constraints_revision c) (dg_constraints_revision row))
                || negb (Z.eqb (ct_revision c) (dg_contract_revision row))
                || negb (bool_decide (sf_id (ct_contract_source c) = dg_contract_source_id row))
                || negb (bool_decide (ct_budget c = limits))
                || negb (Z.eqb (ct_depth c) (dg_depth row))
                || negb (Z.eqb (ct_deadline c) (dg_deadline row)) with ErrDenied ;;
              Ok (Some (mkContract (ct_task_id c) (ct_root_task_id c) (ct_parent_task_id c)
                    (ct_parent_revision c) (ct_constraints_revision c) (ct_revision c)
                    (ct_permissions c) (ct_sources c) (ct_contract_source c) (ct_budget c)
                    (ct_deadline c) (ct_depth c) (dg_state row) (dg_input_id row)))
          | _, _ => Err ErrDenied
          end
      end
  end.

(** [Allows]: the first permission for the call decides. *)
Fixpoint allows_loop (ps : list Permission) (tool hash resource effect : string)
    (refs : list CredentialRef) : bool :=
  match ps with
  | [] => false
  | p :: ps' =>
      if negb (bool_decide (pm_tool p = tool)) || negb (bool_decide (pm_contract_hash p = hash))
         || negb (bool_decide (resource ∈ pm_resources p))
         || negb (bool_decide (effect ∈ pm_effects p))
      then allows_loop ps' tool hash resource effect refs
      else forallb (fun r => bool_decide (r ∈ pm_credentials p)) refs
  end.

Definition Allows (c : option Contract) (tool hash resource effect : string)
    (refs : list CredentialRef) : bool :=
  match c with
  | None => true
  | Some c => allows_loop (ct_permissions c) tool hash resource effect refs
  end.

(** ** Permissions *)

Lemma check_permissions_ok seen ps : check_permissions seen ps = Ok tt ->
  NoDup (pm_tool <$> ps) /\ Forall (fun p => bad_permission p = false /\ pm_tool p ∉ seen) ps.
Proof.
  revert seen. induction ps as [|p ps IH]; intros seen; simpl; [by repeat constructor|].
  rewrite fail_if_Ok !res_bind_Ok. intros [Hp (? & _ & H)].
  apply res_bind_Ok in H as (? & _ & H). apply res_bind_Ok in H as (? & _ & H).
  apply orb_false_iff in Hp as [Hbad Hseen%bool_decide_eq_false].
  destruct (IH _ H) as [Hnd Hall]. rewrite Forall_forall in Hall. split.
  - constructor; [|done]. intros (q & E & Hq)%list_elem_of_fmap. destruct (Hall q Hq) as [_ Hn].
    apply Hn. rewrite -E. apply list_elem_of_here.
  - constructor; [done|]. apply Forall_forall. intros q Hq. destruct (Hall q Hq) as [? Hn].
    split; [done|]. intros Hin. apply Hn. by apply list_elem_of_further.
Qed.

(** One permission covers a call. *)
Definition covers (p : Permission) (tool hash resource effect : string) (refs : list CredentialRef) : Prop :=
  pm_tool p = tool /\ pm_contract_hash p = hash /\ resource ∈ pm_resources p
  /\ effect ∈ pm_effects p /\ Forall (fun r => r ∈ pm_credentials p) refs.

Lemma allows_loop_exact ps tool hash resource effect refs : NoDup (pm_tool <$> ps) ->
  allows_loop ps tool hash resource effect refs = true <->
  exists p, p ∈ ps /\ covers p tool hash resource effect refs.
Proof.
  induction ps as [|p ps IH]; csimpl.
  { intros _. split; [done|]. intros (p & Hp & _). by apply not_elem_of_nil in Hp. }
  intros [Hn Hnd]%NoDup_cons. destruct (_ || negb (bool_decide (effect ∈ _))) eqn:E.
  - rewrite (IH Hnd). split; intros (q & Hq & Hc); [exists q; split; [by apply list_elem_of_further|done]|].
    apply elem_of_cons in Hq as [->|Hq]; [|by exists q]. exfalso.
    destruct Hc as (H1 & H2 & H3 & H4 & _). revert E. by rewrite !bool_decide_true.
  - unbool. rewrite forallb_forall. split.
    + intros Hall. exists p. split; [apply list_elem_of_here|]. split_and!; try done.
      apply Forall_forall. intros r Hr%list_elem_of_In%Hall. by apply bool_decide_eq_true in Hr.
    + intros (q & Hq & Hc) r Hr%list_elem_of_In. apply bool_decide_eq_true.
      destruct Hc as (Htool & _ & _ & _ & Hrefs). rewrite Forall_forall in Hrefs.
      apply elem_of_cons in Hq as [->|Hq]; [by apply Hrefs|]. exfalso. apply Hn.
      apply list_elem_of_fmap. exists q. split; [congruence|done].
Qed.

(** Delegated authority is exact.  Under a validated contract a call is
    allowed exactly when one of its permissions names that tool, that
    contract hash, that resource, that effect and every credential used;
    nothing is allowed by a pattern, since an allowed tool name has no
    wildcard, space or path character, and the effect is one of the four
    known ones. *)
Theorem Allows_exact (c : Contract) (now : Z) (tool hash resource effect : string)
    (refs : list CredentialRef) :
  Contract_Validate c now = Ok tt ->
  (Allows (Some c) tool hash resource effect refs = true <->
   exists p, p ∈ ct_permissions c /\ covers p tool hash resource effect refs)
  /\ (Allows (Some c) tool hash resource effect refs = true ->
      ContainsAny tool [NUL; CR; LF; "*"; " "; "?"; "/"; "\"]%char = false
      /\ validHash hash = true).
Proof.
  unfold Contract_Validate. intros H. apply fail_if_Ok in H as [_ H].
  apply res_bind_Ok in H as ([] & Hps & _). apply check_permissions_ok in Hps as [Hnd Hall].
  assert (Hiff := allows_loop_exact (ct_permissions c) tool hash resource effect refs Hnd).
  split; [exact Hiff|]. intros (p & Hp & <- & <- & _)%Hiff.
  rewrite Forall_forall in Hall. destruct (Hall p Hp) as [Hbad _]. unfold bad_permission in Hbad.
  by unbool.
Qed.

Definition hash_ex : string := "00000000000000000000000000000000000000000000000000000000000000ff".
Definition contract_ex : Contract :=
  mkContract "child" "root" "parent" 1 1 1
    [mkPermission "http.get" hash_ex ["https://example.org"] ["read"] [mkCredRef "mail" "password"]] []
    (mkSourceRef "contract" 1 1 hash_ex) zero_units 1000 1 "ready" "".

Lemma Allows_exact_witness :
  Allows (Some contract_ex) "http.get" hash_ex "https://example.org" "read" [] = true
  /\ Allows (Some contract_ex) "http.get" hash_ex "https://example.org" "read" [mkCredRef "mail" "otp"] = false
  /\ exists p, p ∈ ct_permissions contract_ex
     /\ covers p "http.get" hash_ex "https://example.org" "read" [].
Proof.
  assert (E : Allows (Some contract_ex) "http.get" hash_ex "https://example.org" "read" [] = true)
    by (vm_compute; reflexivity).
  split; [exact E|]. split; [vm_compute; reflexivity|].
  apply (Allows_exact contract_ex 10); [vm_compute; reflexivity|exact E].
Defined.
