(* ===== verification/Admission.v ===== *)
(** * Admission: budget admission of model calls and child tasks

    [internal/budget/controller.go]: which scopes an execution is charged to
    ([scopeSpecsTx], [scopesTx]), the admission of a model call
    ([AdmitModel]), of a child task ([ReserveChildTx]) and the deadline of a
    claimed tool ([ToolDeadline]).  The tables the controller reads and
    writes are the record [adm_db]; the resolver of assigned authority, which
    the owning adapter installs, is a parameter. *)
From stdpp Require Import sorting.
From S2P Require Import Prelude GoStrings GoHash GoTime Ownership Lease Run Session Budget Delegation.
Open Scope Z_scope.
Open Scope go_scope.

(** ** The database *)

Record task_row := mkTask {
  ta_parent_task_id : option string;
  ta_owner_id : string;
  ta_created_at : Z;
  ta_session_key : string;
  ta_revision : Z;
  ta_status : string;
}.

Record input_row := mkInput {
  in_input_id : string;
  in_run_id : string;
  in_owner_id : string;
  in_session_key : string;
  in_communication_ingress_epoch : Z;
  in_context_epoch : Z;
  in_accepted_at : Z;
}.

Record mandate_row := mkMandateRow {
  mr_owner_id : string;
  mr_expires_at : Z;
  mr_revoked_at : option Z;
}.

Record adm_db := mkAdmDb {
  ad_runs : gmap string RunRow;
  ad_sessions : session_table;
  ad_tasks : gmap string task_row;
  ad_ownership : ownership_table;
  ad_inputs : list input_row;
  ad_mandates : gmap string mandate_row;
  ad_delegations : option (gmap string delegation_row);
  ad_ledger : ledger;
  ad_attempts : gmap string attempt_row;
}.

Definition set_ledger (db : adm_db) (lg : ledger) : adm_db :=
  mkAdmDb (ad_runs db) (ad_sessions db) (ad_tasks db) (ad_ownership db) (ad_inputs db)
    (ad_mandates db) (ad_delegations db) lg (ad_attempts db).

Definition set_attempts (db : adm_db) (at_ : gmap string attempt_row) : adm_db :=
  mkAdmDb (ad_runs db) (ad_sessions db) (ad_tasks db) (ad_ownership db) (ad_inputs db)
    (ad_mandates db) (ad_delegations db) (ad_ledger db) at_.

(** A task and its ancestors, nearest first, as the recursive queries walk
    them; a chain has no more tasks than there are. *)
Fixpoint ancestors (fuel : nat) (tasks : gmap string task_row) (id : string) :
    list (string * task_row) :=
  match fuel with
  | O => []
  | S fuel' =>
      match tasks !! id with
      | None => []
      | Some t =>
          (id, t) :: match ta_parent_task_id t with
                     | None => []
                     | Some parent => ancestors fuel' tasks parent
                     end
      end
  end.

Definition task_chain (db : adm_db) (id : string) : list (string * task_row) :=
  ancestors (size (ad_tasks db)) (ad_tasks db) id.

Definition root_of (db : adm_db) (id : string) : option (string * task_row) :=
  head (filter (fun kt => ta_parent_task_id kt.2 = None) (task_chain db id)).

Definition one_row {A} (o : option A) : res A :=
  match o with Some a => Ok a | None => Err ErrNoRows end.

Section controller.
(** The policy and the installed resolver, which reads the database at an
    instant for a task and its owner. *)
Context (policy : Policy).
Context (resolveAuthority : option (Z -> adm_db -> string -> string -> res MandateScope)).

(** ** Scopes *)

(** The scope of a task, or of a conversation outside any task. *)
Definition task_spec (owner root : string) (created : Z) : ScopeSpec :=
  mkSpec "task" owner root (po_task policy)
    (created + wrap64 (po_task_lifetime_millis policy * millisecond)).

Definition conversation_spec (db : adm_db) (now : Z) (runID owner session : string) : ScopeSpec :=
  let day := Truncate now day_length in
  match head (filter (fun i => in_run_id i = runID /\ in_owner_id i = owner
                /\ in_session_key i = session /\ in_communication_ingress_epoch i = 1
                /\ in_context_epoch i = 1) (ad_inputs db)) with
  | Some i => mkSpec "conversation" owner ("input:" +:+ in_input_id i) (po_conversation policy)
                (in_accepted_at i + day_length)
  | None => mkSpec "conversation" owner (session +:+ ":" +:+ format_day day)
              (po_conversation policy) (day + day_length)
  end.

(** The assigned mandate, [None] when there is none. *)
Definition assigned_mandate (inference : bool) (now : Z) (db : adm_db) (taskID owner : string) :
    res (option MandateScope) :=
  match resolveAuthority with
  | None => Ok None
  | Some resolve =>
      a <-! resolve now db taskID owner ;;
      if bool_decide (md_id a = "") then Ok None else
      fail_when negb (bool_decide (md_owner_id a = owner)) with ErrConflict ;;
      fail_when inference && negb (bool_decide (md_privacy a = "cloud_allowed"))
        with loop_error "mandate_model_privacy" ;;
      Ok (Some a)
  end.

Definition mandate_specs (db : adm_db) (owner mandateID : string) (assigned : option MandateScope) :
    res (list ScopeSpec) :=
  match assigned with
  | Some a => Ok [mandate_spec owner a]
  | None =>
      if bool_decide (mandateID = "") then Ok [] else
      row <-! one_row (m ← ad_mandates db !! mandateID;
                       if bool_decide (mr_revoked_at m = None) then Some m else None) ;;
      fail_when negb (bool_decide (owner = mr_owner_id row)) with ErrConflict ;;
      Ok [mkSpec "mandate" owner mandateID (po_mandate policy) (mr_expires_at row)]
  end.

(** The delegations of a task and its ancestors, by task. *)
Definition key_le (a b : string * delegation_row) : Prop := string_le a.1 b.1.
#[global] Instance key_le_dec a b : Decision (key_le a b).
Proof. unfold key_le. apply _. Defined.

Definition delegations_of (db : adm_db) (taskID : string) : list (string * delegation_row) :=
  merge_sort key_le
    (omap (fun kt => d ← (t ← ad_delegations db; t !! kt.1); Some (kt.1, d)) (task_chain db taskID)).

Fixpoint delegation_rows (owner : string) (rows : list (string * delegation_row)) :
    res (list ScopeSpec) :=
  match rows with
  | [] => Ok []
  | (id, d) :: rows' =>
      match dg_budget d with
      | None => Err ErrInvalid
      | Some limits =>
          fail_when negb (is_ok (units_validate limits)) with ErrInvalid ;;
          rest <-! delegation_rows owner rows' ;;
          Ok (mkSpec "delegation" owner id limits (dg_deadline d) :: rest)
      end
  end.

Definition delegation_specs (db : adm_db) (taskID owner : string) : res (list ScopeSpec) :=
  if bool_decide (taskID = "") then Ok [] else
  branch <-! LoadTx None (ad_delegations db) taskID ;;
  match branch with
  | None => Ok []
  | Some _ => delegation_rows owner (delegations_of db taskID)
  end.

(** The owner and task of the run, or of the given task. *)
Definition run_identity (db : adm_db) (runID taskID : string) : res (string * string * string) :=
  if bool_decide (runID = "") then Ok ("", "", taskID) else
  one_row (r ← ad_runs db !! runID; s ← ad_sessions db !! rr_session_key r;
           Some (sr_user_id s, rr_session_key r, default "" (rr_task_id r))).

(** [scopeSpecsTx]. *)
Definition scopeSpecsTx (inference : bool) (fault : option error) (now : Z) (db : adm_db)
    (runID taskID mandateID : string) : res (string * list ScopeSpec) :=
  match fault with
  | Some e => Err e
  | None =>
      ids <-! run_identity db runID taskID ;;
      let '(owner, session, taskID) := ids in
      first <-! (if bool_decide (taskID = "") then
                   fail_when bool_decide (owner = "") with ErrInvalid ;;
                   Ok (owner, None, conversation_spec db now runID owner session)
                 else
                   root <-! one_row (root_of db taskID) ;;
                   let owner := ta_owner_id root.2 in
                   assigned <-! assigned_mandate inference now db taskID owner ;;
                   Ok (owner, assigned, task_spec owner root.1 (ta_created_at root.2))) ;;
      let '(owner, assigned, spec) := first in
      mandates <-! mandate_specs db owner mandateID assigned ;;
      let days := if po_disable_owner_day policy then [] else [owner_day_spec policy owner now] in
      delegations <-! delegation_specs db taskID owner ;;
      Ok (owner, merge_sort (spec_le owner) (spec :: mandates ++ days ++ delegations))
  end.

(** [scopesTx]: create the missing scopes in order. *)
Fixpoint ensure_all (specs : list ScopeSpec) (lg : ledger) : ledger * res (list string) :=
  match specs with
  | [] => (lg, Ok [])
  | spec :: specs' =>
      match EnsureTx None spec lg with
      | (lg', Err e) => (lg', Err e)
      | (lg', Ok s) =>
          match ensure_all specs' lg' with
          | (lg'', Err e) => (lg'', Err e)
          | (lg'', Ok ids) => (lg'', Ok (sc_id s :: ids))
          end
      end
  end.

Definition scopesTx (inference : bool) (fault : option error) (now : Z) (db : adm_db)
    (runID taskID mandateID : string) : ledger * res (string * list string) :=
  match scopeSpecsTx inference fault now db runID taskID mandateID with
  | Err e => (ad_ledger db, Err e)
  | Ok (owner, specs) =>
      match ensure_all specs (ad_ledger db) with
      | (lg, Err e) => (lg, Err e)
      | (lg, Ok ids) => (lg, Ok (owner, ids))
      end
  end.

(** [ReserveChildTx]; [later] is the instant of the second authority check. *)
Definition ReserveChildTx (fault rfault : option error) (now created at_ later : Z) (db : adm_db)
    (parentID mandateID childID : string) : adm_db * res unit :=
  match scopesTx false fault now db "" parentID mandateID with
  | (lg, Err e) => (set_ledger db lg, Err e)
  | (lg, Ok (owner, ids)) =>
      match ReserveTx (po_disable_conversation_model_turns policy) rfault created at_
              (mkRequest owner ("child:" +:+ childID) ids (mkUnits 0 0 0 0 1 0 0 0) true) lg with
      | (lg', Err e) => (set_ledger db lg', Err e)
      | (lg', Ok _) =>
          let db' := set_ledger db lg' in
          match resolveAuthority with
          | None => (db', Ok tt)
          | Some resolve => (db', _ <-! resolve later db' parentID owner ;; Ok tt)
          end
      end
  end.

(** ** Model calls *)

Record ModelAdmission := mkAdmission {
  am_operation_id : string;
  am_deadline : Z;
  am_model_turn_limited : bool;
  am_output_tokens : Z;
  am_reservation_id : string;
}.

(** One call: the token of the context, the random part of the operation, the
    instants its statements read, and the errors of the transaction, of the
    reservation, of the insert or commit, and of the reads that follow. *)
Record adm_call := mkAdmCall {
  ac_token : option Token;
  ac_random : option string;
  ac_now : Z;
  ac_scopes_now : Z;
  ac_created : Z;
  ac_charge_now : Z;
  ac_later : Z;
  ac_begin : option error;
  ac_scopes_fault : option error;
  ac_reserve_fault : option error;
  ac_commit_fault : option error;
  ac_get_fault : option error;
}.

(** The states that an admission refuses; [timed_out] is not among them. *)
Definition closed_states : list string := ["completed"; "failed"; "cancelled"; "finalizing"].

(** The checks under the ownership row: the run, its session and its task. *)
Definition admission_checks (db : adm_db) (tok : Token) (runID : string) : res string :=
  run <-! one_row (ad_runs db !! runID) ;;
  fail_when negb (bool_decide (rr_session_key run = tok_session_key tok))
            || bool_decide (rr_current_state run ∈ closed_states) with ErrConflict ;;
  let taskID := default "" (rr_task_id run) in
  if bool_decide (taskID = "") then Ok taskID else
  task <-! one_row (ad_tasks db !! taskID) ;;
  fail_when negb (Z.eqb (ta_revision task) (default 0 (rr_task_revision run)))
            || negb (bool_decide (ta_status task = "active")) with ErrConflict ;;
  Ok taskID.

(** The authority bound of the assignment, the zero time when there is none. *)
Definition authority_deadline (later : Z) (db : adm_db) (taskID owner : string) : res Z :=
  if bool_decide (taskID = "") then Ok zero_time else
  match resolveAuthority with
  | None => Ok zero_time
  | Some resolve => a <-! resolve later db taskID owner ;; Ok (md_authority_deadline a)
  end.

(** The loop that lowers the deadline to that of each scope. *)
Fixpoint scope_deadlines (lg : ledger) (ids : list string) (deadline : Z) (limited : bool) :
    res (Z * bool) :=
  match ids with
  | [] => Ok (deadline, limited)
  | id :: ids' =>
      s <-! scanScope lg id ;;
      if negb (After (ss_deadline (sc_spec s)) deadline)
      then scope_deadlines lg ids' (ss_deadline (sc_spec s)) false
      else scope_deadlines lg ids' deadline limited
  end.

(** Everything before the commit: the transaction's database, and what the
    call goes on with. *)
Definition admit_tx (c : adm_call) (db : adm_db) (runID mandateID : string) (op : string)
    (charge : Units) (inputTokens : Z) : adm_db * res (Reservation * list string * Z) :=
  match ac_token c with
  | None => (db, Err (Errorf "model admission requires trusted live ownership"))
  | Some tok =>
      if negb (bool_decide (tok_run_id tok = runID))
      then (db, Err (Errorf "model admission requires trusted live ownership")) else
      match ac_begin c with
      | Some e => (db, Err e)
      | None =>
          if negb (fence_valid (ad_ownership db) (ac_now c) tok)
          then (db, Err (Errorf "model authority expired")) else
          match admission_checks db tok runID with
          | Err e => (db, Err e)
          | Ok taskID =>
              match scopesTx true (ac_scopes_fault c) (ac_scopes_now c) db runID "" mandateID with
              | (lg, Err e) => (set_ledger db lg, Err e)
              | (lg, Ok (owner, ids)) =>
                  match ReserveTx (po_disable_conversation_model_turns policy) (ac_reserve_fault c)
                          (ac_created c) (ac_charge_now c) (mkRequest owner op ids charge true) lg with
                  | (lg', Err e) => (set_ledger db lg', Err e)
                  | (lg', Ok (r, _)) =>
                      let db' := set_ledger db lg' in
                      match authority_deadline (ac_later c) db' taskID owner with
                      | Err e => (db', Err e)
                      | Ok bound =>
                          if bool_decide (is_Some (ad_attempts db !! op)) then (db', Err err_unique)
                          else
                            (set_attempts db'
                               (<[op := mkAttempt runID (rv_id r) inputTokens (po_output_tokens policy)
                                          None None None]> (ad_attempts db)),
                             Ok (r, ids, bound))
                      end
                  end
              end
          end
      end
  end.

(** [AdmitModel]: an error before the commit rolls everything back. *)
Definition AdmitModel (c : adm_call) (db : adm_db) (runID mandateID provider model : string)
    (inputTokens : Z) : adm_db * res ModelAdmission :=
  match ModelQuote policy provider model inputTokens with
  | Err e => (db, Err e)
  | Ok charge =>
      match ac_random c with
      | None => (db, Err (Errorf "crypto/rand: read failed"))
      | Some random =>
          let op := "operation_" +:+ random in
          match admit_tx c db runID mandateID op charge inputTokens with
          | (_, Err e) => (db, Err e)
          | (db', Ok (r, ids, bound)) =>
              match ac_commit_fault c with
              | Some e => (db, Err e)
              | None =>
                  let deadline := rv_created_at r + wrap64 (po_model_millis policy * millisecond) in
                  let '(deadline, limited) :=
                    if negb (IsZero bound) && negb (After bound deadline)
                    then (bound, false) else (deadline, true) in
                  match ac_get_fault c with
                  | Some e => (db', Err e)
                  | None =>
                      (db',
                       d <-! scope_deadlines (ad_ledger db') ids deadline limited ;;
                       Ok (mkAdmission op d.1 d.2 (po_output_tokens policy) (rv_id r)))
                  end
              end
          end
      end
  end.

(** [ToolDeadline]. *)
Definition ToolDeadline (db : adm_db) (ownerID effectID : string) : res Z :=
  row <-! one_row (find_reservation (ad_ledger db) ownerID ("effect:" +:+ effectID)) ;;
  match reserved_scopes (ad_ledger db) false row with
  | [] => Err ErrNoRows
  | scopes => Ok (least_deadline (rs_created_at row + po_tool_millis policy * millisecond) scopes)
  end.

End controller.

(** ** Every applicable budget is charged *)

Section scope_proofs.
Context (policy : Policy).
Context (resolve : option (Z -> adm_db -> string -> string -> res MandateScope)).

Lemma delegation_rows_elem owner rows specs id d :
  delegation_rows owner rows = Ok specs -> (id, d) ∈ rows ->
  exists limits, dg_budget d = Some limits
    /\ mkSpec "delegation" owner id limits (dg_deadline d) ∈ specs.
Proof.
  revert specs. induction rows as [|[id' d'] rows IH]; intros specs; simpl.
  { intros _ H. by apply not_elem_of_nil in H. }
  destruct (dg_budget d') as [limits|] eqn:E; [|done].
  rewrite fail_if_Ok res_bind_Ok. intros [_ (rest & Hr & [= <-])] Hin.
  apply elem_of_cons in Hin as [[= -> ->]|Hin].
  - exists limits. split; [done|apply list_elem_of_here].
  - destruct (IH rest Hr Hin) as (l & E' & Hl). exists l. split; [done|by apply list_elem_of_further].
Qed.

Lemma delegation_rows_owner owner rows specs : delegation_rows owner rows = Ok specs ->
  Forall (fun s => ss_owner_id s = owner) specs.
Proof.
  revert specs. induction rows as [|[id d] rows IH]; intros specs; simpl; [by intros [= <-]|].
  destruct (dg_budget d); [|done]. rewrite fail_if_Ok res_bind_Ok. intros [_ (rest & Hr & [= <-])].
  constructor; [done|by apply IH].
Qed.

Lemma delegations_of_elem db taskID id t tbl d :
  (id, t) ∈ task_chain db taskID -> ad_delegations db = Some tbl -> tbl !! id = Some d ->
  (id, d) ∈ delegations_of db taskID.
Proof.
  intros Hin Ht Hd. unfold delegations_of. rewrite merge_sort_Permutation.
  apply list_elem_of_omap. exists (id, t). split; [done|]. simpl. by rewrite Ht /= Hd.
Qed.

(** The parts of an answer of [scopeSpecsTx]. *)
Lemma scopeSpecsTx_ok inference now db runID mandateID owner specs :
  scopeSpecsTx policy resolve inference None now db runID "" mandateID = Ok (owner, specs) ->
  exists ids mandates delegations spec assigned,
    run_identity db runID "" = Ok ids
    /\ mandate_specs policy db owner mandateID assigned = Ok mandates
    /\ delegation_specs db ids.2 owner = Ok delegations
    /\ specs ≡ₚ spec :: mandates
         ++ (if po_disable_owner_day policy then [] else [owner_day_spec policy owner now])
         ++ delegations
    /\ StronglySorted (spec_le owner) specs
    /\ if bool_decide (ids.2 = "")
       then owner = ids.1.1 /\ owner <> "" /\ spec = conversation_spec policy db now runID owner ids.1.2
            /\ assigned = None
       else exists root, root_of db ids.2 = Some root /\ owner = ta_owner_id root.2
            /\ assigned_mandate resolve inference now db ids.2 owner = Ok assigned
            /\ spec = task_spec policy owner root.1 (ta_created_at root.2).
Proof.
  unfold scopeSpecsTx. rewrite res_bind_Ok. intros ([[o session] taskID] & Hid & H).
  apply res_bind_Ok in H as ([[o' assigned] spec] & Hfirst & H).
  apply res_bind_Ok in H as (mandates & Hm & H). cbv zeta in H.
  apply res_bind_Ok in H as (delegations & Hd & [= <- <-]).
  exists (o, session, taskID), mandates, delegations, spec, assigned. cbn [fst snd].
  assert (Htrans : Transitive (spec_le o')) by (intros a b c; unfold spec_le; apply string_le_trans).
  assert (Htotal : Total (spec_le o')) by (intros a b; unfold spec_le; apply string_le_total).
  split_and!; try done; [apply merge_sort_Permutation|by apply StronglySorted_merge_sort|].
  case_bool_decide as E.
  - apply fail_if_Ok in Hfirst as [Hne [= -> <- <-]]. apply bool_decide_eq_false in Hne. done.
  - apply res_bind_Ok in Hfirst as (root & Hr & Hfirst). cbv zeta in Hfirst.
    apply res_bind_Ok in Hfirst as (a & Ha & Heq).
    injection Heq as Eo Ea Es. subst o' a spec. exists root. unfold one_row in Hr.
    destruct (root_of db taskID); [|done]. by injection Hr as ->.
Qed.

End scope_proofs.

(** No admitted work escapes a budget.  The scopes resolved for a run all
    belong to one owner, are in the one order in which every admission locks
    them, and include: the owner's day unless the operator disabled it; the
    scope of the root task of the run's task, whose owner is the one charged,
    or else the conversation of the session's user; a mandate scope whenever
    a mandate is assigned or named; and, for a delegated task, a scope for
    every delegation up the chain to the root, with its own limits. *)
Theorem scopes_complete (policy : Policy)
    (resolve : option (Z -> adm_db -> string -> string -> res MandateScope)) (inference : bool)
    (now : Z) (db : adm_db) (runID mandateID owner : string) (specs : list ScopeSpec)
    (run : RunRow) (session : SessionRecord) :
  ad_runs db !! runID = Some run -> runID <> "" ->
  ad_sessions db !! rr_session_key run = Some session ->
  scopeSpecsTx policy resolve inference None now db runID "" mandateID = Ok (owner, specs) ->
  let taskID := default "" (rr_task_id run) in
  StronglySorted (spec_le owner) specs
  /\ Forall (fun s => ss_owner_id s = owner) specs
  /\ (po_disable_owner_day policy = false -> owner_day_spec policy owner now ∈ specs)
  /\ (taskID = "" -> owner = sr_user_id session
      /\ conversation_spec policy db now runID owner (rr_session_key run) ∈ specs)
  /\ (taskID <> "" -> exists root, root_of db taskID = Some root /\ owner = ta_owner_id root.2
      /\ task_spec policy owner root.1 (ta_created_at root.2) ∈ specs)
  /\ (mandateID <> "" -> exists spec, spec ∈ specs /\ ss_kind spec = "mandate")
  /\ (taskID <> "" -> forall branch tbl id t d,
      LoadTx None (ad_delegations db) taskID = Ok (Some branch) -> ad_delegations db = Some tbl ->
      (id, t) ∈ task_chain db taskID -> tbl !! id = Some d ->
      exists limits, dg_budget d = Some limits
        /\ mkSpec "delegation" owner id limits (dg_deadline d) ∈ specs).
Proof.
  intros Hrun Hne Hses H. cbv zeta.
  apply scopeSpecsTx_ok in H as (ids & mandates & delegations & spec & assigned & Hid & Hm & Hd & Hp & Hs & Hc).
  unfold run_identity in Hid. rewrite (bool_decide_false _ Hne) Hrun /= Hses /= in Hid.
  injection Hid as <-. cbn [fst snd] in *.
  set (taskID := default "" (rr_task_id run)) in *.
  assert (Hmand : Forall (fun s => ss_owner_id s = owner /\ ss_kind s = "mandate") mandates
    /\ (mandateID <> "" -> mandates <> [])).
  { unfold mandate_specs in Hm. destruct assigned as [a|].
    { injection Hm as <-. split; [by apply Forall_singleton|done]. }
    destruct (decide (mandateID = "")) as [Em|Em].
    { rewrite (bool_decide_true _ Em) in Hm. injection Hm as <-. by split. }
    rewrite (bool_decide_false _ Em) in Hm.
    apply res_bind_Ok in Hm as (row & _ & Hm). apply fail_if_Ok in Hm as [_ [= <-]].
    split; [by apply Forall_singleton|done]. }
  assert (Hdel : Forall (fun s => ss_owner_id s = owner) delegations).
  { clear Hc. unfold delegation_specs in Hd. case_bool_decide; [by injection Hd as <-|].
    apply res_bind_Ok in Hd as (b & _ & Hd). destruct b; [|by injection Hd as <-].
    by apply delegation_rows_owner in Hd. }
  assert (Hin : forall x, x ∈ specs <-> x = spec \/ x ∈ mandates
    \/ x ∈ (if po_disable_owner_day policy then [] else [owner_day_spec policy owner now])
    \/ x ∈ delegations).
  { intros x. rewrite Hp elem_of_cons !elem_of_app. tauto. }
  assert (Hspec : ss_owner_id spec = owner).
  { case_bool_decide; [destruct Hc as (_ & _ & -> & _)|by destruct Hc as (root & _ & _ & _ & ->)].
    unfold conversation_spec. cbv zeta. by destruct (head _). }
  destruct Hmand as [Hmo Hmn]. split_and!; try done.
  - apply Forall_forall. intros x Hx%Hin. rewrite Forall_forall in Hmo. rewrite Forall_forall in Hdel.
    destruct Hx as [->|[Hx|[Hx|Hx]]]; [done|by apply Hmo| |by apply Hdel].
    destruct (po_disable_owner_day policy); [by apply not_elem_of_nil in Hx|].
    apply list_elem_of_singleton in Hx as ->. done.
  - intros E. apply Hin. rewrite E. right; right; left. apply list_elem_of_here.
  - intros E. rewrite (bool_decide_true _ E) in Hc. destruct Hc as (Eo & _ & Es & _).
    split; [exact Eo|]. apply Hin. by left.
  - intros E. rewrite (bool_decide_false _ E) in Hc. destruct Hc as (root & Hr & Ho & _ & Es).
    exists root. split_and!; try done. apply Hin. by left.
  - intros E. specialize (Hmn E). destruct mandates as [|m ms]; [done|]. exists m.
    apply Forall_cons in Hmo as [[_ Hk] _]. split; [|done]. apply Hin. right; left. apply list_elem_of_here.
  - intros E branch tbl id t d Hload Ht Hchain Hlook. unfold delegation_specs in Hd.
    rewrite (bool_decide_false _ E) Hload /= in Hd.
    pose proof (delegations_of_elem _ _ _ _ _ _ Hchain Ht Hlook) as Hrow.
    destruct (delegation_rows_elem _ _ _ _ _ Hd Hrow) as (limits & El & Hl).
    exists limits. split; [done|]. apply Hin. by right; right; right.
Qed.

Definition run_ex (task : option string) : RunRow :=
  mkRunRow "s" "event" None "running" "mode_1" "model_running" "openai" None (Some "lease") None 0 0 None
    None None "{}" task None.
Definition adm_session_ex : SessionRecord := mkSession "sid" "s" "owner" "web" "{}" "" 0 0.
Definition adm_policy_ex : Policy :=
  let u := mkUnits 64 67108864 1000000000 128 8 3600000 134217728 268435456 in
  mkPolicy false false u u u u 604800000 120000 120000 8192
    {["openai:gpt" := mkPrice "operator_rate" 3 12]} 3 4194304 8388608.
Definition adm_db_ex : adm_db :=
  mkAdmDb {["r" := run_ex None]} {["s" := adm_session_ex]} ∅
    {["s" := mkOwnership "lease" "r" "worker" 7 0 100000]} [] ∅ None empty_ledger ∅.

Lemma scopes_complete_witness : exists specs,
  scopeSpecsTx adm_policy_ex None true None 50 adm_db_ex "r" "" "" = Ok ("owner", specs)
  /\ owner_day_spec adm_policy_ex "owner" 50 ∈ specs.
Proof.
  assert (E : exists specs,
    scopeSpecsTx adm_policy_ex None true None 50 adm_db_ex "r" "" "" = Ok ("owner", specs))
    by (eexists; vm_compute; reflexivity).
  destruct E as [specs E]. exists specs. split; [exact E|].
  apply (scopes_complete adm_policy_ex None true 50 adm_db_ex "r" "" "owner" specs (run_ex None)
    adm_session_ex); [reflexivity|done|reflexivity|exact E|reflexivity].
Defined.

(** ** Admitted model calls *)

Lemma EnsureTx_Ok disable spec lg lg' s : EnsureTx None spec lg = (lg', Ok s) ->
  budget_apply disable lg (OpEnsure None None spec) = lg'
  /\ lg_scopes lg' !! ScopeID (ss_kind spec) (ss_owner_id spec) (ss_subject_id spec) = Some s
  /\ ss_deadline (sc_spec s) = Truncate (ss_deadline spec) microsecond.
Proof.
  intros H. split; [unfold budget_apply, Ensure; by rewrite H|].
  unfold EnsureTx in H. destruct (validateScope spec); [|done].
  apply pair_equal_spec in H as [<- H]. apply res_bind_Ok in H as (s' & Hs & H).
  apply fail_if_Ok in H as [Hg [= ->]]. unbool. unfold scanScope in Hs.
  destruct (lg_scopes _ !! _); [|done]. by injection Hs as ->.
Qed.

Definition spec_id (spec : ScopeSpec) : string :=
  ScopeID (ss_kind spec) (ss_owner_id spec) (ss_subject_id spec).

Lemma ensure_all_ok disable specs lg lg' ids :
  Forall (fun spec => units_int64 (ss_limits spec)) specs -> ledger_ok disable lg ->
  ensure_all specs lg = (lg', Ok ids) ->
  lg' = budget_history disable (OpEnsure None None <$> specs) lg
  /\ lg_reservations lg' = lg_reservations lg
  /\ ids = spec_id <$> specs
  /\ Forall (fun spec => exists s, lg_scopes lg' !! spec_id spec = Some s
       /\ ss_deadline (sc_spec s) = Truncate (ss_deadline spec) microsecond) specs.
Proof.
  intros Ht. revert lg lg' ids. induction Ht as [|spec specs Hspec Hspecs IH]; intros lg lg' ids Hok; csimpl.
  { by intros [= <- <-]. }
  destruct (EnsureTx None spec lg) as [lg1 [s|]] eqn:E1; [|done].
  destruct (ensure_all specs lg1) as [lg2 [ids'|]] eqn:E2; [|done]. intros [= <- <-].
  destruct (EnsureTx_Ok disable _ _ _ _ E1) as (Ha & Hs & Hd).
  assert (Hok1 : ledger_ok disable lg1) by (rewrite -Ha; by apply ledger_ok_apply).
  destruct (IH _ _ _ Hok1 E2) as (Hlg & Hr & Hids & Hall).
  assert (Hres : lg_reservations lg1 = lg_reservations lg).
  { rewrite -Ha. cbn [budget_apply]. destruct (Ensure_cases None None spec lg) as [->|(_ & _ & ->)]; done. }
  split_and!; [by rewrite Hlg -Ha|congruence| |].
  - rewrite Hids. f_equal. exact (so_key _ _ _ _ (proj1 Hok1 _ _ Hs)).
  - constructor; [|done].
    assert (Htyped : Forall op_typed (OpEnsure None None <$> specs)) by (by apply Forall_fmap).
    destruct (budget_history_grows disable _ lg1 Htyped Hok1) as [_ Hg].
    destruct (Hg _ _ Hs) as (s' & Es & Gs & _). rewrite Hlg. exists s'. split; [exact Es|by rewrite Gs].
Qed.

Lemma scope_deadlines_ok lg ids deadline limited :
  Forall (fun id => is_Some (lg_scopes lg !! id)) ids ->
  exists d b, scope_deadlines lg ids deadline limited = Ok (d, b) /\ d <= deadline
    /\ (b = true -> limited = true /\ d = deadline)
    /\ Forall (fun id => forall s, lg_scopes lg !! id = Some s -> d <= ss_deadline (sc_spec s)) ids.
Proof.
  intros Hids. revert deadline limited. induction Hids as [|id ids [s Hs] _ IH]; intros deadline limited; simpl.
  { exists deadline, limited. split_and!; try done; try lia. }
  unfold scanScope. rewrite Hs /=. unfold After.
  destruct (Z.ltb_spec deadline (ss_deadline (sc_spec s))) as [Hlt|Hge]; simpl.
  - destruct (IH deadline limited) as (d & b & E & Hd & Hb & Hall). exists d, b.
    split_and!; try done. constructor; [|done]. intros s'. rewrite Hs. intros [= <-]. lia.
  - destruct (IH (ss_deadline (sc_spec s)) false) as (d & b & E & Hd & Hb & Hall). exists d, b.
    split_and!; try done; try lia; [intros Hbt; by destruct (Hb Hbt)|].
    constructor; [|done]. intros s'. rewrite Hs. by intros [= <-].
Qed.

(** ** Values that are 64-bit integers *)

Definition policy_typed (p : Policy) : Prop :=
  Forall units_int64 [po_task p; po_mandate p; po_day p; po_conversation p]
  /\ in_int64 (po_model_millis p) /\ in_int64 (po_model_input_bytes p).

Definition delegations_typed (db : adm_db) : Prop :=
  forall tbl id d limits, ad_delegations db = Some tbl -> tbl !! id = Some d ->
  dg_budget d = Some limits -> units_int64 limits.

Definition resolver_typed (resolve : option (Z -> adm_db -> string -> string -> res MandateScope)) : Prop :=
  forall f now db task owner a, resolve = Some f -> f now db task owner = Ok a -> units_int64 (md_limits a).

Lemma ModelQuote_typed p provider model n u : policy_typed p ->
  ModelQuote p provider model n = Ok u -> units_int64 u.
Proof.
  intros (_ & Hm & Hi). unfold ModelQuote. destruct (po_models p !! _); [|done]. intros H. go_ok H.
  injection H as <-. unfold units_int64. cbn [values u_model_turns u_tokens u_cost_micros
    u_external_calls u_children u_active_millis u_egress_bytes u_provider_input_bytes].
  repeat (apply Forall_cons; split; [first [apply wrap64_range|done]|]). constructor.
Qed.

Lemma delegation_rows_typed owner rows specs :
  (forall id d limits, (id, d) ∈ rows -> dg_budget d = Some limits -> units_int64 limits) ->
  delegation_rows owner rows = Ok specs -> Forall (fun s => units_int64 (ss_limits s)) specs.
Proof.
  revert specs. induction rows as [|[id d] rows IH]; intros specs Ht; simpl; [by intros [= <-]|].
  destruct (dg_budget d) as [limits|] eqn:E; [|done]. rewrite fail_if_Ok res_bind_Ok.
  intros [_ (rest & Hr & [= <-])]. constructor; [exact (Ht id d limits (list_elem_of_here _ _) E)|].
  apply IH; [|done]. intros id' d' l Hin. apply (Ht id' d'). by apply list_elem_of_further.
Qed.

Lemma scopeSpecsTx_typed policy resolve inference now db runID mandateID owner specs :
  policy_typed policy -> delegations_typed db -> resolver_typed resolve ->
  scopeSpecsTx policy resolve inference None now db runID "" mandateID = Ok (owner, specs) ->
  Forall (fun s => units_int64 (ss_limits s)) specs.
Proof.
  intros [Hp _] Hd Hr H. rewrite !Forall_cons in Hp. destruct Hp as (Htask & Hman & Hday & Hconv & _).
  apply scopeSpecsTx_ok in H as (ids & mandates & delegations & spec & assigned & _ & Hm & Hdel & Hperm & _ & Hc).
  rewrite Hperm. clear Hperm. constructor; [|apply Forall_app; split; [|apply Forall_app; split]].
  - case_bool_decide; [destruct Hc as (_ & _ & -> & _)|by destruct Hc as (root & _ & _ & _ & ->)].
    unfold conversation_spec. cbv zeta. by destruct (head _).
  - unfold mandate_specs in Hm. destruct assigned as [a|].
    { injection Hm as <-. apply Forall_singleton. simpl.
      case_bool_decide; [by destruct Hc as (_ & _ & _ & ?)|destruct Hc as (root & _ & _ & Ha & _)].
      unfold assigned_mandate in Ha. destruct resolve as [f|] eqn:Ef; [|done].
      apply res_bind_Ok in Ha as (a' & Hf & Ha). case_bool_decide; [done|].
      apply fail_if_Ok in Ha as [_ Ha]. apply fail_if_Ok in Ha as [_ [= ->]]. exact (Hr f _ _ _ _ _ eq_refl Hf). }
    clear Hc. case_bool_decide; [by injection Hm as <-|].
    apply res_bind_Ok in Hm as (row & _ & Hm). apply fail_if_Ok in Hm as [_ [= <-]].
    by apply Forall_singleton.
  - destruct (po_disable_owner_day policy); [done|]. by apply Forall_singleton.
  - clear Hc. unfold delegation_specs in Hdel. case_bool_decide; [by injection Hdel as <-|].
    apply res_bind_Ok in Hdel as (b & _ & Hdel). destruct b; [|by injection Hdel as <-].
    eapply delegation_rows_typed; [|exact Hdel]. intros id d limits Hin El.
    unfold delegations_of in Hin. rewrite merge_sort_Permutation in Hin.
    apply list_elem_of_omap in Hin as ([id' t] & _ & E). simpl in E.
    destruct (ad_delegations db) as [tbl|] eqn:Et; [|done]. simpl in E.
    destruct (tbl !! id') as [d'|] eqn:Ed; [|done]. injection E as -> ->. exact (Hd tbl id d limits Et Ed El).
Qed.

(** What holds of an admission: live ownership of a run in none of the refused
    states, whose task is active at the revision the run was made for; and one reservation, of the
    quoted charge, that names every scope of the execution, with its attempt
    recorded. *)
Record admission_facts (policy : Policy)
    (resolve : option (Z -> adm_db -> string -> string -> res MandateScope)) (c : adm_call)
    (db db' : adm_db) (runID mandateID op : string) (charge : Units) (n : Z) (r : Reservation)
    (specs : list ScopeSpec) : Prop := {
  af_owned : exists tok run, ac_token c = Some tok /\ tok_run_id tok = runID
    /\ fence_valid (ad_ownership db) (ac_now c) tok = true
    /\ ad_runs db !! runID = Some run /\ rr_session_key run = tok_session_key tok
    /\ (rr_current_state run ∉ ["completed"; "failed"; "cancelled"; "finalizing"])
    /\ (default "" (rr_task_id run) <> "" -> exists task, ad_tasks db !! default "" (rr_task_id run) = Some task
        /\ ta_status task = "active" /\ ta_revision task = default 0 (rr_task_revision run));
  af_scopes : exists owner,
    scopeSpecsTx policy resolve true None (ac_scopes_now c) db runID "" mandateID = Ok (owner, specs);
  af_reserved : exists row, lg_reservations (ad_ledger db') !! rv_id r = Some row
    /\ rq_charge (rs_request row) = charge /\ rs_created_at row = ac_created c
    /\ rq_scope_ids (rs_request row) ≡ₚ spec_id <$> specs;
  af_attempt : ad_attempts db' !! op
    = Some (mkAttempt runID (rv_id r) n (po_output_tokens policy) None None None);
  af_created : rv_created_at r = ac_created c;
  af_deadlines : Forall (fun spec => exists s, lg_scopes (ad_ledger db') !! spec_id spec = Some s
    /\ ss_deadline (sc_spec s) = Truncate (ss_deadline spec) microsecond) specs;
  af_ledger : ledger_ok (po_disable_conversation_model_turns policy) (ad_ledger db');
}.

Lemma admission_checks_ok db tok runID taskID : admission_checks db tok runID = Ok taskID ->
  exists run, ad_runs db !! runID = Some run /\ rr_session_key run = tok_session_key tok
    /\ (rr_current_state run ∉ ["completed"; "failed"; "cancelled"; "finalizing"]) /\ taskID = default "" (rr_task_id run)
    /\ (default "" (rr_task_id run) <> "" -> exists task, ad_tasks db !! default "" (rr_task_id run) = Some task
        /\ ta_status task = "active" /\ ta_revision task = default 0 (rr_task_revision run)).
Proof.
  unfold admission_checks. intros H. apply res_bind_Ok in H as (run & Hrun & H).
  apply fail_if_Ok in H as [Hg H]. cbv zeta in H. unbool. exists run.
  unfold one_row in Hrun. destruct (ad_runs db !! runID); [|done]. injection Hrun as ->.
  destruct (decide (default "" (rr_task_id run) = "")) as [E|E].
  - rewrite (bool_decide_true _ E) in H. injection H as <-. by split_and!.
  - rewrite (bool_decide_false _ E) in H. apply res_bind_Ok in H as (task & Ht & H).
    apply fail_if_Ok in H as [Hg [= <-]]. unbool. split_and!; try done. intros _. exists task.
    unfold one_row in Ht. destruct (ad_tasks db !! _); [|done]. injection Ht as ->. done.
Qed.

Lemma admit_tx_ok policy resolve c db runID mandateID op charge n db' r ids bound :
  policy_typed policy -> delegations_typed db -> resolver_typed resolve -> units_int64 charge ->
  ledger_ok (po_disable_conversation_model_turns policy) (ad_ledger db) ->
  (forall owner, lg_reservations (ad_ledger db) !! digest_strings [owner; op] = None) ->
  admit_tx policy resolve c db runID mandateID op charge n = (db', Ok (r, ids, bound)) ->
  exists specs, admission_facts policy resolve c db db' runID mandateID op charge n r specs
    /\ ids = spec_id <$> specs.
Proof.
  intros Hp Hd Hr Hc Hok Hfresh. unfold admit_tx.
  destruct (ac_token c) as [tok|] eqn:Etok; [|done]. case_bool_decide as Erun; simpl; [|done].
  destruct (ac_begin c); [done|]. destruct (fence_valid _ _ _) eqn:Ef; simpl; [|done].
  destruct (admission_checks db tok runID) as [taskID|] eqn:Ech; [|done].
  destruct (scopesTx _ _ _ _ _ _ _ _ _) as [lg [[owner ids']|]] eqn:Es; [|done].
  destruct (ReserveTx _ _ _ _ _ _) as [lg' [[r' fresh]|]] eqn:Er; [|done].
  destruct (authority_deadline _ _ _ _ _) as [b|] eqn:Eb; [|done].
  case_bool_decide as Edup; [done|]. intros [= <- -> -> ->].
  unfold scopesTx in Es. destruct (scopeSpecsTx _ _ _ _ _ _ _ _ _) as [[o specs]|] eqn:Ess; [|done].
  destruct (ensure_all specs (ad_ledger db)) as [lg1 [ids1|]] eqn:Een; [|done]. injection Es as <- <- <-.
  destruct (ac_scopes_fault c) eqn:Efault; [done|].
  pose proof (scopeSpecsTx_typed _ _ _ _ _ _ _ _ _ Hp Hd Hr Ess) as Htyped.
  destruct (ensure_all_ok _ _ _ _ _ Htyped Hok Een) as (Hlg & Hres & -> & Hall).
  assert (Hok1 : ledger_ok (po_disable_conversation_model_turns policy) lg1).
  { rewrite Hlg. apply ledger_ok_history; [by apply Forall_fmap|done]. }
  apply ReserveTx_outcome in Er as (creq & Hcan & Ho).
  pose proof Hcan as (Ecreq & _ & Hperm & _)%canonicalRequest_ok.
  destruct fresh.
  2: { exfalso. inversion Ho as [row Elg Hrow Efp Eout|]. rewrite Hres Ecreq /= Hfresh in Hrow. done. }
  inversion Ho as [|Hnone Erows Hk Eout].
  exists specs. split; [|done]. constructor.
  - destruct (admission_checks_ok _ _ _ _ Ech) as (run & ? & ? & ? & _ & ?). by exists tok, run.
  - by exists o.
  - eexists. cbn [ad_ledger set_attempts set_ledger rv_id]. rewrite Erows lookup_insert_eq.
    split; [done|]. cbn [rs_request rs_created_at]. split_and!; [by rewrite Ecreq|done|exact Hperm].
  - apply lookup_insert_eq.
  - done.
  - cbn [ad_ledger set_attempts set_ledger]. eapply Forall_impl; [exact Hall|].
    intros spec (s & Hs & Hdl). destruct (Hk (spec_id spec)) as [H1 H2].
    destruct (decide (spec_id spec ∈ rq_scope_ids creq)) as [Hin|Hn]; [|exists s; by rewrite (H2 Hn)].
    destruct (H1 Hin) as (s0 & next & E0 & _ & _ & E1). rewrite Hs in E0. injection E0 as <-.
    eexists. split; [exact E1|exact Hdl].
  - cbn [ad_ledger set_attempts set_ledger].
    eapply ledger_ok_fresh; [exact Hok1|exact (canonicalRequest_idemp _ _ Hcan)| |exact Ho].
    by rewrite Ecreq.
Qed.

(** C26: an admitted model call is authorised, paid for and bounded.  When
    [AdmitModel] succeeds, the caller's token held the session, the run was in
    none of the states completed, failed, cancelled and finalizing (a run that
    timed out passes) and its task active at the right revision; one reservation of
    exactly the quoted charge names every scope the execution is subject to,
    and the attempt is recorded against it; the deadline is no later than
    the model's own allowance nor than the deadline of any of those scopes;
    and the ledger keeps its invariant.  When it fails before its commit,
    nothing at all is changed.  This is for typed policies, delegations and
    mandates, a ledger that satisfies its invariant, and a random operation
    identifier that was not drawn before. *)
Theorem AdmitModel_accounted (policy : Policy)
    (resolve : option (Z -> adm_db -> string -> string -> res MandateScope)) (c : adm_call)
    (db db' : adm_db) (runID mandateID provider model : string) (n : Z) (out : res ModelAdmission) :
  policy_typed policy -> delegations_typed db -> resolver_typed resolve ->
  ledger_ok (po_disable_conversation_model_turns policy) (ad_ledger db) ->
  (forall random owner, ac_random c = Some random ->
     lg_reservations (ad_ledger db) !! digest_strings [owner; "operation_" +:+ random] = None) ->
  AdmitModel policy resolve c db runID mandateID provider model n = (db', out) ->
  match out with
  | Err _ => ac_get_fault c = None -> db' = db
  | Ok adm => exists charge r specs,
      ModelQuote policy provider model n = Ok charge
      /\ admission_facts policy resolve c db db' runID mandateID (am_operation_id adm) charge n r specs
      /\ am_reservation_id adm = rv_id r
      /\ am_deadline adm <= ac_created c + wrap64 (po_model_millis policy * millisecond)
      /\ Forall (fun spec => am_deadline adm <= Truncate (ss_deadline spec) microsecond) specs
      /\ (am_model_turn_limited adm = true ->
          am_deadline adm = ac_created c + wrap64 (po_model_millis policy * millisecond))
  end.
Proof.
  intros Hp Hd Hr Hok Hfresh. unfold AdmitModel.
  destruct (ModelQuote policy provider model n) as [charge|] eqn:Eq; [|by intros [= <- <-]].
  destruct (ac_random c) as [random|]; [|by intros [= <- <-]]. cbv zeta.
  destruct (admit_tx _ _ _ _ _ _ _ _ _) as [db1 [[[r ids] bound]|e]] eqn:Et; [|by intros [= <- <-]].
  destruct (ac_commit_fault c); [by intros [= <- <-]|].
  destruct (admit_tx_ok _ _ _ _ _ _ _ _ _ _ _ _ _ Hp Hd Hr (ModelQuote_typed _ _ _ _ _ Hp Eq) Hok
    (fun owner => Hfresh random owner eq_refl) Et) as (specs & Hfacts & ->).
  set (own := rv_created_at r + wrap64 (po_model_millis policy * millisecond)).
  destruct (if negb (IsZero bound) && negb (After bound own) then (bound, false) else (own, true))
    as [deadline limited] eqn:Edl.
  assert (Hdl : deadline <= own /\ (limited = true -> deadline = own)).
  { destruct (negb (IsZero bound) && negb (After bound own)) eqn:E; injection Edl as <- <-.
    - unfold After in E. unbool. split; [lia|done].
    - split; [lia|done]. }
  destruct (ac_get_fault c); [by intros [= <- <-]|].
  pose proof (af_deadlines _ _ _ _ _ _ _ _ _ _ _ _ Hfacts) as Hscopes.
  destruct (scope_deadlines_ok (ad_ledger db1) (spec_id <$> specs) deadline limited)
    as (d & b & E & Hle & Hb & Hall).
  { apply Forall_fmap. eapply Forall_impl; [exact Hscopes|]. intros spec (s & Hs & _). by exists s. }
  rewrite E. cbn [res_bind fst snd]. intros [= <- <-]. exists charge, r, specs.
  cbn [am_operation_id am_reservation_id am_deadline am_model_turn_limited].
  pose proof (af_created _ _ _ _ _ _ _ _ _ _ _ _ Hfacts) as Hcr. unfold own in Hdl. rewrite Hcr in Hdl.
  split_and!; try done; try lia.
  - apply Forall_fmap in Hall. rewrite !Forall_forall in Hall, Hscopes |- *. intros spec Hin.
    destruct (Hscopes spec Hin) as (s & Hs & <-). exact (Hall spec Hin s Hs).
  - intros Hbt. destruct (Hb Hbt) as [Hl ->]. by apply Hdl.
Qed.

Definition adm_call_ex : adm_call :=
  mkAdmCall (Some (mkToken "s" "r" "lease" 7)) (Some "abc") 40 50 60 70 80 None None None None None.

Lemma AdmitModel_accounted_witness : exists db' adm,
  AdmitModel adm_policy_ex None adm_call_ex adm_db_ex "r" "" "openai" "gpt" 1000 = (db', Ok adm)
  /\ am_model_turn_limited adm = true /\ am_deadline adm = 60 + 120000 * millisecond
  /\ exists charge r specs,
     ModelQuote adm_policy_ex "openai" "gpt" 1000 = Ok charge
     /\ admission_facts adm_policy_ex None adm_call_ex adm_db_ex db' "r" "" (am_operation_id adm)
          charge 1000 r specs.
Proof.
  assert (E : exists adm,
    (AdmitModel adm_policy_ex None adm_call_ex adm_db_ex "r" "" "openai" "gpt" 1000).2 = Ok adm
    /\ am_model_turn_limited adm = true /\ am_deadline adm = 60 + 120000 * millisecond)
    by (eexists; split; [vm_compute; reflexivity|split; reflexivity]).
  destruct E as (adm & E & Hl & Hd).
  exists (AdmitModel adm_policy_ex None adm_call_ex adm_db_ex "r" "" "openai" "gpt" 1000).1, adm.
  assert (Eall : AdmitModel adm_policy_ex None adm_call_ex adm_db_ex "r" "" "openai" "gpt" 1000
    = ((AdmitModel adm_policy_ex None adm_call_ex adm_db_ex "r" "" "openai" "gpt" 1000).1, Ok adm))
    by (rewrite -E; apply surjective_pairing).
  split; [exact Eall|]. split; [exact Hl|]. split; [exact Hd|].
  assert (H1 : policy_typed adm_policy_ex)
    by (split_and!; [repeat constructor; vm_compute; congruence|vm_compute; split; congruence..]).
  assert (H2 : delegations_typed adm_db_ex) by (intros tbl id d limits Ht; discriminate Ht).
  assert (H3 : resolver_typed None) by (intros f now db task owner a Hf; discriminate Hf).
  assert (H4 : forall random owner, ac_random adm_call_ex = Some random ->
    lg_reservations (ad_ledger adm_db_ex) !! digest_strings [owner; "operation_" +:+ random] = None)
    by (intros; apply lookup_empty).
  destruct (AdmitModel_accounted _ _ _ _ _ _ _ _ _ _ _ H1 H2 H3 (ledger_ok_empty false) H4 Eall)
    as (charge & r & specs & Hq & Hf & _).
  exists charge, r, specs. split; [exact Hq|exact Hf].
Defined.
