(* ===== verification/Input.v ===== *)
(** * Input: accepted inputs and the session-ordered work queue

    Package [apps/orchestrator/internal/input]: [store.go], [control.go],
    [interaction.go], [interaction_close.go], [interaction_control.go],
    [schedule_control.go] and [communication_claim.go].  The tables the
    statements read and write are the record [queue_db]; the setters below
    are the SET lists of the statements.  The other writers of the table are
    in its histories too: the privacy deletions of
    [internal/memory/catalog/privacy.go] and [readyTx] of
    [internal/app/browser_outcome_reviews.go] as they are, the two that fail a
    stopped input ([stopped_finalize.go], [stopped_control.go]) by their
    UPDATE, and those that only set bookkeeping columns with any values.  The conversions of the database
    and of package encoding/json ([::jsonb], [::text], [::timestamptz],
    [json.Marshal] and [json.Unmarshal] of an event) are parameters. *)
From Stdlib Require Import Ascii.
From stdpp Require Import sorting.
From S2P Require Import Prelude GoStrings GoTime Ownership Run.
Open Scope Z_scope.
Open Scope go_scope.

Definition ErrNotFound : error := ErrNew "input.ErrNotFound" "input receipt not found".
Definition ErrClaimLost : error :=
  ErrNew "input.ErrClaimLost" "input claim expired or superseded".
Definition ErrDeliveryConflict : error :=
  ErrNew "input.ErrDeliveryConflict" "delivery identity conflicts with accepted payload".
Definition err_check : error := Errorf "new row violates check constraint".
Definition err_unique : error := Errorf "duplicate key value violates unique constraint".
Definition err_foreign : error := Errorf "insert or update violates foreign key constraint".

(** ** JSON values of the database *)

Inductive jval :=
| JNull
| JBool (b : bool)
| JNumber (text : string)
| JString (s : string)
| JArray (l : list jval)
| JObject (fields : list (string * jval)).

Fixpoint field (k : string) (fields : list (string * jval)) : option jval :=
  match fields with
  | [] => None
  | (k', v) :: rest => if bool_decide (k = k') then Some v else field k rest
  end.

(** The operator [->] with a key. *)
Definition jsonb_get (j : option jval) (k : string) : option jval :=
  match j with Some (JObject fields) => field k fields | _ => None end.

Definition as_array (j : jval) : list jval := match j with JArray l => l | _ => [j] end.

Definition drop_key (k : string) (fields : list (string * jval)) : list (string * jval) :=
  filter (fun kv => kv.1 <> k) fields.

(** The operator [||]: objects are united, the right one winning; other
    values are joined as arrays. *)
Definition jsonb_concat (a b : jval) : jval :=
  match a, b with
  | JObject fa, JObject fb =>
      JObject (fold_left (fun acc kv => drop_key kv.1 acc ++ [kv]) fb fa)
  | _, _ => JArray (as_array a ++ as_array b)
  end.

Definition is_text (k : string) (j : jval) : bool :=
  match j with JString s => bool_decide (s = k) | _ => false end.

(** The operator [-] with a key; a scalar is an error. *)
Definition jsonb_delete (k : string) (j : jval) : option jval :=
  match j with
  | JObject fields => Some (JObject (drop_key k fields))
  | JArray l => Some (JArray (filter (fun v => is_text k v = false) l))
  | _ => None
  end.

(** ** Rows *)

(** The Go struct [ingress.InputEvent]. *)
Record IngressEvent := mkIngressEvent {
  ev_event_id : string;
  ev_event_type : Z;
  ev_session_key : string;
  ev_source : string;
  ev_payload_json : string;
  ev_created_at : Z;
  ev_idempotency_key : string;
}.

(** A row of [accepted_inputs] (migrations 032 and 093); [input_id] is the
    primary key. *)
Record InputRow := mkInputRow {
  ir_session_key : string;
  ir_sequence : Z;
  ir_event_id : string;
  ir_dedup_key : string;
  ir_source : string;
  ir_owner_id : string;
  ir_event_json : jval;
  ir_task_id : option string;
  ir_run_id : option string;
  ir_status : string;
  ir_checkpoint : string;
  ir_checkpoint_json : jval;
  ir_attempts : Z;
  ir_max_attempts : Z;
  ir_claim_id : string;
  ir_claim_expires_at : option Z;
  ir_not_before : Z;
  ir_expires_at : Z;
  ir_accepted_at : Z;
  ir_updated_at : Z;
  ir_error_code : string;
  ir_error_message : string;
  ir_ingress_epoch : Z;
}.

Definition set_event_json (v : jval) (r : InputRow) : InputRow :=
  mkInputRow (ir_session_key r) (ir_sequence r) (ir_event_id r) (ir_dedup_key r) (ir_source r)
    (ir_owner_id r) v (ir_task_id r) (ir_run_id r) (ir_status r) (ir_checkpoint r)
    (ir_checkpoint_json r) (ir_attempts r) (ir_max_attempts r) (ir_claim_id r)
    (ir_claim_expires_at r) (ir_not_before r) (ir_expires_at r) (ir_accepted_at r)
    (ir_updated_at r) (ir_error_code r) (ir_error_message r) (ir_ingress_epoch r).
Definition set_run_id (v : option string) (r : InputRow) : InputRow :=
  mkInputRow (ir_session_key r) (ir_sequence r) (ir_event_id r) (ir_dedup_key r) (ir_source r)
    (ir_owner_id r) (ir_event_json r) (ir_task_id r) v (ir_status r) (ir_checkpoint r)
    (ir_checkpoint_json r) (ir_attempts r) (ir_max_attempts r) (ir_claim_id r)
    (ir_claim_expires_at r) (ir_not_before r) (ir_expires_at r) (ir_accepted_at r)
    (ir_updated_at r) (ir_error_code r) (ir_error_message r) (ir_ingress_epoch r).
Definition set_status (v : string) (r : InputRow) : InputRow :=
  mkInputRow (ir_session_key r) (ir_sequence r) (ir_event_id r) (ir_dedup_key r) (ir_source r)
    (ir_owner_id r) (ir_event_json r) (ir_task_id r) (ir_run_id r) v (ir_checkpoint r)
    (ir_checkpoint_json r) (ir_attempts r) (ir_max_attempts r) (ir_claim_id r)
    (ir_claim_expires_at r) (ir_not_before r) (ir_expires_at r) (ir_accepted_at r)
    (ir_updated_at r) (ir_error_code r) (ir_error_message r) (ir_ingress_epoch r).
Definition set_checkpoint (v : string) (r : InputRow) : InputRow :=
  mkInputRow (ir_session_key r) (ir_sequence r) (ir_event_id r) (ir_dedup_key r) (ir_source r)
    (ir_owner_id r) (ir_event_json r) (ir_task_id r) (ir_run_id r) (ir_status r) v
    (ir_checkpoint_json r) (ir_attempts r) (ir_max_attempts r) (ir_claim_id r)
    (ir_claim_expires_at r) (ir_not_before r) (ir_expires_at r) (ir_accepted_at r)
    (ir_updated_at r) (ir_error_code r) (ir_error_message r) (ir_ingress_epoch r).
Definition set_checkpoint_json (v : jval) (r : InputRow) : InputRow :=
  mkInputRow (ir_session_key r) (ir_sequence r) (ir_event_id r) (ir_dedup_key r) (ir_source r)
    (ir_owner_id r) (ir_event_json r) (ir_task_id r) (ir_run_id r) (ir_status r)
    (ir_checkpoint r) v (ir_attempts r) (ir_max_attempts r) (ir_claim_id r)
    (ir_claim_expires_at r) (ir_not_before r) (ir_expires_at r) (ir_accepted_at r)
    (ir_updated_at r) (ir_error_code r) (ir_error_message r) (ir_ingress_epoch r).
Definition set_attempts (v : Z) (r : InputRow) : InputRow :=
  mkInputRow (ir_session_key r) (ir_sequence r) (ir_event_id r) (ir_dedup_key r) (ir_source r)
    (ir_owner_id r) (ir_event_json r) (ir_task_id r) (ir_run_id r) (ir_status r)
    (ir_checkpoint r) (ir_checkpoint_json r) v (ir_max_attempts r) (ir_claim_id r)
    (ir_claim_expires_at r) (ir_not_before r) (ir_expires_at r) (ir_accepted_at r)
    (ir_updated_at r) (ir_error_code r) (ir_error_message r) (ir_ingress_epoch r).
Definition set_max_attempts (v : Z) (r : InputRow) : InputRow :=
  mkInputRow (ir_session_key r) (ir_sequence r) (ir_event_id r) (ir_dedup_key r) (ir_source r)
    (ir_owner_id r) (ir_event_json r) (ir_task_id r) (ir_run_id r) (ir_status r)
    (ir_checkpoint r) (ir_checkpoint_json r) (ir_attempts r) v (ir_claim_id r)
    (ir_claim_expires_at r) (ir_not_before r) (ir_expires_at r) (ir_accepted_at r)
    (ir_updated_at r) (ir_error_code r) (ir_error_message r) (ir_ingress_epoch r).
Definition set_not_before (v : Z) (r : InputRow) : InputRow :=
  mkInputRow (ir_session_key r) (ir_sequence r) (ir_event_id r) (ir_dedup_key r) (ir_source r)
    (ir_owner_id r) (ir_event_json r) (ir_task_id r) (ir_run_id r) (ir_status r)
    (ir_checkpoint r) (ir_checkpoint_json r) (ir_attempts r) (ir_max_attempts r) (ir_claim_id
    r) (ir_claim_expires_at r) v (ir_expires_at r) (ir_accepted_at r) (ir_updated_at r)
    (ir_error_code r) (ir_error_message r) (ir_ingress_epoch r).
Definition set_expires_at (v : Z) (r : InputRow) : InputRow :=
  mkInputRow (ir_session_key r) (ir_sequence r) (ir_event_id r) (ir_dedup_key r) (ir_source r)
    (ir_owner_id r) (ir_event_json r) (ir_task_id r) (ir_run_id r) (ir_status r)
    (ir_checkpoint r) (ir_checkpoint_json r) (ir_attempts r) (ir_max_attempts r) (ir_claim_id
    r) (ir_claim_expires_at r) (ir_not_before r) v (ir_accepted_at r) (ir_updated_at r)
    (ir_error_code r) (ir_error_message r) (ir_ingress_epoch r).
Definition set_updated_at (now : Z) (r : InputRow) : InputRow :=
  mkInputRow (ir_session_key r) (ir_sequence r) (ir_event_id r) (ir_dedup_key r) (ir_source r)
    (ir_owner_id r) (ir_event_json r) (ir_task_id r) (ir_run_id r) (ir_status r)
    (ir_checkpoint r) (ir_checkpoint_json r) (ir_attempts r) (ir_max_attempts r) (ir_claim_id
    r) (ir_claim_expires_at r) (ir_not_before r) (ir_expires_at r) (ir_accepted_at r) now
    (ir_error_code r) (ir_error_message r) (ir_ingress_epoch r).
Definition set_claim (claim : string) (expiry : option Z) (r : InputRow) : InputRow :=
  mkInputRow (ir_session_key r) (ir_sequence r) (ir_event_id r) (ir_dedup_key r) (ir_source r)
    (ir_owner_id r) (ir_event_json r) (ir_task_id r) (ir_run_id r) (ir_status r)
    (ir_checkpoint r) (ir_checkpoint_json r) (ir_attempts r) (ir_max_attempts r) claim expiry
    (ir_not_before r) (ir_expires_at r) (ir_accepted_at r) (ir_updated_at r) (ir_error_code r)
    (ir_error_message r) (ir_ingress_epoch r).
Definition set_error (code : string) (message : string) (r : InputRow) : InputRow :=
  mkInputRow (ir_session_key r) (ir_sequence r) (ir_event_id r) (ir_dedup_key r) (ir_source r)
    (ir_owner_id r) (ir_event_json r) (ir_task_id r) (ir_run_id r) (ir_status r)
    (ir_checkpoint r) (ir_checkpoint_json r) (ir_attempts r) (ir_max_attempts r) (ir_claim_id
    r) (ir_claim_expires_at r) (ir_not_before r) (ir_expires_at r) (ir_accepted_at r)
    (ir_updated_at r) code message (ir_ingress_epoch r).

(** The columns of [tasks] (migration 029) that are read or written here. *)
Record TaskRow := mkTaskRow {
  tk_session_key : string;
  tk_owner_id : string;
  tk_status : string;
  tk_revision : Z;
  tk_constraints_revision : Z;
  tk_working_json : jval;
  tk_working_revision : Z;
  tk_updated_at : Z;
}.

(** [qd_sessions] gives the [user_id] of a session, [qd_admissions] the
    [schema_epoch] of a communication admission, [qd_next_sequence] the next
    value of the identity column. *)
Record queue_db := mkQueueDb {
  qd_ownership : ownership_table;
  qd_sessions : gmap string string;
  qd_tasks : gmap string TaskRow;
  qd_runs : gmap string RunRow;
  qd_inputs : gmap string InputRow;
  qd_next_sequence : Z;
  qd_admissions : gmap string Z;
}.

Definition set_inputs (db : queue_db) (inputs : gmap string InputRow) : queue_db :=
  mkQueueDb (qd_ownership db) (qd_sessions db) (qd_tasks db) (qd_runs db) inputs
    (qd_next_sequence db) (qd_admissions db).

Definition set_sequence (db : queue_db) (next : Z) : queue_db :=
  mkQueueDb (qd_ownership db) (qd_sessions db) (qd_tasks db) (qd_runs db) (qd_inputs db)
    next (qd_admissions db).

(** [UPDATE accepted_inputs SET f WHERE p]: the new table and the number of
    rows affected. *)
Definition update_rows (p : string -> InputRow -> bool) (f : InputRow -> InputRow)
    (db : queue_db) : queue_db * nat :=
  (set_inputs db (map_imap (fun id r => Some (if p id r then f r else r)) (qd_inputs db)),
   length (filter (fun kr => p kr.1 kr.2 = true) (map_to_list (qd_inputs db)))).

Definition input_terminal (status : string) : bool :=
  bool_decide (status ∈ ["completed"; "failed"; "expired"; "cancelled"]).

Definition input_statuses : list string :=
  ["queued"; "running"; "waiting_for_user"; "blocked"; "completed"; "failed"; "expired";
   "cancelled"].

(** The Go struct [input.Record]. *)
Record InputRecord := mkInputRecord {
  in_input_id : string;
  in_session_key : string;
  in_sequence : Z;
  in_owner_id : string;
  in_source : string;
  in_task_id : string;
  in_run_id : string;
  in_status : string;
  in_checkpoint : string;
  in_checkpoint_json : string;
  in_event : IngressEvent;
  in_attempts : Z;
  in_max_attempts : Z;
  in_claim_id : string;
  in_claim_expires_at : option Z;
  in_expires_at : Z;
  in_accepted_at : Z;
  in_updated_at : Z;
  in_error_code : string;
  in_error_message : string;
}.

(** What a call reads: the clock, the execution and the claim carried by its
    context, the fault of the fence and of its n-th statement. *)
Record queue_env := mkQueueEnv {
  qe_now : Z;
  qe_ctx : go_context;
  qe_claim : option InputRecord;
  qe_fence_fault : option fence_fault;
  qe_fault : nat -> option error;
}.

Definition queue_fenced {A} (env : queue_env) (db : queue_db) (k : queue_db * res A) :
    queue_db * res A :=
  match Begin (qd_ownership db) (qe_now env) (qe_fence_fault env) (qe_ctx env) with
  | Err e => (db, Err e)
  | Ok _ => k
  end.

(** A transaction whose work fails is rolled back. *)
Definition transaction {A} (db : queue_db) (work : queue_db * res A) : queue_db * res A :=
  match work with (db', Ok a) => (db', Ok a) | (_, Err e) => (db, Err e) end.

(** The n-th statement: it may fail. *)
Definition stmt {A} (env : queue_env) (n : nat) (db : queue_db) (k : queue_db * res A) :
    queue_db * res A :=
  match qe_fault env n with Some e => (db, Err e) | None => k end.

(** The claim a worker holds: [WHERE input_id=$1 AND claim_id=$2 AND
    status='running' AND claim_expires_at>clock_timestamp()]. *)
Definition claim_valid (now : Z) (input claim : string) (id : string) (r : InputRow) : bool :=
  bool_decide (id = input) && bool_decide (ir_claim_id r = claim)
  && bool_decide (ir_status r = "running")
  && match ir_claim_expires_at r with Some t => Z.ltb now t | None => false end.

(** One row must be affected. *)
Definition exactly_one (lost : error) (db : queue_db) (u : queue_db * nat) :
    queue_db * res unit :=
  if Nat.eqb u.2 1 then (u.1, Ok tt) else (u.1, Err lost).

Section queue.
Context (jsonb : string -> option jval) (json_text : jval -> string)
  (timestamptz : string -> option Z)
  (marshal_event : IngressEvent -> res string) (unmarshal_event : jval -> res IngressEvent).

(** The operator [->>] with a key. *)
Definition jsonb_text (j : option jval) (k : string) : option string :=
  match jsonb_get j k with
  | None | Some JNull => None
  | Some (JString s) => Some s
  | Some v => Some (json_text v)
  end.

(** [scan]. *)
Definition scan_input (id : string) (r : InputRow) : res InputRecord :=
  event <-! unmarshal_event (ir_event_json r) ;;
  Ok (mkInputRecord id (ir_session_key r) (ir_sequence r) (ir_owner_id r) (ir_source r)
        (default "" (ir_task_id r)) (default "" (ir_run_id r)) (ir_status r) (ir_checkpoint r)
        (json_text (ir_checkpoint_json r)) event (ir_attempts r) (ir_max_attempts r)
        (ir_claim_id r) (ir_claim_expires_at r) (ir_expires_at r) (ir_accepted_at r)
        (ir_updated_at r) (ir_error_code r) (ir_error_message r)).

(** [randomID]: sixteen random bytes in hexadecimal, or an error. *)
Definition randomID (prefix : string) (random : res string) : res string :=
  hex <-! random ;; Ok (prefix +:+ hex).

(** ** Acceptance *)

(** A new row has the defaults of migration 032: empty checkpoint, three
    attempts, a lifetime of 24 hours. *)
Definition new_input (now : Z) (sequence : Z) (event : IngressEvent) (key owner : string)
    (json : jval) (task : option string) (status checkpoint code : string) : InputRow :=
  mkInputRow (ev_session_key event) sequence (ev_event_id event) key (ev_source event) owner
    json task None status checkpoint (JObject []) 0 3 "" None now (now + 24 * 3600 * second)
    now now code "" 0.

Definition same_delivery (session source key : string) (r : InputRow) : bool :=
  bool_decide (ir_session_key r = session) && bool_decide (ir_source r = source)
  && bool_decide (ir_dedup_key r = key).

(** [WHERE session_key=$1 AND source=$2 AND dedup_key=$3]. *)
Definition find_delivery (session source key : string) (db : queue_db) :
    option (string * InputRow) :=
  head (filter (fun kr => same_delivery session source key kr.2 = true)
          (map_to_list (qd_inputs db))).

(** [$8='' OR EXISTS(SELECT 1 FROM tasks ...)]. *)
Definition task_admits (db : queue_db) (task session owner : string) : bool :=
  bool_decide (task = "")
  || match qd_tasks db !! task with
     | Some t => bool_decide (tk_session_key t = session) && bool_decide (tk_owner_id t = owner)
                 && bool_decide (tk_status t = "active")
     | None => false
     end.

Definition delivery_key (event : IngressEvent) : string :=
  if bool_decide (ev_idempotency_key event = "") then ev_event_id event
  else ev_idempotency_key event.

(** The second half of [acceptTx]: what was accepted before. *)
Definition accepted_before (env : queue_env) (event : IngressEvent) (owner task key : string)
    (db : queue_db) : queue_db * res (InputRecord * bool) :=
  let invalid := ErrWrap "input task or identity invalid: " in
  match qe_fault env 2%nat with
  | Some e => (db, Err (invalid e))
  | None =>
      match find_delivery (ev_session_key event) (ev_source event) key db with
      | None => (db, Err (invalid ErrNotFound))
      | Some (id, row) =>
          match scan_input id row with
          | Err e => (db, Err (invalid e))
          | Ok r =>
              if negb (bool_decide (in_owner_id r = owner))
                 || negb (bool_decide (in_task_id r = task))
                 || negb (bool_decide (ev_payload_json (in_event r) = ev_payload_json event))
                 || negb (Z.eqb (ev_event_type (in_event r)) (ev_event_type event))
              then (db, Err ErrDeliveryConflict)
              else (db, Ok (r, false))
          end
      end
  end.

(** The INSERT of [acceptTx].  Inserting takes a sequence number even when
    the delivery is known already. *)
Definition insert_input (env : queue_env) (id : string) (event : IngressEvent)
    (encoded key owner task status code : string) (db : queue_db) :
    queue_db * res (option (string * InputRow)) :=
  stmt env 1 db
    match jsonb encoded with
    | None => (db, Err err_json)
    | Some json =>
        if negb (task_admits db task (ev_session_key event) owner) then (db, Ok None) else
        let seq := qd_next_sequence db in
        let db' := set_sequence db (seq + 1) in
        let row := new_input (qe_now env) seq event key owner json (nullString task) status
                     "accepted" code in
        if negb (bool_decide (status ∈ input_statuses)) then (db', Err err_check) else
        if bool_decide (is_Some (find_delivery (ev_session_key event) (ev_source event) key db))
        then (db', Ok None) else
        if bool_decide (is_Some (qd_inputs db !! id)) then (db', Err err_unique)
        else (set_inputs db' (<[id := row]> (qd_inputs db)), Ok (Some (id, row)))
    end.

Definition acceptTx (env : queue_env) (random : res string) (event : IngressEvent)
    (owner task status code : string) (db : queue_db) : queue_db * res (InputRecord * bool) :=
  stmt env 0 db
    match qd_sessions db !! ev_session_key event with
    | None => (db, Err ErrNoRows)
    | Some stored =>
        if negb (bool_decide (stored = owner)) then (db, Err (Errorf "session owner mismatch")) else
        match randomID "input-" random, marshal_event event with
        | Err e, _ | Ok _, Err e => (db, Err e)
        | Ok id, Ok encoded =>
            let key := delivery_key event in
            if bool_decide (key = "")
            then (db, Err (Errorf "event_id or idempotency_key required")) else
            match insert_input env id event encoded key owner task status code db with
            | (db', Err e) => (db', Err e)
            | (db', Ok None) => accepted_before env event owner task key db'
            | (db', Ok (Some (id', row))) =>
                match scan_input id' row with
                | Ok r => (db', Ok (r, true))
                | Err e => (db', Err e)
                end
            end
        end
    end.

(** [accept], [Accept] and [AcceptWaiting]; [commit] is the error of the
    commit.  A number of the identity column stays used after a rollback. *)
Definition accept (env : queue_env) (random : res string) (commit : option error)
    (event : IngressEvent) (owner task status code : string) (db : queue_db) :
    queue_db * res (InputRecord * bool) :=
  match acceptTx env random event owner task status code db with
  | (db', Err e) => (set_sequence db (qd_next_sequence db'), Err e)
  | (db', Ok a) =>
      match commit with
      | Some e => (set_sequence db (qd_next_sequence db'), Err e)
      | None => (db', Ok a)
      end
  end.

Definition Accept (env : queue_env) (random : res string) (commit : option error)
    (event : IngressEvent) (owner task : string) : queue_db -> queue_db * res (InputRecord * bool) :=
  accept env random commit event owner task "queued" "".

Definition AcceptWaiting (env : queue_env) (random : res string) (commit : option error)
    (event : IngressEvent) (owner : string) : queue_db -> queue_db * res (InputRecord * bool) :=
  accept env random commit event owner "" "waiting_for_user" "task_target_required".

(** [Get]. *)
Definition Get (env : queue_env) (id : string) (db : queue_db) : res InputRecord :=
  match qe_fault env 0%nat, qd_inputs db !! id with
  | Some e, _ => Err e
  | None, Some r => scan_input id r
  | None, None => Err ErrNotFound
  end.

(** ** Claims *)

(** [ExpireQueued]. *)
Definition ExpireQueued (env : queue_env) (db : queue_db) : queue_db * res unit :=
  stmt env 0 db
    ((update_rows (fun _ r => bool_decide (ir_status r = "queued")
                              && Z.leb (ir_expires_at r) (qe_now env))
        (fun r => set_updated_at (qe_now env)
           (set_error "input_expired" "accepted input deadline expired"
              (set_status "expired" r))) db).1, Ok tt).

(** The inputs of the same session that come first must be finished. *)
Definition is_head (db : queue_db) (r : InputRow) : bool :=
  forallb (fun kr => negb (bool_decide (ir_session_key kr.2 = ir_session_key r)
                           && Z.ltb (ir_sequence kr.2) (ir_sequence r))
                     || input_terminal (ir_status kr.2))
    (map_to_list (qd_inputs db)).

Definition claimable (now epoch : Z) (db : queue_db) (id : string) (r : InputRow) : bool :=
  Z.leb (ir_ingress_epoch r) epoch
  && match qd_admissions db !! id with Some schema => Z.leb schema epoch | None => true end
  && bool_decide (ir_status r ∈ ["queued"; "running"])
  && negb (bool_decide (ir_checkpoint r = "awaiting_interaction"))
  && Z.leb (ir_not_before r) now
  && match ir_claim_expires_at r with Some t => Z.leb t now | None => true end
  && is_head db r.

(** [ORDER BY accepted_at, session_sequence]. *)
Definition claim_before (a b : string * InputRow) : Prop :=
  ir_accepted_at a.2 < ir_accepted_at b.2
  \/ ir_accepted_at a.2 = ir_accepted_at b.2 /\ ir_sequence a.2 <= ir_sequence b.2.

#[global] Instance claim_before_dec : RelDecision claim_before.
Proof. intros a b. unfold claim_before. apply _. Defined.

(** The rows other transactions hold are skipped ([locked]). *)
Definition candidates (now epoch : Z) (locked : list string) (db : queue_db) :
    list (string * InputRow) :=
  merge_sort claim_before
    (filter (fun kr => claimable now epoch db kr.1 kr.2 = true /\ (kr.1 ∉ locked))
       (map_to_list (qd_inputs db))).

Definition millis (d : Z) : Z := go_div d millisecond * millisecond.

Definition claim_row (now ttl : Z) (claim : string) (r : InputRow) : InputRow :=
  let kept := bool_decide (ir_checkpoint r ∈ ["approval_ready"; "interaction_ready"])
              && bool_decide (ir_status r = "queued") in
  set_updated_at now
    (set_attempts (ir_attempts r + (if kept then 0 else 1))
       (set_claim claim (Some (now + millis ttl)) (set_status "running" r))).

(** [Claim].  The trigger [communication_claim_epoch] refuses nothing that the
    conditions on the epoch leave. *)
Definition Claim (env : queue_env) (epoch : Z) (locked : list string) (random : res string)
    (ttl : Z) (db : queue_db) : queue_db * res InputRecord :=
  match randomID "claim-" random with
  | Err e => (db, Err e)
  | Ok claim =>
      stmt env 0 db
        match candidates (qe_now env) epoch locked db with
        | [] => (db, Err ErrNotFound)
        | (id, r) :: _ =>
            let row := claim_row (qe_now env) ttl claim r in
            (set_inputs db (<[id := row]> (qd_inputs db)), scan_input id row)
        end
  end.

(** [Renew]. *)
Definition Renew (env : queue_env) (r : InputRecord) (ttl : Z) (db : queue_db) :
    queue_db * res unit :=
  stmt env 0 db
    (exactly_one ErrClaimLost db
       (update_rows (claim_valid (qe_now env) (in_input_id r) (in_claim_id r))
          (fun row => set_claim (ir_claim_id row) (Some (qe_now env + millis ttl)) row) db)).

(** ** Checkpoints *)

(** The new checkpoint of [SaveCheckpoint]. *)
Definition stage_json (stage : string) (payload old : jval) : option jval :=
  if bool_decide (stage = "prepared") then
    a ← jsonb_delete "prepared" old;
    b ← jsonb_delete "checkpoint_data" a;
    Some (jsonb_concat b (JObject [("prepared", payload)]))
  else Some (jsonb_concat old (JObject [("checkpoint_data", payload)])).

(** [SaveCheckpoint]: nothing without a claim; the run must exist. *)
Definition SaveCheckpoint (env : queue_env) (run_id stage payload : string) (db : queue_db) :
    queue_db * res unit :=
  match qe_claim env with
  | None => (db, Ok tt)
  | Some c =>
      queue_fenced env db (stmt env 0 db
        match jsonb payload with
        | None => (db, Err err_json)
        | Some json =>
            match qd_inputs db !! in_input_id c with
            | Some row =>
                if claim_valid (qe_now env) (in_input_id c) (in_claim_id c) (in_input_id c) row
                then
                  match stage_json stage json (ir_checkpoint_json row) with
                  | None => (db, Err (Errorf "cannot delete from scalar"))
                  | Some new =>
                      if negb (bool_decide (is_Some (qd_runs db !! run_id)))
                      then (db, Err err_foreign)
                      else
                        (set_inputs db (<[in_input_id c :=
                           set_updated_at (qe_now env) (set_checkpoint_json new
                             (set_checkpoint stage (set_run_id (Some run_id) row)))]>
                           (qd_inputs db)), Ok tt)
                  end
                else (db, Err ErrClaimLost)
            | None => (db, Err ErrClaimLost)
            end
        end)
  end.

(** [LoadCheckpoint]. *)
Definition LoadCheckpoint (env : queue_env) (run_id : string) (db : queue_db) :
    res (string * string) :=
  match qe_fault env 0%nat with
  | Some e => Err e
  | None =>
      match filter (fun kr => ir_run_id kr.2 = Some run_id) (map_to_list (qd_inputs db)) with
      | [] => Err ErrNoRows
      | (_, r) :: _ => Ok (ir_checkpoint r, json_text (ir_checkpoint_json r))
      end
  end.

(** [(checkpoint_json->'model_retry'->>'not_before')::timestamptz]: NULL, an
    instant, or an error of the cast. *)
Definition retry_not_before (r : InputRow) : res (option Z) :=
  match jsonb_text (jsonb_get (Some (ir_checkpoint_json r)) "model_retry") "not_before" with
  | None => Ok None
  | Some text =>
      match timestamptz text with
      | Some t => Ok (Some t)
      | None => Err (Errorf "invalid input syntax for type timestamp with time zone")
      end
  end.

Definition finish_status (status code : string) (r : InputRow) : string :=
  if bool_decide (code = "communication_state_pending")
     && bool_decide (ir_checkpoint r = "awaiting_interaction") then "waiting_for_user"
  else if bool_decide (status = "waiting_for_user")
     && bool_decide (ir_checkpoint r ∈ ["approval_ready"; "interaction_ready"]) then "queued"
  else status.

(** [Finish]. *)
Definition Finish (env : queue_env) (c : InputRecord) (status code message : string)
    (delay : Z) (db : queue_db) : queue_db * res unit :=
  stmt env 0 db
    match qd_inputs db !! in_input_id c with
    | None => (db, Err ErrClaimLost)
    | Some r =>
        if negb (claim_valid (qe_now env) (in_input_id c) (in_claim_id c) (in_input_id c) r)
        then (db, Err ErrClaimLost) else
        match (if bool_decide (code = "model_retry_pending")
               then t <-! retry_not_before r ;; Ok (Z.max (qe_now env) (default (qe_now env) t))
               else Ok (qe_now env + millis delay)) with
        | Err e => (db, Err e)
        | Ok not_before =>
            if negb (bool_decide (finish_status status code r ∈ input_statuses))
            then (db, Err err_check) else
            let attempts := if bool_decide (code = "session_busy")
                            then Z.max (ir_attempts r - 1) 0 else ir_attempts r in
            (set_inputs db (<[in_input_id c :=
               set_updated_at (qe_now env) (set_not_before not_before (set_claim "" None
                 (set_error code message (set_attempts attempts
                   (set_status (finish_status status code r) r)))))]> (qd_inputs db)), Ok tt)
        end
    end.

(** ** Hooks of the approval transactions *)

(** [SuspendApprovalTx]. *)
Definition SuspendApprovalTx (env : queue_env) (run_id approval payload : string)
    (db : queue_db) : queue_db * res unit :=
  match qe_claim env with
  | None => (db, Err (Errorf "durable input claim required for approval suspension"))
  | Some c =>
      stmt env 0 db
        match jsonb payload with
        | None => (db, Err err_json)
        | Some json =>
            exactly_one ErrClaimLost db
              (update_rows
                 (fun id r => claim_valid (qe_now env) (in_input_id c) (in_claim_id c) id r
                              && bool_decide (ir_run_id r = Some run_id))
                 (fun r => set_updated_at (qe_now env)
                    (set_checkpoint_json
                       (jsonb_concat (ir_checkpoint_json r)
                          (JObject [("approval_id", JString approval); ("continuation", json)]))
                       (set_checkpoint "awaiting_approval" r))) db)
        end
  end.

Definition ready_row (now : Z) (checkpoint : string) (r : InputRow) : InputRow :=
  set_updated_at now (set_not_before now
    (set_status (if bool_decide (ir_status r = "running") then "running" else "queued")
       (set_checkpoint checkpoint r))).

(** [run_id=$1 AND checkpoint_json->>'approval_id'=$2]. *)
Definition waits_for (run_id approval : string) (r : InputRow) : bool :=
  bool_decide (ir_run_id r = Some run_id)
  && bool_decide (jsonb_text (Some (ir_checkpoint_json r)) "approval_id" = Some approval).

(** [ReadyApprovalTx]. *)
Definition ReadyApprovalTx (env : queue_env) (run_id approval : string) (db : queue_db) :
    queue_db * res unit :=
  stmt env 0 db
    (exactly_one ErrNotFound db
       (update_rows
          (fun _ r => waits_for run_id approval r
             && bool_decide (ir_status r ∈ ["running"; "waiting_for_user"; "blocked"]))
          (ready_row (qe_now env) "approval_ready") db)).

(** The continuation is the guarded selection of a tab for this approval. *)
Definition selection_continuation (approval : string) (r : InputRow) : bool :=
  let c := jsonb_get (Some (ir_checkpoint_json r)) "continuation" in
  bool_decide (jsonb_text c "kind" = Some "guarded_tab_selection")
  && bool_decide (jsonb_text c "version" = Some "1")
  && bool_decide (jsonb_text c "approval_id" = Some approval).

(** The worker's claim on an input that has not expired. *)
Definition live_claim (env : queue_env) (c : InputRecord) (id : string) (r : InputRow) : bool :=
  claim_valid (qe_now env) (in_input_id c) (in_claim_id c) id r
  && Z.ltb (qe_now env) (ir_expires_at r).

(** A query that must find the row of the claim, with a further condition. *)
Definition check_claim (env : queue_env) (extra : InputRow -> bool) (db : queue_db) : res unit :=
  match qe_claim env with
  | None => Err ErrClaimLost
  | Some c =>
      match qe_fault env 0%nat, qd_inputs db !! in_input_id c with
      | None, Some r =>
          if live_claim env c (in_input_id c) r && extra r then Ok tt else Err ErrClaimLost
      | _, _ => Err ErrClaimLost
      end
  end.

(** [CheckSelectionClaimTx]. *)
Definition CheckSelectionClaimTx (env : queue_env) (run_id approval : string)
    (db : queue_db) : res unit :=
  check_claim env (fun r => waits_for run_id approval r
    && bool_decide (ir_checkpoint r = "approval_ready") && selection_continuation approval r) db.

(** [CheckPendingSelectionClaimTx]. *)
Definition CheckPendingSelectionClaimTx (env : queue_env) (run_id approval : string)
    (db : queue_db) : res unit :=
  check_claim env (fun r => waits_for run_id approval r
    && bool_decide (ir_checkpoint r ∈ ["awaiting_approval"; "approval_ready"])
    && selection_continuation approval r) db.

(** [CheckDispatchClaimTx]. *)
Definition CheckDispatchClaimTx (env : queue_env) (run_id call effect authorization : string)
    (db : queue_db) : res unit :=
  check_claim env (fun r =>
    let data := jsonb_get (Some (ir_checkpoint_json r)) "checkpoint_data" in
    bool_decide (ir_run_id r = Some run_id) && bool_decide (ir_checkpoint r = "tool_dispatching")
    && bool_decide (jsonb_text data "tool_call_id" = Some call)
    && bool_decide (jsonb_text data "effect_id" = Some effect)
    && bool_decide (jsonb_text data "authorization_id" = Some authorization)) db.

(** [ReadySelectionTx]. *)
Definition ReadySelectionTx (env : queue_env) (run_id approval : string) (db : queue_db) :
    queue_db * res unit :=
  stmt env 0 db
    (exactly_one ErrNotFound db
       (update_rows
          (fun _ r => waits_for run_id approval r && selection_continuation approval r
             && bool_decide (ir_status r ∈ ["running"; "waiting_for_user"; "blocked"; "queued"])
             && Z.ltb (qe_now env) (ir_expires_at r))
          (ready_row (qe_now env) "approval_ready") db)).

(** [CheckCommunicationClaimTx]. *)
Definition CheckCommunicationClaimTx (env : queue_env) (run_id input : string)
    (db : queue_db) : res unit :=
  match qe_claim env with
  | None => Err ErrClaimLost
  | Some c =>
      if negb (bool_decide (in_input_id c = input)) || bool_decide (in_claim_id c = "")
         || negb (bool_decide (in_run_id c = "")) && negb (bool_decide (in_run_id c = run_id))
      then Err ErrClaimLost
      else check_claim env (fun r => bool_decide (ir_run_id r = Some run_id)) db
  end.

(** ** Interactions *)

Definition interaction_kinds : list string :=
  ["communication_interaction"; "credential_interaction"; "effect_review"].

(** [json.Marshal] of the marker, as the column holds it. *)
Definition interaction_marker (kind id : string) : jval :=
  JObject [("interaction_id", JString id); ("kind", JString kind); ("version", JNumber "1")].

(** [checkpoint_json->'interaction'->>'interaction_id']. *)
Definition interaction_id (r : InputRow) : option string :=
  jsonb_text (jsonb_get (Some (ir_checkpoint_json r)) "interaction") "interaction_id".

Definition with_interaction (now : Z) (marker : jval) (r : InputRow) : InputRow :=
  set_updated_at now
    (set_checkpoint_json (jsonb_concat (ir_checkpoint_json r) (JObject [("interaction", marker)]))
       (set_checkpoint "awaiting_interaction" r)).

(** [SuspendPrivateInteractionTx]; [SuspendInteractionTx] is the first kind. *)
Definition SuspendPrivateInteractionTx (env : queue_env) (run_id id kind : string)
    (db : queue_db) : queue_db * res unit :=
  if negb (bool_decide (kind ∈ interaction_kinds)) then (db, Err ErrClaimLost) else
  match qe_claim env, TokenFromContext (qe_ctx env) with
  | Some c, Some tok =>
      if negb (bool_decide (tok_run_id tok = run_id))
         || negb (bool_decide (in_run_id c = "")) && negb (bool_decide (in_run_id c = run_id))
      then (db, Err ErrClaimLost)
      else
        stmt env 0 db
          (exactly_one ErrClaimLost db
             (update_rows
                (fun i r => live_claim env c i r && bool_decide (ir_run_id r = Some run_id)
                   && (bool_decide (ir_checkpoint r = "tool_dispatching")
                       && negb (bool_decide (kind = "effect_review"))
                       || bool_decide (ir_checkpoint r = "browser_outcome_observed")
                          && bool_decide (kind = "effect_review")))
                (with_interaction (qe_now env) (interaction_marker kind id)) db))
  | _, _ => (db, Err ErrClaimLost)
  end.

Definition SuspendInteractionTx (env : queue_env) (run_id id : string) :
    queue_db -> queue_db * res unit :=
  SuspendPrivateInteractionTx env run_id id "communication_interaction".

(** [ReadyInteractionTx]. *)
Definition ReadyInteractionTx (env : queue_env) (input id : string) (paused : bool)
    (db : queue_db) : queue_db * res unit :=
  let now := qe_now env in
  stmt env 0 db
    (exactly_one ErrClaimLost db
       (update_rows
          (fun i r => bool_decide (i = input)
             && bool_decide (ir_checkpoint r = "awaiting_interaction")
             && bool_decide (interaction_id r = Some id)
             && bool_decide (ir_status r ∈ ["running"; "waiting_for_user"; "blocked"]))
          (fun r =>
             let held := bool_decide (ir_status r = "running")
               && match ir_claim_expires_at r with Some t => Z.ltb now t | None => false end in
             set_updated_at now (set_not_before now (set_expires_at (now + 600 * second)
               (set_status (if paused then "blocked" else if held then "running" else "queued")
                  (set_checkpoint "interaction_ready" r))))) db)).

(** [CheckInteractionClaimTx]. *)
Definition CheckInteractionClaimTx (env : queue_env) (run_id id : string) (db : queue_db) :
    res unit :=
  check_claim env (fun r => bool_decide (ir_run_id r = Some run_id)
    && bool_decide (ir_checkpoint r = "interaction_ready")
    && bool_decide (interaction_id r = Some id)) db.

(** [CloseInteractionTx]. *)
Definition CloseInteractionTx (env : queue_env) (input id reason : string) (db : queue_db) :
    queue_db * res unit :=
  stmt env 0 db
    ((update_rows
        (fun i r => bool_decide (i = input)
           && bool_decide (ir_checkpoint r = "awaiting_interaction")
           && bool_decide (interaction_id r = Some id)
           && bool_decide (ir_status r ∈ ["running"; "waiting_for_user"; "blocked"]))
        (fun r => set_updated_at (qe_now env)
           (set_error ("interaction_" +:+ reason) (ir_error_message r)
              (set_claim "" None (set_status "blocked" r)))) db).1, Ok tt).

(** [HoldInteractionControlTx]. *)
Definition HoldInteractionControlTx (env : queue_env) (input id : string) (db : queue_db) :
    queue_db * res unit :=
  stmt env 0 db
    (exactly_one ErrClaimLost db
       (update_rows
          (fun i r => bool_decide (i = input) && bool_decide (ir_status r = "queued")
                      && bool_decide (ir_run_id r = None))
          (fun r => with_interaction (qe_now env)
                      (interaction_marker "communication_interaction" id)
                      (set_status "waiting_for_user" r)) db)).

(** [jsonb_set(j, '{k}', v)]: other values than objects have no such path. *)
Definition jsonb_set (k : string) (v j : jval) : res jval :=
  match j with
  | JObject _ => Ok (jsonb_concat j (JObject [(k, v)]))
  | JArray _ => Err (Errorf "path element is not an integer")
  | _ => Err (Errorf "cannot set path in scalar")
  end.

(** The statement of [SaveInteractionPreparation]. *)
Definition save_preparation (env : queue_env) (c : InputRecord) (run_id id payload : string)
    (db : queue_db) : queue_db * res unit :=
  stmt env 0 db
    match jsonb payload, qd_inputs db !! in_input_id c with
    | None, _ => (db, Err err_json)
    | Some _, None => (db, Err ErrClaimLost)
    | Some json, Some r =>
        if negb (live_claim env c (in_input_id c) r && bool_decide (ir_run_id r = Some run_id)
                 && bool_decide (ir_checkpoint r = "interaction_ready")
                 && bool_decide (interaction_id r = Some id))
        then (db, Err ErrClaimLost)
        else
          match jsonb_set "prepared" json (ir_checkpoint_json r) with
          | Err e => (db, Err e)
          | Ok new =>
              (set_inputs db (<[in_input_id c :=
                 set_updated_at (qe_now env) (set_checkpoint_json new r)]> (qd_inputs db)), Ok tt)
          end
    end.

(** [SaveInteractionPreparation]: the statement in a fenced transaction, which
    checks the fence again at its commit. *)
Definition SaveInteractionPreparation (pool : nat) (env : queue_env) (commit_now : Z)
    (commit : option (error * bool)) (run_id id payload : string) (slots : nat)
    (db : queue_db) : tx_world queue_db * res unit :=
  let w := mkWorld db slots in
  match qe_claim env, TokenFromContext (qe_ctx env) with
  | Some c, Some tok =>
      if negb (bool_decide (tok_run_id tok = run_id)) then (w, Err ErrClaimLost) else
      match BeginTransaction pool (qd_ownership db) (qe_now env) (qe_fence_fault env)
              (qe_ctx env) w with
      | (w1, Err e) => (w1, Err e)
      | (w1, Ok (_, PlainTx)) => (w1, Err ErrStale)
      | (w1, Ok (_, FencedTx t)) =>
          match save_preparation env c run_id id payload (ft_pending t) with
          | (_, Err e) => ((Rollback None t w1).1.2, Err e)
          | (db', Ok _) =>
              let t' := mkFenced db' (ft_token t) (ft_release t) (ft_closed t) in
              match Commit (qd_ownership db') commit_now None commit t' w1 with
              | (_, w2, Some e) => (w2, Err e)
              | (_, w2, None) => (w2, Ok tt)
              end
          end
      end
  | _, _ => (w, Err ErrClaimLost)
  end.

(** ** Owner controls *)

Definition of_tasks (tasks : list string) (r : InputRow) : bool :=
  match ir_task_id r with Some t => bool_decide (t ∈ tasks) | None => false end.

Definition uncertain_checkpoint (r : InputRow) : bool :=
  bool_decide (ir_checkpoint r ∈ ["tool_dispatching"; "tool_result_recorded";
                                  "browser_outcome_observing"; "browser_outcome_observed"])
  || bool_decide (ir_checkpoint r ∈ ["awaiting_interaction"; "interaction_ready"])
     && bool_decide (jsonb_text (jsonb_get (Some (ir_checkpoint_json r)) "interaction") "kind"
                     = Some "effect_review").

Definition cancel_row (now : Z) (code message : string) (r : InputRow) : InputRow :=
  set_updated_at now (set_error code message (set_claim "" None (set_status "cancelled" r))).

(** [InvalidateForControlTx]: whether an effect may be under way, and every
    unfinished input of the tasks cancelled. *)
Definition InvalidateForControlTx (env : queue_env) (tasks : list string) (control : string)
    (db : queue_db) : queue_db * res bool :=
  stmt env 0 db (stmt env 1 db
    ((update_rows (fun _ r => of_tasks tasks r && negb (input_terminal (ir_status r)))
        (cancel_row (qe_now env) "owner_control" control) db).1,
     Ok (existsb (fun kr => of_tasks tasks kr.2 && uncertain_checkpoint kr.2)
           (map_to_list (qd_inputs db))))).

(** [InvalidateForScheduleTx]. *)
Definition InvalidateForScheduleTx (env : queue_env) (tasks : list string) (db : queue_db) :
    queue_db * res unit :=
  stmt env 0 db
    ((update_rows (fun _ r => of_tasks tasks r && negb (input_terminal (ir_status r)))
        (cancel_row (qe_now env) "schedule_changed"
           "owning schedule revision invalidated this occurrence") db).1, Ok tt).

(** The inputs that wait for their target to be named. *)
Definition cancel_ambiguous (now : Z) (message : string) (sessions : list string)
    (owner : string) (db : queue_db) : queue_db :=
  (update_rows
     (fun _ r => bool_decide (ir_session_key r ∈ sessions) && bool_decide (ir_owner_id r = owner)
        && bool_decide (ir_status r = "waiting_for_user")
        && bool_decide (ir_error_code r = "task_target_required"))
     (fun r => set_updated_at now (set_error (ir_error_code r) message
                 (set_status "cancelled" r))) db).1.

(** [ResolveAmbiguousForControlTx]. *)
Definition ResolveAmbiguousForControlTx (env : queue_env) (sessions : list string)
    (owner : string) (db : queue_db) : queue_db * res unit :=
  stmt env 1 db
    (cancel_ambiguous (qe_now env) "target clarified by authenticated owner" sessions owner db,
     Ok tt).

(** [ResolveConversationAmbiguity]. *)
Definition ResolveConversationAmbiguity (env : queue_env) (session owner : string)
    (db : queue_db) : queue_db * res unit :=
  transaction db (stmt env 0 db
    match qd_sessions db !! session with
    | None => (db, Err ErrNoRows)
    | Some stored =>
        if negb (bool_decide (stored = owner)) then (db, Err ErrClaimLost) else
        match ResolveAmbiguousForControlTx env [session] owner db with
        | (db', Err e) => (db', Err e)
        | (db', Ok _) => stmt env 2 db' (db', Ok tt)
        end
    end).

(** The INSERT of [AdmitControlTx]. *)
Definition admit_insert (env : queue_env) (random : res string) (event : IngressEvent)
    (owner task status checkpoint code : string) (db : queue_db) : queue_db * res string :=
  match randomID "input-" random, marshal_event event with
  | Err e, _ | Ok _, Err e => (db, Err e)
  | Ok id, Ok encoded =>
      stmt env 1 db
        match jsonb encoded with
        | None => (db, Err err_json)
        | Some json =>
            let seq := qd_next_sequence db in
            let db' := set_sequence db (seq + 1) in
            let key := ev_idempotency_key event in
            if negb (bool_decide (status ∈ input_statuses)) then (db', Err err_check) else
            if bool_decide (is_Some (qd_inputs db !! id))
               || bool_decide (is_Some (find_delivery (ev_session_key event)
                                          (ev_source event) key db))
            then (db', Err err_unique) else
            if negb (bool_decide (is_Some (qd_sessions db !! ev_session_key event)))
               || negb (bool_decide (task = ""))
                  && negb (bool_decide (is_Some (qd_tasks db !! task)))
            then (db', Err err_foreign)
            else
              (set_inputs db' (<[id := new_input (qe_now env) seq event key owner json
                                         (nullString task) status checkpoint code]>
                                 (qd_inputs db)), Ok id)
        end
  end.

(** [AdmitControlTx]. *)
Definition AdmitControlTx (env : queue_env) (random : res string) (event : IngressEvent)
    (owner task status checkpoint code : string) (db : queue_db) : queue_db * res string :=
  let insert := admit_insert env random event owner task status checkpoint code in
  if bool_decide (checkpoint = "owner_control_applied")
  then stmt env 0 db (insert (cancel_ambiguous (qe_now env) "target resolved by owner control"
                                [ev_session_key event] owner db))
  else insert db.

(** ** Privacy deletions *)

(** What [redactPinnedRunsTx] and [redactMessagesTx] of
    [internal/memory/catalog/privacy.go] leave of an input: its identity, a
    marker in place of the event, and a finished status. *)
Definition erased_event (deletion event : string) (task : option string) : jval :=
  JObject [("privacy_redacted", JBool true); ("deletion_id", JString deletion);
           ("event_id", JString event);
           ("task_id", match task with Some t => JString t | None => JNull end)].

Definition erase_row (now : Z) (deletion : string) (r : InputRow) : InputRow :=
  set_updated_at now (set_error "privacy_redacted" "" (set_claim "" None
    (set_status (if input_terminal (ir_status r) then ir_status r else "cancelled")
    (set_checkpoint_json (JObject [("privacy_redacted", JBool true)])
    (set_event_json (erased_event deletion (ir_event_id r) (ir_task_id r)) r))))).

(** [runs] are the runs that the subquery finds for the deleted sources. *)
Definition redactInputsTx (env : queue_env) (deletion : string) (runs : list string)
    (db : queue_db) : queue_db * res unit :=
  stmt env 0 db
    ((update_rows (fun _ r => match ir_run_id r with
                              | Some run => bool_decide (run ∈ runs)
                              | None => false
                              end) (erase_row (qe_now env) deletion) db).1, Ok tt).

(** ** Other statements on the table *)

(** The UPDATE of [finalizeStoppedMode], of an input that its SELECT admits
    (blocked or failed, without a live claim), and that of [CloseStoppedTx],
    whose input has no claim: whatever their further guards decide
    ([proceed]). *)
Definition stop_row (now : Z) (r : InputRow) : InputRow :=
  set_updated_at (if bool_decide (ir_status r = "failed") then ir_updated_at r else now)
    (set_claim "" None (set_status "failed" r)).

Definition stopInputTx (env : queue_env) (input : string) (proceed : bool) (db : queue_db) :
    queue_db * res unit :=
  stmt env 0 db
    ((update_rows (fun id r => proceed && bool_decide (id = input)
         && bool_decide (ir_status r ∈ ["blocked"; "failed"])
         && match ir_claim_expires_at r with Some t => Z.leb t (qe_now env) | None => true end)
       (stop_row (qe_now env)) db).1, Ok tt).

(** [readyTx] of [internal/app/browser_outcome_reviews.go]: the input that
    waits for a live review of an outcome is ready ([paused]: its task is); a
    review that stayed open gives it at least a minute. *)
Definition ready_review_row (now : Z) (paused unresolved : bool) (r : InputRow) : InputRow :=
  set_updated_at now (set_not_before now
    (set_expires_at (if unresolved then Z.max (ir_expires_at r) (now + 60 * second)
                     else ir_expires_at r)
    (set_status (if paused then "blocked" else "queued") (set_checkpoint "interaction_ready" r)))).

Definition readyReviewTx (env : queue_env) (run_id review : string) (paused unresolved : bool)
    (db : queue_db) : queue_db * res unit :=
  let lost := ErrNew "actionauth.ErrOwnerOutcome" "owner outcome review unavailable" in
  stmt env 0 db
    (let u := update_rows (fun _ r =>
       bool_decide (ir_run_id r = Some run_id)
       && bool_decide (ir_checkpoint r = "awaiting_interaction")
       && bool_decide (interaction_id r = Some review)
       && bool_decide (jsonb_text (jsonb_get (Some (ir_checkpoint_json r)) "interaction") "kind"
                       = Some "effect_review")
       && bool_decide (ir_status r ∈ ["waiting_for_user"; "blocked"])
       && bool_decide (ir_claim_id r = "")
       && (Z.ltb (qe_now env) (ir_expires_at r) || unresolved))
       (ready_review_row (qe_now env) paused unresolved) db in
     if Nat.eqb u.2 1 || unresolved then (u.1, Ok tt) else (u.1, Err lost)).

(** The columns that the remaining statements set (of [action_slot.go],
    [bounded_admission.go], [converter_continuation.go], [model_retry.go],
    [operator_doctor.go], [communication_ingress.go] and of
    [communication/lifecycle.go]): bookkeeping that no acceptance, claim or
    status depends on. *)
Record row_marks := mkRowMarks {
  mk_checkpoint : string; mk_checkpoint_json : jval; mk_not_before : Z; mk_expires_at : Z;
  mk_max_attempts : Z; mk_updated_at : Z }.

Definition mark_row (m : row_marks) (r : InputRow) : InputRow :=
  set_updated_at (mk_updated_at m) (set_max_attempts (mk_max_attempts m)
    (set_expires_at (mk_expires_at m) (set_not_before (mk_not_before m)
    (set_checkpoint_json (mk_checkpoint_json m) (set_checkpoint (mk_checkpoint m) r))))).

(** ** Histories *)

(** The calls of the package, the privacy deletions and the other statements
    on the table; [OpMark] stands for any of those that set bookkeeping columns
    of an input, whatever their guards and values.  [OpOther] stands for every
    change of the other tables, [OpGap] for sequence numbers of rolled-back transactions; the
    owner controls admit a finished control or a queued continuation. *)
Inductive queue_op :=
| OpAccept (env : queue_env) (random : res string) (commit : option error)
    (event : IngressEvent) (owner task : string)
| OpAcceptWaiting (env : queue_env) (random : res string) (commit : option error)
    (event : IngressEvent) (owner : string)
| OpAcceptTx (env : queue_env) (random : res string) (event : IngressEvent)
    (owner task : string)
| OpExpireQueued (env : queue_env)
| OpClaim (env : queue_env) (epoch : Z) (locked : list string) (random : res string) (ttl : Z)
| OpRenew (env : queue_env) (c : InputRecord) (ttl : Z)
| OpSaveCheckpoint (env : queue_env) (run_id stage payload : string)
| OpFinish (env : queue_env) (c : InputRecord) (status code message : string) (delay : Z)
| OpSuspendApproval (env : queue_env) (run_id approval payload : string)
| OpReadyApproval (env : queue_env) (run_id approval : string)
| OpReadySelection (env : queue_env) (run_id approval : string)
| OpSuspendInteraction (env : queue_env) (run_id id kind : string)
| OpReadyInteraction (env : queue_env) (input id : string) (paused : bool)
| OpCloseInteraction (env : queue_env) (input id reason : string)
| OpHoldInteraction (env : queue_env) (input id : string)
| OpSavePreparation (pool : nat) (env : queue_env) (commit_now : Z)
    (commit : option (error * bool)) (run_id id payload : string)
| OpInvalidate (env : queue_env) (tasks : list string) (control : string)
| OpInvalidateSchedule (env : queue_env) (tasks : list string)
| OpResolveAmbiguous (env : queue_env) (sessions : list string) (owner : string)
| OpResolveConversation (env : queue_env) (session owner : string)
| OpAdmitControl (env : queue_env) (random : res string) (event : IngressEvent)
    (owner task : string) (applied : bool)
| OpRedactInputs (env : queue_env) (deletion : string) (runs : list string)
| OpStopInput (env : queue_env) (input : string) (proceed : bool)
| OpReadyReview (env : queue_env) (run_id review : string) (paused unresolved : bool)
| OpMark (input : string) (marks : row_marks)
| OpOther (other : queue_db)
| OpGap (n : nat).

Definition queue_apply (op : queue_op) (db : queue_db) : queue_db :=
  match op with
  | OpAccept env random commit event owner task => (Accept env random commit event owner task db).1
  | OpAcceptWaiting env random commit event owner => (AcceptWaiting env random commit event owner db).1
  | OpAcceptTx env random event owner task => (accept env random None event owner task "queued" "" db).1
  | OpExpireQueued env => (ExpireQueued env db).1
  | OpClaim env epoch locked random ttl => (Claim env epoch locked random ttl db).1
  | OpRenew env c ttl => (Renew env c ttl db).1
  | OpSaveCheckpoint env run_id stage payload => (SaveCheckpoint env run_id stage payload db).1
  | OpFinish env c status code message delay => (Finish env c status code message delay db).1
  | OpSuspendApproval env run_id approval payload =>
      (transaction db (SuspendApprovalTx env run_id approval payload db)).1
  | OpReadyApproval env run_id approval => (transaction db (ReadyApprovalTx env run_id approval db)).1
  | OpReadySelection env run_id approval => (transaction db (ReadySelectionTx env run_id approval db)).1
  | OpSuspendInteraction env run_id id kind =>
      (transaction db (SuspendPrivateInteractionTx env run_id id kind db)).1
  | OpReadyInteraction env input id paused =>
      (transaction db (ReadyInteractionTx env input id paused db)).1
  | OpCloseInteraction env input id reason =>
      (transaction db (CloseInteractionTx env input id reason db)).1
  | OpHoldInteraction env input id => (transaction db (HoldInteractionControlTx env input id db)).1
  | OpSavePreparation pool env commit_now commit run_id id payload =>
      tw_db (SaveInteractionPreparation pool env commit_now commit run_id id payload 0 db).1
  | OpInvalidate env tasks control => (transaction db (InvalidateForControlTx env tasks control db)).1
  | OpInvalidateSchedule env tasks => (transaction db (InvalidateForScheduleTx env tasks db)).1
  | OpResolveAmbiguous env sessions owner =>
      (transaction db (ResolveAmbiguousForControlTx env sessions owner db)).1
  | OpResolveConversation env session owner => (ResolveConversationAmbiguity env session owner db).1
  | OpAdmitControl env random event owner task applied =>
      let '(status, checkpoint) := if applied then ("completed", "owner_control_applied")
                                   else ("queued", "accepted") in
      match AdmitControlTx env random event owner task status checkpoint "" db with
      | (db', Ok _) => db'
      | (db', Err _) => set_sequence db (qd_next_sequence db')
      end
  | OpRedactInputs env deletion runs => (transaction db (redactInputsTx env deletion runs db)).1
  | OpStopInput env input proceed => (transaction db (stopInputTx env input proceed db)).1
  | OpReadyReview env run_id review paused unresolved =>
      (transaction db (readyReviewTx env run_id review paused unresolved db)).1
  | OpMark input marks => (update_rows (fun id _ => bool_decide (id = input)) (mark_row marks) db).1
  | OpOther other =>
      mkQueueDb (qd_ownership other) (qd_sessions other) (qd_tasks other) (qd_runs other)
        (qd_inputs db) (qd_next_sequence db) (qd_admissions other)
  | OpGap n => set_sequence db (qd_next_sequence db + Z.of_nat n)
  end.

Definition queue_history (ops : list queue_op) (db : queue_db) : queue_db :=
  fold_left (fun db op => queue_apply op db) ops db.

End queue.

(** ** The invariant *)

(** All earlier inputs of the session are finished. *)
Definition head_of (db : queue_db) (r : InputRow) : Prop :=
  forall id q, qd_inputs db !! id = Some q -> ir_session_key q = ir_session_key r ->
  ir_sequence q < ir_sequence r -> input_terminal (ir_status q) = true.

Record queue_ok (db : queue_db) : Prop := mkQueueOk {
  qo_sequence : forall id r, qd_inputs db !! id = Some r -> ir_sequence r < qd_next_sequence db;
  qo_distinct : forall a b ra rb, qd_inputs db !! a = Some ra -> qd_inputs db !! b = Some rb ->
    ir_sequence ra = ir_sequence rb -> a = b;
  qo_delivery : forall a b ra rb, qd_inputs db !! a = Some ra -> qd_inputs db !! b = Some rb ->
    same_delivery (ir_session_key ra) (ir_source ra) (ir_dedup_key ra) rb = true -> a = b;
  qo_status : forall id r, qd_inputs db !! id = Some r -> ir_status r ∈ input_statuses;
  qo_running : forall id r, qd_inputs db !! id = Some r -> ir_status r = "running" -> head_of db r;
}.

(** The event was replaced by the marker of a privacy deletion. *)
Definition event_erased (r : InputRow) : Prop :=
  exists deletion, ir_event_json r = erased_event deletion (ir_event_id r) (ir_task_id r).

#[local] Instance claim_before_total : Total claim_before.
Proof. intros a b. unfold claim_before. lia. Qed.

#[local] Instance claim_before_trans : Transitive claim_before.
Proof. intros a b c. unfold claim_before. lia. Qed.

Section erasing.
(** Whether a privacy deletion may be among the calls. *)
Context {erase : bool}.

(** What no call changes of an input; the event only by a privacy deletion. *)
Definition same_input (r r' : InputRow) : Prop :=
  ir_session_key r' = ir_session_key r /\ ir_sequence r' = ir_sequence r
  /\ ir_dedup_key r' = ir_dedup_key r /\ ir_source r' = ir_source r
  /\ ir_owner_id r' = ir_owner_id r /\ ir_event_id r' = ir_event_id r
  /\ ir_task_id r' = ir_task_id r /\ ir_accepted_at r' = ir_accepted_at r
  /\ (ir_event_json r' = ir_event_json r \/ erase = true /\ event_erased r').

Lemma same_input_refl r : same_input r r.
Proof. unfold same_input. split_and!; try reflexivity. by left. Qed.

Lemma same_input_trans r1 r2 r3 : same_input r1 r2 -> same_input r2 r3 -> same_input r1 r3.
Proof.
  intros (A1 & A2 & A3 & A4 & A5 & A6 & A7 & A8 & A9) (B1 & B2 & B3 & B4 & B5 & B6 & B7 & B8 & B9).
  split_and!; try congruence. destruct B9 as [B9|B9]; [|by right].
  destruct A9 as [A9|[He [d A9]]]; [left; congruence|right]. split; [exact He|].
  exists d. rewrite B9 A9. by f_equal.
Qed.

(** How a call at [now] may change a claim: not at all, end it, prolong it
    while it is valid, or replace it by the claim identifier it draws. *)
Definition claim_moves (now : Z) (draw : option string) (r r' : InputRow) : Prop :=
  ir_claim_id r' = ir_claim_id r /\ ir_claim_expires_at r' = ir_claim_expires_at r
  \/ ir_claim_expires_at r' = None
  \/ ir_claim_id r' = ir_claim_id r /\ ir_status r = "running"
     /\ (exists t, ir_claim_expires_at r = Some t /\ now < t)
  \/ draw = Some (ir_claim_id r').

(** How one call may change a row: a finished input keeps its status, and an
    input starts to run only as the head of its session and under a claim
    just drawn. *)
Definition row_moves (now : Z) (draw : option string) (db : queue_db) (r r' : InputRow) : Prop :=
  same_input r r'
  /\ (input_terminal (ir_status r) = true -> ir_status r' = ir_status r)
  /\ (ir_status r ∈ input_statuses -> ir_status r' ∈ input_statuses)
  /\ (ir_status r' = "running" ->
      ir_status r = "running" \/ head_of db r /\ draw = Some (ir_claim_id r'))
  /\ claim_moves now draw r r'.

Record queue_moves (now : Z) (draw : option string) (db db' : queue_db) : Prop := mkQueueMoves {
  qm_next : qd_next_sequence db <= qd_next_sequence db';
  qm_old : forall id r, qd_inputs db !! id = Some r ->
    exists r', qd_inputs db' !! id = Some r' /\ row_moves now draw db r r';
  qm_new : forall id r', qd_inputs db' !! id = Some r' -> qd_inputs db !! id = None ->
    qd_next_sequence db <= ir_sequence r' < qd_next_sequence db'
    /\ ir_status r' ∈ input_statuses /\ ir_status r' <> "running"
    /\ (forall a ra, qd_inputs db !! a = Some ra ->
        same_delivery (ir_session_key r') (ir_source r') (ir_dedup_key r') ra = false)
    /\ (forall a ra', qd_inputs db' !! a = Some ra' -> qd_inputs db !! a = None -> a = id);
}.

Lemma row_moves_refl now draw db r : row_moves now draw db r r.
Proof. unfold row_moves, claim_moves. pose proof (same_input_refl r). intuition. Qed.

Lemma same_delivery_spec session source key r :
  same_delivery session source key r = true
  <-> ir_session_key r = session /\ ir_source r = source /\ ir_dedup_key r = key.
Proof.
  unfold same_delivery. rewrite !andb_true_iff !bool_decide_eq_true. intuition.
Qed.

(** A row after a move is an old row moved or the new row. *)
Lemma queue_moves_back now draw db db' id r' : queue_moves now draw db db' -> qd_inputs db' !! id = Some r' ->
  (exists r, qd_inputs db !! id = Some r /\ row_moves now draw db r r') \/ qd_inputs db !! id = None.
Proof.
  intros [_ Hold _] H. destruct (qd_inputs db !! id) as [r|] eqn:E; [left|by right].
  destruct (Hold _ _ E) as (r'' & H' & Hm). rewrite H in H'. injection H' as <-.
  exists r. split; [reflexivity|exact Hm].
Qed.

Lemma head_of_moves now draw db db' r r' : queue_moves now draw db db' -> same_input r r' ->
  ir_sequence r < qd_next_sequence db -> head_of db r -> head_of db' r'.
Proof.
  intros Hm (Es & Eq & _) Hlt Hh id q' Hq Hs Hlt'. rewrite Es in Hs. rewrite Eq in Hlt'.
  destruct (queue_moves_back _ _ _ _ _ _ Hm Hq) as [(q & Hq0 & (Es' & Eq' & _) & Ht & _)|Hnew].
  - rewrite Es' in Hs. rewrite Eq' in Hlt'. pose proof (Hh _ _ Hq0 Hs Hlt') as Hterm.
    rewrite (Ht Hterm). exact Hterm.
  - destruct (qm_new _ _ _ _ Hm _ _ Hq Hnew) as [? _]. lia.
Qed.

(** Every move keeps the invariant. *)
Lemma queue_ok_moves now draw db db' : queue_ok db -> queue_moves now draw db db' -> queue_ok db'.
Proof.
  intros Hok Hm. split.
  - intros id r' H. pose proof (qm_next _ _ _ _ Hm) as Hnext.
    destruct (queue_moves_back _ _ _ _ _ _ Hm H) as [(r & H0 & (_ & Eq & _) & _)|Hn].
    + rewrite Eq. pose proof (qo_sequence _ Hok _ _ H0). lia.
    + destruct (qm_new _ _ _ _ Hm _ _ H Hn) as [? _]. lia.
  - intros a b ra' rb' Ha Hb E.
    destruct (queue_moves_back _ _ _ _ _ _ Hm Ha) as [(ra & Ha0 & (_ & Ea & _) & _)|Na];
      destruct (queue_moves_back _ _ _ _ _ _ Hm Hb) as [(rb & Hb0 & (_ & Eb & _) & _)|Nb].
    + rewrite Ea Eb in E. exact (qo_distinct _ Hok _ _ _ _ Ha0 Hb0 E).
    + destruct (qm_new _ _ _ _ Hm _ _ Hb Nb) as [? _]. pose proof (qo_sequence _ Hok _ _ Ha0). lia.
    + destruct (qm_new _ _ _ _ Hm _ _ Ha Na) as [? _]. pose proof (qo_sequence _ Hok _ _ Hb0). lia.
    + destruct (qm_new _ _ _ _ Hm _ _ Hb Nb) as (_ & _ & _ & _ & Hu). exact (Hu _ _ Ha Na).
  - intros a b ra' rb' Ha Hb E. apply same_delivery_spec in E as (E1 & E2 & E3).
    destruct (queue_moves_back _ _ _ _ _ _ Hm Ha) as [(ra & Ha0 & (A1 & _ & A3 & A2 & _) & _)|Na];
      destruct (queue_moves_back _ _ _ _ _ _ Hm Hb) as [(rb & Hb0 & (B1 & _ & B3 & B2 & _) & _)|Nb].
    + apply (qo_delivery _ Hok _ _ _ _ Ha0 Hb0). apply same_delivery_spec. split_and!; congruence.
    + destruct (qm_new _ _ _ _ Hm _ _ Hb Nb) as (_ & _ & _ & Hd & _). specialize (Hd _ _ Ha0).
      apply not_true_iff_false in Hd. case: Hd. apply same_delivery_spec. split_and!; congruence.
    + destruct (qm_new _ _ _ _ Hm _ _ Ha Na) as (_ & _ & _ & Hd & _). specialize (Hd _ _ Hb0).
      apply not_true_iff_false in Hd. case: Hd. apply same_delivery_spec. split_and!; congruence.
    + destruct (qm_new _ _ _ _ Hm _ _ Hb Nb) as (_ & _ & _ & _ & Hu). exact (Hu _ _ Ha Na).
  - intros id r' H. destruct (queue_moves_back _ _ _ _ _ _ Hm H) as [(r & H0 & _ & _ & Hs & _)|Hn].
    + exact (Hs (qo_status _ Hok _ _ H0)).
    + exact (proj1 (proj2 (qm_new _ _ _ _ Hm _ _ H Hn))).
  - intros id r' H Hrun.
    destruct (queue_moves_back _ _ _ _ _ _ Hm H) as [(r & H0 & Hsame & _ & _ & Hr & _)|Hn].
    + apply (head_of_moves now draw db db' r r' Hm Hsame (qo_sequence _ Hok _ _ H0)).
      destruct (Hr Hrun) as [Hwas|[Hhead _]]; [exact (qo_running _ Hok _ _ H0 Hwas)|exact Hhead].
    + destruct (qm_new _ _ _ _ Hm _ _ H Hn) as (_ & _ & Hno & _). by case: (Hno Hrun).
Qed.

(** ** Every call moves the queue *)

(** Calls that leave the set of inputs as it is. *)
Lemma queue_moves_rows now draw db db' : qd_next_sequence db <= qd_next_sequence db' ->
  (forall id, qd_inputs db' !! id = None <-> qd_inputs db !! id = None) ->
  (forall id r r', qd_inputs db !! id = Some r -> qd_inputs db' !! id = Some r' ->
     row_moves now draw db r r') ->
  queue_moves now draw db db'.
Proof.
  intros Hn Hdom Hrow. split; [exact Hn| |].
  - intros id r H. destruct (qd_inputs db' !! id) as [r'|] eqn:E.
    + exists r'. split; [reflexivity|exact (Hrow _ _ _ H E)].
    + apply Hdom in E. congruence.
  - intros id r' H Hnone. apply Hdom in Hnone. congruence.
Qed.

Lemma queue_moves_same now draw db db' : qd_next_sequence db <= qd_next_sequence db' ->
  qd_inputs db' = qd_inputs db -> queue_moves now draw db db'.
Proof.
  intros Hn E. apply queue_moves_rows; [exact Hn|by rewrite E|].
  intros id r r' H H'. rewrite E in H'. replace r' with r by congruence. apply row_moves_refl.
Qed.

Lemma queue_moves_refl now draw db : queue_moves now draw db db.
Proof. apply queue_moves_same; [lia|reflexivity]. Qed.

Lemma update_rows_lookup p f db id :
  qd_inputs (update_rows p f db).1 !! id
  = (fun r => if p id r then f r else r) <$> qd_inputs db !! id.
Proof. simpl. rewrite map_lookup_imap. by destruct (qd_inputs db !! id). Qed.

Lemma queue_moves_update now draw p f db :
  (forall id r, qd_inputs db !! id = Some r -> p id r = true -> row_moves now draw db r (f r)) ->
  queue_moves now draw db (update_rows p f db).1.
Proof.
  intros Hf. apply queue_moves_rows; [simpl; lia| |].
  - intros id. rewrite update_rows_lookup. by destruct (qd_inputs db !! id).
  - intros id r r' H. rewrite update_rows_lookup H /=. intros [= <-].
    destruct (p id r) eqn:E; [exact (Hf _ _ H E)|apply row_moves_refl].
Qed.

Lemma queue_moves_insert now draw id r r' db : qd_inputs db !! id = Some r -> row_moves now draw db r r' ->
  queue_moves now draw db (set_inputs db (<[id := r']> (qd_inputs db))).
Proof.
  intros H Hr. apply queue_moves_rows; [simpl; lia| |]; simpl.
  - intros i. rewrite lookup_insert_None. split; [tauto|]. intros Hi. split; [exact Hi|congruence].
  - intros i q q' Hq. destruct (decide (id = i)) as [<-|Hne].
    + rewrite lookup_insert_eq. intros [= <-]. by replace q with r by congruence.
    + rewrite lookup_insert_ne; [done|]. intros Hq'. replace q' with q by congruence.
      apply row_moves_refl.
Qed.

Lemma unfinished_statuses s l : s ∈ l -> forallb (fun x => negb (input_terminal x)) l = true ->
  input_terminal s = true -> False.
Proof.
  intros Hin Hl Ht. rewrite forallb_forall in Hl.
  apply list_elem_of_In in Hin. specialize (Hl _ Hin). by rewrite Ht in Hl.
Qed.

Lemma unfinished_running s : s = "running" -> input_terminal s = true -> False.
Proof. by intros ->. Qed.

(** A changed row whose status stays, or was not a finished one. *)
Ltac row_move :=
  split; [unfold same_input; split_and!; first [reflexivity|left; reflexivity]|];
  split_and!; simpl in *; intros;
  try match goal with
  | H : ir_status ?r ∈ ?l, Ht : input_terminal (ir_status ?r) = true |- _ =>
      case: (unfinished_statuses _ _ H eq_refl Ht)
  | H : ir_status ?r = "running", Ht : input_terminal (ir_status ?r) = true |- _ =>
      case: (unfinished_running _ H Ht)
  end;
  first [ done | discriminate | by left | by right; split
        | by left; split | by right; left | by right; right; right | by apply (bool_decide_unpack _)
        | idtac ].

Lemma claim_valid_true now input claim id r : claim_valid now input claim id r = true ->
  id = input /\ ir_claim_id r = claim /\ ir_status r = "running"
  /\ exists t, ir_claim_expires_at r = Some t /\ now < t.
Proof.
  unfold claim_valid. destruct (ir_claim_expires_at r) as [t|]; rewrite ?andb_false_r; [|done].
  intros H. unbool. split_and!; [done..|]. exists t. split; [reflexivity|lia].
Qed.

Lemma transaction_moves {A} now draw db (work : queue_db * res A) :
  queue_moves now draw db work.1 -> queue_moves now draw db (transaction db work).1.
Proof. destruct work as [db' [a|e]]; simpl; [done|]. intros _. apply queue_moves_refl. Qed.

Lemma stmt_moves {A} now draw env n db (k : queue_db * res A) :
  queue_moves now draw db k.1 -> queue_moves now draw db (stmt env n db k).1.
Proof. unfold stmt. destruct (qe_fault env n); [|done]. intros _. apply queue_moves_refl. Qed.

Lemma fenced_moves {A} now draw env db (k : queue_db * res A) :
  queue_moves now draw db k.1 -> queue_moves now draw db (queue_fenced env db k).1.
Proof.
  unfold queue_fenced. destruct (Begin _ _ _ _); [done|]. intros _. apply queue_moves_refl.
Qed.

Lemma exactly_one_moves now draw lost db u :
  queue_moves now draw db u.1 -> queue_moves now draw db (exactly_one lost db u).1.
Proof. unfold exactly_one. by destruct (Nat.eqb _ _). Qed.

#[local] Hint Resolve queue_moves_refl transaction_moves stmt_moves fenced_moves
  exactly_one_moves queue_moves_update : go.

Lemma is_head_spec db r : is_head db r = true -> head_of db r.
Proof.
  unfold is_head. rewrite forallb_forall. intros H id q Hq Hs Hlt.
  specialize (H (id, q)). rewrite -list_elem_of_In elem_of_map_to_list in H.
  specialize (H Hq). simpl in H. rewrite bool_decide_true // in H.
  apply Z.ltb_lt in Hlt. by rewrite Hlt in H.
Qed.

Lemma claimable_spec now epoch db id r : claimable now epoch db id r = true ->
  (ir_status r ∈ ["queued"; "running"]) /\ ir_not_before r <= now
  /\ (forall t, ir_claim_expires_at r = Some t -> t <= now) /\ head_of db r.
Proof.
  unfold claimable. intros H. unbool. split_and!; [done|done| |by apply is_head_spec].
  intros t E. rewrite E in H1. unbool. lia.
Qed.

Lemma find_delivery_None session source key db : find_delivery session source key db = None ->
  forall a ra, qd_inputs db !! a = Some ra -> same_delivery session source key ra = false.
Proof.
  unfold find_delivery. intros H a ra Ha. apply not_true_iff_false. intros Hs.
  assert (Hin : (a, ra) ∈ filter (fun kr => same_delivery session source key kr.2 = true)
                  (map_to_list (qd_inputs db))).
  { apply list_elem_of_filter. split; [exact Hs|]. by apply elem_of_map_to_list. }
  destruct (filter _ _); [by apply not_elem_of_nil in Hin|discriminate].
Qed.

(** One fresh row, with the next sequence number. *)
Lemma queue_moves_new now draw db id row :
  qd_inputs db !! id = None -> ir_sequence row = qd_next_sequence db ->
  ir_status row ∈ input_statuses -> ir_status row <> "running" ->
  find_delivery (ir_session_key row) (ir_source row) (ir_dedup_key row) db = None ->
  queue_moves now draw db (set_inputs (set_sequence db (qd_next_sequence db + 1))
                    (<[id := row]> (qd_inputs db))).
Proof.
  intros Hnone Hseq Hst Hrun Hf. split; simpl; [lia| |].
  - intros a r Ha. exists r. rewrite lookup_insert_ne; [congruence|].
    split; [exact Ha|apply row_moves_refl].
  - intros a r' Ha Hn. destruct (decide (id = a)) as [<-|Hne].
    2:{ rewrite lookup_insert_ne in Ha; congruence. }
    rewrite lookup_insert_eq in Ha. injection Ha as <-.
    split_and!; [lia|lia|exact Hst|exact Hrun|exact (find_delivery_None _ _ _ _ Hf)|].
    intros b rb Hb Hbn. destruct (decide (id = b)); [done|].
    rewrite lookup_insert_ne in Hb; congruence.
Qed.

(** The sequence number is used, the rows are as they were. *)
Lemma queue_moves_sequence now draw db n : qd_next_sequence db <= n -> queue_moves now draw db (set_sequence db n).
Proof. intros. by apply queue_moves_same. Qed.

Lemma claim_before_refl a : claim_before a a.
Proof. unfold claim_before. lia. Qed.

Lemma candidates_elem now epoch lock db id r : (id, r) ∈ candidates now epoch lock db <->
  claimable now epoch db id r = true /\ (id ∉ lock) /\ qd_inputs db !! id = Some r.
Proof.
  unfold candidates. rewrite merge_sort_Permutation list_elem_of_filter elem_of_map_to_list /=.
  tauto.
Qed.

Section moves.
Context (jsonb : string -> option jval) (json_text : jval -> string)
  (timestamptz : string -> option Z)
  (marshal_event : IngressEvent -> res string) (unmarshal_event : jval -> res IngressEvent).

Lemma insert_input_moves env id event encoded key owner task status code db :
  status <> "running" ->
  queue_moves (qe_now env) None db
    (insert_input jsonb env id event encoded key owner task status code db).1.
Proof.
  intros Hrun. unfold insert_input. apply stmt_moves. destruct (jsonb encoded); [|auto with go].
  destruct (task_admits _ _ _ _); simpl; [|auto with go].
  assert (Hseq : queue_moves (qe_now env) None db (set_sequence db (qd_next_sequence db + 1)))
    by (apply queue_moves_sequence; lia).
  case_bool_decide as Hst; simpl; [|exact Hseq].
  case_bool_decide as Hf; [exact Hseq|]. case_bool_decide as Hi; [exact Hseq|].
  apply queue_moves_new; simpl; [by apply eq_None_not_Some|done|done|done|].
  by apply eq_None_not_Some.
Qed.

Lemma accepted_before_same env event owner task key db :
  (accepted_before json_text unmarshal_event env event owner task key db).1 = db.
Proof.
  unfold accepted_before. destruct (qe_fault env 2); [done|].
  destruct (find_delivery _ _ _ _) as [[id r]|]; [|done]. destruct (scan_input _ _ _ _); [|done].
  by destruct (_ || _).
Qed.

Lemma acceptTx_moves env random event owner task status code db :
  status <> "running" ->
  queue_moves (qe_now env) None db
    (acceptTx jsonb json_text marshal_event unmarshal_event env random event owner task status
       code db).1.
Proof.
  intros Hrun. unfold acceptTx. apply stmt_moves. destruct (qd_sessions db !! _); [|auto with go].
  case_bool_decide; simpl; [|auto with go]. destruct (randomID _ _) as [id|]; [|auto with go].
  destruct (marshal_event event) as [encoded|]; [|auto with go].
  case_bool_decide; [auto with go|].
  pose proof (insert_input_moves env id event encoded (delivery_key event) owner task status code db
                Hrun) as Hm.
  destruct (insert_input _ _ _ _ _ _ _ _ _ _ _) as [db' [[[id' row]|]|e]]; simpl in *;
    [|by rewrite accepted_before_same|exact Hm].
  by destruct (scan_input _ _ _ _).
Qed.

Lemma accept_moves env random commit event owner task status code db :
  status <> "running" ->
  queue_moves (qe_now env) None db
    (accept jsonb json_text marshal_event unmarshal_event env random commit event owner task
       status code db).1.
Proof.
  intros Hrun. unfold accept. pose proof (acceptTx_moves env random event owner task status code db
    Hrun) as Hm.
  destruct (acceptTx _ _ _ _ _ _ _ _ _ _ _ _) as [db' [a|e]]; simpl in *.
  - destruct commit; [|exact Hm]. exact (queue_moves_sequence _ _ _ _ (qm_next _ _ _ _ Hm)).
  - exact (queue_moves_sequence _ _ _ _ (qm_next _ _ _ _ Hm)).
Qed.

(** The identifier a claim draws. *)
Definition drawn (random : res string) : option string :=
  match randomID "claim-" random with Ok claim => Some claim | Err _ => None end.

Lemma Claim_moves env epoch locked random ttl db :
  queue_moves (qe_now env) (drawn random) db (Claim json_text unmarshal_event env epoch locked random ttl db).1.
Proof.
  unfold Claim, drawn. destruct (randomID _ _) as [claim|]; [|auto with go]. apply stmt_moves.
  destruct (candidates _ _ _ _) as [|[id r] rest] eqn:E; [auto with go|].
  assert (Hin : (id, r) ∈ candidates (qe_now env) epoch locked db) by (rewrite E; left).
  unfold candidates in Hin. rewrite merge_sort_Permutation in Hin.
  apply list_elem_of_filter in Hin as [[Hc _] Hin]. apply elem_of_map_to_list in Hin.
  apply claimable_spec in Hc as (Hst & _ & _ & Hhead).
  apply (queue_moves_insert _ _ id r); [exact Hin|]. row_move.
Qed.

Lemma SaveCheckpoint_moves env run_id stage payload db :
  queue_moves (qe_now env) None db (SaveCheckpoint jsonb env run_id stage payload db).1.
Proof.
  unfold SaveCheckpoint. destruct (qe_claim env) as [c|]; [|auto with go].
  apply fenced_moves, stmt_moves. destruct (jsonb payload); [|auto with go].
  destruct (qd_inputs db !! _) as [r|] eqn:Hr; [|auto with go].
  destruct (claim_valid _ _ _ _ _); [|auto with go]. destruct (stage_json _ _ _); [|auto with go].
  case_bool_decide; [|auto with go]. apply (queue_moves_insert _ _ _ r); [exact Hr|]. row_move.
Qed.

Lemma Finish_moves env c status code message delay db :
  queue_moves (qe_now env) None db (Finish json_text timestamptz env c status code message delay db).1.
Proof.
  unfold Finish. apply stmt_moves. destruct (qd_inputs db !! _) as [r|] eqn:Hr; [|auto with go].
  destruct (claim_valid _ _ _ _ _) eqn:Hv; [|auto with go]. simpl.
  apply claim_valid_true in Hv as (_ & _ & Hs & _).
  match goal with |- context [match ?x with Ok _ => _ | Err _ => _ end] => destruct x end;
    [|auto with go].
  destruct (bool_decide (finish_status _ _ _ ∈ _)) eqn:Hf; [|auto with go]. unbool. simpl.
  apply (queue_moves_insert _ _ _ r); [exact Hr|]. row_move.
Qed.

Lemma save_preparation_moves env c run_id id payload db :
  queue_moves (qe_now env) None db (save_preparation jsonb json_text env c run_id id payload db).1.
Proof.
  unfold save_preparation. apply stmt_moves. destruct (jsonb payload); [|auto with go].
  destruct (qd_inputs db !! _) as [r|] eqn:Hr; [|auto with go].
  destruct (_ && _); [|auto with go]. destruct (jsonb_set _ _ _); [|auto with go]. simpl.
  apply (queue_moves_insert _ _ _ r); [exact Hr|]. row_move.
Qed.

End moves.

Section history.
Context (jsonb : string -> option jval) (json_text : jval -> string)
  (timestamptz : string -> option Z)
  (marshal_event : IngressEvent -> res string) (unmarshal_event : jval -> res IngressEvent).

Lemma cancel_ambiguous_moves t draw now message sessions owner db :
  queue_moves t draw db (cancel_ambiguous now message sessions owner db).
Proof.
  apply queue_moves_update. intros id r _ Hp. unbool.
  assert (Hs : ir_status r ∈ ["waiting_for_user"]) by set_solver.
  row_move.
Qed.

Lemma cancel_tasks_moves t draw now tasks code message db :
  queue_moves t draw db
    (update_rows (fun _ r => of_tasks tasks r && negb (input_terminal (ir_status r)))
       (cancel_row now code message) db).1.
Proof. apply queue_moves_update. intros id r _ Hp. unbool. row_move. congruence. Qed.

Lemma ready_moves t draw now checkpoint (p : string -> InputRow -> bool) db :
  (forall id r, p id r = true ->
     ir_status r ∈ ["running"; "waiting_for_user"; "blocked"; "queued"]) ->
  queue_moves t draw db (update_rows p (ready_row now checkpoint) db).1.
Proof.
  intros Hp. apply queue_moves_update. intros id r _ Hpr. specialize (Hp _ _ Hpr).
  unfold ready_row. destruct (decide (ir_status r = "running")) as [Hr|Hr].
  - rewrite bool_decide_true //. row_move.
  - rewrite bool_decide_false //. row_move.
Qed.

Lemma admit_insert_moves env random event owner task status checkpoint code db :
  status <> "running" ->
  queue_moves (qe_now env) None db
    (admit_insert jsonb marshal_event env random event owner task status checkpoint code db).1.
Proof.
  intros Hrun. unfold admit_insert. destruct (randomID _ _) as [id|]; [|auto with go].
  destruct (marshal_event event) as [encoded|]; [|auto with go]. apply stmt_moves.
  destruct (jsonb encoded); [|auto with go].
  assert (Hseq : queue_moves (qe_now env) None db (set_sequence db (qd_next_sequence db + 1)))
    by (apply queue_moves_sequence; lia).
  case_bool_decide as Hst; simpl; [|exact Hseq].
  destruct (_ || _) eqn:Hf; [exact Hseq|]. apply orb_false_iff in Hf as [Hi Hf].
  destruct (_ || _); [exact Hseq|]. unbool.
  apply queue_moves_new; simpl; [by apply eq_None_not_Some|done|done|done|].
  by apply eq_None_not_Some.
Qed.

(** In two moves: the ambiguous inputs are cancelled, the control comes in. *)
Lemma AdmitControlTx_moves env random event owner task status checkpoint code db :
  status <> "running" ->
  exists db1, queue_moves (qe_now env) None db db1 /\ queue_moves (qe_now env) None db1
    (AdmitControlTx jsonb marshal_event env random event owner task status checkpoint code db).1.
Proof.
  intros Hrun. unfold AdmitControlTx.
  destruct (decide (checkpoint = "owner_control_applied")) as [E|E].
  - rewrite bool_decide_true //. unfold stmt at 1. destruct (qe_fault env 0).
    + exists db. split; apply queue_moves_refl.
    + eexists. split; [apply cancel_ambiguous_moves|by apply admit_insert_moves].
  - rewrite bool_decide_false //. exists db.
    split; [apply queue_moves_refl|by apply admit_insert_moves].
Qed.

(** The clock a call reads, if any. *)
Definition op_env (op : queue_op) : option queue_env :=
  match op with
  | OpAccept e _ _ _ _ _ | OpAcceptWaiting e _ _ _ _ | OpAcceptTx e _ _ _ _ | OpExpireQueued e
  | OpClaim e _ _ _ _ | OpRenew e _ _ | OpSaveCheckpoint e _ _ _ | OpFinish e _ _ _ _ _
  | OpSuspendApproval e _ _ _ | OpReadyApproval e _ _ | OpReadySelection e _ _
  | OpSuspendInteraction e _ _ _ | OpReadyInteraction e _ _ _ | OpCloseInteraction e _ _ _
  | OpHoldInteraction e _ _ | OpSavePreparation _ e _ _ _ _ _ | OpInvalidate e _ _
  | OpInvalidateSchedule e _ | OpResolveAmbiguous e _ _ | OpResolveConversation e _ _
  | OpAdmitControl e _ _ _ _ _ | OpRedactInputs e _ _ | OpStopInput e _ _
  | OpReadyReview e _ _ _ _ => Some e
  | OpMark _ _ | OpOther _ | OpGap _ => None
  end.

Definition at_or_after (t : Z) (op : queue_op) : Prop :=
  match op_env op with Some e => t <= qe_now e | None => True end.

(** The claim identifier a call draws. *)
Definition op_draw (op : queue_op) : option string :=
  match op with OpClaim _ _ _ random _ => drawn random | _ => None end.

Definition redacts (op : queue_op) : bool :=
  match op with OpRedactInputs _ _ _ => true | _ => false end.

(** A claim still valid later was valid before. *)
Lemma queue_moves_earlier t now draw db db' : t <= now -> queue_moves now draw db db' ->
  queue_moves t draw db db'.
Proof.
  intros Ht [Hn Ho Hnew]. split; [exact Hn| |exact Hnew]. intros id r H.
  destruct (Ho _ _ H) as (r' & H' & Hs & H1 & H2 & H3 & Hc). exists r'. split; [exact H'|].
  split_and!; [exact Hs|exact H1|exact H2|exact H3|].
  destruct Hc as [Hc|[Hc|[(Hi & Hr & u & Hu & Hlt)|Hc]]]; unfold claim_moves; [tauto|tauto| |tauto].
  right; right; left. split_and!; [exact Hi|exact Hr|]. exists u. split; [exact Hu|lia].
Qed.

Abbreviation apply_op := (queue_apply jsonb json_text timestamptz marshal_event unmarshal_event).
Abbreviation history := (queue_history jsonb json_text timestamptz marshal_event unmarshal_event).

Lemma SaveInteractionPreparation_moves pool env commit_now commit run_id id payload slots db :
  queue_moves (qe_now env) None db
    (tw_db (SaveInteractionPreparation jsonb json_text pool env commit_now commit run_id id
              payload slots db).1).
Proof.
  unfold SaveInteractionPreparation. destruct (qe_claim env) as [c|]; [|auto with go].
  destruct (TokenFromContext _); [|auto with go]. destruct (negb _); [auto with go|].
  destruct (BeginTransaction _ _ _ _ _ _) as [w1 r] eqn:E.
  apply BeginTransaction_db in E as [Hw Ht].
  assert (Hsame : queue_moves (qe_now env) None db (tw_db w1)) by (rewrite Hw; auto with go).
  destruct r as [[ctx [|tx]]|e]; [done| |done]. specialize (Ht ctx tx eq_refl). rewrite Ht.
  pose proof (save_preparation_moves jsonb json_text env c run_id id payload (tw_db (mkWorld db slots)))
    as Hm.
  destruct (save_preparation _ _ _ _ _ _ _ _) as [db' [[]|e]]; simpl in *;
    [|by rewrite Rollback_db].
  match goal with |- context [Commit ?a ?b ?c0 ?d ?e0 ?f] =>
    destruct (Commit_db a b c0 d e0 f) as [Hc|Hc];
    destruct (Commit a b c0 d e0 f) as [[t2 w2] [err|]] end; simpl in Hc |- *; rewrite Hc; done.
Qed.

Lemma erase_row_moves t draw now deletion db r : erase = true ->
  row_moves t draw db r (erase_row now deletion r).
Proof.
  intros He. split_and!; simpl.
  - split_and!; try reflexivity. right. split; [exact He|]. by exists deletion.
  - by intros ->.
  - intros Hin. destruct (input_terminal _); [exact Hin|set_solver].
  - destruct (input_terminal _) eqn:Et; [|discriminate]. intros Hr. by left.
  - right. by left.
Qed.

Lemma stop_row_moves t draw now db r : ir_status r ∈ ["blocked"; "failed"] ->
  row_moves t draw db r (stop_row now r).
Proof.
  intros Hs. split_and!; simpl.
  - split_and!; try reflexivity. by left.
  - apply elem_of_cons in Hs as [->|Hs]; [by vm_compute|]. apply list_elem_of_singleton in Hs. by rewrite Hs.
  - intros _. set_solver.
  - discriminate.
  - right. by left.
Qed.

(** Every call is one or two moves. *)
Lemma queue_apply_moves t op db : at_or_after t op -> (redacts op = true -> erase = true) ->
  rtc (queue_moves t (op_draw op)) db (apply_op op db).
Proof.
  unfold at_or_after. destruct op; cbn [op_env op_draw redacts queue_apply]; intros Ht He;
    try (apply rtc_once, (queue_moves_earlier _ _ _ _ _ Ht);
         first [ apply accept_moves; discriminate | apply Claim_moves
               | apply SaveCheckpoint_moves | apply Finish_moves
               | apply SaveInteractionPreparation_moves ]).
  - apply rtc_once, (queue_moves_earlier _ _ _ _ _ Ht), stmt_moves, queue_moves_update. intros id r _ Hp. unbool.
    assert (Hs : ir_status r ∈ ["queued"]) by set_solver. row_move.
  - apply rtc_once, (queue_moves_earlier _ _ _ _ _ Ht), stmt_moves, exactly_one_moves, queue_moves_update. intros id r _ Hp.
    row_move. apply claim_valid_true in Hp as (_ & _ & Hs & Ht'). right; right; left. by split_and!.
  - apply rtc_once, (queue_moves_earlier _ _ _ _ _ Ht), transaction_moves. unfold SuspendApprovalTx.
    destruct (qe_claim env); [|auto with go]. apply stmt_moves.
    destruct (jsonb payload); [|auto with go]. apply exactly_one_moves, queue_moves_update.
    intros id r _ Hp. row_move.
  - apply rtc_once, (queue_moves_earlier _ _ _ _ _ Ht), transaction_moves, stmt_moves, exactly_one_moves, ready_moves.
    intros id r Hp. unbool. set_solver.
  - apply rtc_once, (queue_moves_earlier _ _ _ _ _ Ht), transaction_moves, stmt_moves, exactly_one_moves, ready_moves.
    intros id r Hp. unbool. done.
  - apply rtc_once, (queue_moves_earlier _ _ _ _ _ Ht), transaction_moves. unfold SuspendPrivateInteractionTx.
    destruct (negb _); [auto with go|]. destruct (qe_claim env); [|auto with go].
    destruct (TokenFromContext _); [|auto with go]. destruct (_ || _); [auto with go|].
    apply stmt_moves, exactly_one_moves, queue_moves_update. intros a r _ Hp. row_move.
  - apply rtc_once, (queue_moves_earlier _ _ _ _ _ Ht), transaction_moves, stmt_moves, exactly_one_moves, queue_moves_update.
    intros a r _ Hp. unbool. destruct paused; [row_move|].
    destruct (bool_decide (ir_status r = "running") && _) eqn:Eh; unbool; row_move.
  - apply rtc_once, (queue_moves_earlier _ _ _ _ _ Ht), transaction_moves, stmt_moves, queue_moves_update.
    intros a r _ Hp. unbool. row_move.
  - apply rtc_once, (queue_moves_earlier _ _ _ _ _ Ht), transaction_moves, stmt_moves, exactly_one_moves, queue_moves_update.
    intros a r _ Hp. unbool. assert (Hs : ir_status r ∈ ["queued"]) by set_solver. row_move.
  - apply rtc_once, (queue_moves_earlier _ _ _ _ _ Ht), transaction_moves, stmt_moves, stmt_moves, cancel_tasks_moves.
  - apply rtc_once, (queue_moves_earlier _ _ _ _ _ Ht), transaction_moves, stmt_moves, cancel_tasks_moves.
  - apply rtc_once, (queue_moves_earlier _ _ _ _ _ Ht), transaction_moves, stmt_moves, cancel_ambiguous_moves.
  - apply rtc_once, (queue_moves_earlier _ _ _ _ _ Ht), transaction_moves, stmt_moves.
    destruct (qd_sessions db !! session); [|auto with go]. destruct (negb _); [auto with go|].
    unfold ResolveAmbiguousForControlTx, stmt. destruct (qe_fault env 1); [auto with go|].
    destruct (qe_fault env 2); apply cancel_ambiguous_moves.
  - destruct (if applied then _ else _) as [status checkpoint] eqn:Es.
    assert (Hrun : status <> "running") by (destruct applied; congruence).
    destruct (AdmitControlTx_moves env random event owner task status checkpoint "" db Hrun)
      as (db1 & H1 & H2).
    destruct (AdmitControlTx _ _ _ _ _ _ _ _ _ _ _) as [db2 [id|e]]; simpl in *.
    + apply (rtc_l _ _ _ _ (queue_moves_earlier _ _ _ _ _ Ht H1)).
      exact (rtc_once _ _ (queue_moves_earlier _ _ _ _ _ Ht H2)).
    + apply rtc_once, queue_moves_sequence. pose proof (qm_next _ _ _ _ H1).
      pose proof (qm_next _ _ _ _ H2). lia.
  - apply rtc_once, (queue_moves_earlier _ _ _ _ _ Ht), transaction_moves, stmt_moves,
      queue_moves_update. intros id r _ _. by apply erase_row_moves, He.
  - apply rtc_once, (queue_moves_earlier _ _ _ _ _ Ht), transaction_moves, stmt_moves,
      queue_moves_update. intros id r _ Hp. unbool. by apply stop_row_moves.
  - apply rtc_once, (queue_moves_earlier _ _ _ _ _ Ht), transaction_moves, stmt_moves. cbv zeta.
    match goal with |- context [update_rows ?p ?f db] =>
      assert (Hu : queue_moves (qe_now env) None db (update_rows p f db).1);
        [|by destruct (_ || _)] end.
    apply queue_moves_update. intros a r _ Hp. unbool. destruct paused; row_move.
  - apply rtc_once, queue_moves_update. intros a r _ _. row_move.
  - apply rtc_once, queue_moves_same; [simpl; lia|reflexivity].
  - apply rtc_once, queue_moves_sequence. lia.
Qed.

(** A move keeps what an input is, and a finished input's status. *)
Definition row_kept (db db' : queue_db) : Prop :=
  forall id r, qd_inputs db !! id = Some r ->
  exists r', qd_inputs db' !! id = Some r' /\ same_input r r'
    /\ (input_terminal (ir_status r) = true -> ir_status r' = ir_status r).

Lemma row_kept_trans db1 db2 db3 : row_kept db1 db2 -> row_kept db2 db3 -> row_kept db1 db3.
Proof.
  intros H12 H23 id r H. destruct (H12 _ _ H) as (r2 & H2 & S2 & T2).
  destruct (H23 _ _ H2) as (r3 & H3 & S3 & T3). exists r3. split; [exact H3|].
  split; [exact (same_input_trans _ _ _ S2 S3)|]. intros Ht.
  pose proof (T2 Ht) as E2. rewrite -E2. apply T3. by rewrite E2.
Qed.

Lemma rtc_moves_ok t draw db db' : rtc (queue_moves t draw) db db' -> queue_ok db ->
  queue_ok db' /\ row_kept db db'.
Proof.
  induction 1 as [db|db1 db2 db3 H12 _ IH]; intros Hok.
  - split; [exact Hok|]. intros id r H. exists r. split; [exact H|]. split; [|done].
    apply same_input_refl.
  - destruct (IH (queue_ok_moves _ _ _ _ Hok H12)) as [Hok3 Hk]. split; [exact Hok3|].
    apply (row_kept_trans _ db2); [|exact Hk]. intros id r H.
    destruct (qm_old _ _ _ _ H12 _ _ H) as (r' & H' & Hs & Ht & _). exists r'. by split_and!.
Qed.

Lemma at_or_after_some op : exists t, at_or_after t op.
Proof.
  unfold at_or_after. destruct (op_env op) as [e|]; [exists (qe_now e); lia|exists 0; exact I].
Qed.

Lemma queue_history_ok ops db : queue_ok db -> (existsb redacts ops = true -> erase = true) ->
  queue_ok (history ops db) /\ row_kept db (history ops db).
Proof.
  revert db. induction ops as [|op ops IH]; intros db Hok He.
  - exact (rtc_moves_ok 0 None _ _ (rtc_refl _ _) Hok).
  - destruct (at_or_after_some op) as [t Ht].
    simpl in He. rewrite orb_true_iff in He.
    destruct (rtc_moves_ok _ _ _ _ (queue_apply_moves t op db Ht (fun H => He (or_introl H))) Hok)
      as [Hok1 Hk1].
    destruct (IH _ Hok1 (fun H => He (or_intror H))) as [Hok2 Hk2]. split; [exact Hok2|].
    exact (row_kept_trans _ _ _ Hk1 Hk2).
Qed.
End history.
End erasing.
Arguments same_input erase r r' : clear implicits.

(** ** What a history keeps *)

Section promises.
Context (jsonb : string -> option jval) (json_text : jval -> string)
  (timestamptz : string -> option Z)
  (marshal_event : IngressEvent -> res string) (unmarshal_event : jval -> res IngressEvent).
Abbreviation apply_op := (queue_apply jsonb json_text timestamptz marshal_event unmarshal_event).
Abbreviation history := (queue_history jsonb json_text timestamptz marshal_event unmarshal_event).

(** C21: In every history of the package's calls, the privacy deletions and the
    other statements on the table, at most one input of a session runs at a
    time, it runs only when every earlier input of the session is finished, and
    an accepted input never disappears, changes its identity (its event only by
    a privacy deletion) or leaves a finished status. *)
Theorem session_inputs_serial ops db : queue_ok db ->
  let db' := history ops db in
  (forall a b ra rb, qd_inputs db' !! a = Some ra -> qd_inputs db' !! b = Some rb ->
     ir_session_key ra = ir_session_key rb -> ir_status ra = "running" ->
     ir_status rb = "running" -> a = b)
  /\ (forall a b ra rb, qd_inputs db' !! a = Some ra -> qd_inputs db' !! b = Some rb ->
     ir_session_key rb = ir_session_key ra -> ir_sequence rb < ir_sequence ra ->
     ir_status ra = "running" -> input_terminal (ir_status rb) = true)
  /\ (forall id r, qd_inputs db !! id = Some r ->
     exists r', qd_inputs db' !! id = Some r' /\ same_input (existsb redacts ops) r r'
       /\ (input_terminal (ir_status r) = true -> ir_status r' = ir_status r)).
Proof.
  intros Hok db'.
  destruct (queue_history_ok (erase := existsb redacts ops) jsonb json_text timestamptz marshal_event
    unmarshal_event ops db Hok id) as [Hok' Hk].
  assert (Hh : forall a b ra rb, qd_inputs db' !! a = Some ra -> qd_inputs db' !! b = Some rb ->
     ir_session_key rb = ir_session_key ra -> ir_sequence rb < ir_sequence ra ->
     ir_status ra = "running" -> input_terminal (ir_status rb) = true).
  { intros a b ra rb Ha Hb Es Hlt Hr. exact (qo_running _ Hok' _ _ Ha Hr _ _ Hb Es Hlt). }
  split_and!; [|exact Hh|exact Hk].
  intros a b ra rb Ha Hb Es Hra Hrb.
  destruct (Ztrichotomy (ir_sequence ra) (ir_sequence rb)) as [Hlt|[Heq|Hgt]].
  - case: (unfinished_running _ Hra (Hh b a rb ra Hb Ha Es Hlt Hrb)).
  - exact (qo_distinct _ Hok' _ _ _ _ Ha Hb Heq).
  - apply Z.gt_lt in Hgt. case: (unfinished_running _ Hrb (Hh a b ra rb Ha Hb (eq_sym Es) Hgt Hra)).
Qed.

(** ** Lost claims *)

Definition claim_lost (t : Z) (input claim : string) (db : queue_db) : Prop :=
  forall r, qd_inputs db !! input = Some r -> claim_valid t input claim input r = false.

Lemma claim_valid_false t input claim r : claim_valid t input claim input r = false <->
  ~ (ir_claim_id r = claim /\ ir_status r = "running"
     /\ exists u, ir_claim_expires_at r = Some u /\ t < u).
Proof.
  split.
  - intros Hf (Hc & Hs & u & Hu & Hlt). apply not_true_iff_false in Hf. case: Hf.
    unfold claim_valid. rewrite Hu !bool_decide_true //=. by apply Z.ltb_lt.
  - intros Hn. apply not_true_iff_false. intros Hv. apply claim_valid_true in Hv. tauto.
Qed.

Lemma claim_lost_moves t draw input claim db db' : queue_moves (erase := true) t draw db db' ->
  draw <> Some claim -> claim_lost t input claim db -> claim_lost t input claim db'.
Proof.
  intros Hm Hd Hl r' Hr'. apply claim_valid_false. intros (Hc & Hs & u & Hu & Hlt).
  destruct (queue_moves_back _ _ _ _ _ _ Hm Hr') as [(r & Hr & _ & _ & _ & Hrun & Hcl)|Hn].
  2:{ destruct (qm_new _ _ _ _ Hm _ _ Hr' Hn) as (_ & _ & Hno & _). exact (Hno Hs). }
  assert (Hwas : ir_status r = "running") by (destruct (Hrun Hs) as [?|[_ ?]]; congruence).
  apply (proj1 (claim_valid_false _ _ _ _) (Hl _ Hr)).
  destruct Hcl as [[E1 E2]|[E|[(E1 & _ & v & Hv & Hlt')|E]]]; [|congruence| |congruence].
  - split_and!; [congruence|exact Hwas|]. exists u. split; [congruence|exact Hlt].
  - split_and!; [congruence|exact Hwas|]. by exists v.
Qed.

Lemma claim_lost_history t input claim ops db : Forall (at_or_after t) ops ->
  Forall (fun op => op_draw op <> Some claim) ops ->
  claim_lost t input claim db -> claim_lost t input claim (history ops db).
Proof.
  intros Ht Hd. revert db. induction ops as [|op ops IH]; intros db Hl; [exact Hl|].
  apply Forall_cons in Ht as [Ht Hts]. apply Forall_cons in Hd as [Hd Hds].
  apply (IH Hts Hds (apply_op op db)).
  pose proof (queue_apply_moves (erase := true) jsonb json_text timestamptz marshal_event
    unmarshal_event t op db Ht (fun _ => eq_refl)) as Hm. simpl. revert Hl.
  induction Hm as [|db1 db2 db3 H12 _ IHm]; [done|]. intros Hl.
  exact (IHm (claim_lost_moves _ _ _ _ _ _ H12 Hd Hl)).
Qed.

Lemma update_rows_none p f db : (forall id r, qd_inputs db !! id = Some r -> p id r = false) ->
  update_rows p f db = (db, 0%nat).
Proof.
  intros Hp. unfold update_rows. f_equal.
  - transitivity (set_inputs db (qd_inputs db)); [f_equal|by destruct db].
    apply map_eq. intros i. rewrite map_lookup_imap.
    destruct (qd_inputs db !! i) as [r|] eqn:E; [|done]. simpl. by rewrite (Hp _ _ E).
  - match goal with |- length ?f = _ => destruct f as [|[a ra] l] eqn:E; [done|] end.
    assert (Hin : (a, ra) ∈ (a, ra) :: l) by left. rewrite -E in Hin.
    apply list_elem_of_filter in Hin as [Ht Hin]. apply elem_of_map_to_list in Hin.
    simpl in Ht. by rewrite (Hp _ _ Hin) in Ht.
Qed.

Lemma claim_lost_none t input claim db : claim_lost t input claim db ->
  forall id r, qd_inputs db !! id = Some r -> claim_valid t input claim id r = false.
Proof.
  intros Hl id r H. apply not_true_iff_false. intros Hv.
  destruct (claim_valid_true _ _ _ _ _ Hv) as [-> _]. rewrite (Hl _ H) in Hv. discriminate.
Qed.

(** C35: A worker whose claim on an input has expired, or was taken over, never
    gets it back: whatever calls follow, unless one happens to draw the same
    random identifier, the claim is invalid at every later instant, and then
    renewing it, finishing the input or suspending it for an approval fails
    with [ErrClaimLost] and changes nothing. *)
Theorem lost_input_claim_stays_lost ops db t input claim :
  claim_lost t input claim db -> Forall (at_or_after t) ops ->
  Forall (fun op => op_draw op <> Some claim) ops ->
  let db' := history ops db in
  forall env c, t <= qe_now env -> in_input_id c = input -> in_claim_id c = claim ->
  (forall n, qe_fault env n = None) -> qe_claim env = Some c ->
  claim_lost (qe_now env) input claim db'
  /\ (forall ttl, Renew env c ttl db' = (db', Err ErrClaimLost))
  /\ (forall status code message delay,
        Finish json_text timestamptz env c status code message delay db' = (db', Err ErrClaimLost))
  /\ (forall run_id approval payload j, jsonb payload = Some j ->
        SuspendApprovalTx jsonb env run_id approval payload db' = (db', Err ErrClaimLost)).
Proof.
  intros Hl Ht Hd db' env c Hnow Hi Hc Hf Hcl.
  assert (Hl' : claim_lost (qe_now env) input claim db').
  { intros r Hr. apply claim_valid_false. intros (E1 & E2 & u & Hu & Hlt).
    apply (proj1 (claim_valid_false _ _ _ _) (claim_lost_history _ _ _ _ _ Ht Hd Hl _ Hr)).
    split_and!; [exact E1|exact E2|]. exists u. split; [exact Hu|lia]. }
  pose proof (claim_lost_none _ _ _ _ Hl') as Hno. split; [exact Hl'|].
  split_and!; intros; unfold Renew, Finish, SuspendApprovalTx, stmt; rewrite Hf ?Hcl.
  - rewrite update_rows_none; [intros id r Hr; rewrite Hi Hc; exact (Hno _ _ Hr)|done].
  - destruct (qd_inputs db' !! in_input_id c) as [r|] eqn:Hr; [|done].
    rewrite Hi in Hr |- *. by rewrite Hc (Hno _ _ Hr).
  - rewrite H. rewrite update_rows_none; [|done]. intros id r Hr. by rewrite Hi Hc (Hno _ _ Hr).
Qed.

(** ** The choice of a claim *)

(** A claim takes exactly the oldest input that is ready and free: ready
    means queued or abandoned, due, and at the head of its session; among all
    of those that no other transaction holds, the one accepted first.  It
    changes that row only, and reports that there is none only when there is
    none. *)
Theorem Claim_takes_oldest_head env epoch lock hex ttl db db' out :
  qe_fault env 0%nat = None ->
  Claim json_text unmarshal_event env epoch lock (Ok hex) ttl db = (db', out) ->
  (out = Err ErrNotFound /\ db' = db
   /\ forall id r, qd_inputs db !! id = Some r ->
        claimable (qe_now env) epoch db id r = true -> id ∈ lock)
  \/ exists id r, qd_inputs db !! id = Some r /\ (id ∉ lock)
     /\ (ir_status r ∈ ["queued"; "running"]) /\ ir_not_before r <= qe_now env
     /\ (forall u, ir_claim_expires_at r = Some u -> u <= qe_now env) /\ head_of db r
     /\ (forall id' r', qd_inputs db !! id' = Some r' ->
           claimable (qe_now env) epoch db id' r' = true -> (id' ∉ lock) ->
           claim_before (id, r) (id', r'))
     /\ db' = set_inputs db
          (<[id := claim_row (qe_now env) ttl ("claim-" +:+ hex) r]> (qd_inputs db))
     /\ out = scan_input json_text unmarshal_event id
                (claim_row (qe_now env) ttl ("claim-" +:+ hex) r).
Proof.
  intros Hf. unfold Claim, stmt. rewrite Hf. cbn [randomID res_bind].
  destruct (candidates (qe_now env) epoch lock db) as [|[id r] rest] eqn:E; intros [= <- <-].
  - left. split_and!; [reflexivity|reflexivity|]. intros id r Hr Hc.
    destruct (decide (id ∈ lock)) as [|Hn]; [done|].
    pose proof (proj2 (candidates_elem _ _ _ _ _ _) (conj Hc (conj Hn Hr))) as Hin.
    rewrite E in Hin. by apply not_elem_of_nil in Hin.
  - right. exists id, r.
    assert (Hin : (id, r) ∈ candidates (qe_now env) epoch lock db) by (rewrite E; left).
    apply candidates_elem in Hin as (Hc & Hn & Hr). pose proof (claimable_spec _ _ _ _ _ Hc) as Hs.
    destruct Hs as (Hst & Hdue & Hexp & Hhead).
    split_and!; [exact Hr|exact Hn|exact Hst|exact Hdue|exact Hexp|exact Hhead| |done|done].
    intros id' r' Hr' Hc' Hn'.
    pose proof (proj2 (candidates_elem _ _ _ _ _ _) (conj Hc' (conj Hn' Hr'))) as Hin.
    pose proof (StronglySorted_merge_sort claim_before
      (filter (fun kr => claimable (qe_now env) epoch db kr.1 kr.2 = true /\ (kr.1 ∉ lock))
         (map_to_list (qd_inputs db)))) as Hsort.
    fold (candidates (qe_now env) epoch lock db) in Hsort. rewrite E in Hsort, Hin.
    apply StronglySorted_inv in Hsort as [_ Hall]. apply elem_of_cons in Hin as [Heq|Hin].
    + rewrite Heq. apply claim_before_refl.
    + rewrite Forall_forall in Hall. exact (Hall _ Hin).
Qed.

(** ** Acceptance is idempotent *)

Lemma find_delivery_unique session source key db id r : queue_ok db ->
  qd_inputs db !! id = Some r -> same_delivery session source key r = true ->
  find_delivery session source key db = Some (id, r).
Proof.
  intros Hok Hr Hs. unfold find_delivery.
  destruct (filter _ _) as [|[a ra] l] eqn:E.
  - assert (Hin : (id, r) ∈ filter (fun kr => same_delivery session source key kr.2 = true)
                    (map_to_list (qd_inputs db))).
    { apply list_elem_of_filter. split; [exact Hs|]. by apply elem_of_map_to_list. }
    rewrite E in Hin. by apply not_elem_of_nil in Hin.
  - assert (Hin : (a, ra) ∈ (a, ra) :: l) by left. rewrite -E in Hin.
    apply list_elem_of_filter in Hin as [Ha Hin]. apply elem_of_map_to_list in Hin. simpl in *.
    apply same_delivery_spec in Ha as (A1 & A2 & A3). apply same_delivery_spec in Hs as (B1 & B2 & B3).
    assert (a = id) as ->.
    { apply (qo_delivery _ Hok _ _ _ _ Hin Hr). apply same_delivery_spec. split_and!; congruence. }
    by replace ra with r by congruence.
Qed.

(** What a successful creation stores. *)
Lemma Accept_created env random commit event owner task db db' r :
  Accept jsonb json_text marshal_event unmarshal_event env random commit event owner task db
    = (db', Ok (r, true)) ->
  exists encoded json, marshal_event event = Ok encoded /\ jsonb encoded = Some json
  /\ qd_inputs db' !! in_input_id r
     = Some (new_input (qe_now env) (qd_next_sequence db) event (delivery_key event) owner json
               (nullString task) "queued" "accepted" "").
Proof.
  unfold Accept, accept, acceptTx, stmt. destruct (qe_fault env 0); [discriminate|].
  destruct (qd_sessions db !! _); [|discriminate]. destruct (negb _); [discriminate|].
  destruct (randomID _ _) as [id|]; [|discriminate].
  destruct (marshal_event event) as [encoded|]; [|discriminate].
  case_bool_decide; [discriminate|]. unfold insert_input, stmt.
  assert (Hold : forall d, ~ (exists x, (accepted_before json_text unmarshal_event env event owner
    task (delivery_key event) d).2 = Ok (x, true))).
  { intros d [x Hx]. unfold accepted_before in Hx. destruct (qe_fault env 2); [discriminate|].
    destruct (find_delivery _ _ _ _) as [[]|]; [|discriminate].
    destruct (scan_input _ _ _ _); [|discriminate]. destruct (_ || _); discriminate. }
  assert (Hb : forall d p, match accepted_before json_text unmarshal_event env event owner task
      (delivery_key event) d with
      | (db'0, Ok a) => match commit with
          | Some e => (set_sequence db (qd_next_sequence db'0), Err e) | None => (db'0, Ok a) end
      | (db'0, Err e) => (set_sequence db (qd_next_sequence db'0), Err e) end
      = (db', Ok (r, true)) -> p).
  { intros d p. destruct (accepted_before _ _ _ _ _ _ _ d) as [d' [[x b]|e]] eqn:Ed; [|discriminate].
    destruct commit; [discriminate|]. intros [= _ -> ->]. case: (Hold d). exists r. by rewrite Ed. }
  destruct (qe_fault env 1); [discriminate|]. destruct (jsonb encoded) as [json|] eqn:Ej; [|discriminate].
  destruct (negb (task_admits _ _ _ _)); [apply Hb|].
  case_bool_decide; [|by destruct commit]. simpl. case_bool_decide; [apply Hb|].
  case_bool_decide; [discriminate|].
  destruct (scan_input _ _ _ _) as [r0|] eqn:Hs; [|discriminate].
  destruct commit; [discriminate|]. intros [= <- ->]. exists encoded, json. split_and!; [done|exact Ej|].
  unfold scan_input in Hs. destruct (unmarshal_event _); [|discriminate].
  injection Hs as <-. simpl. by rewrite lookup_insert_eq.
Qed.

(** A known delivery is answered with what was accepted. *)
Lemma Accept_known env hex event owner task encoded j db kr :
  (forall n, qe_fault env n = None) -> marshal_event event = Ok encoded ->
  jsonb encoded = Some j -> qd_sessions db !! ev_session_key event = Some owner ->
  delivery_key event <> "" ->
  find_delivery (ev_session_key event) (ev_source event) (delivery_key event) db = Some kr ->
  exists db', qd_inputs db' = qd_inputs db
  /\ Accept jsonb json_text marshal_event unmarshal_event env (Ok hex) None event owner task db
     = (db', (accepted_before json_text unmarshal_event env event owner task (delivery_key event)
                db).2).
Proof.
  intros Hf Hm Hj Hs Hk Hfind. unfold Accept, accept, acceptTx, stmt. rewrite !Hf Hs.
  rewrite bool_decide_true //. cbn [negb randomID res_bind]. rewrite Hm bool_decide_false //.
  unfold insert_input, stmt. rewrite Hf Hj.
  assert (Hany : forall d, qd_inputs d = qd_inputs db ->
    accepted_before json_text unmarshal_event env event owner task (delivery_key event) d
    = (d, (accepted_before json_text unmarshal_event env event owner task (delivery_key event)
             db).2)).
  { intros d Hd. unfold accepted_before, find_delivery. rewrite Hf Hd.
    destruct (head _) as [[id row]|]; [|done]. destruct (scan_input _ _ _ _); [|done].
    by destruct (_ || _). }
  destruct (task_admits _ _ _ _); cbn [negb].
  - rewrite bool_decide_true; [set_solver|]. cbn [negb]. rewrite Hfind bool_decide_true; [by eexists|].
    rewrite Hany; [done|]. destruct (snd _); eexists; (split; [|reflexivity]); reflexivity.
  - rewrite Hany; [done|]. destruct (snd _); eexists; (split; [|reflexivity]); reflexivity.
Qed.

(** The answer to a delivery that finds an input of the task [task] with the
    payload [payload] and the type [type]. *)
Definition answered (id task payload : string) (type : Z) (event : IngressEvent) (task' : string)
    (out : res (InputRecord * bool)) : Prop :=
  if bool_decide (task' = task) && bool_decide (ev_payload_json event = payload)
     && Z.eqb (ev_event_type event) type
  then exists r', out = Ok (r', false) /\ in_input_id r' = id
  else out = Err ErrDeliveryConflict.

Lemma accepted_before_answered env event owner task task' id row e db :
  qe_fault env 2%nat = None ->
  find_delivery (ev_session_key event) (ev_source event) (delivery_key event) db = Some (id, row) ->
  unmarshal_event (ir_event_json row) = Ok e -> ir_owner_id row = owner ->
  ir_task_id row = nullString task ->
  answered id task (ev_payload_json e) (ev_event_type e) event task'
    (accepted_before json_text unmarshal_event env event owner task' (delivery_key event) db).2.
Proof.
  intros Hf Hfind He Ho Hta. unfold accepted_before, answered. rewrite Hf Hfind. unfold scan_input.
  rewrite He. cbn [res_bind snd in_owner_id in_task_id in_event]. rewrite Ho Hta.
  rewrite (bool_decide_true (owner = owner)) //. cbn [negb orb].
  replace (default "" (nullString task)) with task
    by (unfold nullString; by case_bool_decide as E; [rewrite E|]).
  destruct (decide (task' = task)) as [->|Hne].
  2:{ rewrite (bool_decide_false (task' = task)) // (bool_decide_false (task = task')) //. congruence. }
  rewrite (bool_decide_true (task = task)) //. cbn [negb orb andb].
  destruct (decide (ev_payload_json event = ev_payload_json e)) as [Hpe|Hpe].
  2:{ rewrite (bool_decide_false (ev_payload_json event = _)) //
        (bool_decide_false (ev_payload_json e = _)) //. congruence. }
  rewrite (bool_decide_true (ev_payload_json event = _)) //
    (bool_decide_true (ev_payload_json e = _)) //. cbn [negb orb andb].
  rewrite (Z.eqb_sym (ev_event_type e)). destruct (Z.eqb _ _); [|done].
  eexists. split; reflexivity.
Qed.

(** The conversions of package encoding/json: an event reads back from what
    was stored for it, and the marker of a deletion, which has none of its
    fields, reads as an event without payload and type. *)
Definition reads_back (event : IngressEvent) : Prop :=
  forall s j, marshal_event event = Ok s -> jsonb s = Some j -> exists e, unmarshal_event j = Ok e
    /\ ev_payload_json e = ev_payload_json event /\ ev_event_type e = ev_event_type event.
Definition marker_reads_empty : Prop :=
  forall deletion event task, exists e, unmarshal_event (erased_event deletion event task) = Ok e
    /\ ev_payload_json e = "" /\ ev_event_type e = 0.

(** C37: A delivery is accepted once.  Provided the accepted event reads back
    from its JSON with its payload and type, and the marker of a privacy
    deletion reads as an event without either: after an acceptance, whatever
    calls, privacy deletions and other statements follow, a second delivery
    with the same owner, session, source and key that meets no fault adds no
    input.  With the same payload, type and task it is answered with the input
    accepted first, otherwise it is refused as a conflict; only when a privacy
    deletion erased the event in between is it compared with the empty payload
    and the type zero instead, so that then even the same payload, unless it is
    empty, is refused. *)
Theorem accept_once env random commit event owner task db db1 r ops env' hex event' task' encoded' j' :
  queue_ok db -> reads_back event -> marker_reads_empty ->
  Accept jsonb json_text marshal_event unmarshal_event env random commit event owner task db
    = (db1, Ok (r, true)) ->
  let db2 := history ops db1 in
  (forall n, qe_fault env' n = None) -> marshal_event event' = Ok encoded' ->
  jsonb encoded' = Some j' ->
  qd_sessions db2 !! ev_session_key event' = Some owner ->
  ev_session_key event' = ev_session_key event -> ev_source event' = ev_source event ->
  delivery_key event' = delivery_key event -> delivery_key event <> "" ->
  exists db3 out row,
    Accept jsonb json_text marshal_event unmarshal_event env' (Ok hex) None event' owner task' db2
      = (db3, out)
    /\ qd_inputs db3 = qd_inputs db2
    /\ qd_inputs db2 !! in_input_id r = Some row
    /\ (answered (in_input_id r) task (ev_payload_json event) (ev_event_type event) event' task' out
        \/ existsb redacts ops = true /\ event_erased row
           /\ answered (in_input_id r) task "" 0 event' task' out).
Proof.
  intros Hok Hcodec Hmarker Hacc db2 Hf Hm Hj Hs Es Esrc Ek Hk.
  destruct (Accept_created _ _ _ _ _ _ _ _ _ Hacc) as (s & j & Hs1 & Hj1 & Hrow).
  assert (Hok1 : queue_ok db1).
  { pose proof (accept_moves (erase := false) jsonb json_text marshal_event unmarshal_event env random
      commit event owner task "queued" "" db ltac:(discriminate)) as Hmv.
    unfold Accept in Hacc. rewrite Hacc in Hmv. exact (queue_ok_moves _ _ _ _ Hok Hmv). }
  destruct (queue_history_ok (erase := existsb redacts ops) jsonb json_text timestamptz marshal_event
    unmarshal_event ops db1 Hok1 id) as [Hok2 Hkept].
  destruct (Hkept _ _ Hrow) as (row & Hrow2 & (S1 & _ & S3 & S4 & S5 & _ & S7 & _ & S9) & _).
  simpl in S1, S3, S4, S5, S7, S9.
  assert (Hdel : same_delivery (ev_session_key event') (ev_source event') (delivery_key event') row
                 = true) by (apply same_delivery_spec; split_and!; congruence).
  pose proof (find_delivery_unique _ _ _ _ _ _ Hok2 Hrow2 Hdel) as Hfind.
  destruct (Accept_known env' hex event' owner task' encoded' j' db2 _ Hf Hm Hj Hs
    ltac:(congruence) Hfind) as (db3 & Hin & Hres).
  exists db3, (accepted_before json_text unmarshal_event env' event' owner task'
    (delivery_key event') db2).2, row. split_and!; [exact Hres|exact Hin|exact Hrow2|].
  destruct S9 as [S9|[Her [d Hd]]].
  - left. destruct (Hcodec _ _ Hs1 Hj1) as (e & He & <- & <-).
    apply (accepted_before_answered _ _ _ _ _ _ row); [apply Hf|exact Hfind| |exact S5|exact S7].
    by rewrite S9.
  - right. split_and!; [exact Her|by exists d|]. destruct (Hmarker d (ir_event_id row) (ir_task_id row))
      as (e & He & <- & <-).
    apply (accepted_before_answered _ _ _ _ _ _ row); [apply Hf|exact Hfind| |exact S5|exact S7].
    by rewrite Hd.
Qed.

End promises.

(** ** Witnesses *)

Definition demo_jsonb (s : string) : option jval := Some (JString s).
Definition demo_text (j : jval) : string := match j with JString s => s | _ => "" end.
Definition demo_event (payload : string) : IngressEvent :=
  mkIngressEvent "event-1" 1 "chat" "web" payload 0 "".
Definition demo_marshal (e : IngressEvent) : res string := Ok (ev_payload_json e).
Definition demo_unmarshal (j : jval) : res IngressEvent :=
  Ok match j with JObject _ => mkIngressEvent "" 0 "" "" "" 0 "" | _ => demo_event (demo_text j) end.
Definition demo_env (now : Z) (claim : option InputRecord) : queue_env :=
  mkQueueEnv now None claim None (fun _ => None).
Definition demo_db : queue_db :=
  mkQueueDb ∅ {["chat" := "owner"]} ∅ ∅ ∅ 1 ∅.
Definition demo_ops : list queue_op :=
  [OpAccept (demo_env 0 None) (Ok "aa") None (demo_event "{}") "owner" "";
   OpClaim (demo_env 5 None) 0 [] (Ok "bb") second].
Definition demo_claim : InputRecord :=
  mkInputRecord "input-aa" "chat" 1 "owner" "web" "" "" "running" "accepted" "" (demo_event "{}")
    1 3 "claim-bb" (Some (5 + second)) 0 0 0 "" "".

Lemma demo_db_ok : queue_ok demo_db.
Proof. split; intros *; rewrite lookup_empty; discriminate. Qed.

Abbreviation demo_history :=
  (queue_history demo_jsonb demo_text (fun _ => None) demo_marshal demo_unmarshal).

Lemma session_inputs_serial_witness :
  queue_ok demo_db
  /\ (exists r, qd_inputs (demo_history demo_ops demo_db) !! "input-aa" = Some r
        /\ ir_status r = "running")
  /\ (forall a b ra rb, qd_inputs (demo_history demo_ops demo_db) !! a = Some ra ->
        qd_inputs (demo_history demo_ops demo_db) !! b = Some rb ->
        ir_session_key ra = ir_session_key rb -> ir_status ra = "running" ->
        ir_status rb = "running" -> a = b).
Proof.
  split; [exact demo_db_ok|]. split.
  - eexists. split; vm_compute; reflexivity.
  - exact (proj1 (session_inputs_serial demo_jsonb demo_text (fun _ => None) demo_marshal
                    demo_unmarshal demo_ops demo_db demo_db_ok)).
Defined.

Lemma lost_input_claim_stays_lost_witness :
  Renew (demo_env (20 * second) (Some demo_claim)) demo_claim second
    (demo_history [OpExpireQueued (demo_env (15 * second) None)] (demo_history demo_ops demo_db))
  = (demo_history [OpExpireQueued (demo_env (15 * second) None)] (demo_history demo_ops demo_db),
     Err ErrClaimLost).
Proof.
  assert (Hl : claim_lost (10 * second) "input-aa" "claim-bb" (demo_history demo_ops demo_db)).
  { intros r. destruct (qd_inputs (demo_history demo_ops demo_db) !! "input-aa") as [q|] eqn:E;
      [|discriminate]. intros [= <-]. vm_compute in E. injection E as <-. vm_compute. reflexivity. }
  refine (proj1 (proj2 (lost_input_claim_stays_lost demo_jsonb demo_text (fun _ => None) demo_marshal
    demo_unmarshal [OpExpireQueued (demo_env (15 * second) None)] (demo_history demo_ops demo_db)
    (10 * second) "input-aa" "claim-bb" Hl _ _ (demo_env (20 * second) (Some demo_claim)) demo_claim
    _ eq_refl eq_refl _ eq_refl)) second).
  - constructor; [vm_compute; discriminate|constructor].
  - constructor; [discriminate|constructor].
  - vm_compute. discriminate.
  - intros n. reflexivity.
Defined.

Lemma Claim_takes_oldest_head_witness :
  let db := demo_history (take 1 demo_ops) demo_db in
  let res := Claim demo_text demo_unmarshal (demo_env 5 None) 0 [] (Ok "bb") second db in
  is_ok res.2 = true
  /\ (res.2 = Err ErrNotFound
      \/ exists id r, qd_inputs db !! id = Some r /\ head_of db r).
Proof.
  cbv zeta. split; [vm_compute; reflexivity|].
  destruct (Claim_takes_oldest_head demo_text demo_unmarshal (demo_env 5 None) 0 [] "bb" second
    (demo_history (take 1 demo_ops) demo_db) _ _ eq_refl (surjective_pairing _))
    as [[H _]|(id & r & Hr & _ & _ & _ & _ & Hh & _)]; [left; exact H|right].
  exists id, r. exact (conj Hr Hh).
Defined.

(** The input is claimed, gets its run, and its event is erased. *)
Definition demo_run : RunRow :=
  mkRunRow "chat" "event-1" None "model_running" "" "model_running" "" None None None 0 0 None None
    None "" None None.
Definition erasing_ops : list queue_op :=
  drop 1 demo_ops ++
  [OpOther (mkQueueDb ∅ {["chat" := "owner"]} ∅ {["run-1" := demo_run]} ∅ 0 ∅);
   OpSaveCheckpoint (demo_env 6 (Some demo_claim)) "run-1" "started" "{}";
   OpRedactInputs (demo_env 7 None) "erase" ["run-1"]].

Example erased_delivery_conflicts :
  let db := demo_history erasing_ops (demo_history (take 1 demo_ops) demo_db) in
  (ir_status <$> qd_inputs db !! "input-aa") = Some "cancelled"
  /\ (Accept demo_jsonb demo_text demo_marshal demo_unmarshal (demo_env 8 None) (Ok "cc") None
        (demo_event "{}") "owner" "" db).2 = Err ErrDeliveryConflict.
Proof. vm_compute. split; reflexivity. Qed.

Lemma demo_codec : reads_back demo_jsonb demo_marshal demo_unmarshal (demo_event "{}")
  /\ marker_reads_empty demo_unmarshal.
Proof.
  split.
  - intros s j [= <-] [= <-]. eexists. split; [reflexivity|]. split; reflexivity.
  - intros deletion event task. eexists. split; [reflexivity|]. split; reflexivity.
Qed.

Lemma accept_once_witness :
  exists db3 out,
    Accept demo_jsonb demo_text demo_marshal demo_unmarshal (demo_env 7 None) (Ok "cc") None
      (demo_event "{}") "owner" "" (demo_history (drop 1 demo_ops)
        (demo_history (take 1 demo_ops) demo_db)) = (db3, out)
    /\ exists r', out = Ok (r', false) /\ in_input_id r' = "input-aa".
Proof.
  destruct (accept_once demo_jsonb demo_text (fun _ => None) demo_marshal demo_unmarshal
    (demo_env 0 None) (Ok "aa") None (demo_event "{}") "owner" "" demo_db
    (demo_history (take 1 demo_ops) demo_db)
    (mkInputRecord "input-aa" "chat" 1 "owner" "web" "" "" "queued" "accepted" "" (demo_event "{}")
       0 3 "" None (24 * 3600 * second) 0 0 "" "")
    (drop 1 demo_ops) (demo_env 7 None) "cc" (demo_event "{}") "" "{}" (JString "{}")
    demo_db_ok (proj1 demo_codec) (proj2 demo_codec)) as (db3 & out & row & Hres & _ & _ & Hr).
  - vm_compute. reflexivity.
  - intros n. reflexivity.
  - reflexivity.
  - reflexivity.
  - vm_compute. reflexivity.
  - reflexivity.
  - reflexivity.
  - reflexivity.
  - discriminate.
  - exists db3, out. split; [exact Hres|]. destruct Hr as [Hr|[Hno _]]; [exact Hr|discriminate Hno].
Defined.
