(* ===== verification/ApprovalGate.v ===== *)
(** * ApprovalGate: waiting for the owner's decision

    [apps/orchestrator/internal/orchestrator/approval.go].  Waiters are
    shared by pointer: the heap [g_heap] holds them and a pointer is an index;
    the map of the gate goes from a tool call to the pointer of its waiter.
    A method that holds the mutex is one step.  A context is the error it
    ended with, if it ended; it ends by its timer, by its parent or by
    [cancel].  The channel of a waiter has room for one response. *)
From S2P Require Import Prelude GoStrings GoTime.
Open Scope Z_scope.
Open Scope go_scope.

Definition Canceled : error := ErrNew "context.Canceled" "context canceled".
Definition DeadlineExceeded : error :=
  ErrNew "context.DeadlineExceeded" "context deadline exceeded".

Record ApprovalResponse := mkResponse {
  re_tool_call_id : string;
  re_approved : bool;
  re_channel : string;
  re_resolved_by : string;
}.

Record PendingApproval := mkPending {
  pa_tool_call_id : string;
  pa_deadline : Z;
  pa_ctx_err : option error;
  pa_response : option ApprovalResponse;
  pa_resolved : bool;
}.

Record ApprovalGate := mkGate {
  g_pending : gmap string nat;
  g_heap : list PendingApproval;
}.

Definition NewApprovalGate : ApprovalGate := mkGate ∅ [].

(** What a context says when it is asked: its error, and its deadline. *)
Record parent_context := mkParent { pc_err : option error; pc_deadline : option Z }.

(** [context.WithTimeout(ctx, 15*time.Minute)]. *)
Definition wait_deadline (now : Z) (parent : parent_context) : Z :=
  let d := now + 15 * 60 * second in
  match pc_deadline parent with Some p => Z.min p d | None => d end.

(** [Register]. *)
Definition Register (now : Z) (parent : parent_context) (id : string) (g : ApprovalGate) :
    ApprovalGate * res nat :=
  if bool_decide (TrimSpace id = "") then (g, Err (Errorf "tool call ID is required")) else
  match pc_err parent with
  | Some e => (g, Err e)
  | None =>
      if bool_decide (is_Some (g_pending g !! id))
      then (g, Err (Errorf ("approval already registered for tool call " +:+ id)))
      else
        let p := length (g_heap g) in
        (mkGate (<[id := p]> (g_pending g))
           (g_heap g ++ [mkPending id (wait_deadline now parent) None None false]), Ok p)
  end.

Definition set_waiter (p : nat) (f : PendingApproval -> PendingApproval) (g : ApprovalGate) :
    ApprovalGate :=
  mkGate (g_pending g) (alter f p (g_heap g)).

(** A context ends once. *)
Definition end_context (e : error) (w : PendingApproval) : PendingApproval :=
  mkPending (pa_tool_call_id w) (pa_deadline w)
    (match pa_ctx_err w with None => Some e | err => err end) (pa_response w) (pa_resolved w).

(** [Close]: the entry is removed only if it is this waiter's. *)
Definition Close (p : nat) (g : ApprovalGate) : ApprovalGate :=
  match g_heap g !! p with
  | None => g
  | Some w =>
      let g' := set_waiter p (end_context Canceled) g in
      if bool_decide (g_pending g' !! pa_tool_call_id w = Some p)
      then mkGate (delete (pa_tool_call_id w) (g_pending g')) (g_heap g')
      else g'
  end.

Definition take_response (w : PendingApproval) : PendingApproval :=
  mkPending (pa_tool_call_id w) (pa_deadline w) (pa_ctx_err w) None (pa_resolved w).

Definition cancelled_wait (e : error) : error :=
  ErrWrap "approval wait cancelled or timed out: " e.

(** [PendingApproval.Wait]; [None] when neither case of the select is ready.
    When both are, [pick] says whether the response is received; the
    context's error wins either way. *)
Definition Wait (pick : bool) (p : nat) (g : ApprovalGate) :
    ApprovalGate * option (res ApprovalResponse) :=
  match g_heap g !! p with
  | None => (g, None)
  | Some w =>
      match pa_response w, pa_ctx_err w with
      | None, None => (g, None)
      | Some resp, None => (set_waiter p take_response g, Some (Ok resp))
      | None, Some e => (g, Some (Err (cancelled_wait e)))
      | Some _, Some e =>
          (if pick then set_waiter p take_response g else g, Some (Err (cancelled_wait e)))
      end
  end.

Definition deliver (resp : ApprovalResponse) (w : PendingApproval) : PendingApproval :=
  mkPending (pa_tool_call_id w) (pa_deadline w) (pa_ctx_err w) (Some resp) true.

(** The reply of a resolution: refused, delivered to a waiter, or stuck in
    the send while holding the mutex. *)
Inductive resolution := Refused | Delivered (p : nat) | Stuck.

(** [ResolveWithChannel]. *)
Definition ResolveWithChannel (id : string) (approved : bool) (channel resolvedBy : string)
    (g : ApprovalGate) : ApprovalGate * resolution :=
  match g_pending g !! id with
  | None => (g, Refused)
  | Some p =>
      match g_heap g !! p with
      | None => (g, Refused)
      | Some w =>
          if pa_resolved w || bool_decide (is_Some (pa_ctx_err w)) then (g, Refused) else
          let channel := if bool_decide (channel = "") then "unknown" else channel in
          match pa_response w with
          | Some _ => (g, Stuck)
          | None => (set_waiter p (deliver (mkResponse id approved channel resolvedBy)) g,
                     Delivered p)
          end
      end
  end.

(** [Resolve]. *)
Definition Resolve (id : string) (approved : bool) : ApprovalGate -> ApprovalGate * resolution :=
  ResolveWithChannel id approved "unknown" "".

(** ** Histories *)

(** The calls of the methods, the timers and the parents of the contexts. *)
Inductive gate_op :=
| GRegister (now : Z) (parent : parent_context) (id : string)
| GClose (p : nat)
| GWait (pick : bool) (p : nat)
| GResolve (id : string) (approved : bool) (channel resolvedBy : string)
| GTimer (now : Z)
| GParent (p : nat) (e : error).

Inductive gate_reply :=
| Registered (r : res nat)
| Waited (r : option (res ApprovalResponse))
| Resolved (r : resolution)
| Silent.

Definition fire_timer (now : Z) (w : PendingApproval) : PendingApproval :=
  if Z.leb (pa_deadline w) now then end_context DeadlineExceeded w else w.

Definition gate_step (op : gate_op) (g : ApprovalGate) : ApprovalGate * gate_reply :=
  match op with
  | GRegister now parent id => let '(g', r) := Register now parent id g in (g', Registered r)
  | GClose p => (Close p g, Silent)
  | GWait pick p => let '(g', r) := Wait pick p g in (g', Waited r)
  | GResolve id approved channel by_ =>
      let '(g', r) := ResolveWithChannel id approved channel by_ g in (g', Resolved r)
  | GTimer now => (mkGate (g_pending g) (fire_timer now <$> g_heap g), Silent)
  | GParent p e => (set_waiter p (end_context e) g, Silent)
  end.

(** The final state and the replies, oldest first. *)
Fixpoint gate_run (ops : list gate_op) (g : ApprovalGate) :
    ApprovalGate * list (gate_op * gate_reply) :=
  match ops with
  | [] => (g, [])
  | op :: rest =>
      let '(g1, reply) := gate_step op g in
      let '(g2, replies) := gate_run rest g1 in
      (g2, (op, reply) :: replies)
  end.

(** Decisions delivered to a waiter, in order. *)
Definition delivered_to (p : nat) (e : gate_op * gate_reply) : option ApprovalResponse :=
  match e with
  | (GResolve id approved channel by_, Resolved (Delivered q)) =>
      if Nat.eqb p q then
        Some (mkResponse id approved (if bool_decide (channel = "") then "unknown" else channel) by_)
      else None
  | _ => None
  end.

(** Decisions a waiter returned, in order. *)
Definition returned_by (p : nat) (e : gate_op * gate_reply) : option ApprovalResponse :=
  match e with
  | (GWait _ q, Waited (Some (Ok resp))) => if Nat.eqb p q then Some resp else None
  | _ => None
  end.

(** ** The invariant *)

Abbreviation trace := (list (gate_op * gate_reply)).

(** A waiter and what happened to it so far. *)
Definition waiter_ok (p : nat) (tr : trace) (w : PendingApproval) : Prop :=
  if pa_resolved w then
    exists d, omap (delivered_to p) tr = [d] /\ re_tool_call_id d = pa_tool_call_id w
    /\ (pa_response w = Some d /\ omap (returned_by p) tr = []
        \/ pa_response w = None
           /\ (omap (returned_by p) tr = [] \/ omap (returned_by p) tr = [d]))
  else pa_response w = None /\ omap (delivered_to p) tr = [] /\ omap (returned_by p) tr = [].

Definition stuck (e : gate_op * gate_reply) : bool :=
  match e.2 with Resolved Stuck => true | _ => false end.

Record gate_ok (g : ApprovalGate) (tr : trace) : Prop := mkGateOk {
  go_entry : forall id p, g_pending g !! id = Some p ->
    exists w, g_heap g !! p = Some w /\ pa_tool_call_id w = id;
  go_live : forall p w, g_heap g !! p = Some w -> pa_ctx_err w = None ->
    g_pending g !! pa_tool_call_id w = Some p;
  go_waiter : forall p w, g_heap g !! p = Some w -> waiter_ok p tr w;
  go_fresh : forall p, (length (g_heap g) <= p)%nat ->
    omap (delivered_to p) tr = [] /\ omap (returned_by p) tr = [];
  go_free : Forall (fun e => stuck e = false) tr;
}.

(** Events that concern no waiter. *)
Lemma omap_snoc_none {A B} (f : A -> option B) l a : f a = None -> omap f (l ++ [a]) = omap f l.
Proof. intros H. rewrite omap_app. csimpl. by rewrite H app_nil_r. Qed.

Lemma omap_snoc_some {A B} (f : A -> option B) l a b :
  f a = Some b -> omap f (l ++ [a]) = omap f l ++ [b].
Proof. intros H. rewrite omap_app. csimpl. by rewrite H. Qed.

Lemma waiter_ok_snoc p tr w e : delivered_to p e = None -> returned_by p e = None ->
  waiter_ok p tr w -> waiter_ok p (tr ++ [e]) w.
Proof. intros Hd Hr. unfold waiter_ok. by rewrite !omap_snoc_none. Qed.

(** Ending a context changes nothing else. *)
Lemma waiter_ok_end p tr w e : waiter_ok p tr w -> waiter_ok p tr (end_context e w).
Proof. done. Qed.

Lemma gate_ok_snoc g tr e : gate_ok g tr -> (forall p, delivered_to p e = None) ->
  (forall p, returned_by p e = None) -> stuck e = false -> gate_ok g (tr ++ [e]).
Proof.
  intros [He Hl Hw Hf Hs] Hd Hr Hst. split; [exact He|exact Hl| | |].
  - intros p w H. apply waiter_ok_snoc; [apply Hd|apply Hr|exact (Hw _ _ H)].
  - intros p H. by rewrite !omap_snoc_none; [apply Hd|apply Hr|apply Hf].
  - apply Forall_app. split; [exact Hs|]. by constructor.
Qed.

(** A change of waiters that keeps their calls, decisions and live entries. *)
Lemma gate_ok_heap g tr h : gate_ok g tr -> length h = length (g_heap g) ->
  (forall p w', h !! p = Some w' -> exists w, g_heap g !! p = Some w
     /\ pa_tool_call_id w' = pa_tool_call_id w
     /\ (pa_ctx_err w' = None -> pa_ctx_err w = None) /\ (waiter_ok p tr w -> waiter_ok p tr w')) ->
  gate_ok (mkGate (g_pending g) h) tr.
Proof.
  intros [He Hl Hw Hf Hs] Hlen Hh. split; simpl; [| | |by rewrite Hlen|exact Hs].
  - intros id p H. destruct (He _ _ H) as (w & Hp & <-).
    destruct (lookup_lt_is_Some_2 h p) as [w' Hw'].
    { rewrite Hlen. exact (lookup_lt_Some _ _ _ Hp). }
    destruct (Hh _ _ Hw') as (w0 & Hp0 & E & _). exists w'. split; [exact Hw'|]. congruence.
  - intros p w' H Hc. destruct (Hh _ _ H) as (w & Hp & E & Hcc & _). rewrite E.
    exact (Hl _ _ Hp (Hcc Hc)).
  - intros p w' H. destruct (Hh _ _ H) as (w & Hp & _ & _ & Hok). exact (Hok (Hw _ _ Hp)).
Qed.

(** The same for one waiter. *)
Lemma gate_ok_alter g tr p f : gate_ok g tr ->
  (forall w, g_heap g !! p = Some w -> pa_tool_call_id (f w) = pa_tool_call_id w
     /\ (pa_ctx_err (f w) = None -> pa_ctx_err w = None)
     /\ (waiter_ok p tr w -> waiter_ok p tr (f w))) ->
  gate_ok (set_waiter p f g) tr.
Proof.
  intros Hok Hf. apply (gate_ok_heap _ _ _ Hok); [by rewrite length_alter|]. intros q w' H.
  destruct (decide (p = q)) as [<-|Hne].
  - rewrite list_lookup_alter_eq in H. destruct (g_heap g !! p) as [w|]; [|discriminate].
    injection H as <-. exists w. destruct (Hf w eq_refl) as (H1 & H2 & H3). by split_and!.
  - rewrite list_lookup_alter_ne in H; [done|]. exists w'. by split_and!.
Qed.

Lemma end_context_err e w : pa_ctx_err (end_context e w) <> None.
Proof. simpl. by destruct (pa_ctx_err w). Qed.

Lemma gate_ok_end g tr p e : gate_ok g tr -> gate_ok (set_waiter p (end_context e) g) tr.
Proof.
  intros Hok. apply (gate_ok_alter _ _ _ _ Hok). intros w _.
  split_and!; [done|intros Hn; by case: (end_context_err e w)|apply waiter_ok_end].
Qed.

Lemma Register_ok now parent id g tr : gate_ok g tr -> gate_ok (Register now parent id g).1 tr.
Proof.
  intros Hok. unfold Register. case_bool_decide as Hid; [exact Hok|].
  destruct (pc_err parent); [exact Hok|]. case_bool_decide as Hex; [exact Hok|].
  destruct Hok as [He Hl Hw Hf Hs]. apply eq_None_not_Some in Hex. split; simpl; [| | | |exact Hs].
  - intros i p H. destruct (decide (id = i)) as [<-|Hne].
    + rewrite lookup_insert_eq in H. injection H as <-. eexists.
      split; [by apply list_lookup_middle|done].
    + rewrite lookup_insert_ne in H; [done|]. destruct (He _ _ H) as (w & Hp & E).
      exists w. split; [|exact E]. exact (lookup_app_l_Some _ _ _ _ Hp).
  - intros p w H Hc. apply lookup_app_Some in H as [H|[Hge H]].
    + pose proof (Hl _ _ H Hc) as Hp. rewrite lookup_insert_ne; [congruence|exact Hp].
    + apply list_lookup_singleton_Some in H as [Hz <-]. simpl. rewrite lookup_insert_eq.
      f_equal. lia.
  - intros p w H. apply lookup_app_Some in H as [H|[Hge H]]; [exact (Hw _ _ H)|].
    apply list_lookup_singleton_Some in H as [Hz <-]. destruct (Hf p Hge) as [Hd Hr].
    unfold waiter_ok. simpl. by split_and!.
  - intros p Hp. apply Hf. rewrite length_app in Hp. simpl in Hp. lia.
Qed.

Lemma Close_ok p g tr : gate_ok g tr -> gate_ok (Close p g) tr.
Proof.
  intros Hok. unfold Close. destruct (g_heap g !! p) as [w|] eqn:Hp; [|exact Hok].
  pose proof (gate_ok_end g tr p Canceled Hok) as [He Hl Hw Hf Hs].
  case_bool_decide as Hent; [|by split]. split; simpl in *; [| |exact Hw|exact Hf|exact Hs].
  - intros id q H. apply lookup_delete_Some in H as [_ H]. exact (He _ _ H).
  - intros q v H Hc. pose proof (Hl _ _ H Hc) as Hq. apply lookup_delete_Some. split; [|exact Hq].
    intros E. rewrite -E Hent in Hq. injection Hq as ->.
    rewrite list_lookup_alter_eq Hp in H. injection H as <-. by case: (end_context_err Canceled w).
Qed.

Lemma GTimer_ok now g tr : gate_ok g tr ->
  gate_ok (mkGate (g_pending g) (fire_timer now <$> g_heap g)) tr.
Proof.
  intros Hok. apply (gate_ok_heap _ _ _ Hok); [by rewrite length_fmap|]. intros p w' H.
  rewrite list_lookup_fmap in H. destruct (g_heap g !! p) as [w|]; [|discriminate].
  injection H as <-. exists w. unfold fire_timer. destruct (Z.leb _ _); [|by split_and!].
  split_and!; [done|done|intros Hn; by case: (end_context_err DeadlineExceeded w)|done].
Qed.

(** An event of waiter [p] alone, with the waiter's change. *)
Lemma gate_ok_event g tr p f e w : gate_ok g tr -> g_heap g !! p = Some w ->
  pa_tool_call_id (f w) = pa_tool_call_id w ->
  (pa_ctx_err (f w) = None -> pa_ctx_err w = None) ->
  (forall q, q <> p -> delivered_to q e = None /\ returned_by q e = None) -> stuck e = false ->
  (waiter_ok p tr w -> waiter_ok p (tr ++ [e]) (f w)) ->
  gate_ok (set_waiter p f g) (tr ++ [e]).
Proof.
  intros [He Hl Hw Hf Hs] Hp Hid Hc Hq Hst Hok.
  assert (Hlt : (p < length (g_heap g))%nat) by exact (lookup_lt_Some _ _ _ Hp).
  split; simpl.
  - intros id q H. destruct (He _ _ H) as (v & Hv & E). destruct (decide (p = q)) as [<-|Hne].
    + exists (f w). rewrite list_lookup_alter_eq Hp. split; [done|]. congruence.
    + exists v. by rewrite list_lookup_alter_ne.
  - intros q v H Hcv. destruct (decide (p = q)) as [<-|Hne].
    + rewrite list_lookup_alter_eq Hp in H. injection H as <-. rewrite Hid.
      exact (Hl _ _ Hp (Hc Hcv)).
    + rewrite list_lookup_alter_ne in H; [done|]. exact (Hl _ _ H Hcv).
  - intros q v H. destruct (decide (p = q)) as [<-|Hne].
    + rewrite list_lookup_alter_eq Hp in H. injection H as <-. exact (Hok (Hw _ _ Hp)).
    + rewrite list_lookup_alter_ne in H; [done|]. destruct (Hq q (not_eq_sym Hne)) as [Hd Hr].
      apply waiter_ok_snoc; [exact Hd|exact Hr|exact (Hw _ _ H)].
  - intros q Hge. rewrite length_alter in Hge. destruct (Hq q ltac:(lia)) as [Hd Hr].
    rewrite !omap_snoc_none //. exact (Hf _ Hge).
  - apply Forall_app. split; [exact Hs|]. by constructor.
Qed.

Lemma Wait_ok pick p g tr : gate_ok g tr ->
  gate_ok (Wait pick p g).1 (tr ++ [(GWait pick p, Waited (Wait pick p g).2)]).
Proof.
  intros Hok. unfold Wait. destruct (g_heap g !! p) as [w|] eqn:Hp.
  2:{ by apply gate_ok_snoc. }
  destruct (pa_response w) as [resp|] eqn:Hr, (pa_ctx_err w) as [e|] eqn:Hc;
    try by apply gate_ok_snoc.
  - destruct pick; simpl; [|by apply gate_ok_snoc].
    apply gate_ok_snoc; [|done..]. apply (gate_ok_alter _ _ _ _ Hok). intros v Hv.
    replace v with w by congruence. split_and!; [done|done|]. unfold waiter_ok. simpl.
    destruct (pa_resolved w); [|by intros (_ & H1 & H2); split_and!]. intros (d & H1 & H2 & H3). exists d.
    split_and!; [done|done|]. right. split; [done|]. destruct H3 as [[_ H3]|[_ H3]]; auto.
  - simpl. apply (gate_ok_event _ _ _ _ _ w Hok Hp); [done|done| |done|].
    + intros q Hq. simpl. by rewrite (proj2 (Nat.eqb_neq q p) Hq).
    + unfold waiter_ok. simpl. rewrite Hr. destruct (pa_resolved w); [|by intros []].
      intros (d & H1 & H2 & [[[= ->] H3]|[H3 _]]); [|discriminate]. exists d.
      rewrite omap_snoc_none // (omap_snoc_some _ _ _ d); [by rewrite /= Nat.eqb_refl|].
      rewrite H3. split_and!; [done|done|]. right. split; [done|]. by right.
Qed.

Lemma Resolve_ok id approved channel by_ g tr : gate_ok g tr ->
  gate_ok (ResolveWithChannel id approved channel by_ g).1
    (tr ++ [(GResolve id approved channel by_,
             Resolved (ResolveWithChannel id approved channel by_ g).2)]).
Proof.
  intros Hok. unfold ResolveWithChannel.
  destruct (g_pending g !! id) as [p|] eqn:Hid; [|by apply gate_ok_snoc].
  destruct (go_entry _ _ Hok _ _ Hid) as (w & Hp & Ew). rewrite Hp.
  destruct (pa_resolved w) eqn:Hres; simpl; [by apply gate_ok_snoc|].
  case_bool_decide as Hc; [by apply gate_ok_snoc|]. apply eq_None_not_Some in Hc.
  pose proof (go_waiter _ _ Hok _ _ Hp) as Hw. unfold waiter_ok in Hw. rewrite Hres in Hw.
  destruct Hw as (Hr & Hd & Hret). rewrite Hr. simpl.
  apply (gate_ok_event _ _ _ _ _ w Hok Hp); [done|done| |done|].
  - intros q Hq. simpl. by rewrite (proj2 (Nat.eqb_neq q p) Hq).
  - intros _. unfold waiter_ok. simpl. eexists.
    rewrite (omap_snoc_some (delivered_to p) _ _ (mkResponse id approved
      (if bool_decide (channel = "") then "unknown" else channel) by_)); [by rewrite /= Nat.eqb_refl|].
    rewrite omap_snoc_none // Hd Hret. split_and!; [done|done|]. left. by split.
Qed.

Lemma gate_step_ok op g tr : gate_ok g tr ->
  gate_ok (gate_step op g).1 (tr ++ [(op, (gate_step op g).2)]).
Proof.
  intros Hok. destruct op; simpl.
  - pose proof (Register_ok now parent id g tr Hok) as H. destruct (Register _ _ _ _).
    by apply gate_ok_snoc.
  - apply gate_ok_snoc; [exact (Close_ok _ _ _ Hok)|done..].
  - pose proof (Wait_ok pick p g tr Hok) as H. by destruct (Wait _ _ _).
  - pose proof (Resolve_ok id approved channel resolvedBy g tr Hok) as H.
    by destruct (ResolveWithChannel _ _ _ _ _).
  - apply gate_ok_snoc; [exact (GTimer_ok _ _ _ Hok)|done..].
  - apply gate_ok_snoc; [exact (gate_ok_end _ _ _ _ Hok)|done..].
Qed.

Lemma gate_run_ok ops g tr : gate_ok g tr -> gate_ok (gate_run ops g).1 (tr ++ (gate_run ops g).2).
Proof.
  revert g tr. induction ops as [|op ops IH]; intros g tr Hok; simpl; [by rewrite app_nil_r|].
  pose proof (gate_step_ok op g tr Hok) as H. destruct (gate_step op g) as [g1 reply].
  specialize (IH _ _ H). rewrite -app_assoc in IH. simpl in IH.
  destruct (gate_run ops g1) as [g2 replies]. exact IH.
Qed.

Lemma gate_ok_new : gate_ok NewApprovalGate [].
Proof. split; [by intros * H|by intros * H|by intros * H|done|constructor]. Qed.

(** Whatever the interleaving of registrations, decisions, waits, closes,
    timers and cancellations, a registered waiter accepts at most one
    decision and returns at most that one, and no decision blocks while the
    gate is locked.  A waiter that is still undecided and not cancelled
    accepts the next decision on its tool call and then returns it. *)
Theorem gate_decides_once (ops : list gate_op) :
  let '(g, tr) := gate_run ops NewApprovalGate in
  Forall (fun e => stuck e = false) tr
  /\ (forall p,
        omap (delivered_to p) tr = [] /\ omap (returned_by p) tr = []
        \/ exists d, omap (delivered_to p) tr = [d]
           /\ (omap (returned_by p) tr = [] \/ omap (returned_by p) tr = [d]))
  /\ (forall p w, g_heap g !! p = Some w -> pa_ctx_err w = None -> pa_resolved w = false ->
        forall approved channel by_, channel <> "" ->
        exists g', ResolveWithChannel (pa_tool_call_id w) approved channel by_ g = (g', Delivered p)
          /\ (Wait false p g').2
             = Some (Ok (mkResponse (pa_tool_call_id w) approved channel by_))).
Proof.
  pose proof (gate_run_ok ops _ _ gate_ok_new) as Hok.
  destruct (gate_run ops NewApprovalGate) as [g tr]. simpl in Hok.
  destruct Hok as [He Hl Hw Hf Hs]. split_and!; [exact Hs| |].
  - intros p. destruct (g_heap g !! p) as [w|] eqn:Hp.
    + specialize (Hw _ _ Hp). unfold waiter_ok in Hw. destruct (pa_resolved w); [right|left; tauto].
      destruct Hw as (d & Hd & _ & Hr). exists d. split; [exact Hd|]. tauto.
    + left. apply Hf. by apply lookup_ge_None.
  - intros p w Hp Hc Hr approved channel by_ Hch. specialize (Hw _ _ Hp). unfold waiter_ok in Hw.
    rewrite Hr in Hw. destruct Hw as (Hresp & _). unfold ResolveWithChannel.
    rewrite (Hl _ _ Hp Hc) Hp Hr Hc Hresp bool_decide_false; [by intros []|].
    rewrite (bool_decide_false (channel = "")) //. eexists. split; [reflexivity|].
    unfold Wait. simpl. by rewrite list_lookup_alter_eq Hp /= Hc.
Qed.
