(* ===== verification/Converter.v ===== *)
(** * Converter: pure converters from delimited text to JSON

    Package [internal/generatedtools] ([manifest.go], [interpreter.go],
    [checker.go]): the bounded program a converter package carries, the
    interpreter that runs it, and the acceptance suite that compares it with an
    independently kept need.  The context a conversion runs under is the
    sequence of what [ctx.Err()] answers; the decoder of the package's JSON into
    its manifest is a parameter. *)
From Stdlib Require Import Ascii.
From stdpp Require Import pretty.
From S2P Require Import Prelude GoStrings GoBytes GoJson GoHash GoValue GoCsv Budget Canonical ApprovalGate.
Open Scope Z_scope.
Open Scope go_scope.

(** ** Constants *)

Definition Format : string := "butler.converter.v1".
Definition IRFormat : string := "butler.converter.ir.v1".
Definition Class : string := "delimited_json_v1".
Definition Checker : string := "butler.delimited-json.checks.v1".
Definition MaxPackageBytes : Z := 32 * 1024.
Definition MaxInputBytes : Z := 64 * 1024.
Definition MaxOutputBytes : Z := 256 * 1024.
Definition MaxRows : Z := 512.
Definition MaxColumns : Z := 16.
Definition MaxFieldBytes : Z := 4096.
Definition MaxMillis : Z := 2000.

Definition ErrPackage : error := ErrNew "ErrPackage" "bounded converter package rejected".
Definition ErrInput : error := ErrNew "ErrInput" "converter input rejected".
Definition ErrLimit : error := ErrNew "ErrLimit" "converter resource limit reached".
Definition ErrChecks : error := ErrNew "ErrChecks" "independent converter checks failed".

(** ** Data *)

Record Limits := mkLimits {
  lm_input_bytes : Z; lm_output_bytes : Z; lm_rows : Z; lm_field_bytes : Z; lm_millis : Z }.

Record InputSchema := mkInputSchema {
  is_media_type : string; is_delimiter : string; is_header : bool; is_columns : list string;
  is_trim_space : bool }.

Record OutputField := mkOutputField { of_name : string; of_type : string; of_source_index : Z }.

Record OutputSchema := mkOutputSchema { os_media_type : string; os_fields : list OutputField }.

Record Need := mkNeed {
  nd_id : string; nd_converter_id : string; nd_class : string; nd_input : InputSchema;
  nd_output : OutputSchema; nd_limits : Limits }.

Record Column := mkColumn { cl_input_index : Z; cl_output_name : string; cl_type : string }.

Record Program := mkProgram {
  pr_format : string; pr_operation : string; pr_delimiter : string; pr_header : bool;
  pr_trim_space : bool; pr_input_columns : list string; pr_columns : list Column }.

Record Dependency := mkDependency { dp_id : string; dp_version : string; dp_sha256 : string }.

Record Test := mkTest { ts_name : string; ts_input : string; ts_expected : string }.

Record Manifest := mkManifest {
  mf_format : string; mf_id : string; mf_version : string; mf_need_id : string; mf_class : string;
  mf_code : Program; mf_input : InputSchema; mf_output : OutputSchema;
  mf_dependencies : list Dependency; mf_tests : list Test; mf_instructions : string;
  mf_limitations : list string; mf_limits : Limits }.

Record Package := mkPackage { pk_manifest : Manifest; pk_digest : string; pk_raw : string }.

#[global] Instance Limits_eq_dec : EqDecision Limits.
Proof. solve_decision. Defined.
#[global] Instance Dependency_eq_dec : EqDecision Dependency.
Proof. solve_decision. Defined.

(** ** Names *)

Definition is_lower (c : ascii) : bool := Z.leb 97 (byte_val c) && Z.leb (byte_val c) 122.
Definition is_upper (c : ascii) : bool := Z.leb 65 (byte_val c) && Z.leb (byte_val c) 90.

(** A text of a first byte and at most [n] others. *)
Definition name_text (first others : ascii -> bool) (n : nat) (s : string) : bool :=
  match s with
  | String c s' => first c && all_chars others s' && Nat.leb (String.length s') n
  | EmptyString => false
  end.

(** The expressions [identifier], [fieldName], [digestName] and [version]. *)
Definition identifier : string -> bool :=
  name_text is_lower (fun c => is_lower c || is_digit c || is_char c "-") 62.
Definition fieldName : string -> bool :=
  name_text (fun c => is_lower c || is_upper c)
    (fun c => is_lower c || is_upper c || is_digit c || is_char c "_") 63.
Definition digestName (s : string) : bool :=
  Nat.eqb (String.length s) 64
  && all_chars (fun c => is_digit c || Z.leb 97 (byte_val c) && Z.leb (byte_val c) 102) s.
Definition version (s : string) : bool :=
  match digits1 s with
  | Some (_, String c s1) =>
      is_char c "." &&
      match digits1 s1 with
      | Some (_, String d s2) =>
          is_char d "." && match digits1 s2 with Some (_, EmptyString) => true | _ => false end
      | _ => false
      end
  | _ => false
  end.

(** The expressions [integerValue] and [decimalValue]. *)
Definition integerValue (s : string) : bool :=
  match number_int (number_sign s).2 with Some (_, EmptyString) => true | _ => false end.
Definition decimalValue (s : string) : bool :=
  match number_int (number_sign s).2 with
  | Some (_, s1) => match number_frac s1 with Some (_, EmptyString) => true | _ => false end
  | None => false
  end.

(** ** Validation *)

Definition TAB : string := String "009" "".

Definition validType (t : string) : bool :=
  bool_decide (t = "string") || bool_decide (t = "integer") || bool_decide (t = "decimal")
  || bool_decide (t = "boolean").

Definition validDelimiter (v : string) : bool :=
  bool_decide (v = ",") || bool_decide (v = TAB) || bool_decide (v = ";") || bool_decide (v = "|").

Definition list_len {A} (l : list A) : Z := Z.of_nat (length l).

Definition outside (n low high : Z) : bool := Z.ltb n low || Z.ltb high n.

(** [Limits.Validate]. *)
Definition Limits_Validate (l : Limits) : res unit :=
  fail_when outside (lm_input_bytes l) 1 MaxInputBytes || outside (lm_output_bytes l) 1 MaxOutputBytes
            || outside (lm_rows l) 1 MaxRows || outside (lm_field_bytes l) 1 MaxFieldBytes
            || outside (lm_millis l) 1 MaxMillis
    with ErrPackage ;; Ok tt.

(** The loop over the names of columns; [seen] are those before. *)
Fixpoint valid_columns (seen : list string) (columns : list string) : res unit :=
  match columns with
  | [] => Ok tt
  | c :: rest =>
      fail_when negb (fieldName c) || bool_decide (c ∈ seen) with ErrPackage ;;
      valid_columns (c :: seen) rest
  end.

(** The type a column of the input was given before. *)
Definition typed (types : list (Z * string)) (i : Z) : option string :=
  snd <$> head (List.filter (fun it => Z.eqb it.1 i) types).

(** [old, ok := types[i]; ok && old != t]. *)
Definition retyped (types : list (Z * string)) (i : Z) (t : string) : bool :=
  match typed types i with Some old => negb (bool_decide (old = t)) | None => false end.

Fixpoint valid_fields (width : Z) (seen : list string) (types : list (Z * string))
    (fields : list OutputField) : res unit :=
  match fields with
  | [] => Ok tt
  | c :: rest =>
      fail_when negb (fieldName (of_name c)) || bool_decide (of_name c ∈ seen)
                || negb (validType (of_type c)) || Z.ltb (of_source_index c) 0
                || Z.leb width (of_source_index c)
        with ErrPackage ;;
      fail_when retyped types (of_source_index c) (of_type c) with ErrPackage ;;
      valid_fields width (of_name c :: seen) ((of_source_index c, of_type c) :: types) rest
  end.

Definition validateSchemas (i : InputSchema) (o : OutputSchema) : res unit :=
  fail_when negb (validDelimiter (is_delimiter i)) || outside (list_len (is_columns i)) 1 MaxColumns
            || negb (bool_decide (os_media_type o = "application/json"))
            || outside (list_len (os_fields o)) 1 MaxColumns
    with ErrPackage ;;
  fail_when negb (bool_decide (is_media_type i = "text/csv"))
            && negb (bool_decide (is_media_type i = "text/tab-separated-values"))
            && negb (bool_decide (is_media_type i = "text/x-delimited"))
    with ErrPackage ;;
  fail_when bool_decide (is_media_type i = "text/csv") && negb (bool_decide (is_delimiter i = ","))
            || bool_decide (is_media_type i = "text/tab-separated-values")
               && negb (bool_decide (is_delimiter i = TAB))
    with ErrPackage ;;
  _ <-! valid_columns [] (is_columns i) ;;
  valid_fields (list_len (is_columns i)) [] [] (os_fields o).

(** [Need.Validate]. *)
Definition Need_Validate (n : Need) : res unit :=
  fail_when negb (identifier (nd_id n)) || negb (identifier (nd_converter_id n))
            || negb (bool_decide (nd_class n = Class))
            || negb (is_ok (validateSchemas (nd_input n) (nd_output n)))
            || negb (is_ok (Limits_Validate (nd_limits n)))
    with ErrPackage ;; Ok tt.

Fixpoint valid_program_columns (width : Z) (seen : list string) (columns : list Column) : res unit :=
  match columns with
  | [] => Ok tt
  | c :: rest =>
      fail_when Z.ltb (cl_input_index c) 0 || Z.leb width (cl_input_index c)
                || negb (fieldName (cl_output_name c)) || bool_decide (cl_output_name c ∈ seen)
                || negb (validType (cl_type c))
        with ErrPackage ;;
      valid_program_columns width (cl_output_name c :: seen) rest
  end.

Definition validateProgram (p : Program) : res unit :=
  fail_when negb (bool_decide (pr_format p = IRFormat))
            || negb (bool_decide (pr_operation p = "delimited_to_objects"))
            || negb (validDelimiter (pr_delimiter p))
            || outside (list_len (pr_input_columns p)) 1 MaxColumns
            || outside (list_len (pr_columns p)) 1 MaxColumns
    with ErrPackage ;;
  _ <-! valid_columns [] (pr_input_columns p) ;;
  valid_program_columns (list_len (pr_input_columns p)) [] (pr_columns p).

Definition valid_test (t : Test) : bool :=
  identifier (ts_name t) && Z.leb (go_len (ts_input t)) 4096 && Z.leb (go_len (ts_expected t)) 8192
  && json_valid (ts_expected t).

Definition valid_limitation (s : string) : bool :=
  negb (bool_decide (TrimSpace s = "")) && Z.leb (go_len s) 1024.

Definition valid_dependency (d : Dependency) : bool :=
  bool_decide (dp_id d = "butler-converter-ir") && version (dp_version d) && digestName (dp_sha256 d).

Definition validateManifest (m : Manifest) : res unit :=
  fail_when negb (bool_decide (mf_format m = Format)) || negb (identifier (mf_id m))
            || negb (identifier (mf_need_id m)) || negb (version (mf_version m))
            || negb (bool_decide (mf_class m = Class)) || negb (is_ok (validateProgram (mf_code m)))
            || negb (is_ok (validateSchemas (mf_input m) (mf_output m)))
            || negb (is_ok (Limits_Validate (mf_limits m)))
            || negb match mf_dependencies m with [d] => valid_dependency d | _ => false end
            || outside (list_len (mf_tests m)) 1 4
            || bool_decide (TrimSpace (mf_instructions m) = "")
            || Z.ltb 4096 (go_len (mf_instructions m))
            || outside (list_len (mf_limitations m)) 1 8
    with ErrPackage ;;
  fail_when negb (forallb valid_test (mf_tests m)) with ErrPackage ;;
  fail_when negb (forallb valid_limitation (mf_limitations m)) with ErrPackage ;; Ok tt.

(** ** Hashes *)

(** The text of a raw message: compact, with what HTML reads escaped. *)
Fixpoint json_html (s : string) : string :=
  match s with
  | EmptyString => ""
  | String a s1 =>
      let n := byte_val a in
      if Z.eqb n 60 || Z.eqb n 62 || Z.eqb n 38 then u_escape (n / 16) (n mod 16) +:+ json_html s1
      else match s1 with
           | String b (String c s3) =>
               if Z.eqb n 226 && Z.eqb (byte_val b) 128
                  && (Z.eqb (byte_val c) 168 || Z.eqb (byte_val c) 169)
               then String back_slash (if Z.eqb (byte_val c) 168 then "u2028" else "u2029")
                      +:+ json_html s3
               else String a (json_html s1)
           | _ => String a (json_html s1)
           end
  end.

Definition json_raw (s : string) : option string :=
  if bool_decide (s = "") then Some "null" else json_html <$> json_compact s.

(** An empty slice of the model is a nil slice, which prints as [null]. *)
Definition json_slice (items : list string) : string :=
  if bool_decide (items = []) then "null" else json_list items.

Definition json_limits (l : Limits) : string :=
  json_object [("input_bytes", json_int (lm_input_bytes l)); ("output_bytes", json_int (lm_output_bytes l));
    ("rows", json_int (lm_rows l)); ("field_bytes", json_int (lm_field_bytes l));
    ("millis", json_int (lm_millis l))].

Definition json_input (i : InputSchema) : string :=
  json_object [("media_type", json_string (is_media_type i)); ("delimiter", json_string (is_delimiter i));
    ("header", json_bool (is_header i)); ("columns", json_slice (json_string <$> is_columns i));
    ("trim_space", json_bool (is_trim_space i))].

Definition json_field (f : OutputField) : string :=
  json_object [("name", json_string (of_name f)); ("type", json_string (of_type f));
    ("source_index", json_int (of_source_index f))].

Definition json_output (o : OutputSchema) : string :=
  json_object [("media_type", json_string (os_media_type o));
    ("fields", json_slice (json_field <$> os_fields o))].

Definition json_need (n : Need) : string :=
  json_object [("need_id", json_string (nd_id n)); ("converter_id", json_string (nd_converter_id n));
    ("class", json_string (nd_class n)); ("input_schema", json_input (nd_input n));
    ("output_schema", json_output (nd_output n)); ("limits", json_limits (nd_limits n))].

Definition json_column (c : Column) : string :=
  json_object [("input_index", json_int (cl_input_index c));
    ("output_name", json_string (cl_output_name c)); ("type", json_string (cl_type c))].

Definition json_program (p : Program) : string :=
  json_object [("format", json_string (pr_format p)); ("operation", json_string (pr_operation p));
    ("delimiter", json_string (pr_delimiter p)); ("header", json_bool (pr_header p));
    ("trim_space", json_bool (pr_trim_space p));
    ("input_columns", json_slice (json_string <$> pr_input_columns p));
    ("columns", json_slice (json_column <$> pr_columns p))].

Definition json_dependency (d : Dependency) : string :=
  json_object [("id", json_string (dp_id d)); ("version", json_string (dp_version d));
    ("sha256", json_string (dp_sha256 d))].

Definition json_test (t : Test) : option string :=
  expected ← json_raw (ts_expected t);
  Some (json_object [("name", json_string (ts_name t)); ("input", json_string (ts_input t));
    ("expected", expected)]).

(** [None] is an error of [Marshal]: an expected value that is not JSON. *)
Definition json_manifest (m : Manifest) : option string :=
  tests ← mapM json_test (mf_tests m);
  Some (json_object [("format", json_string (mf_format m)); ("id", json_string (mf_id m));
    ("version", json_string (mf_version m)); ("need_id", json_string (mf_need_id m));
    ("class", json_string (mf_class m)); ("code", json_program (mf_code m));
    ("input_schema", json_input (mf_input m)); ("output_schema", json_output (mf_output m));
    ("dependencies", json_slice (json_dependency <$> mf_dependencies m));
    ("tests", json_slice tests); ("instructions", json_string (mf_instructions m));
    ("limitations", json_slice (json_string <$> mf_limitations m));
    ("limits", json_limits (mf_limits m))]).

(** [Hash] of a value with this JSON; when it has none the hash is of no bytes.
    [HashBytes] is the hash of the bytes. *)
Definition HashBytes (b : string) : string := sha256_hex b.
Definition Hash (json : option string) : string := HashBytes (default "" json).

(** ** Packages *)

Section decoding.
(** What [Decode] with [DisallowUnknownFields] makes of one JSON value followed
    by nothing. *)
Context (decode_manifest : string -> option Manifest).

Definition Decode (raw : string) : res Manifest :=
  fail_when bool_decide (raw = "") || Z.ltb MaxPackageBytes (go_len raw) with ErrPackage ;;
  fail_when negb (is_ok (ArgumentsHash raw)) with ErrPackage ;;
  match decode_manifest raw with Some m => Ok m | None => Err ErrPackage end.

Definition Parse (raw : string) : res Package :=
  match Decode raw with
  | Err _ => Err ErrPackage
  | Ok m => fail_when negb (is_ok (validateManifest m)) with ErrPackage ;;
            Ok (mkPackage m (HashBytes raw) raw)
  end.
End decoding.

(** ** The interpreter *)

(** [scalar]. *)
Definition scalar (raw typ : string) (trim : bool) : res gval :=
  let raw := if trim then TrimSpace raw else raw in
  if bool_decide (typ = "string") then Ok (VString raw)
  else if bool_decide (typ = "integer") then
    fail_when negb (integerValue raw) with ErrInput ;;
    match parse_int64 raw with Some v => Ok (VNumber (json_int v)) | None => Err ErrInput end
  else if bool_decide (typ = "decimal") then
    fail_when Z.ltb 64 (go_len raw) || negb (decimalValue raw) with ErrInput ;; Ok (VNumber raw)
  else if bool_decide (typ = "boolean") then
    if bool_decide (raw = "true") then Ok (VBool true)
    else if bool_decide (raw = "false") then Ok (VBool false) else Err ErrInput
  else Err ErrInput.

(** The only byte of a valid delimiter. *)
Definition comma_of (delimiter : string) : ascii :=
  match delimiter with String c _ => c | EmptyString => "000" end.

(** The successive answers of [ctx.Err()]. *)
Definition ctx := nat -> option error.

Definition field_over (limit : Z) (record : list string) : bool :=
  existsb (fun v => Z.ltb limit (go_len v)) record.

Section interpreter.
Context (p : Program) (l : Limits) (now : ctx).

(** [row[col.OutputName] = v] for each column. *)
Fixpoint convert_row (record : list string) (columns : list Column) (row : list (string * gval)) :
    res (list (string * gval)) :=
  match columns with
  | [] => Ok row
  | col :: rest =>
      v <-! scalar (default "" (record !! Z.to_nat (cl_input_index col))) (cl_type col)
              (pr_trim_space p) ;;
      convert_row record rest (put_field (cl_output_name col) v row)
  end.

(** The loop; [text] is what the reader has left and [output] what is written. *)
Fixpoint convert_rows (fuel : nat) (reading : nat) (text : bytes) (rows : Z) (output : string) :
    res string :=
  match fuel with
  | O => Err (Errorf "out of fuel")
  | S fuel =>
      match now reading with
      | Some e => Err e
      | None =>
          match Read (comma_of (pr_delimiter p)) (length (pr_input_columns p)) text with
          | ReadEOF => fail_when Z.eqb rows 0 with ErrInput ;; Ok (output +:+ "]")
          | ReadError => Err ErrInput
          | ReadRecord record text =>
              let rows := rows + 1 in
              fail_when Z.ltb (lm_rows l) rows with ErrLimit ;;
              fail_when field_over (lm_field_bytes l) record with ErrLimit ;;
              row <-! convert_row record (pr_columns p) [] ;;
              let encoded := encode (VObject row) in
              let needed := go_len output + go_len encoded + 1 + (if Z.ltb 1 rows then 1 else 0) in
              fail_when Z.ltb (lm_output_bytes l) needed with ErrLimit ;;
              convert_rows fuel (S reading) text rows
                (output +:+ (if Z.ltb 1 rows then "," else "") +:+ encoded)
          end
      end
  end.

(** [Convert]. *)
Definition Convert (raw : bytes) : res string :=
  fail_when negb (is_ok (validateProgram p)) || negb (is_ok (Limits_Validate l)) with ErrPackage ;;
  match now O with
  | Some e => Err e
  | None =>
      fail_when Z.ltb (lm_input_bytes l) (blen raw) with ErrLimit ;;
      fail_when negb (utf8_valid (str raw)) || bool_decide ("000"%char ∈ raw) with ErrInput ;;
      text <-! (if pr_header p then
                  match Read (comma_of (pr_delimiter p)) (length (pr_input_columns p)) raw with
                  | ReadRecord header text =>
                      fail_when negb (bool_decide (header = pr_input_columns p)) with ErrInput ;;
                      fail_when field_over (lm_field_bytes l) header with ErrLimit ;;
                      Ok text
                  | _ => Err ErrInput
                  end
                else Ok raw) ;;
      convert_rows (S (length raw)) 1 text 0 "["
  end.
End interpreter.

(** ** The acceptance suite *)

Record Profile := mkProfile { pf_dependency : Dependency; pf_checker : string }.

(** [Profile.Validate]. *)
Definition Profile_Validate (p : Profile) : res unit :=
  fail_when negb (valid_dependency (pf_dependency p)) || negb (bool_decide (pf_checker p = Checker))
    with ErrPackage ;; Ok tt.

Definition json_profile (p : Profile) : string :=
  json_object [("dependency", json_dependency (pf_dependency p)); ("checker", json_string (pf_checker p))].

Record Report := mkReport {
  rp_package_hash : string; rp_need_hash : string; rp_profile_hash : string; rp_checker : string;
  rp_checks : list string; rp_passed : bool }.

(** [csvInput]. *)
Definition csvInput (n : Need) (records : list (list string)) : bytes :=
  let comma := comma_of (is_delimiter (nd_input n)) in
  (if is_header (nd_input n) then WriteRecord comma (is_columns (nd_input n)) else [])
  ++ (records ≫= WriteRecord comma).

#[global] Instance gval_eq_dec : EqDecision gval.
Proof.
  refine (fix go (a b : gval) : Decision (a = b) :=
    match a, b with
    | VNull, VNull => left eq_refl
    | VBool x, VBool y => cast_if (decide (x = y))
    | VNumber x, VNumber y => cast_if (decide (x = y))
    | VString x, VString y => cast_if (decide (x = y))
    | VArray l, VArray l' => cast_if (@list_eq_dec _ go l l')
    | VObject m, VObject m' => cast_if (@list_eq_dec _ (@prod_eq_dec _ _ _ go) m m')
    | _, _ => right _
    end); clear go; congruence.
Defined.

(** [jsonEqual]. *)
Definition jsonEqual (a b : string) : bool :=
  match decode decode_any a, decode decode_any b with
  | Some v, Some w => bool_decide (v = w)
  | _, _ => false
  end.

Definition OMEGA : string := String (byte_of 206) (String (byte_of 169) "").

(** What [fixture] puts in a column of this type and expects of it. *)
Definition fixture_cell (i : InputSchema) (focus variant at_ : Z) (typ : string) :
    option (string * gval) :=
  if bool_decide (typ = "string") then
    let text := "text_" +:+ pretty at_ in
    let text := if Z.eqb at_ focus && Z.eqb variant 1
                then "a" +:+ is_delimiter i +:+ String QUOTE (String LF OMEGA) else text in
    let text := if Z.eqb at_ focus && Z.eqb variant 2 then "  spaced  " else text in
    Some (text, VString (if is_trim_space i then TrimSpace text else text))
  else if bool_decide (typ = "integer") then
    let v := if Z.eqb at_ focus then -17 - variant else at_ + 3 in
    Some (pretty v, VNumber (json_int v))
  else if bool_decide (typ = "decimal") then
    let v := if Z.eqb at_ focus then "-0.25" else pretty (at_ + 3) +:+ ".125" in
    Some (v, VNumber v)
  else if bool_decide (typ = "boolean") then
    let v := Z.eqb at_ focus in Some (json_bool v, VBool v)
  else None.

(** The loop over the output fields: the row and the expected values. *)
Fixpoint fixture_fill (i : InputSchema) (focus variant : Z) (fields : list OutputField)
    (row : list string) (values : gmap Z gval) : list string * gmap Z gval :=
  match fields with
  | [] => (row, values)
  | f :: rest =>
      match fixture_cell i focus variant (of_source_index f) (of_type f) with
      | Some (text, v) =>
          fixture_fill i focus variant rest (<[Z.to_nat (of_source_index f) := text]> row)
            (<[of_source_index f := v]> values)
      | None => fixture_fill i focus variant rest row values
      end
  end.

Definition expected_row (values : gmap Z gval) (fields : list OutputField) : list (string * gval) :=
  foldl (fun out f => put_field (of_name f) (default VNull (values !! of_source_index f)) out) [] fields.

Definition index_row (width : nat) : list string :=
  (fun i => "text_" +:+ pretty (Z.of_nat i)) <$> seq 0 width.

(** [fixture]: the input and the wanted output. *)
Definition fixture (n : Need) (focus variant : Z) : bytes * string :=
  let '(row, values) := fixture_fill (nd_input n) focus variant (os_fields (nd_output n))
    (index_row (length (is_columns (nd_input n)))) ∅ in
  (csvInput n [row], encode (VArray [VObject (expected_row values (os_fields (nd_output n)))])).

(** One call of [Convert] of the suite and what it must return: an output that
    is the same JSON, an error, or, the context cancelled, its error. *)
Inductive trial :=
| Accepts (l : Limits) (input : bytes) (want : string)
| Refuses (l : Limits) (input : bytes) (e : error)
| Cancels (l : Limits) (input : bytes).

(** A child context that has been cancelled: it ends with its parent's error if
    that ended first. *)
Definition cancelled (now : ctx) : ctx := fun k => Some (default Canceled (now k)).

Definition refused (e : error) (r : res string) : bool :=
  match r with Err e' => errors_is e' e | Ok _ => false end.

Definition run_trial (code : Program) (now : ctx) (t : trial) : bool :=
  match t with
  | Accepts l input want =>
      match Convert code l now input with Ok got => jsonEqual got want | Err _ => false end
  | Refuses l input e => refused e (Convert code l now input)
  | Cancels l input => refused Canceled (Convert code l (cancelled now) input)
  end.

(** The calls in their order; [nows k] is the context as the [k]-th call sees
    it.  The number of the next call, or [None] at the first that fails. *)
Fixpoint run_trials (code : Program) (nows : nat -> ctx) (k : nat) (trials : list trial) : option nat :=
  match trials with
  | [] => Some k
  | t :: rest => if run_trial code (nows k) t then run_trials code nows (S k) rest else None
  end.

Section suite.
Context (n : Need).
Abbreviation columns := (is_columns (nd_input n)).
Abbreviation fields := (os_fields (nd_output n)).
Abbreviation limits := (nd_limits n).

(** Each position of the input, in three variants. *)
Definition mapping_trials : list trial :=
  seq 0 (length columns) ≫= fun i => [0; 1; 2] ≫= fun v =>
  let '(input, want) := fixture n (Z.of_nat i) v in [Accepts limits input want].

Definition first_input : bytes := (fixture n 0 0).1.

(** [bytes.Replace(s, old, new, 1)]. *)
Definition replace_once (s old new : bytes) : bytes :=
  match index s old with
  | Some i => take i s ++ new ++ drop (i + length old) s
  | None => s
  end.

(** A row of a text, [true] in the columns of booleans. *)
Definition plain_row (text : string) : list string :=
  foldl (fun row f => if bool_decide (of_type f = "boolean")
                      then <[Z.to_nat (of_source_index f) := "true"]> row else row)
    (replicate (length columns) text) fields.

Definition reject_trials : list trial :=
  [Refuses limits (lit "x" ++ "000"%char :: lit "y") ErrInput;
   Refuses limits [byte_of 255] ErrInput;
   Refuses limits [] ErrInput;
   Refuses limits (QUOTE :: lit "unterminated") ErrInput]
  ++ (if Nat.ltb 1 (length columns) then [Refuses limits (csvInput n [["wrong_width"]]) ErrInput] else [])
  ++ (if is_header (nd_input n)
      then [Refuses limits (replace_once first_input (lit (default "" (head columns)))
                              (lit "wrong_header")) ErrInput] else [])
  ++ (fields ≫= fun f =>
        if bool_decide (of_type f = "string") then []
        else [Refuses limits
                (csvInput n [<[Z.to_nat (of_source_index f) := "not_a_value"]> (plain_row "0")])
                ErrInput]).

Definition limit_trials : list trial :=
  (if Z.ltb 0 (blen first_input - 1)
   then [Refuses (mkLimits (blen first_input - 1) (lm_output_bytes limits) (lm_rows limits)
                    (lm_field_bytes limits) (lm_millis limits)) first_input ErrLimit]
   else [])
  ++ [Refuses (mkLimits (lm_input_bytes limits) 1 (lm_rows limits) (lm_field_bytes limits)
                 (lm_millis limits)) first_input ErrLimit;
      Refuses (mkLimits (lm_input_bytes limits) (lm_output_bytes limits) (lm_rows limits) 1
                 (lm_millis limits)) first_input ErrLimit;
      Refuses (mkLimits (lm_input_bytes limits) (lm_output_bytes limits) 1 (lm_field_bytes limits)
                 (lm_millis limits)) (csvInput n [plain_row "1"; plain_row "1"]) ErrLimit;
      Cancels limits first_input].

Definition author_trials (tests : list Test) : list trial :=
  (fun t => Accepts limits (lit (ts_input t)) (ts_expected t)) <$> tests.

(** The loop over [types]. *)
Fixpoint one_type (types : list (Z * string)) (fs : list OutputField) : bool :=
  match fs with
  | [] => true
  | f :: rest => negb (retyped types (of_source_index f) (of_type f))
                 && one_type ((of_source_index f, of_type f) :: types) rest
  end.
End suite.

(** The package is the need's: [false] is [ErrChecks]. *)
Definition matches_need (m : Manifest) (n : Need) (profile : Profile) : bool :=
  bool_decide (mf_id m = nd_converter_id n) && bool_decide (mf_need_id m = nd_id n)
  && bool_decide (mf_class m = nd_class n)
  && bool_decide (Hash (Some (json_input (mf_input m))) = Hash (Some (json_input (nd_input n))))
  && bool_decide (Hash (Some (json_output (mf_output m))) = Hash (Some (json_output (nd_output n))))
  && bool_decide (mf_limits m = nd_limits n)
  && bool_decide (head (mf_dependencies m) = Some (pf_dependency profile)).

(** [Check]. *)
Definition Check_package (decode_manifest : string -> option Manifest) (nows : nat -> ctx)
    (p : Package) (n : Need) (profile : Profile) : Report * option error :=
  let m := pk_manifest p in
  let report checks passed := mkReport (pk_digest p) (Hash (Some (json_need n)))
    (Hash (Some (json_profile profile))) Checker checks passed in
  let c1 := ["independent_typed_mapping_quotes_unicode_whitespace"] in
  let c2 := c1 ++ ["reject_wrong_shape_header_numeric_boolean_utf8_nul"] in
  let c3 := c2 ++ ["input_output_row_field_limits_and_cancellation"] in
  let c4 := c3 ++ ["author_tests_additive_only"; "no_file_network_process_or_secret_operations"] in
  match Parse decode_manifest (pk_raw p) with
  | Err _ => (report [] false, Some ErrPackage)
  | Ok fresh =>
      if negb (bool_decide (pk_digest fresh = pk_digest p))
         || negb (bool_decide (Hash (json_manifest (pk_manifest fresh)) = Hash (json_manifest m)))
         || negb (is_ok (Need_Validate n)) || negb (is_ok (Profile_Validate profile))
      then (report [] false, Some ErrPackage)
      else if negb (matches_need m n profile) then (report [] false, Some ErrChecks)
      else if negb (one_type [] (os_fields (nd_output n))) then (report [] false, Some ErrChecks)
      else match run_trials (mf_code m) nows 0 (mapping_trials n) with
      | None => (report [] false, Some ErrChecks)
      | Some k => match run_trials (mf_code m) nows k (reject_trials n) with
      | None => (report c1 false, Some ErrChecks)
      | Some k => match run_trials (mf_code m) nows k (limit_trials n) with
      | None => (report c2 false, Some ErrChecks)
      | Some k => match run_trials (mf_code m) nows k (author_trials n (mf_tests m)) with
      | None => (report c3 false, Some ErrChecks)
      | Some _ => (report c4 true, None)
      end end end end
  end.
