(* ===== verification/ConverterText.v ===== *)
(** * ConverterText: the texts a conversion handles

    Lemmas on UTF-8 text that is cut at line ends, quotes, delimiters and white
    space, and on printed integers. *)
From Stdlib Require Import Ascii.
From stdpp Require Import pretty.
From S2P Require Import Prelude GoStrings GoBytes GoJson GoHash GoValue GoCsv Canonical.
Open Scope Z_scope.

(** ** Cutting UTF-8 *)

Lemma str_app a b : str (a ++ b) = str a +:+ str b.
Proof. induction a as [|c a IH]; [done|]. simpl. by rewrite append_cons IH. Qed.

Lemma lead_range a k lo hi : utf8_lead a = Some (k, lo, hi) -> 128 <= lo /\ hi <= 191.
Proof. unfold utf8_lead. repeat (destruct (_ && _) || destruct (Z.eqb _ _)); intros; simplify_eq; lia. Qed.

Lemma utf8_app s : utf8_valid s = true -> forall t, utf8_valid (s +:+ t) = utf8_valid t.
Proof.
  assert (forall n s, (String.length s <= n)%nat -> utf8_valid s = true ->
    forall t, utf8_valid (s +:+ t) = utf8_valid t) as H; [|by apply (H (String.length s))].
  clear s. induction n as [|n IH]; intros [|a s] Hn Hs t; try done; simpl in Hn; [lia|].
  rewrite append_cons. cbn [utf8_valid] in Hs |- *. destruct (Z.ltb _ _); [apply IH; [lia|done]|].
  destruct (utf8_lead a) as [[[[|[|[|[|[|k]]]]] lo] hi]|]; try done;
    repeat (destruct s as [|? s]; [done|]; rewrite append_cons; simpl in Hn);
    unbool; repeat (match goal with E : in_range _ _ _ = true |- _ => rewrite E; clear E end);
    simpl andb; apply IH; try done; lia.
Qed.

(** The text starts a rune. *)
Definition starts_rune (t : string) : bool :=
  match t with String c _ => negb (in_range 128 191 c) | EmptyString => true end.

Lemma utf8_cut s t : starts_rune t = true -> utf8_valid (s +:+ t) = true ->
  utf8_valid s = true /\ utf8_valid t = true.
Proof.
  assert (forall n s, (String.length s <= n)%nat -> starts_rune t = true ->
    utf8_valid (s +:+ t) = true -> utf8_valid s = true /\ utf8_valid t = true) as H;
    [|by apply (H (String.length s))].
  clear s. induction n as [|n IH]; intros [|a s] Hn Ht Hs; try done; simpl in Hn; [lia|].
  rewrite append_cons in Hs. cbn [utf8_valid] in Hs |- *. destruct (Z.ltb _ _); [apply IH; [lia|done..]|].
  destruct (utf8_lead a) as [[[[|[|[|[|[|k]]]]] lo] hi]|] eqn:E; try done; apply lead_range in E;
    repeat (first [destruct s as [|? s]; [destruct t as [|? [|? [|? t]]]; try done; simpl in Hs, Ht;
                     unfold in_range in *; unbool; exfalso; 
                     repeat match goal with X : _ && _ = false |- _ => apply andb_false_iff in X as [X|X] end; unbool; lia|]
                  | fail 1]; rewrite append_cons in Hs; simpl in Hn);
    unbool; repeat (match goal with E : in_range _ _ _ = true |- _ => rewrite E; clear E end);
    simpl andb; apply IH; try done; lia.
Qed.

(** ** The reader cuts UTF-8 into UTF-8 *)

Definition valid (b : bytes) : Prop := utf8_valid (str b) = true.
Definition is_ascii (c : ascii) : bool := Z.ltb (byte_val c) 128.

Lemma valid_app a b : valid a -> valid b -> valid (a ++ b).
Proof. unfold valid. intros Ha Hb. by rewrite str_app utf8_app. Qed.

Lemma valid_ascii c : is_ascii c = true -> valid [c].
Proof. unfold is_ascii, valid. simpl. by intros ->. Qed.

Lemma valid_cut a c b : is_ascii c = true -> valid (a ++ c :: b) -> valid a /\ valid b.
Proof.
  unfold valid, is_ascii. intros Hc H. rewrite str_app in H. apply utf8_cut in H as [Ha Hb].
  - split; [done|]. simpl in Hb. by rewrite Hc in Hb.
  - simpl. apply negb_true_iff. unfold in_range. apply andb_false_iff. left. apply Z.leb_gt.
    apply Z.ltb_lt in Hc. lia.
Qed.

Lemma cut_line_valid s : valid s -> valid (cut_line s).1 /\ valid (cut_line s).2.
Proof.
  intros H. assert (Hc : (cut_line s = (s, [])) \/ exists a b, s = a ++ LF :: b /\ cut_line s = (a ++ [LF], b)).
  { clear H. induction s as [|c s IH]; [by left|]. simpl. case_bool_decide as E.
    - subst. right. by exists [], s.
    - destruct IH as [->|(a & b & -> & ->)]; [by left|]. right. by exists (c :: a), b. }
  destruct Hc as [->|(a & b & -> & ->)]; [done|]. apply valid_cut in H as [Ha Hb]; [|done].
  split; [by apply valid_app; [|apply valid_ascii]|done].
Qed.

Lemma reverse_cons_eq {A} (l : list A) c t : reverse l = c :: t -> l = reverse t ++ [c].
Proof. intros H. by rewrite -(reverse_involutive l) H reverse_cons. Qed.

Lemma normal_line_valid line : valid line -> valid (normal_line line).
Proof.
  intros H. unfold normal_line. destruct (reverse line) as [|c [|d t]] eqn:E; [done|..];
    apply reverse_cons_eq in E; subst line; repeat case_bool_decide; subst; simpl; try done.
  - rewrite reverse_cons in H. rewrite reverse_cons. apply valid_cut in H as [H _]; [|done].
    apply valid_cut in H as [H _]; [|done]. by apply valid_app; [|apply valid_ascii].
  - by apply valid_cut in H as [H _].
  - by apply valid_cut in H as [H _].
Qed.

Lemma readLine_valid s line rest : valid s -> readLine s = Some (line, rest) -> valid line /\ valid rest.
Proof.
  intros H. unfold readLine. destruct s as [|c s]; [done|]. apply cut_line_valid in H as [Hl Hr].
  destruct (cut_line (c :: s)) as [l r]. intros [= <- <-]. split; [by apply normal_line_valid|done].
Qed.

Lemma strip_nl_valid line : valid line -> valid (strip_nl line).
Proof.
  intros H. unfold strip_nl. destruct (reverse line) as [|c t] eqn:E; [done|].
  apply reverse_cons_eq in E. subst line. case_bool_decide; [|done]. by apply valid_cut in H as [H _]; subst.
Qed.

Lemma index_byte_split s c i : index_byte s c = Some i -> s = take i s ++ c :: drop (S i) s.
Proof.
  unfold index_byte. intros (a & b & -> & <-)%index_Some. by rewrite take_app_length /= drop_after.
Qed.

Lemma index_byte_valid s c i : is_ascii c = true -> valid s -> index_byte s c = Some i ->
  valid (take i s) /\ valid (drop (S i) s).
Proof. intros Hc H E. apply index_byte_split in E. rewrite E in H. by apply valid_cut in H. Qed.

Lemma valid_tail c s : is_ascii c = true -> valid (c :: s) -> valid s.
Proof. intros Hc H. by apply (valid_cut [] c s) in H as [_ ?]. Qed.

Definition valid_text (s : string) : Prop := utf8_valid s = true.
Definition valid_mode (m : csv_mode) : Prop := match m with Start => True | Quoted buf => valid buf end.

Lemma parse_record_valid comma fuel : is_ascii comma = true ->
  forall mode line rest acc fields rest', parse_record comma fuel mode line rest acc = Some (fields, rest') ->
  valid_mode mode -> valid line -> valid rest -> Forall valid_text acc ->
  Forall valid_text fields /\ valid rest'.
Proof.
  intros Hc. induction fuel as [|fuel IH]; intros mode line rest acc fields rest' H Hm Hl Hr Ha; [done|].
  assert (Hput : forall b, valid b -> Forall valid_text (acc ++ [str b])) by
    (intros b Hb; apply Forall_app; split; [done|by constructor]).
  destruct mode as [|buf]; simpl in H, Hm.
  - destruct line as [|c line']; [injection H as <- <-; split; [by apply (Hput [])|done]|].
    case_bool_decide; [subst; apply IH in H; try done; by apply valid_tail in Hl|].
    destruct (index_byte _ _) as [i|] eqn:E; case_bool_decide; try done.
    + apply index_byte_valid in E as [E1 E2]; [|done..]. apply IH in H; try done. by apply Hput.
    + injection H as <- <-. split; [apply Hput; by apply strip_nl_valid|done].
  - destruct (index_byte line QUOTE) as [i|] eqn:E.
    + apply index_byte_valid in E as [E1 E2]; [|done..].
      assert (Hb : valid (buf ++ take i line)) by by apply valid_app.
      destruct (drop (S i) line) as [|c line']; [injection H as <- <-; split; [by apply Hput|done]|].
      case_bool_decide.
      { subst. assert (valid line') by by apply valid_tail in E2.
        apply IH in H; try done. by apply valid_app; [|apply valid_ascii]. }
      case_bool_decide.
      { subst. assert (valid line') by by apply valid_tail in E2. apply IH in H; try done. by apply Hput. }
      destruct (blank _); [|done]. injection H as <- <-. split; [by apply Hput|done].
    + destruct line as [|c line']; [done|].
      destruct (readLine rest) as [[next rest1]|] eqn:Er; simpl in H; apply IH in H; try done;
        try (by apply valid_app); by apply readLine_valid in Er as [??].
Qed.

Lemma next_line_valid fuel : forall s line rest, valid s -> next_line fuel s = Some (line, rest) ->
  valid line /\ valid rest.
Proof.
  induction fuel as [|fuel IH]; intros s line rest Hs H; [done|]. simpl in H.
  destruct (readLine s) as [[l r]|] eqn:E; [|done]. apply readLine_valid in E as [El Er]; [|done].
  destruct (blank l); [by apply IH in H|]. by injection H as <- <-.
Qed.

Lemma Read_valid comma n s fields rest : is_ascii comma = true -> valid s ->
  Read comma n s = ReadRecord fields rest -> Forall valid_text fields /\ valid rest.
Proof.
  intros Hc Hs. unfold Read. destruct (next_line _ s) as [[line r]|] eqn:E; [|done].
  apply next_line_valid in E as [El Er]; [|done].
  destruct (parse_fields _ _ _ _ _) as [[fs r']|] eqn:Ep; [|done].
  destruct (Nat.eqb _ _); [|done]. intros [= <- <-]. by apply parse_record_valid in Ep.
Qed.

(** ** Trimming *)

Lemma trim_with_valid s : utf8_valid s = true -> utf8_valid (GoStrings.trim_left s) = true.
Proof.
  unfold GoStrings.trim_left.
  assert (forall n s, (String.length s <= n)%nat -> utf8_valid s = true ->
    utf8_valid (trim_with space2 space3 s) = true) as H; [|by apply (H (String.length s))].
  clear s. induction n as [|n IH]; intros [|a s] Hn Hs; try done; simpl in Hn; [lia|].
  cbn [trim_with]. destruct (space1 a) eqn:E1.
  { apply IH; [lia|]. by destruct a as [[] [] [] [] [] [] [] []]. }
  destruct s as [|b s]; [done|]. destruct (space2 a b) eqn:E2.
  { apply IH; [simpl in Hn; lia|]. unfold space2 in E2. apply andb_true_iff in E2 as [Ea%N.eqb_eq Eb].
    cbn [utf8_valid] in Hs. unfold byte_val, utf8_lead, byte_val in Hs. rewrite Ea in Hs. simpl in Hs.
    by apply andb_true_iff in Hs as [_ ?]. }
  destruct s as [|c s]; [done|]. destruct (space3 a b c) eqn:E3; [|done].
  apply IH; [simpl in Hn; lia|]. unfold space3 in E3.
  assert (Ea : N_of_ascii a = 225%N \/ N_of_ascii a = 226%N \/ N_of_ascii a = 227%N).
  { repeat (apply orb_true_iff in E3 as [E3|E3] || apply andb_true_iff in E3 as [E3 _]);
      apply N.eqb_eq in E3; auto. }
  cbn [utf8_valid] in Hs. unfold byte_val, utf8_lead, byte_val in Hs.
  destruct Ea as [Ea|[Ea|Ea]]; rewrite Ea in Hs; simpl in Hs; unbool; done.
Qed.

Lemma starts_rune_app a b : starts_rune a = true -> starts_rune b = true -> starts_rune (a +:+ b) = true.
Proof. by destruct a. Qed.

(** What is cut off at the right end starts with a rune. *)
Lemma trim_right_cut s : exists p, s = p +:+ trim_right_rev s /\ starts_rune (String.rev p) = true.
Proof.
  unfold trim_right_rev.
  assert (forall n s, (String.length s <= n)%nat -> exists p,
    s = p +:+ trim_with (fun a b => space2 b a) (fun a b c => space3 c b a) s
    /\ starts_rune (String.rev p) = true) as H; [|by apply (H (String.length s))].
  clear s. induction n as [|n IH]; intros [|a s] Hn; try (by exists ""); simpl in Hn; [lia|].
  assert (Hstep : forall q s', (String.length s' <= n)%nat -> starts_rune (String.rev q) = true ->
    exists p, q +:+ s' = p +:+ trim_with (fun a b => space2 b a) (fun a b c => space3 c b a) s'
      /\ starts_rune (String.rev p) = true).
  { intros q s' Hs Hq. destruct (IH s' Hs) as (p & Hp & Hr). exists (q +:+ p).
    rewrite -append_assoc -Hp rev_append. split; [done|by apply starts_rune_app]. }
  cbn [trim_with]. destruct (space1 a) eqn:E1.
  { apply (Hstep (String a "")); [lia|]. by destruct a as [[] [] [] [] [] [] [] []]. }
  destruct s as [|b s]; [by exists ""|]. simpl in Hn. destruct (space2 b a) eqn:E2.
  { apply (Hstep (String a (String b ""))); [lia|]. cbn. unfold space2 in E2.
    apply andb_true_iff in E2 as [E%N.eqb_eq _]. unfold in_range, byte_val. by rewrite E. }
  destruct s as [|c s]; [by exists ""|]. simpl in Hn. destruct (space3 c b a) eqn:E3; [|by exists ""].
  apply (Hstep (String a (String b (String c "")))); [lia|]. cbn. unfold space3 in E3.
  unfold in_range, byte_val.
  repeat (apply orb_true_iff in E3 as [E3|E3] || apply andb_true_iff in E3 as [E3 _]);
    apply N.eqb_eq in E3; by rewrite E3.
Qed.

Lemma TrimSpace_valid s : utf8_valid s = true -> utf8_valid (TrimSpace s) = true.
Proof.
  intros H%trim_with_valid. unfold TrimSpace.
  destruct (trim_right_cut (String.rev (GoStrings.trim_left s))) as (p & Hp & Hr).
  apply (f_equal String.rev) in Hp. rewrite rev_involutive rev_append in Hp. rewrite Hp in H.
  by apply utf8_cut in H as [H _].
Qed.

(** ** Printed integers *)

Lemma digits_value_app u v acc : digits_value acc (u +:+ v) = digits_value (digits_value acc u) v.
Proof. revert acc. induction u as [|c u IH]; intros acc; [done|]. rewrite append_cons. simpl. by rewrite IH. Qed.

(** The first byte is a digit that is not zero. *)
Definition nonzero_head (u : string) : bool :=
  match u with String c _ => is_digit c && negb (is_char c "0") | EmptyString => false end.

Lemma pretty_digit x : (x < 10)%N -> is_digit (pretty_N_char x) = true
  /\ byte_val (pretty_N_char x) - 48 = Z.of_N x /\ (x <> 0%N -> is_char (pretty_N_char x) "0" = false).
Proof.
  intros H. assert (E : x = 0%N \/ x = 1%N \/ x = 2%N \/ x = 3%N \/ x = 4%N \/ x = 5%N \/ x = 6%N \/ x = 7%N
    \/ x = 8%N \/ x = 9%N) by lia.
  destruct E as [->|[->|[->|[->|[->|[->|[->|[->|[->| ->]]]]]]]]]; by vm_compute.
Qed.

Lemma pretty_N_go_digits x : (0 < x)%N -> forall s, exists u, pretty_N_go x s = u +:+ s
  /\ all_chars is_digit u = true /\ digits_value 0 u = Z.of_N x /\ nonzero_head u = true.
Proof.
  induction (N.lt_wf_0 x) as [x _ IH]; intros Hx s. rewrite pretty_N_go_step //.
  destruct (pretty_digit (x `mod` 10)%N) as (Hd & Hv & Hz); [apply N.mod_lt; lia|].
  destruct (N.eq_0_gt_0_cases (x `div` 10)) as [E|E].
  - rewrite E pretty_N_go_0. exists (String (pretty_N_char (x `mod` 10)) "").
    pose proof (N.div_mod x 10 ltac:(done)) as Hm. rewrite E in Hm. simpl. rewrite Hd Hz; [lia|].
    split_and!; try done. lia.
  - destruct (IH (x `div` 10)%N ltac:(by apply N.div_lt) E (String (pretty_N_char (x `mod` 10)) s))
      as (u & -> & H1 & H2 & H3).
    exists (u +:+ String (pretty_N_char (x `mod` 10)) "").
    rewrite -append_assoc all_chars_app digits_value_app H1 H2 /= Hd Hv. split_and!; try done.
    + pose proof (N.div_mod x 10 ltac:(done)). lia.
    + by destruct u.
Qed.

Lemma span_digits_all u : all_chars is_digit u = true -> span_digits u = (u, "").
Proof. induction u as [|c u IH]; [done|]. simpl. intros [-> H]%andb_true_iff. by rewrite IH. Qed.

(** The digits of a positive number, as the scanners of numbers see them. *)
Lemma digits_scanned u : all_chars is_digit u = true -> nonzero_head u = true ->
  number_int u = Some (u, "") /\ digits1 u = Some (u, "") /\ number_sign u = ("", u)
  /\ exists c t, u = String c t /\ is_char c "-" = false /\ is_char c "+" = false.
Proof.
  intros Hu Hh. destruct u as [|c u]; [done|]. unfold digits1, number_int, number_sign.
  rewrite (span_digits_all (String c u)) //. simpl in Hh.
  apply andb_true_iff in Hh as [Hc Hz%negb_true_iff]. rewrite Hc Hz.
  assert (is_char c "-" = false /\ is_char c "+" = false) as [Hm Hp].
  { by destruct c as [[] [] [] [] [] [] [] []]. }
  rewrite Hm. split_and!; try done. by exists c, u.
Qed.

Lemma pretty_Z_parts (z : Z) :
  (z = 0 /\ pretty z = "0")
  \/ exists u, all_chars is_digit u = true /\ nonzero_head u = true /\
     ((0 < z /\ pretty z = u /\ digits_value 0 u = z) \/ (z < 0 /\ pretty z = String "-" u /\ digits_value 0 u = - z)).
Proof.
  destruct z as [|p|p]; [by left|right..].
  - destruct (pretty_N_go_digits (Npos p) ltac:(lia) "") as (u & E & H1 & H2 & H3).
    exists u. split_and!; try done. left. rewrite append_nil_r in E. split_and!; [lia|exact E|done].
  - destruct (pretty_N_go_digits (Npos p) ltac:(lia) "") as (u & E & H1 & H2 & H3).
    exists u. split_and!; try done. right. rewrite append_nil_r in E. split_and!; [lia| |rewrite H2; lia].
    rewrite -E. done.
Qed.

Lemma number_int_pretty (z : Z) : exists i, number_int (number_sign (pretty z)).2 = Some (i, "")
  /\ (number_sign (pretty z)).1 +:+ i = pretty z.
Proof.
  destruct (pretty_Z_parts z) as [[-> ->]|(u & Hu & Hh & [(Hz & -> & Hv)|(Hz & -> & Hv)])].
  - by exists "0".
  - destruct (digits_scanned u Hu Hh) as (H1 & _ & -> & _). by exists u.
  - destruct (digits_scanned u Hu Hh) as (H1 & _ & _ & _). by exists u.
Qed.

Lemma parse_int64_pretty z : in_int64 z -> parse_int64 (pretty z) = Some z.
Proof.
  intros [Hlo Hhi]. unfold parse_int64.
  destruct (pretty_Z_parts z) as [[-> ->]|(u & Hu & Hh & [(Hz & -> & Hv)|(Hz & -> & Hv)])]; [done|..];
    destruct (digits_scanned u Hu Hh) as (_ & H2 & _ & c & t & E & H3 & H4).
  - rewrite {1}E H3 H4 -?E H2 Hv. by rewrite (proj2 (Z.leb_le _ _) Hlo) (proj2 (Z.leb_le _ _) Hhi).
  - cbn [is_char]. change (is_char "-" "-") with true. cbv iota. rewrite H2 Hv Z.opp_involutive.
    by rewrite (proj2 (Z.leb_le _ _) Hlo) (proj2 (Z.leb_le _ _) Hhi).
Qed.

Lemma parse_int64_pretty_inv (z z' : Z) : parse_int64 (pretty z) = Some z' -> z' = z.
Proof.
  unfold parse_int64.
  destruct (pretty_Z_parts z) as [[-> ->]|(u & Hu & Hh & [(Hz & -> & Hv)|(Hz & -> & Hv)])];
    [by intros [= <-]|..]; destruct (digits_scanned u Hu Hh) as (_ & H2 & _ & c & t & E & H3 & H4).
  - rewrite {1}E H3 H4 -?E H2 Hv. destruct (_ && _); [|done]. by intros [= <-].
  - change (is_char "-" "-") with true. cbv iota. rewrite H2 Hv Z.opp_involutive.
    destruct (_ && _); [|done]. by intros [= <-].
Qed.
