(* ===== verification/ConverterProofs.v ===== *)
(** * ConverterProofs: what a conversion returns

    The interpreter of [Converter] returns exactly the JSON of the rows of the
    input, or an error: [Convert_spec]. *)
From Stdlib Require Import Ascii.
From stdpp Require Import pretty.
From S2P Require Import Prelude GoStrings GoBytes GoJson GoHash GoValue GoCsv Budget Canonical ApprovalGate Converter ConverterText.
Open Scope Z_scope.
Open Scope go_scope.

(** ** Valid programs *)

Lemma valid_columns_Ok columns : forall seen, valid_columns seen columns = Ok tt ->
  Forall (fun c => fieldName c = true) columns /\ NoDup columns /\ forall c, c ∈ columns -> c ∉ seen.
Proof.
  induction columns as [|c columns IH]; intros seen H; [split_and!; [constructor|constructor|set_solver]|].
  simpl in H. apply fail_if_Ok in H as [Hg H]. apply IH in H as (H1 & H2 & H3). unbool. split_and!.
  - by constructor.
  - constructor; [|done]. intros Hin. apply (H3 c Hin). by left.
  - intros x [->|Hx]%elem_of_cons; [done|]. apply H3 in Hx. set_solver.
Qed.

Definition column_ok (width : Z) (c : Column) : Prop :=
  0 <= cl_input_index c < width /\ fieldName (cl_output_name c) = true /\ validType (cl_type c) = true.

Lemma valid_program_columns_Ok width columns : forall seen, valid_program_columns width seen columns = Ok tt ->
  Forall (column_ok width) columns /\ NoDup (cl_output_name <$> columns)
  /\ forall c, c ∈ columns -> cl_output_name c ∉ seen.
Proof.
  induction columns as [|c columns IH]; intros seen H; [split_and!; [constructor|constructor|set_solver]|].
  simpl in H. apply fail_if_Ok in H as [Hg H]. apply IH in H as (H1 & H2 & H3). unbool. split_and!.
  - constructor; [|done]. split_and!; try done; lia.
  - simpl. constructor; [|done]. intros (x & E & Hx)%list_elem_of_fmap. apply H3 in Hx. set_solver.
  - intros x [->|Hx]%elem_of_cons; [done|]. apply H3 in Hx. set_solver.
Qed.

Lemma validateProgram_Ok p : validateProgram p = Ok tt ->
  validDelimiter (pr_delimiter p) = true /\ pr_input_columns p <> [] /\ pr_columns p <> []
  /\ Forall (fun c => fieldName c = true) (pr_input_columns p) /\ NoDup (pr_input_columns p)
  /\ Forall (column_ok (list_len (pr_input_columns p))) (pr_columns p)
  /\ NoDup (cl_output_name <$> pr_columns p).
Proof.
  unfold validateProgram. intros H. go_ok H. destruct a. apply valid_columns_Ok in Hg0 as (H1 & H2 & _).
  apply valid_program_columns_Ok in H as (H3 & H4 & _). unfold outside, list_len in Hg. unbool.
  split_and!; try done; intros E; repeat match goal with H : context[length _] |- _ => rewrite E /= in H end; lia.
Qed.

Lemma validDelimiter_comma d : validDelimiter d = true ->
  d = String (comma_of d) "" /\ is_ascii (comma_of d) = true
  /\ comma_of d <> QUOTE /\ comma_of d <> LF /\ comma_of d <> CR.
Proof.
  unfold validDelimiter. rewrite !orb_true_iff !bool_decide_eq_true.
  by intros [[[->| ->]| ->]| ->].
Qed.

(** ** Values *)

Lemma ascii_valid s : all_chars is_ascii s = true -> utf8_valid s = true.
Proof. induction s as [|c s IH]; [done|]. cbn [all_chars utf8_valid]. unfold is_ascii. intros [-> H]%andb_true_iff. by apply IH. Qed.

Lemma all_chars_weaken (p q : ascii -> bool) s : (forall c, p c = true -> q c = true) ->
  all_chars p s = true -> all_chars q s = true.
Proof.
  intros H. induction s as [|c s IH]; [done|]. simpl. rewrite !andb_true_iff. intros [H1 H2].
  split; [by apply H|by apply IH].
Qed.

(** The bytes of a field name. *)
Definition name_char (c : ascii) : bool := is_lower c || is_upper c || is_digit c || is_char c "_".

Lemma fieldName_chars s : fieldName s = true -> s <> "" /\ all_chars name_char s = true.
Proof.
  destruct s as [|c s]; [done|]. unfold fieldName. simpl. intros H. unbool. split; [done|].
  apply andb_true_iff. split; [|done]. unfold name_char. by rewrite H.
Qed.

Lemma fieldName_valid s : fieldName s = true -> utf8_valid s = true.
Proof.
  intros [_ H]%fieldName_chars. apply ascii_valid. revert H. apply all_chars_weaken.
  intros c. by destruct c as [[] [] [] [] [] [] [] []].
Qed.

Lemma number_lit_pretty (z : Z) : number_lit (pretty z) = Some (pretty z, "").
Proof.
  destruct (number_int_pretty z) as (i & H1 & H2). unfold number_lit.
  destruct (number_sign (pretty z)) as [sign s1]. simpl in H1, H2. rewrite H1.
  cbn -[String.append]. rewrite !append_nil_r. by rewrite H2.
Qed.

Lemma decimalValue_number s : decimalValue s = true -> number_lit s = Some (s, "").
Proof.
  unfold decimalValue, number_lit. destruct (number_sign s) as [sign s1] eqn:Es. simpl.
  apply number_sign_prefix in Es as [Hs _]. destruct (number_int s1) as [[i s2]|] eqn:Ei; [|done].
  apply number_int_prefix in Ei as [[Hi _] _]. cbn -[number_frac String.append].
  destruct (number_frac s2) as [[f s3]|] eqn:Ef; [|done].
  apply number_frac_prefix in Ef as [[Hf _] _]. destruct s3; [|done]. intros _.
  cbn -[String.append]. subst. by rewrite !append_nil_r.
Qed.

Lemma scalar_ok raw typ trim v : utf8_valid raw = true -> scalar raw typ trim = Ok v -> value_ok v = true.
Proof.
  intros Hr. unfold scalar. set (raw' := if trim then TrimSpace raw else raw).
  assert (Hr' : utf8_valid raw' = true) by (subst raw'; destruct trim; [by apply TrimSpace_valid|done]).
  case_bool_decide; [by intros [= <-]|]. case_bool_decide.
  { unfold fail_if. destruct (negb _); [done|]. destruct (parse_int64 raw'); [|done]. intros [= <-].
    apply bool_decide_eq_true, number_lit_pretty. }
  case_bool_decide.
  { intros [Hg [= <-]]%fail_if_Ok. unbool. by apply bool_decide_eq_true, decimalValue_number. }
  repeat case_bool_decide; by intros [= <-].
Qed.

Lemma scalar_fits raw typ trim v dc d : dc_value dc d = true -> scalar raw typ trim = Ok v -> fits dc d v = true.
Proof.
  intros Hd. unfold scalar, fail_if. repeat case_bool_decide; try done; try (intros [= <-]; simpl; by rewrite Hd).
  - destruct (negb _); [done|]. destruct (parse_int64 _); [|done]. intros [= <-]. simpl. by rewrite Hd.
  - destruct (_ || _); [done|]. intros [= <-]. simpl. by rewrite Hd.
Qed.

(** ** Rows *)

(** The value of a key. *)
Fixpoint at_key {A} (k : string) (m : list (string * A)) : option A :=
  match m with
  | [] => None
  | (k', v) :: m' => if bool_decide (k = k') then Some v else at_key k m'
  end.

Lemma at_key_put {A} k k' (v : A) m :
  at_key k (put_field k' v m) = if bool_decide (k = k') then Some v else at_key k m.
Proof.
  induction m as [|[k0 v0] m IH]; [done|]. cbn [put_field].
  destruct (bool_decide_reflect (k' = k0)) as [->|E]; simpl; [by case_bool_decide|].
  destruct (text_lt k' k0); simpl; [done|]. rewrite IH. repeat case_bool_decide; congruence.
Qed.

Lemma at_key_lt {A} k (m : list (string * A)) :
  forallb (fun kv => text_lt k kv.1) m = true -> at_key k m = None.
Proof.
  induction m as [|[k0 v0] m IH]; [done|]. simpl. intros [H1 H2]%andb_true_iff.
  rewrite bool_decide_eq_false_2; [|by apply IH].
  intros ->. by rewrite text_lt_irrefl in H1.
Qed.

(** A map is what it has at each key. *)
Lemma at_key_ext {A} (m m' : list (string * A)) : sorted_fields m = true -> sorted_fields m' = true ->
  (forall k, at_key k m = at_key k m') -> m = m'.
Proof.
  revert m'. induction m as [|[k v] m IH]; intros [|[k' v'] m'] Hs Hs' H; [done|..].
  - specialize (H k'). simpl in H. by rewrite bool_decide_eq_true_2 in H.
  - specialize (H k). simpl in H. by rewrite bool_decide_eq_true_2 in H.
  - simpl in Hs, Hs'. apply andb_true_iff in Hs as [Hm Hs], Hs' as [Hm' Hs'].
    assert (k = k') as <-.
    { destruct (decide (k = k')) as [|Hn]; [done|]. destruct (text_lt k k') eqn:E.
      - specialize (H k). simpl in H. rewrite (at_key_lt k m' (forallb_lt_cons _ _ _ E Hm')) in H.
        by repeat case_bool_decide.
      - apply text_lt_total in E; [|done]. specialize (H k'). simpl in H.
        rewrite (at_key_lt k' m (forallb_lt_cons _ _ _ E Hm)) in H. by repeat case_bool_decide. }
    pose proof (H k) as Hk. simpl in Hk. rewrite !bool_decide_eq_true_2 // in Hk. injection Hk as <-.
    f_equal. apply IH; [done..|]. intros x. specialize (H x). simpl in H. case_bool_decide as E; [|done].
    subst x. by rewrite !at_key_lt.
Qed.

Section rows.
Context (p : Program).

(** The value of a column. *)
Definition cell (record : list string) (c : Column) : res gval :=
  scalar (default "" (record !! Z.to_nat (cl_input_index c))) (cl_type c) (pr_trim_space p).

Definition row_of (record : list string) : res (list (string * gval)) :=
  convert_row p record (pr_columns p) [].

Lemma convert_row_Ok record columns : forall row out, convert_row p record columns row = Ok out ->
  NoDup (cl_output_name <$> columns) ->
  (forall c, c ∈ columns -> exists v, cell record c = Ok v /\ at_key (cl_output_name c) out = Some v)
  /\ (forall k, k ∉ cl_output_name <$> columns -> at_key k out = at_key k row)
  /\ (sorted_fields row = true -> sorted_fields out = true).
Proof.
  induction columns as [|c columns IH]; intros row out H Hd.
  - injection H as <-. split_and!; [set_solver|done|done].
  - simpl in H. apply res_bind_Ok in H as (v & Hv & H). apply NoDup_cons in Hd as [Hc Hd].
    apply IH in H as (H1 & H2 & H3); [|done]. split_and!.
    + intros x [->|Hx]%elem_of_cons; [|by apply H1]. exists v. split; [done|].
      rewrite H2 // at_key_put bool_decide_eq_true_2 //.
    + intros k [Hk Hk']%not_elem_of_cons. rewrite H2 // at_key_put bool_decide_eq_false_2 //.
    + intros Hs. by apply H3, put_field_sorted.
Qed.

Lemma convert_row_exists record columns : (forall c, c ∈ columns -> exists v, cell record c = Ok v) ->
  forall row, exists out, convert_row p record columns row = Ok out.
Proof.
  induction columns as [|c columns IH]; intros H row; [by eexists|].
  destruct (H c ltac:(by left)) as [v Hv]. unfold cell in Hv. simpl. rewrite Hv. simpl. apply IH. set_solver.
Qed.

Lemma scalar_Err raw typ trim e : scalar raw typ trim = Err e -> e = ErrInput.
Proof.
  unfold scalar, fail_if. repeat case_bool_decide; try by intros [= <-].
  - destruct (negb _); [by intros [= <-]|]. destruct (parse_int64 _); [done|by intros [= <-]].
  - destruct (_ || _); [by intros [= <-]|done].
Qed.

Lemma convert_row_Err record columns : forall row e, convert_row p record columns row = Err e ->
  e = ErrInput /\ exists c, c ∈ columns /\ cell record c = Err ErrInput.
Proof.
  induction columns as [|c columns IH]; intros row e H; [done|].
  simpl in H. apply res_bind_Err in H as [H|(v & _ & H)].
  - pose proof (scalar_Err _ _ _ _ H) as ->. split; [done|]. exists c. split; [by left|done].
  - apply IH in H as (-> & x & Hx & Hc). split; [done|]. exists x. split; [by right|done].
Qed.

(** A converted row is a value that JSON can carry. *)
Lemma convert_row_ok record columns : Forall valid_text record ->
  Forall (fun c => fieldName (cl_output_name c) = true) columns ->
  forall row out, convert_row p record columns row = Ok out ->
  value_ok (VObject row) = true -> forallb (fun kv => fits decode_any 2 kv.2) row = true ->
  value_ok (VObject out) = true /\ forallb (fun kv => fits decode_any 2 kv.2) out = true.
Proof.
  intros Hr. induction 1 as [|c columns Hc _ IH]; intros row out H Hok Hfit; [by injection H as <-|].
  simpl in H. apply res_bind_Ok in H as (v & Hv & H).
  assert (Hval : utf8_valid (default "" (record !! Z.to_nat (cl_input_index c))) = true).
  { destruct (record !! _) eqn:E; [|done]. by eapply (Forall_lookup_1 valid_text) in E. }
  pose proof (scalar_ok _ _ _ _ Hval Hv) as Hv1. pose proof (scalar_fits _ _ _ _ decode_any 2 eq_refl Hv) as Hv2.
  apply IH in H; [done|..].
  - simpl in Hok |- *. apply andb_true_iff in Hok as [Hs Hok]. rewrite put_field_sorted //.
    apply put_field_forallb; [|done]. simpl. by rewrite fieldName_valid // Hv1.
  - by apply put_field_forallb.
Qed.
End rows.

(** ** The output *)

Definition object (row : list (string * gval)) : gval := VObject row.

(** The output before the closing bracket. *)
Definition partial (rows : list (list (string * gval))) : string :=
  "[" +:+ Join (encode <$> (object <$> rows)) ",".

Lemma Join_snoc l x : Join (l ++ [x]) "," = Join l "," +:+ (if bool_decide (l = []) then "" else ",") +:+ x.
Proof.
  induction l as [|a l IH]; [done|]. destruct l as [|b l].
  - simpl app. rewrite Join_cons2. done.
  - simpl app in *. rewrite !Join_cons2 IH -!append_assoc. done.
Qed.

Lemma partial_snoc rows row : partial (rows ++ [row])
  = partial rows +:+ (if Z.ltb 1 (list_len rows + 1) then "," else "") +:+ encode (object row).
Proof.
  unfold partial. rewrite !fmap_app /= Join_snoc -!append_assoc. repeat f_equal.
  unfold list_len. destruct rows as [|r rows]; [done|]. rewrite bool_decide_eq_false_2 //.
  destruct (Z.ltb_spec 1 (Z.of_nat (length (r :: rows)) + 1)) as [|E]; [done|]. rewrite length_cons in E. lia.
Qed.

Lemma partial_snoc_len rows row : go_len (partial (rows ++ [row]))
  = go_len (partial rows) + go_len (encode (VObject row)) + (if Z.ltb 1 (list_len rows + 1) then 1 else 0).
Proof.
  rewrite partial_snoc (go_len_append (partial rows)) (go_len_append _ (encode (object row))). unfold object.
  destruct (Z.ltb 1 _); [change (go_len ",") with 1|change (go_len "") with 0]; lia.
Qed.

Lemma partial_end rows : partial rows +:+ "]" = encode (VArray (object <$> rows)).
Proof. unfold partial. cbn [encode]. unfold json_list. by rewrite -append_assoc. Qed.

Lemma partial_app rows rows' : go_len (partial rows) <= go_len (partial (rows ++ rows')).
Proof.
  revert rows. induction rows' as [|r rows' IH]; intros rows; [rewrite app_nil_r; lia|].
  specialize (IH (rows ++ [r])). rewrite -(assoc_L (++)) /= in IH. etrans; [|exact IH].
  rewrite partial_snoc go_len_append. rewrite -{1}(Z.add_0_r (go_len (partial rows)));
  apply Z.add_le_mono_l, go_len_nonneg.
Qed.

(** ** Conversions *)

(** The records of a text, to its end. *)
Inductive read_all (comma : ascii) (width : nat) : bytes -> list (list string) -> Prop :=
| read_end s : Read comma width s = ReadEOF -> read_all comma width s []
| read_more s record rest records : Read comma width s = ReadRecord record rest ->
    read_all comma width rest records -> read_all comma width s (record :: records).

Section conversion.
Context (p : Program) (l : Limits) (now : ctx).
Abbreviation comma := (comma_of (pr_delimiter p)).
Abbreviation width := (length (pr_input_columns p)).

(** From the rows so far: what the loop returns, and when. *)
Definition loop_returns (k : nat) (text : bytes) (rows : list (list (string * gval))) (out : string) : Prop :=
  exists records more, read_all comma width text records
    /\ Forall2 (fun r o => row_of p r = Ok o) records more
    /\ (forall j, (j <= length records)%nat -> now (k + j)%nat = None)
    /\ (records = [] \/ list_len rows + list_len records <= lm_rows l)
    /\ Forall (fun r => field_over (lm_field_bytes l) r = false) records
    /\ rows ++ more <> [] /\ out = encode (VArray (object <$> (rows ++ more)))
    /\ (records = [] \/ go_len out <= lm_output_bytes l).

Lemma returns_end k text rows out : now k = None -> Read comma width text = ReadEOF ->
  loop_returns k text rows out <-> rows <> [] /\ out = partial rows +:+ "]".
Proof.
  intros Ek Er. rewrite partial_end. split.
  - intros (records & more & Hr & H2 & _ & _ & _ & Hne & -> & _).
    inversion Hr as [? E|? ? ? ? E]; subst; rewrite E in Er; [|done].
    inversion H2; subst. by rewrite app_nil_r in Hne |- *.
  - intros [Hne ->]. exists [], []. rewrite app_nil_r.
    split; [by apply read_end|]. split; [constructor|]. split.
    { intros j Hj. by replace (k + j)%nat with k by (simpl in Hj; lia). }
    split; [by left|]. split; [constructor|]. split; [done|]. split; [done|by left].
Qed.

Lemma returns_first k text rows out record rest row : now k = None ->
  Read comma width text = ReadRecord record rest -> row_of p record = Ok row ->
  list_len rows + 1 <= lm_rows l -> field_over (lm_field_bytes l) record = false ->
  go_len (partial (rows ++ [row])) + 1 <= lm_output_bytes l ->
  loop_returns (S k) rest (rows ++ [row]) out -> loop_returns k text rows out.
Proof.
  intros Ek Er Hrow Hrows Hfo Hbytes (records & more & H1 & H2 & H3 & H4 & H5 & H6 & -> & H8).
  rewrite -(assoc_L (++)) in H6 H8 |- *. cbn [app] in *. exists (record :: records), (row :: more).
  split; [eapply read_more; [exact Er|exact H1]|]. split; [by constructor|]. split.
  { intros [|j] Hj; [by rewrite Nat.add_0_r|]. rewrite Nat.add_succ_r. apply H3. simpl in Hj. lia. }
  split.
  { right. unfold list_len in *. simpl. rewrite length_app /= in H4. destruct H4 as [->|H4]; simpl; lia. }
  split; [by constructor|]. split; [done|]. split; [done|]. right.
  destruct H8 as [->|H8]; [|done]. inversion H2; subst. by rewrite -partial_end (go_len_append _ "]").
Qed.

Lemma returns_next k text rows out record rest : Read comma width text = ReadRecord record rest ->
  loop_returns k text rows out ->
  list_len rows + 1 <= lm_rows l /\ field_over (lm_field_bytes l) record = false
  /\ exists row, row_of p record = Ok row /\ go_len (partial (rows ++ [row])) + 1 <= lm_output_bytes l
     /\ loop_returns (S k) rest (rows ++ [row]) out.
Proof.
  intros Er (records & more & H1 & H2 & H3 & H4 & H5 & H6 & -> & H8).
  inversion H1 as [? E|? ? ? recs E H1']; subst; rewrite E in Er; [done|]. simplify_eq.
  inversion H2 as [|? row ? more' Hrow H2']; subst. inversion H5 as [|? ? Hfo H5']; subst.
  destruct H4 as [?|H4]; [done|]. destruct H8 as [?|H8]; [done|]. unfold list_len in H4. simpl in H4.
  split; [unfold list_len; lia|]. split; [done|]. exists row. split; [done|].
  pose proof (partial_app (rows ++ [row]) more') as Hle. rewrite -(assoc_L (++)) in Hle. cbn [app] in Hle.
  rewrite -partial_end go_len_append in H8. change (go_len "]") with 1 in H8. split; [lia|].
  exists recs, more'. rewrite -(assoc_L (++)). cbn [app]. split; [done|]. split; [done|]. split.
  { intros j Hj. replace (S k + j)%nat with (k + S j)%nat by lia. apply H3. simpl. lia. }
  split; [right; unfold list_len in *; rewrite length_app /=; lia|].
  split; [done|]. split; [done|]. split; [done|]. right.
  rewrite -partial_end go_len_append. change (go_len "]") with 1. lia.
Qed.

Lemma convert_rows_Ok fuel : forall k text rows out, (length text < fuel)%nat ->
  convert_rows p l now fuel k text (list_len rows) (partial rows) = Ok out <-> loop_returns k text rows out.
Proof.
  induction fuel as [|fuel IH]; intros k text rows out Hf; [lia|]. cbn [convert_rows].
  destruct (now k) as [e|] eqn:Ek.
  { split; [done|]. intros (records & more & _ & _ & Hn & _). specialize (Hn 0%nat ltac:(lia)).
    rewrite Nat.add_0_r in Hn. congruence. }
  destruct (Read comma width text) as [| |record rest] eqn:Er.
  - rewrite returns_end // fail_if_Ok Z.eqb_neq. unfold list_len. split.
    + intros [Hz [= <-]]. split; [by intros ->|done].
    + intros [Hz ->]. split; [destruct rows; [done|simpl; lia]|done].
  - split; [done|]. intros (records & more & Hr & _).
    inversion Hr as [? E|? ? ? ? E]; subst; by rewrite E in Er.
  - pose proof (Read_shorter _ _ _ _ _ Er) as [Hlt _].
    assert (Hsucc : forall row, list_len rows + 1 = list_len (rows ++ [row])) by
      (intros row; unfold list_len; rewrite length_app /=; lia).
    rewrite !fail_if_Ok res_bind_Ok. fold (row_of p record). setoid_rewrite fail_if_Ok. split.
    + intros (Hrows & Hfields & row & Hrow & Hbytes & H). apply Z.ltb_ge in Hrows, Hbytes.
      rewrite (Hsucc row) -(Hsucc row) -partial_snoc (Hsucc row) in H. apply IH in H; [|lia].
      apply (returns_first k text rows out record rest row); try done. rewrite partial_snoc_len. lia.
    + intros (Hrows & Hfields & row & Hrow & Hbytes & H)%(returns_next _ _ _ _ _ _ Er).
      rewrite partial_snoc_len in Hbytes. split; [apply Z.ltb_ge; lia|]. split; [done|].
      exists row. split; [done|]. split; [apply Z.ltb_ge; lia|].
      rewrite (Hsucc row) -(Hsucc row) -partial_snoc (Hsucc row). apply IH; [lia|done].
Qed.

(** What a successful conversion has read: the records after the header. *)
Definition read_input (raw : bytes) (records : list (list string)) : Prop :=
  if pr_header p
  then exists text, Read comma width raw = ReadRecord (pr_input_columns p) text
         /\ field_over (lm_field_bytes l) (pr_input_columns p) = false /\ read_all comma width text records
  else read_all comma width raw records.

Lemma read_all_valid s records : is_ascii comma = true -> read_all comma width s records -> valid s ->
  Forall (Forall valid_text) records.
Proof.
  intros Hc. induction 1 as [|s record rest records Hr _ IH]; intros Hs; [constructor|].
  apply Read_valid in Hr as [Hf Hrest]; [|done..]. constructor; [done|by apply IH].
Qed.

(** The rows of a UTF-8 text are printed as they are. *)
Lemma rows_decode s records rows : validateProgram p = Ok tt -> read_all comma width s records -> valid s ->
  Forall2 (fun r o => row_of p r = Ok o) records rows ->
  decode decode_any (encode (VArray (object <$> rows))) = Some (VArray (object <$> rows)).
Proof.
  intros (Hd & _ & _ & _ & _ & Hcols & _)%validateProgram_Ok Hr Hs H.
  apply validDelimiter_comma in Hd as (_ & Hc & _). apply read_all_valid in Hr; [|done..].
  assert (Hok : Forall (fun row => value_ok (VObject row) = true
    /\ forallb (fun kv => fits decode_any 2 kv.2) row = true) rows).
  { clear Hs. induction H as [|record row records rows Hrow _ IH]; [constructor|].
    apply Forall_cons in Hr as [Hrec Hr]. constructor; [|by apply IH].
    eapply convert_row_ok; [exact Hrec| |exact Hrow|done|done].
    eapply Forall_impl; [exact Hcols|]. by intros c (_ & ? & _). }
  rewrite Forall_forall in Hok. apply decode_encode.
  - simpl. apply forallb_forall. intros v (row & -> & Hin)%list_elem_of_In%list_elem_of_fmap.
    by destruct (Hok row Hin).
  - simpl. apply forallb_forall. intros v (row & -> & Hin)%list_elem_of_In%list_elem_of_fmap.
    by destruct (Hok row Hin).
Qed.

Lemma read_input_tail raw records : validateProgram p = Ok tt -> read_input raw records -> valid raw ->
  exists text, read_all comma width text records /\ valid text.
Proof.
  intros (Hd & _)%validateProgram_Ok. apply validDelimiter_comma in Hd as (_ & Hc & _).
  unfold read_input. destruct (pr_header p); [|by exists raw].
  intros (text & Hr & _ & H) Hv. exists text. split; [done|]. by apply Read_valid in Hr as [_ ?].
Qed.

(** The loop from the start. *)
Lemma convert_rows_start fuel text out : (length text < fuel)%nat ->
  convert_rows p l now fuel 1 text 0 "[" = Ok out <->
  exists records rows, read_all comma width text records /\ records <> []
    /\ Forall2 (fun r o => row_of p r = Ok o) records rows
    /\ (forall k, (k <= length records)%nat -> now (S k) = None)
    /\ list_len records <= lm_rows l
    /\ Forall (fun r => field_over (lm_field_bytes l) r = false) records
    /\ out = encode (VArray (object <$> rows)) /\ go_len out <= lm_output_bytes l.
Proof.
  intros Hf. change 0 with (list_len (@nil (list (string * gval)))).
  change "[" with (partial []). rewrite convert_rows_Ok //. unfold loop_returns.
  split; intros (records & rows & H); exists records, rows.
  - destruct H as (H1 & H2 & H3 & H4 & H5 & H6 & H7 & H8).
    assert (records <> []) by (intros ->; by inversion H2; subst). split_and?; try done.
    + by destruct H4.
    + by destruct H8.
  - destruct H as (H1 & Hne & H2 & H3 & H4 & H5 & H7 & H8).
    assert (rows <> []) by (intros ->; by inversion H2; subst). split_and?; try done; by right.
Qed.

(** What is read and made when a conversion returns [out]. *)
Definition conversion (raw : bytes) (out : string) : Prop :=
  validateProgram p = Ok tt /\ Limits_Validate l = Ok tt /\ blen raw <= lm_input_bytes l
  /\ utf8_valid (str raw) = true /\ ("000"%char ∉ raw)
  /\ exists records rows, read_input raw records /\ records <> []
     /\ Forall2 (fun r o => row_of p r = Ok o) records rows
     /\ (forall k, (k <= S (length records))%nat -> now k = None)
     /\ list_len records <= lm_rows l
     /\ Forall (fun r => field_over (lm_field_bytes l) r = false) records
     /\ out = encode (VArray (object <$> rows)) /\ go_len out <= lm_output_bytes l
     /\ decode decode_any out = Some (VArray (object <$> rows)).

Lemma Convert_reads raw out : Convert p l now raw = Ok out -> conversion raw out.
Proof.
  unfold Convert, conversion. rewrite fail_if_Ok.
  intros [Hg H]. apply orb_false_iff in Hg as [H1%negb_false_iff H2%negb_false_iff].
  assert (Hp : validateProgram p = Ok tt) by (destruct (validateProgram p) as [[]|]; done).
  assert (Hl : Limits_Validate l = Ok tt) by (destruct (Limits_Validate l) as [[]|]; done).
  destruct (now O) eqn:E0; [done|]. rewrite !fail_if_Ok in H. destruct H as (Hi & Hu & H).
  apply Z.ltb_ge in Hi. apply orb_false_iff in Hu as [Hu%negb_false_iff Hnul%bool_decide_eq_false].
  split_and?; try done. apply res_bind_Ok in H as (text & Ht & H).
  assert (Hin : (length text <= length raw)%nat /\
    (forall records, read_all comma width text records -> read_input raw records)).
  { unfold read_input. destruct (pr_header p); [|by injection Ht as ->].
    destruct (Read comma width raw) as [| |header rest] eqn:Er; try done. go_ok Ht. unbool.
    injection Ht as <-. subst header. apply Read_shorter in Er as Hs. split; [lia|]. intros records Hr.
    by exists rest. }
  destruct Hin as [Hlen Hin]. apply convert_rows_start in H; [|lia].
  destruct H as (records & rows & Hr & Hne & H2' & Hnow & Hrest). exists records, rows.
  pose proof (Hin records Hr) as Hread. destruct Hrest as (Hn & Hf & -> & Ho).
  split_and?; try done.
  + intros [|k] Hk; [done|]. apply Hnow. lia.
  + destruct (read_input_tail raw records Hp Hread Hu) as (t & Ht' & Hv).
    exact (rows_decode t records rows Hp Ht' Hv H2').
Qed.

Lemma Convert_returns raw out : conversion raw out -> Convert p l now raw = Ok out.
Proof.
  unfold Convert, conversion.
  intros (Hp & Hl & Hi & Hu & Hnul & records & rows & Hread & Hne & H2 & Hnow & Hn & Hf & -> & Ho & _).
  rewrite Hp Hl (Hnow O); [lia|]. simpl orb. cbn [fail_if]. rewrite !fail_if_Ok Hu bool_decide_eq_false_2 //.
  split; [by apply Z.ltb_ge|]. split; [done|]. apply res_bind_Ok. unfold read_input in Hread.
  destruct (pr_header p).
  + destruct Hread as (text & Hr & Hfo & Hall). exists text. rewrite Hr bool_decide_eq_true_2 // Hfo.
    split; [done|]. apply Read_shorter in Hr as [Hlt _]. apply convert_rows_start; [lia|].
    exists records, rows. split_and?; try done. intros k Hk. apply Hnow. lia.
  + exists raw. split; [done|]. apply convert_rows_start; [lia|].
    exists records, rows. split_and?; try done. intros k Hk. apply Hnow. lia.
Qed.

(** C23: a conversion returns a text exactly when the program and the limits are
    valid, the input is UTF-8 without NUL within its limit, it consists of the
    header the program names (if any) and of records that each convert, none of
    the limits on rows, fields and output is passed and the context stays live;
    the text is then the JSON array of the converted rows, in their order, and
    decodes to them. *)
Theorem Convert_spec raw out :
  Convert p l now raw = Ok out <->
  validateProgram p = Ok tt /\ Limits_Validate l = Ok tt /\ blen raw <= lm_input_bytes l
  /\ utf8_valid (str raw) = true /\ ("000"%char ∉ raw)
  /\ exists records rows, read_input raw records /\ records <> []
     /\ Forall2 (fun r o => row_of p r = Ok o) records rows
     /\ (forall k, (k <= S (length records))%nat -> now k = None)
     /\ list_len records <= lm_rows l
     /\ Forall (fun r => field_over (lm_field_bytes l) r = false) records
     /\ out = encode (VArray (object <$> rows)) /\ go_len out <= lm_output_bytes l
     /\ decode decode_any out = Some (VArray (object <$> rows)).
Proof. split; [apply Convert_reads|apply Convert_returns]. Qed.
End conversion.

(** ** Errors *)

Definition fixed_errors : list error := [ErrPackage; ErrInput; ErrLimit].

Lemma convert_rows_Err p l now fuel : forall k text rows output e, (length text < fuel)%nat ->
  convert_rows p l now fuel k text rows output = Err e -> e ∈ fixed_errors \/ exists j, now j = Some e.
Proof.
  induction fuel as [|fuel IH]; intros k text rows output e Hf H; [lia|]. cbn [convert_rows] in H.
  destruct (now k) eqn:Ek; [right; exists k; congruence|].
  destruct (Read _ _ text) as [| |record rest] eqn:Er; unfold fail_if in H.
  - destruct (Z.eqb rows 0); [|done]. injection H as <-. left. set_solver.
  - injection H as <-. left. set_solver.
  - apply Read_shorter in Er as [Hlt _].
    destruct (Z.ltb _ _); [injection H as <-; left; set_solver|].
    destruct (field_over _ _); [injection H as <-; left; set_solver|].
    apply res_bind_Err in H as [H|(row & _ & H)].
    + apply convert_row_Err in H as [-> _]. left. set_solver.
    + destruct (Z.ltb _ _); [injection H as <-; left; set_solver|]. apply IH in H; [done|lia].
Qed.

(** A conversion ends, and a failed one returns one of three fixed errors or
    the error of its context: nothing of the input, of a partly converted row or
    of the reader's diagnostics is in it. *)
Theorem Convert_errors p l now raw e : Convert p l now raw = Err e ->
  e ∈ fixed_errors \/ exists j, now j = Some e.
Proof.
  unfold Convert, fail_if. intros H. destruct (_ || _); [injection H as <-; left; set_solver|].
  destruct (now O) eqn:E0; [right; exists O; congruence|].
  destruct (Z.ltb _ _); [injection H as <-; left; set_solver|].
  destruct (_ || _); [injection H as <-; left; set_solver|].
  apply res_bind_Err in H as [H|(text & Ht & H)].
  - destruct (pr_header p); [|done]. destruct (Read _ _ raw); repeat case_match; simplify_eq; left; set_solver.
  - apply convert_rows_Err in H; [done|]. destruct (pr_header p); [|injection Ht as <-; lia].
    destruct (Read _ _ raw) as [| |header rest] eqn:Er; try done. apply Read_shorter in Er as [Hlt _].
    repeat case_match; simplify_eq. lia.
Qed.

Module ErrorsDemo.
Definition code : Program :=
  mkProgram IRFormat "delimited_to_objects" ";" false true ["count"; "enabled"]
    [mkColumn 1 "enabled" "boolean"; mkColumn 0 "count" "integer"].
Definition quiet : ctx := fun _ => None.
Definition two_rows : bytes := lit ("1; true" +:+ String LF "2;false").

Example two_rows_converted : Convert code (mkLimits 64 64 2 8 1) quiet two_rows
  = Ok (encode (VArray (object <$> [[("count", VNumber "1"); ("enabled", VBool true)];
                                    [("count", VNumber "2"); ("enabled", VBool false)]]))).
Proof. vm_compute. reflexivity. Qed.

Lemma Convert_errors_witness :
  Convert code (mkLimits 64 64 1 8 1) quiet two_rows = Err ErrLimit
  /\ (ErrLimit ∈ fixed_errors \/ exists j, quiet j = Some ErrLimit).
Proof.
  split; [vm_compute; reflexivity|].
  apply (Convert_errors code (mkLimits 64 64 1 8 1) quiet two_rows). vm_compute. reflexivity.
Defined.
End ErrorsDemo.
