(* ===== verification/ConverterCheck.v ===== *)
(** * ConverterCheck: what the acceptance suite guarantees

    A package that passes [Check] of [Converter] computes what the need asks
    for, on every input ([accepted_program_meets_need]), but for three things
    the suite does not look at ([Exceptions]). *)
From Stdlib Require Import Ascii.
From stdpp Require Import pretty.
From S2P Require Import Prelude GoStrings GoBytes GoJson GoHash GoValue GoCsv Budget Canonical ApprovalGate Converter ConverterText ConverterProofs.
Open Scope Z_scope.
Open Scope go_scope.

(** ** Valid needs *)

Definition field_ok (width : Z) (f : OutputField) : Prop :=
  0 <= of_source_index f < width /\ fieldName (of_name f) = true /\ validType (of_type f) = true.

Definition one_typed (fields : list OutputField) : Prop :=
  forall f g, f ∈ fields -> g ∈ fields -> of_source_index f = of_source_index g -> of_type f = of_type g.

Lemma typed_cons i t types j :
  typed ((i, t) :: types) j = if Z.eqb i j then Some t else typed types j.
Proof. unfold typed. simpl. by destruct (Z.eqb i j). Qed.

Lemma valid_fields_Ok width fields : forall seen types, valid_fields width seen types fields = Ok tt ->
  Forall (field_ok width) fields /\ NoDup (of_name <$> fields) /\ (forall f, f ∈ fields -> of_name f ∉ seen)
  /\ one_typed fields
  /\ forall f, f ∈ fields -> typed types (of_source_index f) = None
       \/ typed types (of_source_index f) = Some (of_type f).
Proof.
  induction fields as [|c fields IH]; intros seen types H.
  { split_and!; [constructor|constructor|set_solver|unfold one_typed; set_solver|set_solver]. }
  simpl in H. go_ok H. apply IH in H as (H1 & H2 & H3 & H4 & H5). unbool.
  assert (Hc : typed types (of_source_index c) = None \/ typed types (of_source_index c) = Some (of_type c)).
  { unfold retyped in Hg0. destruct (typed _ _); [right|by left]. unbool. congruence. }
  assert (Hcg : forall g, g ∈ fields -> of_source_index c = of_source_index g -> of_type c = of_type g).
  { intros g Hin E. destruct (H5 g Hin) as [Hn|Hn]; rewrite typed_cons E Z.eqb_refl in Hn; congruence. }
  split_and!.
  - constructor; [|done]. split_and!; try done; lia.
  - simpl. constructor; [|done]. intros (x & E & Hx)%list_elem_of_fmap. apply H3 in Hx. set_solver.
  - intros x [->|Hx]%elem_of_cons; [done|]. apply H3 in Hx. set_solver.
  - intros f g [->|Hf]%elem_of_cons [->|Hx]%elem_of_cons E; [done|by apply Hcg| |by apply H4].
    symmetry. by apply Hcg.
  - intros g [->|Hin]%elem_of_cons; [done|]. specialize (H5 g Hin). rewrite typed_cons in H5.
    destruct (Z.eqb_spec (of_source_index c) (of_source_index g)) as [E|]; [|done].
    rewrite -E -(Hcg g Hin E) //.
Qed.

Record need_ok (n : Need) : Prop := {
  need_delimiter : validDelimiter (is_delimiter (nd_input n)) = true;
  need_columns : is_columns (nd_input n) <> [];
  need_names : Forall (fun c => fieldName c = true) (is_columns (nd_input n));
  need_fields : os_fields (nd_output n) <> [];
  need_field : forall f, f ∈ os_fields (nd_output n) -> field_ok (list_len (is_columns (nd_input n))) f;
  need_distinct : NoDup (of_name <$> os_fields (nd_output n));
  need_typed : one_typed (os_fields (nd_output n));
}.

Lemma Need_Validate_ok n : Need_Validate n = Ok tt -> need_ok n.
Proof.
  unfold Need_Validate. intros H. go_ok H. unbool.
  destruct (validateSchemas (nd_input n) (nd_output n)) as [[]|] eqn:E; [|done].
  unfold validateSchemas in E. go_ok E. destruct a. apply valid_columns_Ok in Hg2 as (H1' & _ & _).
  apply valid_fields_Ok in E as (F1 & F2 & _ & F4 & _). unfold outside, list_len in Hg. unbool.
  split; try done.
  - intros E. repeat match goal with X : context[length _] |- _ => rewrite E /= in X end. lia.
  - intros E. repeat match goal with X : context[length _] |- _ => rewrite E /= in X end. lia.
  - by apply Forall_forall.
Qed.

(** ** Simple texts *)

(** The bytes of field names and of printed values: none of them is a
    delimiter, a quote, white space or a line end. *)
Definition simple_char (c : ascii) : bool := name_char c || is_char c "-" || is_char c ".".
Definition simple (s : string) : Prop := s <> "" /\ all_chars simple_char s = true.

Lemma all_chars_lit (p : ascii -> bool) s c : all_chars p s = true -> c ∈ lit s -> p c = true.
Proof.
  induction s as [|d s IH]; simpl; [set_solver|]. intros [H1 H2]%andb_true_iff [->|Hc]%elem_of_cons; [done|].
  by apply IH.
Qed.

Lemma simple_char_plain c : simple_char c = true -> visible c = true
  /\ c <> QUOTE /\ c <> LF /\ c <> CR /\ c <> "\"%char
  /\ forall d, validDelimiter d = true -> c <> comma_of d.
Proof.
  intros H. assert (Hd : forall d, validDelimiter d = true -> comma_of d ∈ [","; "009"; ";"; "|"]%char).
  { intros d. unfold validDelimiter. rewrite !orb_true_iff !bool_decide_eq_true.
    intros [[[->| ->]| ->]| ->]; set_solver. }
  split_and!; try (by intros ->); [by destruct c as [[] [] [] [] [] [] [] []]|].
  intros d Hv ->. apply Hd in Hv. rewrite !elem_of_cons in Hv.
  destruct Hv as [E|[E|[E|[E|[]%not_elem_of_nil]]]]; by rewrite E in H.
Qed.

Lemma simple_lit s c : simple s -> c ∈ lit s -> simple_char c = true.
Proof. intros [_ H]. by apply all_chars_lit. Qed.

Lemma simple_plain s d : simple s -> validDelimiter d = true ->
  plain_field (comma_of d) (lit s) /\ (CR ∉ lit s) /\ lit s <> [].
Proof.
  intros Hs Hd. split_and!; [|intros Hin..|].
  - repeat split; intros Hin; apply (simple_lit _ _ Hs), simple_char_plain in Hin as (_ & ? & ? & ? & _ & H);
      try done. by apply (H d).
  - by apply (simple_lit _ _ Hs), simple_char_plain in Hin as (_ & ? & ? & ? & _).
  - destruct Hs as [Hs _]. by destruct s.
Qed.

Lemma trimmed_visible s : all_chars visible s = true -> trimmed space2 space3 s = true.
Proof.
  destruct s as [|c s]; [done|]. intros [H _]%andb_true_iff.
  rewrite -(visible_trimmed space2 space3 c s) //; [| |apply trim_with_trimmed].
  - intros b. by apply visible_space2.
  - intros b d. by apply visible_space3.
Qed.

Lemma all_chars_rev (p : ascii -> bool) s : all_chars p (String.rev s) = all_chars p s.
Proof.
  induction s as [|c s IH]; [done|]. rewrite rev_cons all_chars_app IH /= andb_true_r. apply andb_comm.
Qed.

Lemma TrimSpace_all_visible s : all_chars visible s = true -> TrimSpace s = s.
Proof.
  intros H. unfold TrimSpace. assert (GoStrings.trim_left s = s) as ->.
  { apply trim_with_trimmed_id. by apply trimmed_visible. }
  assert (trim_right_rev (String.rev s) = String.rev s) as ->; [|apply rev_involutive].
  rewrite -all_chars_rev in H. unfold trim_right_rev. destruct (String.rev s) as [|c t]; [done|].
  apply andb_true_iff in H as [H _]. apply visible_trimmed; [| |done].
  - intros b. by apply visible_space2_r.
  - intros b d. by apply visible_space3_r.
Qed.

Lemma simple_visible s : simple s -> all_chars visible s = true.
Proof. intros [_ H]. revert H. apply all_chars_weaken. intros c Hc. by apply simple_char_plain in Hc as [? _]. Qed.

Lemma simple_TrimSpace s : simple s -> TrimSpace s = s.
Proof. intros H. by apply TrimSpace_all_visible, simple_visible. Qed.

Lemma simple_unquoted s d : simple s -> validDelimiter d = true -> fieldNeedsQuotes (comma_of d) s = false.
Proof.
  intros Hs Hd. unfold fieldNeedsQuotes. destruct Hs as [Hne Hs]. rewrite bool_decide_eq_false_2 //.
  rewrite bool_decide_eq_false_2; [by intros ->|]. unfold starts_with_space.
  rewrite trimmed_visible; [by apply simple_visible|]. rewrite orb_false_r.
  apply not_true_is_false. intros (c & Hin & Hc)%existsb_exists. apply list_elem_of_In in Hin.
  apply (all_chars_lit _ _ _ Hs), simple_char_plain in Hin as (_ & H1 & H2 & H3 & _ & H4).
  specialize (H4 d Hd). unfold special in Hc. rewrite !bool_decide_eq_false_2 // in Hc.
Qed.

Lemma simple_written s d : simple s -> validDelimiter d = true -> write_field (comma_of d) s = lit s.
Proof. intros Hs Hd. unfold write_field. by rewrite simple_unquoted. Qed.

Lemma simple_ascii s : simple s -> utf8_valid s = true.
Proof.
  intros [_ H]. apply ascii_valid. revert H. apply all_chars_weaken. intros c.
  by destruct c as [[] [] [] [] [] [] [] []].
Qed.

(** ** Lines of simple texts *)

(** The fields of a line with the delimiter between them. *)
Fixpoint joined (comma : ascii) (row : list string) : bytes :=
  match row with
  | [] => []
  | [f] => lit f
  | f :: rest => lit f ++ comma :: joined comma rest
  end.

Section lines.
Context (d : string) (Hd : validDelimiter d = true).
Abbreviation comma := (comma_of d).

Lemma WriteRecord_simple row : Forall simple row -> WriteRecord comma row = joined comma row ++ [LF].
Proof.
  induction 1 as [|f row Hf Hr IH]; [done|]. simpl. rewrite simple_written //.
  destruct row as [|g row]; [done|]. by rewrite IH -(assoc_L (++)).
Qed.

Lemma joined_chars row c : Forall simple row -> c ∈ joined comma row -> simple_char c = true \/ c = comma.
Proof.
  induction 1 as [|f row Hf Hr IH]; simpl; [set_solver|]. destruct row as [|g row].
  - intros H. left. exact (simple_lit f c Hf H).
  - rewrite elem_of_app elem_of_cons. intros [H|[->|H]]; [left; exact (simple_lit f c Hf H)|by right|by apply IH].
Qed.

Lemma joined_nonempty row : Forall simple row -> row <> [] -> joined comma row <> [].
Proof.
  destruct 1 as [|f row Hf Hr]; [done|]. intros _. simpl. destruct (simple_plain f d Hf Hd) as (_ & _ & H).
  destruct row; [done|]. by intros [? _]%app_nil.
Qed.

Lemma joined_comma row : Forall simple row -> (2 <= length row)%nat -> comma ∈ joined comma row.
Proof. destruct 1 as [|f [|g row]]; simpl; try lia. intros _. set_solver. Qed.

Lemma simple_no_CR row : Forall simple row -> no_CR row.
Proof. intros H. eapply Forall_impl; [exact H|]. intros s Hs. by destruct (simple_plain s d Hs Hd) as (_ & ? & _). Qed.

Lemma simple_not_blank row : Forall simple row -> row <> [""].
Proof. intros H ->. by apply Forall_cons in H as [[? _] _]. Qed.
End lines.

(** What a reader with the delimiter [e] sees of a line written with [d]. *)
Definition seen_as (d e : string) (row : list string) : list string :=
  if bool_decide (d = e) then row else [str (joined (comma_of d) row)].

Lemma comma_of_inj d e : validDelimiter d = true -> validDelimiter e = true ->
  comma_of d = comma_of e -> d = e.
Proof.
  intros [Hd _]%validDelimiter_comma [He _]%validDelimiter_comma E. by rewrite Hd He E.
Qed.

Lemma Read_simple d e k row rest : validDelimiter d = true -> validDelimiter e = true ->
  Forall simple row -> row <> [] -> CR ∉ rest ->
  Read (comma_of e) k (WriteRecord (comma_of d) row ++ rest)
  = if Nat.eqb (length (seen_as d e row)) k then ReadRecord (seen_as d e row) rest else ReadError.
Proof.
  intros Hd He Hs Hne Hr. unfold seen_as. case_bool_decide as E.
  - subst e. apply validDelimiter_comma in Hd as Hc. apply Read_WriteRecord; try done; [by apply Hc| |].
    + by apply simple_not_blank.
    + exact (simple_no_CR d Hd row Hs).
  - rewrite WriteRecord_simple // -(assoc_L (++)). simpl app.
    apply validDelimiter_comma in He as Hc. apply Read_line; try done; [by apply Hc|by apply joined_nonempty| |].
    + pose proof (validDelimiter_comma d Hd) as (_ & _ & D1 & D2 & D3).
      repeat split; (intros Hin; eapply joined_chars in Hin as [Hin|Hin]; [| |first [exact Hd|exact Hs]..]);
        try (apply simple_char_plain in Hin as (_ & H1 & H2 & H3 & _ & H4)); try congruence.
      * by apply (H4 e).
      * by apply E, comma_of_inj.
    + pose proof (validDelimiter_comma d Hd) as (_ & _ & D1 & D2 & D3).
      intros Hin. eapply joined_chars in Hin as [Hin|Hin]; [|congruence|first [exact Hd|exact Hs]..].
      by apply simple_char_plain in Hin as (_ & H1 & H2 & H3 & _ & H4).
Qed.

Lemma read_if (b : bool) r t r' t' :
  (if b then ReadRecord r t else ReadError) = ReadRecord r' t' -> b = true /\ r' = r /\ t' = t.
Proof. destruct b; [|done]. by intros [= <- <-]. Qed.

Lemma read_if_more (b : bool) r t : (if b then ReadRecord r t else ReadError) <> ReadEOF.
Proof. by destruct b. Qed.

Lemma seen_as_same d e row : d = e \/ length row = 1%nat -> seen_as d e row = row.
Proof.
  unfold seen_as. case_bool_decide; [done|]. intros [?|H1]; [done|].
  destruct row as [|f [|g row]]; try done. simpl. by rewrite str_lit.
Qed.

(** Read as one field, a line of two fields or more has the delimiter in it. *)
Lemma seen_as_one d e row : validDelimiter d = true -> Forall simple row -> (2 <= length row)%nat -> d <> e ->
  exists s, seen_as d e row = [s] /\ comma_of d ∈ lit s.
Proof.
  intros Hd Hs Hl Hne. unfold seen_as. rewrite bool_decide_eq_false_2 //. eexists. split; [done|].
  rewrite lit_str. by apply joined_comma.
Qed.

(** ** The rows of the fixtures *)

Lemma pretty_simple (z : Z) : simple (pretty z).
Proof.
  split.
  - destruct (pretty_Z_parts z) as [[_ ->]|(u & _ & Hu & [(_ & -> & _)|(_ & -> & _)])]; [done|by destruct u|done].
  - eapply all_chars_weaken; [|apply pretty_Z_chars]. intros c. by destruct c as [[] [] [] [] [] [] [] []].
Qed.

Lemma text_simple (z : Z) : simple ("text_" +:+ pretty z).
Proof. split; [done|]. rewrite all_chars_app. by apply andb_true_iff; split; [|apply pretty_simple]. Qed.

Lemma fraction_simple (z : Z) : simple (pretty z +:+ ".125").
Proof.
  destruct (pretty_simple z) as [H1 H2]. split; [by destruct (pretty z)|]. by rewrite all_chars_app H2.
Qed.

Lemma fraction_number (z : Z) : number_lit (pretty z +:+ ".125") = Some (pretty z +:+ ".125", "").
Proof.
  apply decimalValue_number. unfold decimalValue. destruct (pretty_simple z) as [Hne _].
  pose proof (number_int_pretty z) as (i & H1 & H2). unfold number_sign in *.
  destruct (pretty z) as [|c s]; [done|]. rewrite append_cons.
  destruct (is_char c "-"); cbn -[number_int String.append] in H1 |- *; apply number_int_prefix in H1 as [[E Hx] _];
    rewrite append_nil_r in E; subst i.
  - by rewrite (Hx ".125").
  - by rewrite -append_cons (Hx ".125").
Qed.

Section fill.
Context (i : InputSchema) (focus variant : Z).
Abbreviation cell_of f := (fixture_cell i focus variant (of_source_index f) (of_type f)).

Lemma fixture_cell_Some at_ typ : validType typ = true -> exists text v, fixture_cell i focus variant at_ typ = Some (text, v).
Proof.
  unfold validType. rewrite !orb_true_iff !bool_decide_eq_true. intros [[[->| ->]| ->]| ->]; by eexists _, _.
Qed.

Lemma fixture_fill_spec fields : (forall f, f ∈ fields -> validType (of_type f) = true) -> one_typed fields ->
  forall row values row' values', fixture_fill i focus variant fields row values = (row', values') ->
  (forall f, f ∈ fields -> 0 <= of_source_index f < list_len row) ->
  length row' = length row
  /\ (forall f, f ∈ fields -> exists text v, cell_of f = Some (text, v)
        /\ row' !! Z.to_nat (of_source_index f) = Some text /\ values' !! of_source_index f = Some v)
  /\ (forall j, (forall f, f ∈ fields -> Z.to_nat (of_source_index f) <> j) -> row' !! j = row !! j)
  /\ (forall j, (forall f, f ∈ fields -> of_source_index f <> j) -> values' !! j = values !! j).
Proof.
  intros Ht Ho. induction fields as [|f fields IH]; intros row values row' values' H Hi.
  { injection H as <- <-. split_and!; [done|set_solver|done|done]. }
  simpl in H. destruct (fixture_cell_Some (of_source_index f) (of_type f)) as (text & v & E); [apply Ht; by left|].
  rewrite E in H. apply IH in H as (H1 & H2 & H3 & H4);
    [|set_solver|intros a b Ha Hb; apply Ho; by right|
     unfold list_len; rewrite length_insert; intros g Hg; apply Hi; by right].
  rewrite length_insert in H1. assert (Hf : 0 <= of_source_index f < list_len row) by (apply Hi; by left).
  unfold list_len in Hf. split; [done|]. split.
  { intros g [->|Hg]%elem_of_cons; [|by apply H2].
    destruct (decide (Exists (fun g => of_source_index g = of_source_index f) fields)) as [Hex|Hnex].
    - apply Exists_exists in Hex as (g & Hg & Eg). destruct (H2 g Hg) as (text' & v' & E' & Hr & Hv).
      exists text', v'. rewrite -Eg. split; [|done]. rewrite -E'. f_equal. apply Ho; [by left|by right|done].
    - exists text, v. split; [done|]. rewrite Exists_exists in Hnex. split.
      + rewrite H3; [|apply list_lookup_insert_eq; lia]. intros g Hg Eg.
        assert (0 <= of_source_index g < list_len row) by (apply Hi; by right).
        apply Hnex. exists g. split; [done|lia].
      + rewrite H4; [|apply lookup_insert_eq]. intros g Hg Eg. apply Hnex. by exists g. }
  split.
  - intros j Hj. rewrite H3; [intros g Hg; apply Hj; by right|]. apply list_lookup_insert_ne. apply Hj. by left.
  - intros j Hj. rewrite H4; [intros g Hg; apply Hj; by right|]. apply lookup_insert_ne. apply Hj. by left.
Qed.
End fill.

Lemma expected_row_spec (values : gmap Z gval) fields : forall out, NoDup (of_name <$> fields) ->
  let row := foldl (fun out f => put_field (of_name f) (default VNull (values !! of_source_index f)) out) out fields in
  (forall f, f ∈ fields -> at_key (of_name f) row = Some (default VNull (values !! of_source_index f)))
  /\ (forall k, k ∉ of_name <$> fields -> at_key k row = at_key k out).
Proof.
  induction fields as [|f fields IH]; intros out Hd; simpl; [split; [set_solver|done]|].
  apply NoDup_cons in Hd as [Hf Hd].
  destruct (IH (put_field (of_name f) (default VNull (values !! of_source_index f)) out) Hd) as [H1 H2]. split.
  - intros g [->|Hg]%elem_of_cons; [|by apply H1]. rewrite H2 // at_key_put bool_decide_eq_true_2 //.
  - intros k [Hk Hk']%not_elem_of_cons. rewrite H2 // at_key_put bool_decide_eq_false_2 //.
Qed.

(** The other cells of a row in its first variant. *)
Definition other_cell (j : Z) (s : string) : Prop :=
  s = "text_" +:+ pretty j \/ s = pretty (j + 3) \/ s = pretty (j + 3) +:+ ".125" \/ s = "false".

Lemma fixture_cell_other i focus j typ text v : fixture_cell i focus 0 j typ = Some (text, v) -> j <> focus ->
  other_cell j text.
Proof.
  intros H Hj. unfold fixture_cell in H. rewrite (proj2 (Z.eqb_neq j focus) Hj) in H. unfold other_cell.
  repeat case_bool_decide; simplify_eq; auto.
Qed.

Lemma fixture_cell_simple i focus variant j typ text v : variant <> 1 ->
  fixture_cell i focus variant j typ = Some (text, v) -> simple text \/ variant = 2 /\ text = "  spaced  ".
Proof.
  unfold fixture_cell. rewrite -Z.eqb_neq. intros ->. rewrite andb_false_r.
  repeat case_bool_decide; intros; simplify_eq; 
    [destruct (_ && _) eqn:E; [right; split; [by unbool|done]|]|..]; left.
  - apply text_simple.
  - apply pretty_simple.
  - destruct (Z.eqb _ _); [done|apply fraction_simple].
  - by destruct (Z.eqb _ _).
Qed.

Lemma fixture_cell_ok i focus variant j typ text v : validDelimiter (is_delimiter i) = true ->
  fixture_cell i focus variant j typ = Some (text, v) -> value_ok v = true /\ fits decode_any 2 v = true.
Proof.
  intros Hd. unfold fixture_cell. repeat case_bool_decide; intros ?; simplify_eq; (split; [|done]).
  - simpl. set (t := if _ && Z.eqb variant 2 then _ else _).
    assert (utf8_valid t = true); [|destruct (is_trim_space i); [by apply TrimSpace_valid|done]].
    subst t. destruct (_ && _); [done|]. destruct (_ && _); [|apply simple_ascii, text_simple].
    unfold validDelimiter in Hd. rewrite !orb_true_iff !bool_decide_eq_true in Hd.
    by destruct Hd as [[[->| ->]| ->]| ->].
  - simpl. apply bool_decide_eq_true, number_lit_pretty.
  - simpl. apply bool_decide_eq_true. destruct (Z.eqb _ _); [done|apply fraction_number].
  - done.
Qed.

Lemma expected_row_ok (values : gmap Z gval) fields : forall out,
  Forall (fun f => fieldName (of_name f) = true /\ value_ok (default VNull (values !! of_source_index f)) = true
    /\ fits decode_any 2 (default VNull (values !! of_source_index f)) = true) fields ->
  value_ok (VObject out) = true -> forallb (fun kv => fits decode_any 2 kv.2) out = true ->
  let row := foldl (fun out f => put_field (of_name f) (default VNull (values !! of_source_index f)) out) out fields in
  value_ok (VObject row) = true /\ forallb (fun kv => fits decode_any 2 kv.2) row = true.
Proof.
  induction fields as [|f fields IH]; intros out Hf Hok Hfit; [done|].
  apply Forall_cons in Hf as [(H1 & H2 & H3) Hf]. cbn [foldl]. apply IH; [done|..].
  - simpl in Hok |- *. apply andb_true_iff in Hok as [Hs Hok]. rewrite put_field_sorted //.
    apply put_field_forallb; [|done]. simpl. by rewrite fieldName_valid // H2.
  - by apply put_field_forallb.
Qed.

Section fixtures.
Context (n : Need) (Hn : need_ok n).
Abbreviation columns := (is_columns (nd_input n)).
Abbreviation fields := (os_fields (nd_output n)).

Definition fixture_fields (focus variant : Z) : list string * gmap Z gval :=
  fixture_fill (nd_input n) focus variant fields (index_row (length columns)) ∅.

Definition fixture_row (focus variant : Z) : list string := (fixture_fields focus variant).1.

Definition fixture_want (focus variant : Z) : list (string * gval) :=
  expected_row (fixture_fields focus variant).2 fields.

Lemma fixture_eq focus variant : fixture n focus variant
  = (csvInput n [fixture_row focus variant], encode (VArray (object <$> [fixture_want focus variant]))).
Proof.
  unfold fixture, fixture_row, fixture_want, fixture_fields. by destruct (fixture_fill _ _ _ _ _ _).
Qed.

Lemma index_row_lookup w j : (j < w)%nat -> index_row w !! j = Some ("text_" +:+ pretty (Z.of_nat j)).
Proof. intros H. unfold index_row. by rewrite list_lookup_fmap lookup_seq_lt. Qed.

(** What [fixture_fill_spec] says of a fixture. *)
Lemma fixture_spec focus variant : length (fixture_row focus variant) = length columns
  /\ (forall f, f ∈ fields -> exists text v,
        fixture_cell (nd_input n) focus variant (of_source_index f) (of_type f) = Some (text, v)
        /\ fixture_row focus variant !! Z.to_nat (of_source_index f) = Some text
        /\ (fixture_fields focus variant).2 !! of_source_index f = Some v
        /\ at_key (of_name f) (fixture_want focus variant) = Some v)
  /\ (forall j, (j < length columns)%nat -> (forall f, f ∈ fields -> Z.to_nat (of_source_index f) <> j) ->
        fixture_row focus variant !! j = Some ("text_" +:+ pretty (Z.of_nat j)))
  /\ (forall k, k ∉ of_name <$> fields -> at_key k (fixture_want focus variant) = None).
Proof.
  unfold fixture_row, fixture_want.
  destruct (fixture_fields focus variant) as [row values] eqn:E. unfold fixture_fields in E. simpl.
  assert (Hlen : length (index_row (length columns)) = length columns) by (unfold index_row; rewrite length_fmap length_seq //).
  apply fixture_fill_spec in E as (H1 & H2 & H3 & _).
  - rewrite Hlen in H1. destruct (expected_row_spec values fields [] (need_distinct n Hn)) as [E1 E2].
    split; [done|]. split; [|split; [|done]].
    + intros f Hf. destruct (H2 f Hf) as (text & v & Hc & Hr & Hv). exists text, v.
      do 3 (split; [done|]). unfold expected_row. rewrite E1 // Hv //.
    + intros j Hj Hnf. rewrite H3 //. by apply index_row_lookup.
  - intros f Hf. by destruct (need_field n Hn f Hf) as (_ & _ & ?).
  - apply (need_typed n Hn).
  - intros f Hf. unfold list_len. rewrite Hlen. by destruct (need_field n Hn f Hf) as (? & _).
Qed.

(** A cell is the one of a field, or of no field. *)
Lemma fixture_row_cell focus variant j s : fixture_row focus variant !! j = Some s ->
  s = "text_" +:+ pretty (Z.of_nat j)
  \/ exists typ v, fixture_cell (nd_input n) focus variant (Z.of_nat j) typ = Some (s, v).
Proof.
  intros H. destruct (fixture_spec focus variant) as (H1 & H2 & H3 & _).
  apply lookup_lt_Some in H as Hj. rewrite H1 in Hj.
  destruct (decide (Exists (fun f => Z.to_nat (of_source_index f) = j) fields)) as [Hex|Hnex].
  - apply Exists_exists in Hex as (f & Hf & E). destruct (H2 f Hf) as (text & v & Hc & Hr & _).
    destruct (need_field n Hn f Hf) as ([Hlo _] & _). right. exists (of_type f), v.
    rewrite -E Z2Nat.id //. rewrite E H in Hr. by injection Hr as ->.
  - left. rewrite Exists_exists in Hnex. specialize (H3 j Hj ltac:(naive_solver)). congruence.
Qed.

Lemma fixture_row_simple focus : Forall simple (fixture_row focus 0).
Proof.
  apply Forall_lookup_2. intros j s [->|(typ & v & H)]%fixture_row_cell; [apply text_simple|].
  by apply fixture_cell_simple in H as [?|[? _]].
Qed.

Lemma fixture_row_spaced focus : Forall (fun s => simple s \/ s = "  spaced  ") (fixture_row focus 2).
Proof.
  apply Forall_lookup_2. intros j s [->|(typ & v & H)]%fixture_row_cell; [left; apply text_simple|].
  apply fixture_cell_simple in H as [?|[_ ?]]; [by left|by right|done].
Qed.

Lemma fixture_want_decodes focus variant :
  decode decode_any (encode (VArray (object <$> [fixture_want focus variant])))
  = Some (VArray (object <$> [fixture_want focus variant])).
Proof.
  destruct (expected_row_ok (fixture_fields focus variant).2 fields []) as [H1 H2]; [|done|done|].
  - apply Forall_forall. intros f Hf. destruct (fixture_spec focus variant) as (_ & H2 & _).
    destruct (H2 f Hf) as (text & v & Hc & _ & Hv & _). rewrite Hv. simpl.
    destruct (need_field n Hn f Hf) as (_ & ? & _). split; [done|].
    eapply fixture_cell_ok; [apply (need_delimiter n Hn)|exact Hc].
  - change (foldl _ [] fields) with (fixture_want focus variant) in H1, H2. apply decode_encode.
    + cbn [value_ok]. cbn [fmap list_fmap forallb]. by rewrite andb_true_r.
    + cbn -[fixture_want]. by rewrite H2.
Qed.

(** A mapping trial that passes: the program reads one record of the fixture
    and makes the wanted row of it. *)
Lemma trial_row code now l focus variant :
  run_trial code now (Accepts l (fixture n focus variant).1 (fixture n focus variant).2) = true ->
  validateProgram code = Ok tt /\ exists record,
    read_input code l (csvInput n [fixture_row focus variant]) [record]
    /\ row_of code record = Ok (fixture_want focus variant).
Proof.
  rewrite fixture_eq. simpl fst. simpl snd. cbn [run_trial].
  destruct (Convert code l now _) as [got|] eqn:E; [|done].
  apply Convert_reads in E as (Hp & _ & _ & _ & _ & records & rows & Hread & _ & H2 & _ & _ & _ & _ & _ & Hdec).
  unfold jsonEqual. rewrite Hdec fixture_want_decodes. intros H%bool_decide_eq_true. injection H as H.
  destruct rows as [|row [|row' rows]]; try done. injection H as ->.
  inversion H2 as [|record ? records' ? Hrow H2']; subst. inversion H2'; subst. split; [done|]. by exists record.
Qed.
End fixtures.

(** ** What a scalar tells of its text *)

Lemma span_digits_chars s d r : span_digits s = (d, r) -> all_chars is_digit d = true.
Proof.
  revert d. induction s as [|c s IH]; intros d; simpl; [by intros [= <- _]|].
  destruct (is_digit c) eqn:E; [|by intros [= <- _]]. destruct (span_digits s) as [d0 r0].
  intros [= <- ->]. simpl. by rewrite E IH.
Qed.

Lemma digit_simple s : all_chars is_digit s = true -> all_chars simple_char s = true.
Proof. apply all_chars_weaken. intros c. by destruct c as [[] [] [] [] [] [] [] []]. Qed.

Lemma number_int_chars s i r : number_int s = Some (i, r) -> all_chars simple_char i = true.
Proof.
  unfold number_int. destruct s as [|c s]; [done|]. destruct (is_char c "0"); [by intros [= <- _]|].
  destruct (is_digit c); [|done]. intros H. injection H as H.
  by apply (span_digits_chars (String c s)), digit_simple in H.
Qed.

Lemma number_frac_chars s f r : number_frac s = Some (f, r) -> all_chars simple_char f = true.
Proof.
  unfold number_frac. destruct s as [|c s]; [by intros [= <- _]|]. destruct (is_char c ".") eqn:E; [|by intros [= <- _]].
  intros (t & H & ->)%then_text_Some. apply is_char_eq in E as ->. unfold digits1 in H.
  destruct (span_digits s) as [d q] eqn:Es. apply span_digits_chars, digit_simple in Es.
  destruct d; [done|]. by injection H as <- _.
Qed.

Lemma decimalValue_chars s : decimalValue s = true -> all_chars simple_char s = true.
Proof.
  unfold decimalValue. destruct (number_sign s) as [sign s1] eqn:Es. simpl.
  assert (Hs : all_chars simple_char sign = true).
  { unfold number_sign in Es. destruct s as [|c s]; [by injection Es as <- _|].
    destruct (is_char c "-"); by injection Es as <- _. }
  apply number_sign_prefix in Es as [-> _]. destruct (number_int s1) as [[i s2]|] eqn:Ei; [|done].
  apply number_int_prefix in Ei as Hi. destruct Hi as [[-> _] _]. apply number_int_chars in Ei.
  destruct (number_frac s2) as [[f s3]|] eqn:Ef; [|done]. apply number_frac_prefix in Ef as Hf.
  destruct Hf as [[-> _] _]. apply number_frac_chars in Ef. destruct s3; [|done]. intros _.
  by rewrite append_nil_r !all_chars_app Hs Ei Ef.
Qed.

Lemma integer_decimal s : integerValue s = true -> decimalValue s = true.
Proof. unfold integerValue, decimalValue. destruct (number_int _) as [[i [|c r]]|]; done. Qed.

Lemma scalar_inv raw typ trim v : scalar raw typ trim = Ok v ->
  let r := if trim then TrimSpace raw else raw in
  (typ = "string" /\ v = VString r)
  \/ (typ = "integer" /\ integerValue r = true /\ exists z, parse_int64 r = Some z /\ v = VNumber (pretty z))
  \/ (typ = "decimal" /\ decimalValue r = true /\ v = VNumber r)
  \/ (typ = "boolean" /\ exists b, r = json_bool b /\ v = VBool b).
Proof.
  unfold scalar. set (r := if trim then _ else _). repeat case_bool_decide; intros Hs; go_ok Hs; simplify_eq/=;
    unbool; try done; auto.
  - right. left. destruct (parse_int64 r) as [z|]; [|done]. injection Hs as <-. eauto.
  - right. right. left. done.
  - right. right. right. split; [done|]. by exists true.
  - right. right. right. split; [done|]. by exists false.
Qed.

(** Texts that are not of strings have simple bytes only. *)
Lemma scalar_chars raw typ trim v : scalar raw typ trim = Ok v -> typ <> "string" ->
  all_chars simple_char (if trim then TrimSpace raw else raw) = true.
Proof.
  intros [[? _]|[(_ & H & _)|[(_ & H & _)|(_ & b & H & _)]]]%scalar_inv Ht; [done|..].
  - by apply decimalValue_chars, integer_decimal.
  - by apply decimalValue_chars.
  - rewrite H. by destruct b.
Qed.

Lemma TrimSpace_ends s a t b u : s = String a t -> String.rev s = String b u ->
  visible a = true -> visible b = true -> TrimSpace s = s.
Proof.
  intros E1 E2 Ha Hb. unfold TrimSpace. assert (GoStrings.trim_left s = s) as ->.
  { rewrite E1. apply visible_trimmed; [| |done]; intros; by first [apply visible_space2|apply visible_space3]. }
  rewrite E2. unfold trim_right_rev. rewrite visible_trimmed //;
    [intros x; by apply visible_space2_r|intros x y; by apply visible_space3_r|].
  by rewrite -E2 rev_involutive.
Qed.

(** A line read as one field keeps its delimiters when it is trimmed. *)
Lemma joined_TrimSpace d row : Forall simple row -> row <> [] ->
  TrimSpace (str (joined (comma_of d) row)) = str (joined (comma_of d) row).
Proof.
  intros Hs Hne.
  assert (Hfirst : exists a t, joined (comma_of d) row = a :: t /\ visible a = true).
  { destruct Hs as [|f row Hf Hs]; [done|]. apply simple_visible in Hf as Hv. destruct Hf as [Hf _].
    destruct f as [|a f]; [done|]. apply andb_true_iff in Hv as [Hv _]. simpl. destruct row; by eexists _, _. }
  assert (Hlast : exists p b, joined (comma_of d) row = p ++ [b] /\ visible b = true).
  { clear Hfirst. induction Hs as [|f row Hf Hs IH]; [done|]. destruct row as [|g row].
    - simpl. destruct (exists_last (l := lit f)) as (p & b & E); [by destruct Hf as [Hf _], f|].
      exists p, b. split; [done|]. apply simple_visible in Hf. eapply all_chars_lit; [exact Hf|]. rewrite E. set_solver.
    - destruct IH as (p & b & E & Hb); [done|]. simpl in E |- *. rewrite E.
      exists (lit f ++ comma_of d :: p), b. by rewrite -(assoc_L (++)). }
  destruct Hfirst as (a & t & E1 & Ha), Hlast as (p & b & E2 & Hb).
  apply (TrimSpace_ends _ a (str t) b (String.rev (str p))); try done; [by rewrite E1|].
  rewrite E2 str_app rev_append. done.
Qed.

(** ** The shape of an accepted program *)

Lemma fieldName_simple s : fieldName s = true -> simple s.
Proof.
  intros [H1 H2]%fieldName_chars. split; [done|]. revert H2. apply all_chars_weaken.
  intros c. unfold simple_char. by intros ->.
Qed.

Section accepted.
Context (p : Program) (n : Need) (l : Limits) (Hn : need_ok n) (Hp : validateProgram p = Ok tt).
Abbreviation columns := (is_columns (nd_input n)).
Abbreviation fields := (os_fields (nd_output n)).

(** The row made of a fixture: its keys and its values. *)
Lemma row_of_want record focus variant : row_of p record = Ok (fixture_want n focus variant) ->
  (forall f, f ∈ fields -> exists c, c ∈ pr_columns p /\ cl_output_name c = of_name f)
  /\ (forall c, c ∈ pr_columns p -> exists f, f ∈ fields /\ of_name f = cl_output_name c)
  /\ (forall f c, f ∈ fields -> c ∈ pr_columns p -> cl_output_name c = of_name f -> exists text v,
       fixture_cell (nd_input n) focus variant (of_source_index f) (of_type f) = Some (text, v)
       /\ fixture_row n focus variant !! Z.to_nat (of_source_index f) = Some text /\ cell p record c = Ok v).
Proof.
  intros H. apply validateProgram_Ok in Hp as (_ & _ & _ & _ & _ & _ & Hd).
  apply convert_row_Ok in H as (H1 & H2 & _); [|done].
  destruct (fixture_spec n Hn focus variant) as (_ & F1 & _ & F2). split_and!.
  - intros f Hf. destruct (F1 f Hf) as (text & v & _ & _ & _ & Hk).
    destruct (decide (of_name f ∈ cl_output_name <$> pr_columns p)) as [Hin|Hnin].
    + apply list_elem_of_fmap in Hin as (c & -> & Hc). by exists c.
    + by rewrite (H2 _ Hnin) in Hk.
  - intros c Hc. destruct (H1 c Hc) as (v & _ & Hk).
    destruct (decide (cl_output_name c ∈ of_name <$> fields)) as [Hin|Hnin].
    + apply list_elem_of_fmap in Hin as (f & -> & Hf). by exists f.
    + by rewrite (F2 _ Hnin) in Hk.
  - intros f c Hf Hc E. destruct (F1 f Hf) as (text & v & Hcell & Hr & _ & Hk).
    destruct (H1 c Hc) as (v' & Hv & Hk'). exists text, v. split; [done|]. split; [done|].
    rewrite Hv. rewrite E Hk in Hk'. by injection Hk' as ->.
Qed.

(** No column makes a wanted value of a line read as one field. *)
Lemma one_field_fails s focus : row_of p [s] = Ok (fixture_want n focus 0) ->
  length (pr_input_columns p) = 1%nat -> TrimSpace s = s -> comma_of (is_delimiter (nd_input n)) ∉ lit s.
Proof.
  intros H Hw Ht Hin. pose proof (validateProgram_Ok p Hp) as (_ & _ & _ & _ & _ & Hcols & _).
  pose proof (need_delimiter n Hn) as Hd. apply row_of_want in H as (H1 & _ & H3).
  pose proof (need_fields n Hn) as Hne. destruct fields as [|f fs] eqn:Ef; [done|].
  assert (Hf : f ∈ f :: fs) by by left. destruct (H1 f Hf) as (c & Hc & Ec).
  destruct (H3 f c Hf Hc Ec) as (text & v & Hcell & _ & Hv). unfold cell in Hv.
  rewrite Forall_forall in Hcols. destruct (Hcols c Hc) as ([Hlo Hhi] & _). unfold list_len in Hhi.
  replace (Z.to_nat (cl_input_index c)) with 0%nat in Hv by lia. simpl in Hv.
  assert (Hr : (if pr_trim_space p then TrimSpace s else s) = s) by by destruct (pr_trim_space p).
  assert (Hsimple : forall t, all_chars simple_char t = true -> t = s -> False).
  { intros t Hs ->. apply (all_chars_lit _ _ _ Hs), simple_char_plain in Hin as (_ & _ & _ & _ & _ & Hx).
    by apply (Hx _ Hd). }
  destruct (decide (cl_type c = "string")) as [Es|Es].
  - rewrite Es in Hv. unfold scalar in Hv. simpl in Hv. rewrite Hr in Hv. injection Hv as <-.
    unfold fixture_cell in Hcell. rewrite !andb_false_r in Hcell. repeat case_bool_decide; try done.
    injection Hcell as _ E. apply (Hsimple ("text_" +:+ pretty (of_source_index f))); [apply text_simple|].
    rewrite simple_TrimSpace in E; [by apply text_simple|]. by destruct (is_trim_space _).
  - apply scalar_chars in Hv; [|done]. rewrite Hr in Hv. by apply (Hsimple s).
Qed.

Lemma columns_simple : Forall simple columns.
Proof. eapply Forall_impl; [apply (need_names n Hn)|]. intros c. apply fieldName_simple. Qed.

Lemma fixture_row_nonempty focus variant : fixture_row n focus variant <> [].
Proof.
  pose proof (fixture_spec n Hn focus variant) as (H & _). pose proof (need_columns n Hn) as Hc.
  intros E. rewrite E in H. by destruct columns.
Qed.

(** The lines of a need are the lines of the program. *)
Definition same_shape : Prop :=
  pr_header p = is_header (nd_input n)
  /\ (is_delimiter (nd_input n) = pr_delimiter p \/ length columns = 1%nat)
  /\ length (pr_input_columns p) = length columns
  /\ (is_header (nd_input n) = true -> pr_input_columns p = columns).

Lemma delimiter_or_one (row : list string) : row <> [] ->
  is_delimiter (nd_input n) = pr_delimiter p \/ length row = 1%nat
  \/ (is_delimiter (nd_input n) <> pr_delimiter p /\ (2 <= length row)%nat).
Proof.
  intros H. destruct row as [|a [|b row]]; [done|by auto|].
  destruct (decide (is_delimiter (nd_input n) = pr_delimiter p)); [by auto|].
  right. right. simpl. split; [done|lia].
Qed.

Lemma program_delimiter : validDelimiter (pr_delimiter p) = true.
Proof. by apply validateProgram_Ok in Hp as (? & _). Qed.

(** A header that a program finds in the line of the need is the need's. *)
Lemma header_found : seen_as (is_delimiter (nd_input n)) (pr_delimiter p) columns = pr_input_columns p ->
  pr_input_columns p = columns
  /\ (is_delimiter (nd_input n) = pr_delimiter p \/ length columns = 1%nat).
Proof.
  intros H. apply validateProgram_Ok in Hp as (_ & _ & _ & Hnames & _).
  pose proof (need_delimiter n Hn) as Hd.
  destruct (delimiter_or_one columns (need_columns n Hn)) as [E|[E|[E E2]]];
    [rewrite (seen_as_same _ _ _ (or_introl E)) in H; by auto|
     rewrite (seen_as_same _ _ _ (or_intror E)) in H; by auto|].
  destruct (seen_as_one _ _ _ Hd columns_simple E2 E) as (s & Es & Hin). rewrite -H Es in Hnames.
  apply Forall_cons in Hnames as [Hs _]. apply fieldName_simple in Hs.
  by destruct (simple_plain s _ Hs Hd) as ((_ & ? & _) & _).
Qed.

Lemma shape_of_trial record focus :
  read_input p l (csvInput n [fixture_row n focus 0]) [record] ->
  row_of p record = Ok (fixture_want n focus 0) -> same_shape.
Proof.
  intros Hread Hrow. pose proof (need_delimiter n Hn) as Hd. pose proof program_delimiter as He.
  pose proof (fixture_row_simple n Hn focus) as Hsr. pose proof (fixture_row_nonempty focus 0) as Hne.
  assert (Hcr : CR ∉ WriteRecord (comma_of (is_delimiter (nd_input n))) (fixture_row n focus 0) ++ []).
  { rewrite app_nil_r. apply WriteRecord_CR; [by apply validDelimiter_comma in Hd as (_ & _ & ?)|].
    exact (simple_no_CR _ Hd _ Hsr). }
  pose proof (Read_simple _ _ (length (pr_input_columns p)) _ [] Hd He Hsr Hne ltac:(set_solver)) as Hline.
  pose proof (Read_simple _ _ (length (pr_input_columns p)) _ _ Hd He columns_simple (need_columns n Hn) Hcr) as Hhead.
  unfold read_input, csvInput in Hread. simpl mbind in Hread. unfold same_shape.
  destruct (pr_header p), (is_header (nd_input n)).
  - destruct Hread as (text & Hr & _ & _). rewrite Hhead in Hr. apply read_if in Hr as (_ & Hr & _).
    destruct (header_found (eq_sym Hr)) as [-> ?]. done.
  - destruct Hread as (text & Hr & _ & Hall). simpl app in Hr. rewrite Hline in Hr.
    apply read_if in Hr as (_ & _ & ->). by inversion Hall.
  - inversion Hread as [|? ? rest ? Hr Hall]; subst. rewrite Hhead in Hr. apply read_if in Hr as (_ & _ & ->).
    inversion Hall as [? E|]; subst. rewrite Hline in E. by apply read_if_more in E.
  - inversion Hread as [|? ? rest ? Hr Hall]; subst. simpl app in Hr. rewrite Hline in Hr.
    apply read_if in Hr as (Hw%Nat.eqb_eq & -> & ->).
    pose proof (fixture_spec n Hn focus 0) as (Hlen & _).
    destruct (delimiter_or_one _ Hne) as [E|[E|[E E2]]].
    + rewrite (seen_as_same _ _ _ (or_introl E)) in Hw. do 2 (split; [by auto|]). split; [congruence|done].
    + rewrite (seen_as_same _ _ _ (or_intror E)) in Hw. do 2 (split; [by rewrite -?Hlen; auto|]). split; [congruence|done].
    + exfalso. destruct (seen_as_one _ _ _ Hd Hsr E2 E) as (s & Es & Hin). rewrite Es in Hw Hrow.
      eapply one_field_fails; [exact Hrow|done| |exact Hin].
      unfold seen_as in Es. rewrite bool_decide_eq_false_2 // in Es. injection Es as <-.
      by apply joined_TrimSpace.
Qed.

(** ** The records an accepted program reads *)

Lemma spaced_written d : validDelimiter d = true ->
  write_field (comma_of d) "  spaced  " = QUOTE :: lit "  spaced  " ++ [QUOTE].
Proof.
  intros H. unfold validDelimiter in H. rewrite !orb_true_iff !bool_decide_eq_true in H.
  by destruct H as [[[->| ->]| ->]| ->].
Qed.

Definition plain_cell (s : string) : Prop := simple s \/ s = "  spaced  ".

Lemma plain_written d e row : validDelimiter d = true -> validDelimiter e = true -> Forall plain_cell row ->
  d = e \/ length row = 1%nat -> WriteRecord (comma_of d) row = WriteRecord (comma_of e) row.
Proof.
  intros Hd He Hs [->|Hl]; [done|]. destruct row as [|s [|t row]]; try done.
  apply Forall_cons in Hs as [[Hs| ->] _]; cbn [WriteRecord].
  - by rewrite !simple_written.
  - by rewrite !spaced_written.
Qed.

Lemma plain_no_CR row : Forall plain_cell row -> no_CR row /\ row <> [""].
Proof.
  intros H. split.
  - eapply Forall_impl; [exact H|]. intros s [Hs| ->]; [|exact (bool_decide_unpack (CR ∉ lit "  spaced  ") I)].
    pose proof (need_delimiter n Hn) as Hd. by destruct (simple_plain s _ Hs Hd) as (_ & ? & _).
  - intros ->. apply Forall_cons in H as [[[? _]|?] _]; done.
Qed.

Lemma record_of_trial record focus variant : same_shape -> Forall plain_cell (fixture_row n focus variant) ->
  read_input p l (csvInput n [fixture_row n focus variant]) [record] -> record = fixture_row n focus variant.
Proof.
  intros (Hh & Hdel & Hw & Hcols) Hs Hread. pose proof (need_delimiter n Hn) as Hd.
  pose proof program_delimiter as He. pose proof (fixture_spec n Hn focus variant) as (Hlen & _).
  pose proof (validDelimiter_comma _ He) as (_ & _ & Hc). pose proof (plain_no_CR _ Hs) as [Hcr Hb].
  unfold read_input, csvInput in Hread. simpl mbind in Hread. rewrite app_nil_r in Hread.
  rewrite (plain_written _ _ _ Hd He Hs) in Hread; [by rewrite Hlen|].
  pose proof (Read_WriteRecord _ Hc (length (pr_input_columns p)) _ [] (fixture_row_nonempty focus variant) Hb Hcr ltac:(set_solver)) as Hr.
  rewrite app_nil_r in Hr.
  assert (Hone : forall text, read_all (comma_of (pr_delimiter p)) (length (pr_input_columns p)) text [record] ->
    text = WriteRecord (comma_of (pr_delimiter p)) (fixture_row n focus variant) -> record = fixture_row n focus variant).
  { intros text Hall ->. inversion Hall as [|? ? rest ? E _]; subst. rewrite Hr in E.
    by apply read_if in E as (_ & -> & _). }
  rewrite Hh in Hread. destruct (is_header (nd_input n)); [|exact (Hone _ Hread eq_refl)].
  destruct Hread as (text & E & _ & Hall). eapply Hone; [exact Hall|].
  assert (Hps : Forall plain_cell columns) by (eapply Forall_impl; [apply columns_simple|]; by left).
  pose proof (plain_no_CR _ Hps) as [Hcr' Hb'].
  rewrite (plain_written _ _ _ Hd He Hps Hdel) in E.
  rewrite (Read_WriteRecord _ Hc _ _ _ (need_columns n Hn) Hb' Hcr' (WriteRecord_CR _ Hc _ Hcr)) in E.
  by apply read_if in E as (_ & _ & ->).
Qed.
End accepted.

(** ** The cells tell the columns apart *)

(** The bytes of numbers. *)
Definition num_char (c : ascii) : bool := is_digit c || is_char c "-" || is_char c ".".

Lemma pretty_num (z : Z) : all_chars num_char (pretty z) = true.
Proof. eapply all_chars_weaken; [|apply pretty_Z_chars]. intros c. unfold int_char, num_char. by intros ->. Qed.

Lemma fraction_num (z : Z) : all_chars num_char (pretty z +:+ ".125") = true.
Proof. by rewrite all_chars_app pretty_num. Qed.

Lemma pretty_no_point (z : Z) s t : pretty z <> s +:+ String "." t.
Proof.
  intros E. pose proof (pretty_Z_chars z) as H. rewrite E all_chars_app in H.
  apply andb_true_iff in H as [_ H]. done.
Qed.

(** A positive number starts with a digit. *)
Lemma positive_head (z : Z) t u : 0 < z -> pretty z +:+ t <> String "-" u.
Proof.
  intros Hz E. destruct (pretty_Z_parts z) as [[-> _]|(v & _ & Hv & [(_ & E' & _)|(? & _)])]; [lia| |lia].
  rewrite E' in E. destruct v as [|c v]; [done|]. rewrite append_cons in E. by injection E as -> _.
Qed.

Lemma other_cell_text (i j : Z) s : other_cell j s -> s = "text_" +:+ pretty i -> j = i.
Proof.
  intros H E. assert (Hn : all_chars num_char s = true -> False).
  { intros Hs. rewrite E all_chars_app in Hs. done. }
  destruct H as [->|[->|[->| ->]]]; [|case: (Hn (pretty_num _))|case: (Hn (fraction_num _))|done].
  apply append_inj_l in E. by apply (inj pretty) in E.
Qed.

Lemma other_cell_number (j : Z) s t : 0 <= j -> other_cell j s -> s <> String "-" t.
Proof.
  intros Hj [->|[->|[->| ->]]]; [done| | |done].
  - rewrite -(append_nil_r (pretty _)). apply positive_head. lia.
  - apply positive_head. lia.
Qed.

Lemma other_cell_true (j : Z) s : other_cell j s -> s <> "true".
Proof.
  intros H E. destruct H as [->|[->|[->| ->]]]; try done.
  - pose proof (pretty_num (j + 3)) as H. by rewrite E in H.
  - pose proof (fraction_num (j + 3)) as H. by rewrite E in H.
Qed.

Lemma other_cell_integer (j z : Z) s : other_cell j s -> integerValue s = true -> parse_int64 s = Some z -> z = j + 3.
Proof.
  intros [->|[->|[->| ->]]]; try done.
  - intros _. apply parse_int64_pretty_inv.
  - intros H. exfalso. unfold integerValue in H. destruct (number_int_pretty (j + 3)) as (i & H1 & H2).
    destruct (pretty_simple (j + 3)) as [Hne _]. unfold number_sign in *.
    destruct (pretty (j + 3)) as [|c s]; [done|]. rewrite append_cons in H.
    destruct (is_char c "-"); cbn -[number_int String.append] in H1, H; apply number_int_prefix in H1 as [[E Hx] _];
      rewrite append_nil_r in E; subst i; rewrite -?append_cons (Hx ".125") // in H.
Qed.

(** The type of a column that makes the values of a field: the field's, or
    decimal for an integer. *)
Definition type_ok (field column : string) : Prop :=
  column = field \/ field = "integer" /\ column = "decimal".

Section mapping.
Context (p : Program) (n : Need) (Hn : need_ok n).

Lemma simple_scalar s : simple s -> (if pr_trim_space p then TrimSpace s else s) = s.
Proof. intros H. destruct (pr_trim_space p); [by apply simple_TrimSpace|done]. Qed.

(** On the fixture that singles out the field, the column reads the field's
    column of the input and has its type. *)
Lemma column_of_field c f text v : let i := of_source_index f in
  0 <= i -> 0 <= cl_input_index c -> validType (of_type f) = true ->
  fixture_cell (nd_input n) i 0 i (of_type f) = Some (text, v) ->
  cell p (fixture_row n i 0) c = Ok v ->
  (forall s, fixture_row n i 0 !! Z.to_nat (cl_input_index c) = Some s -> simple s) ->
  (exists s, fixture_row n i 0 !! Z.to_nat (cl_input_index c) = Some s) ->
  cl_input_index c = i /\ type_ok (of_type f) (cl_type c).
Proof.
  intros i Hi Hj Ht Hf Hc Hsimple [s Hs]. unfold cell in Hc. rewrite Hs in Hc. simpl in Hc.
  assert (Hother : cl_input_index c <> i -> other_cell (cl_input_index c) s).
  { intros Hne. destruct (fixture_row_cell n Hn i 0 _ s Hs) as [->|(typ & w & H)].
    - left. by rewrite Z2Nat.id.
    - rewrite Z2Nat.id // in H. exact (fixture_cell_other _ _ _ _ _ _ H Hne). }
  apply scalar_inv in Hc. rewrite (simple_scalar s (Hsimple s Hs)) in Hc. unfold type_ok.
  unfold validType in Ht. rewrite !orb_true_iff !bool_decide_eq_true in Ht.
  unfold fixture_cell in Hf. rewrite Z.eqb_refl in Hf.
  destruct (decide (cl_input_index c = i)) as [Ei|Ei].
  - split; [done|]. destruct Ht as [[[Et|Et]|Et]|Et]; rewrite Et in Hf |- *; simpl in Hf; injection Hf as <- <-;
      destruct Hc as [(Hc & E)|[(Hc & _ & z & _ & E)|[(Hc & _ & E)|(Hc & b & _ & E)]]]; auto; try done.
    exfalso. injection E as E. by apply (pretty_no_point z "-0" "25").
  - exfalso. specialize (Hother Ei).
    destruct Ht as [[[Et|Et]|Et]|Et]; rewrite Et in Hf; simpl in Hf; injection Hf as <- <-;
      destruct Hc as [(Hc & E)|[(Hc & Hiv & z & Hz & E)|[(Hc & Hdv & E)|(Hc & b & Hb & E)]]]; try done; injection E as E.
    + apply Ei. eapply other_cell_text; [exact Hother|]. rewrite -E.
      destruct (is_trim_space _); [by rewrite simple_TrimSpace; [apply text_simple|]|done].
    + change (pretty (-17) = pretty z) in E. apply (inj pretty) in E. apply (other_cell_integer _ _ _ Hother Hiv) in Hz. lia.
    + by apply (other_cell_number _ s "17" Hj Hother).
    + by apply (pretty_no_point z "-0" "25").
    + by apply (other_cell_number _ s "0.25" Hj Hother).
    + apply (other_cell_true _ _ Hother). by rewrite Hb -E.
Qed.
End mapping.

(** ** Programs with the same columns *)

(** The program a need describes. *)
Definition column_of (f : OutputField) : Column := mkColumn (of_source_index f) (of_name f) (of_type f).
Definition program_of (n : Need) : Program :=
  mkProgram IRFormat "delimited_to_objects" (is_delimiter (nd_input n)) (is_header (nd_input n))
    (is_trim_space (nd_input n)) (is_columns (nd_input n)) (column_of <$> os_fields (nd_output n)).

Lemma valid_column_of width fields : forall seen types, valid_fields width seen types fields = Ok tt ->
  valid_program_columns width seen (column_of <$> fields) = Ok tt.
Proof.
  induction fields as [|f fields IH]; intros seen types H; [done|]. simpl in H |- *. go_ok H. unbool.
  apply fail_if_Ok. split; [|exact (IH _ _ H)]. repeat (apply orb_false_iff; split); try apply negb_false_iff;
    try done; try (apply Z.ltb_ge; lia); try (apply Z.leb_gt; lia). by apply bool_decide_eq_false_2.
Qed.

Lemma program_of_valid n : Need_Validate n = Ok tt -> validateProgram (program_of n) = Ok tt.
Proof.
  unfold Need_Validate. intros H. go_ok H. unbool.
  destruct (validateSchemas (nd_input n) (nd_output n)) as [[]|] eqn:E; [|done].
  unfold validateSchemas in E. go_ok E. destruct a. apply valid_column_of in E. unfold validateProgram.
  cbn -[outside MaxColumns valid_columns valid_program_columns list_len validDelimiter]. unbool.
  rewrite Hg2. simpl res_bind. replace (list_len (column_of <$> os_fields (nd_output n)))
    with (list_len (os_fields (nd_output n))) by (unfold list_len; by rewrite length_fmap).
  unfold fail_if. repeat match goal with X : ?b = _ |- _ => rewrite X; clear X end. done.
Qed.

Definition covers (cs ds : list Column) : Prop :=
  forall c, c ∈ cs -> exists d, d ∈ ds /\ cl_output_name d = cl_output_name c
    /\ cl_input_index d = cl_input_index c /\ cl_type d = cl_type c.

Section same_rows.
Context (p q : Program) (Hp : validateProgram p = Ok tt) (Hq : validateProgram q = Ok tt)
  (Htrim : pr_trim_space p = pr_trim_space q)
  (Hpq : covers (pr_columns p) (pr_columns q)) (Hqp : covers (pr_columns q) (pr_columns p)).

Lemma covered_cell record c d : cl_input_index d = cl_input_index c -> cl_type d = cl_type c ->
  cell q record d = cell p record c.
Proof. unfold cell. by intros -> ->; rewrite Htrim. Qed.

Lemma row_of_same record row : row_of p record = Ok row -> row_of q record = Ok row.
Proof.
  intros H. apply validateProgram_Ok in Hp as (_ & _ & _ & _ & _ & _ & Dp), Hq as (_ & _ & _ & _ & _ & _ & Dq).
  apply convert_row_Ok in H as (H1 & H2 & H3); [|done].
  destruct (convert_row_exists q record (pr_columns q)) with (row := @nil (string * gval)) as [row' H'].
  { intros d Hd. destruct (Hqp d Hd) as (c & Hc & _ & Ei & Et). destruct (H1 c Hc) as (v & Hv & _).
    exists v. by rewrite (covered_cell record c d). }
  unfold row_of. rewrite H'. apply convert_row_Ok in H' as (H1' & H2' & H3'); [|done]. f_equal.
  apply at_key_ext; [by apply H3'|by apply H3|]. intros k.
  destruct (decide (k ∈ cl_output_name <$> pr_columns p)) as [Hin|Hnin].
  - apply list_elem_of_fmap in Hin as (c & -> & Hc). destruct (Hpq c Hc) as (d & Hd & En & Ei & Et).
    destruct (H1 c Hc) as (v & Hv & ->), (H1' d Hd) as (v' & Hv' & Hk). rewrite En in Hk. rewrite Hk.
    rewrite (covered_cell record c d) // in Hv'. congruence.
  - rewrite (H2 k Hnin) H2' //. intros (d & -> & Hd)%list_elem_of_fmap. apply Hnin.
    destruct (Hqp d Hd) as (c & Hc & En & _). rewrite -En. by apply list_elem_of_fmap_2.
Qed.
End same_rows.

Section same_conversions.
Context (p q : Program) (Hp : validateProgram p = Ok tt) (Hq : validateProgram q = Ok tt)
  (Htrim : pr_trim_space p = pr_trim_space q) (Hdelim : pr_delimiter p = pr_delimiter q)
  (Hheader : pr_header p = pr_header q) (Hwidth : length (pr_input_columns p) = length (pr_input_columns q))
  (Hnames : pr_header q = true -> pr_input_columns p = pr_input_columns q)
  (Hpq : covers (pr_columns p) (pr_columns q)) (Hqp : covers (pr_columns q) (pr_columns p)).

Lemma row_of_eq record : row_of p record = row_of q record.
Proof.
  destruct (row_of p record) as [row|e] eqn:E.
  - symmetry. by apply (row_of_same p q).
  - destruct (row_of q record) as [row|e'] eqn:E'.
    + apply (row_of_same q p) in E'; [congruence|done..].
    + apply convert_row_Err in E as [-> _], E' as [-> _]. done.
Qed.

Lemma convert_rows_eq l now fuel : forall k text rows output,
  convert_rows p l now fuel k text rows output = convert_rows q l now fuel k text rows output.
Proof.
  induction fuel as [|fuel IH]; intros k text rows output; [done|]. cbn [convert_rows].
  rewrite Hdelim Hwidth. destruct (now k); [done|]. destruct (Read _ _ _) as [| |record rest]; try done.
  pose proof (row_of_eq record) as Hr. unfold row_of in Hr. rewrite Hr. f_equal. f_equal.
  destruct (convert_row q record (pr_columns q) []) as [row|]; [|done]. simpl. f_equal. apply IH.
Qed.

Lemma Convert_eq l now raw : Convert p l now raw = Convert q l now raw.
Proof.
  unfold Convert. rewrite Hp Hq Hheader Hdelim Hwidth. f_equal. destruct (now O); [done|]. f_equal. f_equal.
  destruct (pr_header q) eqn:E; [rewrite Hnames //|cbn [res_bind]; apply convert_rows_eq].
  destruct (Read _ _ raw); try done. unfold fail_if. repeat case_match; try done. cbn [res_bind]. apply convert_rows_eq.
Qed.
End same_conversions.

(** ** A package that passes *)

Lemma run_trials_all code nows trials : forall k k', run_trials code nows k trials = Some k' ->
  forall t, t ∈ trials -> exists j, run_trial code (nows j) t = true.
Proof.
  induction trials as [|t trials IH]; intros k k' H u Hu; [by apply not_elem_of_nil in Hu|].
  simpl in H. destruct (run_trial code (nows k) t) eqn:E; [|done].
  apply elem_of_cons in Hu as [->|Hu]; [by exists k|exact (IH _ _ H u Hu)].
Qed.

Lemma mapping_trial n i v : (i < length (is_columns (nd_input n)))%nat -> v ∈ [0; 1; 2] ->
  Accepts (nd_limits n) (fixture n (Z.of_nat i) v).1 (fixture n (Z.of_nat i) v).2 ∈ mapping_trials n.
Proof.
  intros Hi Hv. unfold mapping_trials. apply list_elem_of_bind. exists i. split; [|by apply elem_of_seq; lia].
  apply list_elem_of_bind. exists v. split; [|done]. destruct (fixture n (Z.of_nat i) v). by left.
Qed.

Lemma passed_trials dm nows p n profile r e : Check_package dm nows p n profile = (r, e) -> rp_passed r = true ->
  Need_Validate n = Ok tt /\ exists k, run_trials (mf_code (pk_manifest p)) nows 0 (mapping_trials n) = Some k.
Proof.
  unfold Check_package. intros H Hr.
  destruct (Parse dm (pk_raw p)) as [fresh|]; [|by injection H as <- _].
  destruct (_ || _) eqn:Eg; [by injection H as <- _|]. unbool.
  destruct (Need_Validate n) as [[]|]; [|done]. split; [done|].
  destruct (negb (matches_need _ _ _)); [by injection H as <- _|].
  destruct (negb (one_type _ _)); [by injection H as <- _|].
  destruct (run_trials _ _ _ (mapping_trials n)) as [k|]; [by exists k|by injection H as <- _].
Qed.

(** What the mapping trials show of the program. *)
Record meets (p : Program) (n : Need) : Prop := {
  meets_valid : validateProgram p = Ok tt;
  meets_shape : same_shape p n;
  meets_trim : (exists f, f ∈ os_fields (nd_output n) /\ of_type f = "string") ->
    pr_trim_space p = is_trim_space (nd_input n);
  meets_fields : forall f, f ∈ os_fields (nd_output n) -> exists c, c ∈ pr_columns p
    /\ cl_output_name c = of_name f /\ cl_input_index c = of_source_index f /\ type_ok (of_type f) (cl_type c);
  meets_columns : forall c, c ∈ pr_columns p -> exists f, f ∈ os_fields (nd_output n)
    /\ of_name f = cl_output_name c /\ cl_input_index c = of_source_index f /\ type_ok (of_type f) (cl_type c);
}.

Section meets.
Context (p : Program) (n : Need) (nows : nat -> ctx) (Hn : need_ok n)
  (Htrial : forall i v, (i < length (is_columns (nd_input n)))%nat -> v ∈ [0; 1; 2] -> exists j,
     run_trial p (nows j) (Accepts (nd_limits n) (fixture n (Z.of_nat i) v).1 (fixture n (Z.of_nat i) v).2) = true).

(** A fixture without quotes is read as it was written. *)
Lemma fixture_read i v : (i < length (is_columns (nd_input n)))%nat -> v = 0 \/ v = 2 ->
  validateProgram p = Ok tt /\ same_shape p n
  /\ row_of p (fixture_row n (Z.of_nat i) v) = Ok (fixture_want n (Z.of_nat i) v).
Proof.
  intros Hi Hv. destruct (Htrial i 0 Hi ltac:(set_solver)) as (j0 & H0).
  apply (trial_row n Hn) in H0 as (Hp & r0 & Hr0 & Hrow0).
  pose proof (shape_of_trial p n _ Hn Hp r0 _ Hr0 Hrow0) as Hshape. split; [done|]. split; [done|].
  destruct (Htrial i v Hi ltac:(destruct Hv; subst; set_solver)) as (j & H).
  apply (trial_row n Hn) in H as (_ & r & Hr & Hrow).
  rewrite -(record_of_trial p n _ Hn Hp r (Z.of_nat i) v Hshape _ Hr) //.
  destruct Hv as [->| ->]; [|apply (fixture_row_spaced n Hn)].
  eapply Forall_impl; [apply (fixture_row_simple n Hn)|]. by left.
Qed.

Lemma column_meets f c : f ∈ os_fields (nd_output n) -> c ∈ pr_columns p -> cl_output_name c = of_name f ->
  cl_input_index c = of_source_index f /\ type_ok (of_type f) (cl_type c).
Proof.
  intros Hf Hc En. destruct (need_field n Hn f Hf) as ([Hlo Hhi] & _ & Ht). unfold list_len in Hhi.
  destruct (fixture_read (Z.to_nat (of_source_index f)) 0 ltac:(lia) ltac:(by left)) as (Hp & Hshape & Hrow).
  rewrite Z2Nat.id // in Hrow.
  pose proof (row_of_want p n Hn Hp _ _ _ Hrow) as (_ & _ & H3).
  destruct (H3 f c Hf Hc En) as (text & v & Hcell & _ & Hv).
  pose proof (validateProgram_Ok p Hp) as (_ & _ & _ & _ & _ & Hcols & _). rewrite Forall_forall in Hcols.
  destruct (Hcols c Hc) as ([Clo Chi] & _). destruct Hshape as (_ & _ & Hw & _). unfold list_len in Chi.
  pose proof (fixture_spec n Hn (of_source_index f) 0) as (Hlen & _).
  apply (column_of_field p n Hn c f text v); try done.
  - intros s Hs. exact (Forall_lookup_1 _ _ _ _ (fixture_row_simple n Hn _) Hs).
  - apply lookup_lt_is_Some. lia.
Qed.

Lemma trim_meets f : f ∈ os_fields (nd_output n) -> of_type f = "string" ->
  pr_trim_space p = is_trim_space (nd_input n).
Proof.
  intros Hf Ef. destruct (need_field n Hn f Hf) as ([Hlo Hhi] & _ & _). unfold list_len in Hhi.
  destruct (fixture_read (Z.to_nat (of_source_index f)) 2 ltac:(lia) ltac:(by right)) as (Hp & _ & Hrow).
  rewrite Z2Nat.id // in Hrow. pose proof (row_of_want p n Hn Hp _ _ _ Hrow) as (H1 & _ & H3).
  destruct (H1 f Hf) as (c & Hc & En). destruct (column_meets f c Hf Hc En) as [Ei Et].
  destruct (H3 f c Hf Hc En) as (text & v & Hcell & Hs & Hv). unfold cell in Hv. rewrite Ei Hs in Hv.
  destruct Et as [Et|[Et _]]; [|congruence]. rewrite Et Ef in Hv.
  rewrite Ef in Hcell. unfold fixture_cell in Hcell. simpl in Hcell. rewrite Z.eqb_refl in Hcell.
  injection Hcell as <- <-. unfold scalar in Hv. simpl in Hv. injection Hv as Hv.
  by destruct (pr_trim_space p), (is_trim_space (nd_input n)).
Qed.

Lemma trials_meet : meets p n.
Proof.
  destruct (fixture_read 0 0) as (Hp & Hshape & Hrow); [|by left|].
  { pose proof (need_columns n Hn). destruct (is_columns (nd_input n)); [done|simpl; lia]. }
  pose proof (row_of_want p n Hn Hp _ _ _ Hrow) as (H1 & H2 & _). split; [done|done|..].
  - intros (f & Hf & Ef). exact (trim_meets f Hf Ef).
  - intros f Hf. destruct (H1 f Hf) as (c & Hc & En). exists c. split; [done|]. split; [done|]. by apply column_meets.
  - intros c Hc. destruct (H2 c Hc) as (f & Hf & En). exists f. split; [done|]. split; [done|]. by apply column_meets.
Qed.
End meets.

Lemma passed_meets dm nows p n profile r e : Check_package dm nows p n profile = (r, e) -> rp_passed r = true ->
  Need_Validate n = Ok tt /\ meets (mf_code (pk_manifest p)) n.
Proof.
  intros H Hr. destruct (passed_trials _ _ _ _ _ _ _ H Hr) as (Hv & k & Hk). split; [done|].
  apply (trials_meet _ _ nows); [by apply Need_Validate_ok|]. intros i v Hi Hin.
  exact (run_trials_all _ _ _ _ _ Hk _ (mapping_trial n i v Hi Hin)).
Qed.

(** C11: a package that passes the acceptance suite of a need converts every
    input exactly as the program the need describes, under every limit and
    context, provided three things the suite leaves open: the delimiter is the
    need's when the input has a single column, the trimming is the need's when
    no field is a string, and no integer field is made by a decimal column. *)
Theorem accepted_program_meets_need dm nows p n profile r e :
  Check_package dm nows p n profile = (r, e) -> rp_passed r = true ->
  let code := mf_code (pk_manifest p) in
  (length (is_columns (nd_input n)) = 1%nat -> pr_delimiter code = is_delimiter (nd_input n)) ->
  ((forall f, f ∈ os_fields (nd_output n) -> of_type f <> "string") ->
     pr_trim_space code = is_trim_space (nd_input n)) ->
  (forall f c, f ∈ os_fields (nd_output n) -> c ∈ pr_columns code -> cl_output_name c = of_name f ->
     of_type f = "integer" -> cl_type c <> "decimal") ->
  forall l now raw, Convert code l now raw = Convert (program_of n) l now raw.
Proof.
  intros H Hr code Hdelim Htrim Hint l now raw.
  destruct (passed_meets _ _ _ _ _ _ _ H Hr) as [Hv [M1 (S1 & S2 & S3 & S4) M3 M4 M5]].
  assert (Htype : forall f c, f ∈ os_fields (nd_output n) -> c ∈ pr_columns code ->
    cl_output_name c = of_name f -> type_ok (of_type f) (cl_type c) -> cl_type c = of_type f).
  { intros f c Hf Hc En [E|[E1 E2]]; [done|]. by case: (Hint f c Hf Hc En E1). }
  apply Convert_eq; try done.
  - by apply program_of_valid.
  - destruct (decide (Exists (fun f => of_type f = "string") (os_fields (nd_output n)))) as [Hex|Hnex].
    + apply M3. by apply Exists_exists.
    + apply Htrim. intros f Hf E. apply Hnex, Exists_exists. by exists f.
  - destruct S2 as [S2|S2]; [by symmetry|by apply Hdelim].
  - intros c Hc. destruct (M5 c Hc) as (f & Hf & En & Ei & Et). exists (column_of f).
    split; [by apply list_elem_of_fmap_2|]. by rewrite (Htype f c).
  - intros d (f & -> & Hf)%list_elem_of_fmap. destruct (M4 f Hf) as (c & Hc & En & Ei & Et).
    exists c. by rewrite (Htype f c).
Qed.

(** ** Demonstrations *)

Module ConverterDemo.
Definition sample_need : Need :=
  mkNeed "convert-inventory" "inventory" Class
    (mkInputSchema "text/csv" "," true ["name"; "count"; "price"; "enabled"] true)
    (mkOutputSchema "application/json"
       [mkOutputField "label" "string" 0; mkOutputField "quantity" "integer" 1;
        mkOutputField "amount" "decimal" 2; mkOutputField "active" "boolean" 3])
    (mkLimits 8192 32768 128 1024 1000).

Definition sample_profile : Profile :=
  mkProfile (mkDependency "butler-converter-ir" "1.0.0" (str (replicate 64 "a"%char))) Checker.

Definition header_line : string := "name,count,price,enabled" +:+ String LF "".

(** The author's test of a need: an input and its JSON. *)
Definition manifest_of (n : Need) (code : Program) (input : string) (rows : list (list (string * gval))) : Manifest :=
  mkManifest Format (nd_converter_id n) "1.0.0" (nd_id n) Class code (nd_input n) (nd_output n)
    [pf_dependency sample_profile] [mkTest "author-example" input (encode (VArray (object <$> rows)))]
    "Pass a current input source." ["No files."] (nd_limits n).

Definition packed (m : Manifest) : Package :=
  let raw := default "" (json_manifest m) in mkPackage m (HashBytes raw) raw.

Definition live : ctx := fun _ => None.

(** The suite on a package, its JSON decoded to its manifest. *)
Definition checked (n : Need) (m : Manifest) : Report * option error :=
  Check_package (fun _ => Some m) (fun _ => live) (packed m) n sample_profile.

Definition widget : list (list (string * gval)) :=
  [[("active", VBool true); ("amount", VNumber "1.25"); ("label", VString "widget"); ("quantity", VNumber "2")]].

Definition sample_manifest (code : Program) : Manifest :=
  manifest_of sample_need code (header_line +:+ "widget,2,1.25,true" +:+ String LF "") widget.

(** The columns in another order. *)
Definition sample_code : Program :=
  mkProgram IRFormat "delimited_to_objects" "," true true ["name"; "count"; "price"; "enabled"]
    [mkColumn 3 "active" "boolean"; mkColumn 1 "quantity" "integer"; mkColumn 0 "label" "string";
     mkColumn 2 "amount" "decimal"].

Definition sample_input : bytes :=
  lit (header_line +:+ " bolt ,-4,0.10,false" +:+ String LF "nut,0,3,true").

Lemma accepted_program_meets_need_witness :
  (checked sample_need (sample_manifest sample_code)).2 = None
  /\ Convert sample_code (nd_limits sample_need) live sample_input
     = Convert (program_of sample_need) (nd_limits sample_need) live sample_input
  /\ Convert sample_code (nd_limits sample_need) live sample_input
     = Ok (encode (VArray (object <$>
         [[("active", VBool false); ("amount", VNumber "0.10"); ("label", VString "bolt"); ("quantity", VNumber "-4")];
          [("active", VBool true); ("amount", VNumber "3"); ("label", VString "nut"); ("quantity", VNumber "0")]]))).
Proof.
  split; [vm_compute; reflexivity|]. split; [|vm_compute; reflexivity].
  apply (accepted_program_meets_need (fun _ => Some (sample_manifest sample_code)) (fun _ => live)
    (packed (sample_manifest sample_code)) sample_need sample_profile
    (checked sample_need (sample_manifest sample_code)).1 (checked sample_need (sample_manifest sample_code)).2).
  - apply surjective_pairing.
  - vm_compute. reflexivity.
  - intros H. discriminate H.
  - intros H. exfalso. apply (H (mkOutputField "label" "string" 0)); [by left|reflexivity].
  - intros f c Hf Hc En Et Ec. cbn in Hc. rewrite !elem_of_cons in Hc.
    destruct Hc as [->|[->|[->|[->|[]%not_elem_of_nil]]]]; try discriminate Ec.
    cbn in Hf. rewrite !elem_of_cons in Hf.
    destruct Hf as [->|[->|[->|[->|[]%not_elem_of_nil]]]]; first [discriminate En|discriminate Et].
Defined.
End ConverterDemo.

(** ** Exceptions *)

(** What the suite does not look at: each package passes, and converts an input
    otherwise than its need asks. *)
Module Exceptions.
Import ConverterDemo.

(** An integer field that a decimal column makes. *)
Definition decimal_code : Program :=
  mkProgram IRFormat "delimited_to_objects" "," true true ["name"; "count"; "price"; "enabled"]
    [mkColumn 0 "label" "string"; mkColumn 1 "quantity" "decimal"; mkColumn 2 "amount" "decimal";
     mkColumn 3 "active" "boolean"].

Definition half_input : bytes := lit (header_line +:+ "bolt,1.5,2,true" +:+ String LF "").

Example integer_made_as_decimal :
  (checked sample_need (sample_manifest decimal_code)).2 = None
  /\ Convert decimal_code (nd_limits sample_need) live half_input
     = Ok (encode (VArray (object <$>
         [[("active", VBool true); ("amount", VNumber "2"); ("label", VString "bolt"); ("quantity", VNumber "1.5")]])))
  /\ Convert (program_of sample_need) (nd_limits sample_need) live half_input = Err ErrInput.
Proof. vm_compute. auto. Qed.

Definition one_need (typ : string) : Need :=
  mkNeed "convert-column" "column" Class (mkInputSchema "text/csv" "," false ["value"] true)
    (mkOutputSchema "application/json" [mkOutputField "value" typ 0]) (mkLimits 8192 32768 128 1024 1000).

Definition one_code (delimiter : string) (trim : bool) (typ : string) : Program :=
  mkProgram IRFormat "delimited_to_objects" delimiter false trim ["value"] [mkColumn 0 "value" typ].

(** A single column read with another delimiter. *)
Example single_column_delimiter :
  let m := manifest_of (one_need "string") (one_code ";" true "string") "x" [[("value", VString "x")]] in
  (checked (one_need "string") m).2 = None
  /\ Convert (mf_code m) (mf_limits m) live (lit "a,b") = Ok (encode (VArray [object [("value", VString "a,b")]]))
  /\ Convert (program_of (one_need "string")) (mf_limits m) live (lit "a,b") = Err ErrInput.
Proof. vm_compute. auto. Qed.

(** White space that is not trimmed off a number. *)
Example untrimmed_number :
  let m := manifest_of (one_need "integer") (one_code "," false "integer") "7" [[("value", VNumber "7")]] in
  (checked (one_need "integer") m).2 = None
  /\ Convert (mf_code m) (mf_limits m) live (lit " 7 ") = Err ErrInput
  /\ Convert (program_of (one_need "integer")) (mf_limits m) live (lit " 7 ")
     = Ok (encode (VArray [object [("value", VNumber "7")]])).
Proof. vm_compute. auto. Qed.
End Exceptions.
