(* ===== verification/Approval.v ===== *)
(** * Approval: requests for the owner's consent

    Package [apps/orchestrator/internal/approval]: [store.go], [service.go],
    [durable.go] and [control.go].  The tables are the record [approval_db],
    which extends the tables of the work queue.  The hooks that suspend and
    release a checkpoint are the record [CheckpointHooks], implemented by the
    work queue; the gate that wakes a waiting run is the class [GateOps].
    Conversions of JSON text, the order of texts in the database and the hash
    of arguments are parameters. *)
From Stdlib Require Import Ascii.
From stdpp Require Import pretty sorting.
From S2P Require Import Prelude GoStrings GoJson GoTime Ownership Run Input ApprovalGate.
Open Scope Z_scope.
Open Scope go_scope.

Definition StatusPending : string := "pending".
Definition StatusApproved : string := "approved".
Definition StatusRejected : string := "rejected".
Definition StatusExpired : string := "expired".
Definition StatusFailed : string := "failed".

Definition ErrApprovalNotFound : error := ErrNew "ErrApprovalNotFound" "approval not found".
Definition ErrApprovalStatusConflict : error :=
  ErrNew "ErrApprovalStatusConflict" "approval status conflict".
Definition ErrTabCandidateNotFound : error :=
  ErrNew "ErrTabCandidateNotFound" "approval tab candidate not found".
Definition ErrUnauthorized : error :=
  ErrNew "ErrUnauthorized" "authenticated owner and authorized approval channel required".
Definition ErrActionInvalid : error :=
  ErrNew "ErrActionInvalid" "approval action changed, expired or cancelled".

(** ** Exact actions *)

Record PageRef := mkPageRef { pr_id : string; pr_document_id : string; pr_version : Z }.

Record PageBinding := mkPageBinding {
  pb_ref : PageRef; pb_url : string; pb_epoch : Z; pb_runtime_version : Z }.

Record SSOInspection := mkInspection {
  si_browser : string; si_rp_page : PageRef; si_rp_url : string; si_trigger : string;
  si_idp_origin : string; si_verify_url : string }.

Record SSOScope := mkSSOScope {
  so_browser : string; so_rp_page : PageRef; so_rp_url : string; so_trigger : string;
  so_idp_url : string; so_target_url : string; so_form : string; so_username : string;
  so_password : string; so_verify_url : string }.

Record ExternalScope := mkExternalScope {
  es_browser : string; es_rp_page : PageRef; es_rp_url : string; es_provider : string;
  es_verify_url : string }.

Record CredentialRef := mkCredentialRef { cr_alias : string; cr_field : string }.

Record DataRef := mkDataRef {
  dr_id : string; dr_revision : Z; dr_access_revision : Z; dr_hash : string }.

(** [actionauth.ActionBinding]; a nil pointer or slice is [None]. *)
Record ActionBinding := mkBinding {
  ab_browser_sso_inspection : option SSOInspection;
  ab_external_auth : option ExternalScope;
  ab_browser_sso : option SSOScope;
  ab_browser_page : option PageBinding;
  ab_browser_scope_url : string;
  ab_browser_scope_epoch : Z;
  ab_owner_communication : bool;
  ab_communication_destinations_hash : string;
  ab_action_id : string;
  ab_action_hash : string;
  ab_run_id : string;
  ab_tool_call_id : string;
  ab_tool_name : string;
  ab_contract_hash : string;
  ab_contract_revision : string;
  ab_args_hash : string;
  ab_resource : string;
  ab_credential_refs : option (list CredentialRef);
  ab_credential_metadata_hash : string;
  ab_task_id : string;
  ab_task_revision : Z;
  ab_constraints_revision : Z;
  ab_owner_id : string;
  ab_effect : string;
  ab_goal_id : string;
  ab_goal_revision : Z;
  ab_mandate_id : string;
  ab_mandate_revision : Z;
  ab_purpose : string;
  ab_owner_policy_revision : Z;
  ab_extension_id : string;
  ab_extension_manifest_hash : string;
  ab_extension_generation : Z;
  ab_extension_access_revision : Z;
  ab_extension_access_expires_at : option Z;
  ab_converter_id : string;
  ab_converter_package_hash : string;
  ab_converter_need_hash : string;
  ab_converter_generation : Z;
  ab_data_sources : option (list DataRef);
}.

#[global] Instance PageRef_eq_dec : EqDecision PageRef.
Proof. solve_decision. Defined.
#[global] Instance PageBinding_eq_dec : EqDecision PageBinding.
Proof. solve_decision. Defined.
#[global] Instance SSOInspection_eq_dec : EqDecision SSOInspection.
Proof. solve_decision. Defined.
#[global] Instance SSOScope_eq_dec : EqDecision SSOScope.
Proof. solve_decision. Defined.
#[global] Instance ExternalScope_eq_dec : EqDecision ExternalScope.
Proof. solve_decision. Defined.
#[global] Instance ActionCredentialRef_eq_dec : EqDecision CredentialRef.
Proof. solve_decision. Defined.
#[global] Instance DataRef_eq_dec : EqDecision DataRef.
Proof. solve_decision. Defined.
(** [reflect.DeepEqual]. *)
#[global] Instance ActionBinding_eq_dec : EqDecision ActionBinding.
Proof. solve_decision. Defined.

(** ** Tables *)

(** A row of [approvals] (migrations 022 and 028); [approval_id] is the
    primary key. *)
Record ApprovalRow := mkApprovalRow {
  ar_run_id : string;
  ar_session_key : string;
  ar_tool_call_id : string;
  ar_approval_type : string;
  ar_status : string;
  ar_requested_via : string;
  ar_resolved_via : option string;
  ar_tool_name : string;
  ar_args_json : jval;
  ar_payload_json : jval;
  ar_risk_level : string;
  ar_summary : string;
  ar_details_json : jval;
  ar_requested_at : Z;
  ar_resolved_at : option Z;
  ar_resolved_by : string;
  ar_resolution_reason : string;
  ar_expires_at : option Z;
  ar_updated_at : Z;
}.

(** A row of [approval_actions] (migration 033), by [approval_id]. *)
Record ActionRow := mkActionRow {
  ac_action_id : string;
  ac_action_hash : string;
  ac_task_id : option string;
  ac_task_revision : Z;
  ac_constraints_revision : Z;
  ac_owner_id : string;
  ac_channel : string;
  ac_binding_json : jval;
  ac_continuation_json : jval;
  ac_state : string;
  ac_decision_input_id : option string;
  ac_updated_at : Z;
}.

(** A row of [approval_decision_inputs], by [(source, delivery_id)]. *)
Record DecisionInput := mkDecisionInput {
  di_decision_input_id : string;
  di_approval_id : string;
  di_owner_id : string;
  di_approved : bool;
  di_received_at : Z;
}.

(** A row of [approval_events]; [event_id] is its serial number. *)
Record Event := mkApprovalEvent {
  av_event_id : Z;
  av_approval_id : string;
  av_run_id : string;
  av_session_key : string;
  av_event_type : string;
  av_status_before : option string;
  av_status_after : option string;
  av_actor_type : string;
  av_actor_id : string;
  av_reason : string;
  av_metadata_json : jval;
  av_created_at : Z;
}.

(** A row of [approval_tab_candidates] (migration 027), by its unique token. *)
Record TabCandidate := mkTabCandidate {
  tc_approval_id : string;
  tc_internal_tab_ref : string;
  tc_title : string;
  tc_domain : string;
  tc_current_url : string;
  tc_favicon_url : string;
  tc_display_label : string;
  tc_status : string;
  tc_created_at : Z;
  tc_selected_at : option Z;
}.

Record approval_db := mkApprovalDb {
  ap_queue : queue_db;
  ap_log : list StateTransition;
  ap_approvals : gmap string ApprovalRow;
  ap_actions : gmap string ActionRow;
  ap_decisions : gmap (string * string) DecisionInput;
  ap_events : list Event;
  ap_candidates : gmap string TabCandidate;
}.

Definition set_queue (db : approval_db) (q : queue_db) : approval_db :=
  mkApprovalDb q (ap_log db) (ap_approvals db) (ap_actions db) (ap_decisions db) (ap_events db)
    (ap_candidates db).
Definition set_approvals (db : approval_db) (t : gmap string ApprovalRow) : approval_db :=
  mkApprovalDb (ap_queue db) (ap_log db) t (ap_actions db) (ap_decisions db) (ap_events db)
    (ap_candidates db).
Definition set_actions (db : approval_db) (t : gmap string ActionRow) : approval_db :=
  mkApprovalDb (ap_queue db) (ap_log db) (ap_approvals db) t (ap_decisions db) (ap_events db)
    (ap_candidates db).
Definition set_decisions (db : approval_db) (t : gmap (string * string) DecisionInput) :
    approval_db :=
  mkApprovalDb (ap_queue db) (ap_log db) (ap_approvals db) (ap_actions db) t (ap_events db)
    (ap_candidates db).
Definition set_candidates (db : approval_db) (t : gmap string TabCandidate) : approval_db :=
  mkApprovalDb (ap_queue db) (ap_log db) (ap_approvals db) (ap_actions db) (ap_decisions db)
    (ap_events db) t.

(** Append events; the serial numbers continue. *)
Definition add_events (db : approval_db) (mk : list (Z -> Event)) : approval_db :=
  mkApprovalDb (ap_queue db) (ap_log db) (ap_approvals db) (ap_actions db) (ap_decisions db)
    (ap_events db ++ imap (fun i f => f (Z.of_nat (length (ap_events db) + i + 1))) mk)
    (ap_candidates db).

Definition add_transition (db : approval_db) (mk : Z -> StateTransition) : approval_db :=
  mkApprovalDb (ap_queue db) (ap_log db ++ [mk (Z.of_nat (length (ap_log db) + 1))])
    (ap_approvals db) (ap_actions db) (ap_decisions db) (ap_events db) (ap_candidates db).

Definition set_tasks (q : queue_db) (t : gmap string TaskRow) : queue_db :=
  mkQueueDb (qd_ownership q) (qd_sessions q) t (qd_runs q) (qd_inputs q) (qd_next_sequence q)
    (qd_admissions q).
Definition set_queue_runs (q : queue_db) (t : gmap string RunRow) : queue_db :=
  mkQueueDb (qd_ownership q) (qd_sessions q) (qd_tasks q) t (qd_inputs q) (qd_next_sequence q)
    (qd_admissions q).

(** The Go struct [approval.Record]. *)
Record ApprovalRecord := mkApprovalRecord {
  ap_approval_id : string;
  ap_run_id : string;
  ap_session_key : string;
  ap_tool_call_id : string;
  ap_approval_type : string;
  ap_status : string;
  ap_requested_via : string;
  ap_resolved_via : string;
  ap_tool_name : string;
  ap_args_json : string;
  ap_payload_json : string;
  ap_risk_level : string;
  ap_summary : string;
  ap_details_json : string;
  ap_requested_at : Z;
  ap_resolved_at : option Z;
  ap_resolved_by : string;
  ap_resolution_reason : string;
  ap_expires_at : option Z;
  ap_updated_at : Z;
}.

(** [owneridentity.Actor] and [FromContext]. *)
Record Actor := mkActor {
  at_owner_id : string; at_channel : string; at_session_key : string; at_delivery_id : string }.

Definition ActorFromContext (a : option Actor) : option Actor :=
  match a with
  | Some a' =>
      if negb (bool_decide (at_owner_id a' = "")) && negb (bool_decide (at_delivery_id a' = ""))
         && bool_decide (at_channel a' ∈ ["web"; "telegram"]) then Some a' else None
  | None => None
  end.

(** What a call reads: the clock of the database, the execution, the claim
    and the faults ([ae_queue]), the clock of the process, the random bytes,
    the authenticated actor and whether the sweep calls. *)
Record approval_env := mkApprovalEnv {
  ae_queue : queue_env;
  ae_time : Z;
  ae_random : option string;
  ae_actor : option Actor;
  ae_review : bool;
}.

Definition ae_now (env : approval_env) : Z := qe_now (ae_queue env).
Definition ae_fault (env : approval_env) (n : nat) : option error := qe_fault (ae_queue env) n.

(** The context that [ownership.Begin] returns. *)
Definition with_ctx (env : approval_env) (ctx : go_context) : approval_env :=
  mkApprovalEnv (mkQueueEnv (qe_now (ae_queue env)) ctx (qe_claim (ae_queue env))
                   (qe_fence_fault (ae_queue env)) (qe_fault (ae_queue env)))
    (ae_time env) (ae_random env) (ae_actor env) (ae_review env).

(** A fenced call continues with the guarded context. *)
Definition ap_fenced {A} (env : approval_env) (db : approval_db)
    (k : approval_env -> approval_db * res A) : approval_db * res A :=
  match Begin (qd_ownership (ap_queue db)) (ae_now env) (qe_fence_fault (ae_queue env))
          (qe_ctx (ae_queue env)) with
  | Err e => (db, Err e)
  | Ok ctx => k (with_ctx env ctx)
  end.

Definition ap_tx {A} (db : approval_db) (work : approval_db * res A) : approval_db * res A :=
  match work with (db', Ok a) => (db', Ok a) | (_, Err e) => (db, Err e) end.

(** A step that fails ends the call; what it changed stays until the
    transaction ends. *)
Definition ap_bind {A B} (r : approval_db * res A) (k : approval_db -> A -> approval_db * res B) :
    approval_db * res B :=
  match r with (db, Ok a) => k db a | (db, Err e) => (db, Err e) end.

Notation "'do' db , x <-- r ;; k" := (ap_bind r (fun db x => k))
  (at level 60, db name, x name, r at next level, right associativity) : go_scope.

Definition ap_stmt {A} (env : approval_env) (n : nat) (db : approval_db)
    (k : approval_db * res A) : approval_db * res A :=
  match ae_fault env n with Some e => (db, Err e) | None => k end.

(** Instants of the process reach the database in whole microseconds. *)
Definition pg_time (t : Z) : Z := Truncate t microsecond.

(** [newApprovalID]. *)
Definition newApprovalID (env : approval_env) : string :=
  match ae_random env with
  | None => "approval-" +:+ pretty (wrap64 (ae_time env))
  | Some hex => "approval-" +:+ pretty (wrap64 (ae_time env)) +:+ "-" +:+ hex
  end.

(** ** Interfaces *)

(** The tables of the queue that a checkpoint hook leaves alone. *)
Definition queue_frame (q q' : queue_db) : Prop :=
  qd_ownership q' = qd_ownership q /\ qd_sessions q' = qd_sessions q
  /\ qd_tasks q' = qd_tasks q /\ qd_runs q' = qd_runs q.

(** [CheckpointHooks]: the operations, and what the approval transactions
    rely on. *)
Record CheckpointHooks := mkHooks {
  ch_suspend : queue_env -> string -> string -> string -> queue_db -> queue_db * res unit;
  ch_ready : queue_env -> string -> string -> queue_db -> queue_db * res unit;
  ch_suspend_frame : forall env run approval payload q,
    queue_frame q (ch_suspend env run approval payload q).1;
  ch_ready_frame : forall env run approval q, queue_frame q (ch_ready env run approval q).1;
}.

(** [Gate]: what the service calls when a decision is known. *)
Class GateOps (G : Type) := gate_resolve : string -> bool -> G -> G.

#[global] Instance ApprovalGate_ops : GateOps ApprovalGate :=
  fun id approved g => (Resolve id approved g).1.

Section approval.
Context (jsonb : string -> option jval) (json_text : jval -> string)
  (text_le : string -> string -> Prop) `{!RelDecision text_le}
  (marshal_binding marshal_details : ActionBinding -> string)
  (unmarshal_binding : jval -> option ActionBinding)
  (continuation_version : string -> option Z)
  (ArgumentsHash : string -> res string)
  (hooks : option CheckpointHooks).

(** ** The repository *)

(** [scanRecord]. *)
Definition scanRecord (id : string) (r : ApprovalRow) : ApprovalRecord :=
  mkApprovalRecord id (ar_run_id r) (ar_session_key r) (ar_tool_call_id r) (ar_approval_type r)
    (ar_status r) (ar_requested_via r) (default "" (ar_resolved_via r)) (ar_tool_name r)
    (json_text (ar_args_json r)) (json_text (ar_payload_json r)) (ar_risk_level r) (ar_summary r)
    (json_text (ar_details_json r)) (ar_requested_at r) (ar_resolved_at r) (ar_resolved_by r)
    (ar_resolution_reason r) (ar_expires_at r) (ar_updated_at r).

Record CreateParams := mkCreateParams {
  cp_approval_id : string;
  cp_run_id : string;
  cp_session_key : string;
  cp_tool_call_id : string;
  cp_approval_type : string;
  cp_requested_via : string;
  cp_tool_name : string;
  cp_args_json : string;
  cp_payload_json : string;
  cp_risk_level : string;
  cp_summary : string;
  cp_details_json : string;
  cp_expires_at : option Z;
  cp_requested_at : Z;
}.

Definition or_default (value fallback : string) : string :=
  if bool_decide (value = "") then fallback else value.

Definition or_now (t now : Z) : Z := if IsZero t then now else t.

Definition approval_statuses : list string :=
  ["pending"; "approved"; "rejected"; "expired"; "failed"].

(** The CHECK constraints of [approvals]. *)
Definition approval_checks (r : ApprovalRow) : bool :=
  bool_decide (ar_status r ∈ approval_statuses)
  && bool_decide (ar_requested_via r ∈ ["telegram"; "web"; "both"])
  && match ar_resolved_via r with
     | Some v => bool_decide (v ∈ ["telegram"; "web"; "system"])
     | None => true
     end
  && bool_decide (ar_risk_level r ∈ ["low"; "medium"; "high"])
  && bool_decide (ar_approval_type r ∈ ["tool_call"; "browser_tab_selection"]).

(** The unique index on the tool call of pending approvals. *)
Definition pending_call (db : approval_db) (call : string) : bool :=
  existsb (fun kr => bool_decide (ar_tool_call_id kr.2 = call)
                     && bool_decide (ar_status kr.2 = "pending"))
    (map_to_list (ap_approvals db)).

(** [GetApprovalByID]. *)
Definition GetApprovalByID (env : approval_env) (n : nat) (id : string) (db : approval_db) :
    res ApprovalRecord :=
  match ae_fault env n, ap_approvals db !! id with
  | Some e, _ => Err (ErrWrap "get approval by id: " e)
  | None, Some r => Ok (scanRecord id r)
  | None, None => Err ErrApprovalNotFound
  end.

Definition new_approval (env : approval_env) (p : CreateParams) (args payload details : jval) :
    ApprovalRow :=
  let at_ := pg_time (or_now (cp_requested_at p) (ae_time env)) in
  mkApprovalRow (cp_run_id p) (cp_session_key p) (cp_tool_call_id p)
    (or_default (cp_approval_type p) "tool_call") StatusPending
    (or_default (cp_requested_via p) "telegram") None (cp_tool_name p) args payload
    (or_default (cp_risk_level p) "medium") (cp_summary p) details at_ None "" ""
    (pg_time <$> cp_expires_at p) at_.

(** [CreateApproval]; [n] numbers its statement.  A known identifier returns
    the stored approval. *)
Definition CreateApproval (env : approval_env) (n : nat) (p : CreateParams) (db : approval_db) :
    approval_db * res ApprovalRecord :=
  let failed e := Err (ErrWrap "create approval: " e) in
  ap_fenced env db (fun env =>
    match ae_fault env n with
    | Some e => (db, failed e)
    | None =>
        match jsonb (or_default (cp_args_json p) "{}"), jsonb (or_default (cp_payload_json p) "{}"),
              jsonb (or_default (cp_details_json p) "{}") with
        | Some args, Some payload, Some details =>
            let row := new_approval env p args payload details in
            if negb (approval_checks row) then (db, failed err_check) else
            if bool_decide (is_Some (ap_approvals db !! cp_approval_id p))
            then (db, GetApprovalByID env (S n) (cp_approval_id p) db) else
            if pending_call db (cp_tool_call_id p) then (db, failed err_unique) else
            if negb (bool_decide (is_Some (qd_runs (ap_queue db) !! cp_run_id p)))
               || negb (bool_decide (is_Some (qd_sessions (ap_queue db) !! cp_session_key p)))
            then (db, failed err_foreign)
            else (set_approvals db (<[cp_approval_id p := row]> (ap_approvals db)),
                  Ok (scanRecord (cp_approval_id p) row))
        | _, _, _ => (db, failed err_json)
        end
    end).

(** [ORDER BY requested_at DESC LIMIT 1]. *)
Definition requested_later (a b : string * ApprovalRow) : Prop :=
  ar_requested_at b.2 <= ar_requested_at a.2.

#[global] Instance requested_later_dec : RelDecision requested_later.
Proof. intros a b. unfold requested_later. apply _. Defined.

(** [GetApprovalByToolCallID]. *)
Definition GetApprovalByToolCallID (env : approval_env) (n : nat) (call : string)
    (db : approval_db) : res ApprovalRecord :=
  match ae_fault env n with
  | Some e => Err (ErrWrap "get approval by tool_call_id: " e)
  | None =>
      match merge_sort requested_later
              (filter (fun kr => ar_tool_call_id kr.2 = call) (map_to_list (ap_approvals db))) with
      | (id, r) :: _ => Ok (scanRecord id r)
      | [] => Err ErrApprovalNotFound
      end
  end.

(** [GetApprovalByCandidateToken]. *)
Definition GetApprovalByCandidateToken (env : approval_env) (token : string) (db : approval_db) :
    res ApprovalRecord :=
  match ae_fault env 0 with
  | Some e => Err (ErrWrap "get approval by candidate token: " e)
  | None =>
      match (c ← ap_candidates db !! token; r ← ap_approvals db !! tc_approval_id c;
             Some (tc_approval_id c, r)) with
      | Some (id, r) => Ok (scanRecord id r)
      | None => Err ErrApprovalNotFound
      end
  end.

(** [ORDER BY requested_at DESC, approval_id DESC]. *)
Definition listed_before (a b : string * ApprovalRow) : Prop :=
  ar_requested_at b.2 < ar_requested_at a.2
  \/ ar_requested_at a.2 = ar_requested_at b.2 /\ text_le b.1 a.1.

#[global] Instance listed_before_dec : RelDecision listed_before.
Proof. intros a b. unfold listed_before. apply _. Defined.

(** [ListApprovals]. *)
Definition ListApprovals (env : approval_env) (status runID sessionKey : string)
    (limit offset : Z) (db : approval_db) : res (list ApprovalRecord) :=
  let limit := if Z.leb limit 0 then 50 else limit in
  let limit := if Z.ltb 200 limit then 200 else limit in
  let offset := if Z.ltb offset 0 then 0 else offset in
  match ae_fault env 0 with
  | Some e => Err (ErrWrap "list approvals: " e)
  | None =>
      let rows := merge_sort listed_before
        (filter (fun kr => (status = "" \/ ar_status kr.2 = status)
                           /\ (runID = "" \/ ar_run_id kr.2 = runID)
                           /\ (sessionKey = "" \/ ar_session_key kr.2 = sessionKey))
           (map_to_list (ap_approvals db))) in
      Ok ((fun kr => scanRecord kr.1 kr.2) <$> take (Z.to_nat limit) (drop (Z.to_nat offset) rows))
  end.

Record ResolveParams := mkResolveParams {
  rs_approval_id : string;
  rs_expected_status : string;
  rs_status : string;
  rs_resolved_via : string;
  rs_resolved_by : string;
  rs_resolution_reason : string;
  rs_resolved_at : Z;
}.

Definition resolved_row (env : approval_env) (p : ResolveParams) (r : ApprovalRow) : ApprovalRow :=
  let at_ := pg_time (or_now (rs_resolved_at p) (ae_time env)) in
  mkApprovalRow (ar_run_id r) (ar_session_key r) (ar_tool_call_id r) (ar_approval_type r)
    (rs_status p) (ar_requested_via r) (Some (rs_resolved_via p)) (ar_tool_name r)
    (ar_args_json r) (ar_payload_json r) (ar_risk_level r) (ar_summary r) (ar_details_json r)
    (ar_requested_at r) (Some at_) (rs_resolved_by p) (rs_resolution_reason p) (ar_expires_at r)
    at_.

(** [ResolveApproval]: compare-and-set on the status.  A row may become
    pending only if its call has no other pending approval. *)
Definition ResolveApproval (env : approval_env) (n : nat) (p : ResolveParams) (db : approval_db) :
    approval_db * res ApprovalRecord :=
  let failed e := Err (ErrWrap "resolve approval: " e) in
  let expected := or_default (rs_expected_status p) "pending" in
  let missed :=
    match GetApprovalByID env (S n) (rs_approval_id p) db with
    | Err e => Err e
    | Ok existing => if negb (bool_decide (ap_status existing = expected))
                     then Err ErrApprovalStatusConflict else Err ErrApprovalNotFound
    end in
  match ae_fault env n with
  | Some e => (db, failed e)
  | None =>
      match ap_approvals db !! rs_approval_id p with
      | None => (db, missed)
      | Some r =>
          if negb (bool_decide (ar_status r = expected)) then (db, missed) else
          let row := resolved_row env p r in
          if negb (approval_checks row) then (db, failed err_check) else
          if bool_decide (rs_status p = "pending") && negb (bool_decide (ar_status r = "pending"))
             && pending_call db (ar_tool_call_id r)
          then (db, failed err_unique)
          else (set_approvals db (<[rs_approval_id p := row]> (ap_approvals db)),
                Ok (scanRecord (rs_approval_id p) row))
      end
  end.

(** [InsertEvent]; the fields of [Event] it is given, [n] its statement. *)
Record EventParams := mkEventParams {
  ep_approval_id : string;
  ep_run_id : string;
  ep_session_key : string;
  ep_event_type : string;
  ep_status_before : string;
  ep_status_after : string;
  ep_actor_type : string;
  ep_actor_id : string;
  ep_reason : string;
  ep_metadata_json : string;
  ep_created_at : Z;
}.

Definition InsertEvent (env : approval_env) (n : nat) (e : EventParams) (db : approval_db) :
    approval_db * res unit :=
  let failed err := Err (ErrWrap "insert approval event: " err) in
  ap_fenced env db (fun env =>
    match ae_fault env n, jsonb (or_default (ep_metadata_json e) "{}") with
    | Some err, _ => (db, failed err)
    | None, None => (db, failed err_json)
    | None, Some meta =>
        if negb (bool_decide (ep_actor_type e ∈ ["system"; "telegram"; "web"; "operator"]))
        then (db, failed err_check) else
        if negb (bool_decide (is_Some (ap_approvals db !! ep_approval_id e)))
           || negb (bool_decide (is_Some (qd_runs (ap_queue db) !! ep_run_id e)))
           || negb (bool_decide (is_Some (qd_sessions (ap_queue db) !! ep_session_key e)))
        then (db, failed err_foreign)
        else
          (add_events db [fun id => mkApprovalEvent id (ep_approval_id e) (ep_run_id e)
             (ep_session_key e) (ep_event_type e) (nullString (ep_status_before e))
             (nullString (ep_status_after e)) (ep_actor_type e) (ep_actor_id e) (ep_reason e) meta
             (pg_time (or_now (ep_created_at e) (ae_time env)))], Ok tt)
    end).

(** ** Candidates of a tab selection *)

Record CreateTabCandidateParams := mkCandidateParams {
  ct_approval_id : string;
  ct_candidate_token : string;
  ct_internal_tab_ref : string;
  ct_title : string;
  ct_domain : string;
  ct_current_url : string;
  ct_favicon_url : string;
  ct_display_label : string;
  ct_status : string;
}.

Definition candidate_statuses : list string := ["available"; "selected"; "expired"; "cancelled"].

(** The unique index on the selected candidate of an approval. *)
Definition other_selected (db : approval_db) (approval token : string) : bool :=
  existsb (fun kr => bool_decide (tc_approval_id kr.2 = approval)
                     && bool_decide (tc_status kr.2 = "selected")
                     && negb (bool_decide (kr.1 = token)))
    (map_to_list (ap_candidates db)).

(** One INSERT of the batch; a known token is left as it is. *)
Definition insert_candidate (env : approval_env) (c : CreateTabCandidateParams)
    (db : approval_db) : approval_db * res unit :=
  let status := or_default (ct_status c) "available" in
  if bool_decide (ct_internal_tab_ref c = "")
  then (db, Err (Errorf "null value in column internal_tab_ref violates not-null constraint")) else
  if negb (bool_decide (status ∈ candidate_statuses)) then (db, Err err_check) else
  if bool_decide (is_Some (ap_candidates db !! ct_candidate_token c)) then (db, Ok tt) else
  if bool_decide (status = "selected")
     && other_selected db (ct_approval_id c) (ct_candidate_token c)
  then (db, Err err_unique) else
  if negb (bool_decide (is_Some (ap_approvals db !! ct_approval_id c)))
  then (db, Err err_foreign)
  else (set_candidates db (<[ct_candidate_token c :=
          mkTabCandidate (ct_approval_id c) (ct_internal_tab_ref c) (ct_title c) (ct_domain c)
            (ct_current_url c) (ct_favicon_url c) (ct_display_label c) status (ae_now env) None]>
          (ap_candidates db)), Ok tt).

Fixpoint insert_candidates (env : approval_env) (l : list CreateTabCandidateParams)
    (db : approval_db) : approval_db * res unit :=
  match l with
  | [] => (db, Ok tt)
  | c :: rest => do db', u <-- insert_candidate env c db ;; insert_candidates env rest db'
  end.

(** [CreateTabCandidates]: the batch is one implicit transaction. *)
Definition CreateTabCandidates (env : approval_env) (n : nat)
    (l : list CreateTabCandidateParams) (db : approval_db) : approval_db * res unit :=
  match l with
  | [] => (db, Ok tt)
  | _ =>
      match ae_fault env n with
      | Some e => (db, Err (ErrWrap "create approval tab candidates: " e))
      | None =>
          match insert_candidates env l db with
          | (db', Ok _) => (db', Ok tt)
          | (_, Err e) => (db, Err (ErrWrap "create approval tab candidates: " e))
          end
      end
  end.

(** [ORDER BY created_at ASC, candidate_token ASC]. *)
Definition candidate_before (a b : string * TabCandidate) : Prop :=
  tc_created_at a.2 < tc_created_at b.2
  \/ tc_created_at a.2 = tc_created_at b.2 /\ text_le a.1 b.1.

#[global] Instance candidate_before_dec : RelDecision candidate_before.
Proof. intros a b. unfold candidate_before. apply _. Defined.

(** [ListTabCandidates], with the tokens. *)
Definition ListTabCandidates (env : approval_env) (approval : string) (db : approval_db) :
    res (list (string * TabCandidate)) :=
  match ae_fault env 0 with
  | Some e => Err (ErrWrap "list approval tab candidates: " e)
  | None => Ok (merge_sort candidate_before
                  (filter (fun kr => tc_approval_id kr.2 = approval)
                     (map_to_list (ap_candidates db))))
  end.

(** [GetTabCandidateByToken]. *)
Definition GetTabCandidateByToken (env : approval_env) (token : string) (db : approval_db) :
    res TabCandidate :=
  match ae_fault env 0, ap_candidates db !! token with
  | Some e, _ => Err (ErrWrap "get approval tab candidate by token: " e)
  | None, Some c => Ok c
  | None, None => Err ErrTabCandidateNotFound
  end.

Definition with_candidate_status (status : string) (at_ : option Z) (c : TabCandidate) :
    TabCandidate :=
  mkTabCandidate (tc_approval_id c) (tc_internal_tab_ref c) (tc_title c) (tc_domain c)
    (tc_current_url c) (tc_favicon_url c) (tc_display_label c) status (tc_created_at c)
    (match at_ with Some t => Some t | None => tc_selected_at c end).

(** The first UPDATE of [SelectTabCandidate]. *)
Definition cancel_others (approval token : string) (db : approval_db) : approval_db :=
  set_candidates db (map_imap (fun t c => Some
    (if bool_decide (tc_approval_id c = approval) && negb (bool_decide (t = token))
        && bool_decide (tc_status c = "available")
     then with_candidate_status "cancelled" None c else c)) (ap_candidates db)).

(** [SelectTabCandidate]; the statements are the begin, the two updates and
    the commit. *)
Definition SelectTabCandidate (env : approval_env) (approval token : string) (selectedAt : Z)
    (db : approval_db) : approval_db * res TabCandidate :=
  let at_ := pg_time (or_now selectedAt (ae_time env)) in
  match ae_fault env 0, ae_fault env 1 with
  | Some e, _ => (db, Err (ErrWrap "begin approval tab selection tx: " e))
  | None, Some e => (db, Err (ErrWrap "cancel other approval tab candidates: " e))
  | None, None =>
      let db1 := cancel_others approval token db in
      let failed e := (db, Err (ErrWrap "select approval tab candidate: " e)) in
      match ae_fault env 2, ap_candidates db1 !! token with
      | Some e, _ => failed e
      | None, None => (db, Err ErrTabCandidateNotFound)
      | None, Some c =>
          if negb (bool_decide (tc_approval_id c = approval)
                   && bool_decide (tc_status c ∈ ["available"; "selected"]))
          then (db, Err ErrTabCandidateNotFound) else
          if other_selected db1 approval token then failed err_unique else
          match ae_fault env 3 with
          | Some e => (db, Err (ErrWrap "commit approval tab selection tx: " e))
          | None =>
              let c' := with_candidate_status "selected" (Some at_) c in
              (set_candidates db1 (<[token := c']> (ap_candidates db1)), Ok c')
          end
      end
  end.

(** ** Exact actions *)

Record CreatePendingParams := mkPendingParams {
  pp_action_binding : ActionBinding;
  pp_continuation_json : string;
  pp_run_id : string;
  pp_session_key : string;
  pp_tool_call_id : string;
  pp_approval_type : string;
  pp_requested_via : string;
  pp_tool_name : string;
  pp_args_json : string;
  pp_payload_json : string;
  pp_risk_level : string;
  pp_summary : string;
  pp_details_json : string;
  pp_tab_candidates : list CreateTabCandidateParams;
  pp_requested_at : Z;
  pp_expires_at : option Z;
}.

(** The checks of [CreateDurable] before its transaction. *)
Definition durable_request_error (env : approval_env) (p : CreatePendingParams) : option error :=
  let b := pp_action_binding p in
  if negb (match ArgumentsHash (pp_args_json p) with
           | Ok h => bool_decide (h = ab_args_hash b) | Err _ => false end)
  then Some ErrActionInvalid
  else if bool_decide (ab_action_id b = "") || bool_decide (ab_action_hash b = "")
          || negb (bool_decide (ab_run_id b = pp_run_id p))
          || negb (bool_decide (ab_tool_call_id b = pp_tool_call_id p))
          || negb (bool_decide (ab_tool_name b = pp_tool_name p))
          || bool_decide (ab_owner_id b = "") || bool_decide (ab_args_hash b = "")
          || negb (bool_decide (is_Some hooks))
  then Some (Errorf "exact durable action and checkpoint hooks required")
  else if Z.ltb (1024 * 1024) (go_len (pp_continuation_json p))
          || negb (bool_decide (continuation_version (pp_continuation_json p) = Some 1))
  then Some (Errorf "version 1 data-only continuation required")
  else match pp_expires_at p with
       | Some t => if Z.ltb (ae_time env) t then None else Some ErrActionInvalid
       | None => Some ErrActionInvalid
       end.

(** The run and its task are the ones the action names, and current. *)
Definition durable_run_error (p : CreatePendingParams) (db : approval_db) : option error :=
  let b := pp_action_binding p in
  let q := ap_queue db in
  match (r ← qd_runs q !! pp_run_id p;
         if bool_decide (rr_session_key r = pp_session_key p) then
           owner ← qd_sessions q !! rr_session_key r; Some (r, owner) else None) with
  | None => Some ErrNoRows
  | Some (r, owner) =>
      if negb (bool_decide (owner = ab_owner_id b))
         || negb (bool_decide (rr_current_state r = "tool_pending"))
         || negb (bool_decide (default "" (rr_task_id r) = ab_task_id b))
         || negb (Z.eqb (default 0 (rr_task_revision r)) (ab_task_revision b))
      then Some ErrActionInvalid
      else if bool_decide (ab_task_id b = "") then None
      else match qd_tasks q !! ab_task_id b with
           | None => Some ErrActionInvalid
           | Some t =>
               if negb (Z.eqb (tk_revision t) (ab_task_revision b))
                  || negb (Z.eqb (tk_constraints_revision t) (ab_constraints_revision b))
                  || negb (bool_decide (tk_status t = "active"))
               then Some ErrActionInvalid else None
           end
  end.

Definition action_id_used (db : approval_db) (action : string) : bool :=
  existsb (fun kr => bool_decide (ac_action_id kr.2 = action)) (map_to_list (ap_actions db)).

(** [INSERT INTO approval_actions]. *)
Definition insert_action (env : approval_env) (n : nat) (approval : string)
    (p : CreatePendingParams) (db : approval_db) : approval_db * res unit :=
  let b := pp_action_binding p in
  ap_stmt env n db
    match jsonb (marshal_binding b), jsonb (pp_continuation_json p) with
    | Some binding, Some continuation =>
        if negb (bool_decide (pp_requested_via p ∈ ["web"; "telegram"])) then (db, Err err_check) else
        if bool_decide (is_Some (ap_actions db !! approval)) || action_id_used db (ab_action_id b)
        then (db, Err err_unique) else
        if negb (bool_decide (is_Some (ap_approvals db !! approval)))
           || negb (bool_decide (ab_task_id b = ""))
              && negb (bool_decide (is_Some (qd_tasks (ap_queue db) !! ab_task_id b)))
        then (db, Err err_foreign)
        else (set_actions db (<[approval :=
                mkActionRow (ab_action_id b) (ab_action_hash b) (nullString (ab_task_id b))
                  (ab_task_revision b) (ab_constraints_revision b) (ab_owner_id b)
                  (pp_requested_via p) binding continuation "waiting" None (ae_now env)]>
                (ap_actions db)), Ok tt)
    | _, _ => (db, Err err_json)
    end.

(** [UPDATE runs SET status=s, current_state=s]. *)
Definition set_run_state (env : approval_env) (n : nat) (run_id state : string)
    (db : approval_db) : approval_db * res unit :=
  ap_stmt env n db
    (let q := ap_queue db in
     (set_queue db (set_queue_runs q (alter (move_row state None None None (ae_now env)) run_id
                                        (qd_runs q))), Ok tt)).

Definition task_with (status : string) (working : jval) (revision now : Z) (t : TaskRow) :
    TaskRow :=
  mkTaskRow (tk_session_key t) (tk_owner_id t) status (tk_revision t) (tk_constraints_revision t)
    working revision now.

(** [UPDATE tasks SET status='waiting_for_user'], for an action of a task. *)
Definition wait_task (env : approval_env) (n : nat) (task : string) (db : approval_db) :
    approval_db * res unit :=
  if bool_decide (task = "") then (db, Ok tt) else
  ap_stmt env n db
    (let q := ap_queue db in
     (set_queue db (set_tasks q (alter (fun t => task_with "waiting_for_user" (tk_working_json t)
                                   (tk_working_revision t) (ae_now env) t) task (qd_tasks q))),
      Ok tt)).

(** A hook of the checkpoints inside the transaction. *)
Definition run_hook (f : queue_db -> queue_db * res unit) (db : approval_db) :
    approval_db * res unit :=
  let '(q, r) := f (ap_queue db) in (set_queue db q, r).

Definition suspend_hook (env : approval_env) (run approval payload : string) :
    queue_db -> queue_db * res unit :=
  match hooks with
  | Some h => ch_suspend h (ae_queue env) run approval payload
  | None => fun q => (q, Err (Errorf "nil pointer dereference"))
  end.

Definition ready_hook (env : approval_env) (run approval : string) :
    queue_db -> queue_db * res unit :=
  match hooks with
  | Some h => ch_ready h (ae_queue env) run approval
  | None => fun q => (q, Err (Errorf "nil pointer dereference"))
  end.

(** A JSON text between quotes, for values without special characters. *)
Definition quoted (s : string) : string := String quote_char (s +:+ String quote_char "").

(** [INSERT INTO run_state_transitions]. *)
Definition insert_transition (env : approval_env) (n : nat) (run approval : string)
    (db : approval_db) : approval_db * res unit :=
  ap_stmt env n db
    (add_transition db (log_entry run "tool_pending" "awaiting_approval" "orchestrator"
       (MetaText ("{" +:+ quoted "approval_id" +:+ ":" +:+ quoted approval +:+ ","
                  +:+ quoted "durable" +:+ ":true}")) (ae_now env)), Ok tt).

(** [CreateDurable]. *)
Definition CreateDurable (env : approval_env) (p : CreatePendingParams) (db : approval_db) :
    approval_db * res ApprovalRecord :=
  let b := pp_action_binding p in
  ap_fenced env db (fun env =>
    match durable_request_error env p with
    | Some e => (db, Err e)
    | None => ap_tx db (
        do db, _ <-- ap_stmt env 0 db (db, Ok tt) ;;
        do db, _ <-- ap_stmt env 1 db (match durable_run_error p db with
                                       | Some e => (db, Err e) | None => (db, Ok tt) end) ;;
        do db, record <-- CreateApproval env 2
          (mkCreateParams (newApprovalID env) (pp_run_id p) (pp_session_key p) (pp_tool_call_id p)
             "tool_call" (pp_requested_via p) (pp_tool_name p) (pp_args_json p) (pp_payload_json p)
             (pp_risk_level p) (pp_summary p) (marshal_details b) (pp_expires_at p)
             (pp_requested_at p)) db ;;
        do db, _ <-- insert_action env 4 (ap_approval_id record) p db ;;
        do db, _ <-- set_run_state env 5 (pp_run_id p) "awaiting_approval" db ;;
        do db, _ <-- wait_task env 6 (ab_task_id b) db ;;
        do db, _ <-- run_hook (suspend_hook env (pp_run_id p) (ap_approval_id record)
                                 (pp_continuation_json p)) db ;;
        do db, _ <-- InsertEvent env 7
          (mkEventParams (ap_approval_id record) (pp_run_id p) (pp_session_key p)
             "approval_requested" "" "pending" "system" "orchestrator"
             "durable exact action prepared; execution suspended"
             ("{" +:+ quoted "continuation_version" +:+ ":1}") zero_time) db ;;
        do db, _ <-- insert_transition env 8 (pp_run_id p) (ap_approval_id record) db ;;
        ap_stmt env 9 db (db, Ok record))
    end).

(** [actionauth.ApprovalSnapshot]. *)
Record ApprovalSnapshot := mkSnapshot {
  sn_approval_id : string;
  sn_status : string;
  sn_binding : ActionBinding;
  sn_expires_at : Z;
  sn_resolved_at : Z;
  sn_resolved_via : string;
}.

(** What the query of [verifyAction] reads beside the approval itself. *)
Record action_context := mkActionContext {
  cx_approval : ApprovalRow;
  cx_action : ActionRow;
  cx_run : RunRow;
  cx_owner : string;
  cx_task : option TaskRow;
}.

Definition load_context (db : approval_db) (id : string) : option action_context :=
  a ← ap_approvals db !! id;
  d ← ap_actions db !! id;
  r ← qd_runs (ap_queue db) !! ar_run_id a;
  owner ← qd_sessions (ap_queue db) !! ar_session_key a;
  Some (mkActionContext a d r owner (t ← rr_task_id r; qd_tasks (ap_queue db) !! t)).

Definition run_over (state : string) : bool :=
  bool_decide (state ∈ ["cancelled"; "completed"; "failed"; "timed_out"]).

(** The owner, the task and its revisions are still those of the action. *)
Definition binding_current (b : ActionBinding) (cx : action_context) : bool :=
  bool_decide (cx_owner cx = ab_owner_id b)
  && bool_decide (default "" (rr_task_id (cx_run cx)) = ab_task_id b)
  && Z.eqb (default 0 (rr_task_revision (cx_run cx))) (ab_task_revision b)
  && (bool_decide (ab_task_id b = "")
      || Z.eqb (from_option tk_revision 0 (cx_task cx)) (ab_task_revision b)
         && Z.eqb (from_option tk_constraints_revision 0 (cx_task cx)) (ab_constraints_revision b)
         && bool_decide (from_option tk_status "" (cx_task cx) ∈ ["active"; "waiting_for_user"]))
  && negb (run_over (rr_current_state (cx_run cx))).

(** [verifyAction]; [n] numbers its query. *)
Definition verifyAction (env : approval_env) (n : nat) (id : string) (request : ActionBinding)
    (db : approval_db) : res ApprovalSnapshot :=
  match ae_fault env n, load_context db id with
  | None, Some cx =>
      match ar_expires_at (cx_approval cx), unmarshal_binding (ac_binding_json (cx_action cx)) with
      | Some expires, Some b =>
          if bool_decide (b = request) && Z.ltb (ae_now env) expires && binding_current b cx
          then Ok (mkSnapshot id (ar_status (cx_approval cx)) b expires
                     (default (ar_requested_at (cx_approval cx)) (ar_resolved_at (cx_approval cx)))
                     (default "" (ar_resolved_via (cx_approval cx))))
          else Err ErrActionInvalid
      | _, _ => Err ErrActionInvalid
      end
  | _, _ => Err ErrActionInvalid
  end.

(** Who may decide: the owner, on the channel asked (and in the same chat), or
    the sweep, which may only refuse. *)
Definition actor_authorized (env : approval_env) (actor : Actor) (approved : bool)
    (d : ActionRow) (session : string) : bool :=
  bool_decide (at_owner_id actor = ac_owner_id d)
  && (if ae_review env then negb approved
      else bool_decide (at_channel actor = ac_channel d)
           && (negb (bool_decide (ac_channel d = "telegram"))
               || bool_decide (at_session_key actor = session))).

(** The status a decision gets, and its reason. *)
Definition decided_status (approved verified awaiting : bool) (reason : string) :
    string * string :=
  if negb awaiting then (StatusExpired, "run no longer awaits this action")
  else if negb verified
  then (StatusExpired, "action/task revision changed, cancelled or approval expired")
  else (if approved then StatusApproved else StatusRejected, reason).

(** [INSERT INTO approval_decision_inputs ... ON CONFLICT(source,delivery_id)
    DO NOTHING]: whether a row was inserted. *)
Definition insert_decision (env : approval_env) (n : nat) (id approval : string) (actor : Actor)
    (approved : bool) (db : approval_db) : approval_db * res bool :=
  ap_stmt env n db
    (let key := (at_channel actor, at_delivery_id actor) in
     if bool_decide (is_Some (ap_decisions db !! key)) then (db, Ok false) else
     if existsb (fun kr => bool_decide (di_decision_input_id kr.2 = id))
          (map_to_list (ap_decisions db))
     then (db, Err err_unique)
     else (set_decisions db (<[key := mkDecisionInput id approval (at_owner_id actor) approved
                                        (ae_now env)]> (ap_decisions db)), Ok true)).

(** The decision this delivery carried before must be the same one. *)
Definition repeated_decision (env : approval_env) (n : nat) (approval : string) (actor : Actor)
    (approved : bool) (db : approval_db) : res unit :=
  match ae_fault env n, ap_decisions db !! (at_channel actor, at_delivery_id actor) with
  | Some e, _ => Err e
  | None, None => Err ErrNoRows
  | None, Some d =>
      if negb (bool_decide (di_approval_id d = approval))
         || negb (bool_decide (di_owner_id d = at_owner_id actor))
         || negb (Bool.eqb (di_approved d) approved)
      then Err (Errorf "decision delivery identity conflicts with accepted decision")
      else Ok tt
  end.

Definition with_action_state (state : string) (decision : option string) (now : Z)
    (d : ActionRow) : ActionRow :=
  mkActionRow (ac_action_id d) (ac_action_hash d) (ac_task_id d) (ac_task_revision d)
    (ac_constraints_revision d) (ac_owner_id d) (ac_channel d) (ac_binding_json d)
    (ac_continuation_json d) state
    (match decision with Some i => Some i | None => ac_decision_input_id d end) now.

(** [UPDATE tasks] of a decision: active again, or blocked with the reason in
    the working notes. *)
Definition settle_task (env : approval_env) (n : nat) (task status : string) (revision : Z)
    (db : approval_db) : approval_db * res unit :=
  if bool_decide (task = "") then (db, Ok tt) else
  ap_stmt env n db
    (let q := ap_queue db in
     match qd_tasks q !! task with
     | None => (db, Ok tt)
     | Some t =>
         if negb (Z.eqb (tk_revision t) revision
                  && bool_decide (tk_status t = "waiting_for_user")) then (db, Ok tt) else
         if bool_decide (status = StatusApproved)
         then (set_queue db (set_tasks q (<[task := task_with "active" (tk_working_json t)
                                (tk_working_revision t) (ae_now env) t]> (qd_tasks q))), Ok tt)
         else
           let scratch := default (JObject []) (jsonb_get (Some (tk_working_json t)) "scratch") in
           match jsonb_set "scratch" (jsonb_concat scratch
                   (JObject [("block_reason", JString ("approval_" +:+ status))]))
                   (tk_working_json t) with
           | Err e => (db, Err e)
           | Ok working =>
               (set_queue db (set_tasks q (<[task := task_with "blocked" working
                                (tk_working_revision t + 1) (ae_now env) t]> (qd_tasks q))), Ok tt)
           end
     end).

(** The rest of [ResolveDurable], once a decision is recorded. *)
Definition apply_decision (env : approval_env) (record : ApprovalRecord) (actor : Actor)
    (d : ActionRow) (b : ActionBinding) (decision : string) (outcome : string * string)
    (db : approval_db) : approval_db * res (ApprovalRecord * bool) :=
  let '(status, reason) := outcome in
  do db, updated <-- ResolveApproval env 6
    (mkResolveParams (ap_approval_id record) "" status (at_channel actor) (at_owner_id actor)
       reason (ae_time env)) db ;;
  do db, _ <-- ap_stmt env 8 db
    (set_actions db (alter (with_action_state
       (if bool_decide (status = StatusApproved) then "ready" else "blocked") (Some decision)
       (ae_now env)) (ap_approval_id record) (ap_actions db)), Ok tt) ;;
  do db, _ <-- settle_task env 9 (default "" (ac_task_id d)) status (ab_task_revision b) db ;;
  do db, _ <-- run_hook (ready_hook env (ap_run_id record) (ap_approval_id record)) db ;;
  do db, _ <-- InsertEvent env 10
    (mkEventParams (ap_approval_id record) (ap_run_id record) (ap_session_key record)
       "approval_resolved" "pending" status (at_channel actor) (at_owner_id actor) reason
       ("{" +:+ quoted "durable_decision" +:+ ":true}") zero_time) db ;;
  ap_stmt env 11 db (db, Ok (updated, true)).

(** [ResolveDurable]. *)
Definition ResolveDurable (env : approval_env) (record : ApprovalRecord) (approved : bool)
    (actor : Actor) (reason : string) (db : approval_db) :
    approval_db * res (ApprovalRecord * bool) :=
  let id := ap_approval_id record in
  if bool_decide (at_owner_id actor = "") || bool_decide (at_channel actor = "")
     || bool_decide (at_delivery_id actor = "") then (db, Err ErrUnauthorized) else
  ap_tx db (
    do db, _ <-- ap_stmt env 0 db (db, Ok tt) ;;
    do db, _ <-- ap_stmt env 1 db (db, Ok tt) ;;
    match (a ← ap_approvals db !! id; d ← ap_actions db !! id;
           r ← qd_runs (ap_queue db) !! ar_run_id a; Some (a, d, r)) with
    | None => (db, Err ErrApprovalNotFound)
    | Some (a, d, r) =>
        if negb (actor_authorized env actor approved d (ar_session_key a))
        then (db, Err ErrUnauthorized) else
        match GetApprovalByID env 2 id db with
        | Err e => (db, Err e)
        | Ok current =>
            if negb (bool_decide (ap_status current = "pending")) then (db, Ok (current, false)) else
            match unmarshal_binding (ac_binding_json d) with
            | None => (db, Err ErrActionInvalid)
            | Some b =>
                let verified := is_ok (verifyAction env 3 id b db) in
                if ae_review env && verified then (db, Ok (current, false)) else
                let outcome := decided_status approved verified
                  (bool_decide (rr_current_state r = "awaiting_approval")) reason in
                do db, inserted <-- insert_decision env 4 (newApprovalID env) id actor approved db ;;
                if inserted
                then apply_decision env record actor d b (newApprovalID env) outcome db
                else match repeated_decision env 5 id actor approved db with
                     | Err e => (db, Err e)
                     | Ok _ => (db, Ok (current, false))
                     end
            end
        end
    end).

(** [HasDurableAction]. *)
Definition HasDurableAction (env : approval_env) (n : nat) (id : string) (db : approval_db) :
    res bool :=
  match ae_fault env n with
  | Some e => Err e
  | None => Ok (bool_decide (is_Some (ap_actions db !! id)))
  end.

(** [MarkActionCheckpoint]. *)
Definition MarkActionCheckpoint (env : approval_env) (run_id call state : string)
    (db : approval_db) : approval_db * res unit :=
  if negb (bool_decide (state ∈ ["dispatching"; "completed"; "blocked"]))
  then (db, Err (Errorf "unsupported continuation state")) else
  ap_fenced env db (fun env => ap_stmt env 0 db
    (set_actions db (map_imap (fun id d => Some
       match ap_approvals db !! id with
       | Some a =>
           if bool_decide (ar_run_id a = run_id) && bool_decide (ar_tool_call_id a = call)
              && bool_decide (ar_status a = "approved")
              && bool_decide (ac_state d ∈ ["ready"; "dispatching"])
           then with_action_state state None (ae_now env) d else d
       | None => d
       end) (ap_actions db)), Ok tt)).

(** [LoadContinuationByRun]. *)
Definition LoadContinuationByRun (env : approval_env) (run_id : string) (db : approval_db) :
    res (ApprovalRecord * string) :=
  match ae_fault env 0 with
  | Some e => Err e
  | None =>
      match merge_sort requested_later
              (filter (fun kr => ar_run_id kr.2 = run_id /\ is_Some (ap_actions db !! kr.1))
                 (map_to_list (ap_approvals db))) with
      | [] => Err ErrNoRows
      | (id, _) :: _ =>
          record <-! GetApprovalByID env 1 id db ;;
          Ok (record, from_option (fun d => json_text (ac_continuation_json d)) ""
                        (ap_actions db !! id))
      end
  end.

(** [ORDER BY requested_at]. *)
Definition requested_first (a b : string * ApprovalRow) : Prop :=
  ar_requested_at a.2 <= ar_requested_at b.2.

#[global] Instance requested_first_dec : RelDecision requested_first.
Proof. intros a b. unfold requested_first. apply _. Defined.

(** The condition of the sweep. *)
Definition sweep_due (now : Z) (db : approval_db) (id : string) (a : ApprovalRow) : bool :=
  match ap_actions db !! id, qd_runs (ap_queue db) !! ar_run_id a with
  | Some d, Some r =>
      bool_decide (ar_status a = "pending")
      && (match ar_expires_at a with Some t => Z.leb t now | None => false end
          || negb (bool_decide (rr_current_state r = "awaiting_approval"))
          || match (t ← ac_task_id d; qd_tasks (ap_queue db) !! t) with
             | Some t => negb (Z.eqb (tk_revision t) (ac_task_revision d))
                         || negb (Z.eqb (tk_constraints_revision t) (ac_constraints_revision d))
                         || negb (bool_decide (tk_status t ∈ ["active"; "waiting_for_user"]))
             | None => false
             end)
  | _, _ => false
  end.

Definition sweep_list (now : Z) (db : approval_db) : list (string * ApprovalRow) :=
  take 100 (merge_sort requested_first
    (filter (fun kr => sweep_due now db kr.1 kr.2 = true) (map_to_list (ap_approvals db)))).

(** One due approval: it is read again and resolved by the sweep's authority. *)
Definition sweep_one (env : approval_env) (id owner : string) (db : approval_db) :
    approval_db * res unit :=
  match GetApprovalByID env 12 id db with
  | Err e => (db, Err e)
  | Ok record =>
      do db, _ <-- ResolveDurable
        (mkApprovalEnv (ae_queue env) (ae_time env) (ae_random env) (ae_actor env) true) record
        false (mkActor owner "system" "" ("invalid-approval:" +:+ id))
        "approval expired or intended task changed" db ;;
      (db, Ok tt)
  end.

(** The loop of [ExpireInvalidPending]; every round has its own clock, random
    bytes and faults. *)
Fixpoint sweep_loop (envs : nat -> approval_env) (n : nat) (due : list (string * string))
    (db : approval_db) : approval_db * res unit :=
  match due with
  | [] => (db, Ok tt)
  | (id, owner) :: rest =>
      do db, _ <-- sweep_one (envs n) id owner db ;; sweep_loop envs (S n) rest db
  end.

(** [ExpireInvalidPending]. *)
Definition ExpireInvalidPending (env : approval_env) (envs : nat -> approval_env)
    (db : approval_db) : approval_db * res unit :=
  ap_stmt env 0 db
    (sweep_loop envs 0
       (omap (fun kr => d ← ap_actions db !! kr.1; Some (kr.1, ac_owner_id d))
          (sweep_list (ae_now env) db)) db).

(** ** Owner controls *)

Definition of_run_tasks (db : approval_db) (tasks : list string) (run : string) : bool :=
  match (r ← qd_runs (ap_queue db) !! run; rr_task_id r) with
  | Some t => bool_decide (t ∈ tasks)
  | None => false
  end.

Definition expire_row (now : Z) (a : ApprovalRow) : ApprovalRow :=
  mkApprovalRow (ar_run_id a) (ar_session_key a) (ar_tool_call_id a) (ar_approval_type a)
    StatusExpired (ar_requested_via a) (Some "system") (ar_tool_name a) (ar_args_json a)
    (ar_payload_json a) (ar_risk_level a) (ar_summary a) (ar_details_json a) (ar_requested_at a)
    (Some now) (ar_resolved_by a) "task changed by owner" (ar_expires_at a) now.

(** [InvalidateForControlTx]: pending approvals of the tasks expire, each with
    an event, and their actions that are not under way are blocked. *)
Definition InvalidateForControlTx (env : approval_env) (tasks : list string)
    (control owner : string) (db : approval_db) : approval_db * res unit :=
  let now := ae_now env in
  let hit a := of_run_tasks db tasks (ar_run_id a) && bool_decide (ar_status a = "pending") in
  ap_stmt env 0 db (
    let db1 := add_events
      (set_approvals db (map_imap (fun _ a => Some (if hit a then expire_row now a else a))
                           (ap_approvals db)))
      ((fun kr id => mkApprovalEvent id kr.1 (ar_run_id kr.2) (ar_session_key kr.2)
          "owner_control" (Some "pending") (Some "expired") "operator" owner
          "task changed by owner" (JObject [("control_id", JString control)]) now)
       <$> filter (fun kr => hit kr.2 = true) (map_to_list (ap_approvals db))) in
    ap_stmt env 1 db1
      (set_actions db1 (map_imap (fun id d => Some
         match ap_approvals db1 !! id with
         | Some a =>
             if of_run_tasks db1 tasks (ar_run_id a)
                && bool_decide (ac_state d ∈ ["waiting"; "ready"])
             then with_action_state "blocked" None now d else d
         | None => d
         end) (ap_actions db1)), Ok tt)).

(** ** The service *)

Definition pending_params (env : approval_env) (p : CreatePendingParams) : CreateParams :=
  mkCreateParams (newApprovalID env) (pp_run_id p) (pp_session_key p) (pp_tool_call_id p)
    (if bool_decide (TrimSpace (pp_approval_type p) = "") then "tool_call" else pp_approval_type p)
    (if bool_decide (TrimSpace (pp_requested_via p) = "") then "telegram" else pp_requested_via p)
    (pp_tool_name p) (pp_args_json p)
    (if bool_decide (TrimSpace (pp_payload_json p) = "") then "{}" else pp_payload_json p)
    (pp_risk_level p) (pp_summary p) (pp_details_json p) (pp_expires_at p)
    (or_now (pp_requested_at p) (ae_time env)).

Definition pending_request_error (env : approval_env) (p : CreatePendingParams) : option error :=
  if bool_decide (TrimSpace (pp_run_id p) = "") || bool_decide (TrimSpace (pp_session_key p) = "")
     || bool_decide (TrimSpace (pp_tool_call_id p) = "")
  then Some (Errorf "run_id, session_key and tool_call_id are required")
  else if bool_decide (TrimSpace (pp_tool_name p) = "") then Some (Errorf "tool_name is required")
  else if bool_decide (cp_approval_type (pending_params env p) = "browser_tab_selection")
          && bool_decide (pp_tab_candidates p = [])
  then Some (Errorf "browser_tab_selection approvals require at least one tab candidate")
  else None.

Definition for_approval (id : string) (c : CreateTabCandidateParams) : CreateTabCandidateParams :=
  mkCandidateParams id (ct_candidate_token c) (ct_internal_tab_ref c) (ct_title c) (ct_domain c)
    (ct_current_url c) (ct_favicon_url c) (ct_display_label c) (ct_status c).

(** [CreatePendingApproval]: an exact action goes to [CreateDurable]; the
    statements of the other requests are not one transaction, and a failure
    of the event is ignored. *)
Definition CreatePendingApproval (env : approval_env) (p : CreatePendingParams)
    (db : approval_db) : approval_db * res ApprovalRecord :=
  if negb (bool_decide (ab_action_id (pp_action_binding p) = "")) then CreateDurable env p db else
  match pending_request_error env p with
  | Some e => (db, Err e)
  | None =>
      do db, record <-- CreateApproval env 0 (pending_params env p) db ;;
      do db, _ <-- CreateTabCandidates env 2
                     (for_approval (ap_approval_id record) <$> pp_tab_candidates p) db ;;
      let event := mkEventParams (ap_approval_id record) (ap_run_id record)
        (ap_session_key record) "approval_requested" "" "pending" "system" "orchestrator"
        "approval required before tool execution"
        ("{" +:+ quoted "phase" +:+ ":" +:+ quoted "pre_wait" +:+ "," +:+ quoted "approval_type"
         +:+ ":" +:+ quoted (ap_approval_type record) +:+ "}")
        (or_now (pp_requested_at p) (ae_time env)) in
      ((InsertEvent env 3 event db).1, Ok record)
  end.

(** A decision as the channels report it. *)
Record Decision := mkDecision {
  de_approved : bool;
  de_resolved_via : string;
  de_resolved_by : string;
  de_resolution_reason : string;
  de_resolved_at : Z;
  de_actor_type : string;
  de_actor_id : string;
}.

Definition normalized_decision (env : approval_env) (d : Decision) : Decision :=
  mkDecision (de_approved d) (or_default (TrimSpace (de_resolved_via d)) "system")
    (de_resolved_by d) (de_resolution_reason d) (or_now (de_resolved_at d) (ae_time env))
    (or_default (TrimSpace (de_actor_type d)) "system") (de_actor_id d).

Section service.
Context {G : Type} {ops : GateOps G}.

Definition tell_gate (call : string) (approved : bool) (gate : option G) : option G :=
  gate_resolve call approved <$> gate.

Definition approved_status (r : ApprovalRecord) : bool := bool_decide (ap_status r = "approved").

(** [resolveRecord]. *)
Definition resolveRecord (env : approval_env) (record : ApprovalRecord) (d : Decision)
    (gate : option G) (db : approval_db) :
    approval_db * option G * res (ApprovalRecord * bool) :=
  match HasDurableAction env 1 (ap_approval_id record) db with
  | Err e => (db, gate, Err e)
  | Ok true =>
      match ActorFromContext (ae_actor env) with
      | None => (db, gate, Err ErrUnauthorized)
      | Some actor =>
          let '(db', r) := ResolveDurable env record (de_approved d) actor
                             (de_resolution_reason d) db in (db', gate, r)
      end
  | Ok false =>
      if negb (bool_decide (ap_status record = "pending"))
      then (db, tell_gate (ap_tool_call_id record) (approved_status record) gate,
            Ok (record, false))
      else
        let status := if de_approved d then StatusApproved else StatusRejected in
        match ResolveApproval env 2
                (mkResolveParams (ap_approval_id record) "pending" status (de_resolved_via d)
                   (de_resolved_by d) (de_resolution_reason d) (de_resolved_at d)) db with
        | (db', Ok updated) =>
            let event := mkEventParams (ap_approval_id updated) (ap_run_id updated)
              (ap_session_key updated) "approval_resolved" "pending" status (de_actor_type d)
              (de_actor_id d) (de_resolution_reason d)
              ("{" +:+ quoted "resolved_via" +:+ ":" +:+ quoted (de_resolved_via d) +:+ ","
               +:+ quoted "approved" +:+ ":" +:+ (if de_approved d then "true" else "false")
               +:+ "}") (de_resolved_at d) in
            ((InsertEvent env 4 event db').1,
             tell_gate (ap_tool_call_id record) (de_approved d) gate, Ok (updated, true))
        | (db', Err e) =>
            if bool_decide (e = ErrApprovalStatusConflict) then
              match GetApprovalByID env 5 (ap_approval_id record) db' with
              | Err e' => (db', gate, Err e')
              | Ok reloaded =>
                  (db', tell_gate (ap_tool_call_id record) (approved_status reloaded) gate,
                   Ok (reloaded, false))
              end
            else (db', gate, Err e)
        end
  end.

(** [ResolveByToolCall]. *)
Definition ResolveByToolCall (env : approval_env) (call : string) (d : Decision)
    (gate : option G) (db : approval_db) : approval_db * option G * res (ApprovalRecord * bool) :=
  if bool_decide (TrimSpace call = "")
  then (db, gate, Err (Errorf "tool_call_id is required")) else
  match GetApprovalByToolCallID env 0 (TrimSpace call) db with
  | Err e => (db, gate, Err e)
  | Ok record => resolveRecord env record (normalized_decision env d) gate db
  end.

(** [ResolveByApprovalID]. *)
Definition ResolveByApprovalID (env : approval_env) (id : string) (d : Decision)
    (gate : option G) (db : approval_db) : approval_db * option G * res (ApprovalRecord * bool) :=
  if bool_decide (TrimSpace id = "")
  then (db, gate, Err (Errorf "approval_id is required")) else
  match GetApprovalByID env 0 (TrimSpace id) db with
  | Err e => (db, gate, Err e)
  | Ok record => resolveRecord env record (normalized_decision env d) gate db
  end.

(** ** Histories *)

(** The calls that change the tables.  [AResolve] has the record it read
    earlier, which may be out of date; [AOther] is a change of the other
    tables. *)
Inductive approval_op :=
| ACreatePending (env : approval_env) (p : CreatePendingParams)
| AResolve (env : approval_env) (record : ApprovalRecord) (d : Decision)
| AByToolCall (env : approval_env) (call : string) (d : Decision)
| AByApprovalID (env : approval_env) (id : string) (d : Decision)
| ASelect (env : approval_env) (approval token : string) (selectedAt : Z)
| AMark (env : approval_env) (run_id call state : string)
| ASweep (env : approval_env) (envs : nat -> approval_env)
| AControl (env : approval_env) (tasks : list string) (control owner : string)
| AOther (q : queue_db) (log : list StateTransition).

Definition approval_step (op : approval_op) (s : approval_db * option G) :
    approval_db * option G :=
  let '(db, gate) := s in
  match op with
  | ACreatePending env p => ((CreatePendingApproval env p db).1, gate)
  | AResolve env record d => (resolveRecord env record d gate db).1
  | AByToolCall env call d => (ResolveByToolCall env call d gate db).1
  | AByApprovalID env id d => (ResolveByApprovalID env id d gate db).1
  | ASelect env approval token at_ => ((SelectTabCandidate env approval token at_ db).1, gate)
  | AMark env run_id call state => ((MarkActionCheckpoint env run_id call state db).1, gate)
  | ASweep env envs => ((ExpireInvalidPending env envs db).1, gate)
  | AControl env tasks control owner =>
      ((ap_tx db (InvalidateForControlTx env tasks control owner db)).1, gate)
  | AOther q log =>
      (mkApprovalDb q log (ap_approvals db) (ap_actions db) (ap_decisions db) (ap_events db)
         (ap_candidates db), gate)
  end.

Definition approval_history (ops : list approval_op) (s : approval_db * option G) :
    approval_db * option G :=
  fold_left (fun s op => approval_step op s) ops s.

End service.
End approval.
