(* ===== verification/ApprovalProofs.v ===== *)
(** * ApprovalProofs: a request is decided once, by its owner

    The theorems on [Approval].  A call of the package is a sequence of
    moves of the tables, one per statement; a move refines the abstract
    machine in which a request is made, decided once, and never changes
    again. *)
From Stdlib Require Import Ascii.
From stdpp Require Import sorting.
From S2P Require Import Prelude GoStrings GoTime Ownership Run Canonical Input.
From S2P Require Import ApprovalGate Approval.
Open Scope Z_scope.
Open Scope go_scope.

(** ** The abstract machine *)

Inductive decision := Undecided | DecidedAs (status : string).

(** A request that does not exist yet is [None]. *)
Inductive decision_step : option decision -> option decision -> Prop :=
| step_stutter s : decision_step s s
| step_request : decision_step None (Some Undecided)
| step_decide status : status ∈ approval_statuses -> status <> "pending" ->
    decision_step (Some Undecided) (Some (DecidedAs status)).

Definition decision_of (r : ApprovalRow) : decision :=
  if bool_decide (ar_status r = "pending") then Undecided else DecidedAs (ar_status r).

Definition abstract (db : approval_db) (id : string) : option decision :=
  decision_of <$> ap_approvals db !! id.

(** ** Moves of the tables *)

(** What a decision leaves as it was. *)
Definition same_request (r r' : ApprovalRow) : Prop :=
  ar_run_id r' = ar_run_id r /\ ar_session_key r' = ar_session_key r
  /\ ar_tool_call_id r' = ar_tool_call_id r /\ ar_approval_type r' = ar_approval_type r
  /\ ar_requested_via r' = ar_requested_via r /\ ar_tool_name r' = ar_tool_name r
  /\ ar_args_json r' = ar_args_json r /\ ar_payload_json r' = ar_payload_json r
  /\ ar_risk_level r' = ar_risk_level r /\ ar_summary r' = ar_summary r
  /\ ar_details_json r' = ar_details_json r /\ ar_requested_at r' = ar_requested_at r
  /\ ar_expires_at r' = ar_expires_at r.

Definition request_decided (r r' : ApprovalRow) : Prop :=
  ar_status r = "pending" /\ (ar_status r' ∈ approval_statuses) /\ ar_status r' <> "pending"
  /\ same_request r r' /\ is_Some (ar_resolved_at r').

(** The owner's recorded consent to an action. *)
Definition consented (db : approval_db) (id : string) (d : ActionRow) : Prop :=
  exists a delivery di,
    ap_approvals db !! id = Some a /\ ar_status a = "approved"
    /\ ap_decisions db !! (ac_channel d, delivery) = Some di
    /\ di_approval_id di = id /\ di_owner_id di = ac_owner_id d /\ di_approved di = true
    /\ ac_decision_input_id d = Some (di_decision_input_id di).

Definition dispatchable (d : ActionRow) : Prop :=
  ac_state d ∈ ["ready"; "dispatching"; "completed"].

(** An action stays, is blocked, goes on after consent, or is released by it. *)
Definition action_moves (db' : approval_db) (id : string) (d d' : ActionRow) : Prop :=
  ac_owner_id d' = ac_owner_id d /\ ac_channel d' = ac_channel d
  /\ ac_binding_json d' = ac_binding_json d
  /\ (dispatchable d' ->
      dispatchable d /\ ac_decision_input_id d' = ac_decision_input_id d
      \/ consented db' id d').

Record moves (db db' : approval_db) : Prop := mkMoves {
  mv_old : forall id r, ap_approvals db !! id = Some r ->
    exists r', ap_approvals db' !! id = Some r' /\ (r' = r \/ request_decided r r');
  mv_new : forall id r', ap_approvals db' !! id = Some r' -> ap_approvals db !! id = None ->
    ar_status r' = "pending" /\ ar_resolved_at r' = None
    /\ (forall a ra, ap_approvals db !! a = Some ra ->
          ar_tool_call_id ra = ar_tool_call_id r' -> ar_status ra <> "pending")
    /\ (forall a ra, ap_approvals db' !! a = Some ra -> ap_approvals db !! a = None -> a = id);
  mv_decisions : forall k di, ap_decisions db !! k = Some di -> ap_decisions db' !! k = Some di;
  mv_action_old : forall id d, ap_actions db !! id = Some d ->
    exists d', ap_actions db' !! id = Some d' /\ action_moves db' id d d';
  mv_action_new : forall id d', ap_actions db' !! id = Some d' -> ap_actions db !! id = None ->
    ac_state d' = "waiting";
}.

Lemma action_moves_refl db' id d : action_moves db' id d d.
Proof. unfold action_moves. split_and!; try done. intros H. left. by split. Qed.

(** A move of the approvals alone, and one of the actions alone. *)
Lemma moves_approvals db db' :
  ap_actions db' = ap_actions db -> ap_decisions db' = ap_decisions db ->
  (forall id r, ap_approvals db !! id = Some r ->
    exists r', ap_approvals db' !! id = Some r' /\ (r' = r \/ request_decided r r')) ->
  (forall id r', ap_approvals db' !! id = Some r' -> ap_approvals db !! id = None ->
    ar_status r' = "pending" /\ ar_resolved_at r' = None
    /\ (forall a ra, ap_approvals db !! a = Some ra ->
          ar_tool_call_id ra = ar_tool_call_id r' -> ar_status ra <> "pending")
    /\ (forall a ra, ap_approvals db' !! a = Some ra -> ap_approvals db !! a = None -> a = id)) ->
  moves db db'.
Proof.
  intros Ha Hd Hold Hnew. split; [exact Hold|exact Hnew|by rewrite Hd| |].
  - intros id d H. exists d. rewrite Ha. split; [exact H|apply action_moves_refl].
  - intros id d H Hn. rewrite Ha in H. congruence.
Qed.

Lemma moves_actions db db' :
  ap_approvals db' = ap_approvals db ->
  (forall k di, ap_decisions db !! k = Some di -> ap_decisions db' !! k = Some di) ->
  (forall id d, ap_actions db !! id = Some d ->
    exists d', ap_actions db' !! id = Some d' /\ action_moves db' id d d') ->
  (forall id d', ap_actions db' !! id = Some d' -> ap_actions db !! id = None ->
    ac_state d' = "waiting") -> moves db db'.
Proof.
  intros Ha Hd Hold Hnew. split; [| |exact Hd|exact Hold|exact Hnew].
  - intros id r H. exists r. rewrite Ha. split; [exact H|by left].
  - intros id r' H Hn. rewrite Ha in H. congruence.
Qed.

(** The tables of approvals, actions and decisions do not change. *)
Lemma moves_same db db' :
  ap_approvals db' = ap_approvals db -> ap_actions db' = ap_actions db ->
  ap_decisions db' = ap_decisions db -> moves db db'.
Proof.
  intros Ha Hc Hd. apply moves_actions; [exact Ha|by rewrite Hd| |].
  - intros id d H. exists d. rewrite Hc. split; [exact H|apply action_moves_refl].
  - intros id d H Hn. rewrite Hc in H. congruence.
Qed.

Lemma moves_refl db : moves db db.
Proof. by apply moves_same. Qed.

(** ** The invariant *)

Record approval_ok (db : approval_db) : Prop := mkApprovalOk {
  ao_pending : forall a b ra rb, ap_approvals db !! a = Some ra -> ap_approvals db !! b = Some rb ->
    ar_tool_call_id ra = ar_tool_call_id rb -> ar_status ra = "pending" ->
    ar_status rb = "pending" -> a = b;
  ao_status : forall id r, ap_approvals db !! id = Some r -> ar_status r ∈ approval_statuses;
  ao_resolved : forall id r, ap_approvals db !! id = Some r ->
    (ar_status r = "pending" <-> ar_resolved_at r = None);
  ao_action : forall id d, ap_actions db !! id = Some d -> dispatchable d -> consented db id d;
}.

Lemma moves_back db db' id r' : moves db db' -> ap_approvals db' !! id = Some r' ->
  (exists r, ap_approvals db !! id = Some r /\ (r' = r \/ request_decided r r'))
  \/ ap_approvals db !! id = None.
Proof.
  intros Hm H. destruct (ap_approvals db !! id) as [r|] eqn:E; [left|by right].
  destruct (mv_old _ _ Hm _ _ E) as (r0 & H0 & Hr). rewrite H in H0. injection H0 as <-.
  by exists r.
Qed.

(** Consent stays: approvals that are decided and recorded decisions stay. *)
Lemma consented_moves db db' id d d' : moves db db' -> consented db id d ->
  ac_channel d' = ac_channel d -> ac_owner_id d' = ac_owner_id d ->
  ac_decision_input_id d' = ac_decision_input_id d -> consented db' id d'.
Proof.
  intros Hm (a & dl & di & Ha & Hs & Hd & H1 & H2 & H3 & H4) Ec Eo Ei.
  destruct (mv_old _ _ Hm _ _ Ha) as (a' & Ha' & [->|(Hp & _)]); [|congruence].
  exists a, dl, di. rewrite Ec Eo Ei. split_and!; try done. exact (mv_decisions _ _ Hm _ _ Hd).
Qed.

Lemma moves_ok db db' : moves db db' -> approval_ok db -> approval_ok db'.
Proof.
  intros Hm Hok. split.
  - intros a b ra' rb' Ha Hb Ec Hpa Hpb.
    destruct (moves_back _ _ _ _ Hm Ha) as [(ra & Ha0 & Hra)|Na];
      destruct (moves_back _ _ _ _ Hm Hb) as [(rb & Hb0 & Hrb)|Nb].
    + destruct Hra as [->|(_ & _ & Hn & _)]; [|congruence].
      destruct Hrb as [->|(_ & _ & Hn & _)]; [|congruence].
      exact (ao_pending _ Hok _ _ _ _ Ha0 Hb0 Ec Hpa Hpb).
    + destruct Hra as [->|(_ & _ & Hn & _)]; [|congruence].
      destruct (mv_new _ _ Hm _ _ Hb Nb) as (_ & _ & Hc & _). case: (Hc _ _ Ha0 Ec Hpa).
    + destruct Hrb as [->|(_ & _ & Hn & _)]; [|congruence].
      destruct (mv_new _ _ Hm _ _ Ha Na) as (_ & _ & Hc & _).
      case: (Hc _ _ Hb0 (eq_sym Ec) Hpb).
    + destruct (mv_new _ _ Hm _ _ Hb Nb) as (_ & _ & _ & Hu). exact (Hu _ _ Ha Na).
  - intros id r' H. destruct (moves_back _ _ _ _ Hm H) as [(r & H0 & [->|(_ & Hs & _)])|N].
    + exact (ao_status _ Hok _ _ H0).
    + exact Hs.
    + destruct (mv_new _ _ Hm _ _ H N) as (-> & _). by left.
  - intros id r' H. destruct (moves_back _ _ _ _ Hm H) as [(r & H0 & [->|Hd])|N].
    + exact (ao_resolved _ Hok _ _ H0).
    + destruct Hd as (_ & _ & Hn & _ & [t Ht]). rewrite Ht. by split.
    + destruct (mv_new _ _ Hm _ _ H N) as (-> & -> & _). done.
  - intros id d' H Hdis. destruct (ap_actions db !! id) as [d|] eqn:E.
    + destruct (mv_action_old _ _ Hm _ _ E) as (d0 & H0 & Eo & Ec & _ & Hd).
      rewrite H in H0. injection H0 as <-. destruct (Hd Hdis) as [[Hdd Ei]|Hc]; [|exact Hc].
      exact (consented_moves _ _ _ _ _ Hm (ao_action _ Hok _ _ E Hdd) Ec Eo Ei).
    + pose proof (mv_action_new _ _ Hm _ _ H E) as Hw. unfold dispatchable in Hdis.
      rewrite Hw in Hdis. exfalso. set_solver.
Qed.

Lemma moves_abstract db db' id : moves db db' ->
  decision_step (abstract db id) (abstract db' id).
Proof.
  intros Hm. unfold abstract. destruct (ap_approvals db !! id) as [r|] eqn:E; simpl.
  - destruct (mv_old _ _ Hm _ _ E) as (r' & -> & [->|(Hp & Hs & Hn & _)]); [constructor|]. simpl.
    unfold decision_of. rewrite (bool_decide_true (ar_status r = _)) //.
    rewrite bool_decide_false //. by constructor.
  - destruct (ap_approvals db' !! id) as [r'|] eqn:E'; [|constructor]. simpl.
    destruct (mv_new _ _ Hm _ _ E' E) as (Hp & _). unfold decision_of.
    rewrite bool_decide_true //. constructor.
Qed.

(** What is decided stays as it is, and a request keeps its content. *)
Definition requests_kept (db db' : approval_db) : Prop :=
  forall id r, ap_approvals db !! id = Some r ->
  exists r', ap_approvals db' !! id = Some r' /\ same_request r r'
    /\ (ar_status r <> "pending" -> r' = r).

Lemma same_request_refl r : same_request r r.
Proof. unfold same_request. by split_and!. Qed.

Lemma moves_kept db db' : moves db db' -> requests_kept db db'.
Proof.
  intros Hm id r H. destruct (mv_old _ _ Hm _ _ H) as (r' & H' & Hr). exists r'.
  split; [exact H'|]. destruct Hr as [->|(Hp & _ & _ & Hs & _)].
  - split; [apply same_request_refl|done].
  - split; [exact Hs|done].
Qed.

Lemma requests_kept_trans a b c : requests_kept a b -> requests_kept b c -> requests_kept a c.
Proof.
  intros Hab Hbc id r H. destruct (Hab _ _ H) as (r1 & H1 & S1 & F1).
  destruct (Hbc _ _ H1) as (r2 & H2 & S2 & F2). exists r2. split; [exact H2|]. split.
  - unfold same_request in *. intuition congruence.
  - intros Hn. pose proof (F1 Hn) as ->. exact (F2 Hn).
Qed.

(** Sequences of moves. *)
Lemma rtc_moves_keep_ok db db' : rtc moves db db' -> approval_ok db -> approval_ok db'.
Proof. induction 1 as [|x y z Hxy _ IH]; [done|]. intros H. exact (IH (moves_ok _ _ Hxy H)). Qed.

Lemma rtc_moves_abstract db db' id : rtc moves db db' ->
  rtc decision_step (abstract db id) (abstract db' id).
Proof.
  induction 1 as [|x y z Hxy _ IH]; [apply rtc_refl|].
  exact (rtc_l _ _ _ _ (moves_abstract _ _ id Hxy) IH).
Qed.

Lemma rtc_moves_kept db db' : rtc moves db db' -> requests_kept db db'.
Proof.
  induction 1 as [x|x y z Hxy _ IH]; [exact (moves_kept _ _ (moves_refl x))|].
  exact (requests_kept_trans _ _ _ (moves_kept _ _ Hxy) IH).
Qed.

(** ** Every statement is a move *)

Create HintDb approval.

Lemma ap_bind_moves {A B} db (r : approval_db * res A) (k : approval_db -> A -> approval_db * res B) :
  rtc moves db r.1 -> (forall db' a, r = (db', Ok a) -> rtc moves db' (k db' a).1) ->
  rtc moves db (ap_bind r k).1.
Proof.
  intros H1 H2. destruct r as [db' [a|e]]; simpl in *; [|exact H1].
  transitivity db'; [exact H1|exact (H2 _ _ eq_refl)].
Qed.

Lemma ap_stmt_moves {A} env n db (k : approval_db * res A) :
  rtc moves db k.1 -> rtc moves db (ap_stmt env n db k).1.
Proof. unfold ap_stmt. destruct (ae_fault env n); [|done]. intros _. apply rtc_refl. Qed.

Lemma ap_tx_moves {A} db (k : approval_db * res A) :
  rtc moves db k.1 -> rtc moves db (ap_tx db k).1.
Proof. destruct k as [db' [a|e]]; simpl; [done|]. intros _. apply rtc_refl. Qed.

Lemma ap_fenced_moves {A} env db (k : approval_env -> approval_db * res A) :
  (forall env', rtc moves db (k env').1) -> rtc moves db (ap_fenced env db k).1.
Proof. unfold ap_fenced. destruct (Begin _ _ _ _); [done|]. intros _. apply rtc_refl. Qed.

Lemma set_queue_moves db q : rtc moves db (set_queue db q).
Proof. apply rtc_once. by apply moves_same. Qed.

Lemma run_hook_moves f db : rtc moves db (run_hook f db).1.
Proof. unfold run_hook. destruct (f (ap_queue db)) as [q r]. apply set_queue_moves. Qed.

Lemma rtc_moves_refl db : rtc moves db db.
Proof. apply rtc_refl. Qed.

#[export] Hint Resolve rtc_moves_refl ap_stmt_moves ap_tx_moves ap_fenced_moves set_queue_moves
  run_hook_moves : approval.

(** Inserting a pending request whose call has no pending one. *)
Lemma insert_approval_moves db id row :
  ap_approvals db !! id = None -> ar_status row = "pending" -> ar_resolved_at row = None ->
  pending_call db (ar_tool_call_id row) = false ->
  moves db (set_approvals db (<[id := row]> (ap_approvals db))).
Proof.
  intros Hn Hs Hr Hp. apply moves_approvals; [done|done| |]; simpl.
  - intros a ra Ha. exists ra. rewrite lookup_insert_ne; [congruence|]. split; [done|by left].
  - intros a r' Ha Hna. destruct (decide (id = a)) as [<-|Hne].
    2:{ rewrite lookup_insert_ne in Ha; congruence. }
    rewrite lookup_insert_eq in Ha. injection Ha as <-. split_and!; [done|done| |].
    + intros b rb Hb Ec Hpb. apply not_true_iff_false in Hp. apply Hp. unfold pending_call.
      apply existsb_exists. exists (b, rb).
      rewrite -list_elem_of_In elem_of_map_to_list /= !bool_decide_true //.
    + intros b rb Hb Hnb. destruct (decide (id = b)) as [|Hne]; [done|].
      rewrite lookup_insert_ne in Hb; congruence.
Qed.

(** Deciding a pending request. *)
Lemma decide_approval_moves db id r r' :
  ap_approvals db !! id = Some r -> request_decided r r' ->
  moves db (set_approvals db (<[id := r']> (ap_approvals db))).
Proof.
  intros H Hd. apply moves_approvals; [done|done| |]; simpl.
  - intros a ra Ha. destruct (decide (id = a)) as [<-|Hne].
    + exists r'. rewrite lookup_insert_eq. split; [done|]. right.
      by replace ra with r by congruence.
    + exists ra. rewrite lookup_insert_ne //. split; [done|by left].
  - intros a ra Ha Hna. destruct (decide (id = a)) as [<-|Hne]; [congruence|].
    rewrite lookup_insert_ne in Ha; congruence.
Qed.

(** Moving the actions, row by row. *)
Lemma map_actions_moves db f :
  (forall id d, ap_actions db !! id = Some d ->
     action_moves (set_actions db (map_imap (fun i x => Some (f i x)) (ap_actions db))) id d (f id d)) ->
  moves db (set_actions db (map_imap (fun i x => Some (f i x)) (ap_actions db))).
Proof.
  intros Hf. apply moves_actions; [done|done| |]; simpl.
  - intros id d H. exists (f id d). rewrite map_lookup_imap H. split; [done|exact (Hf _ _ H)].
  - intros id d H Hn. rewrite map_lookup_imap Hn in H. discriminate.
Qed.

Lemma insert_action_row_moves db id row : ap_actions db !! id = None -> ac_state row = "waiting" ->
  moves db (set_actions db (<[id := row]> (ap_actions db))).
Proof.
  intros Hn Hw. apply moves_actions; [done|done| |]; simpl.
  - intros a d Ha. exists d. rewrite lookup_insert_ne; [congruence|].
    split; [exact Ha|apply action_moves_refl].
  - intros a d Ha Hna. destruct (decide (id = a)) as [<-|Hne].
    + rewrite lookup_insert_eq in Ha. by injection Ha as <-.
    + rewrite lookup_insert_ne in Ha; congruence.
Qed.

Lemma insert_decision_row_moves db k di : ap_decisions db !! k = None ->
  moves db (set_decisions db (<[k := di]> (ap_decisions db))).
Proof.
  intros Hn. apply moves_actions; [done| | |]; simpl.
  - intros k' d H. rewrite lookup_insert_ne; [congruence|exact H].
  - intros id d H. exists d. split; [exact H|apply action_moves_refl].
  - intros id d H H'. congruence.
Qed.

(** The owner, the run's task and the task are the ones of the action. *)
Lemma binding_current_spec b cx : binding_current b cx = true ->
  cx_owner cx = ab_owner_id b /\ default "" (rr_task_id (cx_run cx)) = ab_task_id b
  /\ default 0 (rr_task_revision (cx_run cx)) = ab_task_revision b
  /\ (ab_task_id b <> "" -> exists t, cx_task cx = Some t /\ tk_revision t = ab_task_revision b
      /\ tk_constraints_revision t = ab_constraints_revision b
      /\ tk_status t ∈ ["active"; "waiting_for_user"]).
Proof.
  unfold binding_current. intros H. apply andb_true_iff in H as [H _].
  apply andb_true_iff in H as [H Ht]. apply andb_true_iff in H as [H Hr].
  apply andb_true_iff in H as [Ho Hi]. apply Z.eqb_eq in Hr.
  apply bool_decide_eq_true in Ho, Hi. split_and!; [exact Ho|exact Hi|exact Hr|]. intros Hne.
  rewrite bool_decide_false //= in Ht. apply andb_true_iff in Ht as [Ht Hs].
  apply andb_true_iff in Ht as [H1 H2]. apply Z.eqb_eq in H1, H2. apply bool_decide_eq_true in Hs.
  destruct (cx_task cx) as [t|]; [by exists t|]. simpl in Hs. set_solver.
Qed.

Section statements.
Context (jsonb : string -> option jval) (json_text : jval -> string)
  (marshal_binding marshal_details : ActionBinding -> string)
  (unmarshal_binding : jval -> option ActionBinding)
  (continuation_version : string -> option Z)
  (ArgumentsHash : string -> res string)
  (hooks : option CheckpointHooks).

Lemma CreateApproval_moves env n p db :
  rtc moves db (CreateApproval jsonb json_text env n p db).1.
Proof.
  unfold CreateApproval. apply ap_fenced_moves. intros env'.
  destruct (ae_fault env' n); [auto with approval|].
  destruct (jsonb (or_default (cp_args_json p) _)); [|auto with approval].
  destruct (jsonb (or_default (cp_payload_json p) _)); [|auto with approval].
  destruct (jsonb (or_default (cp_details_json p) _)); [|auto with approval].
  destruct (approval_checks _); simpl; [|auto with approval].
  case_bool_decide as Hex; [auto with approval|]. apply eq_None_not_Some in Hex.
  destruct (pending_call _ _) eqn:Hp; [auto with approval|].
  destruct (_ || _); [auto with approval|]. apply rtc_once, insert_approval_moves; done.
Qed.

Lemma InsertEvent_moves env n e db : rtc moves db (InsertEvent jsonb env n e db).1.
Proof.
  unfold InsertEvent. apply ap_fenced_moves. intros env'. destruct (ae_fault env' n);
    [auto with approval|]. destruct (jsonb _); [|auto with approval].
  destruct (negb _); [auto with approval|]. destruct (_ || _ || _); [auto with approval|].
  apply rtc_once. by apply moves_same.
Qed.

Lemma approval_checks_status r : approval_checks r = true -> ar_status r ∈ approval_statuses.
Proof. unfold approval_checks. intros H. by unbool. Qed.

(** A resolution that does not ask for the status pending. *)
Lemma ResolveApproval_moves env n p db : rs_status p <> "pending" ->
  or_default (rs_expected_status p) "pending" = "pending" ->
  rtc moves db (ResolveApproval json_text env n p db).1.
Proof.
  intros Hs He. unfold ResolveApproval. rewrite He.
  destruct (ae_fault env n); [auto with approval|].
  destruct (ap_approvals db !! _) as [r|] eqn:Hr; [|auto with approval].
  case_bool_decide as Hp; simpl; [|auto with approval].
  destruct (approval_checks _) eqn:Hc; simpl; [|auto with approval].
  rewrite bool_decide_false //=. apply rtc_once, (decide_approval_moves _ _ r _ Hr).
  apply approval_checks_status in Hc. split_and!; [done|exact Hc|done| |by eexists].
  unfold same_request. by split_and!.
Qed.

Lemma insert_action_moves env n id p db :
  rtc moves db (insert_action jsonb marshal_binding env n id p db).1.
Proof.
  unfold insert_action. apply ap_stmt_moves. destruct (jsonb (marshal_binding _));
    [|auto with approval]. destruct (jsonb _); [|auto with approval].
  destruct (negb _); [auto with approval|].
  case_bool_decide as Hex; simpl; [auto with approval|]. apply eq_None_not_Some in Hex.
  destruct (action_id_used _ _); [auto with approval|].
  destruct (_ || _); [auto with approval|]. apply rtc_once. by apply insert_action_row_moves.
Qed.

Lemma wait_task_moves env n task db : rtc moves db (wait_task env n task db).1.
Proof.
  unfold wait_task. case_bool_decide; [auto with approval|]. apply ap_stmt_moves, set_queue_moves.
Qed.

Lemma settle_task_moves env n task status revision db :
  rtc moves db (settle_task env n task status revision db).1.
Proof.
  unfold settle_task. case_bool_decide; [auto with approval|]. apply ap_stmt_moves.
  destruct (qd_tasks _ !! task); [|auto with approval]. destruct (negb _); [auto with approval|].
  case_bool_decide; [apply set_queue_moves|].
  destruct (jsonb_set _ _ _); [apply set_queue_moves|auto with approval].
Qed.

Lemma CreateDurable_moves env p db :
  rtc moves db (CreateDurable jsonb json_text marshal_binding marshal_details
                  continuation_version ArgumentsHash hooks env p db).1.
Proof.
  unfold CreateDurable. apply ap_fenced_moves. intros env'.
  destruct (durable_request_error _ _ _ _ _); [auto with approval|]. apply ap_tx_moves.
  apply ap_bind_moves; [auto with approval|]. intros db1 [] _.
  apply ap_bind_moves; [apply ap_stmt_moves; destruct (durable_run_error _ _); auto with approval|].
  intros db2 [] _. apply ap_bind_moves; [apply CreateApproval_moves|]. intros db3 record _.
  apply ap_bind_moves; [apply insert_action_moves|]. intros db4 [] _.
  apply ap_bind_moves; [apply ap_stmt_moves, set_queue_moves|]. intros db5 [] _.
  apply ap_bind_moves; [apply wait_task_moves|]. intros db6 [] _.
  apply ap_bind_moves; [apply run_hook_moves|]. intros db7 [] _.
  apply ap_bind_moves; [apply InsertEvent_moves|]. intros db8 [] _.
  apply ap_bind_moves.
  - apply ap_stmt_moves, rtc_once. by apply moves_same.
  - intros db9 [] _. auto with approval.
Qed.

Lemma alter_action_moves db id f :
  (forall d, ap_actions db !! id = Some d -> action_moves db id d (f d)) ->
  moves db (set_actions db (alter f id (ap_actions db))).
Proof.
  intros Hf. apply moves_actions; [done|done| |]; simpl.
  - intros a d Ha. destruct (decide (id = a)) as [<-|Hne].
    + exists (f d). rewrite lookup_alter_eq Ha. split; [done|]. exact (Hf _ Ha).
    + exists d. rewrite lookup_alter_ne //. split; [done|apply action_moves_refl].
  - intros a d Ha Hn. destruct (decide (id = a)) as [<-|Hne].
    + rewrite lookup_alter_eq Hn in Ha. discriminate.
    + rewrite lookup_alter_ne in Ha; congruence.
Qed.

(** What a successful resolution stores. *)
Lemma ResolveApproval_Ok env n p db db' r :
  ResolveApproval json_text env n p db = (db', Ok r) ->
  exists a, ap_approvals db !! rs_approval_id p = Some a
  /\ ar_status a = or_default (rs_expected_status p) "pending"
  /\ db' = set_approvals db (<[rs_approval_id p := resolved_row env p a]> (ap_approvals db))
  /\ r = scanRecord json_text (rs_approval_id p) (resolved_row env p a).
Proof.
  unfold ResolveApproval. destruct (ae_fault env n); [discriminate|].
  assert (Hmiss : forall e : res ApprovalRecord, match GetApprovalByID json_text env (S n)
      (rs_approval_id p) db with Err e => Err e | Ok existing =>
      if negb (bool_decide (ap_status existing = or_default (rs_expected_status p) "pending"))
      then Err ErrApprovalStatusConflict else Err ErrApprovalNotFound end = Ok r -> False).
  { intros _. destruct (GetApprovalByID _ _ _ _ _); [|discriminate]. destruct (negb _); discriminate. }
  destruct (ap_approvals db !! _) as [a|] eqn:Ha.
  2:{ intros [= _ H]. case: (Hmiss (Ok r) H). }
  case_bool_decide as Hs; simpl.
  2:{ intros [= _ H]. case: (Hmiss (Ok r) H). }
  destruct (negb _); [discriminate|]. destruct (_ && _); [discriminate|].
  intros [= <- <-]. exists a. by split_and!.
Qed.

(** An approval under way has the owner's decision on record. *)
Definition recorded (db : approval_db) (id decision : string) (d : ActionRow) : Prop :=
  exists delivery di, ap_decisions db !! (ac_channel d, delivery) = Some di
  /\ di_approval_id di = id /\ di_owner_id di = ac_owner_id d /\ di_approved di = true
  /\ di_decision_input_id di = decision.

Lemma apply_decision_moves env record actor d b decision outcome db :
  outcome.1 <> "pending" -> ap_actions db !! ap_approval_id record = Some d ->
  (outcome.1 = "approved" -> recorded db (ap_approval_id record) decision d) ->
  rtc moves db
    (apply_decision jsonb json_text hooks env record actor d b decision outcome db).1.
Proof.
  destruct outcome as [status reason]. simpl. intros Hs Hd Hrec. unfold apply_decision.
  apply ap_bind_moves; [by apply ResolveApproval_moves|]. intros db1 updated Hres.
  destruct (ResolveApproval_Ok _ _ _ _ _ _ Hres) as (a & Ha & _ & -> & _). simpl in Ha.
  apply ap_bind_moves.
  - apply ap_stmt_moves, rtc_once, alter_action_moves. simpl. intros d' Hd'.
    replace d' with d by congruence. unfold action_moves, dispatchable. split_and!; [done..|].
    case_bool_decide as Hst; simpl; [|intros Hin; exfalso; set_solver]. intros _. right.
    destruct (Hrec Hst) as (dl & di & H1 & H2 & H3 & H4 & H5). eexists _, dl, di. simpl.
    rewrite lookup_insert_eq. split_and!; try done. by rewrite H5.
  - intros db2 [] _. apply ap_bind_moves; [apply settle_task_moves|]. intros db3 [] _.
    apply ap_bind_moves; [apply run_hook_moves|]. intros db4 [] _.
    apply ap_bind_moves; [apply InsertEvent_moves|]. intros db5 [] _. auto with approval.
Qed.

Lemma decided_status_not_pending approved verified awaiting reason :
  (decided_status approved verified awaiting reason).1 <> "pending".
Proof. by destruct approved, verified, awaiting. Qed.

Lemma decided_status_approved approved verified awaiting reason :
  (decided_status approved verified awaiting reason).1 = "approved" ->
  approved = true /\ verified = true /\ awaiting = true.
Proof. by destruct approved, verified, awaiting. Qed.

Lemma insert_decision_true env n id approval actor approved db db' :
  insert_decision env n id approval actor approved db = (db', Ok true) ->
  ap_decisions db !! (at_channel actor, at_delivery_id actor) = None
  /\ db' = set_decisions db (<[(at_channel actor, at_delivery_id actor) :=
       mkDecisionInput id approval (at_owner_id actor) approved (ae_now env)]> (ap_decisions db)).
Proof.
  unfold insert_decision, ap_stmt. destruct (ae_fault env n); [discriminate|]. cbv zeta.
  case_bool_decide as Hex; [discriminate|]. apply eq_None_not_Some in Hex.
  destruct (existsb _ _); [discriminate|]. intros [= <-]. by split.
Qed.

Lemma insert_decision_moves env n id approval actor approved db :
  rtc moves db (insert_decision env n id approval actor approved db).1.
Proof.
  unfold insert_decision. apply ap_stmt_moves. cbv zeta.
  case_bool_decide as Hex; [auto with approval|]. apply eq_None_not_Some in Hex.
  destruct (existsb _ _); [auto with approval|]. apply rtc_once.
  by apply insert_decision_row_moves.
Qed.

(** Who decides is the owner, on the channel of the request, unless the sweep
    refuses. *)
Lemma actor_authorized_spec env actor approved d session :
  actor_authorized env actor approved d session = true ->
  at_owner_id actor = ac_owner_id d
  /\ (approved = true -> ae_review env = false)
  /\ (ae_review env = false -> at_channel actor = ac_channel d
      /\ (ac_channel d = "telegram" -> at_session_key actor = session)).
Proof.
  unfold actor_authorized. intros H. apply andb_true_iff in H as [Ho H]. unbool.
  split; [done|]. destruct (ae_review env).
  - unbool. split; [congruence|done].
  - apply andb_true_iff in H as [Hc Ht]. apply orb_true_iff in Ht. unbool. split; [done|].
    intros _. split; [done|]. intros Htel. destruct Ht as [Ht|Ht]; unbool; done.
Qed.

Lemma ResolveDurable_moves env record approved actor reason db :
  rtc moves db
    (ResolveDurable jsonb json_text unmarshal_binding hooks env record approved actor reason db).1.
Proof.
  unfold ResolveDurable. destruct (_ || _ || _); [auto with approval|]. apply ap_tx_moves.
  apply ap_bind_moves; [auto with approval|]. intros db1 [] H1.
  apply ap_bind_moves; [auto with approval|]. intros db2 [] H2.
  destruct (ap_approvals db2 !! _) as [a|] eqn:Ha; simpl; [|auto with approval].
  destruct (ap_actions db2 !! _) as [d|] eqn:Hd; simpl; [|auto with approval].
  destruct (qd_runs _ !! _) as [r|]; simpl; [|auto with approval].
  destruct (actor_authorized _ _ _ _ _) eqn:Hauth; simpl; [|auto with approval].
  destruct (GetApprovalByID _ _ _ _ _) as [current|]; [|auto with approval].
  destruct (negb _); [auto with approval|]. destruct (unmarshal_binding _) as [b|];
    [|auto with approval].
  destruct (_ && _); [auto with approval|].
  apply ap_bind_moves; [apply insert_decision_moves|]. intros db3 inserted Hins.
  destruct inserted.
  - apply insert_decision_true in Hins as [_ ->]. apply apply_decision_moves;
      [apply decided_status_not_pending|exact Hd|].
    intros Hst. apply decided_status_approved in Hst as (-> & _ & _).
    apply actor_authorized_spec in Hauth as (Ho & Hrev & Hch).
    destruct (Hch (Hrev eq_refl)) as [Ec _]. exists (at_delivery_id actor). eexists. simpl. rewrite -Ec lookup_insert_eq.
    by split_and!.
  - destruct (repeated_decision _ _ _ _ _ _); auto with approval.
Qed.

Lemma sweep_loop_moves envs n due db :
  rtc moves db
    (sweep_loop jsonb json_text unmarshal_binding hooks envs n due db).1.
Proof.
  revert n db. induction due as [|[id owner] rest IH]; intros n db; simpl; [apply rtc_refl|].
  apply ap_bind_moves; [|intros db' [] _; apply IH].
  unfold sweep_one. destruct (GetApprovalByID _ _ _ _ _); [|auto with approval].
  apply ap_bind_moves; [apply ResolveDurable_moves|]. intros db' x _. apply rtc_refl.
Qed.

Lemma SelectTabCandidate_moves env approval token at_ db :
  rtc moves db (SelectTabCandidate env approval token at_ db).1.
Proof.
  unfold SelectTabCandidate. destruct (ae_fault env 0), (ae_fault env 1); try apply rtc_refl.
  destruct (ae_fault env 2); [apply rtc_refl|]. destruct (ap_candidates _ !! token);
    [|apply rtc_refl]. destruct (negb _); [apply rtc_refl|].
  destruct (other_selected _ _ _); [apply rtc_refl|]. destruct (ae_fault env 3);
    [apply rtc_refl|]. apply rtc_once. by apply moves_same.
Qed.

Lemma insert_candidates_moves env l db : rtc moves db (insert_candidates env l db).1.
Proof.
  revert db. induction l as [|c l IH]; intros db; simpl; [apply rtc_refl|].
  apply ap_bind_moves; [|intros db' [] _; apply IH]. unfold insert_candidate.
  case_bool_decide; [apply rtc_refl|]. destruct (negb _); [apply rtc_refl|].
  case_bool_decide; [apply rtc_refl|]. destruct (_ && _); [apply rtc_refl|].
  destruct (negb _); [apply rtc_refl|]. apply rtc_once. by apply moves_same.
Qed.

Lemma CreateTabCandidates_moves env n l db : rtc moves db (CreateTabCandidates env n l db).1.
Proof.
  unfold CreateTabCandidates. destruct l as [|c l]; [apply rtc_refl|].
  destruct (ae_fault env n); [apply rtc_refl|].
  pose proof (insert_candidates_moves env (c :: l) db) as H.
  destruct (insert_candidates _ _ _) as [db' []]; [exact H|apply rtc_refl].
Qed.

Lemma MarkActionCheckpoint_moves env run_id call state db :
  rtc moves db (MarkActionCheckpoint env run_id call state db).1.
Proof.
  unfold MarkActionCheckpoint. destruct (negb _); [apply rtc_refl|]. apply ap_fenced_moves.
  intros env'. apply ap_stmt_moves, rtc_once, (map_actions_moves db (fun id d =>
    match ap_approvals db !! id with Some a => _ | None => d end)).
  intros id d H. destruct (ap_approvals db !! id) as [a|]; [|apply action_moves_refl].
  destruct (_ && _) eqn:E; [|apply action_moves_refl]. apply andb_true_iff in E as [_ E].
  apply bool_decide_eq_true in E. unfold action_moves. split_and!; [done..|].
  intros _. left. split; [|done]. unfold dispatchable. set_solver.
Qed.

Lemma blocked_action_moves db id d now : action_moves db id d (with_action_state "blocked" None now d).
Proof.
  unfold action_moves. split_and!; [done..|]. unfold dispatchable. simpl. intros H.
  exfalso. set_solver.
Qed.

Lemma InvalidateForControlTx_moves env tasks control owner db :
  rtc moves db (InvalidateForControlTx env tasks control owner db).1.
Proof.
  unfold InvalidateForControlTx. apply ap_stmt_moves. cbv zeta.
  set (db1 := add_events _ _).
  assert (H1 : moves db db1).
  { apply moves_approvals; [done|done| |]; simpl.
    - intros id r H. rewrite map_lookup_imap H /=. eexists. split; [reflexivity|].
      destruct (_ && _) eqn:E; [right|by left]. apply andb_true_iff in E as [_ E].
      apply bool_decide_eq_true in E. split_and!; [exact E|set_solver|done| |by eexists].
      unfold same_request. by split_and!.
    - intros id r H Hn. rewrite map_lookup_imap Hn in H. discriminate. }
  apply (rtc_l _ _ db1); [exact H1|]. apply ap_stmt_moves, rtc_once, (map_actions_moves db1
    (fun id d => match ap_approvals db1 !! id with Some a => _ | None => d end)).
  intros id d H. destruct (ap_approvals db1 !! id) as [a|]; [|apply action_moves_refl].
  destruct (_ && _); [apply blocked_action_moves|apply action_moves_refl].
Qed.

Lemma CreatePendingApproval_moves env p db :
  rtc moves db (CreatePendingApproval jsonb json_text marshal_binding marshal_details
                  continuation_version ArgumentsHash hooks env p db).1.
Proof.
  unfold CreatePendingApproval. destruct (negb _); [apply CreateDurable_moves|].
  destruct (pending_request_error _ _); [apply rtc_refl|].
  apply ap_bind_moves; [apply CreateApproval_moves|]. intros db1 record _.
  apply ap_bind_moves; [apply CreateTabCandidates_moves|]. intros db2 [] _.
  apply InsertEvent_moves.
Qed.

Section history.
Context {G : Type} {ops : GateOps G}.

Lemma resolveRecord_moves env record d (gate : option G) db :
  rtc moves db
    (resolveRecord jsonb json_text unmarshal_binding hooks env record d gate db).1.1.
Proof.
  unfold resolveRecord. destruct (HasDurableAction _ _ _ _) as [[]|]; [| |apply rtc_refl].
  - destruct (ActorFromContext _) as [actor|]; [|apply rtc_refl].
    pose proof (ResolveDurable_moves env record (de_approved d) actor (de_resolution_reason d) db) as H.
    by destruct (ResolveDurable _ _ _ _ _ _ _ _ _ _).
  - destruct (negb _); [apply rtc_refl|].
    match goal with |- context [ResolveApproval ?j ?e ?n ?p ?db] =>
      pose proof (ResolveApproval_moves e n p db) as H;
      destruct (ResolveApproval j e n p db) as [db' [updated|err]] end; simpl in *.
    + etransitivity; [apply H; [by destruct (de_approved d)|done]|apply InsertEvent_moves].
    + assert (Hm : rtc moves db db') by (apply H; [by destruct (de_approved d)|done]).
      case_bool_decide; [|exact Hm]. by destruct (GetApprovalByID _ _ _ _ _).
Qed.

Abbreviation step := (approval_step jsonb json_text marshal_binding marshal_details
  unmarshal_binding continuation_version ArgumentsHash hooks).
Abbreviation run := (approval_history jsonb json_text marshal_binding marshal_details
  unmarshal_binding continuation_version ArgumentsHash hooks).

Lemma approval_step_moves op (s : approval_db * option G) : rtc moves s.1 (step op s).1.
Proof.
  destruct s as [db gate]. destruct op; simpl.
  - apply CreatePendingApproval_moves.
  - apply resolveRecord_moves.
  - unfold ResolveByToolCall. case_bool_decide; [apply rtc_refl|].
    destruct (GetApprovalByToolCallID _ _ _ _ _); [apply resolveRecord_moves|apply rtc_refl].
  - unfold ResolveByApprovalID. case_bool_decide; [apply rtc_refl|].
    destruct (GetApprovalByID _ _ _ _ _); [apply resolveRecord_moves|apply rtc_refl].
  - apply SelectTabCandidate_moves.
  - apply MarkActionCheckpoint_moves.
  - apply ap_stmt_moves, sweep_loop_moves.
  - apply ap_tx_moves, InvalidateForControlTx_moves.
  - apply rtc_once. by apply moves_same.
Qed.

Lemma approval_history_moves l (s : approval_db * option G) : rtc moves s.1 (run l s).1.
Proof.
  revert s. induction l as [|op l IH]; intros s; [apply rtc_refl|].
  transitivity (step op s).1; [apply approval_step_moves|exact (IH (step op s))].
Qed.

(** C7: Every history of the package's calls, with stale records, faults and
    other writers of the other tables, refines the abstract machine in which
    a request is made, decided once and never again: seen from any request,
    the table only makes such steps.  A request keeps its content, and a row
    that is decided is never written again. *)
Theorem approvals_refine_decisions l (s : approval_db * option G) :
  (forall id, rtc decision_step (abstract s.1 id) (abstract (run l s).1 id))
  /\ requests_kept s.1 (run l s).1.
Proof.
  pose proof (approval_history_moves l s) as H. split.
  - intros id. exact (rtc_moves_abstract _ _ id H).
  - exact (rtc_moves_kept _ _ H).
Qed.

(** C5: In every history, an action that is ready, under way or done has its
    request approved, and a recorded decision in its favour, given by the
    owner of the action on the channel the request was sent to; and no tool
    call has two requests pending. *)
Theorem dispatched_actions_are_approved l (s : approval_db * option G) : approval_ok s.1 ->
  let db' := (run l s).1 in
  (forall id d, ap_actions db' !! id = Some d -> ac_state d ∈ ["ready"; "dispatching"; "completed"] ->
     exists a delivery di, ap_approvals db' !! id = Some a /\ ar_status a = "approved"
       /\ ap_decisions db' !! (ac_channel d, delivery) = Some di
       /\ di_approval_id di = id /\ di_owner_id di = ac_owner_id d /\ di_approved di = true
       /\ ac_decision_input_id d = Some (di_decision_input_id di))
  /\ (forall a b ra rb, ap_approvals db' !! a = Some ra -> ap_approvals db' !! b = Some rb ->
        ar_tool_call_id ra = ar_tool_call_id rb -> ar_status ra = "pending" ->
        ar_status rb = "pending" -> a = b).
Proof.
  intros Hok db'. pose proof (rtc_moves_keep_ok _ _ (approval_history_moves l s) Hok) as Hok'. split.
  - exact (ao_action _ Hok').
  - exact (ao_pending _ Hok').
Qed.

End history.

(** ** What a durable decision requires and does *)

(** The tables of requests, actions and decisions are untouched. *)
Definition same_tables (db db' : approval_db) : Prop :=
  ap_approvals db' = ap_approvals db /\ ap_actions db' = ap_actions db
  /\ ap_decisions db' = ap_decisions db.

Lemma same_tables_refl db : same_tables db db.
Proof. by split_and!. Qed.

Lemma same_tables_trans a b c : same_tables a b -> same_tables b c -> same_tables a c.
Proof. unfold same_tables. intuition congruence. Qed.

Lemma ap_stmt_Ok {A} env n db (k : approval_db * res A) db' a :
  ap_stmt env n db k = (db', Ok a) -> ae_fault env n = None /\ k = (db', Ok a).
Proof. unfold ap_stmt. by destruct (ae_fault env n). Qed.

Lemma ap_bind_Ok {A B} (r : approval_db * res A) (k : approval_db -> A -> approval_db * res B)
    db' b : ap_bind r k = (db', Ok b) -> exists db1 a, r = (db1, Ok a) /\ k db1 a = (db', Ok b).
Proof. destruct r as [db1 [a|e]]; simpl; [|discriminate]. intros H. by exists db1, a. Qed.

Lemma settle_task_tables env n task status revision db :
  same_tables db (settle_task env n task status revision db).1.
Proof.
  unfold settle_task, ap_stmt. case_bool_decide; [apply same_tables_refl|].
  destruct (ae_fault env n); [apply same_tables_refl|]. cbv zeta.
  destruct (qd_tasks _ !! task); [|apply same_tables_refl]. destruct (negb _);
    [apply same_tables_refl|]. case_bool_decide; [by split_and!|].
  destruct (jsonb_set _ _ _); by split_and!.
Qed.

Lemma run_hook_tables f db : same_tables db (run_hook f db).1.
Proof. unfold run_hook. destruct (f (ap_queue db)). by split_and!. Qed.

Lemma InsertEvent_tables env n e db : same_tables db (InsertEvent jsonb env n e db).1.
Proof.
  unfold InsertEvent, ap_fenced. destruct (Begin _ _ _ _); [|apply same_tables_refl].
  destruct (ae_fault _ n); [apply same_tables_refl|]. destruct (jsonb _); [|apply same_tables_refl].
  destruct (negb _); [apply same_tables_refl|]. destruct (_ || _ || _); by split_and!.
Qed.

(** A decision that is applied. *)
Lemma apply_decision_Ok env record actor d b decision outcome db db' rec flag :
  apply_decision jsonb json_text hooks env record actor d b decision outcome db
    = (db', Ok (rec, flag)) ->
  exists a, ap_approvals db !! ap_approval_id record = Some a /\ ar_status a = "pending"
  /\ flag = true /\ ap_decisions db' = ap_decisions db
  /\ ap_approvals db' = <[ap_approval_id record := resolved_row env
       (mkResolveParams (ap_approval_id record) "" outcome.1 (at_channel actor) (at_owner_id actor)
          outcome.2 (ae_time env)) a]> (ap_approvals db)
  /\ ap_actions db' = alter (with_action_state
       (if bool_decide (outcome.1 = "approved") then "ready" else "blocked") (Some decision)
       (ae_now env)) (ap_approval_id record) (ap_actions db)
  /\ ap_status rec = outcome.1.
Proof.
  destruct outcome as [status reason]. unfold apply_decision. intros H.
  apply ap_bind_Ok in H as (db1 & updated & Hres & H).
  destruct (ResolveApproval_Ok _ _ _ _ _ _ Hres) as (a & Ha & Hp & -> & ->).
  apply ap_bind_Ok in H as (db2 & [] & H2 & H). apply ap_stmt_Ok in H2 as [_ [= <-]].
  apply ap_bind_Ok in H as (db3 & [] & H3 & H). apply ap_bind_Ok in H as (db4 & [] & H4 & H).
  apply ap_bind_Ok in H as (db5 & [] & H5 & H). apply ap_stmt_Ok in H as [_ [= <- <- <-]].
  match type of H3 with settle_task ?e ?n ?t ?s ?r ?x = _ =>
    pose proof (settle_task_tables e n t s r x) as T3 end. rewrite H3 in T3.
  match type of H4 with run_hook ?f ?x = _ => pose proof (run_hook_tables f x) as T4 end.
  rewrite H4 in T4.
  match type of H5 with InsertEvent _ ?e ?n ?v ?x = _ =>
    pose proof (InsertEvent_tables e n v x) as T5 end. rewrite H5 in T5. simpl in *.
  destruct (same_tables_trans _ _ _ T3 (same_tables_trans _ _ _ T4 T5)) as (E1 & E2 & E3).
  exists a. split_and!; [exact Ha|exact Hp|done|exact E3|exact E1|exact E2|done].
Qed.

Lemma verifyAction_ok env n id b db : is_ok (verifyAction unmarshal_binding env n id b db) = true ->
  exists cx expires, load_context db id = Some cx /\ ar_expires_at (cx_approval cx) = Some expires
  /\ ae_now env < expires /\ binding_current b cx = true
  /\ unmarshal_binding (ac_binding_json (cx_action cx)) = Some b.
Proof.
  unfold verifyAction. destruct (ae_fault env n); [discriminate|].
  destruct (load_context db id) as [cx|]; [|discriminate].
  destruct (ar_expires_at (cx_approval cx)) as [expires|] eqn:He; [|discriminate].
  destruct (unmarshal_binding _) as [b'|] eqn:Hb; [|discriminate].
  destruct (_ && _ && _) eqn:E; [|discriminate]. intros _. exists cx, expires.
  apply andb_true_iff in E as [E Hcur]. apply andb_true_iff in E as [Eb Et]. unbool. subst b'.
  by split_and!.
Qed.

(** The pieces of a durable decision that changed something. *)
Lemma ResolveDurable_changed env record approved actor reason db db' rec :
  ResolveDurable jsonb json_text unmarshal_binding hooks env record approved actor reason db
    = (db', Ok (rec, true)) ->
  let id := ap_approval_id record in
  exists a d r b,
    ap_approvals db !! id = Some a /\ ap_actions db !! id = Some d
    /\ qd_runs (ap_queue db) !! ar_run_id a = Some r /\ ar_status a = "pending"
    /\ actor_authorized env actor approved d (ar_session_key a) = true
    /\ unmarshal_binding (ac_binding_json d) = Some b
    /\ ap_decisions db !! (at_channel actor, at_delivery_id actor) = None
    /\ let verified := is_ok (verifyAction unmarshal_binding env 3 id b db) in
       let outcome := decided_status approved verified
                        (bool_decide (rr_current_state r = "awaiting_approval")) reason in
       (ae_review env = true -> verified = false) /\ ap_status rec = outcome.1
       /\ ap_approvals db' = <[id := resolved_row env
            (mkResolveParams id "" outcome.1 (at_channel actor) (at_owner_id actor) outcome.2
               (ae_time env)) a]> (ap_approvals db)
       /\ ap_actions db' !! id = Some (with_action_state
            (if bool_decide (outcome.1 = "approved") then "ready" else "blocked")
            (Some (newApprovalID env)) (ae_now env) d).
Proof.
  intros H id. unfold ResolveDurable in H. destruct (_ || _ || _); [discriminate|].
  unfold ap_tx in H. match type of H with match ?x with _ => _ end = _ =>
    destruct x as [dbx [res|e]] eqn:E; [|discriminate] end. injection H as -> ->.
  apply ap_bind_Ok in E as (db1 & [] & E1 & E). apply ap_stmt_Ok in E1 as [_ [= <-]].
  apply ap_bind_Ok in E as (db2 & [] & E2 & E). apply ap_stmt_Ok in E2 as [_ [= <-]].
  fold id in E. destruct (ap_approvals db !! id) as [a|] eqn:Ha; simpl in E; [|discriminate].
  destruct (ap_actions db !! id) as [d|] eqn:Hd; simpl in E; [|discriminate].
  destruct (qd_runs _ !! _) as [r|] eqn:Hr; simpl in E; [|discriminate].
  destruct (actor_authorized _ _ _ _ _) eqn:Hauth; simpl in E; [|discriminate].
  destruct (GetApprovalByID _ _ _ _ _) as [current|]; [|discriminate].
  destruct (negb _); [discriminate|].
  destruct (unmarshal_binding _) as [b|] eqn:Hb; [|discriminate].
  destruct (ae_review env && _) eqn:Hrev; [discriminate|].
  apply ap_bind_Ok in E as (db3 & [] & Hins & E).
  2:{ destruct (repeated_decision _ _ _ _ _ _); discriminate. }
  apply insert_decision_true in Hins as [Hnone ->].
  destruct (apply_decision_Ok _ _ _ _ _ _ _ _ _ _ _ E) as (a' & Ha' & Hp & _ & _ & Eap & Eac & Est).
  simpl in Ha'. fold id in Ha'. replace a' with a in * by congruence.
  exists a, d, r, b. cbv zeta. split_and!; try done.
  - intros Hre. by rewrite Hre in Hrev.
  - rewrite Eac lookup_alter_eq. simpl. by rewrite Hd.
Qed.

Lemma ResolveDurable_unchanged env record approved actor reason db db' out :
  ResolveDurable jsonb json_text unmarshal_binding hooks env record approved actor reason db
    = (db', out) ->
  (forall rec, out <> Ok (rec, true)) -> db' = db.
Proof.
  intros H Hno. unfold ResolveDurable in H. destruct (_ || _ || _); [by injection H|].
  unfold ap_tx in H. match type of H with match ?x with _ => _ end = _ =>
    destruct x as [dbx [[rec flag]|e]] eqn:E; [|by injection H] end. injection H as -> <-.
  apply ap_bind_Ok in E as (db1 & [] & E1 & E). apply ap_stmt_Ok in E1 as [_ [= <-]].
  apply ap_bind_Ok in E as (db2 & [] & E2 & E). apply ap_stmt_Ok in E2 as [_ [= <-]].
  destruct (ap_approvals db !! _); simpl in E; [|discriminate].
  destruct (ap_actions db !! _); simpl in E; [|discriminate].
  destruct (qd_runs _ !! _); simpl in E; [|discriminate]. destruct (negb _); [discriminate|].
  destruct (GetApprovalByID _ _ _ _ _); [|discriminate]. destruct (negb _); [congruence|].
  destruct (unmarshal_binding _); [|discriminate]. destruct (_ && _); [congruence|].
  apply ap_bind_Ok in E as (db3 & inserted & Hins & E). destruct inserted.
  - destruct (apply_decision_Ok _ _ _ _ _ _ _ _ _ _ _ E) as (_ & _ & _ & -> & _).
    case: (Hno rec eq_refl).
  - destruct (repeated_decision _ _ _ _ _ _); [|discriminate]. injection E as <- _ _.
    unfold insert_decision, ap_stmt in Hins. destruct (ae_fault env 4); [discriminate|].
    cbv zeta in Hins. destruct (bool_decide _); [congruence|]. destruct (existsb _ _); congruence.
Qed.

(** C31: A durable decision approves an action only if it is given by the
    owner on the channel of the request (and in the same chat), the request
    is pending and has not expired, the run still waits for it, and the task,
    its revision and constraints and the owner are the ones the action was
    bound to; then the action is ready, with that decision.  Any answer other
    than a fresh decision leaves every table as it was. *)
Theorem durable_approval_exact env record approved actor reason db db' out :
  ResolveDurable jsonb json_text unmarshal_binding hooks env record approved actor reason db
    = (db', out) ->
  let id := ap_approval_id record in
  ((forall rec, out <> Ok (rec, true)) -> db' = db)
  /\ (forall rec, out = Ok (rec, true) -> ap_status rec = "approved" ->
      approved = true /\ ae_review env = false
      /\ exists a d cx expires b,
         ap_approvals db !! id = Some a /\ ap_actions db !! id = Some d
         /\ load_context db id = Some cx /\ cx_approval cx = a /\ cx_action cx = d
         /\ at_owner_id actor = ac_owner_id d /\ at_channel actor = ac_channel d
         /\ (ac_channel d = "telegram" -> at_session_key actor = ar_session_key a)
         /\ ar_status a = "pending" /\ ar_expires_at a = Some expires /\ ae_now env < expires
         /\ rr_current_state (cx_run cx) = "awaiting_approval"
         /\ unmarshal_binding (ac_binding_json d) = Some b
         /\ cx_owner cx = ab_owner_id b /\ default "" (rr_task_id (cx_run cx)) = ab_task_id b
         /\ default 0 (rr_task_revision (cx_run cx)) = ab_task_revision b
         /\ (ab_task_id b <> "" -> exists t, cx_task cx = Some t
              /\ tk_revision t = ab_task_revision b
              /\ tk_constraints_revision t = ab_constraints_revision b
              /\ tk_status t ∈ ["active"; "waiting_for_user"])
         /\ ap_actions db' !! id
            = Some (with_action_state "ready" (Some (newApprovalID env)) (ae_now env) d)).
Proof.
  intros H id. split; [exact (ResolveDurable_unchanged _ _ _ _ _ _ _ _ H)|].
  intros rec -> Hst.
  destruct (ResolveDurable_changed _ _ _ _ _ _ _ _ H)
    as (a & d & r & b & Ha & Hd & Hr & Hp & Hauth & Hb & _ & Hrev & Est & Hap & Hac).
  rewrite Hst in Est. symmetry in Est.
  destruct (decided_status_approved _ _ _ _ Est) as (-> & Hv & Haw).
  apply actor_authorized_spec in Hauth as (Ho & Hrv & Hch). specialize (Hrv eq_refl).
  destruct (Hch Hrv) as [Hc Htel]. split; [done|]. split; [exact Hrv|].
  destruct (verifyAction_ok _ _ _ _ _ Hv) as (cx & expires & Hcx & He & Hlt & Hcur & Hb').
  pose proof Hcx as Hload. unfold load_context in Hload. fold id in Ha, Hd.
  rewrite Ha Hd /= Hr /= in Hload. destruct (qd_sessions _ !! _); [|discriminate].
  assert (cx_approval cx = a /\ cx_action cx = d /\ cx_run cx = r) as (Ea & Ed & Er)
    by (by injection Hload as <-).
  rewrite Ea in He. rewrite Ed in Hb'. apply bool_decide_eq_true in Haw.
  rewrite Est (bool_decide_true ("approved" = "approved")) // in Hac.
  destruct (binding_current_spec _ _ Hcur) as (B1 & B2 & B3 & B4).
  exists a, d, cx, expires, b. rewrite Er in B2, B3 |- *. by split_and!.
Qed.

(** ** The sweep *)

(** What one round of the sweep may do to a request. *)
Definition swept (r r' : ApprovalRow) : Prop :=
  r' = r \/ ar_status r = "pending" /\ ar_status r' = "expired" /\ ar_resolved_via r' = Some "system".

Lemma swept_trans a b c : swept a b -> swept b c -> swept a c.
Proof.
  intros [->|(H1 & H2 & H3)] [->|(H4 & H5 & H6)]; [by left|right; by split_and!..|congruence].
Qed.

Lemma sweep_one_swept env id owner db i r : ap_approvals db !! i = Some r ->
  exists r', ap_approvals (sweep_one jsonb json_text unmarshal_binding hooks env id owner db).1
               !! i = Some r' /\ swept r r'.
Proof.
  intros Hr. unfold sweep_one. destruct (GetApprovalByID _ _ _ _ _) as [record|] eqn:Hg.
  2:{ exists r. split; [exact Hr|by left]. }
  match goal with |- context [ResolveDurable _ _ _ _ ?e ?rc ?ap ?ac ?re ?x] =>
    destruct (ResolveDurable jsonb json_text unmarshal_binding hooks e rc ap ac re x)
      as [db' out] eqn:H end.
  assert (Hkey : exists r', ap_approvals db' !! i = Some r' /\ swept r r').
  { destruct out as [[rec []]|e].
    - destruct (ResolveDurable_changed _ _ _ _ _ _ _ _ H)
        as (a & d & q & b & Ha & _ & _ & Hp & _ & _ & _ & Hrev & _ & Hap & _).
      rewrite Hap. destruct (decide (ap_approval_id record = i)) as [<-|Hne].
      + rewrite lookup_insert_eq. eexists. split; [reflexivity|]. right.
        replace r with a by congruence. simpl. rewrite (Hrev eq_refl).
        destruct (bool_decide _); by split_and!.
      + rewrite lookup_insert_ne //. exists r. split; [exact Hr|by left].
    - rewrite (ResolveDurable_unchanged _ _ _ _ _ _ _ _ H); [|exists r; split; [exact Hr|by left]].
      intros rec' [=].
    - rewrite (ResolveDurable_unchanged _ _ _ _ _ _ _ _ H); [done|].
      exists r. split; [exact Hr|by left]. }
  by destruct out as [[rec flag]|e].
Qed.

Lemma sweep_loop_swept envs n due db i r : ap_approvals db !! i = Some r ->
  exists r', ap_approvals (sweep_loop jsonb json_text unmarshal_binding hooks envs n due db).1
               !! i = Some r' /\ swept r r'.
Proof.
  revert n db r. induction due as [|[id owner] rest IH]; intros n db r Hr; simpl.
  - exists r. split; [exact Hr|by left].
  - destruct (sweep_one_swept (envs n) id owner db i r Hr) as (r1 & H1 & S1).
    destruct (sweep_one _ _ _ _ _ _ _ _) as [db1 [[]|e]]; simpl in *.
    + destruct (IH (S n) db1 r1 H1) as (r2 & H2 & S2). exists r2.
      split; [exact H2|exact (swept_trans _ _ _ S1 S2)].
    + exists r1. by split.
Qed.

(** The sweep of invalid requests never grants anything: whatever clocks,
    faults and random bytes its rounds meet, a request is afterwards exactly
    what it was, or it was pending and is now expired by the system. *)
Theorem sweep_only_expires env envs db i r : ap_approvals db !! i = Some r ->
  exists r', ap_approvals (ExpireInvalidPending jsonb json_text unmarshal_binding hooks env envs
                             db).1 !! i = Some r'
  /\ (r' = r \/ ar_status r = "pending" /\ ar_status r' = "expired"
               /\ ar_resolved_via r' = Some "system").
Proof.
  intros Hr. unfold ExpireInvalidPending, ap_stmt. destruct (ae_fault env 0).
  - exists r. split; [exact Hr|by left].
  - exact (sweep_loop_swept _ _ _ _ _ _ Hr).
Qed.

(** ** The waiting process learns what is stored *)

Section gates.
Context {G : Type} {ops : GateOps G}.

Abbreviation run := (approval_history jsonb json_text marshal_binding marshal_details
  unmarshal_binding continuation_version ArgumentsHash hooks).

(** The compare-and-set of the service: decided by this call, or lost. *)
Lemma ResolveApproval_race env n p db db' out : rs_expected_status p = "pending" ->
  rs_status p <> "pending" -> ResolveApproval json_text env n p db = (db', out) ->
  match out with
  | Ok rec => exists r, ap_approvals db !! rs_approval_id p = Some r
      /\ ap_approvals db' = <[rs_approval_id p := resolved_row env p r]> (ap_approvals db)
      /\ rec = scanRecord json_text (rs_approval_id p) (resolved_row env p r)
  | Err e => db' = db /\ (e = ErrApprovalStatusConflict -> exists r,
      ap_approvals db !! rs_approval_id p = Some r /\ ar_status r <> "pending")
  end.
Proof.
  intros He Hs. unfold ResolveApproval. rewrite He. cbv zeta.
  change (or_default "pending" "pending") with "pending".
  destruct (ae_fault env n); [by intros [= <- <-]|].
  destruct (ap_approvals db !! rs_approval_id p) as [r|] eqn:Hr.
  2:{ intros [= <- <-]. unfold GetApprovalByID. rewrite Hr. by destruct (ae_fault env (S n)). }
  destruct (bool_decide (ar_status r = "pending")) eqn:Hp; unbool; simpl.
  - destruct (negb _); [by intros [= <- <-]|]. rewrite (bool_decide_false (rs_status p = _)) //=.
    intros [= <- <-]. exists r. by split_and!.
  - intros [= <- <-]. unfold GetApprovalByID. rewrite Hr. destruct (ae_fault env (S n)); [done|].
    simpl. rewrite bool_decide_false //=. split; [done|]. intros _. by exists r.
Qed.

(** A decision on a request of the running process, taken on a record
    that was read at any earlier point of the history, answers with the row
    that is stored and decided, and tells the waiting call exactly whether
    that row is approved: also when another channel decided first, and when
    the record was already out of date. *)
Theorem gate_told_stored_decision l (s0 : approval_db * option G) id r0 env d db' gate' rec fresh :
  ap_approvals s0.1 !! id = Some r0 ->
  ap_actions (run l s0).1 !! id = None ->
  resolveRecord jsonb json_text unmarshal_binding hooks env (scanRecord json_text id r0) d
    (run l s0).2 (run l s0).1 = (db', gate', Ok (rec, fresh)) ->
  exists r, ap_approvals db' !! id = Some r /\ rec = scanRecord json_text id r
  /\ ar_status r <> "pending"
  /\ gate' = gate_resolve (ar_tool_call_id r0) (bool_decide (ar_status r = "approved"))
               <$> (run l s0).2.
Proof.
  intros H0 Hact. pose proof (rtc_moves_kept _ _ (approval_history_moves l s0)) as Hk.
  destruct (Hk _ _ H0) as (r1 & H1 & _ & Hfix). set (s := run l s0) in *.
  unfold resolveRecord, HasDurableAction, tell_gate, approved_status.
  change (ap_approval_id (scanRecord json_text id r0)) with id. rewrite Hact.
  destruct (ae_fault env 1); [discriminate|]. rewrite bool_decide_false; [by intros []|].
  change (ap_status (scanRecord json_text id r0)) with (ar_status r0).
  change (ap_tool_call_id (scanRecord json_text id r0)) with (ar_tool_call_id r0).
  destruct (bool_decide (ar_status r0 = "pending")) eqn:Hp; unbool; cbn [negb].
  2:{ intros [= <- <- <- <-]. exists r0. rewrite (Hfix Hp) in H1. by split_and!. }
  set (p := mkResolveParams _ _ _ _ _ _ _).
  destruct (ResolveApproval json_text env 2 p s.1) as [db1 [updated|e]] eqn:E;
    apply ResolveApproval_race in E; try done; try by destruct (de_approved d).
  - destruct E as (r & Hr & Hdb & ->). cbv zeta. intros [= <- <- <- <-].
    match goal with |- context [InsertEvent _ ?e ?n ?v ?x] =>
      destruct (InsertEvent_tables e n v x) as (-> & _) end.
    rewrite Hdb lookup_insert_eq. eexists. split; [reflexivity|]. split; [reflexivity|].
    simpl. by destruct (de_approved d).
  - destruct E as [-> Hlost]. case_bool_decide as He; [|discriminate].
    destruct (Hlost He) as (r & Hr & Hn). simpl in Hr. unfold GetApprovalByID. rewrite Hr.
    destruct (ae_fault env 5); [discriminate|]. intros [= <- <- <- <-]. by exists r.
Qed.

End gates.

(** ** Selection of a tab *)

(** A selection that succeeds leaves the chosen tab selected and no other
    tab of the request available or selected; the tabs of other requests stay
    as they were.  A selection that fails changes nothing. *)
Theorem SelectTabCandidate_exclusive env approval token at_ db db' out :
  SelectTabCandidate env approval token at_ db = (db', out) ->
  match out with
  | Err _ => db' = db
  | Ok c => ap_candidates db' !! token = Some c /\ tc_approval_id c = approval
      /\ tc_status c = "selected" /\ is_Some (tc_selected_at c)
      /\ (forall t c', t <> token -> ap_candidates db' !! t = Some c' ->
            tc_approval_id c' = approval -> tc_status c' <> "available"
            /\ tc_status c' <> "selected")
      /\ (forall t c', ap_candidates db !! t = Some c' -> tc_approval_id c' <> approval ->
            ap_candidates db' !! t = Some c')
  end.
Proof.
  unfold SelectTabCandidate. cbv zeta. destruct (ae_fault env 0); [by intros [= <- <-]|].
  destruct (ae_fault env 1); [by intros [= <- <-]|].
  destruct (ae_fault env 2); [by intros [= <- <-]|].
  destruct (ap_candidates (cancel_others approval token db) !! token) as [c|] eqn:Hc;
    [|by intros [= <- <-]].
  destruct (negb _) eqn:Hg; [by intros [= <- <-]|]. apply negb_false_iff, andb_true_iff in Hg as [Ha _].
  apply bool_decide_eq_true in Ha.
  destruct (other_selected _ _ _) eqn:Ho; [by intros [= <- <-]|].
  destruct (ae_fault env 3); [by intros [= <- <-]|]. intros [= <- <-].
  split; [apply lookup_insert_eq|]. split; [exact Ha|]. split; [done|]. split; [by eexists|]. split.
  - intros t c' Hne Ht Hap. simpl in Ht. rewrite (lookup_insert_ne _ _ _ _ (not_eq_sym Hne)) in Ht. split.
    + rewrite map_lookup_imap in Ht. destruct (ap_candidates db !! t) as [c0|]; [|discriminate].
      simpl in Ht. destruct (_ && _) eqn:E; injection Ht as <-; [done|]. intros Hav.
      by rewrite Hav Hap (bool_decide_false (t = token)) // !bool_decide_true // in E.
    + intros Hs. pose proof (existsb_exists (fun kr => bool_decide (tc_approval_id kr.2 = approval)
        && bool_decide (tc_status kr.2 = "selected") && negb (bool_decide (kr.1 = token)))
        (map_to_list (ap_candidates (cancel_others approval token db)))) as [_ Hex].
      unfold other_selected in Ho. rewrite Hex in Ho; [|discriminate]. exists (t, c').
      split; [by apply list_elem_of_In, elem_of_map_to_list|].
      simpl. by rewrite Hap Hs (bool_decide_false (t = token)) // !bool_decide_true.
  - intros t c' Ht Hap. simpl. assert (Htok : t <> token).
    { intros ->. rewrite map_lookup_imap Ht /= in Hc. injection Hc as <-.
      by rewrite bool_decide_false // in Ha. }
    rewrite (lookup_insert_ne _ _ _ _ (not_eq_sym Htok)) map_lookup_imap Ht /=. by rewrite (bool_decide_false (_ = approval)).
Qed.

End statements.

(** ** The queue of inputs behind the hooks *)

Lemma update_rows_frame p f q : queue_frame q (update_rows p f q).1.
Proof. by split_and!. Qed.

Lemma exactly_one_frame lost q u : queue_frame q u.1 -> queue_frame q (exactly_one lost q u).1.
Proof. unfold exactly_one. by destruct (Nat.eqb _ _). Qed.

Lemma queue_frame_refl q : queue_frame q q.
Proof. by split_and!. Qed.

(** An update that must hit one row, and did. *)
Lemma exactly_one_Ok lost p f q q' : exactly_one lost q (update_rows p f q) = (q', Ok tt) ->
  exists id r, qd_inputs q !! id = Some r /\ p id r = true
  /\ q' = set_inputs q (<[id := f r]> (qd_inputs q))
  /\ (forall id' r', qd_inputs q !! id' = Some r' -> p id' r' = true -> id' = id).
Proof.
  unfold exactly_one. destruct (Nat.eqb _ _) eqn:E; [|discriminate]. intros [= <-].
  apply Nat.eqb_eq in E. unfold update_rows in E. simpl in E.
  destruct (filter _ _) as [|[id r] [|? ?]] eqn:F; try discriminate E.
  assert (Hin : forall id' r', (id', r') ∈ [(id, r)] <->
    p id' r' = true /\ qd_inputs q !! id' = Some r').
  { intros id' r'. by rewrite -F list_elem_of_filter elem_of_map_to_list. }
  destruct (proj1 (Hin id r)) as [Hp Hr]; [by left|].
  assert (Hu : forall id' r', qd_inputs q !! id' = Some r' -> p id' r' = true -> id' = id).
  { intros id' r' H' P'. pose proof (proj2 (Hin id' r') (conj P' H')) as Hl.
    apply list_elem_of_singleton in Hl. congruence. }
  exists id, r. split_and!; [exact Hr|exact Hp| |exact Hu]. unfold update_rows. simpl. f_equal.
  apply map_eq. intros i. rewrite map_lookup_imap. destruct (decide (i = id)) as [->|Hne].
  - by rewrite lookup_insert_eq Hr /= Hp.
  - rewrite (lookup_insert_ne _ _ _ _ (not_eq_sym Hne)). destruct (qd_inputs q !! i) as [ri|] eqn:Ei; [|done]. simpl.
    destruct (p i ri) eqn:Pi; [|done]. by case: (Hne (Hu _ _ Ei Pi)).
Qed.

Lemma SuspendApprovalTx_frame jsonb env run approval payload q :
  queue_frame q (SuspendApprovalTx jsonb env run approval payload q).1.
Proof.
  unfold SuspendApprovalTx, stmt. destruct (qe_claim env); [|apply queue_frame_refl].
  destruct (qe_fault env 0); [apply queue_frame_refl|].
  destruct (jsonb payload); [|apply queue_frame_refl]. apply exactly_one_frame, update_rows_frame.
Qed.

Lemma ReadyApprovalTx_frame json_text env run approval q :
  queue_frame q (ReadyApprovalTx json_text env run approval q).1.
Proof.
  unfold ReadyApprovalTx, stmt. destruct (qe_fault env 0); [apply queue_frame_refl|].
  apply exactly_one_frame, update_rows_frame.
Qed.

(** The store of inputs implements the hooks. *)
Definition input_hooks (jsonb : string -> option jval) (json_text : jval -> string) :
    CheckpointHooks :=
  mkHooks (SuspendApprovalTx jsonb) (ReadyApprovalTx json_text)
    (SuspendApprovalTx_frame jsonb) (ReadyApprovalTx_frame json_text).

Section composed.
Context (jsonb : string -> option jval) (json_text : jval -> string)
  (unmarshal_binding : jval -> option ActionBinding).

Abbreviation hooks := (Some (input_hooks jsonb json_text)).

Definition same_inputs (db db' : approval_db) : Prop :=
  qd_inputs (ap_queue db') = qd_inputs (ap_queue db).

Lemma InsertEvent_queue env n e db : ap_queue (InsertEvent jsonb env n e db).1 = ap_queue db.
Proof.
  unfold InsertEvent, ap_fenced. destruct (Begin _ _ _ _); [|done].
  destruct (ae_fault _ n); [done|]. destruct (jsonb _); [|done].
  destruct (negb _); [done|]. by destruct (_ || _ || _).
Qed.

Lemma ResolveApproval_queue env n p db :
  ap_queue (ResolveApproval json_text env n p db).1 = ap_queue db.
Proof.
  unfold ResolveApproval. cbv zeta. destruct (ae_fault env n); [done|].
  destruct (ap_approvals db !! _); [|done]. destruct (negb _); [done|]. destruct (negb _); [done|].
  by destruct (_ && _ && _).
Qed.

Lemma settle_task_inputs env n task status revision db :
  same_inputs db (settle_task env n task status revision db).1.
Proof.
  unfold same_inputs, settle_task, ap_stmt. case_bool_decide; [done|].
  destruct (ae_fault env n); [done|]. cbv zeta. destruct (qd_tasks _ !! task); [|done].
  destruct (negb _); [done|]. case_bool_decide; [done|]. by destruct (jsonb_set _ _ _).
Qed.

(** What a fresh decision does to the inputs: one of them is readied. *)
Lemma apply_decision_wakes env record actor d b decision outcome db db' x :
  apply_decision jsonb json_text hooks env record actor d b decision outcome db = (db', Ok x) ->
  exists id r, qd_inputs (ap_queue db) !! id = Some r
  /\ waits_for json_text (ap_run_id record) (ap_approval_id record) r = true
  /\ ir_status r ∈ ["running"; "waiting_for_user"; "blocked"]
  /\ qd_inputs (ap_queue db') = <[id := ready_row (ae_now env) "approval_ready" r]>
                                  (qd_inputs (ap_queue db)).
Proof.
  destruct outcome as [status reason]. unfold apply_decision. intros H.
  apply ap_bind_Ok in H as (db1 & updated & H1 & H).
  apply ap_bind_Ok in H as (db2 & [] & H2 & H). apply ap_stmt_Ok in H2 as [_ [= <-]].
  apply ap_bind_Ok in H as (db3 & [] & H3 & H). apply ap_bind_Ok in H as (db4 & [] & H4 & H).
  apply ap_bind_Ok in H as (db5 & [] & H5 & H). apply ap_stmt_Ok in H as [_ [= <- _]].
  match type of H1 with ResolveApproval _ ?e ?n ?p ?x = _ =>
    pose proof (ResolveApproval_queue e n p x) as E1 end. rewrite H1 in E1. simpl in E1.
  match type of H3 with settle_task ?e ?n ?t ?s ?r ?x = _ =>
    pose proof (settle_task_inputs e n t s r x) as E3 end. rewrite H3 in E3.
  match type of H5 with InsertEvent _ ?e ?n ?v ?x = _ =>
    pose proof (InsertEvent_queue e n v x) as E5 end. rewrite H5 in E5. simpl in E5.
  unfold same_inputs in E3. simpl in E3. rewrite E1 in E3.
  unfold run_hook in H4. simpl in H4. unfold ReadyApprovalTx, stmt in H4.
  destruct (qe_fault _ 0); [discriminate|].
  destruct (exactly_one _ _ _) as [q [[]|e]] eqn:Hq; [|discriminate]. injection H4 as <-.
  apply exactly_one_Ok in Hq as (id & r & Hr & Hw & -> & _). apply andb_true_iff in Hw as [Hw Hs].
  apply bool_decide_eq_true in Hs. rewrite E3 in Hr. exists id, r. rewrite E5 /= E3.
  by split_and!.
Qed.

(** With the store of inputs behind the hooks, a fresh decision wakes
    exactly the input that waits for it: its checkpoint becomes
    [approval_ready], it is queued again unless a worker still runs it, and no
    other input changes. *)
Theorem decision_wakes_input env record approved actor reason db db' rec :
  ResolveDurable jsonb json_text unmarshal_binding hooks env record approved actor reason db
    = (db', Ok (rec, true)) ->
  exists id r r',
    qd_inputs (ap_queue db) !! id = Some r
    /\ waits_for json_text (ap_run_id record) (ap_approval_id record) r = true
    /\ qd_inputs (ap_queue db') !! id = Some r' /\ ir_checkpoint r' = "approval_ready"
    /\ ir_checkpoint_json r' = ir_checkpoint_json r /\ ir_not_before r' = ae_now env
    /\ (ir_status r = "running" /\ ir_status r' = "running"
        \/ ir_status r ∈ ["waiting_for_user"; "blocked"] /\ ir_status r' = "queued")
    /\ (forall id', id' <> id ->
          qd_inputs (ap_queue db') !! id' = qd_inputs (ap_queue db) !! id').
Proof.
  intros H. unfold ResolveDurable in H. destruct (_ || _ || _); [discriminate|].
  unfold ap_tx in H. match type of H with match ?x with _ => _ end = _ =>
    destruct x as [dbx [[rec0 flag]|e]] eqn:E; [|discriminate] end. injection H as -> -> ->.
  apply ap_bind_Ok in E as (db1 & [] & E1 & E). apply ap_stmt_Ok in E1 as [_ [= <-]].
  apply ap_bind_Ok in E as (db2 & [] & E2 & E). apply ap_stmt_Ok in E2 as [_ [= <-]].
  destruct (ap_approvals db !! _); simpl in E; [|discriminate].
  destruct (ap_actions db !! _); simpl in E; [|discriminate].
  destruct (qd_runs _ !! _); simpl in E; [|discriminate]. destruct (negb _); [discriminate|].
  destruct (GetApprovalByID _ _ _ _ _); [|discriminate]. destruct (negb _); [discriminate|].
  destruct (unmarshal_binding _); [|discriminate]. destruct (_ && _); [discriminate|].
  apply ap_bind_Ok in E as (db3 & inserted & Hins & E). destruct inserted.
  2:{ by destruct (repeated_decision _ _ _ _ _ _). }
  destruct (apply_decision_wakes _ _ _ _ _ _ _ _ _ _ E) as (id & ri & Hr & Hw & Hs & Hq).
  assert (Hq3 : ap_queue db3 = ap_queue db).
  { apply ap_stmt_Ok in Hins as [_ Hins]. cbv zeta in Hins. destruct (bool_decide _); [by injection Hins as <-|].
    destruct (existsb _ _); [discriminate|]. by injection Hins as <-. }
  rewrite Hq3 in Hr, Hq. exists id, ri, (ready_row (ae_now env) "approval_ready" ri).
  rewrite Hq lookup_insert_eq. split_and!; try done.
  - simpl. destruct (decide (ir_status ri = "running")) as [Hrun|Hrun].
    + left. by rewrite bool_decide_true.
    + right. rewrite bool_decide_false //. set_solver.
  - intros id' Hne. by rewrite (lookup_insert_ne _ _ _ _ (not_eq_sym Hne)).
Qed.

End composed.

(** ** Witnesses *)

Definition demo_binding : ActionBinding :=
  mkBinding None None None None "" 0 false "" "action-1" "hash" "run-1" "call-1" "files.write" "" ""
    "44136fa355b3678a1146ad16f7e8649e94fb4fc21fe77e8310c060f61caaff8a" "" None "" "" 0 0 "owner" "write" "" 0 "" 0 "" 0 "" "" 0 0 None "" "" "" 0 None.

Definition demo_run : RunRow :=
  mkRunRow "chat" "event-1" None "tool_pending" "" "tool_pending" "" None None None 0 0 None None
    None "{}" None None.

Definition demo_input : InputRow :=
  mkInputRow "chat" 1 "event-1" "" "web" "owner" (JString "{}") None (Some "run-1") "running"
    "model" (JObject []) 1 3 "claim-1" (Some (60 * second)) 0 (24 * 3600 * second) 0 0 "" "" 1.

Definition demo_approvals : approval_db :=
  mkApprovalDb
    (mkQueueDb ∅ {["chat" := "owner"]} ∅ {["run-1" := demo_run]} {["input-1" := demo_input]} 2 ∅)
    [] ∅ ∅ ∅ [] ∅.

Definition demo_worker : InputRecord :=
  mkInputRecord "input-1" "chat" 1 "owner" "web" "" "run-1" "running" "model" "" (demo_event "{}")
    1 3 "claim-1" (Some (60 * second)) 0 0 0 "" "".

Definition demo_actor : Actor := mkActor "owner" "web" "chat" "delivery-1".

Definition demo_at (now : Z) (hex : string) : approval_env :=
  mkApprovalEnv (demo_env now (Some demo_worker)) now (Some hex) (Some demo_actor) false.

(** An exact action when [action] is set, else a choice between two tabs. *)
Definition demo_request (action : bool) : CreatePendingParams :=
  mkPendingParams
    (if action then demo_binding
     else mkBinding None None None None "" 0 false "" "" "" "" "" "" "" "" "" "" None "" "" 0 0 "" ""
            "" 0 "" 0 "" 0 "" "" 0 0 None "" "" "" 0 None)
    "{}" "run-1" "chat" "call-1" (if action then "" else "browser_tab_selection") "web" "files.write"
    "{}" "" "" "write" ""
    (if action then [] else
     [mkCandidateParams "" "tab-1" "ref-1" "One" "" "" "" "" "";
      mkCandidateParams "" "tab-2" "ref-2" "Two" "" "" "" "" ""])
    zero_time (Some (3600 * second)).

Definition demo_decision : Decision := mkDecision true "web" "owner" "fine" zero_time "web" "owner".

Abbreviation demo_hooks := (Some (input_hooks demo_jsonb demo_text)).
Abbreviation demo_approval_run := (@approval_history demo_jsonb demo_text ab_action_id ab_action_id
  (fun _ => Some demo_binding) (fun _ => Some 1) ArgumentsHash demo_hooks ApprovalGate ApprovalGate_ops).

Definition demo_id : string := "approval-1000000000-aa".

Definition demo_calls (action : bool) : list (@approval_op) :=
  [ACreatePending (demo_at second "aa") (demo_request action);
   AByApprovalID (demo_at (2 * second) "bb") demo_id demo_decision].

Definition demo_start : approval_db * option ApprovalGate := (demo_approvals, Some NewApprovalGate).

Abbreviation demo_waiting action := (demo_approval_run (take 1 (demo_calls action)) demo_start).
Abbreviation demo_decided action := (demo_approval_run (demo_calls action) demo_start).
Abbreviation demo_later := (demo_approval_run (drop 1 (demo_calls false)) (demo_waiting false)).

Lemma demo_approvals_ok : approval_ok demo_approvals.
Proof. split; intros *; rewrite lookup_empty; discriminate. Qed.

Lemma dispatched_actions_are_approved_witness :
  approval_ok demo_approvals
  /\ exists d a delivery di, ap_actions (demo_decided true).1 !! demo_id = Some d
     /\ ac_state d = "ready" /\ ap_approvals (demo_decided true).1 !! demo_id = Some a
     /\ ar_status a = "approved"
     /\ ap_decisions (demo_decided true).1 !! (ac_channel d, delivery) = Some di.
Proof.
  split; [exact demo_approvals_ok|].
  destruct (ap_actions (demo_decided true).1 !! demo_id) as [d|] eqn:E; [|vm_compute in E; discriminate].
  assert (Hs : ac_state d = "ready") by (vm_compute in E; injection E as <-; reflexivity).
  destruct (proj1 (dispatched_actions_are_approved demo_jsonb demo_text ab_action_id ab_action_id
    (fun _ => Some demo_binding) (fun _ => Some 1) ArgumentsHash demo_hooks
    (demo_calls true) demo_start demo_approvals_ok) demo_id d E)
    as (a & dl & di & Ha & Hap & Hd & _).
  - rewrite Hs. left.
  - exists d, a, dl, di. split; [reflexivity|]. split; [exact Hs|]. split; [exact Ha|].
    split; [exact Hap|exact Hd].
Defined.

Definition demo_record : ApprovalRecord :=
  mkApprovalRecord demo_id "run-1" "chat" "call-1" "tool_call" "pending" "web" "" "files.write" "{}"
    "{}" "medium" "write" "" second None "" "" (Some (3600 * second)) second.

Abbreviation demo_resolution := (ResolveDurable demo_jsonb demo_text (fun _ => Some demo_binding)
  demo_hooks (demo_at (2 * second) "bb") demo_record true demo_actor "fine" (demo_waiting true).1).

Lemma durable_approval_exact_witness :
  exists d, ap_actions (demo_waiting true).1 !! demo_id = Some d
  /\ ap_actions demo_resolution.1 !! demo_id
     = Some (with_action_state "ready" (Some (newApprovalID (demo_at (2 * second) "bb")))
               (2 * second) d).
Proof.
  destruct demo_resolution.2 as [[rec []]|e] eqn:E; [|vm_compute in E; discriminate..].
  assert (Hst : ap_status rec = "approved") by (vm_compute in E; injection E as <-; reflexivity).
  destruct (proj2 (durable_approval_exact demo_jsonb demo_text (fun _ => Some demo_binding) demo_hooks
    (demo_at (2 * second) "bb") demo_record true demo_actor "fine" (demo_waiting true).1 _ _
    (surjective_pairing _)) rec E Hst) as (_ & _ & a & d & cx & x & b & _ & Hd & _ & _ & _ & _ & _ & _
    & _ & _ & _ & _ & _ & _ & _ & _ & _ & H).
  exists d. split; [exact Hd|exact H].
Defined.

(** The sweep after the request has expired. *)
Lemma sweep_only_expires_witness :
  exists r r', ap_approvals (demo_waiting true).1 !! demo_id = Some r
  /\ ap_approvals (ExpireInvalidPending demo_jsonb demo_text (fun _ => Some demo_binding) demo_hooks
       (demo_at (4000 * second) "cc") (fun _ => demo_at (4000 * second) "cc")
       (demo_waiting true).1).1 !! demo_id = Some r'
  /\ r' <> r /\ ar_status r = "pending" /\ ar_status r' = "expired".
Proof.
  destruct (ap_approvals (demo_waiting true).1 !! demo_id) as [r|] eqn:E;
    [|vm_compute in E; discriminate].
  destruct (sweep_only_expires demo_jsonb demo_text (fun _ => Some demo_binding) demo_hooks
    (demo_at (4000 * second) "cc") (fun _ => demo_at (4000 * second) "cc") (demo_waiting true).1
    demo_id r E) as (r' & H & Hr).
  exists r, r'. split; [reflexivity|]. split; [exact H|].
  assert (Hne : r' <> r).
  { vm_compute in E. injection E as <-. vm_compute in H. injection H as <-. discriminate. }
  split; [exact Hne|]. destruct Hr as [Hr|(H1 & H2 & _)]; [case: (Hne Hr)|]. by split.
Defined.

Lemma gate_told_stored_decision_witness :
  exists r0 db' gate' rec r,
    resolveRecord demo_jsonb demo_text (fun _ => Some demo_binding) demo_hooks
      (demo_at (3 * second) "cc") (scanRecord demo_text demo_id r0)
      (mkDecision false "telegram" "owner" "no" second "telegram" "owner")
      demo_later.2 demo_later.1 = (db', gate', Ok (rec, false))
    /\ ap_approvals db' !! demo_id = Some r /\ rec = scanRecord demo_text demo_id r
    /\ ar_status r0 = "pending" /\ ar_status r = "approved".
Proof.
  destruct (ap_approvals (demo_waiting false).1 !! demo_id) as [r0|] eqn:E0;
    [|vm_compute in E0; discriminate].
  destruct (resolveRecord demo_jsonb demo_text (fun _ => Some demo_binding) demo_hooks
      (demo_at (3 * second) "cc") (scanRecord demo_text demo_id r0)
      (mkDecision false "telegram" "owner" "no" second "telegram" "owner")
      demo_later.2 demo_later.1)
    as [[db' gate'] [[rec []]|e]] eqn:E;
    [vm_compute in E0; injection E0 as <-; vm_compute in E; discriminate| |
     vm_compute in E0; injection E0 as <-; vm_compute in E; discriminate].
  destruct (gate_told_stored_decision demo_jsonb demo_text ab_action_id ab_action_id
    (fun _ => Some demo_binding) (fun _ => Some 1) ArgumentsHash demo_hooks (drop 1 (demo_calls false))
    (demo_waiting false) demo_id r0 _ _ _ _ _ _ E0 eq_refl E) as (r & Hr & Hrec & _ & _).
  exists r0, db', gate', rec, r. split; [exact E|]. split; [exact Hr|]. split; [exact Hrec|].
  vm_compute in E0. injection E0 as <-. split; [reflexivity|].
  vm_compute in E. injection E as <- _ _. vm_compute in Hr. injection Hr as <-. reflexivity.
Defined.

Abbreviation demo_selection := (SelectTabCandidate (demo_at (2 * second) "bb") demo_id "tab-1"
  zero_time (demo_waiting false).1).

Lemma SelectTabCandidate_exclusive_witness :
  exists c c', ap_candidates demo_selection.1 !! "tab-1" = Some c /\ tc_status c = "selected"
  /\ ap_candidates demo_selection.1 !! "tab-2" = Some c' /\ tc_status c' <> "available".
Proof.
  pose proof (SelectTabCandidate_exclusive (demo_at (2 * second) "bb") demo_id "tab-1" zero_time
    (demo_waiting false).1 demo_selection.1 demo_selection.2 (surjective_pairing _)) as H.
  assert (exists c, demo_selection.2 = Ok c) as [c E] by (eexists; vm_compute; reflexivity).
  rewrite E in H. destruct H as (H1 & _ & H2 & _ & H3 & _).
  destruct (ap_candidates demo_selection.1 !! "tab-2") as [c'|] eqn:E2;
    [|vm_compute in E2; discriminate].
  exists c, c'. split; [exact H1|]. split; [exact H2|]. split; [reflexivity|].
  apply (H3 "tab-2" c'); [discriminate|exact E2|].
  vm_compute in E2. injection E2 as <-. reflexivity.
Defined.

Lemma decision_wakes_input_witness :
  exists rec id r', demo_resolution.2 = Ok (rec, true)
  /\ qd_inputs (ap_queue demo_resolution.1) !! id = Some r' /\ ir_checkpoint r' = "approval_ready".
Proof.
  destruct demo_resolution.2 as [[rec []]|e] eqn:E; [|vm_compute in E; discriminate..].
  destruct (decision_wakes_input demo_jsonb demo_text (fun _ => Some demo_binding)
    (demo_at (2 * second) "bb") demo_record true demo_actor "fine" (demo_waiting true).1
    demo_resolution.1 rec) as (id & r & r' & _ & _ & H1 & H2 & _).
  - rewrite -E. apply surjective_pairing.
  - exists rec, id, r'. split; [reflexivity|]. split; [exact H1|exact H2].
Defined.
