(* ===== verification/Effect.v ===== *)
(** * Effect: the journal of external effects

    Package [internal/actionauth]: [effect.go] (types and [EffectIdentity]),
    [postgres.go], [effect_postgres.go], [browser_read.go] and
    [browser_preparation_rejection.go] (the evidence of absence),
    [browser_login.go], [sso_effect.go] and [credential_control.go] (the
    evidence of a login), [input_claim.go], [task_policy.go] and [budget.go].
    The tables are the record [effect_db], which extends the tables of the
    work queue; everything else a deployment keeps is [ed_rest].  The guards
    a deployment installs are the record [DispatchGuards]: they see the whole
    database and change at most [ed_rest].  The JSON columns hold Go values;
    [column] is what is read back of a value that was stored. *)
From Stdlib Require Import Ascii.
From stdpp Require Import pretty sorting.
From S2P Require Import Prelude GoStrings GoHash GoTime Ownership Run Input Approval.
Open Scope Z_scope.
Open Scope go_scope.

(** ** Types *)

Definition StatePrepared : string := "prepared".
Definition StateAllowed : string := "allowed".
Definition StateExecuting : string := "executing".
Definition StateConfirmed : string := "effect_confirmed".
Definition StateAbsent : string := "effect_absent".
Definition StateUnknown : string := "effect_unknown".

Definition EffectRead : string := "read".
Definition EffectPrepare : string := "prepare".
Definition EffectCommit : string := "commit".

(** [browserauth]: the protocol of one login. *)
Definition LoginTool : string := "browser.login".
Definition LoginRevision : string := "1".
Definition LoginVerification : string := "browser_login_v1".

Record SecretRef := mkSecretRef { sr_type : string; sr_alias : string; sr_field : string }.
Record LoginScope := mkLoginScope {
  ls_browser : string; ls_expected_url : string; ls_target_url : string; ls_form : string;
  ls_username : string; ls_password : string }.
Record LoginArgs := mkLoginArgs {
  la_scope : LoginScope; la_version : Z; la_username_ref : SecretRef;
  la_password_ref : SecretRef }.
Record Proof_ := mkProof {
  pf_protocol : string; pf_submitted_once : bool; pf_authenticated_read : bool;
  pf_anonymous_challenge : bool }.

(** [browsersso]: the protocol of one federated login. *)
Definition SSOTool : string := "browser.sso_login".
Definition SSORequestTool : string := "credentials.request_sso_login".
Definition SSORevision : string := "1".
Definition SSOVerification : string := "browser_sso_login_v1".

Record SSOArgs := mkSSOArgs {
  sa_scope : SSOScope; sa_digest : string; sa_username_ref : SecretRef;
  sa_password_ref : SecretRef }.

Record LocalPreparationBinding := mkLocalPreparation {
  lp_session_id : string; lp_expected_url : string; lp_observation_version : Z }.

Record EffectPolicy := mkEffectPolicy {
  ep_sso : option SSOArgs;
  ep_login : option LoginArgs;
  ep_retry_safety : string;
  ep_verification_method : string;
  ep_idempotency_header : string;
  ep_scope_origin : string;
  ep_verification_url : string;
  ep_local_preparation : option LocalPreparationBinding;
}.

Record LoginEvidence := mkLoginEvidence {
  le_scope_digest : string; le_landing_digest : string; le_browser : string; le_version : Z;
  le_proof : Proof_ }.
Record SSOEvidence := mkSSOEvidence {
  se_scope_digest : string; se_landing_digest : string; se_browser : string; se_page : PageRef;
  se_proof : Proof_ }.

Record EffectEvidence := mkEvidence {
  ee_sso : option SSOEvidence;
  ee_login : option LoginEvidence;
  ee_evidence_id : string;
  ee_action_id : string;
  ee_source_action_id : string;
  ee_source_tool_call_id : string;
  ee_source_run_id : string;
  ee_source : string;
  ee_method : string;
  ee_verdict : string;
  ee_result_digest : string;
  ee_artifact_digest : string;
  ee_normalized_result_digest : string;
  ee_error_category : string;
  ee_observed_at : Z;
  ee_recorded_at : Z;
}.

Record EffectRecord := mkEffectRecord {
  er_action_id : string;
  er_fingerprint : string;
  er_binding : ActionBinding;
  er_policy : EffectPolicy;
  er_state : string;
  er_idempotency_key : string;
  er_authorization_id : string;
  er_dispatch_outcome : string;
  er_evidence_refs : list string;
  er_created_at : Z;
  er_updated_at : Z;
}.

Record Intent := mkIntent {
  it_binding : ActionBinding;
  it_requires_approval : bool;
  it_expires_at : Z;
  it_effect_id : string;
  it_effect_fingerprint : string;
  it_effect_policy : EffectPolicy;
}.

Record Grant := mkGrant {
  gt_input_claim_hash : string;
  gt_id : string;
  gt_binding : ActionBinding;
  gt_approval_id : string;
  gt_mandate_id : string;
  gt_mandate_revision : Z;
  gt_lease_id : string;
  gt_lease_epoch : Z;
  gt_autonomy_mode : Z;
  gt_expires_at : Z;
  gt_state : string;
}.

Definition with_grant_state (s : string) (g : Grant) : Grant :=
  mkGrant (gt_input_claim_hash g) (gt_id g) (gt_binding g) (gt_approval_id g) (gt_mandate_id g)
    (gt_mandate_revision g) (gt_lease_id g) (gt_lease_epoch g) (gt_autonomy_mode g)
    (gt_expires_at g) s.

(** [budget.ToolIdentity]. *)
Record ToolIdentity := mkToolIdentity {
  ti_owner_communication : bool;
  ti_owner_reply : bool;
  ti_owner_credential_interaction : bool;
  ti_run_id : string;
  ti_mandate_id : string;
  ti_effect_id : string;
  ti_tool_name : string;
  ti_args_hash : string;
  ti_contract_hash : string;
  ti_effect : string;
  ti_task_revision : Z;
  ti_constraints_revision : Z;
}.

(** ** Tables (migrations 031, 035 and 038) *)

(** [action_effects], by [action_id]. *)
Record EffectRow := mkEffectRow {
  fr_fingerprint : string;
  fr_initial_binding : ActionBinding;
  fr_policy : EffectPolicy;
  fr_state : string;
  fr_idempotency_key : string;
  fr_authorization_id : string;
  fr_dispatch_outcome : string;
  fr_created_at : Z;
  fr_updated_at : Z;
}.

(** [action_intents], by [action_id]. *)
Record IntentRow := mkIntentRow {
  nr_run_id : string;
  nr_tool_call_id : string;
  nr_action_hash : string;
  nr_binding : ActionBinding;
  nr_requires_approval : bool;
  nr_expires_at : Z;
  nr_created_at : Z;
  nr_effect_id : string;
  nr_effect_fingerprint : string;
  nr_effect_policy : EffectPolicy;
}.

(** [action_authorizations], by [authorization_id]; [action_id] is unique. *)
Record GrantRow := mkGrantRow {
  gr_action_id : string;
  gr_action_hash : string;
  gr_grant_data : Grant;
  gr_mandate_id : option string;
  gr_mandate_revision : Z;
  gr_expires_at : Z;
  gr_state : string;
  gr_dispatched_at : option Z;
  gr_finished_at : option Z;
  gr_created_at : Z;
}.

(** The columns of [action_mandates] that a dispatch reads, by [mandate_id]. *)
Record MandateRow := mkMandateRow {
  mr_owner_id : string;
  mr_task_id : string;
  mr_revision : Z;
  mr_expires_at : Z;
  mr_revoked_at : option Z;
  mr_scope_kind : string;
  mr_status : string;
}.

(** [action_effect_evidence], by [evidence_id]; a trigger refuses updates. *)
Record EvidenceRow := mkEvidenceRow {
  vr_action_id : string;
  vr_source_action_id : string;
  vr_evidence : EffectEvidence;
  vr_observed_at : Z;
  vr_recorded_at : Z;
}.

(** [action_effect_dispatches], by [authorization_id]. *)
Record DispatchRow := mkDispatchRow {
  dp_action_id : string;
  dp_execution_action_id : string;
  dp_outcome : string;
  dp_dispatched_at : Z;
  dp_finished_at : option Z;
}.

(** [ed_policies] is the column [execution_policy] of [tasks]. *)
Record effect_db (R : Type) := mkEffectDb {
  ed_queue : queue_db;
  ed_policies : gmap string string;
  ed_effects : gmap string EffectRow;
  ed_intents : gmap string IntentRow;
  ed_grants : gmap string GrantRow;
  ed_mandates : gmap string MandateRow;
  ed_evidence : gmap string EvidenceRow;
  ed_dispatches : gmap string DispatchRow;
  ed_rest : R;
}.
Arguments mkEffectDb {R}. Arguments ed_queue {R}. Arguments ed_policies {R}.
Arguments ed_effects {R}. Arguments ed_intents {R}. Arguments ed_grants {R}.
Arguments ed_mandates {R}. Arguments ed_evidence {R}. Arguments ed_dispatches {R}.
Arguments ed_rest {R}.

Section tables.
Context {R : Type}.

Definition set_effects (db : effect_db R) (t : gmap string EffectRow) : effect_db R :=
  mkEffectDb (ed_queue db) (ed_policies db) t (ed_intents db) (ed_grants db) (ed_mandates db)
    (ed_evidence db) (ed_dispatches db) (ed_rest db).
Definition set_intents (db : effect_db R) (t : gmap string IntentRow) : effect_db R :=
  mkEffectDb (ed_queue db) (ed_policies db) (ed_effects db) t (ed_grants db) (ed_mandates db)
    (ed_evidence db) (ed_dispatches db) (ed_rest db).
Definition set_grants (db : effect_db R) (t : gmap string GrantRow) : effect_db R :=
  mkEffectDb (ed_queue db) (ed_policies db) (ed_effects db) (ed_intents db) t (ed_mandates db)
    (ed_evidence db) (ed_dispatches db) (ed_rest db).
Definition set_mandates (db : effect_db R) (t : gmap string MandateRow) : effect_db R :=
  mkEffectDb (ed_queue db) (ed_policies db) (ed_effects db) (ed_intents db) (ed_grants db) t
    (ed_evidence db) (ed_dispatches db) (ed_rest db).
Definition set_evidence (db : effect_db R) (t : gmap string EvidenceRow) : effect_db R :=
  mkEffectDb (ed_queue db) (ed_policies db) (ed_effects db) (ed_intents db) (ed_grants db)
    (ed_mandates db) t (ed_dispatches db) (ed_rest db).
Definition set_dispatches (db : effect_db R) (t : gmap string DispatchRow) : effect_db R :=
  mkEffectDb (ed_queue db) (ed_policies db) (ed_effects db) (ed_intents db) (ed_grants db)
    (ed_mandates db) (ed_evidence db) t (ed_rest db).
Definition set_rest (db : effect_db R) (r : R) : effect_db R :=
  mkEffectDb (ed_queue db) (ed_policies db) (ed_effects db) (ed_intents db) (ed_grants db)
    (ed_mandates db) (ed_evidence db) (ed_dispatches db) r.

(** ** Calls *)

(** What a call reads: the start of its transaction ([NOW()]), the clock of
    the database at its n-th statement, the clock of the process, the fault of
    its n-th statement and of the commit.  A commit that reports an error may
    or may not have taken effect. *)
Record effect_env := mkEffectEnv {
  fe_now : Z;
  fe_clock : nat -> Z;
  fe_time : Z;
  fe_fault : nat -> option error;
  fe_commit : option (bool * error);
}.

Definition fx_bind {A B} (r : effect_db R * res A) (k : effect_db R -> A -> effect_db R * res B) :
    effect_db R * res B :=
  match r with (db, Ok a) => k db a | (db, Err e) => (db, Err e) end.

(** A check that only reads. *)
Definition fx_check {A B} (r : res A) (db : effect_db R) (k : A -> effect_db R * res B) :
    effect_db R * res B :=
  match r with Ok a => k a | Err e => (db, Err e) end.

(** The n-th statement: it may fail. *)
Definition fx_stmt {A} (env : effect_env) (n : nat) (db : effect_db R) (k : effect_db R * res A) :
    effect_db R * res A :=
  match fe_fault env n with Some e => (db, Err e) | None => k end.

(** A transaction: rolled back when its work fails. *)
Definition fx_tx {A} (env : effect_env) (db : effect_db R) (work : effect_db R * res A) :
    effect_db R * res A :=
  match work with
  | (_, Err e) => (db, Err e)
  | (db', Ok a) =>
      match fe_commit env with
      | None => (db', Ok a)
      | Some (took, e) => (if took then db' else db, Err e)
      end
  end.
End tables.

Notation "'step' db , x <== r ;; k" := (fx_bind r (fun db x => k))
  (at level 60, db name, x name, r at next level, right associativity) : go_scope.
Notation "'check' x <== r 'at' db ;; k" := (fx_check r db (fun x => k))
  (at level 60, x name, r at next level, db at next level, right associativity) : go_scope.

(** An error that replaces whatever went wrong. *)
Definition or_else {A} (e : error) (r : res A) : res A :=
  match r with Ok a => Ok a | Err _ => Err e end.

(** What is read back of a value stored as JSON; the store may refuse it. *)
Class Column (A : Type) := column : A -> res A.

(** The rules of packages [browserauth] and [browsersso] for a scope
    ([Scope.Validate() == nil]), and the hash of a reviewed contract of a
    control tool ([ContractHash(Contract(name))], [None] without contract). *)
Record ScopeRules := mkScopeRules {
  sc_login_valid : LoginScope -> bool;
  sc_sso_valid : SSOScope -> bool;
  sc_credential_contract : string -> option (res string);
  sc_communication_contract : string -> res string;
}.

(** ** The guards a deployment installs *)

(** [DispatchClaimGuard]. *)
Record ClaimGuard (R : Type) := mkClaimGuard {
  CheckAdmissionTx : effect_env -> effect_db R -> Grant -> res unit;
  ClaimActionTx : effect_env -> effect_db R -> Grant -> string -> R * res unit;
}.
Arguments mkClaimGuard {R}. Arguments CheckAdmissionTx {R}. Arguments ClaimActionTx {R}.

(** The operations of [budget.Controller] on a tool call. *)
Record ToolBudgets (R : Type) := mkToolBudgets {
  ReserveToolTx : effect_env -> effect_db R -> ToolIdentity -> R * res unit;
  ObserveToolTx : effect_env -> effect_db R -> ToolIdentity -> string -> string -> R * res unit;
}.
Arguments mkToolBudgets {R}. Arguments ReserveToolTx {R}. Arguments ObserveToolTx {R}.

(** The fields of [PostgresStore] ([None] is nil), [CheckTaskActionTx], and
    whether the page of a federated login is still current. *)
Record DispatchGuards (R : Type) := mkGuards {
  dg_budgets : option (ToolBudgets R);
  dg_contract : option (effect_env -> effect_db R -> ActionBinding -> res unit);
  dg_run_data : option (effect_env -> effect_db R -> Token -> res unit);
  dg_claim : option (ClaimGuard R);
  dg_task_action : effect_env -> effect_db R -> ActionBinding -> Z -> res unit;
  dg_sso_page : effect_env -> effect_db R -> Grant -> EffectPolicy -> SSOEvidence -> bool;
}.
Arguments mkGuards {R}. Arguments dg_budgets {R}. Arguments dg_contract {R}.
Arguments dg_run_data {R}. Arguments dg_claim {R}. Arguments dg_task_action {R}.
Arguments dg_sso_page {R}.

(** ** Pure rules *)

Definition digest (s : string) : string := sha256_hex s.

(** The byte zero. *)
Definition NUL : string := String (ascii_of_N 0) "".

(** [InputClaimHash]. *)
Definition InputClaimHash (input claim : string) : string :=
  if bool_decide (input = "") || bool_decide (claim = "") || Z.ltb 512 (go_len input)
     || Z.ltb 512 (go_len claim) || Contains input NUL || Contains claim NUL then ""
  else digest ("butler-guarded-input-claim-v1" +:+ NUL +:+ input +:+ NUL +:+ claim).

(** [CheckExecutionPolicy]. *)
Definition CheckExecutionPolicy (policy effect : string) : res unit :=
  if bool_decide (policy = "") || bool_decide (policy = "normal") then Ok tt
  else if bool_decide (policy = "prepare_only") then
    if bool_decide (effect = EffectRead) then Ok tt
    else Err (Errorf "task permits preparation only; external or unknown effects are denied")
  else Err (Errorf "unsupported trusted task execution policy").

(** [credentialcontrol.IsTool]. *)
Definition IsCredentialTool (name : string) : bool :=
  bool_decide (name ∈ ["credentials.search"; "credentials.request_access";
    "credentials.request_create"; "credentials.request_otp"; "credentials.request_status";
    "credentials.request_login"; SSORequestTool; "credentials.request_external_login"]).

Definition BrowserGETVerification : string := "guarded_browser_get_v1".

(** Nil and empty slices have no elements. *)
Definition refs_of (b : ActionBinding) : list CredentialRef := default [] (ab_credential_refs b).
Definition no_refs (b : ActionBinding) : bool := bool_decide (refs_of b = []).

Section rules.
Context (sc : ScopeRules).

Definition standardCredentialControl (b : ActionBinding) : bool :=
  match sc_credential_contract sc (ab_tool_name b) with
  | None => false
  | Some hash =>
      bool_decide (ab_resource b = "tool:" +:+ ab_tool_name b) && no_refs b
      && bool_decide (hash = Ok (ab_contract_hash b))
      && bool_decide (ab_effect b =
           if bool_decide (ab_tool_name b = "credentials.search")
              || bool_decide (ab_tool_name b = "credentials.request_status")
           then EffectRead else EffectPrepare)
  end.

(** [toolBudgetIdentity]. *)
Definition toolBudgetIdentity (g : Grant) (effect : string) : ToolIdentity :=
  let b := gt_binding g in
  let reply :=
    bool_decide (ab_tool_name b = "communication.message")
    && bool_decide (ab_effect b = EffectPrepare) && Z.eqb (go_len (gt_input_claim_hash g)) 64
    && Z.eqb (go_len (ab_communication_destinations_hash b)) 64 && no_refs b
    && bool_decide (ab_resource b = "tool:communication.message")
    && bool_decide (sc_communication_contract sc (ab_tool_name b) = Ok (ab_contract_hash b)) in
  mkToolIdentity (ab_owner_communication b) reply
    (standardCredentialControl b && bool_decide (ab_effect b = EffectPrepare)
     && Z.eqb (go_len (gt_input_claim_hash g)) 64)
    (ab_run_id b) (gt_mandate_id g) effect (ab_tool_name b) (ab_args_hash b) (ab_contract_hash b)
    (ab_effect b) (ab_task_revision b) (ab_constraints_revision b).

(** ** Evidence of absence *)

Definition browserReadContract (b : ActionBinding) : bool :=
  bool_decide (ab_contract_revision b = "2")
    && (bool_decide (ab_tool_name b = "browser.submit_get_form")
        || bool_decide (ab_tool_name b = "browser.follow_link"))
  || bool_decide (ab_contract_revision b = "4") && bool_decide (ab_tool_name b = "browser.navigate").

Definition browserReadReason (b : ActionBinding) (reason : string) : bool :=
  if bool_decide (reason ∈ ["page_changed"; "stale_observation"; "invalid_args"]) then true
  else if bool_decide (reason ∈ ["get_form_denied"; "invalid_selector"])
  then bool_decide (ab_contract_revision b = "2")
  else if bool_decide (reason ∈ ["session_lost"; "network_frozen"])
  then bool_decide (ab_tool_name b = "browser.navigate")
       && bool_decide (ab_contract_revision b = "4")
  else false.

(** The JSON of a map lists its keys in order. *)
Definition browserReadRejectionDigest (reason : string) : string :=
  digest (json_object [("navigation_dispatched", "false");
    ("read_rejection", json_string "pre_navigation_v1"); ("reason", json_string reason)]).

Definition plain_policy (p : EffectPolicy) : bool :=
  bool_decide (ep_idempotency_header p = "") && bool_decide (ep_scope_origin p = "")
  && bool_decide (ep_verification_url p = "").

Definition browserReadAbsenceEvidence (b : ActionBinding) (p : EffectPolicy) (outcome : string)
    (e : EffectEvidence) : bool :=
  if negb (bool_decide (ab_effect b = EffectRead)) || negb (browserReadContract b)
     || negb (no_refs b) || negb (bool_decide (ep_retry_safety p = "read_only"))
     || negb (bool_decide (ep_verification_method p = BrowserGETVerification))
     || negb (bool_decide (outcome = "dispatch_completed"))
     || negb (bool_decide (ee_artifact_digest e = "")) then false else
  if bool_decide (ab_tool_name b = "browser.navigate") && negb (plain_policy p) then false else
  existsb (fun reason => browserReadReason b reason
             && bool_decide (ee_result_digest e = browserReadRejectionDigest reason))
    ["page_changed"; "stale_observation"; "get_form_denied"; "invalid_args"; "invalid_selector";
     "session_lost"; "network_frozen"].

Definition preparationRejectionDigest (reason : string) : string :=
  digest (json_object [("input_dispatched", "false");
    ("preparation_rejection", json_string "pre_input_v1"); ("reason", json_string reason)]).

Definition preparation_tool (b : ActionBinding) : bool :=
  bool_decide (ab_tool_name b = "browser.prepare_fill")
  || bool_decide (ab_tool_name b = "browser.prepare_type").

Definition preparationAbsenceEvidence (b : ActionBinding) (p : EffectPolicy) (outcome : string)
    (e : EffectEvidence) : bool :=
  match ep_local_preparation p with
  | None => false
  | Some pinned =>
      if negb (bool_decide (ab_effect b = EffectPrepare))
         || negb (bool_decide (ab_contract_revision b = "3"))
            && negb (bool_decide (ab_contract_revision b = "4"))
         || negb (preparation_tool b) || bool_decide (lp_session_id pinned = "")
         || Z.eqb (lp_observation_version pinned) 0
         || negb (bool_decide (ab_resource b =
              "browser:" +:+ lp_session_id pinned +:+ ":" +:+ lp_expected_url pinned))
         || negb (bool_decide (ep_retry_safety p = "unsafe"))
         || negb (bool_decide (ep_verification_method p = "local_browser_preparation_v1"))
         || negb (plain_policy p) || negb (bool_decide (outcome = "dispatch_completed"))
         || negb (bool_decide (ee_artifact_digest e = "")) then false else
      existsb (fun reason => bool_decide (ee_result_digest e = preparationRejectionDigest reason))
        ["page_changed"; "stale_observation"; "invalid_args"; "invalid_selector"]
      || bool_decide (ab_contract_revision b = "4")
         && bool_decide (ee_result_digest e = preparationRejectionDigest "session_lost")
  end.

(** ** Evidence of a login *)

Definition validSSOScope (b : ActionBinding) : bool :=
  match ab_browser_sso b with
  | Some s => sc_sso_valid sc s
              && (bool_decide (ab_tool_name b = SSOTool) || bool_decide (ab_tool_name b = SSORequestTool))
  | None => false
  end.

(** A reference to a request of the vault: a prefix and 64 hexadecimal digits. *)
Definition request_alias (prefix alias : string) : bool :=
  Z.eqb (go_len alias) 69 && HasPrefix alias prefix && hex_decodes (String.substring 5 64 alias).

(** The loop over the two references of a login: the fields seen and the
    alias so far. *)
Fixpoint login_refs (prefix alias : string) (seen : list string) (refs : list CredentialRef) : bool :=
  match refs with
  | [] => true
  | r :: rest =>
      request_alias prefix (cr_alias r)
      && bool_decide (cr_field r ∈ ["username"; "password"])
      && negb (bool_decide (cr_field r ∈ seen))
      && (bool_decide (alias = "") || bool_decide (alias = cr_alias r))
      && login_refs prefix (cr_alias r) (cr_field r :: seen) rest
  end.

Definition vaultRequestBinding (b : ActionBinding) : bool :=
  if bool_decide (ab_tool_name b = LoginTool) || bool_decide (ab_tool_name b = SSOTool) then
    bool_decide (ab_effect b = EffectCommit)
    && bool_decide (ab_contract_revision b = LoginRevision)
    && Z.eqb (go_len (ab_credential_metadata_hash b)) 64
    && Nat.eqb (length (refs_of b)) 2
    && (negb (bool_decide (ab_tool_name b = SSOTool)) || validSSOScope b)
    && login_refs (if bool_decide (ab_tool_name b = SSOTool) then "ssoq_" else "creq_") "" []
         (refs_of b)
  else
    bool_decide (ab_effect b = EffectPrepare) && preparation_tool b
    && bool_decide (ab_contract_revision b ∈ ["2"; "3"; "4"])
    && Z.eqb (go_len (ab_credential_metadata_hash b)) 64
    && negb (no_refs b)
    && forallb (fun r => request_alias "creq_" (cr_alias r)
                         && bool_decide (cr_field r ∈ ["username"; "password"; "otp"])) (refs_of b).

Definition json_login_scope (s : LoginScope) : string :=
  json_object [("browser_session_id", json_string (ls_browser s));
    ("expected_url", json_string (ls_expected_url s)); ("target_url", json_string (ls_target_url s));
    ("form_selector", json_string (ls_form s)); ("username_selector", json_string (ls_username s));
    ("password_selector", json_string (ls_password s))].

Definition proof_complete (protocol : string) (p : Proof_) : bool :=
  bool_decide (pf_protocol p = protocol) && pf_submitted_once p && pf_authenticated_read p
  && pf_anonymous_challenge p.

Definition validLoginEvidence (p : EffectPolicy) (b : ActionBinding) (e : option LoginEvidence) : bool :=
  match ep_login p, e with
  | Some login, Some e =>
      bool_decide (ab_tool_name b = LoginTool) && bool_decide (ab_contract_revision b = LoginRevision)
      && bool_decide (ab_effect b = EffectCommit) && vaultRequestBinding b
      && sc_login_valid sc (la_scope login)
      && bool_decide (le_browser e = ls_browser (la_scope login))
      && Z.ltb (la_version login) (le_version e)
      && proof_complete LoginVerification (le_proof e)
      && bool_decide (le_scope_digest e = digest (json_login_scope (la_scope login)))
      && Z.eqb (go_len (le_landing_digest e)) 64 && hex_decodes (le_landing_digest e)
      && negb (bool_decide (le_landing_digest e = digest (ls_expected_url (la_scope login))))
  | _, _ => false
  end.

(** [browserpage.ID] and [Ref.Valid]: sixteen bytes in lower-case
    hexadecimal. *)
Definition page_id (s : string) : bool :=
  Z.eqb (go_len s) 32
  && forallb (fun c => in_range 48 57 c || in_range 97 102 c) (String.list_ascii_of_string s).
Definition page_valid (r : PageRef) : bool :=
  page_id (pr_id r) && page_id (pr_document_id r) && Z.ltb 0 (pr_version r).

Definition validSSOEvidence (p : EffectPolicy) (b : ActionBinding) (e : option SSOEvidence) : bool :=
  match ep_sso p, e with
  | Some sso, Some e =>
      validSSOScope b && bool_decide (ab_browser_sso b = Some (sa_scope sso))
      && bool_decide (pb_ref <$> ab_browser_page b = Some (so_rp_page (sa_scope sso)))
      && bool_decide (ab_tool_name b = SSOTool) && bool_decide (ab_contract_revision b = SSORevision)
      && bool_decide (ab_effect b = EffectCommit) && vaultRequestBinding b
      && bool_decide (se_browser e = so_browser (sa_scope sso)) && page_valid (se_page e)
      && bool_decide (pr_id (se_page e) = pr_id (so_rp_page (sa_scope sso)))
      && Z.ltb (pr_version (so_rp_page (sa_scope sso))) (pr_version (se_page e))
      && bool_decide (se_scope_digest e = sa_digest sso)
      && bool_decide (se_landing_digest e = digest (so_verify_url (sa_scope sso)))
      && proof_complete SSOVerification (se_proof e)
  | _, _ => false
  end.
End rules.

(** ** Identity of an effect *)

Definition without_execution (b : ActionBinding) : ActionBinding :=
  mkBinding (ab_browser_sso_inspection b) (ab_external_auth b) (ab_browser_sso b)
    (ab_browser_page b) (ab_browser_scope_url b) (ab_browser_scope_epoch b)
    (ab_owner_communication b) (ab_communication_destinations_hash b) "" "" "" ""
    (ab_tool_name b) (ab_contract_hash b) (ab_contract_revision b) (ab_args_hash b)
    (ab_resource b) (ab_credential_refs b) (ab_credential_metadata_hash b) (ab_task_id b)
    (ab_task_revision b) (ab_constraints_revision b) (ab_owner_id b) (ab_effect b) (ab_goal_id b)
    (ab_goal_revision b) (ab_mandate_id b) (ab_mandate_revision b) (ab_purpose b)
    (ab_owner_policy_revision b) (ab_extension_id b) (ab_extension_manifest_hash b)
    (ab_extension_generation b) (ab_extension_access_revision b)
    (ab_extension_access_expires_at b) (ab_converter_id b) (ab_converter_package_hash b)
    (ab_converter_need_hash b) (ab_converter_generation b) (ab_data_sources b).

(** [EffectIdentity]: the identity and the fingerprint; [marshal] is the JSON
    of a binding. *)
Definition EffectIdentity (marshal : ActionBinding -> res string) (b : ActionBinding) (ref : string) :
    res (string * string) :=
  encoded <-! marshal (without_execution b) ;;
  if bool_decide (ref = "") then Ok (ab_action_id b, digest encoded) else
  fail_when (Z.ltb 160 (go_len ref) || negb (bool_decide (TrimSpace ref = ref))
             || Contains ref NUL || Contains ref (String "013" "") || Contains ref (String "010" ""))
    with Errorf "logical action reference requires a trusted task checkpoint" ;;
  if bool_decide (ab_task_id b = "") then Ok (ab_action_id b, digest encoded) else
  Ok ("effect_" +:+ digest (ab_owner_id b +:+ NUL +:+ ab_task_id b +:+ NUL +:+ ref), digest encoded).

(** ** The store *)

Definition effect_states : list string :=
  [StatePrepared; StateAllowed; StateExecuting; StateConfirmed; StateAbsent; StateUnknown].
Definition undispatched (state : string) : bool :=
  bool_decide (state = StatePrepared) || bool_decide (state = StateAllowed).

Section store.
Context {R : Type} (guards : DispatchGuards R) (sc : ScopeRules)
  (text_le : string -> string -> Prop) `{!RelDecision text_le}
  `{!Column ActionBinding} `{!Column EffectPolicy} `{!Column Grant} `{!Column EffectEvidence}.

(** [ORDER BY recorded_at,evidence_id]. *)
Definition evidence_before (a b : string * EvidenceRow) : Prop :=
  vr_recorded_at a.2 < vr_recorded_at b.2
  \/ vr_recorded_at a.2 = vr_recorded_at b.2 /\ text_le a.1 b.1.
#[local] Instance evidence_before_dec : RelDecision evidence_before.
Proof. intros a b. unfold evidence_before. apply _. Defined.

Definition evidence_refs (db : effect_db R) (id : string) : list string :=
  fst <$> merge_sort evidence_before
    (filter (fun kr => vr_action_id kr.2 = id) (map_to_list (ed_evidence db))).

(** [effectIn]: two statements, the first at [n]. *)
Definition effectIn (env : effect_env) (n : nat) (id : string) (db : effect_db R) :
    res EffectRecord :=
  match fe_fault env n, ed_effects db !! id with
  | Some e, _ => Err e
  | None, None => Err ErrNoRows
  | None, Some r =>
      match fe_fault env (S n) with
      | Some e => Err e
      | None =>
          Ok (mkEffectRecord id (fr_fingerprint r) (fr_initial_binding r) (fr_policy r) (fr_state r)
                (fr_idempotency_key r) (fr_authorization_id r) (fr_dispatch_outcome r)
                (evidence_refs db id) (fr_created_at r) (fr_updated_at r))
      end
  end.

Definition GetEffect (env : effect_env) (id : string) (db : effect_db R) : res EffectRecord :=
  effectIn env 0 id db.

Definition GetEffectEvidence (env : effect_env) (id : string) (db : effect_db R) :
    res EffectEvidence :=
  match fe_fault env 0, ed_evidence db !! id with
  | Some e, _ => Err e
  | None, None => Err ErrNoRows
  | None, Some r => Ok (vr_evidence r)
  end.

(** [PutIntent]: the statement that inserts the effect or finds it. *)
Definition upsert_effect (env : effect_env) (i : Intent) (key : string) (b : ActionBinding)
    (p : EffectPolicy) (db : effect_db R) : effect_db R * string :=
  match ed_effects db !! it_effect_id i with
  | Some r => (db, fr_fingerprint r)
  | None =>
      (set_effects db (<[it_effect_id i :=
         mkEffectRow (it_effect_fingerprint i) b p StatePrepared key "" "" (fe_now env) (fe_now env)]>
         (ed_effects db)), it_effect_fingerprint i)
  end.

(** The upgrade of a legacy row: the number of rows affected. *)
Definition upgrade_effect (i : Intent) (key : string) (p : EffectPolicy) (db : effect_db R) :
    effect_db R * nat :=
  let id := it_effect_id i in
  let hash := ab_action_hash (it_binding i) in
  match ed_effects db !! id with
  | Some r =>
      if bool_decide (fr_fingerprint r = hash) && undispatched (fr_state r)
         && match ed_intents db !! id with
            | Some n => bool_decide (nr_action_hash n = hash) && bool_decide (nr_effect_id n = id)
            | None => false
            end
      then (set_effects db (<[id := mkEffectRow (it_effect_fingerprint i) (fr_initial_binding r) p
              (fr_state r) key (fr_authorization_id r) (fr_dispatch_outcome r) (fr_created_at r)
              (fr_updated_at r)]> (ed_effects db)), 1%nat)
      else (db, 0%nat)
  | None => (db, 0%nat)
  end.

(** The unique index on [(run_id, tool_call_id)]. *)
Definition call_taken (db : effect_db R) (run call : string) : bool :=
  existsb (fun kr => bool_decide (nr_run_id kr.2 = run) && bool_decide (nr_tool_call_id kr.2 = call))
    (map_to_list (ed_intents db)).

(** The statement that inserts the intent or refreshes it; it returns the
    stored hash and effect. *)
Definition upsert_intent (env : effect_env) (i : Intent) (b : ActionBinding) (p : EffectPolicy)
    (db : effect_db R) : effect_db R * res (string * string) :=
  let bi := it_binding i in
  match ed_intents db !! ab_action_id bi with
  | Some n =>
      if bool_decide (nr_action_hash n = ab_action_hash bi)
         && bool_decide (nr_effect_id n = it_effect_id i)
      then (set_intents db (<[ab_action_id bi :=
              mkIntentRow (nr_run_id n) (nr_tool_call_id n) (nr_action_hash n) (nr_binding n)
                (nr_requires_approval n) (nr_expires_at n) (nr_created_at n) (nr_effect_id n)
                (it_effect_fingerprint i) p]> (ed_intents db)),
            Ok (nr_action_hash n, nr_effect_id n))
      else (db, Err ErrNoRows)
  | None =>
      if call_taken db (ab_run_id bi) (ab_tool_call_id bi) then (db, Err err_unique) else
      (set_intents db (<[ab_action_id bi :=
         mkIntentRow (ab_run_id bi) (ab_tool_call_id bi) (ab_action_hash bi) b
           (it_requires_approval i) (pg_time (it_expires_at i)) (fe_now env) (it_effect_id i)
           (it_effect_fingerprint i) p]> (ed_intents db)),
       Ok (ab_action_hash bi, it_effect_id i))
  end.

Definition effect_key (i : Intent) : string :=
  if bool_decide (ep_retry_safety (it_effect_policy i) = "external_idempotency")
  then "butler_" +:+ digest (it_effect_id i +:+ NUL +:+ it_effect_fingerprint i) else "".

Definition PutIntent (env : effect_env) (i : Intent) (db : effect_db R) : effect_db R * res unit :=
  if bool_decide (it_effect_id i = "") || bool_decide (it_effect_fingerprint i = "")
  then (db, Err (Errorf "durable effect identity is required")) else
  fx_tx env db (fx_stmt env 0 db (
    check b <== column (it_binding i) at db ;;
    check p <== column (it_effect_policy i) at db ;;
    let '(db1, fingerprint) := upsert_effect env i (effect_key i) b p db in
    let work := fun db2 =>
      fx_stmt env 2 db2 (
        step db3, stored <== upsert_intent env i b p db2 ;;
        if negb (bool_decide (stored.1 = ab_action_hash (it_binding i)))
        then (db3, Err (Errorf "tool call identity already binds a different action"))
        else (db3, Ok tt)) in
    if bool_decide (fingerprint = it_effect_fingerprint i) then work db1 else
    let different := Errorf "logical action identity already binds a different effect" in
    match fe_fault env 1, upgrade_effect i (effect_key i) p db1 with
    | None, (db2, 1%nat) => work db2
    | _, _ => (db1, Err different)
    end)).

Definition GetIntent (env : effect_env) (id : string) (db : effect_db R) : res Intent :=
  match fe_fault env 0, ed_intents db !! id with
  | Some e, _ => Err e
  | None, None => Err ErrNoRows
  | None, Some n =>
      Ok (mkIntent (nr_binding n) (nr_requires_approval n) (nr_expires_at n) (nr_effect_id n)
            (nr_effect_fingerprint n) (nr_effect_policy n))
  end.

(** ** Permission to dispatch *)

(** [action_effects e JOIN action_intents i ON i.effect_id=e.action_id WHERE
    i.action_id=$1]. *)
Definition effect_of_action (db : effect_db R) (action : string) :
    option (IntentRow * string * EffectRow) :=
  n ← ed_intents db !! action;
  r ← ed_effects db !! nr_effect_id n;
  Some (n, nr_effect_id n, r).

(** The row of [action_authorizations] with this [action_id]. *)
Definition grant_of_action (db : effect_db R) (action : string) : option (string * GrantRow) :=
  head (filter (fun kr => gr_action_id kr.2 = action) (map_to_list (ed_grants db))).

Definition mandate_known (db : effect_db R) (mandate : option string) : bool :=
  match mandate with Some m => bool_decide (is_Some (ed_mandates db !! m)) | None => true end.

(** The INSERT of [PutGrant]; on a conflict an unused permission is replaced,
    its identity included. *)
Definition upsert_grant (env : effect_env) (g : Grant) (data : Grant) (db : effect_db R) :
    res (effect_db R) :=
  let b := gt_binding g in
  let mandate := nullString (gt_mandate_id g) in
  let row := fun created dispatched finished =>
    mkGrantRow (ab_action_id b) (ab_action_hash b) data mandate (gt_mandate_revision g)
      (pg_time (gt_expires_at g)) "authorized" dispatched finished created in
  match grant_of_action db (ab_action_id b) with
  | Some (old, r) =>
      if negb (bool_decide (gr_state r = "authorized")
               && bool_decide (gr_action_hash r = ab_action_hash b)) then Err ErrNoRows else
      let rest := delete old (ed_grants db) in
      if bool_decide (is_Some (rest !! gt_id g)) then Err err_unique else
      if negb (mandate_known db mandate) then Err err_foreign else
      Ok (set_grants db
            (<[gt_id g := row (gr_created_at r) (gr_dispatched_at r) (gr_finished_at r)]> rest))
  | None =>
      if bool_decide (is_Some (ed_grants db !! gt_id g)) then Err err_unique else
      if negb (mandate_known db mandate) then Err err_foreign else
      Ok (set_grants db (<[gt_id g := row (fe_now env) None None]> (ed_grants db)))
  end.

Definition effect_allowed (now : Z) (authorization : string) (r : EffectRow) : EffectRow :=
  mkEffectRow (fr_fingerprint r) (fr_initial_binding r) (fr_policy r) StateAllowed
    (fr_idempotency_key r) authorization (fr_dispatch_outcome r) (fr_created_at r) now.

Definition err_dispatched : error :=
  Errorf "external effect already dispatched; reconcile before any new attempt".
Definition err_refresh : error :=
  Errorf "action authorization cannot be refreshed after dispatch".

Definition PutGrant (env : effect_env) (g : Grant) (db : effect_db R) : effect_db R * res Grant :=
  fx_tx env db
    match fe_fault env 0, effect_of_action db (ab_action_id (gt_binding g)) with
    | None, Some (n, id, r) =>
        if negb (bool_decide (nr_action_hash n = ab_action_hash (gt_binding g)))
           || negb (undispatched (fr_state r)) then (db, Err err_dispatched) else
        let stored :=
          match fe_fault env 1 with
          | Some e => Err e
          | None => data <-! column g ;; db' <-! upsert_grant env g data db ;; Ok (db', data)
          end in
        match stored with
        | Err _ => (db, Err err_refresh)
        | Ok (db1, g') =>
            fx_stmt env 2 db1
              (set_effects db1 (<[id := effect_allowed (fe_now env) (gt_id g') r]> (ed_effects db1)),
               Ok g')
        end
    | _, _ => (db, Err err_dispatched)
    end.

(** [grantInTx], and [GetGrant] at statement 0. *)
Definition grantInTx (env : effect_env) (n : nat) (id : string) (db : effect_db R) : res Grant :=
  match fe_fault env n, ed_grants db !! id with
  | Some e, _ => Err e
  | None, None => Err ErrNoRows
  | None, Some r => Ok (with_grant_state (gr_state r) (gr_grant_data r))
  end.
Definition GetGrant (env : effect_env) (id : string) (db : effect_db R) : res Grant :=
  grantInTx env 0 id db.

(** ** The guard of a dispatch *)

(** The query of [checkCredentialInputTx]: the running input of the run. *)
Definition credential_row (b : ActionBinding) (q : queue_db) (r : InputRow) : bool :=
  bool_decide (ir_run_id r = Some (ab_run_id b)) && bool_decide (ir_owner_id r = ab_owner_id b)
  && bool_decide (default "" (ir_task_id r) = ab_task_id b)
  && bool_decide (ir_status r = "running")
  && bool_decide (qd_sessions q !! ir_session_key r = Some (ir_owner_id r))
  && match qd_runs q !! ab_run_id b with
     | Some run => bool_decide (rr_session_key run = ir_session_key r)
                   && bool_decide (default "" (rr_task_id run) = ab_task_id b)
     | None => false
     end.

Definition credential_input (g : Grant) (db : effect_db R) : option (string * InputRow) :=
  head (filter (fun kr => credential_row (gt_binding g) (ed_queue db) kr.2 = true)
          (map_to_list (qd_inputs (ed_queue db)))).

Definition err_claim_changed : error :=
  Errorf "credential request owning Input claim changed before dispatch commit".
Definition err_claim_expired : error :=
  Errorf "credential request owning Input claim expired before dispatch commit".

Definition checkCredentialInputTx (env : effect_env) (n : nat) (g : Grant) (db : effect_db R) :
    res unit :=
  match fe_fault env n, credential_input g db with
  | None, Some (input, r) =>
      match ir_claim_expires_at r with
      | None => Err err_claim_changed
      | Some claim_expiry =>
          fail_when (negb (Z.eqb (go_len (gt_input_claim_hash g)) 64)
                     || negb (bool_decide (InputClaimHash input (ir_claim_id r) = gt_input_claim_hash g)))
            with err_claim_changed ;;
          fail_when (bool_decide (is_Some (fe_fault env (S n)))
                     || Z.leb claim_expiry (fe_clock env (S n))
                     || Z.leb (ir_expires_at r) (fe_clock env (S n)))
            with err_claim_expired ;;
          Ok tt
      end
  | _, _ => Err err_claim_changed
  end.

(** The lease row that covers the grant, with its session. *)
Definition live_lease (now : Z) (g : Grant) (db : effect_db R) : option string :=
  fst <$> head (filter (fun kr =>
    own_run_id kr.2 = ab_run_id (gt_binding g) /\ own_lease_id kr.2 = gt_lease_id g
    /\ own_fence_epoch kr.2 = gt_lease_epoch g /\ now < own_expires_at kr.2)
    (map_to_list (qd_ownership (ed_queue db)))).

(** The states that a dispatch refuses; [timed_out] is not among them. *)
Definition run_refused (value : string) : bool :=
  bool_decide (value ∈ [""; "completed"; "failed"; "cancelled"; "finalizing"]).

(** The part of [guardDispatch] about the task of the run. *)
Definition guard_task (env : effect_env) (b : ActionBinding) (db : effect_db R) : res unit :=
  let changed := Errorf "task authority changed before dispatch commit" in
  let q := ed_queue db in
  let pinned_revision :=
    r ← qd_runs q !! ab_run_id b;
    if bool_decide (rr_task_id r = Some (ab_task_id b)) then rr_task_revision r else None in
  match fe_fault env 4, pinned_revision with
  | None, Some pinned =>
      match fe_fault env 5, qd_tasks q !! ab_task_id b with
      | None, Some t =>
          fail_when (negb (bool_decide (tk_status t = "active"))
                     || negb (Z.eqb (tk_revision t) (ab_task_revision b))
                     || negb (Z.eqb pinned (tk_revision t))
                     || negb (Z.eqb (tk_constraints_revision t) (ab_constraints_revision b))
                     || negb (bool_decide (tk_owner_id t = ab_owner_id b))) with changed ;;
          _ <-! CheckExecutionPolicy (default "normal" (ed_policies db !! ab_task_id b)) (ab_effect b) ;;
          dg_task_action guards env db b (fe_time env)
      | _, _ => Err changed
      end
  | _, _ => Err (Errorf "pinned task run is unavailable")
  end.

(** Tools that need an installed reviewed capability. *)
Definition needs_contract (b : ActionBinding) : bool :=
  negb (bool_decide (ab_extension_id b = "")) || negb (bool_decide (ab_converter_id b = ""))
  || HasPrefix (ab_tool_name b) "skills." || HasPrefix (ab_tool_name b) "converters."
  || HasPrefix (ab_tool_name b) "converter.".

Definition needs_input (b : ActionBinding) : bool :=
  IsCredentialTool (ab_tool_name b) || bool_decide (ab_tool_name b = LoginTool).

Definition guardDispatch (env : effect_env) (g : Grant) (db : effect_db R) : res unit :=
  let b := gt_binding g in
  match fe_fault env 2, live_lease (fe_clock env 2) g db with
  | None, Some session =>
      match fe_fault env 3, qd_runs (ed_queue db) !! ab_run_id b with
      | None, Some r =>
          fail_when (run_refused (rr_current_state r) || run_refused (rr_status r))
            with Errorf "run is terminal or finalizing before dispatch commit" ;;
          _ <-! (if bool_decide (ab_task_id b = "") then Ok tt else guard_task env b db) ;;
          _ <-! match dg_run_data guards with
                | None => Ok tt
                | Some guard =>
                    guard env db (mkToken session (ab_run_id b) (gt_lease_id g) (gt_lease_epoch g))
                end ;;
          fail_when (needs_contract b && bool_decide (dg_contract guards = None))
            with Errorf "reviewed capability admission is unavailable at dispatch" ;;
          _ <-! match dg_contract guards with None => Ok tt | Some guard => guard env db b end ;;
          if needs_input b then checkCredentialInputTx env 6 g db else Ok tt
      | _, _ => Err (Errorf "live run is required at dispatch commit")
      end
  | _, _ => Err (Errorf "live execution ownership is required at dispatch commit")
  end.

(** ** The dispatch *)

(** The condition of the UPDATE that consumes a permission. *)
Definition mandate_live (now : Z) (r : GrantRow) (db : effect_db R) : bool :=
  match gr_mandate_id r with
  | None => true
  | Some m =>
      match ed_mandates db !! m with
      | Some md => Z.eqb (mr_revision md) (gr_mandate_revision r)
                   && bool_decide (mr_revoked_at md = None) && Z.ltb now (mr_expires_at md)
      | None => false
      end
  end.

Definition grant_usable (now : Z) (r : GrantRow) (db : effect_db R) : bool :=
  bool_decide (gr_state r = "authorized") && Z.ltb now (gr_expires_at r) && mandate_live now r db.

Definition grant_moved (state : string) (dispatched finished : option Z) (r : GrantRow) : GrantRow :=
  mkGrantRow (gr_action_id r) (gr_action_hash r) (gr_grant_data r) (gr_mandate_id r)
    (gr_mandate_revision r) (gr_expires_at r) state dispatched finished (gr_created_at r).

Definition effect_moved (state outcome : string) (now : Z) (r : EffectRow) : EffectRow :=
  mkEffectRow (fr_fingerprint r) (fr_initial_binding r) (fr_policy r) state
    (fr_idempotency_key r) (fr_authorization_id r) outcome (fr_created_at r) now.

(** A hook that changes the rest of the database. *)
Definition run_hook (hook : effect_env -> effect_db R -> R * res unit) (env : effect_env)
    (db : effect_db R) : effect_db R * res unit :=
  (set_rest db (hook env db).1, (hook env db).2).

Definition err_replay : error :=
  Errorf "external effect is already executing or uncertain; do not replay".
Definition err_consumed : error :=
  Errorf "authorization already dispatched, expired or revoked; do not replay the action".

(** The three writes of a dispatch. *)
Definition begin_dispatch (env : effect_env) (id action effect : string) (db : effect_db R) :
    effect_db R * res unit :=
  fx_stmt env 12 db
    match ed_grants db !! id with
    | Some r =>
        if negb (grant_usable (fe_clock env 12) r db) then (db, Err err_consumed) else
        let db1 := set_grants db
          (<[id := grant_moved "inflight" (Some (fe_now env)) (gr_finished_at r) r]> (ed_grants db)) in
        fx_stmt env 13 db1
          (let db2 := set_effects db1
             (alter (effect_moved StateExecuting "executing" (fe_now env)) effect (ed_effects db1)) in
           fx_stmt env 14 db2
             (if bool_decide (is_Some (ed_dispatches db2 !! id)) then (db2, Err err_unique) else
              if negb (bool_decide (is_Some (ed_effects db2 !! effect)))
                 || negb (bool_decide (is_Some (ed_intents db2 !! action)))
              then (db2, Err err_foreign) else
              (set_dispatches db2
                 (<[id := mkDispatchRow effect action "executing" (fe_now env) None]>
                    (ed_dispatches db2)), Ok tt)))
    | None => (db, Err err_consumed)
    end.

Definition ClaimGrant (env : effect_env) (id : string) (db : effect_db R) : effect_db R * res unit :=
  fx_tx env db (
    check g <== grantInTx env 0 id db at db ;;
    check _1 <== match dg_claim guards with
                 | None => Ok tt
                 | Some guard => CheckAdmissionTx guard env db g
                 end at db ;;
    check _2 <== guardDispatch env g db at db ;;
    match fe_fault env 8, effect_of_action db (ab_action_id (gt_binding g)) with
    | None, Some (n, effect, r) =>
        if negb (bool_decide (fr_state r = StateAllowed))
           || negb (bool_decide (fr_authorization_id r = id)) then (db, Err err_replay) else
        step db1, _3 <== match dg_budgets guards with
                         | None => (db, Ok tt)
                         | Some bg =>
                             run_hook (fun env db => ReserveToolTx bg env db (toolBudgetIdentity sc g effect))
                               env db
                         end ;;
        check _4 <== (if bool_decide (ab_task_id (gt_binding g) = "") then Ok tt else
                      match fe_fault env 9 with
                      | Some e => Err e
                      | None => dg_task_action guards env db1 (gt_binding g) (fe_clock env 9)
                      end) at db1 ;;
        step db2, _5 <== match dg_claim guards with
                         | None => (db1, Ok tt)
                         | Some guard =>
                             run_hook (fun env db => ClaimActionTx guard env db g effect) env db1
                         end ;;
        check _6 <== (if needs_input (gt_binding g) then checkCredentialInputTx env 10 g db2
                      else Ok tt) at db2 ;;
        begin_dispatch env id (ab_action_id (gt_binding g)) effect db2
    | _, _ => (db, Err err_replay)
    end).

(** ** Outcomes *)

(** [insertEvidence], at statement [n]. *)
Definition insertEvidence (env : effect_env) (n : nat) (e : EffectEvidence) (db : effect_db R) :
    effect_db R * res unit :=
  if bool_decide (ee_evidence_id e = "") || bool_decide (ee_action_id e = "")
     || bool_decide (ee_source_action_id e = "") || bool_decide (ee_source_run_id e = "")
     || bool_decide (ee_source_tool_call_id e = "") || IsZero (ee_observed_at e)
     || IsZero (ee_recorded_at e) || Z.ltb (ee_recorded_at e) (ee_observed_at e)
     || Z.ltb (fe_time env + minute) (ee_recorded_at e)
  then (db, Err (Errorf "invalid effect evidence provenance")) else
  fx_stmt env n db (
    check data <== column e at db ;;
    if bool_decide (is_Some (ed_evidence db !! ee_evidence_id e)) then (db, Err err_unique) else
    if negb (bool_decide (is_Some (ed_effects db !! ee_action_id e)))
       || negb (bool_decide (is_Some (ed_intents db !! ee_source_action_id e)))
    then (db, Err err_foreign) else
    (set_evidence db (<[ee_evidence_id e :=
       mkEvidenceRow (ee_action_id e) (ee_source_action_id e) data (pg_time (ee_observed_at e))
         (pg_time (ee_recorded_at e))]> (ed_evidence db)), Ok tt)).

(** [UPDATE action_effect_dispatches ... WHERE authorization_id=$1 AND
    outcome='executing']; [finish] gives the new [finished_at]. *)
Definition finish_dispatch (id outcome : string) (finish : option Z -> Z) (db : effect_db R) :
    effect_db R :=
  match ed_dispatches db !! id with
  | Some d =>
      if bool_decide (dp_outcome d = "executing")
      then set_dispatches db (<[id := mkDispatchRow (dp_action_id d) (dp_execution_action_id d)
             outcome (dp_dispatched_at d) (Some (finish (dp_finished_at d)))]> (ed_dispatches db))
      else db
  | None => db
  end.

(** [UPDATE action_authorizations ... WHERE authorization_id=$1 AND
    state='inflight']: the number of rows. *)
Definition finish_grant (id state : string) (finish : option Z -> Z) (db : effect_db R) :
    effect_db R * nat :=
  match ed_grants db !! id with
  | Some r =>
      if bool_decide (gr_state r = "inflight")
      then (set_grants db (<[id := grant_moved state (gr_dispatched_at r)
              (Some (finish (gr_finished_at r))) r]> (ed_grants db)), 1%nat)
      else (db, 0%nat)
  | None => (db, 0%nat)
  end.

Definition with_outcome (state outcome evidence : string) (now : Z) (r : EffectRecord) :
    EffectRecord :=
  mkEffectRecord (er_action_id r) (er_fingerprint r) (er_binding r) (er_policy r) state
    (er_idempotency_key r) (er_authorization_id r) outcome (er_evidence_refs r ++ [evidence])
    (er_created_at r) now.

(** The evidence must be about the executing intent. *)
Definition evidence_matches (id : string) (g : Grant) (r : EffectRecord) (e : EffectEvidence) : bool :=
  let b := gt_binding g in
  bool_decide (gt_state g = "inflight") && bool_decide (er_state r = StateExecuting)
  && bool_decide (er_authorization_id r = id) && bool_decide (ee_action_id e = er_action_id r)
  && bool_decide (ee_source_action_id e = ab_action_id b)
  && bool_decide (ee_source_run_id e = ab_run_id b)
  && bool_decide (ee_source_tool_call_id e = ab_tool_call_id b)
  && bool_decide (ee_source e = "runtime_response")
  && bool_decide (ee_method e = ep_verification_method (er_policy r)).

(** A verdict of absence needs one of the closed proofs. *)
Definition verdict_possible (g : Grant) (r : EffectRecord) (outcome : string) (e : EffectEvidence) :
    bool :=
  bool_decide (ee_verdict e = StateUnknown) || bool_decide (ee_verdict e = StateConfirmed)
  || bool_decide (ee_verdict e = StateAbsent)
     && (browserReadAbsenceEvidence (gt_binding g) (er_policy r) outcome e
         || preparationAbsenceEvidence (gt_binding g) (er_policy r) outcome e).

(** A confirmation needs a supported method and its digests. *)
Definition confirmation_supported (r : EffectRecord) (outcome : string) (e : EffectEvidence) : bool :=
  let method := ep_verification_method (er_policy r) in
  bool_decide (outcome = "dispatch_completed") && negb (bool_decide (ee_result_digest e = ""))
  && negb (bool_decide (method = "none"))
  && negb (bool_decide (method = "external_receipt_v1") && bool_decide (ee_artifact_digest e = "")).

(** The checks of [RecordDispatchOutcome] on the evidence. *)
Definition check_outcome (env : effect_env) (id outcome : string) (g : Grant) (r : EffectRecord)
    (e : EffectEvidence) (db : effect_db R) : res unit :=
  let method := ep_verification_method (er_policy r) in
  let confirmed := bool_decide (ee_verdict e = StateConfirmed) in
  fail_when (negb (evidence_matches id g r e))
    with Errorf "dispatch evidence does not match the executing intent" ;;
  fail_when (negb (verdict_possible g r outcome e))
    with Errorf "dispatch cannot prove absence without owning pre-navigation read evidence" ;;
  fail_when (confirmed && negb (confirmation_supported r outcome e))
    with Errorf "confirmed effect requires supported evidence" ;;
  fail_when (confirmed && bool_decide (method = LoginVerification)
             && negb (validLoginEvidence sc (er_policy r) (gt_binding g) (ee_login e)))
    with Errorf "login evidence does not match the scoped protocol" ;;
  if confirmed && bool_decide (method = SSOVerification) then
    match ee_sso e with
    | Some se =>
        fail_when (negb (validSSOEvidence sc (er_policy r) (gt_binding g) (Some se)))
          with Errorf "SSO evidence does not match the scoped protocol" ;;
        fail_when (bool_decide (is_Some (fe_fault env 4)) || negb (dg_sso_page guards env db g (er_policy r) se))
          with Errorf "SSO result page is no longer current" ;;
        Ok tt
    | None => Err (Errorf "SSO evidence does not match the scoped protocol")
    end
  else Ok tt.

(** The UPDATE of [action_effects] by its key. *)
Definition move_effect (id state : string) (outcome : string -> string) (now : Z) (db : effect_db R) :
    effect_db R * res string :=
  match ed_effects db !! id with
  | Some r =>
      let o := outcome (fr_dispatch_outcome r) in
      (set_effects db (<[id := effect_moved state o now r]> (ed_effects db)), Ok o)
  | None => (db, Err ErrNoRows)
  end.

Definition RecordDispatchOutcome (env : effect_env) (id outcome : string) (e : EffectEvidence)
    (db : effect_db R) : effect_db R * res EffectRecord :=
  if negb (bool_decide (outcome = "dispatch_completed")) && negb (bool_decide (outcome = "unknown"))
  then (db, Err (Errorf "invalid dispatch outcome")) else
  fx_tx env db (
    check g <== grantInTx env 0 id db at db ;;
    fx_stmt env 1 db
      match ed_intents db !! ab_action_id (gt_binding g) with
      | None => (db, Err ErrNoRows)
      | Some n =>
          check r <== effectIn env 2 (nr_effect_id n) db at db ;;
          check _1 <== check_outcome env id outcome g r e db at db ;;
          step db1, _2 <== insertEvidence env 5 e db ;;
          match fe_fault env 6, finish_grant id outcome (fun _ => fe_now env) db1 with
          | None, (db2, 1%nat) =>
              fx_stmt env 7 db2 (
                let db3 := finish_dispatch id outcome (fun _ => fe_now env) db2 in
                fx_stmt env 8 db3 (
                  step db4, _3 <== move_effect (er_action_id r) (ee_verdict e) (fun _ => outcome)
                                     (fe_now env) db3 ;;
                  let category := if bool_decide (ee_error_category e = "") then ee_verdict e
                                  else ee_error_category e in
                  let result := if bool_decide (ee_error_category e = "")
                                then ee_normalized_result_digest e else "" in
                  step db5, _4 <== match dg_budgets guards with
                                   | None => (db4, Ok tt)
                                   | Some bg =>
                                       run_hook (fun env db => ObserveToolTx bg env db
                                         (toolBudgetIdentity sc g (er_action_id r)) category result) env db4
                                   end ;;
                  (db5, Ok (with_outcome (ee_verdict e) outcome (ee_evidence_id e) (fe_now env) r))))
          | _, _ => (db1, Err (Errorf "dispatch outcome cannot be recorded"))
          end
      end).

(** [FinishGrant]: an outcome without evidence of its effect. *)
Definition FinishGrant (envs : nat -> effect_env) (random : string) (id state : string)
    (db : effect_db R) : effect_db R * res unit :=
  if negb (bool_decide (state = "dispatch_completed")) && negb (bool_decide (state = "unknown"))
  then (db, Err (Errorf "unsupported dispatch outcome")) else
  check g <== GetGrant (envs 0%nat) id db at db ;;
  check i <== GetIntent (envs 1%nat) (ab_action_id (gt_binding g)) db at db ;;
  let b := gt_binding g in
  let now := fe_time (envs 2%nat) in
  step db', _1 <== RecordDispatchOutcome (envs 2%nat) id state
    (mkEvidence None None ("evidence_" +:+ random) (it_effect_id i) (ab_action_id b)
       (ab_tool_call_id b) (ab_run_id b) "runtime_response"
       (ep_verification_method (it_effect_policy i)) StateUnknown "" "" "" "" now now) db ;;
  (db', Ok tt).

(** [verificationResource]: [strings.ReplaceAll] of a placeholder. *)
Definition placeholder : string := "{idempotency_key}".
Fixpoint replace_text (fuel : nat) (old new s : string) : string :=
  match fuel, s with
  | O, _ | _, EmptyString => s
  | S fuel, String c rest =>
      if HasPrefix s old
      then new +:+ replace_text fuel old new (String.substring (String.length old) (String.length s) s)
      else String c (replace_text fuel old new rest)
  end.
Definition verificationResource (r : EffectRecord) : string :=
  let url := ep_verification_url (er_policy r) in
  replace_text (String.length url) placeholder (er_idempotency_key r) url.

(** The observation must be a read that was dispatched and confirmed on its
    own, for the same owner and task. *)
Definition reconcile_allowed (target_id : string) (target source : EffectRecord) (e : EffectEvidence) :
    bool :=
  (bool_decide (er_state target = StateUnknown) || bool_decide (er_state target = StateExecuting))
  && bool_decide (er_state source = StateConfirmed)
  && bool_decide (ab_effect (er_binding source) = EffectRead)
  && bool_decide (ab_tool_name (er_binding source) = "http.request")
  && bool_decide (ep_verification_method (er_policy target) = "external_receipt_v1")
  && bool_decide (ee_source e = "independent_lookup") && bool_decide (ee_method e = "external_receipt_v1")
  && bool_decide (ee_action_id e = target_id)
  && bool_decide (ab_owner_id (er_binding source) = ab_owner_id (er_binding target))
  && bool_decide (ab_task_id (er_binding source) = ab_task_id (er_binding target))
  && (bool_decide (ee_verdict e = StateConfirmed) || bool_decide (ee_verdict e = StateAbsent))
  && negb (bool_decide (ee_result_digest e = ""))
  && negb (bool_decide (ee_verdict e = StateConfirmed) && bool_decide (ee_artifact_digest e = "")).

(** The captured evidence the observation repeats. *)
Definition captured (source_id : string) (e : EffectEvidence) (r : EvidenceRow) : bool :=
  bool_decide (vr_action_id r = source_id)
  && bool_decide (vr_source_action_id r = ee_source_action_id e)
  && bool_decide (ee_source (vr_evidence r) = "runtime_response")
  && bool_decide (ee_verdict (vr_evidence r) = StateConfirmed)
  && bool_decide (ee_source_run_id (vr_evidence r) = ee_source_run_id e)
  && bool_decide (ee_source_tool_call_id (vr_evidence r) = ee_source_tool_call_id e)
  && bool_decide (ee_result_digest (vr_evidence r) = ee_result_digest e)
  && Z.eqb (vr_observed_at r) (pg_time (ee_observed_at e)).

Definition observed_resource (target : EffectRecord) (source_id : string) (e : EffectEvidence)
    (n : IntentRow) : bool :=
  bool_decide (nr_effect_id n = source_id)
  && bool_decide (ab_resource (nr_binding n) = verificationResource target)
  && bool_decide (ab_run_id (nr_binding n) = ee_source_run_id e)
  && bool_decide (ab_tool_call_id (nr_binding n) = ee_source_tool_call_id e)
  && bool_decide (ab_effect (nr_binding n) = EffectRead).

(** The two UPDATEs that close a permission whose outcome was not recorded. *)
Definition close_unknown (env : effect_env) (n : nat) (id : string) (finish : option Z -> Z)
    (db : effect_db R) : effect_db R * res unit :=
  fx_stmt env n db (
    let db1 := (finish_grant id "unknown" finish db).1 in
    fx_stmt env (S n) db1 (finish_dispatch id "unknown" finish db1, Ok tt)).

Definition settled_outcome (o : string) : string :=
  if bool_decide (o = "executing") then "unknown" else o.

Definition ReconcileEffect (env : effect_env) (target_id source_id : string) (e : EffectEvidence)
    (db : effect_db R) : effect_db R * res EffectRecord :=
  if bool_decide (target_id = source_id)
  then (db, Err (Errorf "independent observation is required")) else
  fx_tx env db (
    check target <== effectIn env 0 target_id db at db ;;
    check source <== effectIn env 2 source_id db at db ;;
    if negb (reconcile_allowed target_id target source e)
    then (db, Err (Errorf "independent evidence cannot reconcile this intent")) else
    fx_stmt env 4 db
      match ed_intents db !! ee_source_action_id e with
      | None => (db, Err ErrNoRows)
      | Some n =>
          if negb (bool_decide (nr_effect_id n = source_id)) then (db, Err ErrNoRows) else
          if negb (observed_resource target source_id e n)
          then (db, Err (Errorf "observation resource or provenance changed")) else
          if bool_decide (is_Some (fe_fault env 5))
             || negb (existsb (fun kr => captured source_id e kr.2) (map_to_list (ed_evidence db)))
          then (db, Err (Errorf "observation was not independently captured")) else
          step db1, _1 <== insertEvidence env 6 e db ;;
          fx_stmt env 7 db1 (
            step db2, outcome <== move_effect target_id (ee_verdict e) settled_outcome (fe_now env) db1 ;;
            step db3, _2 <== close_unknown env 8 (er_authorization_id target)
                               (fun old => default (fe_now env) old) db2 ;;
            (db3, Ok (with_outcome (ee_verdict e) outcome (ee_evidence_id e) (fe_now env) target)))
      end).

Definition MarkInterruptedEffect (env : effect_env) (id : string) (db : effect_db R) :
    effect_db R * res unit :=
  fx_tx env db (
    check r <== effectIn env 0 id db at db ;;
    if negb (bool_decide (er_state r = StateExecuting))
    then (db, Err (Errorf "only an interrupted executing effect can become unknown")) else
    fx_stmt env 2 db (
      step db1, _1 <== move_effect id StateUnknown (fun _ => "unknown") (fe_now env) db ;;
      close_unknown env 3 (er_authorization_id r) (fun _ => fe_now env) db1)).

Definition RevokeMandate (env : effect_env) (id owner : string) (revision : Z) (db : effect_db R) :
    effect_db R * res unit :=
  fx_stmt env 0 db
    match ed_mandates db !! id with
    | Some m =>
        if bool_decide (mr_owner_id m = owner) && Z.eqb (mr_revision m) revision
           && bool_decide (mr_scope_kind m = "task") && bool_decide (mr_revoked_at m = None)
        then (set_mandates db (<[id := mkMandateRow (mr_owner_id m) (mr_task_id m)
                (mr_revision m + 1) (mr_expires_at m) (Some (fe_now env)) (mr_scope_kind m)
                "revoked"]> (ed_mandates db)), Ok tt)
        else (db, Err (Errorf "mandate owner or revision is incompatible"))
    | None => (db, Err (Errorf "mandate owner or revision is incompatible"))
    end.
End store.
