(* ===== verification/BrowserScope.v ===== *)
(** * BrowserScope: the scopes of a browser login

    Packages [internal/browserauth] ([contract.go]), [internal/browserpage]
    ([Binding.Valid], the tool names), [internal/browsersso] ([consent.go],
    [inspection.go], [network.go], the targets of [execution.go]) and
    [internal/externalauth] ([scope.go]): which URLs a login may name, and
    which addresses its private dispatch may reach.  The decoding of the
    arguments and the contracts of the tools are left out. *)
From Stdlib Require Import Ascii.
From stdpp Require Import pretty.
From S2P Require Import Prelude GoStrings GoBytes GoHash GoTime GoNet GoUrl Approval Effect.
Open Scope Z_scope.
Open Scope go_scope.

(** The equality of texts that are not ASCII under case folding. *)
Class UnicodeFold := unicode_equal_fold : string -> string -> bool.

Definition is_ascii (s : string) : bool := forallb (fun c => Z.ltb (byte_val c) 128) (lit s).

(** [strings.EqualFold]. *)
Definition EqualFold `{!UnicodeFold} (s t : string) : bool :=
  if is_ascii s && is_ascii t
  then bool_decide (map lower_byte (lit s) = map lower_byte (lit t))
  else unicode_equal_fold s t.

(** ** Pages *)

Module browserpage.
Definition PageOpen : string := "browser.open_pages".
Definition PageList : string := "browser.pages".
Definition PageSnapshot : string := "browser.page_snapshot".
Definition PageFreeze : string := "browser.page_freeze_snapshot".
Definition PageClick : string := "browser.page_click".
Definition PageFill : string := "browser.page_fill".
Definition PageType : string := "browser.page_type".
Definition PageClose : string := "browser.page_close".

Definition IsPageTool (tool : string) : bool :=
  bool_decide (tool ∈ [PageOpen; PageList; PageSnapshot; PageFreeze; PageClick; PageFill; PageType; PageClose]).
Definition PageBound (tool : string) : bool :=
  IsPageTool tool && negb (bool_decide (tool = PageOpen)) && negb (bool_decide (tool = PageList)).

(** [Binding.Valid]. *)
Definition Binding_Valid (b : PageBinding) (bound : bool) : bool :=
  match Parse (pb_url b) with
  | None => false
  | Some u =>
      if negb (bool_decide (u_user u = None)) || bool_decide (Hostname u = [])
         || negb (bool_decide (u_scheme u = lit "http")) && negb (bool_decide (u_scheme u = lit "https"))
         || negb (bool_decide (u_raw_query u = [])) || u_force_query u
         || negb (bool_decide (u_fragment u = [])) || Z.ltb (pb_epoch b) 0
      then false
      else if bound then page_valid (pb_ref b) && Z.ltb 0 (pb_runtime_version b)
      else bool_decide (pb_ref b = mkPageRef "" "" 0) && Z.eqb (pb_runtime_version b) 0
  end.
End browserpage.

(** ** The direct login *)

Module browserauth.
Definition LoginOrigin (raw : string) : string :=
  match Parse raw with
  | None => ""
  | Some u =>
      if negb (bool_decide (u_user u = None)) || bool_decide (u_host u = [])
         || negb (bool_decide (u_scheme u = lit "https")) && negb (bool_decide (u_scheme u = lit "http"))
      then "" else str (u_scheme u) +:+ "://" +:+ str (u_host u)
  end.

Definition url_ok (raw : string) : bool :=
  match Parse raw with
  | None => false
  | Some u => bool_decide (u_raw_query u = []) && bool_decide (u_fragment u = [])
              && Z.leb (go_len raw) 4096
  end.

Definition Login_Validate (s : LoginScope) : res unit :=
  fail_when bool_decide (ls_browser s = "") || Z.ltb 256 (go_len (ls_browser s))
            || bool_decide (LoginOrigin (ls_expected_url s) = "")
            || negb (bool_decide (LoginOrigin (ls_target_url s) = LoginOrigin (ls_expected_url s)))
    with Errorf "invalid login scope" ;;
  fail_when negb (forallb url_ok [ls_expected_url s; ls_target_url s])
    with Errorf "invalid login URL" ;;
  fail_when existsb (fun v => bool_decide (TrimSpace v = "") || Z.ltb 1024 (go_len v))
              [ls_form s; ls_username s; ls_password s]
    with Errorf "invalid login selector" ;;
  fail_when bool_decide (ls_username s = ls_password s)
    with Errorf "distinct login fields required" ;;
  Ok tt.
End browserauth.

(** ** Consent for a federated login *)

Module browsersso.
Definition InspectTool : string := "browser.sso_inspect".
Definition ErrScope : error := ErrNew "browsersso.ErrScope" "invalid RP/IdP consent scope".

(** [strconv.Itoa] and [strconv.Atoi] on a text of digits. *)
Definition decimal_value (s : bytes) : Z := fold_left (fun n c => 10 * n + (byte_val c - 48)) s 0.
Definition Atoi (s : bytes) : option Z :=
  let '(sign, body) := match s with
                       | "+"%char :: rest => (1, rest)
                       | "-"%char :: rest => (-1, rest)
                       | _ => (1, s)
                       end in
  if bool_decide (body = []) || negb (forallb digit_byte body) then None else
  let n := sign * decimal_value body in
  if Z.ltb n min_int64 || Z.ltb max_int64 n then None else Some n.
Definition Itoa (n : Z) : bytes := lit (pretty n).

Section lower.
Context `{!UnicodeLower} `{!UnicodeFold}.

(** The port of a canonical URL. *)
Definition port_ok (port : bytes) : bool :=
  bool_decide (port = []) ||
  match Atoi port with
  | None => false
  | Some n => Z.leb 1 n && Z.leb n 65535 && negb (Z.eqb n 443) && bool_decide (Itoa n = port)
  end.

Definition Origin (raw : string) : string :=
  match Parse raw with
  | None => ""
  | Some u =>
      if Z.ltb 2048 (go_len raw) || negb (bool_decide (u_scheme u = lit "https"))
         || bool_decide (Hostname u = []) || negb (bool_decide (u_user u = None))
         || negb (bool_decide (u_opaque u = [])) || negb (bool_decide (u_raw_query u = []))
         || u_force_query u || negb (bool_decide (u_fragment u = []))
         || negb (bool_decide (u_raw_fragment u = [])) || negb (bool_decide (u_raw_path u = []))
         || negb (bool_decide (URL_String u = lit raw))
         || negb (bool_decide (str (u_host u) = ToLower (str (u_host u))))
         || bool_decide (last (Hostname u) = Some "."%char)
      then ""
      else if existsb (fun c => Z.leb (byte_val c) 32 || Z.leb 127 (byte_val c)
                                || bool_decide (c = "\"%char)) (lit raw) then ""
      else if negb (port_ok (Port u)) then ""
      else if bool_decide (u_path u = []) || Contains (str (u_path u)) "//"
              || bool_decide (last (u_host u) = Some ":"%char) then ""
      else if existsb (fun part => bool_decide (part = dot) || bool_decide (part = dotdot))
                (segments (u_path u)) then ""
      else str (u_scheme u) +:+ "://" +:+ str (u_host u)
  end.

(** A selector of the page. *)
Definition selector_bad (s : string) : bool :=
  bool_decide (TrimSpace s = "") || Z.ltb 1024 (go_len s)
  || ContainsAny s [ascii_of_N 0; CR; LF].

Definition SSO_Validate (s : SSOScope) : res unit :=
  let rp := Origin (so_rp_url s) in let idp := Origin (so_idp_url s) in
  fail_when negb (page_id (so_browser s)) || negb (page_valid (so_rp_page s))
            || bool_decide (rp = "") || bool_decide (idp = "") || bool_decide (rp = idp)
            || negb (bool_decide (Origin (so_target_url s) = idp))
            || negb (bool_decide (Origin (so_verify_url s) = rp))
            || bool_decide (so_verify_url s = so_rp_url s) with ErrScope ;;
  fail_when existsb selector_bad [so_trigger s; so_form s; so_username s; so_password s]
    with ErrScope ;;
  fail_when bool_decide (so_username s = so_password s) with ErrScope ;;
  Ok tt.

Definition SSO_Targets (s : SSOScope) : list string :=
  [so_rp_url s; so_idp_url s; so_target_url s; so_verify_url s].

(** ** Inspection of the login form *)

Definition Inspection_Validate (a : SSOInspection) : res unit :=
  let rp := Origin (si_rp_url a) in
  fail_when negb (page_id (si_browser a)) || negb (page_valid (si_rp_page a))
            || bool_decide (rp = "") || bool_decide (si_idp_origin a = "")
            || bool_decide (si_idp_origin a = rp)
            || negb (bool_decide (Origin (si_idp_origin a +:+ "/") = si_idp_origin a))
            || negb (bool_decide (Origin (si_verify_url a) = rp))
            || bool_decide (si_verify_url a = si_rp_url a) || selector_bad (si_trigger a)
    with ErrScope ;;
  Ok tt.

Definition Inspection_Targets (a : SSOInspection) : list string :=
  [si_rp_url a; si_idp_origin a +:+ "/"; si_verify_url a].

Record InspectedForm := mkForm {
  if_idp_url : string; if_target_url : string; if_form : string; if_username : string;
  if_password : string }.

Definition positional (s kind : string) (cap : Z) : bool :=
  if negb (HasPrefix s (kind +:+ " >> nth=")) then false else
  let value := TrimPrefix s (kind +:+ " >> nth=") in
  match Atoi (lit value) with
  | None => false
  | Some index => Z.leb 0 index && Z.ltb index cap && bool_decide (Itoa index = lit value)
  end.

(** [InspectedForm.Scope]. *)
Definition Form_Scope (f : InspectedForm) (a : SSOInspection) : res SSOScope :=
  let s := mkSSOScope (si_browser a) (si_rp_page a) (si_rp_url a) (si_trigger a) (if_idp_url f)
             (if_target_url f) (if_form f) (if_username f) (if_password f) (si_verify_url a) in
  fail_when negb (is_ok (Inspection_Validate a)) || negb (is_ok (SSO_Validate s))
            || negb (bool_decide (Origin (if_idp_url f) = si_idp_origin a))
            || negb (positional (if_form f) "form" 8) || negb (positional (if_username f) "input" 128)
            || negb (positional (if_password f) "input" 128) with ErrScope ;;
  Ok s.

(** ** Digests *)

Definition json_page (r : PageRef) : string :=
  json_object [("page_id", json_string (pr_id r)); ("document_id", json_string (pr_document_id r));
    ("observation_version", json_int (pr_version r))].

Definition json_scope (s : SSOScope) : string :=
  json_object [("browser_session_id", json_string (so_browser s));
    ("rp_page", json_page (so_rp_page s)); ("rp_url", json_string (so_rp_url s));
    ("trigger_selector", json_string (so_trigger s)); ("idp_url", json_string (so_idp_url s));
    ("target_url", json_string (so_target_url s)); ("form_selector", json_string (so_form s));
    ("username_selector", json_string (so_username s));
    ("password_selector", json_string (so_password s));
    ("verify_url", json_string (so_verify_url s))].

Definition Consent : string := "browser_sso_login_once_v1".

(** [Scope.Digest]. *)
Definition Scope_Digest (s : SSOScope) (epoch revision : Z) : res string :=
  fail_when negb (is_ok (SSO_Validate s)) || Z.ltb epoch 0 || Z.ltb revision 1 with ErrScope ;;
  Ok (sha256_hex (json_object [("protocol", json_string Consent); ("scope", json_scope s);
        ("epoch", json_int epoch); ("record_revision", json_int revision)])).

(** [Inspection.Digest]. *)
Definition Inspection_Digest (a : SSOInspection) : string :=
  sha256_hex (json_object [("browser_session_id", json_string (si_browser a));
    ("rp_page", json_page (si_rp_page a)); ("rp_url", json_string (si_rp_url a));
    ("trigger_selector", json_string (si_trigger a));
    ("idp_origin", json_string (si_idp_origin a)); ("verify_url", json_string (si_verify_url a))]).

(** [digest]: thirty-two bytes in lower-case hexadecimal. *)
Definition digest_ok (s : string) : bool :=
  Z.eqb (go_len s) 64 && forallb (fun c => in_range 48 57 c || in_range 97 102 c) (lit s).

(** ** The network of a private dispatch *)

Record NetworkScope := mkNetworkScope { ns_origin : string; ns_path_prefix : string }.
Record Dispatch := mkDispatch {
  di_page : PageBinding; di_digest : string; di_expires_at : Z;
  di_allowed : list NetworkScope; di_denied : list NetworkScope }.

(** The decoded path is its own canonical form and holds no encoded separator
    or dot; the empty path is the root. *)
Definition canonical_path (u : URL) : option bytes :=
  let p := if bool_decide (u_path u = []) then ["/"%char] else u_path u in
  let escaped := ToLower (str (EscapedPath u)) in
  if Contains escaped "%2f" || Contains escaped "%5c" || Contains escaped "%2e"
     || bool_decide ("\"%char ∈ p)
     || negb (bool_decide (str (Clean p) = TrimSuffix (str p) "/")) && negb (bool_decide (p = ["/"%char]))
  then None else Some p.

(** The path is the prefix, or continues it at a slash. *)
Definition path_within (path_prefix : string) (p : bytes) : bool :=
  let prefix := TrimSuffix path_prefix "/" in
  bool_decide (prefix = "") || bool_decide (str p = prefix) || HasPrefix (str p) (prefix +:+ "/").

Definition within (scope : NetworkScope) (raw : string) : bool :=
  match Parse raw with
  | None => false
  | Some u =>
      if negb (bool_decide (u_user u = None)) || negb (bool_decide (u_scheme u = lit "https"))
         || bool_decide (u_host u = [])
         || negb (EqualFold (str (u_scheme u) +:+ "://" +:+ str (u_host u)) (ns_origin scope))
      then false else
      match canonical_path u with None => false | Some p => path_within (ns_path_prefix scope) p end
  end.

Definition Dispatch_Allows (d : Dispatch) (raw : string) : bool :=
  if existsb (fun s => within s raw) (di_denied d) then false
  else existsb (fun s => within s raw) (di_allowed d).

(** The origin and the path prefix of one scope of a dispatch. *)
Definition network_scope_ok (scope : NetworkScope) : bool :=
  let origin := Origin (ns_origin scope +:+ "/") in
  let pre := ns_path_prefix scope in
  if bool_decide (origin = "") || negb (bool_decide (origin = ns_origin scope))
     || bool_decide (pre = "") || negb (HasPrefix pre "/") || Z.ltb 2048 (go_len pre) then false else
  match Parse pre with
  | None => false
  | Some u =>
      bool_decide (u_host u = []) && bool_decide (u_scheme u = [])
      && bool_decide (u_raw_query u = []) && negb (u_force_query u)
      && bool_decide (u_fragment u = []) && bool_decide (u_raw_path u = [])
      && negb (Contains pre "\")
      && (bool_decide (str (Clean (lit pre)) = TrimSuffix pre "/") || bool_decide (pre = "/"))
  end.

Definition validTargets (d : Dispatch) (ref : PageRef) (rp : string) (targets : list string) : bool :=
  browserpage.Binding_Valid (di_page d) true && bool_decide (pb_ref (di_page d) = ref)
  && bool_decide (pb_url (di_page d) = rp) && digest_ok (di_digest d)
  && negb (bool_decide (di_allowed d = [])) && Nat.leb (length (di_allowed d)) 64
  && Nat.leb (length (di_denied d)) 64 && negb (IsZero (di_expires_at d))
  && forallb network_scope_ok (di_allowed d ++ di_denied d)
  && forallb (Dispatch_Allows d) targets.

Definition Dispatch_Valid (d : Dispatch) (s : SSOScope) : bool :=
  is_ok (SSO_Validate s) && validTargets d (so_rp_page s) (so_rp_url s) (SSO_Targets s).
Definition ValidInspection (d : Dispatch) (a : SSOInspection) : bool :=
  is_ok (Inspection_Validate a)
  && validTargets d (si_rp_page a) (si_rp_url a) (Inspection_Targets a)
  && bool_decide (di_digest d = Inspection_Digest a).
End lower.
End browsersso.

(** ** The external provider *)

Module externalauth.
Definition RequestTool : string := "credentials.request_external_login".
Definition ErrProvider : error := ErrNew "externalauth.ErrProvider" "external authentication unavailable or unverified".
Definition googleAuthorize : string := "https://accounts.google.com/o/oauth2/v2/auth".
Definition googleToken : string := "https://oauth2.googleapis.com/token".
Definition googleKeys : string := "https://www.googleapis.com/oauth2/v3/certs".

Section lower.
Context `{!UnicodeLower}.

Definition External_Validate (s : ExternalScope) : res unit :=
  let rp := browsersso.Origin (es_rp_url s) in
  fail_when negb (page_id (es_browser s)) || negb (page_valid (es_rp_page s))
            || bool_decide (rp = "") || negb (bool_decide (es_provider s = "google"))
            || negb (bool_decide (browsersso.Origin (es_verify_url s) = rp))
            || bool_decide (es_verify_url s = es_rp_url s) with ErrProvider ;;
  Ok tt.

Definition External_Targets (s : ExternalScope) : list string :=
  [es_rp_url s; es_verify_url s; googleAuthorize; googleToken; googleKeys].

(** A profile of the operator. *)
Record Profile := mkProfile {
  pl_rp_url : string; pl_verify_url : string; pl_redirect_url : string;
  pl_client_fingerprint : string }.

Definition Profile_Validate (p : Profile) : res unit :=
  let origin := browsersso.Origin (pl_rp_url p) in
  fail_when negb (hex_decodes (pl_client_fingerprint p))
            || negb (Z.eqb (go_len (pl_client_fingerprint p)) 64)
            || negb (bool_decide (pl_client_fingerprint p = ToLower (pl_client_fingerprint p)))
            || bool_decide (origin = "") || negb (bool_decide (pl_rp_url p = origin +:+ "/"))
            || negb (bool_decide (pl_verify_url p = origin +:+ "/auth/google/account"))
            || negb (bool_decide (pl_redirect_url p = origin +:+ "/auth/google/callback"))
    with ErrProvider ;;
  Ok tt.

Definition Matches (p : Profile) (s : ExternalScope) : bool :=
  is_ok (Profile_Validate p) && is_ok (External_Validate s)
  && bool_decide (es_rp_url s = pl_rp_url p) && bool_decide (es_verify_url s = pl_verify_url p).
End lower.
End externalauth.

(** The rules of the effect journal, with the scopes checked by the code. *)
Definition scope_rules `{!UnicodeLower} (credential : string -> option (res string))
    (communication : string -> res string) : ScopeRules :=
  mkScopeRules (fun s => is_ok (browserauth.Login_Validate s))
    (fun s => is_ok (browsersso.SSO_Validate s)) credential communication.
