(* ===== verification/EffectExternal.v ===== *)
(** * EffectExternal: the other writers of the journal

    Package [internal/actionauth]: [external_auth_journal.go] (the private
    effect of an external login, which has a dispatch and no permission), and
    the statements with which [stopped_local.go], [external_auth_stopped.go]
    and [owner_outcome.go] settle an uncertain effect.  The rows of tables
    outside the journal that they read (requests, results, reviews) are
    arguments; [marshal] is the JSON of a binding. *)
From S2P Require Import Prelude GoStrings GoBytes GoHash GoTime GoNet GoUrl Run Input Approval Effect BrowserScope.
Open Scope Z_scope.
Open Scope go_scope.

Definition StableActionID (runID callID : string) : string :=
  "action_" +:+ digest (runID +:+ NUL +:+ callID).

Definition ExternalAuthVerification : string := "external_google_rp_v1".

(** The claims of external logins, which are not rows of
    [action_authorizations]. *)
Definition external_prefix : string := "external_auth_claim_".
Definition external_claim (a : string) : bool := HasPrefix a external_prefix.

Definition validExternalScope `{!UnicodeLower} (b : ActionBinding) : bool :=
  bool_decide (ab_tool_name b = externalauth.RequestTool)
  && match ab_external_auth b with
     | Some s => is_ok (externalauth.External_Validate s)
     | None => false
     end.

(** The binding with another action, hash, call and effect. *)
Definition rebound (action hash call effect : string) (b : ActionBinding) : ActionBinding :=
  mkBinding (ab_browser_sso_inspection b) (ab_external_auth b) (ab_browser_sso b)
    (ab_browser_page b) (ab_browser_scope_url b) (ab_browser_scope_epoch b)
    (ab_owner_communication b) (ab_communication_destinations_hash b) action hash (ab_run_id b) call
    (ab_tool_name b) (ab_contract_hash b) (ab_contract_revision b) (ab_args_hash b)
    (ab_resource b) (ab_credential_refs b) (ab_credential_metadata_hash b) (ab_task_id b)
    (ab_task_revision b) (ab_constraints_revision b) (ab_owner_id b) effect (ab_goal_id b)
    (ab_goal_revision b) (ab_mandate_id b) (ab_mandate_revision b) (ab_purpose b)
    (ab_owner_policy_revision b) (ab_extension_id b) (ab_extension_manifest_hash b)
    (ab_extension_generation b) (ab_extension_access_revision b)
    (ab_extension_access_expires_at b) (ab_converter_id b) (ab_converter_package_hash b)
    (ab_converter_need_hash b) (ab_converter_generation b) (ab_data_sources b).

(** The row of [browser_external_auth_requests], and whether the request was
    launched ([browser_external_auth_launches]). *)
Record ExternalRequest := mkExternalRequest {
  xq_source_action_id : string;
  xq_state : string;
  xq_launched : bool;
  xq_expires_at : Z;
  xq_scope_digest : string;
}.

(** The exchange of a request (its effect is the one [BeginExternalAuthTx]
    returned), the result of the relying party, and whether a verified
    identity is on record. *)
Record ExternalResult := mkExternalResult {
  xr_effect_id : string;
  xr_outcome : string;
  xr_authenticated : bool;
  xr_anonymous : bool;
  xr_identity : bool;
  xr_scope_digest : string;
  xr_finished_at : Z;
}.

(** What a review of a stopped effect concluded. *)
Inductive review_verdict := ReviewUnknown | ReviewConfirmed | ReviewAbsent.
Definition review_state (v : review_verdict) : string :=
  match v with
  | ReviewUnknown => StateUnknown | ReviewConfirmed => StateConfirmed | ReviewAbsent => StateAbsent
  end.

(** The pending row of [browser_owner_outcome_reviews]. *)
Record OutcomeReview := mkOutcomeReview {
  ow_effect_id : string;
  ow_fingerprint : string;
  ow_run_id : string;
  ow_tool_call_id : string;
  ow_execution : string;
}.

Definition ErrOwnerAuthority : error :=
  ErrNew "ErrOwnerAuthority" "owner goal or mandate authority unavailable, stale or outside scope".
Definition ErrOwnerOutcome : error :=
  ErrNew "actionauth.ErrOwnerOutcome" "owner outcome review unavailable".

Section external.
Context {R : Type} (guards : DispatchGuards R) `{!UnicodeLower} (marshal : ActionBinding -> string)
  (text_le : string -> string -> Prop) `{!RelDecision text_le}
  `{!Column ActionBinding} `{!Column EffectPolicy} `{!Column EffectEvidence}.

Definition refused {A} (db : effect_db R) : effect_db R * res A := (db, Err externalauth.ErrProvider).

(** A statement whose error is replaced. *)
Definition or_refused {A} (e : error) (r : effect_db R * res A) : effect_db R * res A :=
  (r.1, or_else e r.2).

(** ** An external login begins *)

(** The intent that asked for the login, of an approved and launched request. *)
Definition external_source (env : effect_env) (request : option ExternalRequest) (db : effect_db R) :
    option (ActionBinding * ExternalRequest) :=
  q ← request;
  n ← ed_intents db !! xq_source_action_id q;
  if bool_decide (xq_state q = "approved") && xq_launched q && Z.ltb (fe_clock env 0) (xq_expires_at q)
  then Some (nr_binding n, q) else None.

Definition external_identity (id : string) (b : ActionBinding) : ActionBinding :=
  let call := "_external_auth_" +:+ id in
  let action := StableActionID (ab_run_id b) call in
  let hash := digest (marshal (rebound action "" call EffectCommit b)) in
  rebound action hash call EffectCommit b.

Definition external_policy (b : ActionBinding) : EffectPolicy :=
  mkEffectPolicy None None "unsafe" ExternalAuthVerification ""
    (from_option es_rp_url "" (ab_external_auth b)) (from_option es_verify_url "" (ab_external_auth b))
    None.

(** [INSERT INTO action_effects], [action_intents] and
    [action_effect_dispatches]. *)
Definition insert_external (env : effect_env) (claim fingerprint : string) (expires : Z)
    (b : ActionBinding) (db : effect_db R) : effect_db R * res unit :=
  let action := ab_action_id b in
  check stored <== column b at db ;;
  check policy <== column (external_policy b) at db ;;
  fx_stmt env 2 db (
    if bool_decide (is_Some (ed_effects db !! action)) then (db, Err err_unique) else
    let db1 := set_effects db (<[action :=
      mkEffectRow fingerprint stored policy StateExecuting "" claim "executing" (fe_now env)
        (fe_now env)]> (ed_effects db)) in
    fx_stmt env 3 db1 (
      if bool_decide (is_Some (ed_intents db1 !! action))
         || call_taken db1 (ab_run_id b) (ab_tool_call_id b) then (db1, Err err_unique) else
      let db2 := set_intents db1 (<[action :=
        mkIntentRow (ab_run_id b) (ab_tool_call_id b) (ab_action_hash b) stored true expires
          (fe_now env) action fingerprint policy]> (ed_intents db1)) in
      fx_stmt env 4 db2 (
        if bool_decide (is_Some (ed_dispatches db2 !! claim)) then (db2, Err err_unique) else
        (set_dispatches db2 (<[claim := mkDispatchRow action action "executing" (fe_now env) None]>
           (ed_dispatches db2)), Ok tt)))).

(** [BeginExternalAuthTx], in the transaction of its caller. *)
Definition BeginExternalAuthTx (env : effect_env) (id : string) (request : option ExternalRequest)
    (db : effect_db R) : effect_db R * res string :=
  fx_tx env db
    match dg_budgets guards with
    | None => refused db
    | Some budgets =>
        if negb (Z.eqb (go_len id) 69) || negb (HasPrefix id "extq_") then refused db else
        match fe_fault env 0, external_source env request db with
        | None, Some (b, q) =>
            if negb (validExternalScope b) || bool_decide (ab_goal_id b = "")
               || bool_decide (ab_mandate_id b = "") || negb (bool_decide (ab_effect b = EffectPrepare))
            then refused db else
            let asked := rebound (ab_action_id b) (ab_action_hash b) (ab_tool_call_id b) EffectCommit b in
            if negb (is_ok (dg_task_action guards env db asked (fe_time env))) then refused db else
            let b := external_identity id b in
            let fingerprint := digest (ab_action_hash b +:+ NUL +:+ id +:+ NUL +:+ xq_scope_digest q) in
            let identity := mkToolIdentity false false false (ab_run_id b) (ab_mandate_id b)
              (ab_action_id b) (ab_tool_name b) (ab_args_hash b) (ab_contract_hash b) (ab_effect b)
              (ab_task_revision b) (ab_constraints_revision b) in
            or_refused externalauth.ErrProvider (
              step db1, _1 <== run_hook (fun env db => ReserveToolTx budgets env db identity) env db ;;
              step db2, _2 <== insert_external env (external_prefix +:+ TrimPrefix id "extq_") fingerprint
                                 (xq_expires_at q) b db1 ;;
              (db2, Ok (ab_action_id b)))
        | _, _ => refused db
        end
    end.

(** ** An external login ends *)

(** The verdict and the outcome of the dispatch. *)
Definition external_verdict (x : ExternalResult) : option (string * string) :=
  if bool_decide (xr_outcome x = "verified") then
    if xr_authenticated x && xr_anonymous x && xr_identity x
    then Some (StateConfirmed, "dispatch_completed") else None
  else if bool_decide (xr_outcome x = "unverified") then
    if xr_identity x then None else Some (StateAbsent, "dispatch_completed")
  else if bool_decide (xr_outcome x = "unknown") then Some (StateUnknown, "unknown")
  else None.

(** [FinishExternalAuthTx]; [random] is the identity of the evidence. *)
Definition FinishExternalAuthTx (env : effect_env) (random id : string) (result : option ExternalResult)
    (db : effect_db R) : effect_db R * res unit :=
  fx_tx env db
    match fe_fault env 0, result with
    | None, Some x =>
        match effectIn text_le env 1 (xr_effect_id x) db, external_verdict x with
        | Ok r, Some (verdict, dispatch) =>
            let b := er_binding r in
            if negb (bool_decide (er_state r = StateExecuting))
               || negb (bool_decide (ep_verification_method (er_policy r) = ExternalAuthVerification))
               || negb (validExternalScope b) then refused db else
            let observed := mkEvidence None None ("evidence_" +:+ random) (xr_effect_id x)
              (ab_action_id b) (ab_tool_call_id b) (ab_run_id b) "credential_kernel"
              ExternalAuthVerification verdict
              (digest (id +:+ NUL +:+ xr_scope_digest x +:+ NUL +:+ xr_outcome x)) "" "" ""
              (xr_finished_at x) (fe_clock env 3) in
            or_refused externalauth.ErrProvider (
              fx_stmt env 3 db (
                step db1, _1 <== insertEvidence env 4 observed db ;;
                fx_stmt env 5 db1 (
                  let db2 := set_effects db1 (alter (effect_moved verdict dispatch (fe_clock env 5))
                                                (xr_effect_id x) (ed_effects db1)) in
                  fx_stmt env 6 db2
                    (finish_dispatch (er_authorization_id r) dispatch (fun _ => fe_clock env 6) db2,
                     Ok tt))))
        | _, _ => refused db
        end
    | _, _ => refused db
    end.

(** ** Uncertain effects settled by reviews *)

(** [UPDATE action_effects SET state=$2 .. WHERE action_id=$1 AND
    state='effect_unknown']. *)
Definition settle_unknown (id state : string) (now : Z) (db : effect_db R) : effect_db R :=
  match ed_effects db !! id with
  | Some r => if bool_decide (fr_state r = StateUnknown)
              then set_effects db (<[id := effect_moved state (fr_dispatch_outcome r) now r]>
                                     (ed_effects db))
              else db
  | None => db
  end.

(** Earlier evidence of the same review. *)
Definition same_review (e old : EffectEvidence) : bool :=
  bool_decide (ee_action_id old = ee_action_id e)
  && bool_decide (ee_source_action_id old = ee_source_action_id e)
  && bool_decide (ee_source_run_id old = ee_source_run_id e)
  && bool_decide (ee_source_tool_call_id old = ee_source_tool_call_id e)
  && bool_decide (ee_source old = ee_source e) && bool_decide (ee_method old = ee_method e)
  && bool_decide (ee_result_digest old = ee_result_digest e)
  && bool_decide (ee_verdict old = ee_verdict e).

(** One effect in the loop of [ReviewStoppedLocalTx]: the evidence the owning
    store supports is recorded, or is the one recorded before, and an uncertain
    effect takes its verdict. *)
Definition ReviewStoppedLocal (env : effect_env)
    (id intent call run source method proof : string) (v : review_verdict) (db : effect_db R) :
    effect_db R * res unit :=
  let now := fe_clock env 0 in
  let e := mkEvidence None None ("evidence_" +:+ digest (id +:+ NUL +:+ method)) id intent call run source
             method (review_state v) proof "" "" "" now now in
  fx_tx env db (
    fx_stmt env 1 db (
      step db1, _1 <== match ed_evidence db !! ee_evidence_id e with
                       | None => insertEvidence env 2 e db
                       | Some old =>
                           if same_review e (vr_evidence old) then (db, Ok tt)
                           else (db, Err (Errorf "stopped local evidence mismatch"))
                       end ;;
      match v with
      | ReviewUnknown => (db1, Ok tt)
      | _ => fx_stmt env 3 db1 (settle_unknown id (review_state v) (fe_clock env 3) db1, Ok tt)
      end)).

(** One effect in the loop of [ReviewStoppedTaskMetadataTx], whose absence the
    owning store shows. *)
Definition ReviewStoppedMetadata (env : effect_env)
    (id intent call run source method proof : string) (db : effect_db R) :
    effect_db R * res unit :=
  let now := fe_clock env 0 in
  let e := mkEvidence None None ("evidence_" +:+ digest (id +:+ NUL +:+ method)) id intent call run source
             method StateAbsent proof "" "" "" now now in
  fx_tx env db (
    step db1, _1 <== or_refused ErrOwnerAuthority (insertEvidence env 1 e db) ;;
    fx_stmt env 2 db1 (settle_unknown id StateAbsent (fe_clock env 2) db1, Ok tt)).

(** The part of the owner's decision on an outcome review that writes the
    journal: [admitted] stands for the checks of the review, of its run and
    task and of the page it shows; [known] is the outcome when the owner knows
    it. *)
Definition decide_outcome (env : effect_env) (admitted : bool) (random owner decision receipt : string)
    (r : OutcomeReview) (known : option bool) (db : effect_db R) : effect_db R * res unit :=
  fx_tx env db (
    if negb admitted then (db, Err ErrOwnerOutcome) else
    check x <== or_else ErrOwnerOutcome (effectIn text_le env 0 (ow_effect_id r) db) at db ;;
    if negb (bool_decide (er_state x = StateUnknown))
       || negb (bool_decide (er_fingerprint x = ow_fingerprint r))
       || negb (bool_decide (ab_owner_id (er_binding x) = owner)) then (db, Err ErrOwnerOutcome) else
    match known with
    | None => (db, Ok tt)
    | Some confirmed =>
        let state := if confirmed then StateConfirmed else StateAbsent in
        let e := mkEvidence None None ("evidence_" +:+ random) (ow_effect_id r) (ow_execution r)
          (ow_tool_call_id r) (ow_run_id r) "authenticated_owner" "owner_outcome_attestation_v1" state
          decision (digest receipt) "" "" (fe_time env) (fe_time env) in
        or_refused ErrOwnerOutcome (
          fx_stmt env 2 db (
            check data <== column e at db ;;
            if bool_decide (is_Some (ed_evidence db !! ee_evidence_id e)) then (db, Err err_unique) else
            if negb (bool_decide (is_Some (ed_intents db !! ee_source_action_id e)))
            then (db, Err err_foreign) else
            let db1 := set_evidence db (<[ee_evidence_id e :=
              mkEvidenceRow (ee_action_id e) (ee_source_action_id e) data (pg_time (fe_time env))
                (pg_time (fe_time env))]> (ed_evidence db)) in
            fx_stmt env 3 db1 (settle_unknown (ow_effect_id r) state (fe_clock env 3) db1, Ok tt)))
    end).
End external.
