(* ===== verification/EffectProofs.v ===== *)
(** * EffectProofs: an effect is dispatched at most once

    Every call of the journal is one move of a small machine
    ([journal_move]): an effect is prepared, allowed, dispatched, and settled,
    in this order.  The invariant [journal_ok] ties the effects to the
    permissions and to the dispatches; the theorems follow from the moves. *)
From Stdlib Require Import Ascii.
From S2P Require Import Prelude GoStrings GoBytes GoHash GoTime Ownership Run Input Approval Effect BrowserScope EffectExternal.
Open Scope Z_scope.
Open Scope go_scope.

(** ** Successful steps *)

Section steps.
Context {R : Type}.
Implicit Types db : effect_db R.

Lemma fx_tx_cases {A} env db db' (work : effect_db R * res A) r :
  fx_tx env db work = (db', r) -> db' = db \/ exists a, work = (db', Ok a).
Proof.
  unfold fx_tx. destruct work as [d [a|e]]; [|intros [= <- _]; by left].
  destruct (fe_commit env) as [[[] e]|]; intros [= <- _]; eauto.
Qed.

Lemma fx_tx_split {A} env db db' (work : effect_db R * res A) r :
  fx_tx env db work = (db', r) -> db' = db /\ is_ok r = false \/ exists a, work = (db', Ok a).
Proof.
  unfold fx_tx. destruct work as [d [a|e]]; [|intros [= <- <-]; by left].
  destruct (fe_commit env) as [[[] e]|]; intros [= <- <-]; eauto.
Qed.

Lemma fx_tx_Ok {A} env db db' (work : effect_db R * res A) a :
  fx_tx env db work = (db', Ok a) -> work = (db', Ok a).
Proof.
  unfold fx_tx. destruct work as [d [x|e]]; [|done].
  destruct (fe_commit env) as [[? ?]|]; [done|]. by intros [= <- <-].
Qed.

Lemma fx_bind_Ok {A B} (r : effect_db R * res A) k db' (b : B) :
  fx_bind r k = (db', Ok b) -> exists db1 a, r = (db1, Ok a) /\ k db1 a = (db', Ok b).
Proof. unfold fx_bind. destruct r as [d [a|e]]; [eauto|done]. Qed.

Lemma fx_check_Ok {A B} (r : res A) db k db' (b : B) :
  fx_check r db k = (db', Ok b) -> exists a, r = Ok a /\ k a = (db', Ok b).
Proof. unfold fx_check. destruct r; [eauto|done]. Qed.

Lemma fx_stmt_Ok {A} env n db k db' (a : A) :
  fx_stmt env n db k = (db', Ok a) -> fe_fault env n = None /\ k = (db', Ok a).
Proof. unfold fx_stmt. by destruct (fe_fault env n). Qed.

Lemma run_hook_Ok hook env db db' u :
  run_hook hook env db = (db', Ok u) -> exists r, db' = set_rest db r.
Proof. intros [= <- _]. eauto. Qed.
End steps.

(** Open a successful call: every check passed, every statement ran. *)
Ltac fx_ok :=
  repeat match goal with
  | H : fx_bind _ _ = (_, Ok _) |- _ =>
      let d := fresh "db" in let a := fresh "a" in let H' := fresh "H" in
      apply fx_bind_Ok in H; destruct H as (d & a & H' & H)
  | H : fx_check _ _ _ = (_, Ok _) |- _ =>
      let a := fresh "a" in let H' := fresh "H" in
      apply fx_check_Ok in H; destruct H as (a & H' & H)
  | H : fx_stmt _ _ _ _ = (_, Ok _) |- _ =>
      let H' := fresh "H" in apply fx_stmt_Ok in H; destruct H as (H' & H)
  | H : (_, Err _) = (_, Ok _) |- _ => discriminate H
  | H : Err _ = Ok _ |- _ => discriminate H
  | H : (if ?c then _ else _) = (_, Ok _) |- _ => let E := fresh "E" in destruct c eqn:E
  | H : match ?x with Some _ => _ | None => _ end = (_, Ok _) |- _ =>
      let E := fresh "E" in destruct x eqn:E
  | H : match ?x with Ok _ => _ | Err _ => _ end = (_, Ok _) |- _ =>
      let E := fresh "E" in destruct x eqn:E
  end.

(** ** Moves *)

(** The life of an effect: its state and the permission it belongs to. *)
Inductive effect_step : string * string -> string * string -> Prop :=
| step_allow s a a' : undispatched s = true -> effect_step (s, a) (StateAllowed, a')
| step_dispatch a : effect_step (StateAllowed, a) (StateExecuting, a)
| step_outcome a v : v ∈ [StateConfirmed; StateAbsent; StateUnknown] ->
    effect_step (StateExecuting, a) (v, a)
| step_reconcile a v : v ∈ [StateConfirmed; StateAbsent] -> effect_step (StateUnknown, a) (v, a).

Definition life_of (r : EffectRow) : string * string := (fr_state r, fr_authorization_id r).

(** What an effect is pinned to. *)
Definition pins (r : EffectRow) :=
  (fr_fingerprint r, fr_initial_binding r, fr_policy r, fr_idempotency_key r).

Section moves.
Context {R : Type}.
Implicit Types db : effect_db R.

(** Somebody recorded evidence for this verdict: a row whose column or whose
    text names the effect. *)
Definition evidenced db (id v : string) : Prop :=
  exists k row, ed_evidence db !! k = Some row
                /\ (vr_action_id row = id \/ ee_action_id (vr_evidence row) = id)
                /\ ee_verdict (vr_evidence row) = v.

Definition finished_grant (o : string) (g g' : GrantRow) : Prop :=
  gr_state g' = o /\ gr_action_id g' = gr_action_id g.

(** The permission of a claim is closed; the claim of an external login has
    none. *)
Definition closes_grant db db' (a o : string) : Prop :=
  (exists g g', ed_grants db !! a = Some g /\ finished_grant o g g'
     /\ ed_grants db' = <[a := g']> (ed_grants db))
  \/ external_claim a = true /\ ed_grants db' = ed_grants db.

Inductive journal_move db db' : Prop :=
| move_none :
    ed_effects db' = ed_effects db -> ed_grants db' = ed_grants db ->
    ed_dispatches db' = ed_dispatches db -> journal_move db db'
| move_prepare id row :
    ed_effects db !! id = None -> fr_state row = StatePrepared ->
    ed_effects db' = <[id := row]> (ed_effects db) -> ed_grants db' = ed_grants db ->
    ed_dispatches db' = ed_dispatches db -> journal_move db db'
| move_upgrade id r r' :
    ed_effects db !! id = Some r -> undispatched (fr_state r) = true -> life_of r' = life_of r ->
    ed_effects db' = <[id := r']> (ed_effects db) -> ed_grants db' = ed_grants db ->
    ed_dispatches db' = ed_dispatches db -> journal_move db db'
| move_allow id r r' a g rest :
    ed_effects db !! id = Some r -> undispatched (fr_state r) = true ->
    fr_state r' = StateAllowed -> pins r' = pins r ->
    ed_effects db' = <[id := r']> (ed_effects db) ->
    (rest = ed_grants db \/ exists old go, ed_grants db !! old = Some go
       /\ gr_state go = "authorized" /\ rest = delete old (ed_grants db)) ->
    rest !! a = None -> gr_state g = "authorized" ->
    ed_grants db' = <[a := g]> rest ->
    ed_dispatches db' = ed_dispatches db -> journal_move db db'
| move_dispatch id r r' a g g' d :
    ed_effects db !! id = Some r -> fr_state r = StateAllowed -> fr_authorization_id r = a ->
    life_of r' = (StateExecuting, a) -> pins r' = pins r ->
    ed_grants db !! a = Some g -> gr_state g = "authorized" -> finished_grant "inflight" g g' ->
    dp_action_id d = id -> dp_outcome d = "executing" -> ed_dispatches db !! a = None ->
    ed_effects db' = <[id := r']> (ed_effects db) -> ed_grants db' = <[a := g']> (ed_grants db) ->
    ed_dispatches db' = <[a := d]> (ed_dispatches db) -> journal_move db db'
| move_outcome id r r' a d d' o v :
    ed_effects db !! id = Some r -> life_of r = (StateExecuting, a) ->
    life_of r' = (v, a) -> pins r' = pins r ->
    v ∈ [StateConfirmed; StateAbsent; StateUnknown] -> evidenced db' id v \/ v = StateUnknown ->
    o ∈ ["dispatch_completed"; "unknown"] -> closes_grant db db' a o ->
    ed_dispatches db !! a = Some d -> dp_action_id d' = dp_action_id d -> dp_outcome d' = o ->
    ed_effects db' = <[id := r']> (ed_effects db) ->
    ed_dispatches db' = <[a := d']> (ed_dispatches db) -> journal_move db db'
| move_reconcile id r r' a v :
    ed_effects db !! id = Some r -> life_of r = (StateUnknown, a) ->
    life_of r' = (v, a) -> pins r' = pins r ->
    v ∈ [StateConfirmed; StateAbsent] -> evidenced db' id v ->
    ed_effects db' = <[id := r']> (ed_effects db) ->
    ed_grants db' = ed_grants db \/ external_claim a = true /\ closes_grant db db' a "unknown" ->
    ed_dispatches db' = ed_dispatches db -> journal_move db db'
| move_external id r a d :
    ed_effects db !! id = None -> life_of r = (StateExecuting, a) -> external_claim a = true ->
    dp_action_id d = id -> dp_outcome d = "executing" -> ed_dispatches db !! a = None ->
    ed_effects db' = <[id := r]> (ed_effects db) -> ed_grants db' = ed_grants db ->
    ed_dispatches db' = <[a := d]> (ed_dispatches db) -> journal_move db db'.

(** A dispatch: its effect left [allowed] under that claim and is executing
    exactly while the dispatch is open; and, unless it is the claim of an
    external login, it is a permission in the corresponding state. *)
Definition dispatch_ok db (a : string) (d : DispatchRow) : Prop :=
  exists r, ed_effects db !! dp_action_id d = Some r /\ fr_authorization_id r = a
    /\ undispatched (fr_state r) = false
    /\ (dp_outcome d = "executing" <-> fr_state r = StateExecuting)
    /\ dp_outcome d ∈ ["executing"; "dispatch_completed"; "unknown"]
    /\ (external_claim a = false -> exists g, ed_grants db !! a = Some g
          /\ gr_state g = (if bool_decide (dp_outcome d = "executing") then "inflight" else dp_outcome d)).

(** The invariant: an effect that left [allowed] has exactly one dispatch,
    that of its claim, and the three tables agree. *)
Record journal_ok db : Prop := mkJournalOk {
  jo_state : forall id r, ed_effects db !! id = Some r -> fr_state r ∈ effect_states;
  jo_effect : forall id r, ed_effects db !! id = Some r -> undispatched (fr_state r) = false ->
    exists d, ed_dispatches db !! fr_authorization_id r = Some d /\ dp_action_id d = id;
  jo_dispatch : forall a d, ed_dispatches db !! a = Some d -> dispatch_ok db a d;
  jo_grant : forall a g, ed_grants db !! a = Some g ->
    gr_state g = "authorized" \/ is_Some (ed_dispatches db !! a);
  jo_evidence : forall id r, ed_effects db !! id = Some r ->
    fr_state r ∈ [StateConfirmed; StateAbsent] -> evidenced db id (fr_state r);
}.
End moves.

Section invariant.
Context {R : Type}.
Implicit Types db : effect_db R.

Lemma settled_dispatched v :
  v ∈ [StateConfirmed; StateAbsent; StateUnknown] -> undispatched v = false /\ v ∈ effect_states.
Proof.
  intros H. unfold effect_states. split; [|set_solver].
  assert (v = StateConfirmed \/ v = StateAbsent \/ v = StateUnknown) as [->|[->| ->]]
    by set_solver; done.
Qed.

Lemma evidenced_mono db db' id v :
  ed_evidence db ⊆ ed_evidence db' -> evidenced db id v -> evidenced db' id v.
Proof. intros Hs (k & row & Hk & H). exists k, row. split; [by apply (lookup_weaken _ _ _ _ Hk Hs)|done]. Qed.

(** An effect that was not dispatched has no dispatch. *)
Lemma undispatched_no_dispatch db id r a d :
  journal_ok db -> ed_effects db !! id = Some r -> undispatched (fr_state r) = true ->
  ed_dispatches db !! a = Some d -> dp_action_id d <> id.
Proof.
  intros Hok Hr Hu Hd Heq. destruct (jo_dispatch _ Hok a d Hd) as (r' & Hr' & _ & Hu' & _).
  rewrite Heq Hr in Hr'. simplify_eq. by rewrite Hu in Hu'.
Qed.

(** The permission of a dispatch is no longer usable. *)
Lemma dispatched_grant_consumed db a d g :
  journal_ok db -> ed_dispatches db !! a = Some d -> external_claim a = false ->
  ed_grants db !! a = Some g -> gr_state g <> "authorized".
Proof.
  intros Hok Hd Hx Hg. destruct (jo_dispatch _ Hok a d Hd) as (r & _ & _ & _ & _ & Ho & Hgr).
  destruct (Hgr Hx) as (g' & Hg' & Hs). simplify_eq. rewrite Hs. case_bool_decide; [done|].
  assert (dp_outcome d = "dispatch_completed" \/ dp_outcome d = "unknown") as [->| ->]
    by set_solver; done.
Qed.

Lemma move_state db db' :
  journal_ok db -> journal_move db db' ->
  forall id r, ed_effects db' !! id = Some r -> fr_state r ∈ effect_states.
Proof.
  intros Hok Hm id r.
  assert (Hins : forall i x, fr_state x ∈ effect_states ->
    <[i := x]> (ed_effects db) !! id = Some r -> fr_state r ∈ effect_states).
  { intros i x Hx [[_ <-]|[_ H]]%lookup_insert_Some; [done|exact (jo_state _ Hok _ _ H)]. }
  destruct Hm as [-> | id0 row _ Hs -> | id0 r0 r0' Hr _ Hl -> | id0 r0 r0' a g rest _ _ Hs _ -> |
    id0 r0 r0' a g g' d _ _ _ Hl _ _ _ _ _ _ _ -> | id0 r0 r0' a d d' o v _ _ Hl _ Hv _ _ _ _ _ _ -> |
    id0 r0 r0' a v _ _ Hl _ Hv _ -> | id0 r0 a d _ Hl _ _ _ _ ->].
  - exact (jo_state _ Hok id r).
  - apply Hins. rewrite Hs. unfold effect_states. set_solver.
  - apply Hins. replace (fr_state r0') with (fr_state r0) by (by injection Hl). exact (jo_state _ Hok _ _ Hr).
  - apply Hins. rewrite Hs. unfold effect_states. set_solver.
  - apply Hins. injection Hl as -> _. unfold effect_states. set_solver.
  - apply Hins. injection Hl as -> _. by apply settled_dispatched.
  - apply Hins. injection Hl as -> _. unfold effect_states. set_solver.
  - apply Hins. injection Hl as -> _. unfold effect_states. set_solver.
Qed.

Lemma move_evidence db db' :
  journal_ok db -> ed_evidence db ⊆ ed_evidence db' -> journal_move db db' ->
  forall id r, ed_effects db' !! id = Some r -> fr_state r ∈ [StateConfirmed; StateAbsent] ->
    evidenced db' id (fr_state r).
Proof.
  intros Hok Hsub Hm id r.
  assert (Hold : ed_effects db !! id = Some r -> fr_state r ∈ [StateConfirmed; StateAbsent] ->
    evidenced db' id (fr_state r)).
  { intros Hr Hs. eapply evidenced_mono; [exact Hsub|]. by apply jo_evidence. }
  assert (Hins : forall i x, (fr_state x ∈ [StateConfirmed; StateAbsent] -> evidenced db' i (fr_state x)) ->
    <[i := x]> (ed_effects db) !! id = Some r -> fr_state r ∈ [StateConfirmed; StateAbsent] ->
    evidenced db' id (fr_state r)).
  { intros i x Hx [[<- <-]|[_ H]]%lookup_insert_Some; [done|by apply Hold]. }
  destruct Hm as [-> | id0 row _ Hs -> | id0 r0 r0' Hr Hu Hl -> | id0 r0 r0' a g rest _ _ Hs _ -> |
    id0 r0 r0' a g g' d _ _ _ Hl _ _ _ _ _ _ _ -> | id0 r0 r0' a d d' o v _ _ Hl _ Hv He _ _ _ _ _ -> |
    id0 r0 r0' a v _ _ Hl _ Hv He -> | id0 r0 a d _ Hl _ _ _ _ ->].
  - exact Hold.
  - apply Hins. rewrite Hs. intros Hc. exfalso; clear -Hc; set_solver.
  - apply Hins. replace (fr_state r0') with (fr_state r0) by (by injection Hl). intros Hc.
    exfalso. unfold undispatched in Hu. apply orb_true_iff in Hu as [Hu|Hu];
      apply bool_decide_eq_true in Hu; rewrite Hu in Hc; set_solver.
  - apply Hins. rewrite Hs. intros Hc. exfalso; clear -Hc; set_solver.
  - apply Hins. injection Hl as -> _. intros Hc. exfalso; clear -Hc; set_solver.
  - apply Hins. injection Hl as -> _. intros Hc. destruct He as [He| ->]; [done|].
    exfalso; clear -Hc; set_solver.
  - apply Hins. by injection Hl as -> _.
  - apply Hins. injection Hl as -> _. intros Hc. exfalso; clear -Hc; set_solver.
Qed.

Lemma move_effect_dispatched db db' :
  journal_ok db -> journal_move db db' ->
  forall id r, ed_effects db' !! id = Some r -> undispatched (fr_state r) = false ->
    exists d, ed_dispatches db' !! fr_authorization_id r = Some d /\ dp_action_id d = id.
Proof.
  intros Hok Hm id r.
  destruct Hm as [-> _ -> | id0 row _ Hs -> _ -> | id0 r0 r0' Hr Hu Hl -> _ -> |
    id0 r0 r0' a g rest _ _ Hs _ -> _ _ _ _ -> |
    id0 r0 r0' a g g' d _ _ _ Hl _ _ _ _ Hda _ Hn -> _ -> |
    id0 r0 r0' a d d' o v Hr Hl0 Hl _ Hv _ _ _ Hd Hda _ -> -> |
    id0 r0 r0' a v Hr Hl0 Hl _ _ _ -> _ -> | id0 r0 a d _ Hl _ Hda _ Hn -> _ ->].
  - exact (jo_effect _ Hok id r).
  - intros [[_ <-]|[_ H]]%lookup_insert_Some; [by rewrite Hs|exact (jo_effect _ Hok id r H)].
  - intros [[_ <-]|[_ H]]%lookup_insert_Some; [|exact (jo_effect _ Hok id r H)].
    injection Hl as Hs _. by rewrite Hs Hu.
  - intros [[_ <-]|[_ H]]%lookup_insert_Some; [by rewrite Hs|exact (jo_effect _ Hok id r H)].
  - injection Hl as _ Ha. intros [[<- <-]|[_ H]]%lookup_insert_Some Hu.
    + exists d. by rewrite Ha lookup_insert_eq.
    + destruct (jo_effect _ Hok id r H Hu) as (d0 & Hd0 & <-). exists d0. split; [|done].
      rewrite lookup_insert_ne; [|done]. intros Heq. congruence.
  - injection Hl as _ Ha. injection Hl0 as Hs0 Ha0.
    intros [[<- <-]|[_ H]]%lookup_insert_Some Hu.
    + exists d'. rewrite Ha lookup_insert_eq. split; [done|]. rewrite Hda.
      destruct (jo_effect _ Hok _ r0 Hr) as (d1 & Hd1 & <-); [by rewrite Hs0|]. congruence.
    + destruct (jo_effect _ Hok id r H Hu) as (d0 & Hd0 & <-).
      destruct (decide (fr_authorization_id r = a)) as [Heq|Hne].
      * rewrite Heq in Hd0 |- *. exists d'. rewrite lookup_insert_eq Hda. split; [done|]. congruence.
      * exists d0. rewrite lookup_insert_ne; [congruence|done].
  - injection Hl as _ Ha. injection Hl0 as Hs0 Ha0.
    intros [[<- <-]|[_ H]]%lookup_insert_Some Hu; [|exact (jo_effect _ Hok id r H Hu)].
    rewrite Ha -Ha0. apply (jo_effect _ Hok _ r0 Hr). by rewrite Hs0.
  - injection Hl as _ Ha. intros [[<- <-]|[_ H]]%lookup_insert_Some Hu.
    + exists d. by rewrite Ha lookup_insert_eq.
    + destruct (jo_effect _ Hok id r H Hu) as (d0 & Hd0 & <-). exists d0. split; [|done].
      rewrite lookup_insert_ne; [|done]. intros Heq. congruence.
Qed.

Lemma move_grant_consumed db db' :
  journal_ok db -> journal_move db db' ->
  forall a g, ed_grants db' !! a = Some g ->
    gr_state g = "authorized" \/ is_Some (ed_dispatches db' !! a).
Proof.
  intros Hok Hm a g.
  destruct Hm as [_ -> -> | id0 row _ Hs _ -> -> | id0 r0 r0' Hr Hu Hl _ -> -> |
    id0 r0 r0' a0 g0 rest _ _ _ _ _ Hrest _ Hg -> -> |
    id0 r0 r0' a0 g0 g0' d _ _ _ Hl _ _ _ _ _ _ _ _ -> -> |
    id0 r0 r0' a0 d d' o v _ _ _ _ _ _ _ Hcl _ _ _ _ -> |
    id0 r0 r0' a0 v Hr Hl _ _ _ _ _ Hcl -> | id0 r0 a0 d _ _ _ _ _ _ _ -> ->];
    try exact (jo_grant _ Hok a g).
  - intros [[_ <-]|[_ H]]%lookup_insert_Some; [by left|].
    destruct Hrest as [->|(old & go & _ & _ & ->)]; [exact (jo_grant _ Hok a g H)|].
    apply lookup_delete_Some in H as [_ H]. exact (jo_grant _ Hok a g H).
  - intros [[<- <-]|[Hne H]]%lookup_insert_Some; [right; rewrite lookup_insert_eq; eauto|].
    rewrite lookup_insert_ne //. exact (jo_grant _ Hok a g H).
  - assert (Hlook : forall x, ed_grants db !! a = Some x ->
      gr_state x = "authorized" \/ is_Some (<[a0 := d']> (ed_dispatches db) !! a)).
    { intros x Hx. destruct (jo_grant _ Hok a x Hx) as [?|?]; [by left|right].
      destruct (decide (a0 = a)) as [->|Hne]; [rewrite lookup_insert_eq; eauto|by rewrite lookup_insert_ne]. }
    destruct Hcl as [(g0 & g0' & _ & _ & ->)|[_ ->]]; [|apply Hlook].
    intros [[<- <-]|[_ H]]%lookup_insert_Some; [right; rewrite lookup_insert_eq; eauto|by apply Hlook].
  - destruct Hcl as [->|[_ [(g0 & g0' & _ & _ & ->)|[_ ->]]]]; try exact (jo_grant _ Hok a g).
    intros [[<- _]|[_ H]]%lookup_insert_Some; [right|exact (jo_grant _ Hok a g H)].
    injection Hl as Hs <-. destruct (jo_effect _ Hok id0 r0 Hr) as (d & -> & _); [by rewrite Hs|eauto].
  - intros H. destruct (jo_grant _ Hok a g H) as [?|?]; [by left|right].
    destruct (decide (a0 = a)) as [->|Hne]; [rewrite lookup_insert_eq; eauto|by rewrite lookup_insert_ne].
Qed.

(** A dispatch is untouched when its effect and its permission are. *)
Lemma dispatch_ok_frame db db' a d :
  dispatch_ok db a d -> ed_effects db' !! dp_action_id d = ed_effects db !! dp_action_id d ->
  (external_claim a = false -> ed_grants db' !! a = ed_grants db !! a) -> dispatch_ok db' a d.
Proof.
  intros (r & H1 & H2 & H3 & H4 & H5 & H6) He Hg. exists r. rewrite He. split_and!; try done.
  intros Hx. rewrite (Hg Hx). by apply H6.
Qed.

Lemma move_dispatch_ok db db' :
  journal_ok db -> journal_move db db' ->
  forall a d, ed_dispatches db' !! a = Some d -> dispatch_ok db' a d.
Proof.
  intros Hok Hm a d.
  assert (Hold : ed_dispatches db !! a = Some d -> dispatch_ok db a d)
    by exact (jo_dispatch _ Hok a d).
  destruct Hm as [He Hg -> | id0 row Hn _ He Hg -> | id0 r0 r0' Hr Hu Hl He Hg -> |
    id0 r0 r0' a0 g0 rest Hr Hu _ _ He Hrest Ha _ Hg -> |
    id0 r0 r0' a0 g0 g0' d0 Hr Hs Ha Hl _ Hg0 _ [Hgs _] Hda Hdo Hn He Hg -> |
    id0 r0 r0' a0 d0 d0' o v Hr Hl0 Hl _ Hv _ Ho Hcl Hd Hda Hdo He -> |
    id0 r0 r0' a0 v Hr Hl0 Hl _ Hv _ He Hg -> | id0 r0 a0 d0 Hn Hl Hx Hda Hdo Hnd He Hg ->].
  - intros H. apply (dispatch_ok_frame _ _ _ _ (Hold H)); by rewrite ?He ?Hg.
  - intros H. apply (dispatch_ok_frame _ _ _ _ (Hold H)); [|by rewrite Hg]. rewrite He.
    destruct (Hold H) as (r & Hr & _). apply lookup_insert_ne. intros ->. congruence.
  - intros H. apply (dispatch_ok_frame _ _ _ _ (Hold H)); [|by rewrite Hg]. rewrite He.
    apply lookup_insert_ne. intros Heq.
    by apply (undispatched_no_dispatch db id0 r0 a d Hok Hr Hu H).
  - intros H. apply (dispatch_ok_frame _ _ _ _ (Hold H)).
    + rewrite He. apply lookup_insert_ne. intros Heq.
      by apply (undispatched_no_dispatch db id0 r0 a d Hok Hr Hu H).
    + intros Hx. destruct (Hold H) as (r & _ & _ & _ & _ & _ & Hg1). destruct (Hg1 Hx) as (g & Hg2 & _).
      pose proof (dispatched_grant_consumed db a d g Hok H Hx Hg2) as Hc.
      assert (Hr1 : rest !! a = Some g).
      { destruct Hrest as [->|(old & go & Hold1 & Hs1 & ->)]; [done|].
        rewrite lookup_delete_ne; [|done]. intros ->. congruence. }
      rewrite Hg lookup_insert_ne; [congruence|]. by rewrite Hr1 Hg2.
  - injection Hl as Hs' Ha'. intros [[<- <-]|[Hne H]]%lookup_insert_Some.
    + exists r0'. rewrite He Hg Hda !lookup_insert_eq Hs' Hdo. split_and!; try done; [set_solver|].
      intros _. by exists g0'.
    + apply (dispatch_ok_frame _ _ _ _ (Hold H)).
      * rewrite He. apply lookup_insert_ne. intros Heq.
        apply (undispatched_no_dispatch db id0 r0 a d Hok Hr); [by rewrite Hs|done|done].
      * intros _. by rewrite Hg lookup_insert_ne.
  - injection Hl as Hs' Ha'. injection Hl0 as Hs0 Ha0.
    destruct (jo_effect _ Hok id0 r0 Hr ltac:(by rewrite Hs0)) as (d1 & Hd1 & Hd1a).
    rewrite Ha0 Hd in Hd1. injection Hd1 as <-.
    intros [[<- <-]|[Hne H]]%lookup_insert_Some.
    + exists r0'. rewrite He Hda Hd1a !lookup_insert_eq Hs'.
      assert (Hne : dp_outcome d0' <> "executing") by (rewrite Hdo; clear -Ho; set_solver).
      assert (Hv' : v <> StateExecuting) by (clear -Hv; set_solver).
      rewrite (bool_decide_eq_false_2 _ Hne). split_and!; try done; try congruence.
      * by apply settled_dispatched.
      * rewrite Hdo. clear -Ho. set_solver.
      * intros Hx. destruct Hcl as [(g & g' & _ & [Hgs _] & ->)|[? _]]; [|congruence].
        exists g'. rewrite lookup_insert_eq. split; congruence.
    + apply (dispatch_ok_frame _ _ _ _ (Hold H)).
      * rewrite He. apply lookup_insert_ne. intros Heq.
        destruct (Hold H) as (r & Hr1 & Ha1 & _). rewrite -Heq Hr in Hr1. congruence.
      * intros _. destruct Hcl as [(g & g' & _ & _ & ->)|[_ ->]]; [by rewrite lookup_insert_ne|done].
  - injection Hl as Hs' Ha'. injection Hl0 as Hs0 Ha0. intros H.
    destruct (Hold H) as (r & Hr1 & Ha1 & Hu1 & Hex & Ho & Hg1).
    assert (Hg' : external_claim a = false -> ed_grants db' !! a = ed_grants db !! a).
    { intros Hx. destruct Hg as [->|[Hx0 [(g0 & g0' & _ & _ & ->)|[_ ->]]]]; [done| |done].
      apply lookup_insert_ne. intros ->. congruence. }
    destruct (decide (dp_action_id d = id0)) as [Heq|Hne].
    + rewrite Heq Hr in Hr1. injection Hr1 as <-. exists r0'.
      rewrite He Heq lookup_insert_eq Hs'. split_and!; try done; try congruence.
      * by apply settled_dispatched; clear -Hv; set_solver.
      * split; [intros Hx; apply Hex in Hx; by rewrite Hs0 in Hx|clear -Hv; set_solver].
      * intros Hx. rewrite (Hg' Hx). by apply Hg1.
    + apply (dispatch_ok_frame _ _ _ _ (Hold H)); [|done].
      rewrite He. apply lookup_insert_ne. congruence.
  - injection Hl as Hs' Ha'. intros [[<- <-]|[Hne H]]%lookup_insert_Some.
    + exists r0. rewrite He Hda lookup_insert_eq Hs' Hdo. split_and!; try done; [set_solver|congruence].
    + apply (dispatch_ok_frame _ _ _ _ (Hold H)); [|by rewrite Hg]. rewrite He.
      destruct (Hold H) as (r & Hr & _). apply lookup_insert_ne. intros ->. congruence.
Qed.

(** Every move keeps the invariant. *)
Lemma journal_move_ok db db' :
  journal_ok db -> ed_evidence db ⊆ ed_evidence db' -> journal_move db db' -> journal_ok db'.
Proof.
  intros Hok Hsub Hm. split.
  - exact (move_state _ _ Hok Hm).
  - exact (move_effect_dispatched _ _ Hok Hm).
  - exact (move_dispatch_ok _ _ Hok Hm).
  - exact (move_grant_consumed _ _ Hok Hm).
  - exact (move_evidence _ _ Hok Hsub Hm).
Qed.

(** Every move leaves an effect where it is, or takes one step of its life. *)
Lemma journal_move_life db db' id r r' :
  journal_move db db' -> ed_effects db !! id = Some r -> ed_effects db' !! id = Some r' ->
  life_of r' = life_of r /\ (undispatched (fr_state r) = true \/ r' = r)
  \/ effect_step (life_of r) (life_of r') /\ pins r' = pins r.
Proof.
  intros Hm Hr Hr'.
  assert (Hs : ed_effects db' = ed_effects db ->
    life_of r' = life_of r /\ (undispatched (fr_state r) = true \/ r' = r)).
  { intros He. rewrite He Hr in Hr'. simplify_eq. eauto. }
  assert (Hi : forall i x, ed_effects db' = <[i := x]> (ed_effects db) ->
    i = id /\ x = r' \/ life_of r' = life_of r /\ (undispatched (fr_state r) = true \/ r' = r)).
  { intros i x He. rewrite He in Hr'. apply lookup_insert_Some in Hr' as [[-> ->]|[_ H]]; [by left|].
    right. rewrite Hr in H. simplify_eq. eauto. }
  destruct Hm as [He | i row Hn _ He | i r0 r0' Hr0 Hu Hl He | i r0 r0' a g rest Hr0 Hu Hsa Hp He |
    i r0 r0' a g g' d Hr0 Hs0 Ha Hl Hp _ _ _ _ _ _ He |
    i r0 r0' a d d' o v Hr0 Hl0 Hl Hp Hv _ _ _ _ _ _ He | i r0 r0' a v Hr0 Hl0 Hl Hp Hv _ He |
    i r0 a d Hn _ _ _ _ _ He].
  - left. by apply Hs.
  - destruct (Hi _ _ He) as [[-> _]|?]; [congruence|by left].
  - destruct (Hi _ _ He) as [[-> ->]|?]; [|by left]. rewrite Hr in Hr0. injection Hr0 as <-.
    left. split; [done|by left].
  - destruct (Hi _ _ He) as [[-> ->]|?]; [|by left]. rewrite Hr in Hr0. injection Hr0 as <-.
    right. split; [|done].
    unfold life_of. rewrite Hsa. by constructor.
  - destruct (Hi _ _ He) as [[-> ->]|?]; [|by left]. rewrite Hr in Hr0. injection Hr0 as <-.
    right. split; [|done].
    rewrite Hl. unfold life_of. rewrite Hs0 Ha. constructor.
  - destruct (Hi _ _ He) as [[-> ->]|?]; [|by left]. rewrite Hr in Hr0. injection Hr0 as <-.
    right. split; [|done].
    rewrite Hl Hl0. by constructor.
  - destruct (Hi _ _ He) as [[-> ->]|?]; [|by left]. rewrite Hr in Hr0. injection Hr0 as <-.
    right. split; [|done].
    rewrite Hl Hl0. by constructor.
  - destruct (Hi _ _ He) as [[-> _]|?]; [congruence|by left].
Qed.

(** No move removes an effect. *)
Lemma journal_move_keeps db db' id r :
  journal_move db db' -> ed_effects db !! id = Some r -> is_Some (ed_effects db' !! id).
Proof.
  intros Hm Hr.
  assert (Hi : forall i x, is_Some (<[i := x]> (ed_effects db) !! id)).
  { intros i x. destruct (decide (i = id)) as [->|Hne]; [rewrite lookup_insert_eq|rewrite lookup_insert_ne //]; eauto. }
  destruct Hm as [-> | ???? -> | ?????? -> | ?????????? -> | ?????????????????? -> | ??????????????????? -> | ??????????? -> | ?????????? -> ]; eauto.
Qed.
End invariant.

(** ** Every call is a move *)

Section calls.
Context {R : Type} (guards : DispatchGuards R) (sc : ScopeRules)
  (text_le : string -> string -> Prop) `{!RelDecision text_le}
  `{!Column ActionBinding} `{!Column EffectPolicy} `{!Column Grant} `{!Column EffectEvidence}.
Implicit Types db : effect_db R.

(** One move; evidence is only added. *)
Definition journal_call db db' : Prop := ed_evidence db ⊆ ed_evidence db' /\ journal_move db db'.

Lemma journal_call_refl db : journal_call db db.
Proof. split; [done|by apply move_none]. Qed.

(** A transaction whose work is a move when it succeeds is a move. *)
Lemma fx_tx_call {A} env db db' (work : effect_db R * res A) r :
  (forall a, work = (db', Ok a) -> journal_call db db') ->
  fx_tx env db work = (db', r) -> journal_call db db'.
Proof.
  intros Hw H. apply fx_tx_cases in H as [-> | [a Ha]]; [apply journal_call_refl|by apply (Hw a)].
Qed.

Lemma upsert_intent_frame env i b p db db' x :
  upsert_intent env i b p db = (db', Ok x) ->
  ed_effects db' = ed_effects db /\ ed_grants db' = ed_grants db
  /\ ed_dispatches db' = ed_dispatches db /\ ed_evidence db' = ed_evidence db.
Proof. unfold upsert_intent. intros H. fx_ok; by injection H as <- _. Qed.

Lemma PutIntent_call env i db db' r :
  PutIntent env i db = (db', r) -> journal_call db db'.
Proof.
  unfold PutIntent. case_match; [intros [= <- _]; apply journal_call_refl|].
  apply fx_tx_call. intros u Hw. fx_ok.
  destruct (upsert_effect env i (effect_key i) a a0 db) as [db1 fp] eqn:Hup.
  assert (Hwork : forall db2, fx_stmt env 2 db2
      (step db3, stored <== upsert_intent env i a a0 db2 ;;
       if negb (bool_decide (stored.1 = ab_action_hash (it_binding i)))
       then (db3, Err (Errorf "tool call identity already binds a different action"))
       else (db3, Ok tt)) = (db', Ok u) ->
    ed_effects db' = ed_effects db2 /\ ed_grants db' = ed_grants db2
    /\ ed_dispatches db' = ed_dispatches db2 /\ ed_evidence db' = ed_evidence db2).
  { intros db2 Hw2. clear Hw. fx_ok. injection Hw2 as <- _. eapply upsert_intent_frame; eassumption. }
  unfold upsert_effect in Hup. destruct (ed_effects db !! it_effect_id i) as [r0|] eqn:Hr0;
    injection Hup as <- <-.
  - case_bool_decide as Hfp.
    + destruct (Hwork _ Hw) as (He & Hg & Hd & Hv). split; [by rewrite Hv|by apply move_none].
    + unfold upgrade_effect in Hw. rewrite Hr0 in Hw. destruct (fe_fault env 1); [done|].
      destruct (bool_decide (fr_fingerprint r0 = _) && _ && _) eqn:Hc; [|done].
      destruct (Hwork _ Hw) as (He & Hg & Hd & Hv). split; [by rewrite Hv|].
      apply andb_true_iff in Hc as [[_ Hu]%andb_true_iff _].
      refine (move_upgrade db db' (it_effect_id i) r0 _ Hr0 Hu _ He Hg Hd). reflexivity.
  - rewrite bool_decide_eq_true_2 in Hw; [done|].
    destruct (Hwork _ Hw) as (He & Hg & Hd & Hv). split; [by rewrite Hv|].
    refine (move_prepare db db' (it_effect_id i) _ Hr0 _ He Hg Hd). reflexivity.
Qed.

Lemma grant_of_action_Some db action a g :
  grant_of_action db action = Some (a, g) -> ed_grants db !! a = Some g /\ gr_action_id g = action.
Proof.
  unfold grant_of_action. intros H%head_Some_elem_of.
  apply list_elem_of_filter in H as [H1 H2%elem_of_map_to_list]. done.
Qed.

Lemma upsert_grant_Ok env g data db db' :
  upsert_grant env g data db = Ok db' ->
  exists row rest, (rest = ed_grants db \/ exists old go, ed_grants db !! old = Some go
       /\ gr_state go = "authorized" /\ rest = delete old (ed_grants db))
    /\ rest !! gt_id g = None /\ gr_state row = "authorized"
    /\ db' = set_grants db (<[gt_id g := row]> rest).
Proof.
  unfold upsert_grant.
  destruct (grant_of_action db (ab_action_id (gt_binding g))) as [[old go]|] eqn:Hg.
  - apply grant_of_action_Some in Hg as [Hgo _]. case_match eqn:Hc; [done|].
    apply negb_false_iff, andb_true_iff in Hc as [Hs%bool_decide_eq_true _].
    case_bool_decide as Hn; [done|]. case_match; [done|]. intros [= <-].
    eexists _, _. split_and!; [| | |reflexivity]; [right; by exists old, go|by apply eq_None_not_Some|done].
  - case_bool_decide as Hn; [done|]. case_match; [done|]. intros [= <-].
    eexists _, _. split_and!; [| | |reflexivity]; [by left|by apply eq_None_not_Some|done].
Qed.

Lemma PutGrant_call env g db db' r :
  PutGrant env g db = (db', r) -> journal_call db db'.
Proof.
  unfold PutGrant. apply fx_tx_call. intros u Hw.
  destruct (fe_fault env 0); [done|].
  destruct (effect_of_action db (ab_action_id (gt_binding g))) as [[[n id] r0]|] eqn:He; [|done].
  case_match eqn:Hc; [done|]. apply orb_false_iff in Hc as [_ Hu%negb_false_iff].
  destruct (fe_fault env 1); [done|].
  destruct (column g) as [data|e]; simpl in Hw; [|done].
  destruct (upsert_grant env g data db) as [db1|e] eqn:Hg; simpl in Hw; [|done].
  fx_ok. injection Hw as <- _.
  apply upsert_grant_Ok in Hg as (row & rest & Hrest & Hn & Hs & ->).
  unfold effect_of_action in He.
  apply bind_Some in He as (n' & Hn' & He). apply bind_Some in He as (r' & Hr' & He). simplify_eq.
  split; [done|].
  by apply (move_allow db _ (nr_effect_id n) r0 (effect_allowed (fe_now env) (gt_id data) r0) (gt_id g)
    row rest).
Qed.

Lemma set_rest_id db : set_rest db (ed_rest db) = db.
Proof. by destruct db. Qed.

Lemma effect_of_action_Some db action n id r :
  effect_of_action db action = Some (n, id, r) ->
  ed_intents db !! action = Some n /\ id = nr_effect_id n /\ ed_effects db !! id = Some r.
Proof.
  unfold effect_of_action. intros (n' & Hn' & H)%bind_Some. apply bind_Some in H as (r' & Hr' & H).
  by simplify_eq.
Qed.

(** What a dispatch that took effect found and wrote. *)
Inductive dispatched (env : effect_env) (id : string) db db' : Prop :=
| mkDispatched (g : Grant) (n : IntentRow) (effect : string) (row : EffectRow) (gr : GrantRow)
    (rest : R) :
    grantInTx env 0 id db = Ok g -> guardDispatch guards env g db = Ok tt ->
    effect_of_action db (ab_action_id (gt_binding g)) = Some (n, effect, row) ->
    fr_state row = StateAllowed -> fr_authorization_id row = id ->
    ed_grants db !! id = Some gr -> grant_usable (fe_clock env 12) gr db = true ->
    ed_dispatches db !! id = None ->
    db' = set_rest (set_dispatches (set_effects (set_grants db
        (<[id := grant_moved "inflight" (Some (fe_now env)) (gr_finished_at gr) gr]> (ed_grants db)))
        (<[effect := effect_moved StateExecuting "executing" (fe_now env) row]> (ed_effects db)))
        (<[id := mkDispatchRow effect (ab_action_id (gt_binding g)) "executing" (fe_now env) None]>
           (ed_dispatches db))) rest ->
    dispatched env id db db'.

Lemma begin_dispatch_Ok env id action effect row db db' u :
  begin_dispatch env id action effect db = (db', Ok u) -> ed_effects db !! effect = Some row ->
  exists g, ed_grants db !! id = Some g /\ grant_usable (fe_clock env 12) g db = true
    /\ ed_dispatches db !! id = None
    /\ db' = set_dispatches (set_effects (set_grants db
        (<[id := grant_moved "inflight" (Some (fe_now env)) (gr_finished_at g) g]> (ed_grants db)))
        (<[effect := effect_moved StateExecuting "executing" (fe_now env) row]> (ed_effects db)))
        (<[id := mkDispatchRow effect action "executing" (fe_now env) None]> (ed_dispatches db)).
Proof.
  unfold begin_dispatch. intros H Hr. apply fx_stmt_Ok in H as [_ H].
  destruct (ed_grants db !! id) as [g|] eqn:Hg; [|done].
  destruct (grant_usable (fe_clock env 12) g db) eqn:Hu; simpl in H; [|done].
  apply fx_stmt_Ok in H as [_ H]. apply fx_stmt_Ok in H as [_ H].
  case_bool_decide as Hn; [done|]. destruct (negb _ || negb _); [done|]. injection H as <- _.
  exists g. split_and!; [done|done|by apply eq_None_not_Some|].
  f_equal. f_equal. simpl. apply map_eq. intros k. destruct (decide (k = effect)) as [->|Hne].
  - by rewrite lookup_alter_eq lookup_insert_eq Hr.
  - rewrite lookup_alter_ne; [congruence|]. by rewrite lookup_insert_ne; [congruence|].
Qed.

Lemma ClaimGrant_cases env id db db' r :
  ClaimGrant guards sc env id db = (db', r) ->
  db' = db /\ is_ok r = false \/ dispatched env id db db'.
Proof.
  unfold ClaimGrant. intros H. apply fx_tx_split in H as [H|[u Hw]]; [by left|right].
  apply fx_check_Ok in Hw as (g & Hg & Hw). apply fx_check_Ok in Hw as (u1 & _ & Hw).
  apply fx_check_Ok in Hw as ([] & Hguard & Hw).
  destruct (fe_fault env 8); [done|].
  destruct (effect_of_action db (ab_action_id (gt_binding g))) as [[[n id0] r0]|] eqn:He; [|done].
  destruct (negb (bool_decide (fr_state r0 = StateAllowed)) || _) eqn:Hc; [done|].
  apply orb_false_iff in Hc as [Hs%negb_false_iff%bool_decide_eq_true
    Ha%negb_false_iff%bool_decide_eq_true].
  apply fx_bind_Ok in Hw as (db1 & u3 & H1 & Hw). apply fx_check_Ok in Hw as (u4 & _ & Hw).
  apply fx_bind_Ok in Hw as (db2 & u5 & H2 & Hw). apply fx_check_Ok in Hw as (u6 & _ & Hw).
  assert (exists rr, db1 = set_rest db rr) as [rr ->].
  { destruct (dg_budgets guards); [exact (run_hook_Ok _ _ _ _ _ H1)|]. injection H1 as <- _.
    exists (ed_rest db). by rewrite set_rest_id. }
  assert (exists rr', db2 = set_rest db rr') as [rr' ->].
  { destruct (dg_claim guards).
    - apply run_hook_Ok in H2 as [rr' ->]. by exists rr'.
    - injection H2 as <- _. by exists rr. }
  destruct (effect_of_action_Some _ _ _ _ _ He) as (_ & _ & Hr0).
  destruct (begin_dispatch_Ok _ _ _ _ r0 _ _ _ Hw Hr0) as (gr & Hgr & Hus & Hnone & ->).
  by refine (mkDispatched env id db _ g n id0 r0 gr rr' Hg Hguard He Hs Ha Hgr Hus Hnone _).
Qed.

Lemma dispatched_call env id db db' : dispatched env id db db' -> journal_call db db'.
Proof.
  intros [g n ef r gr rest _ _ He Hs Ha Hg Hu Hn ->]. split; [done|].
  apply effect_of_action_Some in He as (_ & _ & Hr).
  unfold grant_usable in Hu. apply andb_true_iff in Hu as [[Hs0%bool_decide_eq_true _]%andb_true_iff _].
  by apply (move_dispatch db _ ef r (effect_moved StateExecuting "executing" (fe_now env) r) id gr
    (grant_moved "inflight" (Some (fe_now env)) (gr_finished_at gr) gr)
    (mkDispatchRow ef (ab_action_id (gt_binding g)) "executing" (fe_now env) None));
    try done; unfold life_of; simpl; rewrite ?Ha.
Qed.

(** ** Outcomes *)

(** Storing evidence keeps its verdict. *)
Context (Hverdict : forall e e' : EffectEvidence, column e = Ok e' -> ee_verdict e' = ee_verdict e).

Lemma insertEvidence_Ok env n e db db' u :
  insertEvidence env n e db = (db', Ok u) ->
  exists row, ed_evidence db !! ee_evidence_id e = None /\ vr_action_id row = ee_action_id e
    /\ ee_verdict (vr_evidence row) = ee_verdict e
    /\ db' = set_evidence db (<[ee_evidence_id e := row]> (ed_evidence db)).
Proof.
  unfold insertEvidence. case_match; [done|]. intros H1. apply fx_stmt_Ok in H1 as [_ H1].
  apply fx_check_Ok in H1 as (data & Hdata & H1). case_bool_decide as Hn; [done|].
  case_match; [done|]. injection H1 as <- _. eexists. split_and!; [| | |reflexivity].
  - by apply eq_None_not_Some.
  - done.
  - simpl. exact (Hverdict _ _ Hdata).
Qed.

Lemma effectIn_Ok env n id db r :
  effectIn text_le env n id db = Ok r ->
  exists row, ed_effects db !! id = Some row /\ er_action_id r = id /\ er_state r = fr_state row
    /\ er_authorization_id r = fr_authorization_id row /\ er_policy r = fr_policy row
    /\ er_binding r = fr_initial_binding row /\ er_idempotency_key r = fr_idempotency_key row
    /\ er_fingerprint r = fr_fingerprint row.
Proof.
  unfold effectIn. destruct (fe_fault env n); [done|].
  destruct (ed_effects db !! id) as [row|]; [|done].
  destruct (fe_fault env (S n)); [done|]. intros [= <-]. by exists row.
Qed.

(** The dispatch of an executing effect is open, and so is its permission,
    when it has one. *)
Lemma executing_open db id r :
  journal_ok db -> ed_effects db !! id = Some r -> fr_state r = StateExecuting ->
  exists d, ed_dispatches db !! fr_authorization_id r = Some d /\ dp_outcome d = "executing"
    /\ dp_action_id d = id
    /\ (external_claim (fr_authorization_id r) = false ->
        exists g, ed_grants db !! fr_authorization_id r = Some g /\ gr_state g = "inflight").
Proof.
  intros Hok Hr Hs. destruct (jo_effect _ Hok id r Hr) as (d & Hd & Hda); [by rewrite Hs|].
  destruct (jo_dispatch _ Hok _ _ Hd) as (r' & Hr' & _ & _ & Hex & _ & Hg).
  rewrite Hda Hr in Hr'. injection Hr' as <-. apply Hex in Hs as Hd1.
  rewrite bool_decide_eq_true_2 // in Hg. by exists d.
Qed.

(** Those of an effect that is not executing are closed. *)
Lemma settled_closed db id r :
  journal_ok db -> ed_effects db !! id = Some r -> fr_state r = StateUnknown ->
  (external_claim (fr_authorization_id r) = false ->
    forall g, ed_grants db !! fr_authorization_id r = Some g -> gr_state g <> "inflight")
  /\ (forall d, ed_dispatches db !! fr_authorization_id r = Some d -> dp_outcome d <> "executing").
Proof.
  intros Hok Hr Hs. destruct (jo_effect _ Hok id r Hr) as (d & Hd & Hda); [by rewrite Hs|].
  destruct (jo_dispatch _ Hok _ _ Hd) as (r' & Hr' & _ & _ & Hex & Ho & Hg).
  rewrite Hda Hr in Hr'. injection Hr' as <-.
  assert (Hne : dp_outcome d <> "executing") by (intros H%Hex; by rewrite Hs in H).
  rewrite bool_decide_eq_false_2 // in Hg. split.
  - intros Hx g' Hg'. destruct (Hg Hx) as (g & Hg0 & Hgs). rewrite Hg0 in Hg'. injection Hg' as <-.
    rewrite Hgs. intros Hi. rewrite Hi in Ho. clear -Ho. set_solver.
  - intros d' Hd'. rewrite Hd in Hd'. by injection Hd' as <-.
Qed.

Lemma finish_grant_open id o f db g :
  ed_grants db !! id = Some g -> gr_state g = "inflight" ->
  exists g', finished_grant o g g'
    /\ finish_grant id o f db = (set_grants db (<[id := g']> (ed_grants db)), 1%nat).
Proof.
  intros Hg Hs. unfold finish_grant. rewrite Hg bool_decide_eq_true_2 //.
  eexists. by split; [|reflexivity].
Qed.

Lemma finish_dispatch_open id o f db d :
  ed_dispatches db !! id = Some d -> dp_outcome d = "executing" ->
  exists d', dp_action_id d' = dp_action_id d /\ dp_outcome d' = o
    /\ finish_dispatch id o f db = set_dispatches db (<[id := d']> (ed_dispatches db)).
Proof.
  intros Hd Hs. unfold finish_dispatch. rewrite Hd bool_decide_eq_true_2 //.
  eexists. by split_and!; [| |reflexivity].
Qed.

(** What the closing of a permission does to the table. *)
Lemma finish_grant_closes id o f db :
  (exists g g', ed_grants db !! id = Some g /\ finished_grant o g g'
     /\ (finish_grant id o f db).1 = set_grants db (<[id := g']> (ed_grants db)))
  \/ (forall g, ed_grants db !! id = Some g -> gr_state g <> "inflight")
     /\ (finish_grant id o f db).1 = db.
Proof.
  unfold finish_grant. destruct (ed_grants db !! id) as [g|]; [|by right].
  case_bool_decide as Hs; [|right; split; [by intros ? [= <-]|done]].
  left. eexists g, _. split_and!; [done| |reflexivity]. by split.
Qed.

Lemma close_unknown_open env n id f db db' u d :
  close_unknown env n id f db = (db', Ok u) ->
  external_claim id = true \/ (exists g, ed_grants db !! id = Some g /\ gr_state g = "inflight") ->
  ed_dispatches db !! id = Some d -> dp_outcome d = "executing" ->
  closes_grant db db' id "unknown" /\ ed_effects db' = ed_effects db /\ ed_evidence db' = ed_evidence db
  /\ exists d', dp_action_id d' = dp_action_id d /\ dp_outcome d' = "unknown"
       /\ ed_dispatches db' = <[id := d']> (ed_dispatches db).
Proof.
  unfold close_unknown. intros H1 Hg Hd Hds. apply fx_stmt_Ok in H1 as [_ H1].
  apply fx_stmt_Ok in H1 as [_ H1]. injection H1 as <- _.
  destruct (finish_grant_closes id "unknown" f db) as [(g & g' & Hg0 & Hg' & ->)|[Hno ->]].
  - destruct (finish_dispatch_open id "unknown" f (set_grants db (<[id := g']> (ed_grants db))) d Hd Hds)
      as (d' & Hda & Hdo & ->). split_and!; [|done|done|by exists d']. left. by exists g, g'.
  - destruct (finish_dispatch_open id "unknown" f db d Hd Hds) as (d' & Hda & Hdo & ->).
    split_and!; [|done|done|by exists d']. right. split; [|done].
    destruct Hg as [?|(g & Hg & Hs)]; [done|by destruct (Hno g Hg)].
Qed.

Lemma close_unknown_closed env n id f db db' u :
  close_unknown env n id f db = (db', Ok u) ->
  (external_claim id = false -> forall g, ed_grants db !! id = Some g -> gr_state g <> "inflight") ->
  (forall d, ed_dispatches db !! id = Some d -> dp_outcome d <> "executing") ->
  (ed_grants db' = ed_grants db \/ external_claim id = true /\ closes_grant db db' id "unknown")
  /\ ed_effects db' = ed_effects db /\ ed_evidence db' = ed_evidence db
  /\ ed_dispatches db' = ed_dispatches db.
Proof.
  unfold close_unknown. intros H1 Hg Hd. apply fx_stmt_Ok in H1 as [_ H1].
  apply fx_stmt_Ok in H1 as [_ H1]. injection H1 as <- _.
  assert (Hfd : forall db1, ed_dispatches db1 = ed_dispatches db -> finish_dispatch id "unknown" f db1 = db1).
  { intros db1 E. unfold finish_dispatch. rewrite E. destruct (ed_dispatches db !! id) as [d|]; [|done].
    by rewrite (bool_decide_eq_false_2 _ (Hd d eq_refl)). }
  unfold finish_grant. destruct (ed_grants db !! id) as [g|] eqn:Hg0; [|rewrite Hfd //; by auto].
  case_bool_decide as Hs; [|rewrite Hfd //; by auto]. rewrite Hfd //. split_and!; try done. right.
  destruct (external_claim id) eqn:Hx; [|by destruct (Hg eq_refl g eq_refl)].
  split; [done|left]. eexists g, _. split_and!; [done| |reflexivity]. by split.
Qed.

Lemma check_outcome_Ok env id outcome g r e db u :
  check_outcome guards sc env id outcome g r e db = Ok u ->
  evidence_matches id g r e = true /\ verdict_possible g r outcome e = true
  /\ (ee_verdict e = StateConfirmed -> confirmation_supported r outcome e = true).
Proof.
  unfold check_outcome. intros H1. go_ok H1.
  apply negb_false_iff in Hg, Hg0. split_and!; [done|done|]. intros Hc.
  rewrite (bool_decide_eq_true_2 _ Hc) in Hg1. by apply negb_false_iff in Hg1.
Qed.

Lemma verdict_possible_in g r outcome e :
  verdict_possible g r outcome e = true -> ee_verdict e ∈ [StateConfirmed; StateAbsent; StateUnknown].
Proof.
  unfold verdict_possible. intros H1. apply orb_true_iff in H1 as [H1|H1].
  - apply orb_true_iff in H1 as [->%bool_decide_eq_true| ->%bool_decide_eq_true]; set_solver.
  - apply andb_true_iff in H1 as [->%bool_decide_eq_true _]. set_solver.
Qed.

(** What a recorded outcome found and wrote. *)
Inductive recorded (env : effect_env) (id outcome : string) (e : EffectEvidence) db db' : Prop :=
| mkRecorded (g : Grant) (n : IntentRow) (r : EffectRecord) (row : EffectRow) (gr gr' : GrantRow)
    (d d' : DispatchRow) (ev : EvidenceRow) (rest : R) :
    outcome ∈ ["dispatch_completed"; "unknown"] -> grantInTx env 0 id db = Ok g ->
    ed_intents db !! ab_action_id (gt_binding g) = Some n ->
    effectIn text_le env 2 (nr_effect_id n) db = Ok r ->
    check_outcome guards sc env id outcome g r e db = Ok tt ->
    ed_effects db !! nr_effect_id n = Some row -> life_of row = (StateExecuting, id) ->
    ee_action_id e = nr_effect_id n ->
    ed_grants db !! id = Some gr -> finished_grant outcome gr gr' ->
    ed_dispatches db !! id = Some d -> dp_action_id d' = dp_action_id d -> dp_outcome d' = outcome ->
    ed_evidence db !! ee_evidence_id e = None -> vr_action_id ev = ee_action_id e ->
    ee_verdict (vr_evidence ev) = ee_verdict e ->
    db' = set_rest (set_effects (set_dispatches (set_grants
        (set_evidence db (<[ee_evidence_id e := ev]> (ed_evidence db)))
        (<[id := gr']> (ed_grants db))) (<[id := d']> (ed_dispatches db)))
        (<[nr_effect_id n := effect_moved (ee_verdict e) outcome (fe_now env) row]> (ed_effects db)))
        rest ->
    recorded env id outcome e db db'.

Lemma RecordDispatchOutcome_cases env id outcome e db db' x :
  journal_ok db -> RecordDispatchOutcome guards sc text_le env id outcome e db = (db', x) ->
  db' = db /\ is_ok x = false \/ recorded env id outcome e db db'.
Proof.
  intros Hok. unfold RecordDispatchOutcome.
  destruct (negb _ && negb _) eqn:Ho; [intros [= <- <-]; by left|].
  assert (Hout : outcome ∈ ["dispatch_completed"; "unknown"]).
  { apply andb_false_iff in Ho as [H1|H1]; apply negb_false_iff, bool_decide_eq_true in H1;
      rewrite H1; set_solver. }
  intros H. apply fx_tx_split in H as [H|[u Hw]]; [by left|right].
  apply fx_check_Ok in Hw as (g & Hg & Hw). apply fx_stmt_Ok in Hw as [_ Hw].
  destruct (ed_intents db !! ab_action_id (gt_binding g)) as [n|] eqn:Hn; [|done].
  apply fx_check_Ok in Hw as (r & Hr & Hw). apply fx_check_Ok in Hw as ([] & Hc & Hw).
  apply fx_bind_Ok in Hw as (db1 & u1 & Hev & Hw).
  destruct (effectIn_Ok _ _ _ _ _ Hr) as (row & Hrow & Hid & Hst & Hau & _).
  destruct (check_outcome_Ok _ _ _ _ _ _ _ _ Hc) as (Hm & _).
  unfold evidence_matches in Hm. unbool.
  assert (Hau' : fr_authorization_id row = id) by congruence.
  destruct (executing_open db (nr_effect_id n) row Hok Hrow) as (d & Hd & Hdo & _); [congruence|].
  rewrite Hau' in Hd.
  apply insertEvidence_Ok in Hev as (ev & Hnone & Hva & Hvv & ->).
  destruct (fe_fault env 6); [done|].
  assert (exists gr, ed_grants db !! id = Some gr /\ gr_state gr = "inflight") as (gr & Hgr & Hgs).
  { revert Hw. unfold finish_grant. simpl. destruct (ed_grants db !! id) as [gr|]; [|done].
    destruct (bool_decide (gr_state gr = "inflight")) eqn:Hi; [|discriminate].
    apply bool_decide_eq_true in Hi. eauto. }
  destruct (finish_grant_open id outcome (fun _ => fe_now env)
    (set_evidence db (<[ee_evidence_id e := ev]> (ed_evidence db))) gr Hgr Hgs) as (gr' & Hgr' & Hf).
  rewrite Hf in Hw. apply fx_stmt_Ok in Hw as [_ Hw].
  destruct (finish_dispatch_open id outcome (fun _ => fe_now env) (set_grants
    (set_evidence db (<[ee_evidence_id e := ev]> (ed_evidence db))) (<[id := gr']> (ed_grants db))) d Hd Hdo)
    as (d' & Hda' & Hdo' & Hfd). simpl in Hw, Hfd. rewrite Hfd in Hw.
  apply fx_stmt_Ok in Hw as [_ Hw]. apply fx_bind_Ok in Hw as (db4 & u4 & Hmv & Hw).
  unfold move_effect in Hmv. simpl in Hmv. rewrite Hid Hrow in Hmv. injection Hmv as <- _.
  apply fx_bind_Ok in Hw as (db5 & u5 & Hob & Hw). injection Hw as <- _.
  assert (exists rest, db5 = set_rest (set_effects (set_dispatches (set_grants
        (set_evidence db (<[ee_evidence_id e := ev]> (ed_evidence db)))
        (<[id := gr']> (ed_grants db))) (<[id := d']> (ed_dispatches db)))
        (<[nr_effect_id n := effect_moved (ee_verdict e) outcome (fe_now env) row]> (ed_effects db)))
        rest) as [rest ->].
  { destruct (dg_budgets guards); [exact (run_hook_Ok _ _ _ _ _ Hob)|]. injection Hob as <- _.
    by exists (ed_rest db). }
  refine (mkRecorded env id outcome e db _ g n r row gr gr' d d' ev rest Hout Hg Hn Hr Hc Hrow _ _
    Hgr Hgr' Hd Hda' Hdo' Hnone Hva Hvv eq_refl); [unfold life_of|]; congruence.
Qed.

Lemma recorded_call env id outcome e db db' : recorded env id outcome e db db' -> journal_call db db'.
Proof.
  intros [g n r row gr gr' d d' ev rest Ho _ _ _ Hc Hrow Hl Hea Hgr Hgr' Hd Hda Hdo Hn Hva Hvv ->].
  split; [by apply insert_subseteq|].
  destruct (check_outcome_Ok _ _ _ _ _ _ _ _ Hc) as (_ & Hv%verdict_possible_in & _).
  apply (move_outcome db _ (nr_effect_id n) row (effect_moved (ee_verdict e) outcome (fe_now env) row) id
    d d' outcome (ee_verdict e)); try done.
  - unfold life_of. simpl. by injection Hl as _ ->.
  - left. exists (ee_evidence_id e), ev. simpl. rewrite lookup_insert_eq. split_and!; [done|left|]; congruence.
  - left. by exists gr, gr'.
Qed.

Lemma FinishGrant_call envs random id state db db' x :
  journal_ok db -> FinishGrant guards sc text_le envs random id state db = (db', x) ->
  journal_call db db'.
Proof.
  intros Hok. unfold FinishGrant. case_match; [intros [= <- _]; apply journal_call_refl|].
  unfold fx_check, fx_bind. destruct (GetGrant _ _ _); [|intros [= <- _]; apply journal_call_refl].
  destruct (GetIntent _ _ _); [|intros [= <- _]; apply journal_call_refl].
  destruct (RecordDispatchOutcome _ _ _ _ _ _ _ _) as [db1 y] eqn:Hr.
  apply RecordDispatchOutcome_cases in Hr as [[-> _]|Hr]; [| |done].
  - destruct y; intros [= <- _]; apply journal_call_refl.
  - apply recorded_call in Hr. by destruct y; intros [= <- _].
Qed.

(** The two ways an open question is closed. *)
Lemma close_call db db1 db' env n id row v o f u :
  journal_ok db -> ed_effects db !! id = Some row ->
  ed_evidence db ⊆ ed_evidence db1 -> ed_grants db1 = ed_grants db ->
  ed_dispatches db1 = ed_dispatches db ->
  ed_effects db1 = <[id := effect_moved v o (fe_now env) row]> (ed_effects db) ->
  close_unknown env n (fr_authorization_id row) f db1 = (db', Ok u) ->
  (v ∈ [StateConfirmed; StateAbsent] -> evidenced db1 id v) ->
  fr_state row = StateExecuting /\ v ∈ [StateConfirmed; StateAbsent; StateUnknown]
  \/ fr_state row = StateUnknown /\ v ∈ [StateConfirmed; StateAbsent] ->
  journal_call db db'.
Proof.
  intros Hok Hrow Hsub Hg Hd He Hcl Hev [[Hs Hv]|[Hs Hv]].
  - destruct (executing_open db id row Hok Hrow Hs) as (d & Hd0 & Hdo & _ & Hg0).
    rewrite -Hg in Hg0. rewrite -Hd in Hd0.
    destruct (close_unknown_open _ _ _ _ _ _ _ d Hcl)
      as (Hgc & He' & Hv' & d' & Hda & Hdo' & Hd'); [|done|done|].
    { destruct (external_claim _); [by left|right; by apply Hg0]. }
    rewrite Hd in Hd0. split; [by rewrite Hv'|].
    apply (move_outcome db _ id row (effect_moved v o (fe_now env) row) (fr_authorization_id row)
      d d' "unknown" v); try done; try congruence.
    + unfold life_of. by rewrite Hs.
    + assert (v ∈ [StateConfirmed; StateAbsent] \/ v = StateUnknown) as [H1| ->] by set_solver; [left|by right].
      unfold evidenced. rewrite Hv'. exact (Hev H1).
    + set_solver.
    + unfold closes_grant in *. by rewrite -Hg.
  - destruct (settled_closed db id row Hok Hrow Hs) as [Hc1 Hc2].
    rewrite -Hg in Hc1. rewrite -Hd in Hc2.
    destruct (close_unknown_closed _ _ _ _ _ _ _ Hcl Hc1 Hc2) as (Hgc & He' & Hv' & Hd').
    split; [by rewrite Hv'|].
    apply (move_reconcile db _ id row (effect_moved v o (fe_now env) row) (fr_authorization_id row) v);
      try done; try congruence; [unfold life_of; by rewrite Hs| |].
    + unfold evidenced. rewrite Hv'. by apply Hev.
    + unfold closes_grant in *. by rewrite -Hg.
Qed.

(** What a reconciliation that took effect found. *)
Inductive reconciled (env : effect_env) (target_id source_id : string) (e : EffectEvidence) db db' : Prop :=
| mkReconciled (target source : EffectRecord) (n : IntentRow) (k : string) (seen ev : EvidenceRow)
    (trow srow : EffectRow) :
    effectIn text_le env 0 target_id db = Ok target -> effectIn text_le env 2 source_id db = Ok source ->
    target_id <> source_id -> reconcile_allowed target_id target source e = true ->
    ed_effects db !! target_id = Some trow -> er_state target = fr_state trow ->
    ed_effects db !! source_id = Some srow -> er_state source = fr_state srow ->
    ed_intents db !! ee_source_action_id e = Some n ->
    observed_resource target source_id e n = true ->
    ed_evidence db !! k = Some seen -> captured source_id e seen = true ->
    ed_evidence db !! ee_evidence_id e = None -> vr_action_id ev = target_id ->
    ee_verdict (vr_evidence ev) = ee_verdict e ->
    ed_evidence db' = <[ee_evidence_id e := ev]> (ed_evidence db) ->
    journal_call db db' -> reconciled env target_id source_id e db db'.

Lemma ReconcileEffect_cases env target_id source_id e db db' x :
  journal_ok db -> ReconcileEffect text_le env target_id source_id e db = (db', x) ->
  db' = db /\ is_ok x = false \/ reconciled env target_id source_id e db db'.
Proof.
  intros Hok. unfold ReconcileEffect. case_bool_decide as Hne; [intros [= <- <-]; by left|].
  intros H. apply fx_tx_split in H as [H|[u Hw]]; [by left|right].
  apply fx_check_Ok in Hw as (t & Ht & Hw). apply fx_check_Ok in Hw as (s & Hsr & Hw).
  destruct (reconcile_allowed target_id t s e) eqn:Hal; simpl in Hw; [|done].
  apply fx_stmt_Ok in Hw as [_ Hw].
  destruct (ed_intents db !! ee_source_action_id e) as [n|] eqn:Hn; [|done].
  destruct (negb (bool_decide (nr_effect_id n = source_id))); [done|].
  destruct (observed_resource t source_id e n) eqn:Hob; simpl in Hw; [|done].
  destruct (bool_decide _ || negb _) eqn:Hcap; [done|].
  apply orb_false_iff in Hcap as [_ Hcap%negb_false_iff].
  apply existsb_exists in Hcap as ([k seen] & Hin%list_elem_of_In%elem_of_map_to_list & Hcap).
  apply fx_bind_Ok in Hw as (db1 & u1 & Hev & Hw). apply fx_stmt_Ok in Hw as [_ Hw].
  apply fx_bind_Ok in Hw as (db2 & o & Hmv & Hw). apply fx_bind_Ok in Hw as (db3 & u3 & Hcl & Hw).
  injection Hw as <- _.
  destruct (effectIn_Ok _ _ _ _ _ Ht) as (trow & Htrow & _ & Hts & Hta & _).
  destruct (effectIn_Ok _ _ _ _ _ Hsr) as (srow & Hsrow & _ & Hss & _).
  apply insertEvidence_Ok in Hev as (ev & Hnone & Hva & Hvv & ->).
  unfold move_effect in Hmv. simpl in Hmv. rewrite Htrow in Hmv. injection Hmv as <- <-.
  rewrite Hta in Hcl. pose proof Hal as Hal'. unfold reconcile_allowed in Hal'. unbool.
  assert (Hv : ee_verdict e ∈ [StateConfirmed; StateAbsent]).
  { match goal with H1 : _ || bool_decide (ee_verdict e = _) = true |- _ =>
      apply orb_true_iff in H1 as [->%bool_decide_eq_true| ->%bool_decide_eq_true] end; set_solver. }
  assert (Hst : fr_state trow = StateUnknown \/ fr_state trow = StateExecuting).
  { match goal with H1 : bool_decide (er_state t = _) || _ = true |- _ =>
      apply orb_true_iff in H1 as [H1%bool_decide_eq_true|H1%bool_decide_eq_true] end;
      rewrite -Hts; eauto. }
  assert (Hfin : ed_evidence db3 = <[ee_evidence_id e := ev]> (ed_evidence db)).
  { revert Hcl. clear. unfold close_unknown. intros H1. apply fx_stmt_Ok in H1 as [_ H1].
    apply fx_stmt_Ok in H1 as [_ H1]. injection H1 as <- _. unfold finish_grant, finish_dispatch.
    repeat case_match; done. }
  refine (mkReconciled env target_id source_id e db _ t s n k seen ev trow srow Ht Hsr Hne Hal Htrow Hts Hsrow Hss
    Hn Hob Hin Hcap Hnone _ Hvv Hfin _); [congruence|].
  eapply (close_call db _ _ env 8 target_id trow (ee_verdict e)); [done|done|..|exact Hcl| |].
  - simpl. by apply insert_subseteq.
  - done.
  - done.
  - done.
  - intros _. exists (ee_evidence_id e), ev. simpl. rewrite lookup_insert_eq.
    split_and!; [done|left|]; congruence.
  - destruct Hst as [Hst|Hst]; [right|left]; split; try done. set_solver.
Qed.

Lemma reconciled_call env target_id source_id e db db' :
  reconciled env target_id source_id e db db' -> journal_call db db'.
Proof. by intros []. Qed.

Lemma MarkInterruptedEffect_call env id db db' x :
  journal_ok db -> MarkInterruptedEffect text_le env id db = (db', x) -> journal_call db db'.
Proof.
  intros Hok. unfold MarkInterruptedEffect. apply fx_tx_call. intros u Hw.
  apply fx_check_Ok in Hw as (r & Hr & Hw).
  destruct (bool_decide (er_state r = StateExecuting)) eqn:Hs; simpl in Hw; [|done].
  apply bool_decide_eq_true in Hs. apply fx_stmt_Ok in Hw as [_ Hw].
  apply fx_bind_Ok in Hw as (db1 & o & Hmv & Hcl).
  destruct (effectIn_Ok _ _ _ _ _ Hr) as (row & Hrow & _ & Hst & Hau & _).
  unfold move_effect in Hmv. rewrite Hrow in Hmv. injection Hmv as <- _. rewrite Hau in Hcl.
  eapply (close_call db _ _ env 3 id row StateUnknown); [done|done|..|exact Hcl| |]; try done.
  - intros H1. clear -H1. set_solver.
  - left. split; [congruence|set_solver].
Qed.

Lemma RevokeMandate_call env id owner revision db db' x :
  RevokeMandate env id owner revision db = (db', x) -> journal_call db db'.
Proof.
  unfold RevokeMandate, fx_stmt. intros H1.
  assert (db' = db \/ exists m, db' = set_mandates db m) as [-> |[m ->]].
  { repeat case_match; injection H1 as <- _; eauto. }
  - apply journal_call_refl.
  - split; [done|by apply move_none].
Qed.

(** ** The other writers *)

Context `{Hlower : !UnicodeLower} (marshal : ActionBinding -> string).

Lemma or_refused_Ok {A} e (r : effect_db R * res A) db' a : or_refused e r = (db', Ok a) -> r = (db', Ok a).
Proof. unfold or_refused, or_else. destruct r as [d [x|]]; simpl; [by intros [= -> ->]|done]. Qed.

Lemma insert_external_Ok env claim fp expires b db db' u :
  insert_external env claim fp expires b db = (db', Ok u) ->
  exists r, ed_effects db !! ab_action_id b = None /\ life_of r = (StateExecuting, claim)
    /\ ed_dispatches db !! claim = None /\ ed_evidence db' = ed_evidence db
    /\ ed_effects db' = <[ab_action_id b := r]> (ed_effects db) /\ ed_grants db' = ed_grants db
    /\ ed_dispatches db' = <[claim := mkDispatchRow (ab_action_id b) (ab_action_id b) "executing"
         (fe_now env) None]> (ed_dispatches db).
Proof.
  unfold insert_external. intros Hi. apply fx_check_Ok in Hi as (stored & _ & Hi).
  apply fx_check_Ok in Hi as (policy & _ & Hi). apply fx_stmt_Ok in Hi as [_ Hi].
  case_bool_decide as Hn; [done|]. apply fx_stmt_Ok in Hi as [_ Hi]. destruct (_ || _); [done|].
  apply fx_stmt_Ok in Hi as [_ Hi]. case_bool_decide as Hd; [done|]. injection Hi as <- _.
  exists (mkEffectRow fp stored policy StateExecuting "" claim "executing" (fe_now env) (fe_now env)).
  by split_and!; try apply eq_None_not_Some.
Qed.

(** What a begun external login wrote. *)
Inductive begun (env : effect_env) (id : string) (effect : string) db db' : Prop :=
| mkBegun (r : EffectRow) (a : string) (d : DispatchRow) :
    ed_effects db !! effect = None -> life_of r = (StateExecuting, a) -> external_claim a = true ->
    dp_action_id d = effect -> dp_outcome d = "executing" -> ed_dispatches db !! a = None ->
    ed_effects db' = <[effect := r]> (ed_effects db) -> ed_grants db' = ed_grants db ->
    ed_dispatches db' = <[a := d]> (ed_dispatches db) -> ed_evidence db' = ed_evidence db ->
    begun env id effect db db'.

Lemma external_claim_prefixed a : external_claim (external_prefix +:+ a) = true.
Proof. reflexivity. Qed.

Lemma BeginExternalAuthTx_cases env id request db db' x :
  BeginExternalAuthTx guards marshal env id request db = (db', x) ->
  db' = db /\ is_ok x = false \/ exists effect, begun env id effect db db' /\ (is_ok x = true -> x = Ok effect).
Proof.
  unfold BeginExternalAuthTx. intros H0. pose proof H0 as Hx. apply fx_tx_split in H0 as [H0|[u Hw]]; [by left|right].
  assert (Hres : is_ok x = true -> x = Ok u).
  { unfold fx_tx in Hx. rewrite Hw in Hx. by destruct (fe_commit env) as [[]|]; simplify_eq. }
  destruct (dg_budgets guards) as [budgets|]; [|done]. destruct (_ || _); [done|].
  destruct (fe_fault env 0); [done|]. destruct (external_source _ _ _) as [[b q]|]; [|done].
  destruct (_ || _); [done|]. destruct (negb (is_ok _)); [done|].
  apply or_refused_Ok in Hw. apply fx_bind_Ok in Hw as (db1 & u1 & Hb & Hw).
  apply fx_bind_Ok in Hw as (db2 & u2 & Hi & Hw). injection Hw as <- <-.
  apply run_hook_Ok in Hb as [rest ->].
  destruct (insert_external_Ok _ _ _ _ _ _ _ _ Hi) as (r & H1 & H2 & H3 & H4 & H5 & H6 & H7).
  eexists. split; [|exact Hres].
  by refine (mkBegun env id _ db db2 r _ _ H1 H2 (external_claim_prefixed _) _ _ H3 H5 H6 H7 H4).
Qed.

Lemma begun_call env id effect db db' : begun env id effect db db' -> journal_call db db'.
Proof.
  intros [r a d H1 H2 H3 H4 H5 H6 H7 H8 H9 H10]. split; [by rewrite H10|].
  by apply (move_external db db' effect r a d).
Qed.

(** The effect of an exchange is the one [BeginExternalAuthTx] returned: the
    exchange is written in the same transaction. *)
Definition exchanged db (result : option ExternalResult) : bool :=
  match result with
  | Some x => match ed_effects db !! xr_effect_id x with
              | Some r => external_claim (fr_authorization_id r)
              | None => false
              end
  | None => false
  end.

Lemma external_verdict_in x v o : external_verdict x = Some (v, o) ->
  v ∈ [StateConfirmed; StateAbsent; StateUnknown] /\ o ∈ ["dispatch_completed"; "unknown"].
Proof. unfold external_verdict. intros Hx. repeat case_match; simplify_eq; split; set_solver. Qed.

Lemma FinishExternalAuthTx_call env random id result db db' x :
  journal_ok db -> exchanged db result = true ->
  FinishExternalAuthTx text_le env random id result db = (db', x) -> journal_call db db'.
Proof.
  intros Hok Hex. unfold FinishExternalAuthTx. apply fx_tx_call. intros u Hw.
  destruct (fe_fault env 0); [done|]. destruct result as [y|]; [|done]. simpl in Hex.
  destruct (effectIn _ _ _ _ _) as [r|] eqn:Hr; [|done].
  destruct (external_verdict y) as [[v o]|] eqn:Hv; [|done].
  destruct (_ || _) eqn:Hc; [done|]. unbool. apply or_refused_Ok in Hw.
  apply fx_stmt_Ok in Hw as [_ Hw]. apply fx_bind_Ok in Hw as (db1 & u1 & Hi & Hw).
  apply fx_stmt_Ok in Hw as [_ Hw]. apply fx_stmt_Ok in Hw as [_ Hw]. injection Hw as <- _.
  apply insertEvidence_Ok in Hi as (ev & Hnone & Hva & Hvv & ->). simpl.
  destruct (effectIn_Ok _ _ _ _ _ Hr) as (row & Hrow & _ & Hst & Hau & _). rewrite Hrow in Hex.
  destruct (executing_open db _ row Hok Hrow) as (d & Hd & Hdo & _ & _); [congruence|].
  destruct (external_verdict_in _ _ _ Hv) as [Hvin Hoin]. rewrite Hau.
  match goal with |- journal_call _ (finish_dispatch ?a0 ?o0 ?f0 ?d0) =>
    destruct (finish_dispatch_open a0 o0 f0 d0 d Hd Hdo) as (d' & Hda & Hdo' & ->) end.
  split; [by apply insert_subseteq|].
  apply (move_outcome db _ (xr_effect_id y) row (effect_moved v o (fe_clock env 5) row)
    (fr_authorization_id row) d d' o v); try done.
  - unfold life_of. congruence.
  - left. exists ("evidence_" +:+ random), ev. simpl. rewrite lookup_insert_eq.
    split_and!; [done|by left|done].
  - by right.
  - simpl. apply map_eq. intros k. destruct (decide (k = xr_effect_id y)) as [->|Hne].
    + by rewrite lookup_alter_eq lookup_insert_eq Hrow.
    + rewrite lookup_alter_ne; [congruence|]. by rewrite lookup_insert_ne; [congruence|].
Qed.

(** Settling an uncertain effect for which evidence is on record. *)
Lemma settle_call db db1 id v now :
  ed_evidence db ⊆ ed_evidence db1 -> ed_effects db1 = ed_effects db -> ed_grants db1 = ed_grants db ->
  ed_dispatches db1 = ed_dispatches db -> v ∈ [StateConfirmed; StateAbsent] -> evidenced db1 id v ->
  journal_call db (settle_unknown id v now db1).
Proof.
  intros Hs He Hg Hd Hv Hev. unfold settle_unknown. rewrite He.
  destruct (ed_effects db !! id) as [r|] eqn:Hr; [|split; [done|by apply move_none]].
  case_bool_decide as Hst; [|split; [done|by apply move_none]]. split; [done|].
  apply (move_reconcile db _ id r (effect_moved v (fr_dispatch_outcome r) now r) (fr_authorization_id r) v);
    try done; [by unfold life_of; rewrite Hst|]. left. done.
Qed.

Lemma ReviewStoppedLocal_call env id intent call run source method proof v db db' x :
  ReviewStoppedLocal env id intent call run source method proof v db = (db', x) -> journal_call db db'.
Proof.
  unfold ReviewStoppedLocal. apply fx_tx_call. intros u Hw. apply fx_stmt_Ok in Hw as [_ Hw].
  apply fx_bind_Ok in Hw as (db1 & u1 & H1 & Hw). set (e := mkEvidence _ _ _ _ _ _ _ _ _ _ _ _ _ _ _ _) in *.
  assert (H2 : ed_evidence db ⊆ ed_evidence db1 /\ ed_effects db1 = ed_effects db
    /\ ed_grants db1 = ed_grants db /\ ed_dispatches db1 = ed_dispatches db
    /\ evidenced db1 id (review_state v)).
  { destruct (ed_evidence db !! ee_evidence_id e) as [old|] eqn:Ho.
    - destruct (same_review e (vr_evidence old)) eqn:Hs; [|done]. injection H1 as <- _.
      unfold same_review in Hs. unbool. split_and!; try done. exists (ee_evidence_id e), old. by auto.
    - apply insertEvidence_Ok in H1 as (row & Hn & Ha & Hv & ->). split_and!; try done.
      + by apply insert_subseteq.
      + exists (ee_evidence_id e), row. simpl. rewrite lookup_insert_eq. split_and!; [done|by left|done]. }
  destruct H2 as (H2 & H3 & H4 & H5 & H6). destruct v; [injection Hw as <- _|..].
  - split; [done|by apply move_none].
  - apply fx_stmt_Ok in Hw as [_ Hw]. injection Hw as <- _. apply settle_call; try done. set_solver.
  - apply fx_stmt_Ok in Hw as [_ Hw]. injection Hw as <- _. apply settle_call; try done. set_solver.
Qed.

Lemma ReviewStoppedMetadata_call env id intent call run source method proof db db' x :
  ReviewStoppedMetadata env id intent call run source method proof db = (db', x) -> journal_call db db'.
Proof.
  unfold ReviewStoppedMetadata. apply fx_tx_call. intros u Hw.
  apply fx_bind_Ok in Hw as (db1 & u1 & H1%or_refused_Ok & Hw). apply fx_stmt_Ok in Hw as [_ Hw].
  injection Hw as <- _. apply insertEvidence_Ok in H1 as (row & Hn & Ha & Hv & ->).
  apply settle_call; try done; [by apply insert_subseteq|set_solver|].
  exists ("evidence_" +:+ digest (id +:+ NUL +:+ method)), row. simpl. rewrite lookup_insert_eq.
  split_and!; [done|by left|done].
Qed.

Lemma decide_outcome_call env admitted random owner decision receipt r known db db' x :
  decide_outcome text_le env admitted random owner decision receipt r known db = (db', x) ->
  journal_call db db'.
Proof.
  unfold decide_outcome. apply fx_tx_call. intros u Hw. destruct admitted; simpl in Hw; [|done].
  apply fx_check_Ok in Hw as (y & _ & Hw). destruct (_ || _); [done|].
  destruct known as [c|]; [|injection Hw as <- _; apply journal_call_refl].
  apply or_refused_Ok in Hw. apply fx_stmt_Ok in Hw as [_ Hw]. apply fx_check_Ok in Hw as (data & Hdata & Hw).
  case_bool_decide as Hn; [done|]. destruct (negb _); [done|]. apply fx_stmt_Ok in Hw as [_ Hw].
  injection Hw as <- _. apply settle_call; try done.
  - by apply insert_subseteq, eq_None_not_Some.
  - destruct c; set_solver.
  - eexists ("evidence_" +:+ random), _. simpl. rewrite lookup_insert_eq. split_and!; [done|by left|].
    simpl. exact (Hverdict _ _ Hdata).
Qed.

(** ** Histories *)

(** The calls of the journal, its other writers, and whatever other components
    write to the tables that are not the journal's. *)
Inductive journal_op :=
| OpPutIntent (env : effect_env) (i : Intent)
| OpPutGrant (env : effect_env) (g : Grant)
| OpClaimGrant (env : effect_env) (id : string)
| OpRecord (env : effect_env) (id outcome : string) (e : EffectEvidence)
| OpFinishGrant (envs : nat -> effect_env) (random id state : string)
| OpReconcile (env : effect_env) (target source : string) (e : EffectEvidence)
| OpInterrupted (env : effect_env) (id : string)
| OpRevokeMandate (env : effect_env) (id owner : string) (revision : Z)
| OpBeginExternal (env : effect_env) (id : string) (request : option ExternalRequest)
| OpFinishExternal (env : effect_env) (random id : string) (result : option ExternalResult)
| OpReviewLocal (env : effect_env) (id intent call run source method proof : string) (v : review_verdict)
| OpReviewMetadata (env : effect_env) (id intent call run source method proof : string)
| OpDecideOutcome (env : effect_env) (admitted : bool) (random owner decision receipt : string)
    (r : OutcomeReview) (known : option bool)
| OpOther (q : queue_db) (p : gmap string string) (m : gmap string MandateRow) (r : R).

Definition run_op (op : journal_op) db : effect_db R :=
  match op with
  | OpPutIntent env i => (PutIntent env i db).1
  | OpPutGrant env g => (PutGrant env g db).1
  | OpClaimGrant env id => (ClaimGrant guards sc env id db).1
  | OpRecord env id outcome e => (RecordDispatchOutcome guards sc text_le env id outcome e db).1
  | OpFinishGrant envs random id state => (FinishGrant guards sc text_le envs random id state db).1
  | OpReconcile env t s e => (ReconcileEffect text_le env t s e db).1
  | OpInterrupted env id => (MarkInterruptedEffect text_le env id db).1
  | OpRevokeMandate env id owner revision => (RevokeMandate env id owner revision db).1
  | OpBeginExternal env id request => (BeginExternalAuthTx guards marshal env id request db).1
  | OpFinishExternal env random id result =>
      if exchanged db result then (FinishExternalAuthTx text_le env random id result db).1 else db
  | OpReviewLocal env id intent call run source method proof v =>
      (ReviewStoppedLocal env id intent call run source method proof v db).1
  | OpReviewMetadata env id intent call run source method proof =>
      (ReviewStoppedMetadata env id intent call run source method proof db).1
  | OpDecideOutcome env admitted random owner decision receipt r known =>
      (decide_outcome text_le env admitted random owner decision receipt r known db).1
  | OpOther q p m r =>
      mkEffectDb q p (ed_effects db) (ed_intents db) (ed_grants db) m (ed_evidence db)
        (ed_dispatches db) r
  end.

Definition run_ops (ops : list journal_op) db : effect_db R := fold_left (fun d op => run_op op d) ops db.

(** The effects whose dispatch was granted, in order: a caller is told to go
    ahead exactly when [ClaimGrant] or [BeginExternalAuthTx] returns no error. *)
Definition granted (op : journal_op) db : list string :=
  match op with
  | OpClaimGrant env id =>
      let '(db', r) := ClaimGrant guards sc env id db in
      match r, ed_dispatches db' !! id with Ok _, Some d => [dp_action_id d] | _, _ => [] end
  | OpBeginExternal env id request =>
      match (BeginExternalAuthTx guards marshal env id request db).2 with
      | Ok effect => [effect] | Err _ => []
      end
  | _ => []
  end.

Fixpoint granted_in (ops : list journal_op) db : list string :=
  match ops with
  | [] => []
  | op :: rest => granted op db ++ granted_in rest (run_op op db)
  end.

Lemma run_op_call op db : journal_ok db -> journal_call db (run_op op db).
Proof.
  intros Hok. destruct op; simpl; lazymatch goal with
    | |- journal_call _ (fst ?c) => destruct c as [db' x] eqn:Hc; simpl
    | _ => idtac end.
  - exact (PutIntent_call _ _ _ _ _ Hc).
  - exact (PutGrant_call _ _ _ _ _ Hc).
  - apply ClaimGrant_cases in Hc as [[-> _]|Hc]; [apply journal_call_refl|exact (dispatched_call _ _ _ _ Hc)].
  - apply RecordDispatchOutcome_cases in Hc as [[-> _]|Hc]; [apply journal_call_refl| |done].
    exact (recorded_call _ _ _ _ _ _ Hc).
  - exact (FinishGrant_call _ _ _ _ _ _ _ Hok Hc).
  - apply ReconcileEffect_cases in Hc as [[-> _]|Hc]; [apply journal_call_refl| |done].
    exact (reconciled_call _ _ _ _ _ _ Hc).
  - exact (MarkInterruptedEffect_call _ _ _ _ _ Hok Hc).
  - exact (RevokeMandate_call _ _ _ _ _ _ _ Hc).
  - apply BeginExternalAuthTx_cases in Hc as [[-> _]|(ef & Hc & _)]; [apply journal_call_refl|].
    exact (begun_call _ _ _ _ _ Hc).
  - destruct (exchanged db result) eqn:Hex; [|apply journal_call_refl].
    destruct (FinishExternalAuthTx _ _ _ _ _ _) as [db' x] eqn:Hc.
    exact (FinishExternalAuthTx_call _ _ _ _ _ _ _ Hok Hex Hc).
  - exact (ReviewStoppedLocal_call _ _ _ _ _ _ _ _ _ _ _ _ Hc).
  - exact (ReviewStoppedMetadata_call _ _ _ _ _ _ _ _ _ _ _ Hc).
  - exact (decide_outcome_call _ _ _ _ _ _ _ _ _ _ _ Hc).
  - split; [done|by apply move_none].
Qed.

Lemma run_op_ok op db : journal_ok db -> journal_ok (run_op op db).
Proof. intros Hok. destruct (run_op_call op db Hok) as [Hs Hm]. exact (journal_move_ok _ _ Hok Hs Hm). Qed.

Lemma journal_ok_empty q p m (r : R) : journal_ok (mkEffectDb q p ∅ ∅ ∅ m ∅ ∅ r).
Proof. split; intros ?? H; simpl in H; by rewrite lookup_empty in H. Qed.

(** An effect with a dispatch keeps having one. *)
Lemma move_keeps_dispatch db db' a d :
  journal_move db db' -> ed_dispatches db !! a = Some d ->
  exists d', ed_dispatches db' !! a = Some d' /\ dp_action_id d' = dp_action_id d.
Proof.
  intros Hm Hd. destruct Hm as [_ _ He | ? ? _ _ _ _ He | ? ? ? _ _ _ _ _ He |
    ? ? ? ? ? ? _ _ _ _ _ _ _ _ _ He | ? ? ? a0 ? ? d0 _ _ _ _ _ _ _ _ _ _ Hn _ _ He |
    ? ? ? a0 d0 d0' ? ? _ _ _ _ _ _ _ _ Hd0 Hda _ _ He | ? ? ? ? ? _ _ _ _ _ _ _ _ He |
    ? ? a0 d0 _ _ _ _ _ Hn _ _ He];
    rewrite ?He; eauto.
  - destruct (decide (a0 = a)) as [->|Hne]; [congruence|]. rewrite lookup_insert_ne //. eauto.
  - destruct (decide (a0 = a)) as [->|Hne]; [|rewrite lookup_insert_ne //; eauto].
    rewrite lookup_insert_eq. exists d0'. split; [done|]. congruence.
  - destruct (decide (a0 = a)) as [->|Hne]; [congruence|]. rewrite lookup_insert_ne //. eauto.
Qed.

(** A granted effect had no dispatch before and has one after. *)
Lemma granted_fresh op db x :
  journal_ok db -> x ∈ granted op db ->
  granted op db = [x]
  /\ (forall a d, ed_dispatches db !! a = Some d -> dp_action_id d <> x)
  /\ (exists a d, ed_dispatches (run_op op db) !! a = Some d /\ dp_action_id d = x).
Proof.
  intros Hok. destruct op as [| |env id| | | | | |env id request| | | | |]; simpl;
    try by intros ?%elem_of_nil.
  2: { destruct (BeginExternalAuthTx guards marshal env id request db) as [db' [ef|e]] eqn:Hc; simpl;
         [|by intros ?%elem_of_nil]. intros ->%list_elem_of_singleton.
       apply BeginExternalAuthTx_cases in Hc as [[_ ?]|(ef' & Hc & Hx)]; [done|].
       injection (Hx eq_refl) as <-. destruct Hc as [r a d H1 _ _ H4 _ _ _ _ H9 _]. split_and!; [done| |].
       - intros a1 d1 Hd1 Heq. destruct (jo_dispatch _ Hok a1 d1 Hd1) as (r1 & Hr1 & _). congruence.
       - exists a, d. by rewrite H9 lookup_insert_eq. }
  destruct (ClaimGrant guards sc env id db) as [db' r] eqn:Hc. simpl.
  destruct r as [u|]; [|by intros ?%elem_of_nil].
  apply ClaimGrant_cases in Hc as [[_ ?]|Hc]; [done|].
  destruct Hc as [g n ef row gr rest _ _ He Hs Ha Hg Hu Hn ->]. simpl.
  rewrite lookup_insert_eq /=. intros ->%list_elem_of_singleton.
  apply effect_of_action_Some in He as (_ & _ & Hr). split_and!; [done| |].
  - intros a d Hd. apply (undispatched_no_dispatch db ef row a d Hok Hr); [by rewrite Hs|done].
  - eexists id, _. by rewrite lookup_insert_eq.
Qed.

Lemma granted_in_fresh ops : forall db, journal_ok db ->
  NoDup (granted_in ops db)
  /\ (forall x, x ∈ granted_in ops db ->
        forall a d, ed_dispatches db !! a = Some d -> dp_action_id d <> x).
Proof.
  induction ops as [|op ops IH]; intros db Hok; simpl.
  { split; [apply NoDup_nil_2|by intros x ?%elem_of_nil]. }
  destruct (IH (run_op op db) (run_op_ok op db Hok)) as [Hnd Hfr].
  destruct (run_op_call op db Hok) as [_ Hm].
  assert (Hrest : forall x, x ∈ granted_in ops (run_op op db) ->
    forall a d, ed_dispatches db !! a = Some d -> dp_action_id d <> x).
  { intros x Hx a d Hd Heq. destruct (move_keeps_dispatch _ _ _ _ Hm Hd) as (d' & Hd' & Hda).
    apply (Hfr x Hx a d' Hd'). congruence. }
  destruct (granted op db) as [|x l] eqn:Hg; [by split|].
  destruct (granted_fresh op db x Hok) as (Hl & Hnew & a & d & Hd & Hda); [rewrite Hg; set_solver|].
  rewrite Hg in Hl. injection Hl as ->. simpl. split.
  - apply NoDup_cons. split; [|done]. intros Hx. by apply (Hfr x Hx a d Hd).
  - intros y [->|Hy]%elem_of_cons; [done|by apply Hrest].
Qed.

Lemma run_ops_ok ops : forall db, journal_ok db -> journal_ok (run_ops ops db).
Proof. induction ops as [|op ops IH]; intros db Hok; [done|]. apply IH, run_op_ok, Hok. Qed.

(** C6: an external effect is dispatched at most once.  Whatever sequence of
    calls is made, whichever statements and commits fail, and whatever other
    components write meanwhile, the callers that are told to go ahead act on
    pairwise different effects, none of which had been dispatched before, and
    no effect has two recorded dispatches.  External logins are counted. *)
Theorem effects_dispatched_once ops db : journal_ok db ->
  NoDup (granted_in ops db)
  /\ (forall x a d, x ∈ granted_in ops db -> ed_dispatches db !! a = Some d -> dp_action_id d <> x)
  /\ (forall a1 a2 d1 d2, ed_dispatches (run_ops ops db) !! a1 = Some d1 ->
        ed_dispatches (run_ops ops db) !! a2 = Some d2 -> dp_action_id d1 = dp_action_id d2 -> a1 = a2).
Proof.
  intros Hok. destruct (granted_in_fresh ops db Hok) as [Hnd Hfr]. split_and!; [done|eauto|].
  intros a1 a2 d1 d2 H1 H2 Heq. pose proof (run_ops_ok ops db Hok) as Hok'.
  destruct (jo_dispatch _ Hok' _ _ H1) as (r1 & Hr1 & <- & _).
  destruct (jo_dispatch _ Hok' _ _ H2) as (r2 & Hr2 & <- & _). congruence.
Qed.

(** C24: the journal is consistent after any history of the store's calls and
    of the other writers of its tables (external logins, reviews of stopped
    effects, the owner's decisions on outcomes): states are known ones; an
    effect has left [allowed] exactly when the dispatch of its claim is
    recorded; it is executing exactly while that dispatch is open, and exactly
    while its permission is in flight, except that the claim of an external
    login, recognised by its prefix, has no permission; and a verdict other
    than unknown has recorded evidence. *)
Theorem journal_invariant ops db : journal_ok db -> journal_ok (run_ops ops db).
Proof. apply run_ops_ok. Qed.

Lemma final_dispatched s : s ∈ [StateConfirmed; StateAbsent] -> undispatched s = false.
Proof. intros H1. apply settled_dispatched. set_solver. Qed.

Lemma step_stays_dispatched x y :
  effect_step x y -> undispatched x.1 = false -> undispatched y.1 = false.
Proof.
  destruct 1 as [s a a' Hs|a|a v Hv|a v Hv]; simpl; intros Hu; [congruence|done|..];
    apply settled_dispatched; set_solver.
Qed.

Lemma step_not_final x y : effect_step x y -> x.1 ∉ [StateConfirmed; StateAbsent].
Proof.
  destruct 1 as [s a a' Hs|a|a v Hv|a v Hv]; simpl; intros H1; [|clear -H1; set_solver..].
  by rewrite (final_dispatched _ H1) in Hs.
Qed.

(** C8: every history refines the life of an effect: each effect moves only
    forward (prepared, allowed, executing, settled; only the unknown is
    settled again), one that was dispatched keeps its fingerprint, binding,
    policy and key, and a final verdict is never changed. *)
Theorem journal_refines_life ops : forall db id r, journal_ok db ->
  ed_effects db !! id = Some r ->
  exists r', ed_effects (run_ops ops db) !! id = Some r'
    /\ rtc effect_step (life_of r) (life_of r')
    /\ (undispatched (fr_state r) = false -> pins r' = pins r)
    /\ (fr_state r ∈ [StateConfirmed; StateAbsent] -> r' = r).
Proof.
  induction ops as [|op ops IH]; intros db id r Hok Hr.
  { exists r. split_and!; [done|apply rtc_refl|done|done]. }
  destruct (run_op_call op db Hok) as [_ Hm].
  destruct (journal_move_keeps _ _ _ _ Hm Hr) as [r1 Hr1].
  destruct (IH (run_op op db) id r1 (run_op_ok op db Hok) Hr1) as (r' & Hr' & Hrtc & Hp & Hf).
  exists r'. split; [done|].
  destruct (journal_move_life _ _ _ _ _ Hm Hr Hr1) as [[Hl [Hu| ->]]|[Hstep Hpin]].
  - rewrite -Hl. split_and!; [done|by rewrite Hu|].
    intros H1. by rewrite (final_dispatched _ H1) in Hu.
  - done.
  - split_and!; [exact (rtc_l _ _ _ _ Hstep Hrtc)|..].
    + intros Hu. rewrite -Hpin. apply Hp. by apply (step_stays_dispatched _ _ Hstep).
    + intros H1. by destruct (step_not_final _ _ Hstep).
Qed.

(** ** What a dispatch needs *)

Lemma live_lease_Some now g db session :
  live_lease now g db = Some session ->
  exists own, qd_ownership (ed_queue db) !! session = Some own
    /\ own_run_id own = ab_run_id (gt_binding g) /\ own_lease_id own = gt_lease_id g
    /\ own_fence_epoch own = gt_lease_epoch g /\ now < own_expires_at own.
Proof.
  unfold live_lease. intros H1. apply fmap_Some in H1 as ([k own] & H1 & ->).
  apply head_Some_elem_of, list_elem_of_filter in H1 as [H1 H2%elem_of_map_to_list].
  by exists own.
Qed.

(** The task is the one the action was bound to, and may act now. *)
Definition task_permits (b : ActionBinding) db : Prop :=
  exists t r, qd_tasks (ed_queue db) !! ab_task_id b = Some t /\ tk_status t = "active"
    /\ tk_revision t = ab_task_revision b /\ tk_constraints_revision t = ab_constraints_revision b
    /\ tk_owner_id t = ab_owner_id b
    /\ qd_runs (ed_queue db) !! ab_run_id b = Some r /\ rr_task_revision r = Some (tk_revision t)
    /\ (default "normal" (ed_policies db !! ab_task_id b) = "prepare_only" -> ab_effect b = EffectRead).

Lemma guard_task_Ok env b db u : guard_task guards env b db = Ok u -> task_permits b db.
Proof.
  unfold guard_task. destruct (fe_fault env 4); [done|].
  destruct (qd_runs (ed_queue db) !! ab_run_id b) as [r|] eqn:Hr; simpl; [|done].
  case_bool_decide as Hrt; [|done]. destruct (rr_task_revision r) as [pinned|] eqn:Hp; [|done].
  destruct (fe_fault env 5); [done|].
  destruct (qd_tasks (ed_queue db) !! ab_task_id b) as [t|] eqn:Ht; [|done].
  intros H1. go_ok H1. unbool. exists t, r. split_and!; try done; [congruence|].
  intros Hpo. unfold CheckExecutionPolicy in Hg0. rewrite Hpo in Hg0. simpl in Hg0.
  case_bool_decide as Heff; done.
Qed.

Lemma mandate_live_spec now gr db :
  mandate_live now gr db = true -> forall m, gr_mandate_id gr = Some m ->
  exists md, ed_mandates db !! m = Some md /\ mr_revision md = gr_mandate_revision gr
    /\ mr_revoked_at md = None /\ now < mr_expires_at md.
Proof.
  unfold mandate_live. intros H1 m Hm. rewrite Hm in H1.
  destruct (ed_mandates db !! m) as [md|]; [|done]. unbool. by exists md.
Qed.

(** C14: a dispatch that is granted is authorised at its commit: the permission
    is unused, unexpired and the one the effect was allowed for; its mandate is
    unrevoked, unexpired and unchanged; the execution lease it names is live;
    the run is in none of the states completed, failed, cancelled and
    finalizing, by its current state and by its status (a run that timed out
    passes); the task is active at the bound revisions, and acts only as its
    execution policy permits. *)
Theorem dispatch_is_authorized env id db db' u :
  ClaimGrant guards sc env id db = (db', Ok u) ->
  exists gr row n, let b := gt_binding (gr_grant_data gr) in
    ed_grants db !! id = Some gr /\ gr_state gr = "authorized"
    /\ fe_clock env 12 < gr_expires_at gr
    /\ (forall m, gr_mandate_id gr = Some m -> exists md, ed_mandates db !! m = Some md
          /\ mr_revision md = gr_mandate_revision gr /\ mr_revoked_at md = None
          /\ fe_clock env 12 < mr_expires_at md)
    /\ effect_of_action db (ab_action_id b) = Some (n, nr_effect_id n, row)
    /\ life_of row = (StateAllowed, id)
    /\ (exists session own, qd_ownership (ed_queue db) !! session = Some own
          /\ own_run_id own = ab_run_id b /\ own_lease_id own = gt_lease_id (gr_grant_data gr)
          /\ own_fence_epoch own = gt_lease_epoch (gr_grant_data gr)
          /\ fe_clock env 2 < own_expires_at own)
    /\ (exists r, qd_runs (ed_queue db) !! ab_run_id b = Some r
          /\ (rr_current_state r ∉ [""; "completed"; "failed"; "cancelled"; "finalizing"])
          /\ (rr_status r ∉ [""; "completed"; "failed"; "cancelled"; "finalizing"]))
    /\ (ab_task_id b <> "" -> task_permits b db).
Proof.
  intros Hc. apply ClaimGrant_cases in Hc as [[_ ?]|Hc]; [done|].
  destruct Hc as [g n ef row gr rest Hg Hguard He Hs Ha Hgr Hu _ _].
  assert (Hb : gt_binding g = gt_binding (gr_grant_data gr) /\ gt_lease_id g = gt_lease_id (gr_grant_data gr)
    /\ gt_lease_epoch g = gt_lease_epoch (gr_grant_data gr)).
  { unfold grantInTx in Hg. destruct (fe_fault env 0); [done|]. rewrite Hgr in Hg. by injection Hg as <-. }
  destruct Hb as (Hb & Hli & Hle). exists gr, row, n. rewrite -Hb -Hli -Hle. simpl.
  unfold grant_usable in Hu. unbool.
  unfold guardDispatch in Hguard. destruct (fe_fault env 2); [done|].
  destruct (live_lease (fe_clock env 2) g db) as [session|] eqn:Hlive; [|done].
  destruct (fe_fault env 3); [done|].
  destruct (qd_runs (ed_queue db) !! ab_run_id (gt_binding g)) as [r|] eqn:Hr; [|done].
  unfold run_refused in Hguard. go_ok Hguard. unbool. split_and!; try done.
  - by apply mandate_live_spec.
  - rewrite He. by apply effect_of_action_Some in He as (_ & -> & _).
  - unfold life_of. by rewrite Hs Ha.
  - exists session. by apply live_lease_Some.
  - by exists r.
  - intros Hne. match goal with H1 : (if bool_decide _ then _ else guard_task _ _ _ _) = Ok _ |- _ =>
      rewrite bool_decide_eq_false_2 // in H1; exact (guard_task_Ok _ _ _ _ H1) end.
Qed.

(** C30: [ReconcileEffect] settles only by an independent observation.  When it
    succeeds, the target was unknown or executing and is verified by an
    external receipt; the source is another effect, a confirmed HTTP read of
    the same owner and task; the intent that was observed read the target's own
    verification resource, by the run and the call the evidence names; evidence
    captured when that read ran carries the same digest and time; and the
    verdict, confirmed or absent, is recorded for the target.  (The other calls
    that settle an uncertain effect are the reviews and the owner's decision of
    file [EffectExternal].) *)
Theorem reconciliation_is_independent env t s e db db' r :
  journal_ok db -> ReconcileEffect text_le env t s e db = (db', Ok r) ->
  exists target source n k seen, t <> s
    /\ effectIn text_le env 0 t db = Ok target /\ er_state target ∈ [StateUnknown; StateExecuting]
    /\ ep_verification_method (er_policy target) = "external_receipt_v1"
    /\ effectIn text_le env 2 s db = Ok source /\ er_state source = StateConfirmed
    /\ ab_tool_name (er_binding source) = "http.request" /\ ab_effect (er_binding source) = EffectRead
    /\ ab_owner_id (er_binding source) = ab_owner_id (er_binding target)
    /\ ab_task_id (er_binding source) = ab_task_id (er_binding target)
    /\ ed_intents db !! ee_source_action_id e = Some n /\ nr_effect_id n = s
    /\ ab_effect (nr_binding n) = EffectRead
    /\ ab_resource (nr_binding n) = verificationResource target
    /\ ab_run_id (nr_binding n) = ee_source_run_id e
    /\ ab_tool_call_id (nr_binding n) = ee_source_tool_call_id e
    /\ ee_source e = "independent_lookup" /\ ee_action_id e = t
    /\ ed_evidence db !! k = Some seen /\ vr_action_id seen = s
    /\ ee_source (vr_evidence seen) = "runtime_response"
    /\ ee_verdict (vr_evidence seen) = StateConfirmed
    /\ ee_result_digest (vr_evidence seen) = ee_result_digest e /\ ee_result_digest e <> ""
    /\ vr_observed_at seen = pg_time (ee_observed_at e)
    /\ ee_verdict e ∈ [StateConfirmed; StateAbsent] /\ evidenced db' t (ee_verdict e).
Proof.
  intros Hok Hr. apply ReconcileEffect_cases in Hr as [[_ ?]|Hr]; [done| |done].
  destruct Hr as [target source n k seen ev trow srow Hte Hse Hne Hal Ht Hts Hs Hss Hn Hob Hk Hcap _ Hva
    Hvv He _].
  exists target, source, n, k, seen. unfold reconcile_allowed, observed_resource, captured in *. unbool.
  split_and!; try done.
  - match goal with H1 : bool_decide (er_state target = _) || _ = true |- _ =>
      apply orb_true_iff in H1 as [->%bool_decide_eq_true| ->%bool_decide_eq_true] end; set_solver.
  - match goal with H1 : _ || bool_decide (ee_verdict e = _) = true |- _ =>
      apply orb_true_iff in H1 as [->%bool_decide_eq_true| ->%bool_decide_eq_true] end; set_solver.
  - exists (ee_evidence_id e), ev. rewrite He lookup_insert_eq. split_and!; [done|by left|done].
Qed.

(** C36: an interrupted execution can always be closed: when nothing fails,
    [MarkInterruptedEffect] succeeds on every executing effect, which becomes
    unknown, and its dispatch is closed with it, and so is its permission
    (the claim of an external login has none). *)
Theorem interrupted_effect_closes env id db r :
  journal_ok db -> ed_effects db !! id = Some r -> fr_state r = StateExecuting ->
  (forall n, fe_fault env n = None) -> fe_commit env = None ->
  exists db' r' d, MarkInterruptedEffect text_le env id db = (db', Ok tt)
    /\ ed_effects db' !! id = Some r' /\ life_of r' = (StateUnknown, fr_authorization_id r)
    /\ ed_dispatches db' !! fr_authorization_id r = Some d /\ dp_outcome d = "unknown"
    /\ (external_claim (fr_authorization_id r) = false ->
        exists g, ed_grants db' !! fr_authorization_id r = Some g /\ gr_state g = "unknown").
Proof.
  intros Hok Hr Hs Hf Hcm. unfold MarkInterruptedEffect, fx_tx, effectIn, fx_check, fx_stmt, fx_bind,
    move_effect, close_unknown, fx_stmt. rewrite !Hf Hr /= Hs bool_decide_eq_true_2 //= Hcm.
  destruct (executing_open db id r Hok Hr Hs) as (d & Hd & Hdo & _ & Hg).
  match goal with |- context [finish_grant ?a ?o ?f ?d0] => set (db1 := d0); set (f0 := f);
    destruct (finish_grant_closes a o f d0) as [(g & g' & _ & [Hgs _] & Hfg)|[Hno Hfg]] end;
    rewrite Hfg; unfold finish_dispatch; simpl; rewrite Hd bool_decide_eq_true_2 //=;
    do 3 eexists; (split; [reflexivity|]); simpl; rewrite !lookup_insert_eq; split_and!; try done.
  - intros _. by exists g'.
  - intros Hx. destruct (Hg Hx) as (g & Hg0 & Hgs). by destruct (Hno g Hg0).
Qed.
End calls.

(** ** Witnesses *)

Module EffectDemo.
#[local] Instance lower : UnicodeLower := fun s => s.
#[local] Instance binding_column : Column ActionBinding := Ok.
#[local] Instance policy_column : Column EffectPolicy := Ok.
#[local] Instance grant_column : Column Grant := Ok.
#[local] Instance evidence_column : Column EffectEvidence := Ok.

(** The text of a binding that its hash is taken of. *)
Definition print (b : ActionBinding) : string := ab_action_id b +:+ ab_tool_call_id b.

Definition any_text (a b : string) : Prop := True.
#[local] Instance any_text_dec : RelDecision any_text := fun _ _ => left I.

Definition rules : ScopeRules :=
  mkScopeRules (fun _ => false) (fun _ => false) (fun _ => None) (fun _ => Err ErrNoRows).
Definition open_guards : DispatchGuards unit :=
  mkGuards None None None None (fun _ _ _ _ => Ok tt) (fun _ _ _ _ _ => false).

Definition at_time (now : Z) : effect_env := mkEffectEnv now (fun _ => now) now (fun _ => None) None.

Definition bind (action call tool resource effect : string) : ActionBinding :=
  mkBinding None None None None "" 0 false "" action ("hash-" +:+ action) "run-1" call tool "" "" ""
    resource None "" "" 0 0 "owner" effect "" 0 "" 0 "" 0 "" "" 0 0 None "" "" "" 0 None.

Definition receipt_policy : EffectPolicy :=
  mkEffectPolicy None None "external_idempotency" "external_receipt_v1" "Idempotency-Key"
    "https://shop.example" "https://shop.example/orders/{idempotency_key}" None.
Definition read_policy : EffectPolicy :=
  mkEffectPolicy None None "read_only" "read_result" "" "" "" None.

Definition order : Intent :=
  mkIntent (bind "action-1" "call-1" "http.request" "https://shop.example/orders" EffectCommit) true
    (3600 * second) "action-1" "print-1" receipt_policy.
Definition lookup_url : string := "https://shop.example/orders/" +:+ effect_key order.
Definition look : Intent :=
  mkIntent (bind "action-2" "call-2" "http.request" lookup_url EffectRead) false
    (3600 * second) "action-2" "print-2" read_policy.

Definition grant (id : string) (i : Intent) : Grant :=
  mkGrant "" id (it_binding i) "" "" 0 "lease-1" 1 3 (60 * second) "authorized".

Definition evidence (id action run_action call source method verdict artifact : string) (at_ : Z) :
    EffectEvidence :=
  mkEvidence None None id action run_action call "run-1" source method verdict "digest" artifact ""
    "" at_ at_.

Definition start : effect_db unit :=
  mkEffectDb
    (mkQueueDb {["chat" := mkOwnership "lease-1" "run-1" "worker" 1 0 (3600 * second)]}
       {["chat" := "owner"]} ∅
       {["run-1" := mkRunRow "chat" "event-1" None "tool_running" "" "tool_running" "" None None None
           0 0 None None None "{}" None None]} ∅ 1 ∅)
    ∅ ∅ ∅ ∅ ∅ ∅ ∅ tt.

Abbreviation ops_claimed :=
  [OpPutIntent (at_time second) order; OpPutGrant (at_time second) (grant "auth-1" order);
   OpClaimGrant (at_time (2 * second)) "auth-1"].
Abbreviation ops_unknown :=
  (ops_claimed ++
   [OpClaimGrant (at_time (3 * second)) "auth-1";
    OpRecord (at_time (4 * second)) "auth-1" "unknown"
      (evidence "e-1" "action-1" "action-1" "call-1" "runtime_response" "external_receipt_v1"
         StateUnknown "" (4 * second));
    OpPutIntent (at_time (5 * second)) look; OpPutGrant (at_time (5 * second)) (grant "auth-2" look);
    OpClaimGrant (at_time (6 * second)) "auth-2";
    OpRecord (at_time (7 * second)) "auth-2" "dispatch_completed"
      (evidence "e-2" "action-2" "action-2" "call-2" "runtime_response" "read_result"
         StateConfirmed "" (7 * second))]).
Abbreviation observation :=
  (evidence "e-3" "action-1" "action-2" "call-2" "independent_lookup" "external_receipt_v1"
     StateConfirmed "artifact" (7 * second)).

Lemma keeps_verdict (e e' : EffectEvidence) : column e = Ok e' -> ee_verdict e' = ee_verdict e.
Proof. by intros [= <-]. Defined.

(** A login with an external provider, which the relying party confirms. *)
Definition budget_guards : DispatchGuards unit :=
  mkGuards (Some (mkToolBudgets (fun _ _ _ => (tt, Ok tt)) (fun _ _ _ _ _ => (tt, Ok tt)))) None None None
    (fun _ _ _ _ => Ok tt) (fun _ _ _ _ _ => false).
Definition hex_id : string := "0123456789abcdef0123456789abcdef".
Definition login_scope : ExternalScope :=
  mkExternalScope hex_id (mkPageRef hex_id hex_id 1) "https://shop.example/" "google"
    "https://shop.example/auth/google/account".
Definition login : Intent :=
  mkIntent (mkBinding None (Some login_scope) None None "" 0 false "" "action-3" "hash-3" "run-1" "call-3"
      externalauth.RequestTool "" "" "" "tool:credentials.request_external_login" None "" "" 0 0 "owner"
      EffectPrepare "goal-1" 1 "mandate-1" 1 "" 0 "" "" 0 0 None "" "" "" 0 None)
    true (3600 * second) "action-3" "print-3" read_policy.
Definition request_id : string := "extq_" +:+ hex_id +:+ hex_id.
Definition request : ExternalRequest :=
  mkExternalRequest "action-3" "approved" true (3600 * second) "scope".
Definition login_effect : string := StableActionID "run-1" ("_external_auth_" +:+ request_id).
Definition login_claim : string := external_prefix +:+ hex_id +:+ hex_id.
Abbreviation ops_login :=
  [OpPutIntent (at_time second) login; OpBeginExternal (at_time (2 * second)) request_id (Some request);
   OpBeginExternal (at_time (3 * second)) request_id (Some request)].
Abbreviation ops_logged_in :=
  (ops_login ++ [OpFinishExternal (at_time (4 * second)) "r1" request_id
     (Some (mkExternalResult login_effect "verified" true true true "scope" (4 * second)))]).
Abbreviation logins ops := (run_ops budget_guards rules any_text print ops start).

Example external_login :
  granted_in budget_guards rules any_text print ops_login start = [login_effect]
  /\ (life_of <$> ed_effects (logins ops_login) !! login_effect) = Some (StateExecuting, login_claim)
  /\ ed_grants (logins ops_login) !! login_claim = None
  /\ (life_of <$> ed_effects (logins ops_logged_in) !! login_effect) = Some (StateConfirmed, login_claim)
  /\ (dp_outcome <$> ed_dispatches (logins ops_logged_in) !! login_claim) = Some "dispatch_completed".
Proof. vm_compute. split_and!; reflexivity. Qed.

Abbreviation history ops := (run_ops open_guards rules any_text print ops start).

Definition start_ok : journal_ok start := journal_ok_empty _ _ _ _.

Lemma effects_dispatched_once_witness :
  granted_in open_guards rules any_text print ops_unknown start = ["action-1"; "action-2"]
  /\ NoDup (granted_in open_guards rules any_text print ops_unknown start).
Proof.
  split; [vm_compute; reflexivity|].
  exact (proj1 (effects_dispatched_once open_guards rules any_text keeps_verdict print ops_unknown start start_ok)).
Defined.

Lemma journal_invariant_witness :
  journal_ok (run_ops budget_guards rules any_text print (ops_unknown ++ ops_logged_in) start)
  /\ (fr_state <$> ed_effects (run_ops budget_guards rules any_text print (ops_unknown ++ ops_logged_in) start)
        !! login_effect) = Some StateConfirmed.
Proof.
  split; [|vm_compute; reflexivity].
  exact (journal_invariant budget_guards rules any_text keeps_verdict print (ops_unknown ++ ops_logged_in)
    start start_ok).
Defined.

Definition claimed_ok : journal_ok (history ops_claimed) :=
  run_ops_ok open_guards rules any_text keeps_verdict print ops_claimed start start_ok.
Definition unknown_ok : journal_ok (history ops_unknown) :=
  run_ops_ok open_guards rules any_text keeps_verdict print ops_unknown start start_ok.

Lemma journal_refines_life_witness :
  exists r r', ed_effects (history ops_claimed) !! "action-1" = Some r
    /\ ed_effects (run_ops open_guards rules any_text print
         [OpInterrupted (at_time (9 * second)) "action-1"] (history ops_claimed)) !! "action-1" = Some r'
    /\ rtc effect_step (life_of r) (life_of r').
Proof.
  destruct (ed_effects (history ops_claimed) !! "action-1") as [r|] eqn:E;
    [|vm_compute in E; discriminate E].
  destruct (journal_refines_life open_guards rules any_text keeps_verdict print
    [OpInterrupted (at_time (9 * second)) "action-1"] (history ops_claimed) "action-1" r claimed_ok E)
    as (r' & Hr' & Hl & _).
  exists r, r'. split; [reflexivity|]. split; [exact Hr'|exact Hl].
Defined.

Abbreviation allowed_db := (history (take 2 ops_claimed)).
Abbreviation claim_now := (ClaimGrant open_guards rules (at_time (2 * second)) "auth-1" allowed_db).

Lemma dispatch_is_authorized_witness :
  is_ok claim_now.2 = true
  /\ exists gr, ed_grants allowed_db !! "auth-1" = Some gr /\ gr_state gr = "authorized".
Proof.
  split; [vm_compute; reflexivity|].
  destruct claim_now as [db' [u|e]] eqn:E; [|vm_compute in E; discriminate E].
  destruct (dispatch_is_authorized open_guards rules (at_time (2 * second)) "auth-1" allowed_db db' u E)
    as (gr & _ & _ & Hg & Hs & _). exists gr. split; [exact Hg|exact Hs].
Defined.

Abbreviation settle_now :=
  (ReconcileEffect any_text (at_time (8 * second)) "action-1" "action-2" observation
     (history ops_unknown)).

Lemma reconciliation_is_independent_witness :
  is_ok settle_now.2 = true /\ evidenced settle_now.1 "action-1" StateConfirmed.
Proof.
  split; [vm_compute; reflexivity|].
  destruct settle_now as [db' [r|e]] eqn:E; [|vm_compute in E; discriminate E].
  destruct (reconciliation_is_independent any_text keeps_verdict (at_time (8 * second)) "action-1"
    "action-2" observation (history ops_unknown) db' r unknown_ok E)
    as (? & ? & ? & ? & ? & H1). exact (proj2 (proj2 (proj2 (proj2 (proj2 (proj2 (proj2 (proj2 (proj2
      (proj2 (proj2 (proj2 (proj2 (proj2 (proj2 (proj2 (proj2 (proj2 (proj2 (proj2 (proj2 (proj2 (proj2
      (proj2 (proj2 (proj2 H1)))))))))))))))))))))))))).
Defined.

Lemma interrupted_effect_closes_witness :
  exists db' r', MarkInterruptedEffect any_text (at_time (9 * second)) "action-1" (history ops_claimed)
      = (db', Ok tt)
    /\ ed_effects db' !! "action-1" = Some r' /\ fr_state r' = StateUnknown.
Proof.
  destruct (ed_effects (history ops_claimed) !! "action-1") as [r|] eqn:E;
    [|vm_compute in E; discriminate E].
  assert (Hs : fr_state r = StateExecuting) by (vm_compute in E; injection E as <-; reflexivity).
  destruct (interrupted_effect_closes any_text (at_time (9 * second)) "action-1" (history ops_claimed) r
    claimed_ok E Hs (fun _ => eq_refl) eq_refl) as (db' & r' & d & H1 & H2 & H3 & _).
  exists db', r'. split; [exact H1|]. split; [exact H2|]. injection H3 as H3 _. exact H3.
Defined.
End EffectDemo.
