(* ===== verification/Loop.v ===== *)
(** * Loop: the guards and the price of a tool call

    [internal/budget]: [loop.go] ([loopIdentity], [CheckToolTx],
    [ObserveToolTx]), [external_auth.go], [stopped_attempt.go],
    [reviewed_preparation.go], [communication_abandoned.go] and
    [ReserveToolTx] of [controller.go].  They run inside the transaction of a
    dispatch, on the tables of the journal and on the tables of [loop_db],
    which instantiates [ed_rest]; [loop_budgets] is the implementation of the
    interface [ToolBudgets] that the journal calls.  [adm_view] shows the same
    database to the admission controller.

    A statement of these routines is numbered from 20; the n-th pending effect
    is proved by statement 40 + n.  Where the SQL asks for the length of a JSON
    array and the column holds a JSON null, the statement fails; here the
    condition is false.  Either way the call is refused. *)
From Stdlib Require Import Ascii.
From stdpp Require Import sorting.
From S2P Require Import Prelude GoStrings GoHash GoTime Ownership Run Session Budget Delegation Admission Input Approval Effect.
Open Scope Z_scope.
Open Scope go_scope.

(** ** Tables *)

(** The columns [parent_task_id] and [created_at] of [tasks]. *)
Record Lineage := mkLineage { li_parent : option string; li_created : Z }.

(** [execution_loop_observations] (migration 037), by [effect_id]. *)
Record Observation := mkObservation {
  ob_owner_id : string;
  ob_task_root : string;
  ob_state_key : string;
  ob_call_key : string;
  ob_category : string;
  ob_result_digest : string;
}.

(** [input_stopped_attempts] (migration 102), by [input_id]. *)
Record StoppedAttempt := mkStopped {
  sa_run_id : string;
  sa_owner_id : string;
  sa_session_key : string;
  sa_classification : string;
}.

(** [communication_admissions] (migration 089), by [input_id]; the column
    [schema_epoch] is [qd_admissions] of the queue. *)
Record CommunicationAdmission := mkCommunication {
  ca_owner_id : string;
  ca_session_key : string;
  ca_methods : list string;
  ca_obligation_state : string;
  ca_publication_count : Z;
}.

(** [communication_events] (migration 089). *)
Record CommunicationEvent := mkEvent {
  ce_owner_id : string;
  ce_session_key : string;
  ce_aggregate_id : string;
  ce_event_type : string;
}.

Record loop_db := mkLoopDb {
  lo_lineage : gmap string Lineage;
  lo_context_epochs : gmap string Z;
  lo_delegations : option (gmap string delegation_row);
  lo_ledger : ledger;
  lo_attempts : gmap string attempt_row;
  lo_observations : gmap string Observation;
  lo_stops : gmap string StoppedAttempt;
  lo_communications : gmap string CommunicationAdmission;
  lo_events : list CommunicationEvent;
}.

Definition set_lo_ledger (l : loop_db) (lg : ledger) : loop_db :=
  mkLoopDb (lo_lineage l) (lo_context_epochs l) (lo_delegations l) lg (lo_attempts l)
    (lo_observations l) (lo_stops l) (lo_communications l) (lo_events l).
Definition set_observations (l : loop_db) (t : gmap string Observation) : loop_db :=
  mkLoopDb (lo_lineage l) (lo_context_epochs l) (lo_delegations l) (lo_ledger l) (lo_attempts l)
    t (lo_stops l) (lo_communications l) (lo_events l).

Abbreviation db_t := (effect_db loop_db).

(** The database as the admission controller reads it; of a session it reads
    the user only. *)
Definition adm_view (db : db_t) : adm_db :=
  let q := ed_queue db in
  let l := ed_rest db in
  mkAdmDb (qd_runs q)
    (map_imap (fun key user => Some (mkSession "" key user "" "" "" 0 0)) (qd_sessions q))
    (map_imap (fun id t =>
       c ← lo_lineage l !! id;
       Some (mkTask (li_parent c) (tk_owner_id t) (li_created c) (tk_session_key t)
               (tk_revision t) (tk_status t))) (qd_tasks q))
    (qd_ownership q)
    (omap (fun kr =>
       run ← ir_run_id kr.2;
       Some (Admission.mkInput kr.1 run (ir_owner_id kr.2) (ir_session_key kr.2)
               (ir_ingress_epoch kr.2) (default 0 (lo_context_epochs l !! kr.1))
               (ir_accepted_at kr.2))) (map_to_list (qd_inputs q)))
    ((fun m => Admission.mkMandateRow (mr_owner_id m) (mr_expires_at m) (mr_revoked_at m))
       <$> ed_mandates db)
    (lo_delegations l) (lo_ledger l) (lo_attempts l).

(** ** Conditions the queries share *)

Definition any_row {A} (p : string -> A -> bool) (t : gmap string A) : bool :=
  existsb (fun kr => p kr.1 kr.2) (map_to_list t).

(** [length(text)] counts characters: the bytes that do not continue one. *)
Fixpoint char_length (s : string) : nat :=
  match s with
  | EmptyString => 0
  | String c s' =>
      let n := N_of_ascii c in
      if (N.leb 128 n && N.ltb n 192)%N then char_length s' else S (char_length s')
  end.

(** The recursive table [tree]: the task and its descendants. *)
Definition in_tree (db : db_t) (root id : string) : bool :=
  bool_decide (root ∈ (task_chain (adm_view db) id).*1).

Definition in_tree_opt (db : db_t) (root : string) (id : option string) : bool :=
  match id with Some t => in_tree db root t | None => false end.

Definition in_session (db : db_t) (session run : string) : bool :=
  match qd_runs (ed_queue db) !! run with
  | Some r => bool_decide (rr_session_key r = session)
  | None => false
  end.

Definition unresolved (r : EffectRow) : bool :=
  bool_decide (fr_state r = StateUnknown) || bool_decide (fr_state r = StateExecuting).

(** An uncertain effect, other than a read, of the owner under this root. *)
Definition pending (db : db_t) (owner root : string) (r : EffectRow) : bool :=
  let b := fr_initial_binding r in
  bool_decide (ab_owner_id b = owner)
  && (in_tree db root (ab_task_id b)
      || bool_decide (ab_task_id b = "") && in_session db root (ab_run_id b))
  && unresolved r && negb (bool_decide (ab_effect b = EffectRead)).

Definition zero_refs (b : ActionBinding) : bool := bool_decide (ab_credential_refs b = Some []).

(** The communication admission of an input, with its epoch. *)
Definition admission_of (db : db_t) (input : string) : option (Z * CommunicationAdmission) :=
  epoch ← qd_admissions (ed_queue db) !! input;
  c ← lo_communications (ed_rest db) !! input;
  Some (epoch, c).

Definition is_message (tool : string) : bool :=
  bool_decide (tool = "communication.message") || bool_decide (tool = "communication.widget").

(** The candidate for an owner report. *)
Definition is_report (i : ToolIdentity) : bool :=
  ti_owner_communication i && bool_decide (ti_effect i = "prepare") && is_message (ti_tool_name i).

Definition credential_request (i : ToolIdentity) : bool :=
  ti_owner_credential_interaction i
  && bool_decide (ti_tool_name i ∈ ["credentials.request_access"; "credentials.request_create";
       "credentials.request_otp"; "credentials.request_login"; "credentials.request_sso_login"]).

(** The stored intent is the call: tool, arguments, contract, no credentials. *)
Definition intent_of (i : ToolIdentity) (a : IntentRow) : bool :=
  let b := nr_binding a in
  bool_decide (nr_effect_id a = ti_effect_id i) && bool_decide (nr_run_id a = ti_run_id i)
  && bool_decide (ab_tool_name b = ti_tool_name i) && bool_decide (ab_args_hash b = ti_args_hash i)
  && bool_decide (ab_contract_hash b = ti_contract_hash i)
  && bool_decide (ab_resource b = "tool:" +:+ ti_tool_name i) && zero_refs b.

(** The reviewed owner report: an intent of the call whose input was admitted
    for the method. *)
Definition owner_report (db : db_t) (i : ToolIdentity) (owner : string) : bool :=
  any_row (fun _ a =>
    intent_of i a && ab_owner_communication (nr_binding a)
    && Nat.eqb (char_length (ab_communication_destinations_hash (nr_binding a))) 64
    && any_row (fun input n =>
         bool_decide (ir_run_id n = Some (nr_run_id a))
         && match admission_of db input with
            | Some (epoch, c) =>
                bool_decide (ca_owner_id c = owner) && Z.eqb epoch 1
                && Z.ltb (ca_publication_count c) 20 && bool_decide (ti_tool_name i ∈ ca_methods c)
            | None => false
            end) (qd_inputs (ed_queue db))) (ed_intents db).

(** A statement that reads. *)
Definition ask {A} (env : effect_env) (n : nat) (a : A) : res A :=
  match fe_fault env n with Some e => Err e | None => Ok a end.

(** ** Who is calling, and what *)

Record LoopKey := mkLoopKey {
  lk_owner : string;
  lk_root : string;
  lk_state : string;
  lk_call : string;
  lk_input_event : string;
}.

(** The root of the run's task with its owner, or its session and user. *)
Definition task_identity (db : db_t) (run : string) : option (string * string * string) :=
  r ← qd_runs (ed_queue db) !! run;
  t ← rr_task_id r;
  root ← root_of (adm_view db) t;
  Some (ta_owner_id root.2, root.1, "").

Definition session_identity (db : db_t) (run : string) : option (string * string * string) :=
  r ← qd_runs (ed_queue db) !! run;
  user ← qd_sessions (ed_queue db) !! rr_session_key r;
  if bool_decide (default "" (rr_task_id r) = "")
  then Some (user, rr_session_key r, rr_input_event_id r) else None.

Definition state_key (i : ToolIdentity) : string :=
  sha256_hex (json_list (json_int <$> [ti_task_revision i; ti_constraints_revision i])).

(** [canonical] is the hash of the canonical arguments, when the context of
    the call carries one. *)
Definition call_key (canonical : option string) (i : ToolIdentity) : string :=
  digest_strings [ti_tool_name i; default (ti_args_hash i) canonical; ti_contract_hash i].

Definition loopIdentity (canonical : option string) (env : effect_env) (db : db_t)
    (i : ToolIdentity) : res LoopKey :=
  let found o := row <-! o ;; let '(owner, root, event) := row in
    Ok (mkLoopKey owner root (state_key i) (call_key canonical i) event) in
  match rows <-! ask env 20 (task_identity db (ti_run_id i)) ;; one_row rows with
  | Err e =>
      if bool_decide (e = ErrNoRows)
      then found (rows <-! ask env 21 (session_identity db (ti_run_id i)) ;; one_row rows)
      else Err e
  | Ok row => found (Ok row)
  end.

(** ** Guards *)

(** An unresolved external authentication of the conversation or the task. *)
Definition external_pending (db : db_t) (run owner root : string) : bool :=
  match qd_runs (ed_queue db) !! run with
  | Some current =>
      bool_decide (qd_sessions (ed_queue db) !! rr_session_key current = Some owner)
      && any_row (fun _ r =>
           let b := fr_initial_binding r in
           bool_decide (ab_owner_id b = owner)
           && bool_decide (ep_verification_method (fr_policy r) = "external_google_rp_v1")
           && unresolved r
           && (bool_decide (qd_runs (ed_queue db) !! ab_run_id b = None)
               || in_session db (rr_session_key current) (ab_run_id b)
               || in_tree db root (ab_task_id b))) (ed_effects db)
  | None => false
  end.

Definition externalAuthUnknownGuardTx (env : effect_env) (db : db_t) (i : ToolIdentity)
    (owner root : string) : res unit :=
  if bool_decide (ti_effect i = "read") then Ok tt else
  unknown <-! ask env 22 (external_pending db (ti_run_id i) owner root) ;;
  if negb unknown then Ok tt else
  permitted <-! (if is_report i then ask env 23 (owner_report db i owner) else Ok false) ;;
  if permitted then Ok tt else Err (loop_error "external_authentication_unknown").

Definition uncertain (owner : string) (f : StoppedAttempt) : bool :=
  bool_decide (sa_owner_id f = owner) && bool_decide (sa_classification f = "uncertain").

Definition any_stop (db : db_t) (owner : string) : bool :=
  any_row (fun _ f => uncertain owner f) (lo_stops (ed_rest db)).

(** A stopped attempt of the conversation or of the task. *)
Definition stop_near (db : db_t) (owner root session : string) (f : StoppedAttempt) : bool :=
  uncertain owner f
  && match qd_runs (ed_queue db) !! sa_run_id f with
     | Some old => bool_decide (sa_session_key f = session) || in_tree_opt db root (rr_task_id old)
     | None => false
     end.

(** The effect belongs to the run, initially or by a later intent. *)
Definition effect_of_run (db : db_t) (run id : string) (r : EffectRow) : bool :=
  bool_decide (ab_run_id (fr_initial_binding r) = run)
  || any_row (fun _ a => bool_decide (nr_run_id a = run) && bool_decide (nr_effect_id a = id))
       (ed_intents db).

(** The common table [stops] of the guard, and what it is asked: is there a
    stop, and does one hold an uncertain effect of the same call. *)
Definition stops (db : db_t) (run owner root : string) : list StoppedAttempt :=
  match qd_runs (ed_queue db) !! run with
  | Some current =>
      if bool_decide (qd_sessions (ed_queue db) !! rr_session_key current = Some owner)
      then filter (fun f => stop_near db owner root (rr_session_key current) f = true)
             (map_to_list (lo_stops (ed_rest db))).*2
      else []
  | None => []
  end.

Definition stop_duplicates (db : db_t) (i : ToolIdentity) (f : StoppedAttempt) : bool :=
  any_row (fun id r =>
    effect_of_run db (sa_run_id f) id r && unresolved r
    && bool_decide (ab_tool_name (fr_initial_binding r) = ti_tool_name i)
    && bool_decide (ab_args_hash (fr_initial_binding r) = ti_args_hash i)) (ed_effects db).

(** The effects that a stopped owner reply must account for. *)
Definition reply_scope (db : db_t) (owner root session id : string) (r : EffectRow) : bool :=
  let b := fr_initial_binding r in
  bool_decide (ab_owner_id b = owner) && unresolved r && negb (bool_decide (ab_effect b = "read"))
  && (in_session db session (ab_run_id b) || in_tree db root (ab_task_id b)
      || bool_decide (qd_runs (ed_queue db) !! ab_run_id b = None) && bool_decide (ab_task_id b = "")
      || any_row (fun _ a => bool_decide (nr_effect_id a = id)
           && match qd_runs (ed_queue db) !! nr_run_id a with
              | Some ar => bool_decide (rr_session_key ar = session)
                           || in_tree_opt db root (rr_task_id ar)
              | None => false
              end) (ed_intents db)).

(** The effect is not of a stopped attempt, or it is the same call. *)
Definition reply_barred (db : db_t) (i : ToolIdentity) (owner id : string) (r : EffectRow) : bool :=
  let b := fr_initial_binding r in
  negb (any_row (fun _ f =>
          uncertain owner f
          && (bool_decide (sa_run_id f = ab_run_id b)
              && bool_decide (is_Some (qd_runs (ed_queue db) !! ab_run_id b))
              || any_row (fun _ a => bool_decide (nr_effect_id a = id)
                   && bool_decide (nr_run_id a = sa_run_id f)) (ed_intents db)))
          (lo_stops (ed_rest db)))
  || bool_decide (ab_tool_name b = ti_tool_name i) && bool_decide (ab_args_hash b = ti_args_hash i).

(** The input of the run is running under a claim that has not expired. *)
Definition running_claim (now : Z) (n : InputRow) : bool :=
  bool_decide (ir_status n = "running") && negb (bool_decide (ir_claim_id n = ""))
  && match ir_claim_expires_at n with Some t => Z.ltb now t | None => false end
  && Z.ltb now (ir_expires_at n).

Definition open_obligation (c : CommunicationAdmission) : bool :=
  bool_decide (ca_obligation_state c = "open")
  || bool_decide (ca_obligation_state c = "waiting_for_user").

(** The live input and admission behind an intent: [rule] is what else is
    asked of the input and of its run. *)
Definition live_admission (db : db_t) (now : Z) (method : string) (a : IntentRow)
    (rule : InputRow -> RunRow -> bool) : bool :=
  any_row (fun input n =>
    bool_decide (ir_run_id n = Some (nr_run_id a)) && running_claim now n
    && match qd_runs (ed_queue db) !! nr_run_id a, admission_of db input with
       | Some r, Some (epoch, c) =>
           bool_decide (rr_session_key r = ir_session_key n)
           && bool_decide (rr_input_event_id r = ir_event_id n)
           && bool_decide (ca_owner_id c = ir_owner_id n)
           && bool_decide (ca_session_key c = ir_session_key n)
           && Z.eqb epoch 1 && Z.ltb (ca_publication_count c) 20
           && bool_decide (method ∈ ca_methods c) && open_obligation c && rule n r
       | _, _ => false
       end) (qd_inputs (ed_queue db)).

Definition ended_states : list string := ["completed"; "failed"; "cancelled"; "timed_out"].

Definition reply_allowed (now : Z) (db : db_t) (i : ToolIdentity) (owner root : string) : bool :=
  any_row (fun _ a =>
    intent_of i a && Z.ltb now (nr_expires_at a) && bool_decide (ab_owner_id (nr_binding a) = owner)
    && bool_decide (ab_effect (nr_binding a) = "prepare")
    && Nat.eqb (char_length (ab_communication_destinations_hash (nr_binding a))) 64
    && live_admission db now (ti_tool_name i) a (fun n r =>
         bool_decide (ir_owner_id n = owner) && Z.eqb (ir_ingress_epoch n) 1
         && negb (bool_decide (rr_current_state r ∈ ended_states)))) (ed_intents db)
  && match qd_runs (ed_queue db) !! ti_run_id i with
     | Some current =>
         any_row (fun _ f => negb (bool_decide (sa_run_id f = ti_run_id i))
           && stop_near db owner root (rr_session_key current) f) (lo_stops (ed_rest db))
         && negb (any_row (fun id r => reply_scope db owner root (rr_session_key current) id r
                    && reply_barred db i owner id r) (ed_effects db))
     | None => false
     end.

(** [stoppedOwnerReplyTx], its statements numbered from [n]. *)
Definition stoppedOwnerReplyTx (env : effect_env) (n : nat) (db : db_t) (i : ToolIdentity)
    (owner root : string) : res bool :=
  if negb (ti_owner_reply i) || negb (bool_decide (ti_tool_name i = "communication.message"))
     || negb (bool_decide (ti_effect i = "prepare")) then Ok false else
  anyStop <-! ask env n (any_stop db owner) ;;
  if negb anyStop then Ok false else
  ask env (S n) (reply_allowed (fe_clock env (S n)) db i owner root).

Definition stoppedAttemptGuardTx (env : effect_env) (db : db_t) (i : ToolIdentity)
    (owner root : string) : res unit :=
  if bool_decide (ti_effect i = "read") then Ok tt else
  some <-! ask env 24 (any_stop db owner) ;;
  if negb some then Ok tt else
  rows <-! ask env 25 (stops db (ti_run_id i) owner root) ;;
  let uncertain := match rows with [] => false | _ => true end in
  let duplicate := existsb (stop_duplicates db i) rows in
  reply <-! (if uncertain && negb duplicate && negb (is_report i) && ti_owner_reply i
             then stoppedOwnerReplyTx env 26 db i owner root else Ok (is_report i)) ;;
  fail_when uncertain && (negb reply || duplicate) with loop_error "stopped_attempt_uncertain" ;;
  Ok tt.

(** ** Exceptions for uncertain effects *)

Definition reviewedLocalFillContract : string :=
  "4b4d58b1ddfadd6a2c56e5b2596fe85d2f4edad96105f52304e9c6fa3546aff3".
Definition preparationProofHash (raw : string) : string := sha256_hex raw.

(** What the effect's own row must say. *)
Definition preparation_row (id : string) (r : EffectRow) : bool :=
  let b := fr_initial_binding r in
  let p := fr_policy r in
  bool_decide (fr_state r = "effect_unknown") && bool_decide (fr_dispatch_outcome r = "unknown")
  && bool_decide (ab_tool_name b = "browser.prepare_fill")
  && bool_decide (ab_contract_revision b = "2")
  && bool_decide (ab_contract_hash b = reviewedLocalFillContract)
  && bool_decide (ab_effect b = "prepare") && bool_decide (ab_task_id b = "")
  && bool_decide (ab_action_id b = id) && zero_refs b
  && bool_decide (ab_extension_id b = "") && bool_decide (ab_converter_id b = "")
  && bool_decide (ep_retry_safety p = "unsafe")
  && bool_decide (ep_verification_method p = "local_browser_preparation_v1")
  && bool_decide (ep_idempotency_header p = "") && bool_decide (ep_scope_origin p = "")
  && bool_decide (ep_verification_url p = "")
  && match ep_local_preparation p with
     | Some lp => negb (bool_decide (lp_session_id lp = "")) && Z.ltb 0 (lp_observation_version lp)
                  && bool_decide (ab_resource b =
                       "browser:" +:+ lp_session_id lp +:+ ":" +:+ lp_expected_url lp)
     | None => false
     end.

(** The input that failed with it, and the record of its stop. *)
Definition preparation_input (db : db_t) (owner run : string) : bool :=
  match qd_runs (ed_queue db) !! run with
  | Some old =>
      bool_decide (rr_task_id old = None) && bool_decide (rr_current_state old = "failed")
      && any_row (fun input n =>
           bool_decide (ir_run_id n = Some run)
           && bool_decide (rr_session_key old = ir_session_key n)
           && bool_decide (qd_sessions (ed_queue db) !! ir_session_key n = Some owner)
           && bool_decide (ir_owner_id n = owner) && bool_decide (ir_task_id n = None)
           && bool_decide (rr_input_event_id old = ir_event_id n)
           && bool_decide (ir_status n = "failed") && bool_decide (ir_claim_id n = "")
           && bool_decide (ir_claim_expires_at n = None)
           && match lo_stops (ed_rest db) !! input with
              | Some f => bool_decide (sa_owner_id f = owner) && bool_decide (sa_run_id f = run)
                          && bool_decide (sa_session_key f = ir_session_key n)
                          && bool_decide (sa_classification f = "known")
              | None => false
              end) (qd_inputs (ed_queue db))
  | None => false
  end.

(** Its permission and its dispatch ended without an answer. *)
Definition preparation_dispatch (db : db_t) (id authorization : string) (a : IntentRow) : bool :=
  match ed_grants db !! authorization, ed_dispatches db !! authorization with
  | Some g, Some d =>
      bool_decide (gr_action_id g = id) && bool_decide (gr_state g = "unknown")
      && bool_decide (gr_action_hash g = nr_action_hash a)
      && bool_decide (gt_binding (gr_grant_data g) = nr_binding a)
      && bool_decide (dp_action_id d = id) && bool_decide (dp_execution_action_id d = id)
      && bool_decide (dp_outcome d = "unknown") && bool_decide (is_Some (dp_finished_at d))
  | _, _ => false
  end.

(** The column [valid] of a pending effect. *)
Definition preparation_valid (now : Z) (db : db_t) (owner currentRun id : string) (r : EffectRow) :
    bool :=
  let b := fr_initial_binding r in
  preparation_row id r
  && match ed_intents db !! id with
     | Some a =>
         bool_decide (nr_effect_id a = id) && bool_decide (nr_binding a = b)
         && bool_decide (nr_action_hash a = ab_action_hash b)
         && bool_decide (nr_effect_fingerprint a = fr_fingerprint r)
         && negb (bool_decide (nr_run_id a = currentRun)) && bool_decide (nr_run_id a = ab_run_id b)
         && bool_decide (nr_tool_call_id a = ab_tool_call_id b)
         && preparation_input db owner (nr_run_id a)
         && preparation_dispatch db id (fr_authorization_id r) a
         && negb (any_row (fun _ l => bool_decide (own_run_id l = nr_run_id a)
                    && negb (bool_decide (own_lease_id l = "")) && Z.ltb now (own_expires_at l))
                    (qd_ownership (ed_queue db)))
         && negb (any_row (fun _ d => bool_decide (dp_action_id d = id)
                    && bool_decide (dp_outcome d = "executing")) (ed_dispatches db))
     | None => false
     end.

Definition effect_le (a b : string * EffectRow) : Prop := string_le a.1 b.1.
#[global] Instance effect_le_dec : RelDecision effect_le.
Proof. unfold RelDecision, effect_le. apply _. Defined.

Definition pending_rows (db : db_t) (owner root : string) : list (string * EffectRow) :=
  take 21 (merge_sort effect_le
    (filter (fun kr => pending db owner root kr.2 = true) (map_to_list (ed_effects db)))).

Definition no_write_method : string := "pinned_preparation_no_write_v1".
Definition no_write_evidence (id : string) : string :=
  "evidence_" +:+ preparationProofHash (id +:+ NUL +:+ no_write_method).

Definition no_write_proof (id : string) (b : ActionBinding) (e : EffectEvidence) : bool :=
  bool_decide (ee_action_id e = id) && bool_decide (ee_source_action_id e = id)
  && bool_decide (ee_source_run_id e = ab_run_id b)
  && bool_decide (ee_source_tool_call_id e = ab_tool_call_id b)
  && bool_decide (ee_source e = "owning_local_preparation_contract")
  && bool_decide (ee_method e = no_write_method) && bool_decide (ee_verdict e = "effect_unknown")
  && bool_decide (ee_artifact_digest e = "")
  && bool_decide (ee_result_digest e = preparationProofHash
       (id +:+ NUL +:+ reviewedLocalFillContract +:+ NUL +:+ "no_write_local_result_unknown")).

Fixpoint proofs_hold (now : Z) (env : effect_env) (n : nat) (db : db_t) (owner currentRun : string)
    (rows : list (string * EffectRow)) : res bool :=
  match rows with
  | [] => Ok true
  | (id, r) :: rows' =>
      if negb (preparation_valid now db owner currentRun id r) then Ok false else
      match fe_fault env n with
      | Some e => if bool_decide (e = ErrNoRows) then Ok false else Err e
      | None =>
          match ed_evidence db !! no_write_evidence id with
          | Some v =>
              if bool_decide (vr_action_id v = id) && bool_decide (vr_source_action_id v = id)
                 && no_write_proof id (fr_initial_binding r) (vr_evidence v)
              then proofs_hold now env (S n) db owner currentRun rows' else Ok false
          | None => Ok false
          end
      end
  end.

Definition verifiedPreparationNoWriteTx (env : effect_env) (db : db_t)
    (owner root currentRun : string) : res bool :=
  candidate <-! ask env 31 (any_row (fun _ r =>
    bool_decide (fr_state r = "effect_unknown")
    && bool_decide (ab_owner_id (fr_initial_binding r) = owner)
    && bool_decide (ab_tool_name (fr_initial_binding r) = "browser.prepare_fill")
    && bool_decide (ab_contract_hash (fr_initial_binding r) = reviewedLocalFillContract))
    (ed_effects db)) ;;
  if negb candidate then Ok false else
  rows <-! ask env 32 (pending_rows db owner root) ;;
  if Nat.eqb (length rows) 0 || Nat.ltb 20 (length rows) then Ok false else
  proofs_hold (fe_clock env 32) env 40 db owner currentRun rows.

(** An abandoned local publication of an earlier input that failed, with the
    three events that record its uncertainty. *)
Definition has_event (db : db_t) (owner session aggregate kind : string) : bool :=
  existsb (fun v => bool_decide (ce_owner_id v = owner) && bool_decide (ce_session_key v = session)
    && bool_decide (ce_aggregate_id v = aggregate) && bool_decide (ce_event_type v = kind))
    (lo_events (ed_rest db)).

Definition abandoned_input (db : db_t) (i : ToolIdentity) (owner session event id tool : string)
    (input : string) (n : InputRow) (run : RunRow) : bool :=
  negb (bool_decide (ir_run_id n = Some (ti_run_id i)))
  && bool_decide (ir_owner_id n = owner) && bool_decide (ir_session_key n = session)
  && bool_decide (rr_session_key run = session)
  && bool_decide (rr_input_event_id run = ir_event_id n)
  && negb (bool_decide (rr_input_event_id run = "")) && negb (bool_decide (rr_input_event_id run = event))
  && bool_decide (ir_task_id n = None) && bool_decide (rr_task_id run = None)
  && bool_decide (ir_status n = "failed") && bool_decide (rr_status run = "failed")
  && bool_decide (rr_current_state run = "failed")
  && bool_decide (ir_claim_id n = "") && bool_decide (ir_claim_expires_at n = None)
  && match admission_of db input with
     | Some (epoch, c) =>
         bool_decide (ca_owner_id c = owner) && bool_decide (ca_session_key c = session)
         && bool_decide (ca_obligation_state c = "closed_with_failure") && Z.eqb epoch 1
         && bool_decide (tool ∈ ca_methods c)
     | None => false
     end
  && has_event db owner session input "input.closed_failed"
  && has_event db owner session input "input.uncertainty_retained"
  && has_event db owner session id "effect.uncertainty_retained".

Definition abandoned_publication (db : db_t) (i : ToolIdentity) (owner session event id : string)
    (r : EffectRow) : bool :=
  let b := fr_initial_binding r in
  bool_decide (fr_state r = "effect_unknown") && bool_decide (ab_effect b = "prepare")
  && is_message (ab_tool_name b) && bool_decide (ab_resource b = "tool:" +:+ ab_tool_name b)
  && bool_decide (ab_task_id b = "") && bool_decide (ab_contract_revision b = "1")
  && Nat.eqb (char_length (ab_contract_hash b)) 64
  && bool_decide (ep_verification_method (fr_policy r) = "local_runtime_ack")
  && zero_refs b && Nat.eqb (char_length (ab_communication_destinations_hash b)) 64
  && match qd_runs (ed_queue db) !! ab_run_id b with
     | Some run =>
         any_row (fun input n => bool_decide (ir_run_id n = Some (ab_run_id b))
           && abandoned_input db i owner session event id (ab_tool_name b) input n run)
           (qd_inputs (ed_queue db))
     | None => false
     end.

(** The fresh interaction: a live input of the owner without a task, whose
    intent is the call. *)
Definition fresh_interaction (now : Z) (db : db_t) (i : ToolIdentity) (owner session event : string) :
    bool :=
  any_row (fun _ a =>
    let b := nr_binding a in
    intent_of i a && Z.ltb now (nr_expires_at a)
    && bool_decide (ab_effect b = "prepare") && bool_decide (ab_owner_id b = owner)
    && bool_decide (ab_task_id b = "")
    && (if credential_request i
        then bool_decide (ab_contract_revision b = "1")
             && bool_decide (ab_credential_metadata_hash b = "")
        else Nat.eqb (char_length (ab_communication_destinations_hash b)) 64)
    && live_admission db now
         (if credential_request i then "communication.message" else ti_tool_name i) a
         (fun n r => bool_decide (ir_owner_id n = owner) && bool_decide (ir_session_key n = session)
            && bool_decide (ir_event_id n = event) && bool_decide (ir_task_id n = None)
            && bool_decide (rr_task_id r = None))) (ed_intents db).

Definition independentOwnerInteractionTx (env : effect_env) (db : db_t) (i : ToolIdentity)
    (owner session event : string) : res bool :=
  ask env 34 (fresh_interaction (fe_clock env 34) db i owner session event
    && negb (any_row (fun id r => pending db owner session r
               && negb (abandoned_publication db i owner session event id r)) (ed_effects db))).

(** ** The check of a call *)

Section controller.
Context (policy : Policy).
Context (resolveAuthority : option (Z -> adm_db -> string -> string -> res MandateScope)).
(** What the context of the call carries: the hash of the canonical arguments
    and the allowance for bytes sent. *)
Context (canonical : option string) (allowance : option Z).

(** May the call go on although an effect of its root is uncertain?  The
    error of the third question is dropped. *)
Definition permitted (env : effect_env) (db : db_t) (i : ToolIdentity) (k : LoopKey)
    (stoppedReply : bool) : res bool :=
  if stoppedReply then Ok true else
  reviewed <-! verifiedPreparationNoWriteTx env db (lk_owner k) (lk_root k) (ti_run_id i) ;;
  if reviewed : bool then Ok true else
  let report := is_report i && match ask env 33 (owner_report db i (lk_owner k)) with
                               | Ok p => p
                               | Err _ => false
                               end in
  if report then Ok true else
  if negb (bool_decide (lk_input_event k = "")) && bool_decide (ti_effect i = "prepare")
     && Z.eqb (ti_task_revision i) 0 && Z.eqb (ti_constraints_revision i) 0
     && (bool_decide (ti_tool_name i = "communication.message") || credential_request i)
  then independentOwnerInteractionTx env db i (lk_owner k) (lk_root k) (lk_input_event k)
  else Ok false.

Definition check_unknown (env : effect_env) (db : db_t) (i : ToolIdentity) (k : LoopKey)
    (stoppedReply : bool) : res unit :=
  if bool_decide (ti_effect i = "read") then Ok tt else
  unknown <-! ask env 30 (any_row (fun _ r => pending db (lk_owner k) (lk_root k) r) (ed_effects db)) ;;
  if negb unknown then Ok tt else
  allowed <-! permitted env db i k stoppedReply ;;
  if allowed : bool then Ok tt else Err (loop_error "external_effect_unknown").

(** The observations of this call: of the whole conversation or task, and in a
    conversation only those that are not known to belong to another input. *)
Definition of_call (k : LoopKey) (o : Observation) : bool :=
  bool_decide (ob_owner_id o = lk_owner k) && bool_decide (ob_task_root o = lk_root k)
  && bool_decide (ob_state_key o = lk_state k) && bool_decide (ob_call_key o = lk_call k).

Definition not_elsewhere (db : db_t) (k : LoopKey) (effect : string) : bool :=
  match ed_effects db !! effect with
  | Some e =>
      negb (bool_decide (ab_owner_id (fr_initial_binding e) = lk_owner k))
      || match qd_runs (ed_queue db) !! ab_run_id (fr_initial_binding e) with
         | Some r => bool_decide (rr_input_event_id r = "")
                     || bool_decide (rr_input_event_id r = lk_input_event k)
                     || negb (bool_decide (rr_session_key r = lk_root k))
                     || negb (bool_decide (default "" (rr_task_id r) = ""))
         | None => true
         end
  | None => true
  end.

Definition counted (db : db_t) (k : LoopKey) (effect : string) (o : Observation) : bool :=
  of_call k o && (bool_decide (lk_input_event k = "") || not_elsewhere db k effect).

(** The observations with one category and result. *)
Definition observed (db : db_t) (k : LoopKey) (category result : string) :
    gmap string Observation :=
  filter (fun ko => counted db k ko.1 ko.2 = true /\ ob_category ko.2 = category
                    /\ ob_result_digest ko.2 = result) (lo_observations (ed_rest db)).

Definition repeated (db : db_t) (k : LoopKey) : bool :=
  any_row (fun effect o => counted db k effect o
    && Z.leb (po_repeat_limit policy) (Z.of_nat (size (observed db k (ob_category o) (ob_result_digest o)))))
    (lo_observations (ed_rest db)).

Definition CheckToolTx (env : effect_env) (db : db_t) (i : ToolIdentity) : res unit :=
  k <-! loopIdentity canonical env db i ;;
  _ <-! externalAuthUnknownGuardTx env db i (lk_owner k) (lk_root k) ;;
  _ <-! stoppedAttemptGuardTx env db i (lk_owner k) (lk_root k) ;;
  stoppedReply <-! (if ti_owner_reply i
                    then stoppedOwnerReplyTx env 28 db i (lk_owner k) (lk_root k) else Ok false) ;;
  _ <-! check_unknown env db i k stoppedReply ;;
  again <-! ask env 35 (repeated db k) ;;
  fail_when again with loop_error "repeated_action_without_progress" ;;
  Ok tt.

Definition ObserveToolTx (env : effect_env) (db : db_t) (i : ToolIdentity)
    (category result : string) : loop_db * res unit :=
  let l := ed_rest db in
  match loopIdentity canonical env db i with
  | Err e => (l, Err e)
  | Ok k =>
      if bool_decide (category = "") then (l, Err ErrInvalid) else
      match fe_fault env 39 with
      | Some e => (l, Err e)
      | None =>
          (match lo_observations l !! ti_effect_id i with
           | Some _ => l
           | None => set_observations l
               (<[ti_effect_id i := mkObservation (lk_owner k) (lk_root k) (lk_state k) (lk_call k)
                                      category result]> (lo_observations l))
           end, Ok tt)
      end
  end.

(** The charge of one call. *)
Definition tool_charge (bytes : Z) : Units := mkUnits 0 0 0 1 0 (po_tool_millis policy) bytes 0.

Definition egress_bytes : res Z :=
  match allowance with
  | None => Ok (po_tool_egress_bytes policy)
  | Some explicit =>
      fail_when (Z.ltb explicit 0 || Z.ltb (po_tool_egress_bytes policy) explicit) with ErrInvalid ;;
      Ok explicit
  end.

Definition ReserveToolTx (env : effect_env) (db : db_t) (i : ToolIdentity) : loop_db * res unit :=
  let l := ed_rest db in
  match CheckToolTx env db i with
  | Err e => (l, Err e)
  | Ok _ =>
      match scopesTx policy resolveAuthority false (fe_fault env 36) (fe_clock env 36)
              (adm_view db) (ti_run_id i) "" (ti_mandate_id i) with
      | (lg, Err e) => (set_lo_ledger l lg, Err e)
      | (lg, Ok (owner, ids)) =>
          match egress_bytes with
          | Err e => (set_lo_ledger l lg, Err e)
          | Ok bytes =>
              match ReserveTx (po_disable_conversation_model_turns policy) (fe_fault env 37)
                      (fe_clock env 37) (fe_clock env 38)
                      (mkRequest owner ("effect:" +:+ ti_effect_id i) ids (tool_charge bytes) true) lg with
              | (lg', r) => (set_lo_ledger l lg', _ <-! r ;; Ok tt)
              end
          end
      end
  end.

(** The controller as the journal uses it. *)
Definition loop_budgets : ToolBudgets loop_db := mkToolBudgets ReserveToolTx ObserveToolTx.
End controller.
