(* ===== verification/LoopProofs.v ===== *)
(** * LoopProofs: no write past an uncertain effect, bounded repetition, paid calls

    The theorems about [Loop.v]: what the guards let through when they are
    installed in the journal ([loop_budgets] as [dg_budgets]), how often the
    same call with the same result can happen, and that a dispatch is paid for
    in every scope of its run. *)
From stdpp Require Import sorting relations.
From S2P Require Import Prelude GoStrings GoHash GoTime Ownership Run Session Budget Delegation Admission Input Approval Effect EffectProofs Loop.
Open Scope Z_scope.
Open Scope go_scope.

(** ** Queries *)

Lemma ask_Ok {A} env n (a b : A) : ask env n a = Ok b <-> fe_fault env n = None /\ a = b.
Proof. unfold ask. destruct (fe_fault env n); naive_solver. Qed.

Lemma any_row_false {A} (p : string -> A -> bool) t :
  any_row p t = false <-> forall id r, t !! id = Some r -> p id r = false.
Proof.
  unfold any_row. rewrite -not_true_iff_false existsb_exists. split.
  - intros H id r Hr. apply not_true_iff_false. intros Hp. apply H.
    exists (id, r). split; [|done]. by apply list_elem_of_In, elem_of_map_to_list.
  - intros H [[id r] [Hin%list_elem_of_In%elem_of_map_to_list Hp]].
    simpl in Hp. rewrite (H id r Hin) in Hp. done.
Qed.

Lemma take_short {A} n (l : list A) : (length (take n l) < n)%nat -> take n l = l.
Proof. rewrite length_take. intros H. apply take_ge. lia. Qed.

(** The identity of a call names its task's root or its session. *)
Lemma loopIdentity_Ok canonical env db i k : loopIdentity canonical env db i = Ok k ->
  lk_state k = state_key i /\ lk_call k = call_key canonical i
  /\ (task_identity db (ti_run_id i) = Some (lk_owner k, lk_root k, lk_input_event k)
      \/ session_identity db (ti_run_id i) = Some (lk_owner k, lk_root k, lk_input_event k)).
Proof.
  unfold loopIdentity. cbv zeta.
  assert (Hrow : forall {A} n (o : option A) a,
    (rows <-! ask env n o ;; one_row rows) = Ok a -> o = Some a).
  { intros A n o a H. apply res_bind_Ok in H as (o' & [_ <-]%ask_Ok & H).
    destruct o; [by injection H as <-|done]. }
  destruct (rows <-! ask env 20 _ ;; one_row rows) as [[[o r] e]|x] eqn:E.
  - apply Hrow in E. simpl. intros [= <-]. simpl. auto.
  - case_bool_decide; [|done]. intros H1. apply res_bind_Ok in H1 as ([[o r] e] & E2 & H1).
    apply Hrow in E2. injection H1 as <-. simpl. auto.
Qed.

Section checks.
Context (policy : Policy) (canonical : option string).

(** A call that passes is checked against every guard. *)
Record passes (env : effect_env) (db : effect_db loop_db) (i : ToolIdentity) (k : LoopKey) : Prop := {
  ck_identity : loopIdentity canonical env db i = Ok k;
  ck_external : externalAuthUnknownGuardTx env db i (lk_owner k) (lk_root k) = Ok tt;
  ck_stopped : stoppedAttemptGuardTx env db i (lk_owner k) (lk_root k) = Ok tt;
  ck_unknown : exists reply, (reply = true -> ti_effect i = "prepare") /\ check_unknown env db i k reply = Ok tt;
  ck_repeated : repeated policy db k = false;
}.

Lemma stoppedOwnerReplyTx_prepare env n db i owner root :
  stoppedOwnerReplyTx env n db i owner root = Ok true -> ti_effect i = "prepare".
Proof.
  unfold stoppedOwnerReplyTx. case_match eqn:E; [done|]. intros _. by unbool.
Qed.

Lemma CheckToolTx_Ok env db i : CheckToolTx policy canonical env db i = Ok tt ->
  exists k, passes env db i k.
Proof.
  unfold CheckToolTx. intros H. apply res_bind_Ok in H as (k & Hk & H).
  apply res_bind_Ok in H as ([] & He & H). apply res_bind_Ok in H as ([] & Hs & H).
  apply res_bind_Ok in H as (reply & Hr & H). apply res_bind_Ok in H as ([] & Hu & H).
  apply res_bind_Ok in H as (again & [_ Ha]%ask_Ok & H). apply fail_if_Ok in H as [-> _].
  exists k. constructor; try done. exists reply. split; [|done]. intros ->.
  destruct (ti_owner_reply i); [|done]. exact (stoppedOwnerReplyTx_prepare _ _ _ _ _ _ Hr).
Qed.

(** ** Writes wait for uncertain effects *)

Lemma is_report_prepare i : is_report i = true -> ti_effect i = "prepare".
Proof. unfold is_report. intros H. by unbool. Qed.

Lemma external_guard_commit env db i owner root :
  ti_effect i <> "read" -> ti_effect i <> "prepare" ->
  externalAuthUnknownGuardTx env db i owner root = Ok tt ->
  external_pending db (ti_run_id i) owner root = false.
Proof.
  intros Hr Hp. unfold externalAuthUnknownGuardTx. rewrite bool_decide_false // res_bind_Ok.
  intros (b & [_ ->]%ask_Ok & H). destruct b; [|done]. simpl in H.
  destruct (is_report i) eqn:E; [by apply is_report_prepare in E|done].
Qed.

Lemma stops_none db run owner root : any_stop db owner = false -> stops db run owner root = [].
Proof.
  unfold any_stop, stops. intros Hn. destruct (qd_runs _ !! run); [|done]. case_bool_decide; [|done].
  destruct (filter _ _) as [|f l] eqn:E; [done|].
  assert (Hf : f ∈ f :: l) by constructor. rewrite -E in Hf.
  apply list_elem_of_filter in Hf as [Hs Hf]. unfold stop_near in Hs.
  apply list_elem_of_fmap in Hf as ([id f'] & -> & Hin%elem_of_map_to_list). simpl in Hs.
  rewrite any_row_false in Hn. by rewrite (Hn _ _ Hin) in Hs.
Qed.

Lemma stopped_guard_commit env db i owner root :
  ti_effect i <> "read" -> ti_effect i <> "prepare" ->
  stoppedAttemptGuardTx env db i owner root = Ok tt -> stops db (ti_run_id i) owner root = [].
Proof.
  intros Hr Hp. unfold stoppedAttemptGuardTx. rewrite bool_decide_false // res_bind_Ok.
  intros (b & [_ Hb]%ask_Ok & H). destruct b; [|by apply stops_none]. cbn [negb] in H.
  apply res_bind_Ok in H as (rows & [_ Hrows]%ask_Ok & H). rewrite Hrows. cbv zeta in H.
  destruct rows as [|f rows]; [done|]. exfalso. apply res_bind_Ok in H as (reply & Hreply & H).
  apply fail_if_Ok in H as [Hg _]. destruct reply; [|done].
  assert (E : is_report i = false) by (destruct (is_report i) eqn:E; [by apply is_report_prepare in E|done]).
  rewrite E in Hreply. destruct (_ && ti_owner_reply i); [|done].
  by apply stoppedOwnerReplyTx_prepare in Hreply.
Qed.

(** What the reviewed exception asks of an uncertain effect. *)
Record reviewed_preparation (now : Z) (db : effect_db loop_db) (owner run id : string) (r : EffectRow) :
    Prop := {
  rp_state : fr_state r = StateUnknown;
  rp_tool : ab_tool_name (fr_initial_binding r) = "browser.prepare_fill"
    /\ ab_effect (fr_initial_binding r) = EffectPrepare;
  rp_valid : preparation_valid now db owner run id r = true;
  rp_proof : exists v, ed_evidence db !! no_write_evidence id = Some v
    /\ no_write_proof id (fr_initial_binding r) (vr_evidence v) = true;
}.

Lemma proofs_hold_Ok now env n db owner run rows :
  proofs_hold now env n db owner run rows = Ok true ->
  Forall (fun kr => reviewed_preparation now db owner run kr.1 kr.2) rows.
Proof.
  revert n. induction rows as [|[id r] rows IH]; intros n; cbn [proofs_hold]; [constructor|].
  destruct (preparation_valid now db owner run id r) eqn:Ev; [|done]. cbn [negb].
  destruct (fe_fault env n); [by case_bool_decide|].
  destruct (ed_evidence db !! _) as [v|] eqn:Hv; [|done].
  destruct (_ && no_write_proof _ _ _) eqn:Ep; [|done]. intros H%IH. constructor; [|done].
  apply andb_true_iff in Ep as [_ Ep]. pose proof Ev as Hrow. unfold preparation_valid in Hrow.
  apply andb_true_iff in Hrow as [Hrow _]. unfold preparation_row in Hrow. unbool.
  constructor; try done. by exists v.
Qed.

Lemma verified_covers env db owner root run e r :
  verifiedPreparationNoWriteTx env db owner root run = Ok true ->
  ed_effects db !! e = Some r -> pending db owner root r = true ->
  reviewed_preparation (fe_clock env 32) db owner run e r.
Proof.
  unfold verifiedPreparationNoWriteTx. intros H He Hp.
  apply res_bind_Ok in H as (c & _ & H). destruct c; [|done]. cbn [negb] in H.
  apply res_bind_Ok in H as (rows & [_ <-]%ask_Ok & H).
  destruct (_ || _) eqn:El in H; [done|]. apply orb_false_iff in El as [_ El%Nat.ltb_ge].
  apply proofs_hold_Ok in H. unfold pending_rows in *. rewrite take_short in H; [lia|].
  rewrite Forall_forall in H. apply (H (e, r)). rewrite merge_sort_Permutation.
  apply list_elem_of_filter. split; [done|]. by apply elem_of_map_to_list.
Qed.

Lemma check_unknown_commit env db i k reply :
  ti_effect i <> "read" -> ti_effect i <> "prepare" -> (reply = true -> ti_effect i = "prepare") ->
  check_unknown env db i k reply = Ok tt ->
  forall e r, ed_effects db !! e = Some r -> pending db (lk_owner k) (lk_root k) r = true ->
  reviewed_preparation (fe_clock env 32) db (lk_owner k) (ti_run_id i) e r.
Proof.
  intros Hr Hp Hreply H e r He Hpend. unfold check_unknown in H. rewrite bool_decide_false // in H.
  apply res_bind_Ok in H as (u & [_ Hu]%ask_Ok & H). destruct u; cbn [negb] in H.
  2: { rewrite any_row_false in Hu. by rewrite (Hu _ _ He) in Hpend. }
  apply res_bind_Ok in H as (a & Ha & H). destruct a; [|done]. unfold permitted in Ha.
  destruct reply; [by destruct (Hp (Hreply eq_refl))|].
  apply res_bind_Ok in Ha as (rv & Hv & Ha). destruct rv; [exact (verified_covers _ _ _ _ _ _ _ Hv He Hpend)|].
  destruct (is_report i) eqn:E; [by apply is_report_prepare in E|]. cbn [andb] in Ha.
  rewrite (bool_decide_false (ti_effect i = "prepare")) // andb_false_r in Ha. done.
Qed.
End checks.

(** ** The price of a call *)

Section price.
Context (policy : Policy).
Context (resolve : option (Z -> adm_db -> string -> string -> res MandateScope)).
Context (canonical : option string) (allowance : option Z).
Abbreviation disable := (po_disable_conversation_model_turns policy).

Lemma scopesTx_Ok inference fault now db run mandate lg owner ids :
  policy_typed policy -> delegations_typed db -> resolver_typed resolve -> ledger_ok disable (ad_ledger db) ->
  scopesTx policy resolve inference fault now db run "" mandate = (lg, Ok (owner, ids)) ->
  exists specs, scopeSpecsTx policy resolve inference None now db run "" mandate = Ok (owner, specs)
    /\ ids = spec_id <$> specs /\ ledger_ok disable lg
    /\ lg_reservations lg = lg_reservations (ad_ledger db)
    /\ Forall (fun spec => exists s, lg_scopes lg !! spec_id spec = Some s
         /\ ss_deadline (sc_spec s) = Truncate (ss_deadline spec) microsecond) specs.
Proof.
  intros Hp Hd Hr Hok. unfold scopesTx.
  destruct (scopeSpecsTx _ _ _ _ _ _ _ _ _) as [[o specs]|] eqn:Es; [|done].
  destruct (ensure_all specs (ad_ledger db)) as [lg1 [ids1|]] eqn:Een; [|done]. intros [= <- <- <-].
  destruct fault; [done|]. exists specs.
  pose proof (scopeSpecsTx_typed _ _ _ _ _ _ _ _ _ Hp Hd Hr Es) as Htyped.
  destruct (ensure_all_ok _ _ _ _ _ Htyped Hok Een) as (Hlg & Hres & -> & Hall).
  split_and!; try done. rewrite Hlg. apply ledger_ok_history; [by apply Forall_fmap|done].
Qed.

(** A paid call: one reservation under the name of the effect, fingerprinted
    for this charge to all scopes of the run.  It is either new, and then no
    scope had passed its deadline and every scope is charged, or it was there
    before, for the very same request, and is not charged again. *)
Record paid (env : effect_env) (db : effect_db loop_db) (i : ToolIdentity) (lg : ledger)
    (owner : string) (specs : list ScopeSpec) (req : Request) (row : reservation_row) : Prop := {
  pd_scopes : scopeSpecsTx policy resolve false None (fe_clock env 36) (adm_view db) (ti_run_id i) ""
    (ti_mandate_id i) = Ok (owner, specs);
  pd_request : rq_owner_id req = owner /\ rq_operation_id req = "effect:" +:+ ti_effect_id i
    /\ rq_scope_ids req ≡ₚ spec_id <$> specs;
  pd_charge : exists bytes, rq_charge req = tool_charge policy bytes
    /\ 0 <= bytes <= po_tool_egress_bytes policy;
  pd_row : lg_reservations lg !! digest_strings [owner; "effect:" +:+ ti_effect_id i] = Some row
    /\ rs_fingerprint row = digest_request req;
  pd_once : lg_reservations (lo_ledger (ed_rest db)) !! digest_strings [owner; "effect:" +:+ ti_effect_id i] = None
      /\ rs_request row = req
      /\ Forall (fun spec => fe_clock env 38 < Truncate (ss_deadline spec) microsecond
           /\ exists s, lg_scopes lg !! spec_id spec = Some s
              /\ sc_used s = charged (spec_id spec) (lg_reservations lg)) specs
    \/ lg_reservations lg = lg_reservations (lo_ledger (ed_rest db));
  pd_ledger : ledger_ok disable lg;
}.

Lemma egress_bytes_Ok bytes : egress_bytes policy allowance = Ok bytes ->
  bytes <= po_tool_egress_bytes policy.
Proof.
  unfold egress_bytes. destruct allowance as [e|]; [|intros [= <-]; lia].
  intros H. apply fail_if_Ok in H as [Hg [= <-]]. unbool. lia.
Qed.

Lemma ReserveToolTx_Ok env db i l :
  policy_typed policy -> in_int64 (po_tool_millis policy) -> in_int64 (po_tool_egress_bytes policy) ->
  delegations_typed (adm_view db) -> resolver_typed resolve ->
  ledger_ok disable (lo_ledger (ed_rest db)) ->
  ReserveToolTx policy resolve canonical allowance env db i = (l, Ok tt) ->
  l = set_lo_ledger (ed_rest db) (lo_ledger l) /\ (exists k, passes policy canonical env db i k)
  /\ exists owner specs req row, paid env db i (lo_ledger l) owner specs req row.
Proof.
  intros Hp Hm He Hd Hr Hok. unfold ReserveToolTx.
  destruct (CheckToolTx policy canonical env db i) as [[]|] eqn:Ec; [|done].
  destruct (scopesTx _ _ _ _ _ _ _ _ _) as [lg [[owner ids]|]] eqn:Es; [|done].
  destruct (egress_bytes policy allowance) as [bytes|] eqn:Eb; [|done].
  destruct (ReserveTx _ _ _ _ _ _) as [lg' [x|]] eqn:Er; [|done]. intros [= <-].
  split; [done|]. split; [exact (CheckToolTx_Ok _ _ _ _ _ Ec)|].
  apply scopesTx_Ok in Es as (specs & Hs & -> & Hlg & Hres & Hall); try done.
  apply ReserveTx_outcome in Er as (req & Hcan & Ho). cbn [lo_ledger set_lo_ledger].
  pose proof Hcan as (Ereq & _ & Hperm & Hnn)%canonicalRequest_ok.
  apply egress_bytes_Ok in Eb. assert (Hb : 0 <= bytes).
  { rewrite Ereq in Hnn. unfold units_nonneg in Hnn. cbn in Hnn. rewrite !Forall_cons in Hnn. tauto. }
  assert (Hi : units_int64 (rq_charge req)).
  { rewrite Ereq. unfold units_int64, tool_charge, values. cbn -[in_int64].
    repeat (apply Forall_cons; split; [unfold in_int64, min_int64, max_int64 in *; lia|]). constructor. }
  assert (Hq : rq_owner_id req = owner /\ rq_operation_id req = "effect:" +:+ ti_effect_id i
    /\ rq_charge req = tool_charge policy bytes) by (by rewrite Ereq). clear Ereq.
  destruct Hq as (Ho1 & Ho2 & Hch).
  inversion Ho as [row Elg Hrow Efp Eout|Hnone Erows Hk Eout].
  - rewrite Ho1 Ho2 in Hrow. exists owner, specs, req, row. subst lg'. constructor; try done; eauto.
  - rewrite Ho1 Ho2 in Hnone, Erows.
    assert (Hlg' : ledger_ok disable lg').
    { eapply ledger_ok_fresh; [exact Hlg|exact (canonicalRequest_idemp _ _ Hcan)|done|].
      rewrite -Eout in Ho. exact Ho. }
    eexists owner, specs, req, _. constructor; try done; eauto; [by rewrite Erows lookup_insert_eq|].
    left. split; [by rewrite -Hres|]. split; [done|].
    rewrite Forall_forall. intros spec Hin. rewrite Forall_forall in Hall.
    destruct (Hall spec Hin) as (s & Hsc & Hdl), (Hk (spec_id spec)) as [H1 _].
    destruct H1 as (s0 & next & E0 & _ & Ha & E1);
      [rewrite Hperm; apply list_elem_of_fmap; eauto|]. rewrite Hsc in E0. injection E0 as <-.
    split.
    + unfold addWithinPolicy in Ha. go_ok Ha. unbool. rewrite -Hdl. by apply Z.ltb_lt.
    + eexists. split; [exact E1|]. exact (so_exact _ _ _ _ (proj1 Hlg' _ _ E1)).
Qed.
End price.

(** ** Repetition *)

Section repetition.
Context (policy : Policy).
Context (resolve : option (Z -> adm_db -> string -> string -> res MandateScope)).
(** The call of one task or of one conversation input, and the largest number
    of such calls that are ever in flight together. *)
Context (K : LoopKey) (width : nat).

#[global] Instance LoopKey_eq_dec : EqDecision LoopKey.
Proof. solve_decision. Defined.

(** The database and the calls that were let through and not yet observed. *)
Definition world : Type := effect_db loop_db * list LoopKey.

Definition flying (fl : list LoopKey) : nat := length (filter (fun k => k = K) fl).

Definition observation_of (k : LoopKey) (category result : string) : Observation :=
  mkObservation (lk_owner k) (lk_root k) (lk_state k) (lk_call k) category result.

(** Calls are let through and observed in any interleaving; whatever else
    happens leaves the observations alone, and the inputs they are attributed
    to.  The observation of another call is not attributed to this one. *)
Inductive loop_step : world -> world -> Prop :=
| StepReserve canonical allowance env i k db fl l :
    loopIdentity canonical env db i = Ok k ->
    ReserveToolTx policy resolve canonical allowance env db i = (l, Ok tt) ->
    (flying (k :: fl) <= width)%nat ->
    loop_step (db, fl) (set_rest db l, k :: fl)
| StepObserve canonical env i k category result db fl1 fl2 l r :
    loopIdentity canonical env db i = Ok k ->
    (k <> K -> counted db K (ti_effect_id i) (observation_of k category result) = false) ->
    ObserveToolTx canonical env db i category result = (l, r) ->
    loop_step (db, fl1 ++ k :: fl2) (set_rest db l, fl1 ++ fl2)
| StepOther db db' fl :
    lo_observations (ed_rest db') = lo_observations (ed_rest db) ->
    (forall effect, not_elsewhere db' K effect = not_elsewhere db K effect) ->
    loop_step (db, fl) (db', fl).

Lemma observed_ext db db' category result :
  lo_observations (ed_rest db') = lo_observations (ed_rest db) ->
  (forall effect, not_elsewhere db' K effect = not_elsewhere db K effect) ->
  observed db' K category result = observed db K category result.
Proof.
  intros Ho Hn. unfold observed. rewrite Ho. apply map_filter_ext. intros e o _. simpl.
  unfold counted. by rewrite Hn.
Qed.

Lemma observed_below db category result : 1 <= po_repeat_limit policy ->
  repeated policy db K = false ->
  Z.of_nat (size (observed db K category result)) < po_repeat_limit policy.
Proof.
  intros Hl Hr. unfold repeated in Hr. rewrite any_row_false in Hr.
  destruct (decide (observed db K category result = ∅)) as [->|Hne]; [rewrite map_size_empty; lia|].
  apply map_choose in Hne as (e & o & Hin).
  apply map_lookup_filter_Some in Hin as [Ho (Hc & <- & <-)]. simpl in *.
  specialize (Hr e o Ho). rewrite Hc in Hr. simpl in Hr. by apply Z.leb_gt in Hr.
Qed.

(** One observation adds at most one row, and only to its own group. *)
Lemma ObserveToolTx_adds canonical env db i k category result l r c d :
  loopIdentity canonical env db i = Ok k ->
  (k <> K -> counted db K (ti_effect_id i) (observation_of k category result) = false) ->
  ObserveToolTx canonical env db i category result = (l, r) ->
  (size (observed (set_rest db l) K c d) <= size (observed db K c d) + (if decide (k = K) then 1 else 0))%nat.
Proof.
  intros Hk Hc. unfold ObserveToolTx. rewrite Hk.
  assert (Hid : forall x, (size (observed (set_rest db (ed_rest db)) K c d) <= size (observed db K c d) + x)%nat)
    by (intros x; rewrite set_rest_id; lia).
  case_bool_decide; [intros [= <- _]; apply Hid|]. case_match; [intros [= <- _]; apply Hid|].
  destruct (lo_observations (ed_rest db) !! ti_effect_id i) eqn:Hn; intros [= <- _]; [apply Hid|].
  unfold observed at 1. cbn [set_rest ed_rest set_observations lo_observations].
  fold (observation_of k category result).
  change (counted (set_rest db _) K) with (counted db K).
  rewrite map_filter_insert. simpl. case_decide as Hf.
  - destruct Hf as (Hcnt & _). destruct (decide (k = K)); [|by rewrite Hc in Hcnt].
    rewrite map_size_insert_None; [by rewrite map_lookup_filter Hn|]. unfold observed. lia.
  - rewrite delete_id //.
Qed.

Lemma ReserveToolTx_observations canonical allowance env db i l r :
  ReserveToolTx policy resolve canonical allowance env db i = (l, r) ->
  lo_observations l = lo_observations (ed_rest db)
  /\ (r = Ok tt -> CheckToolTx policy canonical env db i = Ok tt).
Proof.
  unfold ReserveToolTx. destruct (CheckToolTx _ _ _ _ _) as [[]|]; [|by intros [= <- <-]].
  destruct (scopesTx _ _ _ _ _ _ _ _ _) as [lg [[owner ids]|]]; [|by intros [= <- <-]].
  destruct (egress_bytes _ _); [|by intros [= <- <-]].
  destruct (ReserveTx _ _ _ _ _ _) as [lg' x]. by intros [= <- <-].
Qed.

Lemma loop_step_bound w w' category result : 1 <= po_repeat_limit policy -> loop_step w w' ->
  Z.of_nat (size (observed w.1 K category result) + flying w.2) < po_repeat_limit policy + Z.of_nat width ->
  Z.of_nat (size (observed w'.1 K category result) + flying w'.2) < po_repeat_limit policy + Z.of_nat width.
Proof.
  intros Hl Hs. destruct Hs as [canonical allowance env i k db fl l Hk Hres Hw
    |canonical env i k c d db fl1 fl2 l r Hk Hc Ho|db db' fl Ho Hn]; cbn [fst snd].
  - apply ReserveToolTx_observations in Hres as [Hobs Hck].
    rewrite (observed_ext db (set_rest db l) category result Hobs); [done|]. intros Hb.
    destruct (decide (k = K)) as [->|Hne].
    + destruct (CheckToolTx_Ok _ _ _ _ _ (Hck eq_refl)) as (k' & Hk').
      pose proof (ck_identity _ _ _ _ _ _ Hk') as Hid. rewrite Hk in Hid. injection Hid as <-.
      pose proof (observed_below db category result Hl (ck_repeated _ _ _ _ _ _ Hk')). lia.
    + unfold flying in *. rewrite filter_cons_False //.
  - pose proof (ObserveToolTx_adds _ _ _ _ _ _ _ _ _ category result Hk Hc Ho) as Hadd.
    unfold flying. rewrite !filter_app !length_app. intros Hb.
    destruct (decide (k = K)) as [->|Hne];
      [rewrite filter_cons_True // length_cons in Hb|rewrite filter_cons_False // in Hb]; lia.
  - by rewrite (observed_ext db db' category result Ho Hn).
Qed.

(** C16: the same action is not repeated without progress.  In every
    interleaving of admissions and observations of tool calls, with at most
    [width] calls of one task (or of one conversation input) in flight for the
    same tool, arguments, contract and revisions, fewer than the repeat limit
    plus [width] of them are ever recorded with the same category and result,
    those in flight included.  Calls made one after the other reach the limit
    exactly and are then refused. *)
Theorem repetition_is_bounded w w' category result :
  1 <= po_repeat_limit policy -> rtc loop_step w w' -> flying w.2 = 0%nat ->
  Z.of_nat (size (observed w.1 K category result)) < po_repeat_limit policy + Z.of_nat width ->
  Z.of_nat (size (observed w'.1 K category result) + flying w'.2) < po_repeat_limit policy + Z.of_nat width.
Proof.
  intros Hl Hs Hf Hw. assert (Hb : Z.of_nat (size (observed w.1 K category result) + flying w.2)
    < po_repeat_limit policy + Z.of_nat width) by lia. clear Hf Hw.
  induction Hs as [w|w w1 w2 Hs _ IH]; [done|]. apply IH. by apply (loop_step_bound w).
Qed.
End repetition.

(** ** Dispatches *)

Section dispatch.
Context (guards : DispatchGuards loop_db) (sc : ScopeRules).
Context (policy : Policy).
Context (resolve : option (Z -> adm_db -> string -> string -> res MandateScope)).
Context (canonical : option string) (allowance : option Z).
Context (Hbudgets : dg_budgets guards = Some (loop_budgets policy resolve canonical allowance)).

(** A dispatch that goes ahead has been reserved, in the state it was
    decided in; only the claim guard changes the rest afterwards. *)
Lemma ClaimGrant_reserved env id db db' u :
  ClaimGrant guards sc env id db = (db', Ok u) ->
  exists gr n row rest, ed_grants db !! id = Some gr
    /\ effect_of_action db (ab_action_id (gt_binding (gr_grant_data gr))) = Some (n, nr_effect_id n, row)
    /\ fr_state row = StateAllowed
    /\ ReserveToolTx policy resolve canonical allowance env db
         (toolBudgetIdentity sc (gr_grant_data gr) (nr_effect_id n)) = (rest, Ok tt)
    /\ (ed_rest db' = rest \/ exists guard g, dg_claim guards = Some guard
         /\ ed_rest db' = (ClaimActionTx guard env (set_rest db rest) g (nr_effect_id n)).1).
Proof.
  unfold ClaimGrant. intros H. apply fx_tx_Ok in H as Hw.
  apply fx_check_Ok in Hw as (g & Hg & Hw). apply fx_check_Ok in Hw as (u1 & _ & Hw).
  apply fx_check_Ok in Hw as (u2 & _ & Hw). destruct (fe_fault env 8); [done|].
  destruct (effect_of_action db _) as [[[n id0] r0]|] eqn:He; [|done].
  destruct (effect_of_action_Some _ _ _ _ _ He) as (_ & -> & Hr0).
  destruct (negb (bool_decide (fr_state r0 = StateAllowed)) || _) eqn:Hst; [done|]. unbool.
  rewrite Hbudgets in Hw. apply fx_bind_Ok in Hw as (db1 & [] & Hb & Hw).
  apply fx_check_Ok in Hw as (u4 & _ & Hw). apply fx_bind_Ok in Hw as (db2 & [] & Hcl & Hw).
  apply fx_check_Ok in Hw as (u6 & _ & Hw).
  unfold grantInTx in Hg. destruct (fe_fault env 0); [done|].
  destruct (ed_grants db !! id) as [gr|] eqn:Hgr; [|done]. injection Hg as <-.
  unfold run_hook in Hb. injection Hb as <- Hb.
  destruct (ReserveToolTx policy resolve canonical allowance env db _) as [rest x] eqn:Er in Hb, Hcl.
  cbn [fst snd] in *. subst x.
  exists gr, n, r0, rest. split_and!; try done. cbn [gt_binding with_grant_state] in *.
  assert (Hrest : ed_effects db2 = ed_effects db /\ (ed_rest db2 = rest \/ exists guard g,
    dg_claim guards = Some guard
    /\ ed_rest db2 = (ClaimActionTx guard env (set_rest db rest) g (nr_effect_id n)).1)).
  { destruct (dg_claim guards) as [guard|].
    - unfold run_hook in Hcl. injection Hcl as <- _. split; [done|]. right. eauto.
    - injection Hcl as <-. split; [done|by left]. }
  destruct Hrest as [E2 Hrest]. rewrite -E2 in Hr0.
  by destruct (begin_dispatch_Ok _ _ _ _ _ _ _ _ Hw Hr0) as (gr2 & _ & _ & _ & ->).
Qed.

(** C15: no commit is dispatched past an uncertain effect.  When the guards
    are installed and the dispatch of a commit goes ahead, the run's task tree
    or conversation has no external authentication and no stopped attempt that
    is uncertain, and none of its effects is executing: every effect that is
    not a read and still uncertain is a reviewed local form preparation, of
    another run, that has ended and is proved to have written nothing. *)
Theorem commit_waits_for_uncertainty env id db db' u :
  ClaimGrant guards sc env id db = (db', Ok u) ->
  exists gr owner root event, let b := gt_binding (gr_grant_data gr) in
    ed_grants db !! id = Some gr
    /\ (task_identity db (ab_run_id b) = Some (owner, root, event)
        \/ session_identity db (ab_run_id b) = Some (owner, root, event))
    /\ (ab_effect b = EffectCommit ->
        external_pending db (ab_run_id b) owner root = false
        /\ stops db (ab_run_id b) owner root = []
        /\ forall e r, ed_effects db !! e = Some r -> pending db owner root r = true ->
             reviewed_preparation (fe_clock env 32) db owner (ab_run_id b) e r).
Proof.
  intros (gr & n & row & rest & Hgr & _ & _ & Hres & _)%ClaimGrant_reserved.
  apply ReserveToolTx_observations in Hres as [_ Hck].
  destruct (CheckToolTx_Ok _ _ _ _ _ (Hck eq_refl)) as (k & [Hid Hext Hstop (reply & Hp & Hun) _]).
  apply loopIdentity_Ok in Hid as (_ & _ & Hid).
  exists gr, (lk_owner k), (lk_root k), (lk_input_event k). split; [done|]. split; [done|].
  intros Hc. assert (Hr : ti_effect (toolBudgetIdentity sc (gr_grant_data gr) (nr_effect_id n)) <> "read"
    /\ ti_effect (toolBudgetIdentity sc (gr_grant_data gr) (nr_effect_id n)) <> "prepare")
    by (cbn [ti_effect toolBudgetIdentity]; by rewrite Hc).
  destruct Hr as [Hr Hpr]. split_and!.
  - exact (external_guard_commit _ _ _ _ _ Hr Hpr Hext).
  - exact (stopped_guard_commit _ _ _ _ _ Hr Hpr Hstop).
  - exact (check_unknown_commit _ _ _ _ _ Hr Hpr Hp Hun).
Qed.

(** C27: a dispatched action is paid for in every scope of its run.  When the
    dispatch goes ahead, the ledger holds one reservation under the effect's
    name, fingerprinted for one external call, the tool's time and no more
    bytes than the policy allows, in every scope the run is subject to (task
    or conversation, mandate, day and delegations); a new reservation is
    counted in each of these scopes before its deadline, and the ledger keeps
    its invariant: no scope exceeds its limits. *)
Theorem dispatch_is_paid env id db db' u :
  policy_typed policy -> in_int64 (po_tool_millis policy) -> in_int64 (po_tool_egress_bytes policy) ->
  delegations_typed (adm_view db) -> resolver_typed resolve ->
  ledger_ok (po_disable_conversation_model_turns policy) (lo_ledger (ed_rest db)) ->
  (forall guard env db g effect, dg_claim guards = Some guard ->
     lo_ledger (ClaimActionTx guard env db g effect).1 = lo_ledger (ed_rest db)) ->
  ClaimGrant guards sc env id db = (db', Ok u) ->
  exists gr n owner specs req row, ed_grants db !! id = Some gr
    /\ ed_intents db !! ab_action_id (gt_binding (gr_grant_data gr)) = Some n
    /\ paid policy resolve env db (toolBudgetIdentity sc (gr_grant_data gr) (nr_effect_id n))
         (lo_ledger (ed_rest db')) owner specs req row.
Proof.
  intros Hp Hm He Hd Hr Hok Hclaim (gr & n & row & rest & Hgr & Hn & _ & Hres & Hrest)%ClaimGrant_reserved.
  apply effect_of_action_Some in Hn as (Hn & _ & _).
  apply ReserveToolTx_Ok in Hres as (_ & _ & owner & specs & req & rrow & Hpaid); try done.
  exists gr, n, owner, specs, req, rrow. split_and!; try done.
  assert (E : lo_ledger (ed_rest db') = lo_ledger rest); [|by rewrite E].
  destruct Hrest as [->|(guard & g & Hg & ->)]; [done|]. by rewrite (Hclaim _ _ _ _ _ Hg).
Qed.
End dispatch.

(** ** Witnesses *)

Module LoopDemo.
Import EffectDemo.
#[local] Existing Instances lower binding_column policy_column grant_column evidence_column any_text_dec.

Definition empty_loop : loop_db := mkLoopDb ∅ ∅ None empty_ledger ∅ ∅ ∅ ∅ [].
Definition loop_start : effect_db loop_db :=
  mkEffectDb (ed_queue start) ∅ ∅ ∅ ∅ ∅ ∅ ∅ empty_loop.
Definition loop_guards : DispatchGuards loop_db :=
  mkGuards (Some (loop_budgets adm_policy_ex None None None)) None None None
    (fun _ _ _ _ => Ok tt) (fun _ _ _ _ _ => false).

Definition order_again : Intent :=
  mkIntent (bind "action-3" "call-3" "http.request" "https://shop.example/refunds" EffectCommit) true
    (3600 * second) "action-3" "print-3" receipt_policy.
Abbreviation permits :=
  ([OpPutIntent (at_time second) order; OpPutGrant (at_time second) (grant "auth-1" order);
   OpPutIntent (at_time second) order_again; OpPutGrant (at_time second) (grant "auth-3" order_again);
   OpPutIntent (at_time second) look; OpPutGrant (at_time second) (grant "auth-2" look)]).
Definition both_allowed : effect_db loop_db := run_ops loop_guards rules any_text print permits loop_start.
Abbreviation claim_at now id db := (ClaimGrant loop_guards rules (at_time now) id db).
Definition first_out : effect_db loop_db := (claim_at (2 * second) "auth-1" both_allowed).1.

(** While one commit is out, a second one of the conversation is refused and a
    read is not. *)
Lemma commit_waits_for_uncertainty_witness :
  (claim_at (3 * second) "auth-3" first_out).2 = Err (loop_error "external_effect_unknown")
  /\ (claim_at (3 * second) "auth-2" first_out).2 = Ok tt
  /\ exists owner root event,
       (task_identity both_allowed "run-1" = Some (owner, root, event)
        \/ session_identity both_allowed "run-1" = Some (owner, root, event))
       /\ forall e r, ed_effects both_allowed !! e = Some r -> pending both_allowed owner root r = true ->
            reviewed_preparation (2 * second) both_allowed owner "run-1" e r.
Proof.
  split; [vm_compute; reflexivity|]. split; [vm_compute; reflexivity|].
  destruct (claim_at (2 * second) "auth-1" both_allowed) as [db' [u|e]] eqn:E;
    [|vm_compute in E; discriminate E].
  destruct (commit_waits_for_uncertainty loop_guards rules adm_policy_ex None None None eq_refl
    (at_time (2 * second)) "auth-1" both_allowed db' u E) as (gr & owner & root & event & Hg & Hid & Hc).
  assert (Hgr : ed_grants both_allowed !! "auth-1" = Some gr -> ab_run_id (gt_binding (gr_grant_data gr)) = "run-1"
    /\ ab_effect (gt_binding (gr_grant_data gr)) = EffectCommit)
    by (vm_compute; intros H; injection H as <-; split; reflexivity).
  destruct (Hgr Hg) as [Hrun Hcommit]. rewrite Hrun in Hid, Hc. exists owner, root, event.
  split; [exact Hid|]. exact (proj2 (proj2 (Hc Hcommit))).
Defined.

Lemma demo_policy_typed : policy_typed adm_policy_ex.
Proof. split_and!; [repeat constructor; vm_compute; congruence|vm_compute; split; congruence..]. Qed.

Lemma dispatch_is_paid_witness :
  (claim_at (2 * second) "auth-1" both_allowed).2 = Ok tt
  /\ exists owner specs req row, paid adm_policy_ex None (at_time (2 * second)) both_allowed
       (toolBudgetIdentity rules (grant "auth-1" order) "action-1")
       (lo_ledger (ed_rest (claim_at (2 * second) "auth-1" both_allowed).1)) owner specs req row
     /\ size (lg_reservations (lo_ledger (ed_rest (claim_at (2 * second) "auth-1" both_allowed).1))) = 1%nat.
Proof.
  split; [vm_compute; reflexivity|].
  assert (Hs : size (lg_reservations (lo_ledger (ed_rest (claim_at (2 * second) "auth-1" both_allowed).1)))
    = 1%nat) by (vm_compute; reflexivity).
  destruct (claim_at (2 * second) "auth-1" both_allowed) as [db' [u|e]] eqn:E;
    [|vm_compute in E; discriminate E].
  destruct (dispatch_is_paid loop_guards rules adm_policy_ex None None None eq_refl
    (at_time (2 * second)) "auth-1" both_allowed db' u demo_policy_typed) as
    (gr & n & owner & specs & req & row & Hg & Hn & Hp).
  - vm_compute. split; congruence.
  - vm_compute. split; congruence.
  - intros tbl id d limits Ht. vm_compute in Ht. discriminate Ht.
  - intros f now db task owner a Hf. discriminate Hf.
  - assert (El : lo_ledger (ed_rest both_allowed) = empty_ledger) by (vm_compute; reflexivity).
    rewrite El. apply ledger_ok_empty.
  - intros guard env db g effect Hcl. discriminate Hcl.
  - exact E.
  - exists owner, specs, req, row. split; [|exact Hs].
    assert (Hgr : ed_grants both_allowed !! "auth-1" = Some gr -> gr_grant_data gr = grant "auth-1" order)
      by (vm_compute; intros H; injection H as <-; reflexivity).
    rewrite (Hgr Hg) in Hp, Hn.
    assert (Hin : ed_intents both_allowed !! "action-1" = Some n -> nr_effect_id n = "action-1")
      by (vm_compute; intros H; injection H as <-; reflexivity).
    rewrite (Hin Hn) in Hp. exact Hp.
Defined.

(** One read of the conversation, let through and observed; the same read is
    refused once three observations say the same. *)
Definition read_call (effect : string) : ToolIdentity := toolBudgetIdentity rules (grant "auth-2" look) effect.
Definition demo_key : LoopKey := mkLoopKey "owner" "chat" (state_key (read_call "")) (call_key None (read_call "")) "event-1".
Definition after_reserve : effect_db loop_db :=
  set_rest both_allowed (ReserveToolTx adm_policy_ex None None None (at_time (2 * second)) both_allowed
    (read_call "action-2")).1.
Definition observe (effect : string) (db : effect_db loop_db) : effect_db loop_db :=
  set_rest db (ObserveToolTx None (at_time (3 * second)) db (read_call effect) StateConfirmed "digest").1.
Definition thrice : effect_db loop_db := observe "c" (observe "b" (observe "action-2" after_reserve)).

Lemma repetition_is_bounded_witness :
  CheckToolTx adm_policy_ex None (at_time (4 * second)) thrice (read_call "d")
    = Err (loop_error "repeated_action_without_progress")
  /\ Z.of_nat (size (observed (observe "action-2" after_reserve) demo_key StateConfirmed "digest") + 0) < 3 + 1.
Proof.
  split; [vm_compute; reflexivity|].
  refine (repetition_is_bounded adm_policy_ex None demo_key 1 (both_allowed, [])
    (observe "action-2" after_reserve, []) StateConfirmed "digest" _ _ eq_refl _).
  - vm_compute. congruence.
  - eapply rtc_l; [|eapply rtc_l; [|apply rtc_refl]].
    + refine (StepReserve adm_policy_ex None demo_key 1 None None (at_time (2 * second)) (read_call "action-2")
        demo_key both_allowed [] _ _ _ _); [vm_compute; reflexivity| |apply Nat.leb_le; vm_compute; reflexivity].
      assert (E : (ReserveToolTx adm_policy_ex None None None (at_time (2 * second)) both_allowed
        (read_call "action-2")).2 = Ok tt) by (vm_compute; reflexivity).
      rewrite -E. apply surjective_pairing.
    + refine (StepObserve adm_policy_ex None demo_key 1 None (at_time (3 * second)) (read_call "action-2") demo_key
        StateConfirmed "digest" after_reserve [] [] _ _ _ _ (surjective_pairing _)); [vm_compute; reflexivity|].
      intros H. destruct (H eq_refl).
  - vm_compute. reflexivity.
Defined.
End LoopDemo.
