(* ===== verification/Mandate.v ===== *)
(** * Mandate: the authority an owner delegates

    Package [internal/actionauth] ([mandate.go], [owner_authority.go],
    [owner_authority_types.go], [owner_deadline.go], [converter_authority.go],
    [browser_scope.go], [schedules.go], [tool_catalog.go], [owner_reply.go],
    [delegation.go], [budget.go]): validation of a mandate, the actions it
    allows, the hours it is open, the instant its authority ends, and the
    checks of an assignment inside a transaction.  The zone database and the
    hashes of the reviewed contracts of the control tools are parameters. *)
From Stdlib Require Import Ascii.
From stdpp Require Import gmap sorting.
From S2P Require Import Prelude GoStrings GoBytes GoHash GoTime GoNet GoUrl Budget Scheduling Delegation Approval Effect BrowserScope EffectExternal.
Open Scope Z_scope.
Open Scope go_scope.

Definition EffectUnknown : string := "unknown".

(** ** Data *)

Record Assignment := mkAssignment {
  as_task_id : string;
  as_owner_id : string;
  as_goal_id : string;
  as_goal_revision : Z;
  as_mandate_id : string;
  as_mandate_revision : Z;
  as_purpose : string;
  as_initiative_reason : string;
  as_observation_ref : string;
  as_policy_revision : Z;
}.

Record MandateBudget := mkMandateBudget {
  mb_model_turns : Z; mb_tokens : Z; mb_cost_micros : Z; mb_external_calls : Z; mb_children : Z;
  mb_active_millis : Z; mb_egress_bytes : Z; mb_provider_input_bytes : Z }.

Record ActiveHours := mkHours {
  ah_timezone : string; ah_start_minute : Z; ah_end_minute : Z; ah_weekdays : list Z }.

Record ResourceScope := mkResourceScope { rs_origin : string; rs_path_prefix : string }.

Record ExtensionPermission := mkExtension {
  xp_source : string; xp_extension_id : string; xp_manifest_hash : string; xp_tools : list string }.

Record ConverterPermission := mkConverter {
  cv_converter_id : string;
  cv_class : string;
  cv_input_schema_hash : string;
  cv_output_schema_hash : string;
  cv_runtime_pin : string;
  cv_input_bytes : Z;
  cv_output_bytes : Z;
  cv_rows : Z;
  cv_field_bytes : Z;
  cv_millis : Z;
  cv_trials : Z;
}.
#[global] Instance ConverterPermission_eq_dec : EqDecision ConverterPermission.
Proof. solve_decision. Defined.

(** [GoalPolicy]: the policies inside are goals of the same shape. *)
Inductive GoalPolicy := mkGoalPolicy {
  gp_id : string;
  gp_owner_id : string;
  gp_kind : string;
  gp_status : string;
  gp_revision : Z;
  gp_title : string;
  gp_purpose : string;
  gp_constraints : list string;
  gp_expires_at : Z;
  gp_policies : list GoalPolicy;
}.

(** A nil [Hours] or [RevokedAt] is [None]; the map [Source] is a list of
    pairs that no rule reads. *)
Record Mandate := mkOwnerMandate {
  om_scope_kind : string;
  om_goal_id : string;
  om_goal_revision : Z;
  om_status : string;
  om_purpose : string;
  om_resource_scopes : list ResourceScope;
  om_deny_tools : list string;
  om_deny_resources : list ResourceScope;
  om_privacy : string;
  om_budget : MandateBudget;
  om_budget_deadline : Z;
  om_hours : option ActiveHours;
  om_allow_initiative : bool;
  om_intervention : list string;
  om_reporting : string;
  om_extensions : list ExtensionPermission;
  om_converters : list ConverterPermission;
  om_source : list (string * string);
  om_id : string;
  om_owner_id : string;
  om_task_id : string;
  om_task_revision : Z;
  om_constraints_revision : Z;
  om_revision : Z;
  om_tools : list string;
  om_resources : list string;
  om_effects : list string;
  om_credential_refs : list Approval.CredentialRef;
  om_expires_at : Z;
  om_revoked_at : option Z;
}.

Definition contains (values : list string) (value : string) : bool := bool_decide (value ∈ values).

(** ** Active hours *)

(** [withinHours]: the wall clock of the zone shows a listed weekday and a
    minute of the window, which may run past midnight. *)
Definition withinHours (h : ActiveHours) (off : zone) (at_ : Z) : bool :=
  let minute_ := local_sec off at_ mod 86400 / 60 in
  if negb (bool_decide (weekday_of_days (local_day off at_) ∈ ah_weekdays h)) then false
  else if Z.ltb (ah_start_minute h) (ah_end_minute h)
  then Z.leb (ah_start_minute h) minute_ && Z.ltb minute_ (ah_end_minute h)
  else if Z.ltb (ah_end_minute h) (ah_start_minute h)
  then Z.leb (ah_start_minute h) minute_ || Z.ltb minute_ (ah_end_minute h)
  else false.

(** The walk over minute boundaries: the first one outside the hours, among
    the next [fuel]. *)
Fixpoint closing_boundary (h : ActiveHours) (off : zone) (fuel : nat) (boundary : Z) : option Z :=
  match fuel with
  | O => None
  | S fuel => if negb (withinHours h off boundary) then Some boundary
              else closing_boundary h off fuel (boundary + minute)
  end.

(** The earlier of two instants; the first one wins a tie. *)
Definition earlier (deadline candidate : Z) : Z :=
  if Before candidate deadline then candidate else deadline.

(** A list of expiries: an unset one is an error. *)
Fixpoint tighten (deadline : Z) (candidates : list Z) : res Z :=
  match candidates with
  | [] => Ok deadline
  | c :: rest => fail_when IsZero c with ErrOwnerAuthority ;; tighten (earlier deadline c) rest
  end.

Section zones.
Context (zones : string -> option zone).

Definition WithinActiveHours (h : option ActiveHours) (at_ : Z) : bool :=
  match h with
  | None => true
  | Some h => match zones (ah_timezone h) with None => false | Some off => withinHours h off at_ end
  end.

Definition AuthorityDeadline (m : Mandate) (g : GoalPolicy) (at_ : Z) : res Z :=
  deadline <-! tighten (om_expires_at m) [om_budget_deadline m; gp_expires_at g] ;;
  deadline <-! tighten deadline (gp_expires_at <$> gp_policies g) ;;
  deadline <-! match om_hours m with
               | None => Ok deadline
               | Some h =>
                   match zones (ah_timezone h) with
                   | None => Err ErrOwnerAuthority
                   | Some off =>
                       fail_when negb (withinHours h off at_) with ErrOwnerAuthority ;;
                       match closing_boundary h off (48 * 60) (Truncate at_ minute + minute) with
                       | None => Err ErrOwnerAuthority
                       | Some boundary => Ok (earlier deadline boundary)
                       end
                   end
               end ;;
  fail_when IsZero deadline || negb (After deadline at_) with ErrOwnerAuthority ;;
  Ok deadline.
End zones.

(** ** Resources *)

Section resources.
Context `{!UnicodeLower}.

(** The exact name of a tool. *)
Definition tool_name_ok (name : string) : bool :=
  negb (bool_decide (name = "")) && negb (ContainsAny name ["*"; "?"; " "]%char) && Contains name ".".

Definition validResourceScope (s : ResourceScope) : bool :=
  if HasPrefix (rs_origin s) "tool:" then
    let name := TrimPrefix (rs_origin s) "tool:" in
    bool_decide (rs_path_prefix s = "") && negb (bool_decide (name = "")) && Contains name "."
    && negb (ContainsAny name ["*"; "?"; "/"; "\"; ":"; "#"; " "; "009"; CR; LF]%char)
  else
  match Parse (rs_origin s) with
  | None => false
  | Some u =>
      if negb (bool_decide (u_user u = None))
         || negb (bool_decide (u_scheme u = lit "http")) && negb (bool_decide (u_scheme u = lit "https"))
         || bool_decide (u_host u = []) || negb (bool_decide (u_path u = []))
         || negb (bool_decide (u_raw_query u = [])) || negb (bool_decide (u_fragment u = []))
         || ContainsAny (str (u_host u)) ["*"; "?"; " "]%char then false
      else
        HasPrefix (rs_path_prefix s) "/"
        && bool_decide (str (Clean (lit (rs_path_prefix s))) = TrimSuffix (rs_path_prefix s) "/")
        && negb (ContainsAny (rs_path_prefix s) ["%"; "?"; "\"; "#"]%char)
        || bool_decide (rs_path_prefix s = "/")
  end.

(** The URL inside the resource of a browser or of a tab. *)
Definition resource_url (raw : string) : string :=
  if HasPrefix raw "browser:" || HasPrefix raw "single_tab:" then
    match index (lit raw) (lit "http") with Some i => str (drop i (lit raw)) | None => raw end
  else raw.

Definition resourceWithin (scope : ResourceScope) (raw : string) : bool :=
  if HasPrefix (rs_origin scope) "tool:" then
    validResourceScope scope && bool_decide (raw = rs_origin scope)
  else
  match Parse (resource_url raw) with
  | None => false
  | Some u =>
      if negb (bool_decide (u_user u = None)) || bool_decide (u_host u = [])
         || negb (bool_decide (ToLower (str (u_scheme u) +:+ "://" +:+ str (u_host u))
                               = ToLower (rs_origin scope)))
      then false else
      match browsersso.canonical_path u with
      | None => false
      | Some p => browsersso.path_within (rs_path_prefix scope) p
      end
  end.
End resources.

(** ** Converters *)

Definition lower_letter (c : ascii) : bool := in_range 97 122 c.
Definition lower_hex (c : ascii) : bool := in_range 48 57 c || in_range 97 102 c.

(** The expressions [converterID] and [converterDigest]. *)
Definition converterID (s : string) : bool :=
  match lit s with
  | [] => false
  | c :: rest =>
      lower_letter c && Nat.leb (length rest) 62
      && forallb (fun c => lower_letter c || in_range 48 57 c || bool_decide (c = "-"%char)) rest
  end.
Definition converterDigest (s : string) : bool := Z.eqb (go_len s) 64 && forallb lower_hex (lit s).

Definition between (lo hi n : Z) : bool := Z.leb lo n && Z.leb n hi.

Definition Converter_Validate (p : ConverterPermission) : res unit :=
  fail_when negb (converterID (cv_converter_id p))
            || negb (bool_decide (cv_class p = "delimited_json_v1"))
            || negb (converterDigest (cv_input_schema_hash p))
            || negb (converterDigest (cv_output_schema_hash p))
            || negb (converterDigest (cv_runtime_pin p))
            || negb (between 1 (64 * 1024) (cv_input_bytes p))
            || negb (between 1 (256 * 1024) (cv_output_bytes p))
            || negb (between 1 512 (cv_rows p)) || negb (between 1 4096 (cv_field_bytes p))
            || negb (between 1 2000 (cv_millis p)) || negb (between 1 8 (cv_trials p))
    with ErrOwnerAuthority ;;
  Ok tt.

Definition converter_tool (id : string) : string := "converter." +:+ id +:+ ".convert".

(** ** Validation *)

Definition credential_ok (r : Approval.CredentialRef) : bool :=
  negb (bool_decide (cr_alias r = "")) && negb (bool_decide (cr_field r = ""))
  && negb (ContainsAny (cr_alias r +:+ cr_field r) ["*"; "?"]%char).

Definition effect_ok (e : string) : bool :=
  bool_decide (e ∈ [EffectRead; EffectPrepare; EffectCommit; EffectUnknown]).

(** The extensions, in order. *)
Fixpoint check_extensions (tools : list string) (extensions : list ExtensionPermission) : res unit :=
  match extensions with
  | [] => Ok tt
  | e :: rest =>
      fail_when bool_decide (xp_source e = "") || bool_decide (xp_extension_id e = "")
                || negb (Z.eqb (go_len (xp_manifest_hash e)) 64) || bool_decide (xp_tools e = [])
        with Errorf "exact extension source, identity, manifest digest and capabilities required" ;;
      fail_when existsb (fun t => negb (contains tools t)) (xp_tools e)
        with Errorf "extension capabilities exceed mandate" ;;
      check_extensions tools rest
  end.

Fixpoint check_converters (tools seen : list string) (converters : list ConverterPermission) :
    res unit :=
  match converters with
  | [] => Ok tt
  | p :: rest =>
      fail_when negb (is_ok (Converter_Validate p)) || contains seen (cv_converter_id p)
                || negb (contains tools (converter_tool (cv_converter_id p)))
        with ErrOwnerAuthority ;;
      check_converters tools (cv_converter_id p :: seen) rest
  end.

Definition budget_values (b : MandateBudget) : list Z :=
  [mb_model_turns b; mb_tokens b; mb_cost_micros b; mb_external_calls b; mb_children b;
   mb_active_millis b; mb_egress_bytes b; mb_provider_input_bytes b].

Section validation.
Context `{!UnicodeLower} (zones : string -> option zone).

Definition check_hours (h : ActiveHours) : res unit :=
  fail_when bool_decide (zones (ah_timezone h) = None)
    with Errorf ("unknown time zone " +:+ ah_timezone h) ;;
  fail_when Z.ltb (ah_start_minute h) 0 || Z.leb 1440 (ah_start_minute h)
            || Z.ltb (ah_end_minute h) 0 || Z.ltb 1440 (ah_end_minute h)
            || Z.eqb (ah_start_minute h) (ah_end_minute h) || bool_decide (ah_weekdays h = [])
    with Errorf "bounded active hours required" ;;
  fail_when existsb (fun d => Z.ltb d 0 || Z.ltb 6 d) (ah_weekdays h) with ErrOwnerAuthority ;;
  Ok tt.

Definition ValidateOwnerMandate (m : Mandate) (now : Z) : res unit :=
  fail_when bool_decide (om_id m = "") || bool_decide (om_owner_id m = "")
            || negb (bool_decide (om_scope_kind m = "owner_goal"))
            || bool_decide (om_goal_id m = "") || Z.leb (om_goal_revision m) 0
            || Z.leb (om_revision m) 0 || negb (bool_decide (om_task_id m = ""))
            || bool_decide (om_purpose m = "") with ErrOwnerAuthority ;;
  fail_when negb (bool_decide (om_status m ∈ ["active"; "paused"; "revoked"]))
    with ErrOwnerAuthority ;;
  fail_when bool_decide (om_status m = "active") && negb (After (om_expires_at m) now)
            || After (om_expires_at m) (now + 366 * 24 * hour) || IsZero (om_budget_deadline m)
            || Z.eqb (om_revision m) 1 && After (om_budget_deadline m) (om_expires_at m)
    with Errorf "mandate requires a finite deadline within one year and immutable budget deadline" ;;
  fail_when negb (bool_decide (om_privacy m = "local_only"))
            && negb (bool_decide (om_privacy m = "cloud_allowed"))
    with Errorf "explicit model privacy policy required" ;;
  fail_when bool_decide (om_tools m = []) || Nat.ltb 64 (length (om_tools m))
            || bool_decide (length (om_resource_scopes m) = 0%nat)
            || Nat.ltb 64 (length (om_resource_scopes m)) || bool_decide (om_effects m = [])
            || bool_decide (om_intervention m = []) || bool_decide (om_reporting m = "")
    with Errorf "purpose, bounded capabilities/resources, intervention and reporting required" ;;
  fail_when negb (bool_decide (om_reporting m ∈ ["exceptions"; "daily"; "each_result"]))
    with Errorf "explicit reporting policy required" ;;
  fail_when negb (forallb (fun b => bool_decide (b ∈ ["effect_unknown"; "scope_change";
                     "budget_exhausted"; "credential_required"])) (om_intervention m))
    with Errorf "unsupported intervention boundary" ;;
  fail_when negb (forallb tool_name_ok (om_tools m ++ om_deny_tools m))
    with Errorf "exact tool names required" ;;
  fail_when negb (forallb validResourceScope (om_resource_scopes m ++ om_deny_resources m))
    with Errorf "exact origin and canonical path prefix required" ;;
  fail_when negb (forallb effect_ok (om_effects m)) with ErrOwnerAuthority ;;
  fail_when negb (forallb credential_ok (om_credential_refs m))
    with Errorf "exact credential metadata references required" ;;
  fail_when negb (forallb (fun n => Z.leb 0 n && Z.leb n (2 ^ 50)) (budget_values (om_budget m)))
    with Errorf "finite nonnegative budget required" ;;
  fail_when Z.eqb (mb_model_turns (om_budget m)) 0 || Z.eqb (mb_tokens (om_budget m)) 0
            || Z.eqb (mb_active_millis (om_budget m)) 0
    with Errorf "positive model, token and duration limits required" ;;
  _ <-! match om_hours m with None => Ok tt | Some h => check_hours h end ;;
  _ <-! check_extensions (om_tools m) (om_extensions m) ;;
  fail_when Nat.ltb 8 (length (om_converters m)) with ErrOwnerAuthority ;;
  check_converters (om_tools m) [] (om_converters m).

(** A resource of a task mandate: an exact tool, or an HTTP(S) origin. *)
Definition task_resource_check (resource : string) : res unit :=
  if HasPrefix resource "tool:" then
    fail_when ContainsAny resource ["*"; "?"; " "]%char
      with Errorf "tool resource must be exact" ;; Ok tt
  else
    let e := Errorf "mandate resources must be exact HTTP(S) origins or exact tool resources" in
    match Parse resource with
    | None => Err e
    | Some u =>
        fail_when negb (bool_decide (u_user u = None)) || bool_decide (Hostname u = [])
                  || negb (bool_decide (u_scheme u = lit "http"))
                     && negb (bool_decide (u_scheme u = lit "https"))
                  || negb (bool_decide (u_path u = [])) && negb (bool_decide (u_path u = ["/"%char]))
                  || negb (bool_decide (u_raw_query u = [])) || negb (bool_decide (u_fragment u = []))
                  || ContainsAny (str (u_host u)) ["*"; "?"]%char with e ;; Ok tt
    end.

Fixpoint check_task_resources (resources : list string) : res unit :=
  match resources with
  | [] => Ok tt
  | r :: rest => _ <-! task_resource_check r ;; check_task_resources rest
  end.

Definition ValidateMandate (m : Mandate) (now : Z) : res unit :=
  if bool_decide (om_scope_kind m = "owner_goal") then ValidateOwnerMandate m now else
  fail_when bool_decide (om_id m = "") || bool_decide (om_owner_id m = "")
            || bool_decide (om_task_id m = "") || Z.leb (om_task_revision m) 0
            || Z.leb (om_constraints_revision m) 0 || Z.leb (om_revision m) 0
    with Errorf "mandate identity and current task versions are required" ;;
  fail_when negb (After (om_expires_at m) now) || After (om_expires_at m) (now + 7 * 24 * hour)
    with Errorf "mandate expiry must be within seven days" ;;
  fail_when bool_decide (om_tools m = []) || Nat.ltb 64 (length (om_tools m))
            || bool_decide (om_resources m = []) || Nat.ltb 64 (length (om_resources m))
            || bool_decide (om_effects m = [])
    with Errorf "bounded tools, resources and effects are required" ;;
  fail_when negb (forallb tool_name_ok (om_tools m)) with Errorf "mandate tools must be exact names" ;;
  _ <-! check_task_resources (om_resources m) ;;
  fail_when negb (forallb effect_ok (om_effects m)) with Errorf "unsupported mandate effect" ;;
  fail_when negb (forallb credential_ok (om_credential_refs m))
    with Errorf "mandate credential fields must be exact" ;;
  Ok tt.

(** [CheckExtensionAttachment]: the first permission that matches decides. *)
Fixpoint attachment_loop (m : Mandate) (source id manifest : string) (tools : list string)
    (permissions : list ExtensionPermission) : res unit :=
  match permissions with
  | [] => Err ErrOwnerAuthority
  | p :: rest =>
      if bool_decide (xp_source p = source) && bool_decide (xp_extension_id p = id)
         && bool_decide (xp_manifest_hash p = manifest) then
        fail_when existsb (fun t => negb (contains (xp_tools p) t) || contains (om_deny_tools m) t) tools
          with ErrOwnerAuthority ;; Ok tt
      else attachment_loop m source id manifest tools rest
  end.

(** The mandate is in force at an instant. *)
Definition in_force (m : Mandate) (at_ : Z) : bool :=
  bool_decide (om_scope_kind m = "owner_goal") && bool_decide (om_status m = "active")
  && bool_decide (om_revoked_at m = None) && After (om_expires_at m) at_
  && WithinActiveHours zones (om_hours m) at_.

Definition CheckExtensionAttachment (m : Mandate) (source id manifest : string)
    (tools : list string) (at_ : Z) : res unit :=
  fail_when negb (in_force m at_) with ErrOwnerAuthority ;;
  attachment_loop m source id manifest tools (om_extensions m).

Definition AllowsConverterAttachment (m : Mandate) (expected : ConverterPermission) (at_ : Z) : bool :=
  is_ok (Converter_Validate expected) && in_force m at_
  && negb (contains (om_deny_tools m) (converter_tool (cv_converter_id expected)))
  && bool_decide (expected ∈ om_converters m).
End validation.

(** ** The actions a mandate allows *)

(** [ContractHash(Contract(name))] of the packages of control tools; [None]
    when there is no contract with the name. *)
Record ContractHashes := mkContractHashes {
  ch_schedule : string -> option (res string);
  ch_catalog : string -> option (res string);
  ch_credential : string -> option (res string);
  ch_communication : string -> res string;
}.

(** [schedulecontrol.ReadOnly]. *)
Definition schedule_read_only (name : string) : bool :=
  bool_decide (name = "schedule.list") || bool_decide (name = "schedule.get").

(** The identity of an opaque browser context. *)
Definition BrowserContextRead (b : ActionBinding) : bool :=
  if negb (bool_decide (ab_effect b = EffectRead)) || negb (no_refs b) then false
  else if negb (bool_decide (ab_tool_name b ∈ ["browser.snapshot"; "browser.freeze_snapshot";
                  "browser.extract_text"; "browser.close"])) then false
  else
    let id := TrimSuffix (TrimPrefix (ab_resource b) "browser:") ":" in
    hex_decodes id && Z.eqb (go_len id) 32
    && bool_decide (ab_resource b = "browser:" +:+ id +:+ ":")
    && negb (ContainsAny id [":"; "/"; "\"]%char).

Section rules.
Context `{!UnicodeLower} `{!UnicodeFold} (zones : string -> option zone) (hashes : ContractHashes).

Definition rules : ScopeRules := scope_rules (ch_credential hashes) (ch_communication hashes).

Definition standardScheduleAction (b : ActionBinding) : bool :=
  match ch_schedule hashes (ab_tool_name b) with
  | None => false
  | Some hash =>
      bool_decide (ab_resource b = "tool:" +:+ ab_tool_name b) && no_refs b
      && bool_decide (hash = Ok (ab_contract_hash b))
      && bool_decide (ab_effect b =
           if schedule_read_only (ab_tool_name b) then EffectRead else EffectPrepare)
  end.

Definition standardCatalogAction (b : ActionBinding) : bool :=
  match ch_catalog hashes (ab_tool_name b) with
  | None => false
  | Some hash =>
      bool_decide (ab_resource b = "tool:" +:+ ab_tool_name b)
      && bool_decide (ab_effect b = EffectRead) && no_refs b
      && bool_decide (hash = Ok (ab_contract_hash b))
  end.

(** A control action every owner mandate includes. *)
Definition standard_action (b : ActionBinding) : bool :=
  standardScheduleAction b || standardCatalogAction b || standardCredentialControl rules b.

Definition ownerReplyResource (b : ActionBinding) : bool :=
  bool_decide (ab_effect b = EffectPrepare)
  && bool_decide (ab_resource b = "tool:" +:+ ab_tool_name b) && no_refs b
  && Z.eqb (go_len (ab_communication_destinations_hash b)) 64
  && bool_decide (ch_communication hashes (ab_tool_name b) = Ok (ab_contract_hash b)).

Definition validSSOInspection (b : ActionBinding) : bool :=
  bool_decide (ab_tool_name b = browsersso.InspectTool) && bool_decide (ab_effect b = EffectRead)
  && match ab_browser_sso_inspection b with
     | Some a => is_ok (browsersso.Inspection_Validate a)
     | None => false
     end.

(** The destinations of the inspection, of the provider and of the login. *)
Definition inspection_targets (b : ActionBinding) : list string :=
  match ab_browser_sso_inspection b with
  | Some a => browsersso.Inspection_Targets a | None => []
  end.
Definition external_targets (b : ActionBinding) : list string :=
  match ab_external_auth b with Some s => externalauth.External_Targets s | None => [] end.
Definition sso_targets (b : ActionBinding) : list string :=
  match ab_browser_sso b with Some s => browsersso.SSO_Targets s | None => [] end.

(** Any destination of the action is in the scope. *)
Definition scopedResourceWithin (s : ResourceScope) (b : ActionBinding) : bool :=
  validSSOInspection b && existsb (resourceWithin s) (inspection_targets b)
  || validExternalScope b && existsb (resourceWithin s) (external_targets b)
  || validSSOScope rules b && existsb (resourceWithin s) (sso_targets b)
  || resourceWithin s (ab_resource b)
  || BrowserContextRead b && negb (bool_decide (ab_browser_scope_url b = ""))
     && resourceWithin s (ab_browser_scope_url b)
  || match ab_browser_page b with
     | Some page => browserpage.IsPageTool (ab_tool_name b) && resourceWithin s (pb_url page)
     | None => false
     end.

(** Every target is in one of the scopes of the mandate. *)
Definition all_targets_within (m : Mandate) (targets : list string) : bool :=
  forallb (fun t => existsb (fun s => resourceWithin s t) (om_resource_scopes m)) targets.
Definition ssoOwnerResources (m : Mandate) (b : ActionBinding) : bool :=
  validSSOScope rules b && all_targets_within m (sso_targets b).
Definition externalOwnerResources (m : Mandate) (b : ActionBinding) : bool :=
  validExternalScope b && all_targets_within m (external_targets b).
Definition inspectionOwnerResources (m : Mandate) (b : ActionBinding) : bool :=
  validSSOInspection b && all_targets_within m (inspection_targets b).

(** A federated scope that is present is valid. *)
Definition federated_ok (b : ActionBinding) : bool :=
  (bool_decide (ab_browser_sso_inspection b = None) || validSSOInspection b)
  && (bool_decide (ab_external_auth b = None) || validExternalScope b)
  && (bool_decide (ab_browser_sso b = None) || validSSOScope rules b).

(** The resource of the action; a federated scope replaces the rule, the
    inspection last. *)
Definition resource_ok (m : Mandate) (b : ActionBinding) : bool :=
  let ok := standard_action b || ownerReplyResource b
            || existsb (fun s => scopedResourceWithin s b) (om_resource_scopes m) in
  let ok := if bool_decide (ab_browser_sso b = None) then ok else ssoOwnerResources m b in
  let ok := if bool_decide (ab_external_auth b = None) then ok else externalOwnerResources m b in
  if bool_decide (ab_browser_sso_inspection b = None) then ok else inspectionOwnerResources m b.

Definition ownerMandateAllows (m : Mandate) (b : ActionBinding) (at_ : Z) : bool :=
  if negb (federated_ok b) then false else
  if negb (bool_decide (ab_browser_scope_url b = "")) && negb (BrowserContextRead b) then false else
  if negb (in_force zones m at_) || negb (bool_decide (om_owner_id m = ab_owner_id b))
     || negb (bool_decide (om_goal_id m = ab_goal_id b))
     || negb (Z.eqb (om_goal_revision m) (ab_goal_revision b))
     || negb (bool_decide (om_id m = ab_mandate_id b))
     || negb (Z.eqb (om_revision m) (ab_mandate_revision b))
     || negb (bool_decide (om_purpose m = ab_purpose b))
     || contains (om_deny_tools m) (ab_tool_name b)
     || negb (contains (om_tools m) (ab_tool_name b)) && negb (standard_action b) then false else
  if existsb (fun s => scopedResourceWithin s b) (om_deny_resources m) then false else
  if negb (resource_ok m b) || negb (contains (om_effects m) (ab_effect b)) then false else
  forallb (fun r => bool_decide (r ∈ om_credential_refs m) || vaultRequestBinding rules b) (refs_of b).

Definition CheckAssignedAction (m : Mandate) (b : ActionBinding) (at_ : Z) : res unit :=
  fail_when negb (ownerMandateAllows m b at_) with ErrOwnerAuthority ;; Ok tt.

(** The origin of a resource, when it has one. *)
Definition resource_origin (raw : string) : string :=
  let resource := resource_url raw in
  match Parse resource with
  | Some u => if bool_decide (Hostname u = []) then resource
              else ToLower (str (u_scheme u) +:+ "://" +:+ str (u_host u))
  | None => resource
  end.

Definition mandateAllows (m : Mandate) (b : ActionBinding) (now : Z) : bool :=
  if (negb (bool_decide (ab_browser_sso b = None)) || negb (bool_decide (ab_external_auth b = None)))
     && negb (bool_decide (om_scope_kind m = "owner_goal")) then false else
  if bool_decide (om_scope_kind m = "owner_goal") then ownerMandateAllows m b now else
  if negb (bool_decide (om_revoked_at m = None)) || negb (After (om_expires_at m) now)
     || negb (bool_decide (om_owner_id m = ab_owner_id b))
     || negb (bool_decide (om_task_id m = ab_task_id b))
     || negb (Z.eqb (om_task_revision m) (ab_task_revision b))
     || negb (Z.eqb (om_constraints_revision m) (ab_constraints_revision b)) then false else
  if negb (contains (om_tools m) (ab_tool_name b)) && negb (standardCatalogAction b) then false else
  if negb (contains (om_effects m) (ab_effect b)) then false else
  if negb (standardCatalogAction b
           || existsb (fun allowed => bool_decide (TrimSuffix (ToLower allowed) "/"
                                                   = TrimSuffix (resource_origin (ab_resource b)) "/"))
                (om_resources m)) then false else
  forallb (fun r => bool_decide (r ∈ om_credential_refs m)) (refs_of b).

(** [releaseMandateAllowed]. *)
Definition releaseMandateAllowed (m : Mandate) (b : ActionBinding) (requires : bool) (at_ : Z) : bool :=
  mandateAllows m b at_
  && (negb requires || bool_decide (om_scope_kind m = "owner_goal")
                       && negb (bool_decide (ab_purpose b = ""))
                       && negb (bool_decide (ab_goal_id b = ""))).

Definition CheckDenyOverrides (b : ActionBinding) (tools : list string)
    (resources : list ResourceScope) : res unit :=
  fail_when negb (federated_ok b) with ErrOwnerAuthority ;;
  fail_when contains tools (ab_tool_name b) with ErrOwnerAuthority ;;
  fail_when existsb (fun s => scopedResourceWithin s b) resources with ErrOwnerAuthority ;;
  Ok tt.

(** [delegationAllows]. *)
Definition delegationAllows (c : option Contract) (b : ActionBinding) : bool :=
  standardCatalogAction b
  || Allows c (ab_tool_name b) (ab_contract_hash b) (ab_resource b) (ab_effect b)
       ((fun r => mkCredRef (cr_alias r) (cr_field r)) <$> refs_of b).

(** ** Tables *)

(** A row of [action_mandates]; [mt_data] is [mandate_data]. *)
Record MandateTableRow := mkMandateTableRow {
  mt_owner_id : string;
  mt_revision : Z;
  mt_data : Mandate;
  mt_status : string;
  mt_scope_kind : string;
  mt_goal_id : option string;
  mt_goal_revision : Z;
  mt_expires_at : Z;
  mt_revoked_at : option Z;
}.

(** A row of [owner_goals]. *)
Record GoalRow := mkGoalRow {
  gl_owner_id : string;
  gl_kind : string;
  gl_status : string;
  gl_revision : Z;
  gl_expires_at : Z;
  gl_data : GoalPolicy;
}.

(** [task_authority_bindings] by task, [action_mandates], [owner_goals], the
    revisions of [owner_purpose_policies] by owner and purpose, and
    [task_delegations], which may be absent. *)
Record authority_db := mkAuthorityDb {
  ad_assignments : gmap string Assignment;
  ad_mandates : gmap string MandateTableRow;
  ad_goals : gmap string GoalRow;
  ad_purposes : gmap (string * string) Z;
  ad_delegations : option (gmap string delegation_row);
}.

(** The error of the n-th query, and the answers of
    [butler_task_check_schedule] and [butler_task_check_delegation]. *)
Record authority_env := mkAuthorityEnv {
  ae_fault : nat -> option error;
  ae_check_schedule : string -> res unit;
  ae_check_delegation : string -> res unit;
}.

Definition query {A} (env : authority_env) (n : nat) (k : res A) : res A :=
  match ae_fault env n with Some e => Err e | None => k end.

(** The stored text is read back, or refused. *)
Definition decode_data {A} `{!Column A} (data : A) : res A := or_else ErrOwnerAuthority (column data).

(** Rows in the order of their key. *)
Definition id_le {A} (x y : string * A) : Prop := string_le x.1 y.1.
#[global] Instance id_le_dec {A} (x y : string * A) : base.Decision (id_le x y).
Proof. unfold id_le. apply _. Defined.
Definition in_order {A} (rows : gmap string A) : list (string * A) := merge_sort id_le (map_to_list rows).

Definition empty_assignment : Assignment := mkAssignment "" "" "" 0 "" 0 "" "" "" 0.

(** The columns of the row replace what its JSON says. *)
Definition with_row (m : Mandate) (r : MandateTableRow) : Mandate :=
  mkOwnerMandate (mt_scope_kind r) (om_goal_id m) (om_goal_revision m) (mt_status r) (om_purpose m)
    (om_resource_scopes m) (om_deny_tools m) (om_deny_resources m) (om_privacy m) (om_budget m)
    (om_budget_deadline m) (om_hours m) (om_allow_initiative m) (om_intervention m)
    (om_reporting m) (om_extensions m) (om_converters m) (om_source m) (om_id m) (om_owner_id m)
    (om_task_id m) (om_task_revision m) (om_constraints_revision m) (mt_revision r) (om_tools m)
    (om_resources m) (om_effects m) (om_credential_refs m) (mt_expires_at r) (mt_revoked_at r).

Definition with_goal_row (g : GoalPolicy) (id : string) (r : GoalRow) (owner status : string)
    (policies : list GoalPolicy) : GoalPolicy :=
  mkGoalPolicy id owner (gl_kind r) status (gl_revision r) (gp_title g) (gp_purpose g)
    (gp_constraints g) (gl_expires_at r) policies.

(** ** Checks inside a transaction *)

Section transactions.
Context `{!Column Mandate} `{!Column GoalPolicy} (env : authority_env) (db : authority_db).

Definition GetTaskAssignment (n : nat) (taskID : string) : res Assignment :=
  query env n (Ok (default empty_assignment (ad_assignments db !! taskID))).

(** The active preferences and constraints of the purpose. *)
Definition purpose_rows (owner purpose : string) : list (string * GoalRow) :=
  filter (fun kr => gl_owner_id kr.2 = owner /\ gp_purpose (gl_data kr.2) = purpose
                    /\ gl_kind kr.2 ∈ ["preference"; "constraint"] /\ gl_status kr.2 = "active")
    (in_order (ad_goals db)).

Fixpoint read_policies (owner : string) (at_ : Z) (rows : list (string * GoalRow)) :
    res (list GoalPolicy) :=
  match rows with
  | [] => Ok []
  | (id, r) :: rest =>
      policy <-! decode_data (gl_data r) ;;
      fail_when negb (After (gl_expires_at r) at_) with ErrOwnerAuthority ;;
      more <-! read_policies owner at_ rest ;;
      Ok (with_goal_row policy id r owner "active" [] :: more)
  end.

(** [CheckAssignmentTx]; its queries start at the n-th. *)
Definition CheckAssignmentTx (n : nat) (a : Assignment) (at_ : Z) : res (Mandate * GoalPolicy) :=
  row <-! query env n (match ad_mandates db !! as_mandate_id a with
                       | None => Err ErrOwnerAuthority | Some r => Ok r end) ;;
  data <-! decode_data (mt_data row) ;;
  let m := with_row data row in
  fail_when negb (bool_decide (mt_owner_id row = as_owner_id a))
            || negb (bool_decide (om_owner_id m = mt_owner_id row))
            || negb (bool_decide (mt_scope_kind row = "owner_goal"))
            || negb (Z.eqb (mt_revision row) (as_mandate_revision a))
            || negb (bool_decide (default "" (mt_goal_id row) = as_goal_id a))
            || negb (Z.eqb (mt_goal_revision row) (as_goal_revision a))
            || negb (bool_decide (mt_status row = "active"))
            || negb (bool_decide (mt_revoked_at row = None))
            || negb (After (mt_expires_at row) at_)
            || negb (bool_decide (om_purpose m = as_purpose a))
            || negb (WithinActiveHours zones (om_hours m) at_) with ErrOwnerAuthority ;;
  grow <-! query env (n + 1) (match ad_goals db !! as_goal_id a with
                              | None => Err ErrOwnerAuthority | Some r => Ok r end) ;;
  goal <-! decode_data (gl_data grow) ;;
  fail_when negb (bool_decide (gl_owner_id grow = as_owner_id a))
            || negb (bool_decide (gl_kind grow = "objective"))
            || negb (bool_decide (gl_status grow = "active"))
            || negb (Z.eqb (gl_revision grow) (as_goal_revision a))
            || negb (After (gl_expires_at grow) at_)
            || negb (bool_decide (gp_purpose goal = as_purpose a)) with ErrOwnerAuthority ;;
  revision <-! query env (n + 2) (match ad_purposes db !! (as_owner_id a, as_purpose a) with
                                  | None => Err ErrOwnerAuthority | Some r => Ok r end) ;;
  fail_when negb (Z.eqb revision (as_policy_revision a)) with ErrOwnerAuthority ;;
  policies <-! query env (n + 3)
                 (read_policies (as_owner_id a) at_ (purpose_rows (as_owner_id a) (as_purpose a))) ;;
  Ok (m, with_goal_row goal (as_goal_id a) grow (gl_owner_id grow) (gl_status grow)
           (gp_policies goal ++ policies)).

(** [scheduling.CheckTaskTx] and [delegation.CheckTaskTx]. *)
Definition check_task (guard : string -> res unit) (taskID : string) : res unit :=
  if bool_decide (taskID = "") then Ok tt else guard taskID.

Definition CheckTaskAuthorityTx (n : nat) (taskID ownerID : string) (expected : option Assignment)
    (at_ : Z) : res Assignment :=
  _ <-! check_task (ae_check_schedule env) taskID ;;
  _ <-! check_task (ae_check_delegation env) taskID ;;
  a <-! GetTaskAssignment n taskID ;;
  if bool_decide (as_task_id a = "") then
    match expected with
    | Some x => fail_when negb (bool_decide (as_goal_id x = "")) with ErrOwnerAuthority ;; Ok a
    | None => Ok a
    end
  else
    fail_when negb (bool_decide (as_owner_id a = ownerID))
              || match expected with
                 | None => false
                 | Some x =>
                     negb (bool_decide (as_goal_id x = as_goal_id a))
                     || negb (Z.eqb (as_goal_revision x) (as_goal_revision a))
                     || negb (bool_decide (as_mandate_id x = as_mandate_id a))
                     || negb (Z.eqb (as_mandate_revision x) (as_mandate_revision a))
                     || negb (bool_decide (as_purpose x = as_purpose a))
                     || negb (Z.eqb (as_policy_revision x) (as_policy_revision a))
                 end with ErrOwnerAuthority ;;
    _ <-! CheckAssignmentTx (n + 1) a at_ ;;
    Ok a.

(** The active mandates of a goal. *)
Definition goal_mandates (goalID ownerID : string) (at_ : Z) : list (string * MandateTableRow) :=
  filter (fun kr => mt_goal_id kr.2 = Some goalID /\ mt_owner_id kr.2 = ownerID
                    /\ mt_scope_kind kr.2 = "owner_goal" /\ mt_status kr.2 = "active"
                    /\ mt_revoked_at kr.2 = None /\ at_ < mt_expires_at kr.2)
    (in_order (ad_mandates db)).

Fixpoint read_denials (rows : list (string * MandateTableRow)) : res (list string * list ResourceScope) :=
  match rows with
  | [] => Ok ([], [])
  | (_, r) :: rest =>
      m <-! decode_data (mt_data r) ;;
      more <-! read_denials rest ;;
      Ok (om_deny_tools m ++ more.1, om_deny_resources m ++ more.2)
  end.

Definition ReadGoalDenialsTx (n : nat) (goalID ownerID : string) (at_ : Z) :
    res (list string * list ResourceScope) :=
  query env n (read_denials (goal_mandates goalID ownerID at_)).

(** The assignment the binding names. *)
Definition bound_assignment (b : ActionBinding) : Assignment :=
  mkAssignment "" "" (ab_goal_id b) (ab_goal_revision b) (ab_mandate_id b) (ab_mandate_revision b)
    (ab_purpose b) "" "" (ab_owner_policy_revision b).

Definition CheckTaskActionTx (b : ActionBinding) (at_ : Z) : res unit :=
  d <-! LoadTx (ae_fault env 0) (ad_delegations db) (ab_task_id b) ;;
  fail_when negb (delegationAllows d b) with Delegation.ErrDenied ;;
  a <-! CheckTaskAuthorityTx 1 (ab_task_id b) (ab_owner_id b) (Some (bound_assignment b)) at_ ;;
  if bool_decide (as_task_id a = "") then Ok tt else
  mg <-! CheckAssignmentTx 6 a at_ ;;
  _ <-! CheckAssignedAction mg.1 b at_ ;;
  denials <-! ReadGoalDenialsTx 10 (as_goal_id a) (as_owner_id a) at_ ;;
  CheckDenyOverrides b denials.1 denials.2.

(** [ResolveBudgetAuthority]; [None] is a task without a mandate. *)
Definition ResolveBudgetAuthority (taskID ownerID : string) (at_ : Z) : res (option MandateScope) :=
  _ <-! query env 0 (Ok tt) ;;
  a <-! CheckTaskAuthorityTx 1 taskID ownerID None at_ ;;
  if bool_decide (as_task_id a = "") then Ok None else
  mg <-! CheckAssignmentTx 6 a at_ ;;
  deadline <-! AuthorityDeadline zones mg.1 mg.2 at_ ;;
  let b := om_budget mg.1 in
  Ok (Some (mkMandate (as_mandate_id a) ownerID (om_privacy mg.1)
              (mkUnits (mb_model_turns b) (mb_tokens b) (mb_cost_micros b) (mb_external_calls b)
                 (mb_children b) (mb_active_millis b) (mb_egress_bytes b) (mb_provider_input_bytes b))
              (om_budget_deadline mg.1) deadline)).
End transactions.

(** [CheckTaskActionTx] as the guard of a dispatch: [tables] are the tables of
    the authority in the database of the journal. *)
Definition task_action `{!Column Mandate} `{!Column GoalPolicy} {R}
    (envs : effect_env -> authority_env) (tables : effect_db R -> authority_db)
    (env : effect_env) (db : effect_db R) (b : ActionBinding) (at_ : Z) : res unit :=
  CheckTaskActionTx (envs env) (tables db) b at_.
End rules.
