(* ===== verification/MandateProofs.v ===== *)
(** * MandateProofs: what an owner's mandate guarantees

    The instant authority ends ([AuthorityDeadline]), the confinement of a
    resource to its scope, and the authority behind every dispatch of a task
    that has a mandate. *)
From Stdlib Require Import Ascii.
From stdpp Require Import gmap sorting.
From S2P Require Import Prelude GoStrings GoBytes GoHash GoTime GoNet GoUrl Ownership Run Budget Scheduling Input Delegation Approval Effect EffectProofs BrowserScope EffectExternal Mandate.
Open Scope Z_scope.
Open Scope go_scope.

(** ** Minutes *)

(** From the second [from] on, the offsets of the zone are whole minutes and
    change only at the start of a minute. *)
Definition whole_minutes (off : zone) (from : Z) : Prop :=
  forall s, from <= s -> off s mod 60 = 0 /\ off (s / 60 * 60) = off s.

Definition minute_start (t : Z) : Z := t / minute * minute.

Lemma minute_start_spec t : minute_start t <= t < minute_start t + minute.
Proof. unfold minute_start, minute, second. Z.to_euclidean_division_equations; lia. Qed.

Lemma Truncate_minute t : Truncate t minute = minute_start t.
Proof.
  unfold Truncate, minute_start, zero_time, minute, second. simpl.
  Z.to_euclidean_division_equations; lia.
Qed.

Lemma unix_minute t : unix_seconds (minute_start t) = unix_seconds t / 60 * 60.
Proof. unfold unix_seconds, minute_start, minute, second. Z.to_euclidean_division_equations; lia. Qed.

(** The hours are decided by the minute. *)
Lemma withinHours_minute h off from t : whole_minutes off from -> from <= unix_seconds t ->
  withinHours h off t = withinHours h off (minute_start t).
Proof.
  intros Hw Ht. destruct (Hw _ Ht) as [Hm Hs].
  assert (Hl : local_sec off t / 60 = local_sec off (minute_start t) / 60).
  { unfold local_sec. rewrite unix_minute Hs. revert Hm.
    generalize (off (unix_seconds t)) (unix_seconds t). intros o s Hm.
    Z.to_euclidean_division_equations; lia. }
  assert (Hday : local_day off t = local_day off (minute_start t)).
  { unfold local_day. revert Hl. generalize (local_sec off t) (local_sec off (minute_start t)).
    intros x y Hl. Z.to_euclidean_division_equations; lia. }
  assert (Hmin : local_sec off t mod 86400 / 60 = local_sec off (minute_start t) mod 86400 / 60).
  { revert Hl. generalize (local_sec off t) (local_sec off (minute_start t)).
    intros x y Hl. Z.to_euclidean_division_equations; lia. }
  unfold withinHours. by rewrite Hday Hmin.
Qed.

(** ** The walk to the closing boundary *)

Lemma closing_boundary_Some h off fuel b0 b : closing_boundary h off fuel b0 = Some b ->
  exists k, b = b0 + Z.of_nat k * minute /\ withinHours h off b = false
    /\ forall j, (j < k)%nat -> withinHours h off (b0 + Z.of_nat j * minute) = true.
Proof.
  revert b0. induction fuel as [|fuel IH]; intros b0; simpl; [done|].
  destruct (withinHours h off b0) eqn:E; simpl.
  - intros (k & -> & Hb & Hj)%IH. exists (S k). split_and!; [lia|done|].
    intros [|j] Hlt; [by rewrite Z.add_0_r|].
    replace (b0 + Z.of_nat (S j) * minute) with (b0 + minute + Z.of_nat j * minute) by lia.
    apply Hj. lia.
  - intros [= <-]. exists O. split_and!; [lia|done|lia].
Qed.

Lemma closing_boundary_None h off fuel b0 :
  (forall j, (j < fuel)%nat -> withinHours h off (b0 + Z.of_nat j * minute) = true) ->
  closing_boundary h off fuel b0 = None.
Proof.
  revert b0. induction fuel as [|fuel IH]; intros b0 Hj; simpl; [done|].
  pose proof (Hj O ltac:(lia)) as H0. rewrite Z.add_0_r in H0. rewrite H0 /=. apply IH.
  intros j Hlt. pose proof (Hj (S j) ltac:(lia)) as H1.
  by replace (b0 + minute + Z.of_nat j * minute) with (b0 + Z.of_nat (S j) * minute) by lia.
Qed.

(** Every instant before the boundary is inside the hours. *)
Lemma open_until_boundary h off fuel at_ b : whole_minutes off (unix_seconds at_) ->
  withinHours h off at_ = true ->
  closing_boundary h off fuel (Truncate at_ minute + minute) = Some b ->
  forall t, at_ <= t < b -> withinHours h off t = true.
Proof.
  intros Hw Hat Hb t Ht. rewrite Truncate_minute in Hb.
  apply closing_boundary_Some in Hb as (k & -> & _ & Hj).
  assert (Hs : unix_seconds at_ <= unix_seconds t).
  { unfold unix_seconds. apply Z.div_le_mono; unfold second; lia. }
  rewrite (withinHours_minute _ _ _ _ Hw Hs).
  pose proof (minute_start_spec t). pose proof (minute_start_spec at_).
  assert (Hq : at_ / minute <= t / minute) by (apply Z.div_le_mono; unfold minute, second; lia).
  destruct (decide (t / minute = at_ / minute)) as [E|E].
  - unfold minute_start. rewrite E. rewrite (withinHours_minute _ _ (unix_seconds at_)) in Hat; [done|lia|done].
  - replace (minute_start t)
      with (minute_start at_ + minute + Z.of_nat (Z.to_nat (t / minute - at_ / minute - 1)) * minute)
      by (rewrite Z2Nat.id; [lia|unfold minute_start; ring]).
    apply Hj. revert Ht. unfold minute_start, minute, second in *.
    Z.to_euclidean_division_equations; lia.
Qed.

(** ** Expiries *)

Lemma earlier_min a b : earlier a b = Z.min a b.
Proof. unfold earlier, Before. destruct (Z.ltb_spec b a); lia. Qed.

Lemma tighten_Ok d cs d' : tighten d cs = Ok d' ->
  d' = foldr Z.min d cs /\ Forall (fun c => IsZero c = false) cs.
Proof.
  revert d. induction cs as [|c cs IH]; intros d; simpl.
  { intros [= ->]. split; [done|constructor]. }
  intros [Hz Ht]%fail_if_Ok. apply IH in Ht as [-> Hall]. split; [|by constructor].
  rewrite earlier_min. clear. induction cs as [|x cs IH]; simpl; [lia|]. rewrite IH. lia.
Qed.

Lemma foldr_min_le d cs : foldr Z.min d cs <= d /\ Forall (fun c => foldr Z.min d cs <= c) cs.
Proof.
  induction cs as [|c cs [IH1 IH2]]; simpl; [split; [lia|constructor]|]. split; [lia|].
  constructor; [lia|]. apply (Forall_impl _ _ _ IH2). intros x Hx. lia.
Qed.

Lemma foldr_min_in d cs : foldr Z.min d cs ∈ d :: cs.
Proof.
  induction cs as [|c cs IH]; simpl; [apply list_elem_of_here|].
  destruct (Z.min_spec c (foldr Z.min d cs)) as [[_ ->]|[_ ->]]; [set_solver|].
  apply elem_of_cons in IH as [->|IH]; set_solver.
Qed.

(** The expiries that bound the authority. *)
Definition expiries (m : Mandate) (g : GoalPolicy) : list Z :=
  om_expires_at m :: om_budget_deadline m :: gp_expires_at g :: (gp_expires_at <$> gp_policies g).

Lemma tighten_all m g d1 d2 :
  tighten (om_expires_at m) [om_budget_deadline m; gp_expires_at g] = Ok d1 ->
  tighten d1 (gp_expires_at <$> gp_policies g) = Ok d2 ->
  Forall (fun c => d2 <= c) (expiries m g) /\ d2 ∈ expiries m g.
Proof.
  intros [-> _]%tighten_Ok [-> _]%tighten_Ok. unfold expiries. cbn [foldr].
  set (d1 := om_budget_deadline m `min` _). set (ps := gp_expires_at <$> gp_policies g).
  destruct (foldr_min_le d1 ps) as [H1 H2]. split.
  - repeat (apply Forall_cons; split; [unfold d1 in *; lia|]). done.
  - pose proof (foldr_min_in d1 ps) as [->|H3]%elem_of_cons; [|set_solver].
    unfold d1. destruct (Z.min_spec (om_budget_deadline m) (gp_expires_at g `min` om_expires_at m))
      as [[_ ->]|[_ ->]]; [set_solver|].
    destruct (Z.min_spec (gp_expires_at g) (om_expires_at m)) as [[_ ->]|[_ ->]]; set_solver.
Qed.

(** ** When authority ends *)

(** C19: authority ends in time.  The deadline that [AuthorityDeadline] returns
    is in the future, no later than the expiry of the mandate, of its budget,
    of the goal and of every policy, and at every instant before it the active
    hours are open, also across a change of the zone's offset (in a zone whose
    offsets from then on are whole minutes); and it is tight: one of those
    expiries, or an instant at which the hours are closed. *)
Theorem authority_ends_in_time zones m g at_ d :
  AuthorityDeadline zones m g at_ = Ok d ->
  at_ < d /\ Forall (fun c => d <= c) (expiries m g)
  /\ (d ∈ expiries m g \/ WithinActiveHours zones (om_hours m) d = false)
  /\ (forall h off, om_hours m = Some h -> zones (ah_timezone h) = Some off ->
        whole_minutes off (unix_seconds at_) ->
        forall t, at_ <= t < d -> WithinActiveHours zones (om_hours m) t = true).
Proof.
  unfold AuthorityDeadline. intros H1.
  apply res_bind_Ok in H1 as (d1 & Hd1 & H1). apply res_bind_Ok in H1 as (d2 & Hd2 & H1).
  apply res_bind_Ok in H1 as (d3 & Hd3 & H1). apply fail_if_Ok in H1 as [Hend [= ->]].
  apply orb_false_iff in Hend as [_ Hend%negb_false_iff%Z.ltb_lt].
  destruct (tighten_all _ _ _ _ Hd1 Hd2) as [Hall Hin]. unfold WithinActiveHours.
  destruct (om_hours m) as [h|]; [|injection Hd3 as <-; split_and!; try done; by left].
  destruct (zones (ah_timezone h)) as [off|] eqn:Hz; [|done].
  apply fail_if_Ok in Hd3 as [Hat%negb_false_iff Hd3].
  destruct (closing_boundary _ _ _ _) as [b|] eqn:Hb; [|done]. injection Hd3 as Hd.
  rewrite earlier_min in Hd. subst d.
  split_and!; [done|apply (Forall_impl _ _ _ Hall); intros; lia|..].
  - destruct (Z.min_spec d2 b) as [[_ ->]|[_ ->]]; [by left|right].
    by apply closing_boundary_Some in Hb as (k & -> & ? & _).
  - intros h' off' [= <-] Hz' Hw t Ht. rewrite Hz in Hz'. injection Hz' as <-.
    apply (open_until_boundary _ _ _ _ _ Hw Hat Hb). lia.
Qed.

(** Hours that stay open for more than two days have no deadline: the walk
    ends before the boundary, and the authority is refused although the
    mandate is in force. *)
Theorem long_hours_are_refused zones m g at_ h off :
  om_hours m = Some h -> zones (ah_timezone h) = Some off ->
  (forall t, at_ <= t <= at_ + 48 * hour -> withinHours h off t = true) ->
  exists e, AuthorityDeadline zones m g at_ = Err e.
Proof.
  intros Hh Hz Hopen. destruct (AuthorityDeadline zones m g at_) as [d|e] eqn:E; [|by exists e].
  exfalso. unfold AuthorityDeadline in E. rewrite Hh Hz in E.
  apply res_bind_Ok in E as (d1 & _ & E). apply res_bind_Ok in E as (d2 & _ & E).
  apply res_bind_Ok in E as (d3 & Hd3 & _). apply fail_if_Ok in Hd3 as [_ Hd3].
  rewrite closing_boundary_None in Hd3; [|done]. intros j Hj. apply Hopen.
  rewrite Truncate_minute. pose proof (minute_start_spec at_). unfold hour, minute, second in *. lia.
Qed.

(** ** Resources stay in their scope *)

Section resources.
Context `{!UnicodeLower}.

(** The path of the URL, the root when it is empty. *)
Definition url_path (u : URL) : bytes := if bool_decide (u_path u = []) then ["/"%char] else u_path u.

Lemma canonical_path_plain u p raw : Parse raw = Some u -> u_host u <> [] ->
  browsersso.canonical_path u = Some p -> p = url_path u /\ Forall plain (elements p).
Proof.
  intros Hu Hh. unfold browsersso.canonical_path. fold (url_path u).
  destruct (_ || _) eqn:E; [done|]. intros [= <-]. split; [done|].
  apply orb_false_iff in E as [_ E]. apply andb_false_iff in E as [E|E].
  - apply negb_false_iff, bool_decide_eq_true in E. apply canonical_plain; [|done].
    unfold url_path. case_bool_decide as Hp; [done|]. by destruct (Parse_path _ _ Hu Hh).
  - apply negb_false_iff, bool_decide_eq_true in E. rewrite E. constructor.
Qed.

Lemma elements_trim p : elements (lit (TrimSuffix p "/")) = elements (lit p).
Proof.
  rewrite -{1}(str_lit p). destruct (TrimSuffix_slash (lit p)) as [->|(q & E & ->)]; rewrite lit_str //.
  by rewrite E elements_slash app_nil_r.
Qed.

Lemma path_within_elements pre p : browsersso.path_within pre p = true ->
  elements (lit pre) `prefix_of` elements p.
Proof.
  unfold browsersso.path_within. rewrite -(elements_trim pre). set (q := TrimSuffix pre "/").
  intros [[E|E]%orb_true_iff|E]%orb_true_iff.
  - apply bool_decide_eq_true in E. rewrite E. apply prefix_nil.
  - apply bool_decide_eq_true in E. by rewrite -E lit_str.
  - apply HasPrefix_spec in E as [t Ht]. rewrite -(lit_str p) Ht !lit_append -app_assoc.
    change (lit "/" ++ lit t) with ("/"%char :: lit t). rewrite elements_slash. by eexists.
Qed.

(** A resource is confined to a scope: it names the origin of the scope,
    without a user, and its path, which has no dot element, descends from the
    path of the scope. *)
Definition confined (origin path_prefix : string) (u : URL) : Prop :=
  u_user u = None /\ u_host u <> []
  /\ ToLower (str (u_scheme u) +:+ "://" +:+ str (u_host u)) = ToLower origin
  /\ Forall plain (elements (url_path u))
  /\ elements (lit path_prefix) `prefix_of` elements (url_path u).

(** C18: an action stays in its scope.  A resource that [resourceWithin]
    accepts is the tool the scope names, or a URL with the scope's origin and
    no user, whose decoded path has no dot element and descends from the path
    prefix element by element: neither a look-alike prefix nor a way up leaves
    the scope. *)
Theorem resource_confined scope raw : resourceWithin scope raw = true ->
  (HasPrefix (rs_origin scope) "tool:" = true /\ raw = rs_origin scope)
  \/ exists u, Parse (resource_url raw) = Some u /\ confined (rs_origin scope) (rs_path_prefix scope) u.
Proof.
  unfold resourceWithin. destruct (HasPrefix (rs_origin scope) "tool:").
  { intros [_ Hraw%bool_decide_eq_true]%andb_true_iff. by left. }
  destruct (Parse (resource_url raw)) as [u|] eqn:Hu; [|done].
  destruct (_ || _) eqn:E; [done|].
  destruct (browsersso.canonical_path u) as [p|] eqn:Hp; [|done]. intros Hw. right. exists u.
  apply orb_false_iff in E as [[E1%negb_false_iff%bool_decide_eq_true
    E2%bool_decide_eq_false]%orb_false_iff E3%negb_false_iff%bool_decide_eq_true].
  destruct (canonical_path_plain _ _ _ Hu E2 Hp) as [-> Hall].
  unfold confined. split_and!; try done. by apply path_within_elements.
Qed.
End resources.

(** ** The authority behind an action *)

Section authority.
Context `{!UnicodeLower} (zones : string -> option zone) (hashes : ContractHashes).
Context `{!Column Mandate} `{!Column GoalPolicy}.
Implicit Types (db : authority_db) (b : ActionBinding).

(** The mandate row is in force for the owner's goal. *)
Definition active_for (goal owner : string) (at_ : Z) (r : MandateTableRow) : Prop :=
  mt_goal_id r = Some goal /\ mt_owner_id r = owner /\ mt_scope_kind r = "owner_goal"
  /\ mt_status r = "active" /\ mt_revoked_at r = None /\ at_ < mt_expires_at r.

(** No active mandate of the goal denies the action. *)
Definition not_denied db b (goal owner : string) (at_ : Z) : Prop :=
  forall k r m, ad_mandates db !! k = Some r -> active_for goal owner at_ r -> column (mt_data r) = Ok m ->
  (ab_tool_name b ∉ om_deny_tools m)
  /\ forall s, s ∈ om_deny_resources m -> scopedResourceWithin hashes s b = false.

(** The mandate covers the action. *)
Definition covered (m : Mandate) b (at_ : Z) : Prop :=
  WithinActiveHours zones (om_hours m) at_ = true
  /\ (ab_tool_name b ∈ om_tools m \/ standard_action hashes b = true)
  /\ ab_effect b ∈ om_effects m /\ resource_ok hashes m b = true
  /\ forall r, r ∈ refs_of b -> r ∈ om_credential_refs m \/ vaultRequestBinding (rules hashes) b = true.

(** The owner's authority for an action: the assignment of its task is the
    one the action is bound to; the mandate, the goal and the policy of the
    purpose are current; the mandate covers the action and no active mandate
    of the goal denies it. *)
Record owner_authority db b (at_ : Z) : Prop := mkOwnerAuthority {
  oa_assignment : exists a, ad_assignments db !! ab_task_id b = Some a
    /\ as_owner_id a = ab_owner_id b /\ as_mandate_id a = ab_mandate_id b
    /\ as_goal_id a = ab_goal_id b;
  oa_mandate : exists row m, ad_mandates db !! ab_mandate_id b = Some row
    /\ mt_owner_id row = ab_owner_id b /\ mt_revision row = ab_mandate_revision b
    /\ mt_status row = "active" /\ mt_revoked_at row = None /\ at_ < mt_expires_at row
    /\ default "" (mt_goal_id row) = ab_goal_id b
    /\ column (mt_data row) = Ok m /\ om_purpose m = ab_purpose b /\ covered m b at_;
  oa_goal : exists g, ad_goals db !! ab_goal_id b = Some g /\ gl_owner_id g = ab_owner_id b
    /\ gl_kind g = "objective" /\ gl_status g = "active" /\ gl_revision g = ab_goal_revision b
    /\ at_ < gl_expires_at g;
  oa_policy : ad_purposes db !! (ab_owner_id b, ab_purpose b) = Some (ab_owner_policy_revision b);
  oa_denials : not_denied db b (ab_goal_id b) (ab_owner_id b) at_;
}.

Lemma query_Ok {A} env n (k : res A) a : query env n k = Ok a -> k = Ok a.
Proof. unfold query. by destruct (ae_fault env n). Qed.

Lemma decode_data_Ok {A} `{!Column A} (x : A) y : decode_data x = Ok y -> column x = Ok y.
Proof. unfold decode_data, or_else. by destruct (column x). Qed.

Lemma lookup_Ok {A} (o : option A) e a :
  match o with None => Err e | Some r => Ok r end = Ok a -> o = Some a.
Proof. destruct o; [by intros [= ->]|done]. Qed.

Lemma CheckAssignmentTx_Ok env db n a at_ m g :
  CheckAssignmentTx zones env db n a at_ = Ok (m, g) ->
  exists row grow data goal,
    ad_mandates db !! as_mandate_id a = Some row /\ column (mt_data row) = Ok data
    /\ m = with_row data row /\ mt_owner_id row = as_owner_id a
    /\ mt_scope_kind row = "owner_goal" /\ mt_revision row = as_mandate_revision a
    /\ default "" (mt_goal_id row) = as_goal_id a /\ mt_status row = "active"
    /\ mt_revoked_at row = None /\ at_ < mt_expires_at row /\ om_purpose data = as_purpose a
    /\ WithinActiveHours zones (om_hours data) at_ = true
    /\ ad_goals db !! as_goal_id a = Some grow /\ column (gl_data grow) = Ok goal
    /\ gl_owner_id grow = as_owner_id a /\ gl_kind grow = "objective"
    /\ gl_status grow = "active" /\ gl_revision grow = as_goal_revision a
    /\ at_ < gl_expires_at grow
    /\ ad_purposes db !! (as_owner_id a, as_purpose a) = Some (as_policy_revision a).
Proof.
  unfold CheckAssignmentTx. intros H1. apply res_bind_Ok in H1 as (row & Hrow & H1).
  apply res_bind_Ok in H1 as (data & Hd & H1). apply fail_if_Ok in H1 as [Hc H1].
  apply res_bind_Ok in H1 as (grow & Hgrow & H1). apply res_bind_Ok in H1 as (goal & Hg & H1).
  apply fail_if_Ok in H1 as [Hc2 H1]. apply res_bind_Ok in H1 as (rev & Hrev & H1).
  apply fail_if_Ok in H1 as [Hc3 H1]. apply res_bind_Ok in H1 as (ps & _ & H1).
  apply query_Ok, lookup_Ok in Hrow, Hgrow, Hrev. apply decode_data_Ok in Hd, Hg.
  injection H1 as <- _. exists row, grow, data, goal. unfold After in *. unbool. simpl in *.
  split_and!; try done. congruence.
Qed.

Lemma in_order_elem {A} (rows : gmap string A) k r : rows !! k = Some r -> (k, r) ∈ in_order rows.
Proof.
  intros H1. unfold in_order. rewrite merge_sort_Permutation. by apply elem_of_map_to_list.
Qed.

Lemma read_denials_Ok rows ds : read_denials rows = Ok ds ->
  forall k r m, (k, r) ∈ rows -> column (mt_data r) = Ok m ->
  om_deny_tools m ⊆ ds.1 /\ om_deny_resources m ⊆ ds.2.
Proof.
  revert ds. induction rows as [|[k0 r0] rows IH]; intros ds H1 k r m Hin Hm; [by apply elem_of_nil in Hin|].
  simpl in H1. apply res_bind_Ok in H1 as (m0 & Hm0%decode_data_Ok & H1).
  apply res_bind_Ok in H1 as (more & Hmore & [= <-]). simpl.
  apply elem_of_cons in Hin as [[= -> ->]|Hin].
  - rewrite Hm in Hm0. injection Hm0 as <-. split; intros x Hx; apply elem_of_app; by left.
  - destruct (IH _ Hmore _ _ _ Hin Hm) as [H2 H3].
    split; intros x Hx; apply elem_of_app; right; [by apply H2|by apply H3].
Qed.

Lemma CheckDenyOverrides_Ok b tools resources u :
  CheckDenyOverrides hashes b tools resources = Ok u ->
  (ab_tool_name b ∉ tools) /\ forall s, s ∈ resources -> scopedResourceWithin hashes s b = false.
Proof.
  unfold CheckDenyOverrides, contains. intros H1. go_ok H1. unbool. split; [done|]. intros s Hs.
  destruct (scopedResourceWithin hashes s b) eqn:E; [|done].
  assert (existsb (fun s => scopedResourceWithin hashes s b) resources = true); [|congruence].
  apply existsb_exists. exists s. by rewrite -list_elem_of_In.
Qed.

Lemma denials_apply env db n b goal owner at_ ds u :
  ReadGoalDenialsTx env db n goal owner at_ = Ok ds ->
  CheckDenyOverrides hashes b ds.1 ds.2 = Ok u -> not_denied db b goal owner at_.
Proof.
  intros Hr%query_Ok [Ht Hs]%CheckDenyOverrides_Ok k r m Hk Ha Hm.
  destruct (read_denials_Ok _ _ Hr k r m) as [H1 H2]; [|done|].
  { apply list_elem_of_filter. split; [done|]. by apply in_order_elem. }
  split; [by intros H3%H1|]. intros s H3. by apply Hs, H2.
Qed.

Lemma ownerMandateAllows_covered m b at_ : ownerMandateAllows zones hashes m b at_ = true ->
  covered m b at_.
Proof.
  unfold ownerMandateAllows. intros H1.
  destruct (negb (federated_ok hashes b)); [done|]. destruct (_ && negb (BrowserContextRead b)); [done|].
  destruct (_ || negb (contains _ _) && _) eqn:Hid; [done|]. destruct (existsb _ _); [done|].
  destruct (negb (resource_ok hashes m b) || _) eqn:Hro; [done|].
  unfold contains, in_force in *. unbool. unfold covered. split_and!; try done.
  - match goal with H2 : negb _ && negb _ = false |- _ => apply andb_false_iff in H2 as [H2|H2] end;
      unbool; [by left|by right].
  - intros r Hr. rewrite forallb_forall in H1. rewrite list_elem_of_In in Hr.
    apply H1, orb_true_iff in Hr as [Hr|Hr]; [left|by right]. by apply bool_decide_eq_true in Hr.
Qed.

Lemma covered_with_row m row b at_ : covered (with_row m row) b at_ -> covered m b at_.
Proof. done. Qed.

(** The task has no assignment, and the action names no goal. *)
Definition unassigned db b : Prop :=
  as_task_id (default empty_assignment (ad_assignments db !! ab_task_id b)) = "" /\ ab_goal_id b = "".

Lemma CheckTaskActionTx_Ok env db b at_ u : CheckTaskActionTx zones hashes env db b at_ = Ok u ->
  unassigned db b \/ owner_authority db b at_.
Proof.
  unfold CheckTaskActionTx. intros H1. apply res_bind_Ok in H1 as (c & _ & H1).
  apply fail_if_Ok in H1 as [_ H1]. apply res_bind_Ok in H1 as (a & Ha & H1).
  unfold CheckTaskAuthorityTx in Ha. apply res_bind_Ok in Ha as (_ & _ & Ha).
  apply res_bind_Ok in Ha as (_ & _ & Ha). apply res_bind_Ok in Ha as (a0 & Ha0 & Ha).
  unfold GetTaskAssignment in Ha0. apply query_Ok in Ha0. injection Ha0 as Ha0.
  destruct (decide (as_task_id a0 = "")) as [Hid|Hid].
  { rewrite bool_decide_eq_true_2 // in Ha. apply fail_if_Ok in Ha as [Hg%negb_false_iff%bool_decide_eq_true _]. left.
    unfold unassigned. by rewrite Ha0. }
  right. rewrite bool_decide_eq_false_2 // in Ha. apply fail_if_Ok in Ha as [Hbound Ha]. apply res_bind_Ok in Ha as (mg0 & _ & [= <-]).
  rewrite bool_decide_eq_false_2 // in H1. apply res_bind_Ok in H1 as ([m g] & Hmg & H1).
  apply res_bind_Ok in H1 as (u0 & Hact & H1). apply res_bind_Ok in H1 as (ds & Hds & H1).
  apply fail_if_Ok in Hact as [Hact%negb_false_iff _].
  destruct (ad_assignments db !! ab_task_id b) as [a1|] eqn:Hasg; [|by subst a0]. simpl in Ha0. subst a1.
  unbool. simpl in *.
  destruct (CheckAssignmentTx_Ok _ _ _ _ _ _ _ Hmg) as (row & grow & data & goal & Hmg').
  destruct Hmg' as (Hrow & Hdata & -> & Hrest).
  apply ownerMandateAllows_covered, covered_with_row in Hact. simpl in *.
  assert (Heq : as_owner_id a0 = ab_owner_id b /\ ab_goal_id b = as_goal_id a0
    /\ ab_mandate_id b = as_mandate_id a0 /\ ab_purpose b = as_purpose a0) by done.
  destruct Heq as (Ho & Hg & Hm & Hp).
  destruct_and! Hrest. split.
  - exists a0. by rewrite Hm Hg.
  - exists row, data. rewrite Hm Hp Hg -Ho. split_and!; try done. congruence.
  - exists grow. rewrite Hg -Ho. split_and!; try done. congruence.
  - rewrite Hp -Ho. congruence.
  - rewrite Hg -Ho. by apply (denials_apply _ _ _ _ _ _ _ _ _ Hds H1).
Qed.
End authority.

(** ** Every dispatch is covered *)

Section dispatch.
Context `{!UnicodeLower} (zones : string -> option zone) (hashes : ContractHashes).
Context `{!Column Mandate} `{!Column GoalPolicy} {R : Type}.
Context `{!Column ActionBinding} `{!Column EffectPolicy} `{!Column Grant} `{!Column EffectEvidence}.
Context (guards : DispatchGuards R) (envs : effect_env -> authority_env)
  (tables : effect_db R -> authority_db).

(** The database when the budget of an action has been reserved. *)
Definition reserved (env : effect_env) (g : Grant) (effect : string) (db : effect_db R) : effect_db R :=
  match dg_budgets guards with
  | None => db
  | Some bg => set_rest db (ReserveToolTx bg env db (toolBudgetIdentity (rules hashes) g effect)).1
  end.

Lemma guardDispatch_task env g db u : guardDispatch guards env g db = Ok u ->
  ab_task_id (gt_binding g) <> "" -> dg_task_action guards env db (gt_binding g) (fe_time env) = Ok tt.
Proof.
  unfold guardDispatch. intros H1 Hne.
  destruct (fe_fault env 2); [done|]. destruct (live_lease _ _ _); [|done].
  destruct (fe_fault env 3); [done|]. destruct (qd_runs _ !! _); [|done].
  apply fail_if_Ok in H1 as [_ H1]. apply res_bind_Ok in H1 as (u1 & Ht & _).
  rewrite bool_decide_eq_false_2 // in Ht. unfold guard_task in Ht.
  destruct (fe_fault env 4); [done|]. destruct (r ← _; _); [|done].
  destruct (fe_fault env 5); [done|]. destruct (qd_tasks _ !! _); [|done].
  apply fail_if_Ok in Ht as [_ Ht]. apply res_bind_Ok in Ht as (u2 & _ & Ht). by destruct u1.
Qed.

(** The dispatch checks the task's authority twice: on the tables it finds,
    and on those that the reservation of the budget leaves. *)
Lemma ClaimGrant_rechecks env id db db' u :
  ClaimGrant guards (rules hashes) env id db = (db', Ok u) ->
  exists g n effect r, grantInTx env 0 id db = Ok g
    /\ effect_of_action db (ab_action_id (gt_binding g)) = Some (n, effect, r)
    /\ (ab_task_id (gt_binding g) <> "" ->
        dg_task_action guards env db (gt_binding g) (fe_time env) = Ok tt
        /\ dg_task_action guards env (reserved env g effect db) (gt_binding g) (fe_clock env 9) = Ok tt).
Proof.
  unfold ClaimGrant. intros H1. apply fx_tx_split in H1 as [[_ ?]|[[] Hw]]; [done|].
  apply fx_check_Ok in Hw as (g & Hg & Hw). apply fx_check_Ok in Hw as (u1 & _ & Hw).
  apply fx_check_Ok in Hw as (u2 & Hgd & Hw). destruct (fe_fault env 8); [done|].
  destruct (effect_of_action db _) as [[[n id0] r0]|] eqn:He; [|done].
  destruct (negb (bool_decide (fr_state r0 = StateAllowed)) || _); [done|].
  apply fx_bind_Ok in Hw as (db1 & u3 & Hb & Hw). apply fx_check_Ok in Hw as (u4 & Ht & _).
  exists g, n, id0, r0. split_and!; [done|done|]. intros Hne.
  split; [by apply (guardDispatch_task _ _ _ _ Hgd)|].
  assert (db1 = reserved env g id0 db) as ->.
  { unfold reserved. destruct (dg_budgets guards); by injection Hb as <- _. }
  rewrite bool_decide_eq_false_2 // in Ht. destruct (fe_fault env 9); [done|]. by destruct u4.
Qed.

(** C13: every dispatch of a task is covered by its owner.  When the guard of
    the journal is [CheckTaskActionTx], a dispatch that is granted for a task
    acts either for a task without an assignment, and then names no goal, or
    under the owner's authority, both in the tables of the very database that
    the dispatch reads, at its own time, and again in the tables that the
    reservation of the budget leaves, at the time of that second check: the
    bound mandate, goal and policy revision are current, the mandate lists the
    tool unless the action is a standard one of the catalogue, it lists the
    effect, covers the resource and the credentials (references of an owner's
    own vault request aside) and is within its hours, and no active mandate of
    the goal denies the tool or any destination. *)
Theorem dispatch_within_mandate env id db db' u :
  dg_task_action guards = task_action zones hashes envs tables ->
  ClaimGrant guards (rules hashes) env id db = (db', Ok u) ->
  exists g n effect r, grantInTx env 0 id db = Ok g
    /\ effect_of_action db (ab_action_id (gt_binding g)) = Some (n, effect, r) /\
    let b := gt_binding g in let later := reserved env g effect db in
    ab_task_id b <> "" ->
    (unassigned (tables db) b \/ owner_authority zones hashes (tables db) b (fe_time env))
    /\ (unassigned (tables later) b \/ owner_authority zones hashes (tables later) b (fe_clock env 9)).
Proof.
  intros Hg (g & n & effect & r & Hgr & He & Hc)%ClaimGrant_rechecks. exists g, n, effect, r.
  split_and!; [done|done|]. intros b later Hne. destruct (Hc Hne) as [H1 H2].
  rewrite Hg in H1, H2. by apply CheckTaskActionTx_Ok in H1, H2.
Qed.
End dispatch.

(** ** Witnesses *)

Module MandateDemo.
#[local] Instance lower : UnicodeLower := id.
#[local] Instance mandate_column : Column Mandate := Ok.
#[local] Instance goal_column : Column GoalPolicy := Ok.
#[local] Instance binding_column : Column ActionBinding := Ok.
#[local] Instance policy_column : Column EffectPolicy := Ok.
#[local] Instance grant_column : Column Grant := Ok.
#[local] Instance evidence_column : Column EffectEvidence := Ok.

(** A zone that leaves daylight time at 06:00 UTC on 1 November 2026. *)
Definition eastern : zone :=
  fun s => if Z.ltb s (unix_seconds (make_time 2026 11 1 6 0 0 0)) then -14400 else -18000.
Definition zones (name : string) : option zone :=
  if bool_decide (name = "America/New_York") then Some eastern
  else if bool_decide (name = "UTC") then Some (fun _ => 0) else None.
Definition hashes : ContractHashes :=
  mkContractHashes (fun _ => None) (fun _ => None) (fun _ => None) (fun _ => Err (Errorf "no contract")).

Definition orders : ResourceScope := mkResourceScope "https://shop.example" "/orders".

Definition mandate (hours : option ActiveHours) (expires : Z) : Mandate :=
  mkOwnerMandate "owner_goal" "goal-1" 1 "active" "shopping" [orders] []
    [mkResourceScope "https://shop.example" "/orders/admin"] "cloud_allowed"
    (mkMandateBudget 10 1000 0 5 0 60000 0 0) expires hours false ["scope_change"] "daily" [] [] []
    "mandate-1" "owner" "" 0 0 1 ["http.request"] [] [EffectRead; EffectCommit] [] expires None.
Definition goal (expires : Z) : GoalPolicy :=
  mkGoalPolicy "goal-1" "owner" "objective" "active" 1 "Shop" "shopping" [] expires [].

(** Sunday from one to two, in the night the clocks go back. *)
Definition night : ActiveHours := mkHours "America/New_York" 60 120 [0].
Definition sunday : Z := make_time 2026 11 1 5 45 31 0.
Definition next_week : Z := make_time 2026 11 8 0 0 0 0.

Lemma eastern_whole : whole_minutes eastern (unix_seconds sunday).
Proof.
  intros s _. unfold eastern. set (c := unix_seconds _). vm_compute in c.
  destruct (Z.ltb_spec s c), (Z.ltb_spec (s / 60 * 60) c); subst c; split; try done; exfalso;
    Z.to_euclidean_division_equations; lia.
Qed.

Lemma authority_ends_in_time_witness :
  AuthorityDeadline zones (mandate (Some night) next_week) (goal next_week) sunday
    = Ok (make_time 2026 11 1 7 0 0 0)
  /\ WithinActiveHours zones (Some night) (make_time 2026 11 1 6 59 59 0) = true.
Proof.
  assert (E : AuthorityDeadline zones (mandate (Some night) next_week) (goal next_week) sunday
    = Ok (make_time 2026 11 1 7 0 0 0)) by (vm_compute; reflexivity).
  split; [exact E|].
  destruct (authority_ends_in_time zones _ _ _ _ E) as (_ & _ & _ & Hopen).
  apply (Hopen night eastern eq_refl eq_refl eastern_whole). split; [apply Z.leb_le|apply Z.ltb_lt]; vm_compute; reflexivity.
Defined.

(** Five working days, day and night. *)
Definition workdays : ActiveHours := mkHours "UTC" 0 1440 [1; 2; 3; 4; 5].
Definition monday : Z := make_time 2026 10 12 10 0 0 0.

(** A validated mandate for five whole days is in force on Monday, and yet it
    has no deadline until the window is about to close. *)
Example workdays_have_no_deadline :
  ValidateOwnerMandate zones (mandate (Some workdays) next_week) monday = Ok tt
  /\ in_force zones (mandate (Some workdays) next_week) monday = true
  /\ AuthorityDeadline zones (mandate (Some workdays) next_week) (goal next_week) monday
     = Err ErrOwnerAuthority
  /\ AuthorityDeadline zones (mandate (Some workdays) next_week) (goal next_week) (monday + 72 * hour)
     = Ok (make_time 2026 10 17 0 0 0 0).
Proof. vm_compute. split_and!; reflexivity. Qed.

Lemma resource_confined_witness :
  resourceWithin orders "browser:0123:https://shop.example/orders/7?paid=1" = true
  /\ resourceWithin orders "https://shop.example/orders/../admin" = false
  /\ resourceWithin orders "https://shop.example/orders2" = false
  /\ exists u, Parse "https://shop.example/orders/7?paid=1" = Some u
       /\ elements (lit "/orders") `prefix_of` elements (url_path u).
Proof.
  assert (E : resourceWithin orders "browser:0123:https://shop.example/orders/7?paid=1" = true)
    by (vm_compute; reflexivity).
  split; [exact E|]. split; [vm_compute; reflexivity|]. split; [vm_compute; reflexivity|].
  destruct (resource_confined orders _ E) as [[Ht _]|(u & Hu & Hc)]; [vm_compute in Ht; discriminate Ht|].
  exists u. split; [exact Hu|]. exact (proj2 (proj2 (proj2 (proj2 Hc)))).
Defined.

(** An encoded separator is refused, unless another byte of the path is not
    encoded: the path is then printed anew before it is searched. *)
Example encoded_separator_accepted :
  resourceWithin orders "https://shop.example/orders%2f7" = false
  /\ resourceWithin orders "https://shop.example/orders%2f7 " = true.
Proof. vm_compute. split; reflexivity. Qed.

(** A task with a mandate orders from the shop. *)
Definition order : ActionBinding :=
  mkBinding None None None None "" 0 false "" "action-1" "hash-1" "run-1" "call-1" "http.request" ""
    "" "" "https://shop.example/orders/7" None "" "task-1" 1 1 "owner" EffectCommit "goal-1" 1
    "mandate-1" 1 "shopping" 4 "" "" 0 0 None "" "" "" 0 None.
Definition intent : Intent :=
  mkIntent order true (3600 * second) "action-1" "print-1"
    (mkEffectPolicy None None "unsafe" "read_result" "" "" "" None).
Definition grant : Grant :=
  mkGrant "" "auth-1" order "" "" 0 "lease-1" 1 3 (60 * second) "authorized".

Definition authority : authority_db :=
  mkAuthorityDb {["task-1" := mkAssignment "task-1" "owner" "goal-1" 1 "mandate-1" 1 "shopping" "" "" 4]}
    {["mandate-1" := mkMandateTableRow "owner" 1 (mandate None (3600 * second)) "active" "owner_goal"
        (Some "goal-1") 1 (3600 * second) None]}
    {["goal-1" := mkGoalRow "owner" "objective" "active" 1 (3600 * second) (goal (3600 * second))]}
    {[("owner", "shopping") := 4]} None.
Definition calm : authority_env := mkAuthorityEnv (fun _ => None) (fun _ => Ok tt) (fun _ => Ok tt).

Definition guards : DispatchGuards authority_db :=
  Effect.mkGuards None None None None (task_action zones hashes (fun _ => calm) ed_rest)
    (fun _ _ _ _ _ => false).

Definition start : effect_db authority_db :=
  mkEffectDb
    (mkQueueDb {["chat" := mkOwnership "lease-1" "run-1" "worker" 1 0 (3600 * second)]}
       {["chat" := "owner"]} {["task-1" := mkTaskRow "chat" "owner" "active" 1 1 JNull 0 0]}
       {["run-1" := mkRunRow "chat" "event-1" None "tool_running" "" "tool_running" "" None None None
           0 0 None None None "{}" (Some "task-1") (Some 1)]} ∅ 1 ∅)
    ∅ ∅ ∅ ∅ ∅ ∅ ∅ authority.
Definition ready : effect_db authority_db :=
  (PutGrant (EffectDemo.at_time second) grant (PutIntent (EffectDemo.at_time second) intent start).1).1.
Abbreviation claim := (ClaimGrant guards (rules hashes) (EffectDemo.at_time (2 * second)) "auth-1" ready).

Lemma dispatch_within_mandate_witness :
  is_ok claim.2 = true
  /\ exists g, grantInTx (EffectDemo.at_time (2 * second)) 0 "auth-1" ready = Ok g
       /\ (unassigned authority (gt_binding g)
           \/ owner_authority zones hashes authority (gt_binding g) (2 * second)).
Proof.
  split; [vm_compute; reflexivity|].
  destruct claim as [db' [u|e]] eqn:E; [|vm_compute in E; discriminate E].
  destruct (dispatch_within_mandate zones hashes guards (fun _ => calm) ed_rest
    (EffectDemo.at_time (2 * second)) "auth-1" ready db' u eq_refl E) as (g & n & ef & r & Hg & _ & Hb).
  exists g. split; [exact Hg|]. apply Hb. vm_compute in Hg. injection Hg as <-. discriminate.
Defined.
End MandateDemo.
