(* ===== verification/Outbox.v ===== *)
(** * Outbox: stored notifications

    Package [apps/orchestrator/internal/deliveryoutbox] ([store.go],
    [state.go]) and the redaction of its rows in
    [internal/memory/catalog/privacy.go].  The table is a map by
    [notification_id]; a call reads the clock of the database at each of its
    statements, any of which may fail.  The channel is a parameter: what it
    did is the [Outcome] it reports. *)
From Stdlib Require Import Ascii.
From stdpp Require Import pretty sorting.
From S2P Require Import Prelude GoStrings GoBytes GoHash GoValue GoTime Input.
Open Scope Z_scope.
Open Scope go_scope.

(** ** Splitting by UTF-16 length *)

(** One round of [range content]: the bytes of the rune and its length in
    UTF-16; a byte that starts no valid sequence is a rune of one byte. *)
Definition rune_head (s : string) : option (string * Z * string) :=
  match s with
  | EmptyString => None
  | String a s1 =>
      let alone := Some (String a "", 1, s1) in
      if Z.ltb (byte_val a) 128 then alone else
      match utf8_lead a, s1 with
      | Some (2%nat, lo, hi), String b s2 =>
          if in_range lo hi b then Some (String a (String b ""), 1, s2) else alone
      | Some (3%nat, lo, hi), String b (String c s3) =>
          if in_range lo hi b && in_range 128 191 c
          then Some (String a (String b (String c "")), 1, s3) else alone
      | Some (4%nat, lo, hi), String b (String c (String d s4)) =>
          if in_range lo hi b && in_range 128 191 c && in_range 128 191 d
          then Some (String a (String b (String c (String d ""))), 2, s4) else alone
      | _, _ => alone
      end
  end.

Fixpoint runes_from (fuel : nat) (s : string) : list (string * Z) :=
  match fuel, rune_head s with
  | S fuel, Some (r, size, rest) => (r, size) :: runes_from fuel rest
  | _, _ => []
  end.
Definition runes (s : string) : list (string * Z) := runes_from (String.length s) s.

(** The length of a text in UTF-16 code units. *)
Definition utf16_len (s : string) : Z := foldr Z.add 0 (snd <$> runes s).

(** The loop of [Split]: [current] is [content[start:pos]], [units] its
    length. *)
Fixpoint split_loop (limit : Z) (current : string) (units : Z) (rs : list (string * Z)) :
    list string :=
  match rs with
  | [] => if bool_decide (current = "") then [] else [current]
  | (r, size) :: rest =>
      if Z.ltb limit (units + size) then current :: split_loop limit r size rest
      else split_loop limit (current +:+ r) (units + size) rest
  end.

Definition Split (content : string) (limit : Z) : list string :=
  split_loop (if Z.ltb limit 2 then 4096 else limit) "" 0 (runes content).

(** ** Rows *)

(** A row of [delivery_outbox] (migrations 034, 048 and 089), by
    [notification_id].  The JSON column is the text PostgreSQL writes for it. *)
Record OutboxRow := mkOutboxRow {
  ob_result_id : option string;
  ob_run_id : string;
  ob_session_key : string;
  ob_channel : string;
  ob_chunk_index : Z;
  ob_content : string;
  ob_status : string;
  ob_attempt_count : Z;
  ob_next_attempt_at : Z;
  ob_deadline_at : Z;
  ob_claim_id : string;
  ob_claim_until : option Z;
  ob_channel_ack : string;
  ob_error_code : string;
  ob_created_at : Z;
  ob_updated_at : Z;
  ob_privacy_redacted : bool;
  ob_redaction_id : string;
  ob_publication_id : option string;
  ob_binding_id : option string;
  ob_binding_version : option Z;
  ob_recipient : option string;
  ob_representation : option string;
}.

Abbreviation outbox := (gmap string OutboxRow).

(** The columns that the UPDATEs set; the others are kept by a trigger. *)
Definition ob_set (status : string) (attempts next : Z) (claim : string) (until : option Z)
    (ack code : string) (updated : Z) (r : OutboxRow) : OutboxRow :=
  mkOutboxRow (ob_result_id r) (ob_run_id r) (ob_session_key r) (ob_channel r) (ob_chunk_index r)
    (ob_content r) status attempts next (ob_deadline_at r) claim until ack code (ob_created_at r)
    updated (ob_privacy_redacted r) (ob_redaction_id r) (ob_publication_id r) (ob_binding_id r)
    (ob_binding_version r) (ob_recipient r) (ob_representation r).

Definition outbox_statuses : list string :=
  ["pending"; "sending"; "sent"; "result_ready"; "delivery_unknown"; "failed"].

(** The Go struct [Message]. *)
Record Message := mkMessage {
  ms_publication_id : string;
  ms_binding_id : string;
  ms_binding_version : Z;
  ms_recipient : string;
  ms_representation : string;
  ms_notification_id : string;
  ms_result_id : string;
  ms_run_id : string;
  ms_session_key : string;
  ms_channel : string;
  ms_chunk_index : Z;
  ms_content : string;
  ms_status : string;
  ms_attempt_count : Z;
  ms_claim_id : string;
  ms_channel_ack : string;
  ms_error_code : string;
}.

Record Outcome := mkOutcome {
  oc_status : string; oc_ack : string; oc_error_code : string; oc_retryable : bool;
  oc_retry_after : Z }.

Definition scan_message (id : string) (r : OutboxRow) : Message :=
  mkMessage "" "" 0 "" "" id (default "" (ob_result_id r)) (ob_run_id r) (ob_session_key r) (ob_channel r)
    (ob_chunk_index r) (ob_content r) (ob_status r) (ob_attempt_count r) (ob_claim_id r)
    (ob_channel_ack r) (ob_error_code r).

(** [State]: the most conservative state across the chunks. *)
Fixpoint state_loop (state : string) (messages : list Message) : string :=
  match messages with
  | [] => state
  | m :: rest =>
      if bool_decide (ms_status m = "delivery_unknown") then "delivery_unknown"
      else if bool_decide (ms_status m = "failed") then state_loop "failed" rest
      else if bool_decide (ms_status m = "pending") || bool_decide (ms_status m = "sending") then
        state_loop (if bool_decide (state = "failed") then state else "pending") rest
      else if bool_decide (ms_status m = "result_ready") then
        state_loop (if bool_decide (state = "sent") then "result_ready" else state) rest
      else state_loop state rest
  end.
Definition State (messages : list Message) : string :=
  if bool_decide (length messages = 0%nat) then "" else state_loop "sent" messages.

(** ** Calls *)

(** The start of the transaction, the clock and the fault of its n-th
    statement, the rows that other transactions have locked, and the fault of
    the commit, which may have taken effect. *)
Record outbox_env := mkOutboxEnv {
  oe_now : Z;
  oe_clock : nat -> Z;
  oe_locked : string -> bool;
  oe_fault : nat -> option error;
  oe_commit : option (bool * error);
}.

(** [EnqueueTx]: the channel decides the chunks, the state and the code. *)
Definition enqueue_plan (channel content : string) : list string * string * string :=
  if bool_decide (channel = "telegram") then (Split content 4096, "pending", "")
  else if bool_decide (channel = "web") || bool_decide (channel = "delegation")
  then ([content], "result_ready", "")
  else ([content], "failed", "unsupported_channel").

Definition notification_id (result channel : string) (i : nat) : string :=
  result +:+ ":" +:+ channel +:+ ":" +:+ pretty (Z.of_nat i).

(** The unique constraint on [(result_id, channel, chunk_index)]. *)
Definition chunk_taken (result channel : string) (i : Z) (t : outbox) : bool :=
  existsb (fun kr => bool_decide (ob_result_id kr.2 = Some result)
                     && bool_decide (ob_channel kr.2 = channel) && Z.eqb (ob_chunk_index kr.2) i)
    (map_to_list t).

Definition new_row (result run key channel state code : string) (now : Z) (i : nat) (chunk : string)
    (env_now : Z) : OutboxRow :=
  mkOutboxRow (Some result) run key channel (Z.of_nat i) chunk state 0 env_now
    (Truncate (now + 24 * 3600 * second) microsecond) "" None "" code (Truncate now microsecond)
    (Truncate now microsecond) false "" None None None None None.

Fixpoint enqueue_loop (env : outbox_env) (result run key channel state code : string) (now : Z)
    (i : nat) (chunks : list string) (t : outbox) : outbox * res unit :=
  match chunks with
  | [] => (t, Ok tt)
  | chunk :: rest =>
      match oe_fault env i with
      | Some e => (t, Err e)
      | None =>
          let id := notification_id result channel i in
          if bool_decide (is_Some (t !! id)) || chunk_taken result channel (Z.of_nat i) t
          then (t, Err err_unique) else
          enqueue_loop env result run key channel state code now (S i) rest
            (<[id := new_row result run key channel state code now i chunk (oe_now env)]> t)
      end
  end.

Definition EnqueueTx (env : outbox_env) (result run key channel content : string) (now : Z)
    (t : outbox) : outbox * res unit :=
  if negb (utf8_valid content) then (t, Err (Errorf "notification must be valid UTF-8")) else
  let '(chunks, state, code) := enqueue_plan channel content in
  enqueue_loop env result run key channel state code now 0 chunks t.

(** [UPDATE delivery_outbox SET f WHERE p]. *)
Definition update_outbox (p : OutboxRow -> bool) (f : OutboxRow -> OutboxRow) (t : outbox) : outbox :=
  (fun r => if p r then f r else r) <$> t.

Definition claim_expired (now : Z) (r : OutboxRow) : bool :=
  bool_decide (ob_status r = "sending")
  && match ob_claim_until r with Some u => Z.leb u now | None => false end.
Definition quarantine (now : Z) (r : OutboxRow) : OutboxRow :=
  ob_set "delivery_unknown" (ob_attempt_count r) (ob_next_attempt_at r) "" None (ob_channel_ack r)
    "sending_claim_expired" now r.

Definition overdue (now : Z) (r : OutboxRow) : bool :=
  bool_decide (ob_status r = "pending")
  && (Z.leb (ob_deadline_at r) now || Z.leb 6 (ob_attempt_count r)).
Definition abandon (now : Z) (r : OutboxRow) : OutboxRow :=
  ob_set "failed" (ob_attempt_count r) (ob_next_attempt_at r) (ob_claim_id r) (ob_claim_until r)
    (ob_channel_ack r) "delivery_deadline_exceeded" now r.

(** An earlier chunk of the same result on the same channel is not sent. *)
Definition earlier_unsent (t : outbox) (d : OutboxRow) : bool :=
  existsb (fun kr =>
      match ob_result_id kr.2, ob_result_id d with
      | Some a, Some b => bool_decide (a = b)
      | _, _ => false
      end && bool_decide (ob_channel kr.2 = ob_channel d)
      && Z.ltb (ob_chunk_index kr.2) (ob_chunk_index d)
      && negb (bool_decide (ob_status kr.2 = "sent"))) (map_to_list t).

Definition claimable (now : Z) (t : outbox) (d : OutboxRow) : bool :=
  bool_decide (ob_status d = "pending") && bool_decide (ob_publication_id d = None)
  && Z.leb (ob_next_attempt_at d) now && Z.ltb now (ob_deadline_at d)
  && Z.ltb (ob_attempt_count d) 6 && negb (earlier_unsent t d).

(** [ORDER BY d.created_at,d.chunk_index]. *)
Definition claim_order (a b : string * OutboxRow) : Prop :=
  ob_created_at a.2 < ob_created_at b.2
  \/ ob_created_at a.2 = ob_created_at b.2 /\ ob_chunk_index a.2 <= ob_chunk_index b.2.
#[global] Instance claim_order_dec : RelDecision claim_order.
Proof. intros a b. unfold claim_order. apply _. Defined.

Definition next_message (env : outbox_env) (n : nat) (t : outbox) : option (string * OutboxRow) :=
  head (merge_sort claim_order
    (filter (fun kr => claimable (oe_clock env n) t kr.2 = true /\ oe_locked env kr.1 = false)
       (map_to_list t))).

(** A duration read back as an [interval], which counts microseconds. *)
Definition pg_interval (d : Z) : Z :=
  let q := d / microsecond in
  let m := 2 * (d mod microsecond) in
  (if Z.ltb m microsecond || (Z.eqb m microsecond && Z.even q) then q else q + 1) * microsecond.

Definition claimed_row (now : Z) (claim : string) (ttl clock : Z) (r : OutboxRow) : OutboxRow :=
  ob_set "sending" (ob_attempt_count r + 1) (ob_next_attempt_at r) claim (Some (clock + pg_interval ttl))
    (ob_channel_ack r) (ob_error_code r) now r.

(** The end of a transaction whose work succeeded. *)
Definition ob_commit {A} (env : outbox_env) (t t' : outbox) (a : A) : outbox * res A :=
  match oe_commit env with
  | None => (t', Ok a)
  | Some (took, e) => (if took then t' else t, Err e)
  end.

(** [Claim]; [random] is the identity of the claim. *)
Definition ClaimMessage (env : outbox_env) (random : string) (ttl : Z) (t : outbox) :
    outbox * res (option Message) :=
  match oe_fault env 0, oe_fault env 1, oe_fault env 2 with
  | Some e, _, _ | None, Some e, _ | None, None, Some e => (t, Err e)
  | None, None, None =>
      let t1 := update_outbox (claim_expired (oe_clock env 0)) (quarantine (oe_now env)) t in
      let t2 := update_outbox (overdue (oe_clock env 1)) (abandon (oe_now env)) t1 in
      match next_message env 2 t2 with
      | None => ob_commit env t t2 None
      | Some (id, r) =>
          let r' := claimed_row (oe_now env) random ttl (oe_clock env 2) r in
          ob_commit env t (<[id := r']> t2) (Some (scan_message id r'))
      end
  end.

Definition safe_codes : list string :=
  [""; "telegram_rejected"; "telegram_unconfigured"; "telegram_chat_not_allowed";
   "transport_outcome_unknown"; "response_outcome_unknown"; "missing_channel_ack"].
Definition safeCode (code : string) : string :=
  if bool_decide (code ∈ safe_codes) then code else "channel_error".

Definition hour : Z := 3600 * second.

(** [DeliveryOutcome]: the new status, the code and the delay. *)
Definition DeliveryOutcome (m : Message) (o : Outcome) : string * string * Z :=
  let status0 := if bool_decide (oc_status o = "sent") || bool_decide (oc_status o = "absent")
                 then oc_status o else "delivery_unknown" in
  let missing := bool_decide (status0 = "sent") && bool_decide (oc_ack o = "") in
  let status1 := if missing then "delivery_unknown" else status0 in
  let code := if missing then "missing_channel_ack" else oc_error_code o in
  let delay0 := if Z.ltb (oc_retry_after o) second
                then wrap64 (wrap64 (Z.shiftl 1 (Z.min (ms_attempt_count m) 8)) * second)
                else oc_retry_after o in
  let delay := if Z.ltb hour delay0 then hour else delay0 in
  let status := if bool_decide (status1 = "absent")
                then if oc_retryable o && Z.ltb (ms_attempt_count m) 6 then "pending" else "failed"
                else status1 in
  (status, safeCode code, delay).

(** The condition of [Finish] and of [AuthorizeSend]. *)
Definition claim_live (now : Z) (m : Message) (r : OutboxRow) : bool :=
  bool_decide (ob_claim_id r = ms_claim_id m) && bool_decide (ob_status r = "sending")
  && match ob_claim_until r with Some u => Z.ltb now u | None => false end.

Definition ErrOutboxClaimLost : error := ErrNew "deliveryoutbox.ErrClaimLost" "outbox claim lost".

Definition FinishMessage (env : outbox_env) (m : Message) (o : Outcome) (t : outbox) :
    outbox * res unit :=
  match oe_fault env 0 with
  | Some e => (t, Err e)
  | None =>
      let '(status, code, delay) := DeliveryOutcome m o in
      match t !! ms_notification_id m with
      | Some r =>
          if claim_live (oe_clock env 0) m r
          then ob_commit env t
                 (<[ms_notification_id m :=
                    ob_set status (ob_attempt_count r) (oe_clock env 0 + pg_interval delay) "" None (oc_ack o)
                      code (oe_now env) r]> t) tt
          else (t, Err ErrOutboxClaimLost)
      | None => (t, Err ErrOutboxClaimLost)
      end
  end.

Definition AuthorizeSend (env : outbox_env) (m : Message) (t : outbox) : res unit :=
  match oe_fault env 0, t !! ms_notification_id m with
  | None, Some r =>
      if claim_live (oe_clock env 0) m r && bool_decide (ob_content r = ms_content m)
         && negb (ob_privacy_redacted r)
      then Ok tt else Err ErrOutboxClaimLost
  | _, _ => Err ErrOutboxClaimLost
  end.

Definition ListByRun (env : outbox_env) (run : string) (text_le : string -> string -> Prop)
    `{!RelDecision text_le} (t : outbox) : res (list Message) :=
  match oe_fault env 0 with
  | Some e => Err e
  | None =>
      let before (a b : string * OutboxRow) : Prop :=
        text_le (ob_channel a.2) (ob_channel b.2)
        /\ (ob_channel a.2 = ob_channel b.2 -> ob_chunk_index a.2 <= ob_chunk_index b.2) in
      Ok ((fun kr => scan_message kr.1 kr.2) <$>
          merge_sort before (filter (fun kr => ob_run_id kr.2 = run) (map_to_list t)))
  end.

(** The redaction of results: their notifications lose the content and are
    not sent any more.  The rows of publications are redacted by a trigger
    ([Delivery.redactCommunicationMessage]). *)
Definition redact_row (now : Z) (redaction : string) (r : OutboxRow) : OutboxRow :=
  let status := if bool_decide (ob_status r = "sending") then "delivery_unknown"
                else if bool_decide (ob_status r = "pending")
                        || bool_decide (ob_status r = "result_ready") then "failed"
                else ob_status r in
  mkOutboxRow (ob_result_id r) (ob_run_id r) (ob_session_key r) (ob_channel r) (ob_chunk_index r)
    "" status (ob_attempt_count r) (ob_next_attempt_at r) (ob_deadline_at r) "" None
    (ob_channel_ack r) "privacy_redacted" (ob_created_at r) now true redaction (ob_publication_id r)
    (ob_binding_id r) (ob_binding_version r) (ob_recipient r) (ob_representation r).

Definition redactOutbox (now : Z) (redaction : string) (results : list string) (t : outbox) : outbox :=
  update_outbox (fun r => match ob_result_id r with
                          | Some id => bool_decide (id ∈ results) && negb (ob_privacy_redacted r)
                          | None => false
                          end) (redact_row now redaction) t.

(** ** The worker *)

(** The Go interface [ClaimStore] over a database [DB]. *)
Class ClaimStore (DB : Type) := {
  cs_Claim : outbox_env -> string -> Z -> DB -> DB * res (option Message);
  cs_AuthorizeSend : outbox_env -> Message -> DB -> DB * res unit;
  cs_Finish : outbox_env -> Message -> Outcome -> DB -> DB * res unit;
}.

Definition claim_ttl : Z := 30 * second.

(** What a worker meets: an environment for each call, the identity of the
    claim, and what others did to the database before the second and the third
    call. *)
Record worker_view (DB : Type) := mkWorkerView {
  wv_claim : outbox_env; wv_random : string;
  wv_authorize : outbox_env; wv_before_authorize : DB -> DB;
  wv_finish : outbox_env; wv_before_finish : DB -> DB;
}.
Arguments wv_claim {_} _.
Arguments wv_random {_} _.
Arguments wv_authorize {_} _.
Arguments wv_before_authorize {_} _ _.
Arguments wv_finish {_} _.
Arguments wv_before_finish {_} _ _.

Definition no_sender : Outcome := mkOutcome "absent" "" "telegram_unconfigured" true 0.

(** [ProcessOne]: the database, the messages handed to the channel with the
    database at that moment, and what it returns.  The sender, when there is
    one, reports an outcome. *)
Definition ProcessOne {DB} `{!ClaimStore DB} (sender : option (Message -> Outcome))
    (v : worker_view DB) (db : DB) : DB * list (Message * DB) * (bool * option error) :=
  match cs_Claim (wv_claim v) (wv_random v) claim_ttl db with
  | (db1, Err e) => (db1, [], (false, Some e))
  | (db1, Ok None) => (db1, [], (false, None))
  | (db1, Ok (Some m)) =>
      let db2 := wv_before_authorize v db1 in
      let finish (db2 : DB) (calls : list (Message * DB)) (o : Outcome) :=
        match cs_Finish (wv_finish v) m o (wv_before_finish v db2) with
        | (db4, Ok _) => (db4, calls, (true, None))
        | (db4, Err e) => (db4, calls, (true, Some e))
        end in
      match sender with
      | None => finish db2 [] no_sender
      | Some send =>
          match cs_AuthorizeSend (wv_authorize v) m db2 with
          | (db3, Err e) => (db3, [], (true, Some e))
          | (db3, Ok _) => finish db3 [(m, db3)] (send m)
          end
      end
  end.

(** The store of this package. *)
#[global] Instance store_claims : ClaimStore outbox := {
  cs_Claim := ClaimMessage;
  cs_AuthorizeSend env m t := (t, AuthorizeSend env m t);
  cs_Finish := FinishMessage;
}.
