(* ===== verification/Delivery.v ===== *)
(** * Delivery: sending publications

    [DeliveryStore] of [apps/orchestrator/internal/communication/delivery.go]:
    the second [ClaimStore], for the rows of [delivery_outbox] that belong to a
    publication, with the trigger that redacts them
    ([migrations/090_communication_privacy.up.sql]).  The tables it joins are
    maps by their key; the guards of the
    store, the check of the authority of a task and the decoding of the
    arguments are parameters, which may read the whole database. *)
From stdpp Require Import pretty sorting.
From S2P Require Import Prelude GoStrings GoHash GoValue GoTime Input Outbox.
Open Scope Z_scope.
Open Scope go_scope.

Definition ErrCommunicationDenied : error :=
  ErrNew "communicationcontrol.ErrDenied" "communication unavailable, stale or outside policy".

(** ** Tables *)

Record PublicationRow := mkPublicationRow {
  pb_owner_id : string;
  pb_session_key : string;
  pb_task_id : option string;
  pb_task_revision : Z;
  pb_constraints_revision : Z;
  pb_kind : string;
  pb_sequence : Z;
  pb_privacy_redacted : bool;
}.

Record BindingRow := mkBindingRow {
  bn_owner_id : string;
  bn_channel : string;
  bn_recipient : string;
  bn_version : Z;
  bn_enabled : bool;
  bn_verified : bool;
}.

Record CommTaskRow := mkCommTaskRow {
  tk_owner_id : string; tk_revision : Z; tk_constraints_revision : Z; tk_status : string }.

Record InteractionRow := mkInteractionRow {
  ix_publication_id : string; ix_state : string; ix_expires_at : option Z;
  ix_privacy_redacted : bool }.

(** The database; [R] is what only the guards read. *)
Record comm_db (R : Type) := mkCommDb {
  cd_outbox : outbox;
  cd_publications : gmap string PublicationRow;
  cd_bindings : gmap string BindingRow;
  cd_session_user : gmap string string;
  cd_tasks : gmap string CommTaskRow;
  cd_interactions : gmap string InteractionRow;
  cd_rest : R;
}.
Arguments mkCommDb {_} _ _ _ _ _ _ _.
Arguments cd_outbox {_} _.
Arguments cd_publications {_} _.
Arguments cd_bindings {_} _.
Arguments cd_session_user {_} _.
Arguments cd_tasks {_} _.
Arguments cd_interactions {_} _.
Arguments cd_rest {_} _.

Definition with_outbox {R} (t : outbox) (db : comm_db R) : comm_db R :=
  mkCommDb t (cd_publications db) (cd_bindings db) (cd_session_user db) (cd_tasks db)
    (cd_interactions db) (cd_rest db).

(** ** Redaction *)

(** The trigger of [migrations/090_communication_privacy.up.sql], which the
    redaction of a message by [redactMessagesTx] fires.  A publication has the
    identity of its message.  Its rows lose the content and are not sent any
    more; one that is ready for the web stays ready. *)
Definition redact_publication_row (redaction : string) (r : OutboxRow) : OutboxRow :=
  let sending := bool_decide (ob_status r = "sending") in
  let pending := bool_decide (ob_status r = "pending") in
  let status := if sending then "delivery_unknown" else if pending then "failed" else ob_status r in
  let code := if pending || sending then "source_unavailable" else ob_error_code r in
  mkOutboxRow (ob_result_id r) (ob_run_id r) (ob_session_key r) (ob_channel r) (ob_chunk_index r)
    "" status (ob_attempt_count r) (ob_next_attempt_at r) (ob_deadline_at r) "" None
    (ob_channel_ack r) code (ob_created_at r) (ob_updated_at r) true redaction (ob_publication_id r)
    (ob_binding_id r) (ob_binding_version r) (ob_recipient r) (ob_representation r).

(** [representation_json='{}']. *)
Definition clear_representation (r : OutboxRow) : OutboxRow :=
  mkOutboxRow (ob_result_id r) (ob_run_id r) (ob_session_key r) (ob_channel r) (ob_chunk_index r)
    (ob_content r) (ob_status r) (ob_attempt_count r) (ob_next_attempt_at r) (ob_deadline_at r)
    (ob_claim_id r) (ob_claim_until r) (ob_channel_ack r) (ob_error_code r) (ob_created_at r)
    (ob_updated_at r) (ob_privacy_redacted r) (ob_redaction_id r) (ob_publication_id r)
    (ob_binding_id r) (ob_binding_version r) (ob_recipient r) (Some "{}").

Definition redact_publication_rows (redaction message : string) (t : outbox) : outbox :=
  let of_message (r : OutboxRow) := bool_decide (ob_publication_id r = Some message) in
  let t1 := update_outbox (fun r => of_message r && negb (ob_privacy_redacted r))
              (redact_publication_row redaction) t in
  update_outbox (fun r => of_message r && ob_privacy_redacted r
                          && match ob_representation r with
                             | Some text => negb (bool_decide (text = "{}"))
                             | None => false
                             end) clear_representation t1.

Definition redact_publication (p : PublicationRow) : PublicationRow :=
  mkPublicationRow (pb_owner_id p) (pb_session_key p) (pb_task_id p) (pb_task_revision p)
    (pb_constraints_revision p) (pb_kind p) (pb_sequence p) true.

Definition redact_interaction (message id : string) (x : InteractionRow) : InteractionRow :=
  if bool_decide (ix_publication_id x = message) || bool_decide ("response:" +:+ id = message)
  then mkInteractionRow (ix_publication_id x)
         (if bool_decide (ix_state x = "open") then "cancelled" else ix_state x)
         (ix_expires_at x) true
  else x.

Definition redactCommunicationMessage {R} (redaction message : string) (db : comm_db R) : comm_db R :=
  mkCommDb (redact_publication_rows redaction message (cd_outbox db))
    (alter redact_publication message (cd_publications db)) (cd_bindings db) (cd_session_user db)
    (cd_tasks db) (map_imap (fun id x => Some (redact_interaction message id x)) (cd_interactions db))
    (cd_rest db).

(** ** The store *)

Record Binding := mkBinding {
  bi_id : string; bi_channel : string; bi_recipient : string; bi_version : Z;
  bi_enabled : bool; bi_capabilities : list string }.
Definition no_binding : Binding := mkBinding "" "" "" 0 false [].

(** What the store has of [Core]; a guard is told which of its calls this is. *)
Record Core (R Args : Type) := mkCore {
  co_source_guard : option (nat -> comm_db R -> string -> option error);
  co_channel_guard : option (comm_db R -> string -> Binding -> Args -> option error);
  co_widget_projections : bool;
}.
Arguments mkCore {_ _} _ _ _.
Arguments co_source_guard {_ _} _.
Arguments co_channel_guard {_ _} _.
Arguments co_widget_projections {_ _} _.

Record DeliveryStore (R Args : Type) := mkDeliveryStore {
  ds_core : Core R Args;
  ds_binding : option Binding;
}.
Arguments mkDeliveryStore {_ _} _ _.
Arguments ds_core {_ _} _.
Arguments ds_binding {_ _} _.

(** What other components do: the authority of a task at a time, the arguments
    of a publication, and the [jsonb] value of a text. *)
Class DeliveryGuards (R Args : Type) := {
  dg_task_authority : comm_db R -> string -> string -> Z -> option error;
  dg_decode_args : string -> string -> res Args;
  dg_jsonb : string -> option string;
}.

Section delivery.
Context {R Args : Type} `{!DeliveryGuards R Args}.
Implicit Types (d : DeliveryStore R Args) (db : comm_db R).

Definition ForBinding d (b : Binding) : DeliveryStore R Args := mkDeliveryStore (ds_core d) (Some b).

Definition matches d (m : Message) : bool :=
  match ds_binding d with
  | None => true
  | Some b =>
      negb (bool_decide (bi_id b = "")) && Z.ltb 0 (bi_version b)
      && negb (bool_decide (bi_channel b = "")) && negb (bool_decide (bi_recipient b = ""))
      && bool_decide (ms_binding_id m = bi_id b) && Z.eqb (ms_binding_version m) (bi_version b)
      && bool_decide (ms_channel m = bi_channel b) && bool_decide (ms_recipient m = bi_recipient b)
  end.

Definition binding_message (b : Binding) : Message :=
  mkMessage "" (bi_id b) (bi_version b) (bi_recipient b) "" "" "" "" "" (bi_channel b) 0 "" "" 0 "" "" "".

(** [$1='' OR binding_id=$1 AND binding_version=$2 AND channel=$3 AND
    recipient_snapshot=$4]. *)
Definition in_scope (b : Binding) (r : OutboxRow) : bool :=
  bool_decide (bi_id b = "")
  || (bool_decide (ob_binding_id r = Some (bi_id b))
      && bool_decide (ob_binding_version r = Some (bi_version b))
      && bool_decide (ob_channel r = bi_channel b)
      && bool_decide (ob_recipient r = Some (bi_recipient b))).

Definition is_publication (r : OutboxRow) : bool := bool_decide (is_Some (ob_publication_id r)).

(** The UPDATEs of this store leave [updated_at]. *)
Definition quarantine_publication (r : OutboxRow) : OutboxRow :=
  ob_set "delivery_unknown" (ob_attempt_count r) (ob_next_attempt_at r) "" None (ob_channel_ack r)
    "sending_claim_expired" (ob_updated_at r) r.
Definition abandon_publication (r : OutboxRow) : OutboxRow :=
  ob_set "failed" (ob_attempt_count r) (ob_next_attempt_at r) (ob_claim_id r) (ob_claim_until r)
    (ob_channel_ack r) "delivery_deadline_exceeded" (ob_updated_at r) r.
Definition deny_publication (r : OutboxRow) : OutboxRow :=
  ob_set "failed" (ob_attempt_count r) (ob_next_attempt_at r) "" None (ob_channel_ack r)
    "policy_denied" (ob_updated_at r) r.

(** SQL equality of two columns that may be NULL. *)
Definition sql_eq (a b : option string) : bool :=
  match a, b with Some x, Some y => bool_decide (x = y) | _, _ => false end.

Definition earlier_chunk_unsent (t : outbox) (r : OutboxRow) : bool :=
  existsb (fun kr =>
      sql_eq (ob_publication_id kr.2) (ob_publication_id r)
      && sql_eq (ob_binding_id kr.2) (ob_binding_id r)
      && Z.ltb (ob_chunk_index kr.2) (ob_chunk_index r)
      && negb (bool_decide (ob_status kr.2 = "sent"))) (map_to_list t).

(** An earlier publication of the session still goes to the same binding. *)
Definition publication_of db (r : OutboxRow) : option PublicationRow :=
  match ob_publication_id r with Some id => cd_publications db !! id | None => None end.
Definition earlier_publication_open db (t : outbox) (c : PublicationRow) (r : OutboxRow) : bool :=
  existsb (fun kr =>
      sql_eq (ob_binding_id kr.2) (ob_binding_id r)
      && match publication_of db kr.2 with
         | Some pc => bool_decide (pb_session_key pc = pb_session_key c)
                      && Z.ltb (pb_sequence pc) (pb_sequence c)
         | None => false
         end
      && (bool_decide (ob_status kr.2 = "pending") || bool_decide (ob_status kr.2 = "sending")))
    (map_to_list t).

Definition claimable_publication db (b : Binding) (now : Z) (t : outbox) (r : OutboxRow) : bool :=
  match publication_of db r with
  | None => false
  | Some c =>
      bool_decide (ob_status r = "pending") && Z.leb (ob_next_attempt_at r) now
      && Z.ltb now (ob_deadline_at r) && Z.ltb (ob_attempt_count r) 6 && in_scope b r
      && negb (earlier_chunk_unsent t r) && negb (earlier_publication_open db t c r)
  end.

(** [ORDER BY c.publication_sequence,d.chunk_index]. *)
Definition sequence_of db (r : OutboxRow) : Z :=
  match publication_of db r with Some c => pb_sequence c | None => 0 end.
Definition sequence_order db (a b : string * OutboxRow) : Prop :=
  sequence_of db a.2 < sequence_of db b.2
  \/ sequence_of db a.2 = sequence_of db b.2 /\ ob_chunk_index a.2 <= ob_chunk_index b.2.
#[global] Instance sequence_order_dec db : RelDecision (sequence_order db).
Proof. intros a b. unfold sequence_order. apply _. Defined.

Definition next_publication db (b : Binding) (env : outbox_env) (n : nat) (t : outbox) :
    option (string * OutboxRow) :=
  head (merge_sort (sequence_order db)
    (filter (fun kr => claimable_publication db b (oe_clock env n) t kr.2 = true
                       /\ oe_locked env kr.1 = false) (map_to_list t))).

(** The columns of a publication row are not NULL, by a CHECK. *)
Definition scan_publication (id : string) (r : OutboxRow) : Message :=
  mkMessage (default "" (ob_publication_id r)) (default "" (ob_binding_id r))
    (default 0 (ob_binding_version r)) (default "" (ob_recipient r))
    (default "" (ob_representation r)) id "" (ob_run_id r) (ob_session_key r) (ob_channel r)
    (ob_chunk_index r) (ob_content r) (ob_status r) (ob_attempt_count r) (ob_claim_id r) "" "".

Definition guards_missing d : bool :=
  match co_source_guard (ds_core d), co_channel_guard (ds_core d) with
  | Some _, Some _ => false
  | _, _ => true
  end.

Definition minute : Z := 60 * second.

(** ** Claims *)

(** The faults are those of the four statements and of [rand.Read]. *)
Definition DeliveryClaim d (env : outbox_env) (random : string) (ttl : Z) db :
    comm_db R * res (option Message) :=
  let b := default no_binding (ds_binding d) in
  if guards_missing d || Z.leb ttl 0 || Z.ltb minute ttl then (db, Err ErrCommunicationDenied) else
  match oe_fault env 3 with Some e => (db, Err e) | None =>
  if match ds_binding d with Some b => negb (matches d (binding_message b)) | None => false end
  then (db, Err ErrCommunicationDenied) else
  match oe_fault env 0, oe_fault env 1, oe_fault env 4, oe_fault env 2 with
  | Some e, _, _, _ | None, Some e, _, _ | None, None, Some e, _ | None, None, None, Some e =>
      (db, Err e)
  | None, None, None, None =>
      let t := cd_outbox db in
      let t1 := update_outbox (fun r => is_publication r && claim_expired (oe_clock env 0) r
                                        && in_scope b r) quarantine_publication t in
      let t2 := update_outbox (fun r => is_publication r && overdue (oe_clock env 1) r
                                        && in_scope b r) abandon_publication t1 in
      let commit {A} (t' : outbox) (a : A) :=
        let (t3, out) := ob_commit env t t' a in (with_outbox t3 db, out) in
      match next_publication db b env 2 t2 with
      | None => commit t2 None
      | Some (id, r) =>
          let r' := claimed_row (ob_updated_at r) random ttl (oe_clock env 2) r in
          commit (<[id := r']> t2) (Some (scan_publication id r'))
      end
  end end.

(** ** Authorization of a send *)

(** [deny]: the claim is given up; its UPDATE is a transaction of its own. *)
Definition deny_claim (env : outbox_env) (m : Message) db : comm_db R * res unit :=
  let t := cd_outbox db in
  let t' := match t !! ms_notification_id m with
            | Some r => if claim_live (oe_clock env 9) m r
                        then <[ms_notification_id m := deny_publication r]> t else t
            | None => t
            end in
  match ob_commit env t t' tt with
  | (t3, Ok _) => (with_outbox t3 db, Err ErrCommunicationDenied)
  | (t3, Err e) => (with_outbox t3 db, Err e)
  end.

(** The task of a publication, as the first query joins it: none, or one of the
    same owner at the same revisions which may go on. *)
Definition task_current (with_owner : bool) db (p : PublicationRow) : bool :=
  match pb_task_id p with
  | None => true
  | Some id =>
      match cd_tasks db !! id with
      | None => false
      | Some t =>
          (negb with_owner || bool_decide (tk_owner_id t = pb_owner_id p))
          && Z.eqb (tk_revision t) (pb_task_revision p)
          && Z.eqb (tk_constraints_revision t) (pb_constraints_revision p)
          && negb (bool_decide (tk_status t ∈ ["cancelled"; "paused"; "blocked"]))
      end
  end.

Definition binding_current (b : BindingRow) (p : PublicationRow) (r : OutboxRow) : bool :=
  bool_decide (Some (bn_version b) = ob_binding_version r)
  && bool_decide (bn_owner_id b = pb_owner_id p) && bn_enabled b && bn_verified b
  && bool_decide (Some (bn_recipient b) = ob_recipient r).

(** The row, its publication and its binding. *)
Definition joined db (id : string) : option (OutboxRow * PublicationRow * BindingRow) :=
  r ← cd_outbox db !! id;
  p ← publication_of db r;
  bid ← ob_binding_id r;
  b ← cd_bindings db !! bid;
  Some (r, p, b).

(** The first query: kind, task and owner of the publication. *)
Definition publication_facts (now : Z) (m : Message) db : option (string * string * string) :=
  match joined db (ms_notification_id m) with
  | None => None
  | Some (r, p, b) =>
      if claim_live now m r && bool_decide (ob_content r = ms_content m)
         && bool_decide (ob_recipient r = Some (ms_recipient m))
         && sql_eq (ob_representation r) (dg_jsonb (ms_representation m))
         && bool_decide (ob_run_id r = ms_run_id m)
         && bool_decide (ob_publication_id r = Some (ms_publication_id m))
         && bool_decide (ob_binding_id r = Some (ms_binding_id m))
         && bool_decide (ob_binding_version r = Some (ms_binding_version m))
         && bool_decide (ob_channel r = ms_channel m) && bool_decide (bn_channel b = ob_channel r)
         && binding_current b p r
         && bool_decide (cd_session_user db !! pb_session_key p = Some (pb_owner_id p))
         && task_current true db p && negb (ob_privacy_redacted r)
      then Some (pb_kind p, default "" (pb_task_id p), pb_owner_id p)
      else None
  end.

(** A widget is sent while its question can be answered, or when its later
    states can be shown. *)
Definition interaction_current db (now : Z) (projections : bool) (publication : string) : bool :=
  existsb (fun kx =>
      bool_decide (ix_publication_id kx.2 = publication) && negb (ix_privacy_redacted kx.2)
      && ((bool_decide (ix_state kx.2 = "open")
           && match ix_expires_at kx.2 with None => true | Some e => Z.ltb now e end)
          || (projections && negb (bool_decide (ix_state kx.2 = "open")))))
    (map_to_list (cd_interactions db)).

(** The last query. *)
Definition still_current (now : Z) (projections : bool) (m : Message) db : bool :=
  match joined db (ms_notification_id m) with
  | None => false
  | Some (r, p, b) =>
      claim_live now m r && negb (ob_privacy_redacted r) && negb (pb_privacy_redacted p)
      && binding_current b p r && task_current false db p
      && (negb (bool_decide (pb_kind p = "widget"))
          || interaction_current db now projections (default "" (ob_publication_id r)))
  end.

(** The clock is read by the first query (0), by the process (1), by the query
    of the time (2), by the last query (3) and by [deny] (9). *)
Definition DeliveryAuthorizeSend d (env : outbox_env) (m : Message) db : comm_db R * res unit :=
  match matches d m, co_source_guard (ds_core d), co_channel_guard (ds_core d) with
  | true, Some source, Some channel =>
      let deny := deny_claim env m db in
      let authority (task owner : string) (clock : nat) : bool :=
        bool_decide (task = "")
        || bool_decide (dg_task_authority db task owner (oe_clock env clock) = None) in
      match oe_fault env 4 with
      | Some e => (db, Err e)
      | None =>
          match (if bool_decide (oe_fault env 0 = None)
                 then publication_facts (oe_clock env 0) m db else None) with
          | None => deny
          | Some (kind, task, owner) =>
              if negb (authority task owner 1%nat) then deny else
              if negb (bool_decide (source 0%nat db (ms_run_id m) = None)) then deny else
              match dg_decode_args ("communication." +:+ kind) (ms_representation m) with
              | Err _ => deny
              | Ok a =>
                  let b := mkBinding (ms_binding_id m) (ms_channel m) (ms_recipient m)
                             (ms_binding_version m) false [] in
                  if negb (bool_decide (channel db (ms_run_id m) b a = None)) then deny else
                  if negb (bool_decide (source 1%nat db (ms_run_id m) = None)) then deny else
                  if negb (bool_decide (task = ""))
                     && negb (bool_decide (oe_fault env 2 = None)) then deny else
                  if negb (authority task owner 2%nat) then deny else
                  if bool_decide (oe_fault env 3 = None)
                     && still_current (oe_clock env 3) (co_widget_projections (ds_core d)) m db
                  then match oe_commit env with
                       | None => (db, Ok tt)
                       | Some (_, e) => (db, Err e)
                       end
                  else deny
              end
          end
      end
  | _, _, _ => (db, Err ErrCommunicationDenied)
  end.

Definition DeliveryFinish d (env : outbox_env) (m : Message) (o : Outcome) db : comm_db R * res unit :=
  if negb (matches d m) then (db, Err ErrCommunicationDenied) else
  let (t, out) := FinishMessage env m o (cd_outbox db) in (with_outbox t db, out).

(** ** The rows of a publication *)

(** The unique index on [(publication_id, binding_id, binding_version,
    chunk_index)]. *)
Definition part_taken (pub : string) (b : Binding) (i : Z) (t : outbox) : bool :=
  existsb (fun kr => bool_decide (ob_publication_id kr.2 = Some pub)
                     && bool_decide (ob_binding_id kr.2 = Some (bi_id b))
                     && bool_decide (ob_binding_version kr.2 = Some (bi_version b))
                     && Z.eqb (ob_chunk_index kr.2) i) (map_to_list t).

Definition part_id (pub : string) (b : Binding) (i : nat) : string :=
  pub +:+ ":" +:+ bi_id b +:+ ":" +:+ pretty (bi_version b) +:+ ":" +:+ pretty (Z.of_nat i).

Definition part_row (env : outbox_env) (pub run key : string) (b : Binding)
    (status code representation : string) (i : nat) (part : string) : OutboxRow :=
  mkOutboxRow None run key (bi_channel b) (Z.of_nat i) part status 0 (oe_now env)
    (oe_clock env i + 24 * 3600 * second) "" None "" code (oe_now env) (oe_now env) false ""
    (Some pub) (Some (bi_id b)) (Some (bi_version b)) (Some (bi_recipient b)) (Some representation).

Fixpoint insert_parts (env : outbox_env) (pub run key : string) (b : Binding)
    (status code representation : string) (i : nat) (parts : list string) (t : outbox) :
    outbox * res unit :=
  match parts with
  | [] => (t, Ok tt)
  | part :: rest =>
      match oe_fault env i with
      | Some e => (t, Err e)
      | None =>
          let id := part_id pub b i in
          if bool_decide (is_Some (t !! id)) || part_taken pub b (Z.of_nat i) t
          then (t, Err err_unique) else
          insert_parts env pub run key b status code representation (S i) rest
            (<[id := part_row env pub run key b status code representation i part]> t)
      end
  end.

(** One destination: what its policy denies is stored as failed, without the
    text. *)
Fixpoint insert_bindings (env : outbox_env) (web : bool) (pub run key canon : string)
    (plans : gmap string (list string)) (denied : gset string) (bs : list Binding) (t : outbox) :
    outbox * res unit :=
  match bs with
  | [] => (t, Ok tt)
  | b :: rest =>
      let refused := bool_decide (bi_id b ∈ denied) in
      let status := if refused then "failed"
                    else if bool_decide (bi_channel b = "web") && web then "result_ready"
                    else "pending" in
      let code := if refused then "policy_denied" else "" in
      let parts := if refused then [""] else default [] (plans !! bi_id b) in
      match dg_jsonb (if refused then "{}" else canon), parts with
      | None, _ :: _ => (t, Err (Errorf "invalid input syntax for type json"))
      | representation, _ =>
          match insert_parts env pub run key b status code (default "" representation) 0 parts t with
          | (t', Ok _) => insert_bindings env web pub run key canon plans denied rest t'
          | (t', Err e) => (t', Err e)
          end
      end
  end.

(** The writes of [applyTx] to the two tables of this file; its transaction
    is rolled back on an error. *)
Definition store_publication (env : outbox_env) (web : bool) (pub : string) (p : PublicationRow)
    (run canon : string) (plans : gmap string (list string)) (denied : gset string)
    (bs : list Binding) db : comm_db R * res unit :=
  if bool_decide (is_Some (cd_publications db !! pub)) then (db, Err err_unique) else
  match insert_bindings env web pub run (pb_session_key p) canon plans denied bs (cd_outbox db) with
  | (_, Err e) => (db, Err e)
  | (t, Ok _) =>
      (mkCommDb t (<[pub := p]> (cd_publications db)) (cd_bindings db) (cd_session_user db)
         (cd_tasks db) (cd_interactions db) (cd_rest db), Ok tt)
  end.

#[global] Instance delivery_claims d : ClaimStore (comm_db R) := {
  cs_Claim := DeliveryClaim d;
  cs_AuthorizeSend := DeliveryAuthorizeSend d;
  cs_Finish := DeliveryFinish d;
}.
End delivery.
