(* ===== verification/OutboxProofs.v ===== *)
(** * OutboxProofs: what notifications go through

    Splitting loses nothing, the reported state is the worst of the chunks,
    every row of [delivery_outbox] follows one life whatever the calls of its
    two stores, chunks are tried in order, and a worker hands a message to its
    channel under a live claim only. *)
From Stdlib Require Import Ascii.
From stdpp Require Import pretty sorting.
From S2P Require Import Prelude GoStrings GoBytes GoHash GoValue GoTime Input Outbox Delivery.
Open Scope Z_scope.
Open Scope go_scope.

(** ** Splitting is lossless and bounded *)

Lemma rune_head_app s r z rest :
  rune_head s = Some (r, z, rest) -> s = r +:+ rest /\ r <> "" /\ 1 <= z <= 2.
Proof.
  unfold rune_head. intros H.
  repeat (case_match; simplify_eq); rewrite ?append_cons; split_and!; try done; lia.
Qed.

Lemma rune_head_None s : rune_head s = None -> s = "".
Proof. unfold rune_head. intros H. by repeat (case_match; simplify_eq). Qed.

(** Decoding a rune looks no further than its own bytes need. *)
Lemma rune_head_prefix r z x y :
  r <> "" -> rune_head (r +:+ (x +:+ y)) = Some (r, z, x +:+ y) ->
  rune_head (r +:+ x) = Some (r, z, x).
Proof.
  intros Hr H.
  destruct r as [|a [|b [|c [|d [|e r]]]]]; [done|..];
    destruct x as [|x1 [|x2 [|x3 x]]]; repeat rewrite append_cons in H |- *;
    repeat change ("" +:+ ?s) with s in H |- *; unfold rune_head in H |- *;
    repeat (case_match; simplify_eq); simplify_eq; try done.
Qed.

Lemma runes_from_fuel n m s : (String.length s <= n)%nat -> (String.length s <= m)%nat ->
  runes_from n s = runes_from m s.
Proof.
  revert m s. induction n as [|n IH]; intros m s Hn Hm.
  - destruct s; [|cbn in Hn; lia]. by destruct m.
  - destruct m as [|m]; [by destruct s; [|cbn in Hm; lia]|]. cbn [runes_from].
    destruct (rune_head s) as [[[r z] rest]|] eqn:E; [|done].
    apply rune_head_app in E as (-> & Hr & _). rewrite length_append in Hn, Hm.
    f_equal. apply IH; destruct r; cbn in *; try done; lia.
Qed.

Lemma runes_eq s :
  runes s = match rune_head s with Some (r, z, rest) => (r, z) :: runes rest | None => [] end.
Proof.
  unfold runes at 1. destruct s as [|a s]; [done|].
  change (String.length (String a s)) with (S (String.length s)). cbn [runes_from].
  destruct (rune_head (String a s)) as [[[r z] rest]|] eqn:E; [|done]. f_equal.
  apply rune_head_app in E as (E & Hr & _). apply runes_from_fuel; [|done].
  apply (f_equal String.length) in E. rewrite length_append in E.
  destruct r; [done|]. cbn in E. lia.
Qed.

(** Induction along the runes of a text. *)
Lemma runes_ind (P : string -> Prop) :
  P "" ->
  (forall r z rest, rune_head (r +:+ rest) = Some (r, z, rest) -> r <> "" -> 1 <= z <= 2 ->
     P rest -> P (r +:+ rest)) ->
  forall s, P s.
Proof.
  intros H0 HS s. remember (String.length s) as n eqn:Hn.
  revert s Hn. induction n as [n IH] using lt_wf_ind. intros s ->.
  destruct (rune_head s) as [[[r z] rest]|] eqn:E.
  - pose proof (rune_head_app _ _ _ _ E) as (-> & Hr & Hz). apply (HS r z); [done..|].
    eapply (IH (String.length rest)); [|done]. rewrite length_append.
    destruct r; [done|cbn; lia].
  - by rewrite (rune_head_None _ E).
Qed.

(** The text of a list of runes. *)
Definition rune_text (rs : list (string * Z)) : string := foldr String.append "" (fst <$> rs).

Lemma rune_text_app l1 l2 : rune_text (l1 ++ l2) = rune_text l1 +:+ rune_text l2.
Proof.
  unfold rune_text. rewrite fmap_app foldr_app. generalize (fst <$> l1) as l.
  induction l as [|x l IH]; [done|]. cbn. by rewrite IH append_assoc.
Qed.

Lemma rune_text_runes s : rune_text (runes s) = s.
Proof.
  induction s as [|r z rest E Hr Hz IH] using runes_ind; [done|].
  rewrite runes_eq E. unfold rune_text in *. cbn. by rewrite IH.
Qed.

(** A stretch of the runes of a text is the runes of its own text. *)
Lemma runes_segment s l1 l2 l3 : runes s = l1 ++ l2 ++ l3 -> runes (rune_text l2) = l2.
Proof.
  revert l1 l2. induction s as [|r z rest E Hr Hz IH] using runes_ind; intros l1 l2 H.
  - symmetry in H. apply app_eq_nil in H as [-> H]. by apply app_eq_nil in H as [-> _].
  - rewrite runes_eq E in H. destruct l1 as [|x l1]; [|simplify_list_eq; by apply (IH l1)].
    destruct l2 as [|x l2]; [done|]. injection H as <- H.
    rewrite -(rune_text_runes rest) H rune_text_app in E.
    apply rune_head_prefix in E; [|done].
    change (rune_text ((r, z) :: l2)) with (r +:+ rune_text l2). rewrite runes_eq E.
    by rewrite (IH []).
Qed.

Lemma runes_sizes s : Forall (fun r => r.1 <> "" /\ 1 <= r.2 <= 2) (runes s).
Proof.
  induction s as [|r z rest E Hr Hz IH] using runes_ind; [constructor|].
  rewrite runes_eq E. by constructor.
Qed.

Lemma utf8_valid_rune r z rest : rune_head (r +:+ rest) = Some (r, z, rest) ->
  utf8_valid (r +:+ rest) = true -> utf8_valid rest = true /\
  forall t, utf8_valid t = true -> utf8_valid (r +:+ t) = true.
Proof.
  intros E. destruct (r +:+ rest) as [|a s] eqn:Es; [done|]. cbn [utf8_valid].
  intros H. unfold rune_head, in_range in *.
  repeat (case_match; simplify_eq); try done;
    rewrite ?andb_true_iff in H; destruct_and?; split; try done; intros t Ht;
    repeat rewrite append_cons; change ("" +:+ t) with t; cbn [utf8_valid]; unfold in_range;
    repeat (case_match; simplify_eq); rewrite ?andb_true_iff; split_and?;
    first [done | lia].
Qed.

(** The runes of valid UTF-8 make valid UTF-8 in any selection. *)
Lemma utf8_valid_runes s : utf8_valid s = true ->
  Forall (fun r => forall t, utf8_valid t = true -> utf8_valid (r.1 +:+ t) = true) (runes s).
Proof.
  induction s as [|r z rest E Hr Hz IH] using runes_ind; [constructor|].
  intros [H1 H2]%(utf8_valid_rune _ _ _ E). rewrite runes_eq E. constructor; eauto.
Qed.

Lemma utf8_valid_text rs :
  Forall (fun r => forall t, utf8_valid t = true -> utf8_valid (r.1 +:+ t) = true) rs ->
  utf8_valid (rune_text rs) = true.
Proof. induction 1 as [|r rs H _ IH]; [done|]. by apply H. Qed.

Definition units (rs : list (string * Z)) : Z := foldr Z.add 0 (snd <$> rs).

Lemma units_app l1 l2 : units (l1 ++ l2) = units l1 + units l2.
Proof. unfold units. induction l1 as [|x l1 IH]; [done|]. cbn in *. lia. Qed.

(** The parts of a text: stretches of its runes, none empty, none over the
    limit, each but the last too full for one more rune. *)
Fixpoint packed (limit : Z) (segs : list (list (string * Z))) : Prop :=
  match segs with
  | [] => True
  | seg :: rest =>
      seg <> [] /\ units seg <= limit /\ (rest <> [] -> limit - 1 <= units seg)
      /\ packed limit rest
  end.

Lemma split_loop_packed limit rs seg : 2 <= limit ->
  Forall (fun r => r.1 <> "" /\ 1 <= r.2 <= 2) (seg ++ rs) -> units seg <= limit ->
  (rs <> [] \/ seg <> []) ->
  exists segs, split_loop limit (rune_text seg) (units seg) rs = rune_text <$> segs
    /\ concat segs = seg ++ rs /\ packed limit segs.
Proof.
  intros Hl. revert seg. induction rs as [|[r z] rs IH]; intros seg HF Hu Hne; cbn [split_loop].
  - destruct Hne as [Hne|Hne]; [done|]. exists [seg]. rewrite bool_decide_false.
    + destruct seg as [|[x k] seg]; [done|]. rewrite app_nil_r in HF.
      apply Forall_cons in HF as [[Hx _] _]. change (x +:+ rune_text seg <> ""). by destruct x.
    + split; [done|split; [by rewrite /= app_nil_r|]]. cbn. by repeat split.
  - assert (HF' := HF). apply Forall_app in HF' as [HFs [[Hr Hz] HFr]%Forall_cons]. cbn in Hr, Hz.
    assert (Hone : units [(r, z)] = z) by (unfold units; cbn; lia).
    destruct (Z.ltb limit (units seg + z)) eqn:E.
    + assert (Hs : seg <> []) by (intros ->; cbn in E; lia).
      destruct (IH [(r, z)]) as (segs & H1 & H2 & H3); [by constructor|lia|by right|].
      exists (seg :: segs). rewrite Hone in H1. rewrite fmap_cons -H1.
      change (rune_text [(r, z)]) with (r +:+ ""). rewrite append_nil_r.
      split; [done|split].
      * cbn [concat]. by rewrite H2.
      * cbn [packed]. repeat split; [done|done|intros _; lia|done].
    + destruct (IH (seg ++ [(r, z)])) as (segs & H1 & H2 & H3).
      * by rewrite -app_assoc.
      * rewrite units_app Hone. lia.
      * right. by destruct seg.
      * exists segs. rewrite rune_text_app units_app Hone in H1.
        change (rune_text [(r, z)]) with (r +:+ "") in H1. rewrite append_nil_r in H1.
        split; [done|split; [by rewrite H2 -app_assoc|done]].
Qed.

Lemma packed_nth limit segs i seg : packed limit segs -> segs !! i = Some seg ->
  seg <> [] /\ units seg <= limit /\ ((S i < length segs)%nat -> limit - 1 <= units seg).
Proof.
  revert i. induction segs as [|sg segs IH]; intros i; [done|]. intros (H1 & H2 & H3 & H4).
  destruct i as [|i]; cbn.
  - intros [= <-]. split_and!; [done..|]. intros Hlt. apply H3. by destruct segs; [cbn in *; lia|].
  - intros Hi. destruct (IH i H4 Hi) as (? & ? & H). split_and!; [done..|].
    intros Hlt. apply H. lia.
Qed.

Lemma concat_segment {A} (segs : list (list A)) i seg : segs !! i = Some seg ->
  exists l1 l3, concat segs = l1 ++ seg ++ l3.
Proof.
  intros H. rewrite -(take_drop_middle _ _ _ H) concat_app. cbn. eauto.
Qed.

Definition split_limit (limit : Z) : Z := if Z.ltb limit 2 then 4096 else limit.

Lemma rune_text_concat segs : foldr String.append "" (rune_text <$> segs) = rune_text (concat segs).
Proof. induction segs as [|sg segs IH]; [done|]. rewrite fmap_cons. cbn [foldr concat]. by rewrite IH rune_text_app. Qed.

Lemma Split_segments content limit : content <> "" -> exists segs,
  Split content limit = rune_text <$> segs /\ concat segs = runes content
  /\ packed (split_limit limit) segs.
Proof.
  intros Hne.
  destruct (split_loop_packed (split_limit limit) (runes content) []) as (segs & H1 & H2 & H3).
  - unfold split_limit. destruct (Z.ltb_spec limit 2); lia.
  - apply runes_sizes.
  - unfold split_limit. destruct (Z.ltb_spec limit 2); cbn; lia.
  - left. intros E. apply Hne. by rewrite -(rune_text_runes content) E.
  - eauto.
Qed.

(** [Split] loses nothing and cuts no rune: the parts joined are the
    content; none is empty; each has at most the limit of UTF-16 units (4096
    when the limit given is under two); every part but the last is within one
    unit of the limit; and the parts of valid UTF-8 are valid UTF-8. *)
Theorem Split_lossless (content : string) (limit : Z) :
  let parts := Split content limit in
  foldr String.append "" parts = content
  /\ (utf8_valid content = true -> Forall (fun p => utf8_valid p = true) parts)
  /\ forall i p, parts !! i = Some p ->
       p <> "" /\ utf16_len p <= split_limit limit
       /\ ((S i < length parts)%nat -> split_limit limit - 1 <= utf16_len p).
Proof.
  cbv zeta. destruct (decide (content = "")) as [-> |Hne].
  { unfold Split. change (runes "") with (@nil (string * Z)). cbn. split_and!; done. }
  destruct (Split_segments content limit Hne) as (segs & -> & Hc & Hp). split_and!.
  - by rewrite rune_text_concat Hc rune_text_runes.
  - intros Hv%utf8_valid_runes. apply Forall_fmap, Forall_forall. intros seg Hin. cbn.
    apply utf8_valid_text. apply list_elem_of_lookup in Hin as [i Hi].
    destruct (concat_segment _ _ _ Hi) as (l1 & l3 & E). rewrite -Hc E in Hv.
    by apply Forall_app in Hv as [_ [Hv _]%Forall_app].
  - intros i p Hi. rewrite list_lookup_fmap in Hi. apply fmap_Some in Hi as (seg & Hi & ->).
    destruct (packed_nth _ _ _ _ Hp Hi) as (H1 & H2 & H3).
    destruct (concat_segment _ _ _ Hi) as (l1 & l3 & E). rewrite Hc in E.
    pose proof (runes_segment _ _ _ _ E) as Hs. unfold utf16_len. rewrite Hs length_fmap.
    split_and!; [|done..]. intros Ht. rewrite Ht in Hs. by cbn in Hs; subst.
Qed.

(** ** The state of a result *)

Definition severity (status : string) : Z :=
  if bool_decide (status = "delivery_unknown") then 4
  else if bool_decide (status = "failed") then 3
  else if bool_decide (status = "pending") || bool_decide (status = "sending") then 2
  else if bool_decide (status = "result_ready") then 1 else 0.

Definition worst (messages : list Message) : Z :=
  foldr Z.max 0 ((fun m => severity (ms_status m)) <$> messages).

Definition state_named (n : Z) : string :=
  if Z.eqb n 4 then "delivery_unknown" else if Z.eqb n 3 then "failed"
  else if Z.eqb n 2 then "pending" else if Z.eqb n 1 then "result_ready" else "sent".

Lemma severity_cases s : severity s = 0 \/ severity s = 1 \/ severity s = 2 \/ severity s = 3
  \/ severity s = 4.
Proof. unfold severity. repeat case_match; lia. Qed.

Lemma worst_range ms : 0 <= worst ms <= 4.
Proof.
  unfold worst. induction ms as [|m ms IH]; cbn; [lia|].
  pose proof (severity_cases (ms_status m)). unfold worst in IH. lia.
Qed.

(** One round of the loop. *)
Lemma state_loop_step n m ms : n ∈ [0; 1; 2; 3] ->
  state_loop (state_named n) (m :: ms)
  = if Z.eqb (severity (ms_status m)) 4 then "delivery_unknown"
    else state_loop (state_named (Z.max n (severity (ms_status m)))) ms.
Proof.
  intros Hn. cbn [state_loop]. unfold severity.
  rewrite !elem_of_cons elem_of_nil in Hn.
  by repeat case_bool_decide; cbn [orb]; destruct Hn as [-> |[-> |[-> |[-> |[]]]]].
Qed.

Lemma state_loop_worst n ms : n ∈ [0; 1; 2; 3] ->
  state_loop (state_named n) ms = state_named (Z.max n (worst ms)).
Proof.
  revert n. induction ms as [|m ms IH]; intros n Hn.
  - rewrite Z.max_l //. rewrite !elem_of_cons elem_of_nil in Hn. cbn. lia.
  - change (worst (m :: ms)) with (Z.max (severity (ms_status m)) (worst ms)).
    pose proof (worst_range ms) as Hw. pose proof (severity_cases (ms_status m)) as Hs.
    rewrite state_loop_step //. rewrite !elem_of_cons elem_of_nil in Hn.
    destruct (Z.eqb_spec (severity (ms_status m)) 4) as [E|E].
    + by replace (Z.max _ (Z.max _ _)) with 4 by lia.
    + rewrite IH; [|by rewrite Z.max_assoc]. rewrite !elem_of_cons elem_of_nil. lia.
Qed.

(** [State] reports the most severe status among the chunks, in the order
    unknown, failed, pending (which a chunk being sent counts as), ready, sent;
    and nothing when there are no chunks. *)
Theorem State_is_worst (messages : list Message) :
  State messages = if bool_decide (messages = []) then "" else state_named (worst messages).
Proof.
  unfold State. destruct messages as [|m ms]; [done|]. rewrite !bool_decide_false //.
  rewrite (state_loop_worst 0); [set_solver|]. by rewrite Z.max_r; [apply worst_range|].
Qed.

(** ** The outcome of a call of the channel *)

Lemma backoff_range n : 0 <= n ->
  second <= wrap64 (wrap64 (Z.shiftl 1 (Z.min n 8)) * second) <= 256 * second.
Proof.
  intros Hn. set (k := Z.min n 8).
  assert (Hk : k ∈ [0; 1; 2; 3; 4; 5; 6; 7; 8]) by (rewrite !elem_of_cons elem_of_nil; lia).
  rewrite !elem_of_cons elem_of_nil in Hk.
  clearbody k. destruct_or? Hk; subst k; vm_compute; split; discriminate.
Qed.

(** The status that an outcome gives. *)
Definition verdict (m : Message) (o : Outcome) : string :=
  if bool_decide (oc_status o = "sent" /\ oc_ack o <> "") then "sent"
  else if bool_decide (oc_status o = "absent")
  then if oc_retryable o && Z.ltb (ms_attempt_count m) 6 then "pending" else "failed"
  else "delivery_unknown".

Lemma DeliveryOutcome_status m o : (DeliveryOutcome m o).1.1 = verdict m o.
Proof.
  unfold DeliveryOutcome, verdict. cbn.
  destruct (decide (oc_status o = "sent")) as [E|E]; [|destruct (decide (oc_status o = "absent"))
    as [E'|E']]; rewrite ?E ?E'; repeat case_bool_decide; cbn; try done; try naive_solver.
Qed.

(** The verdict on an attempt: only an explicit absence that may be retried,
    before the sixth attempt, makes the message pending again, and only a sent
    report with an acknowledgement makes it sent; an absence otherwise fails it
    and every other report leaves it unknown.  The delay is between one second
    and one hour and the stored code is one of the known ones. *)
Theorem DeliveryOutcome_verdict (m : Message) (o : Outcome) : 0 <= ms_attempt_count m ->
  let '(status, code, delay) := DeliveryOutcome m o in
  second <= delay <= hour /\ code ∈ "channel_error" :: safe_codes
  /\ status = verdict m o.
Proof.
  intros Hn. unfold DeliveryOutcome. pose proof (backoff_range _ Hn) as Hb. split_and!.
  1,2: repeat case_match; unfold hour, second in *; lia.
  - unfold safeCode. case_bool_decide; set_solver.
  - exact (DeliveryOutcome_status m o).
Qed.

(** ** The life of a row *)

(** What a notification promises: its status and how often it was tried.
    [retry] allows the way back. *)
Inductive life_step (retry : bool) : string * Z -> string * Z -> Prop :=
  | life_claim n : n < 6 -> life_step retry ("pending", n) ("sending", n + 1)
  | life_close n s : s ∈ ["sent"; "delivery_unknown"; "failed"] ->
      life_step retry ("sending", n) (s, n)
  | life_retry n : retry = true -> life_step retry ("sending", n) ("pending", n)
  | life_fail n : life_step retry ("pending", n) ("failed", n)
  | life_withdraw n : life_step retry ("result_ready", n) ("failed", n).

Definition life (r : OutboxRow) : string * Z := (ob_status r, ob_attempt_count r).

(** What never changes, and the content, which a redaction may only empty. *)
Definition identity (r : OutboxRow) :=
  (ob_result_id r, ob_run_id r, ob_session_key r, ob_channel r, ob_chunk_index r, ob_deadline_at r,
   ob_publication_id r, ob_binding_id r, ob_binding_version r, ob_recipient r).

Definition row_moved (retry : bool) (r r' : OutboxRow) : Prop :=
  identity r' = identity r
  /\ (ob_content r' = ob_content r \/ ob_content r' = "" /\ ob_privacy_redacted r' = true)
  /\ (ob_privacy_redacted r = true -> ob_privacy_redacted r' = true)
  /\ (life r' = life r \/ life_step retry (life r) (life r')).

(** The typing of a row: a known status, at most six attempts, a claim while
    sending and only then, nothing to send after a redaction.  A redaction
    withdraws what was ready of a result and leaves what was ready of a
    publication. *)
Record row_ok (r : OutboxRow) : Prop := mkRowOk {
  ok_status : ob_status r ∈ outbox_statuses;
  ok_attempts : 0 <= ob_attempt_count r <= 6;
  ok_chunk : 0 <= ob_chunk_index r;
  ok_claim : ob_status r = "sending" <-> is_Some (ob_claim_until r);
  ok_tried : ob_status r = "sending" -> 0 < ob_attempt_count r;
  ok_redacted : ob_privacy_redacted r = true ->
    ob_content r = ""
    /\ (ob_status r ∈ ["sent"; "delivery_unknown"; "failed"]
        \/ ob_status r = "result_ready" /\ is_Some (ob_publication_id r));
}.

(** A call may move each row once, and adds rows. *)
Definition evolves (retry : bool) (r r' : OutboxRow) : Prop :=
  row_moved retry r r' /\ (row_ok r -> row_ok r').

Lemma evolves_refl b r : evolves b r r.
Proof. split; [|done]. split_and!; auto. Qed.

Lemma life_step_weaken b x y : life_step false x y -> life_step b x y.
Proof. by destruct 1; constructor. Qed.

Lemma evolves_weaken b r r' : evolves false r r' -> evolves b r r'.
Proof.
  intros [(H1 & H2 & H3 & H4) H5]. split; [split_and!; try done|done].
  destruct H4 as [H4|H4]; [by left|right]. by apply life_step_weaken.
Qed.

Lemma open_not_redacted r s : row_ok r -> ob_status r = s -> s ∈ ["pending"; "sending"] ->
  ob_privacy_redacted r = true -> False.
Proof.
  intros Hok <- Hin Hr. destruct (ok_redacted _ Hok Hr) as [_ H].
  rewrite !elem_of_cons !elem_of_nil in H, Hin. destruct_or!; destruct_and?; congruence.
Qed.

Ltac member := repeat constructor.
Ltac evolve Hs :=
  split; [split; [done|split; [by left|split; [done|right; unfold life; cbn; rewrite Hs]]]
         |intros Hok; pose proof Hok as [Ho1 Ho2 Ho3 Ho4 Ho5 Ho6]; constructor; cbn].

Lemma ob_set_closes b r s next claim ack code upd :
  ob_status r = "sending" -> s ∈ ["sent"; "delivery_unknown"; "failed"] ->
  evolves b r (ob_set s (ob_attempt_count r) next claim None ack code upd r).
Proof.
  intros Hs Hin. evolve Hs; [by constructor| |done..|split|by intros _; apply Ho5|].
  - rewrite !elem_of_cons elem_of_nil in Hin. destruct_or! Hin; subst; member.
  - intros ->. rewrite !elem_of_cons elem_of_nil in Hin. destruct_or! Hin; done.
  - by intros [].
  - intros H. by destruct (open_not_redacted _ _ Hok Hs); [member|].
Qed.

Lemma ob_set_retries r next claim ack code upd :
  ob_status r = "sending" ->
  evolves true r (ob_set "pending" (ob_attempt_count r) next claim None ack code upd r).
Proof.
  intros Hs. evolve Hs; [by constructor|member|done..|by split; [|intros []]|done|].
  intros H. by destruct (open_not_redacted _ _ Hok Hs); [member|].
Qed.

Lemma ob_set_fails b r next claim until ack code upd :
  ob_status r = "pending" -> (until = None \/ until = ob_claim_until r) ->
  evolves b r (ob_set "failed" (ob_attempt_count r) next claim until ack code upd r).
Proof.
  intros Hs Hu. evolve Hs; [by constructor|member|done..|split; [done|]|done|].
  - intros Hi. rewrite Hs in Ho4. destruct Hu as [-> | ->]; [by destruct Hi|by apply Ho4 in Hi].
  - intros H. by destruct (open_not_redacted _ _ Hok Hs); [member|].
Qed.

Lemma claimed_row_evolves b r now claim ttl clock :
  ob_status r = "pending" -> ob_attempt_count r < 6 ->
  evolves b r (claimed_row now claim ttl clock r).
Proof.
  intros Hs Hn. unfold claimed_row. evolve Hs; [by constructor|member|lia|done|done|lia|].
  intros H. by destruct (open_not_redacted _ _ Hok Hs); [member|].
Qed.

Lemma redact_row_evolves b r now redaction :
  evolves b r (redact_row now redaction r).
Proof.
  split.
  - split; [done|split; [by right|split; [done|]]]. unfold life, redact_row. cbn.
    repeat case_bool_decide; cbn; try (by left);
      match goal with H : ob_status r = _ |- _ => rewrite H end; right; constructor; member.
  - intros [Ho1 Ho2 Ho3 Ho4 Ho5 Ho6]. unfold outbox_statuses in Ho1.
    rewrite !elem_of_cons elem_of_nil in Ho1.
    constructor; [| done | done | | |]; unfold redact_row; cbn;
      destruct_or! Ho1; rewrite Ho1; cbn; try done.
    all: first [by member | by split; [done|intros []] | intros _; split; [done|]; left; member].
Qed.

Lemma redact_publication_row_evolves b r redaction : is_Some (ob_publication_id r) ->
  evolves b r (redact_publication_row redaction r).
Proof.
  intros Hp. split.
  - split; [done|split; [by right|split; [done|]]]. unfold life, redact_publication_row. cbn.
    repeat case_bool_decide; cbn; try (by left);
      match goal with H : ob_status r = _ |- _ => rewrite H end; right; constructor; member.
  - intros [Ho1 Ho2 Ho3 Ho4 Ho5 Ho6]. unfold outbox_statuses in Ho1.
    rewrite !elem_of_cons elem_of_nil in Ho1.
    constructor; [| done | done | | |]; unfold redact_publication_row; cbn;
      destruct_or! Ho1; rewrite Ho1; cbn; try done.
    all: first [by member | by split; [done|intros []] 
               | intros _; split; [done|]; first [by right | left; member]].
Qed.

Lemma clear_representation_evolves b r r' : evolves b r r' -> evolves b r (clear_representation r').
Proof. intros [H1 H2]. split; [exact H1|]. intros [Ho1 Ho2 Ho3 Ho4 Ho5 Ho6]%H2. by constructor. Qed.

(** ** What a call does to the table *)

(** Every row stays and evolves; [retry] tells which may go back. *)
Definition table_evolves (retry : string -> bool) (t t' : outbox) : Prop :=
  forall id r, t !! id = Some r -> exists r', t' !! id = Some r' /\ evolves (retry id) r r'.

(** No row is added. *)
Definition no_new (t t' : outbox) : Prop := forall id, is_Some (t' !! id) -> is_Some (t !! id).

(** [r'] is an earlier chunk of what [r] belongs to. *)
Definition precedes (r' r : OutboxRow) : bool :=
  match ob_publication_id r with
  | Some _ => sql_eq (ob_publication_id r') (ob_publication_id r)
              && sql_eq (ob_binding_id r') (ob_binding_id r)
  | None => sql_eq (ob_result_id r') (ob_result_id r)
            && bool_decide (ob_channel r' = ob_channel r)
  end && Z.ltb (ob_chunk_index r') (ob_chunk_index r).

(** A row that is tried again has all its earlier chunks sent. *)
Definition tries_in_order (t t' : outbox) : Prop :=
  forall i j r r1 r', t !! i = Some r -> t' !! i = Some r1 ->
    ob_attempt_count r < ob_attempt_count r1 -> t' !! j = Some r' -> precedes r' r1 = true ->
    ob_status r' = "sent".

Lemma table_evolves_refl b t : table_evolves b t t.
Proof. intros id r H. exists r. split; [done|apply evolves_refl]. Qed.

Lemma tries_refl t : tries_in_order t t.
Proof. intros i j r r1 r' H1 H2. simplify_eq. lia. Qed.

Lemma no_new_refl t : no_new t t.
Proof. by intros id. Qed.

(** An UPDATE of one row. *)
Lemma insert_evolves b t id r r1 : t !! id = Some r -> evolves (b id) r r1 ->
  table_evolves b t (<[id := r1]> t).
Proof.
  intros Hr He i x Hx. destruct (decide (id = i)) as [<- |Hne].
  - simplify_eq. exists r1. by rewrite lookup_insert_eq.
  - exists x. rewrite lookup_insert_ne //. split; [done|apply evolves_refl].
Qed.

Lemma insert_no_new t id r r1 : t !! id = Some r -> no_new t (<[id := r1]> t).
Proof. intros Hr i. destruct (decide (id = i)) as [<- |Hne]; [done|by rewrite lookup_insert_ne]. Qed.

Lemma insert_same_tries t id r r1 : t !! id = Some r -> ob_attempt_count r1 = ob_attempt_count r ->
  tries_in_order t (<[id := r1]> t).
Proof.
  intros Hr Ha i j x x1 x' H1 H2 Hlt. exfalso.
  destruct (decide (id = i)) as [<- |Hne].
  - rewrite lookup_insert_eq in H2. simplify_eq. lia.
  - rewrite lookup_insert_ne // in H2. simplify_eq. lia.
Qed.

(** An UPDATE of the rows of a kind. *)
Lemma update_evolves b p f t : (forall r, p r = true -> evolves false r (f r)) ->
  table_evolves b t (update_outbox p f t).
Proof.
  intros Hf id r Hr. unfold update_outbox. rewrite lookup_fmap Hr. cbn. eexists. split; [done|].
  destruct (p r) eqn:E; [by apply evolves_weaken, Hf|apply evolves_refl].
Qed.

Lemma update_no_new p f t : no_new t (update_outbox p f t).
Proof. intros id. unfold update_outbox. by rewrite lookup_fmap fmap_is_Some. Qed.

Lemma update_lookup p f t id r' : update_outbox p f t !! id = Some r' ->
  exists r, t !! id = Some r /\ r' = if p r then f r else r.
Proof.
  unfold update_outbox. rewrite lookup_fmap. intros H. apply fmap_Some in H as (r & H1 & H2). eauto.
Qed.

Lemma update_same_tries p f t : (forall r, ob_attempt_count (f r) = ob_attempt_count r) ->
  tries_in_order t (update_outbox p f t).
Proof.
  intros Hf i j r r1 r' H1 H2 Hlt. exfalso.
  apply update_lookup in H2 as (x & H2 & ->). rewrite H1 in H2. injection H2 as <-.
  destruct (p r); rewrite ?Hf in Hlt; lia.
Qed.

(** ** Claims *)

(** The two UPDATEs that start a claim move a row at most once, and never to
    pending. *)
Section sweep.
Context (p1 p2 : OutboxRow -> bool) (f1 f2 : OutboxRow -> OutboxRow).
Hypothesis Hp1 : forall r, p1 r = true -> evolves false r (f1 r) /\ ob_status (f1 r) <> "pending".
Hypothesis Hp2 : forall r, p2 r = true ->
  ob_status r = "pending" /\ evolves false r (f2 r) /\ ob_status (f2 r) <> "pending".
Hypothesis Hf1 : forall r, ob_attempt_count (f1 r) = ob_attempt_count r.
Hypothesis Hf2 : forall r, ob_attempt_count (f2 r) = ob_attempt_count r.

Definition swept (t : outbox) : outbox := update_outbox p2 f2 (update_outbox p1 f1 t).

Lemma swept_lookup t id r : t !! id = Some r ->
  exists r', swept t !! id = Some r' /\ evolves false r r' /\ (ob_status r' = "pending" -> r' = r)
    /\ ob_attempt_count r' = ob_attempt_count r.
Proof.
  intros Hr. unfold swept, update_outbox. rewrite !lookup_fmap Hr. cbn. eexists. split; [done|].
  destruct (p1 r) eqn:E1.
  - destruct (Hp1 r E1) as [H1 H2]. destruct (p2 (f1 r)) eqn:E2; [by destruct (Hp2 _ E2)|].
    by rewrite Hf1.
  - destruct (p2 r) eqn:E2.
    + destruct (Hp2 r E2) as (_ & H1 & H2). by rewrite Hf2.
    + split; [apply evolves_refl|done].
Qed.

Lemma swept_inv t id r' : swept t !! id = Some r' -> is_Some (t !! id).
Proof. intros H. apply (update_no_new p1 f1), (update_no_new p2 f2). by exists r'. Qed.

(** The claim of a pending row after the sweep. *)
Lemma swept_claim b t id r now claim ttl clock :
  swept t !! id = Some r -> ob_status r = "pending" -> ob_attempt_count r < 6 ->
  (forall j r', swept t !! j = Some r' -> precedes r' r = true -> ob_status r' = "sent") ->
  let t' := <[id := claimed_row now claim ttl clock r]> (swept t) in
  t !! id = Some r /\ table_evolves b t t' /\ no_new t t' /\ tries_in_order t t'.
Proof.
  intros Hr Hs Hn Hearlier. cbv zeta.
  assert (Hid : t !! id = Some r).
  { destruct (swept_inv _ _ _ Hr) as [x Hx]. destruct (swept_lookup _ _ _ Hx) as (y & H1 & _ & H2 & _).
    simplify_eq. by rewrite H2. }
  split; [done|]. split_and!.
  - intros i x Hx. destruct (decide (id = i)) as [<- |Hne].
    + simplify_eq. rewrite lookup_insert_eq. eexists. split; [done|].
      by apply claimed_row_evolves.
    + rewrite lookup_insert_ne //. destruct (swept_lookup _ _ _ Hx) as (y & H1 & H2 & _).
      exists y. split; [done|by apply evolves_weaken].
  - intros i [x Hx]. destruct (decide (id = i)) as [<- |Hne]; [by exists r|].
    rewrite lookup_insert_ne // in Hx. exact (swept_inv _ _ _ Hx).
  - intros i j x x1 x' H1 H2 Hlt H3 Hp. destruct (decide (id = i)) as [<- |Hne].
    + rewrite lookup_insert_eq in H2. simplify_eq.
      destruct (decide (id = j)) as [<- |Hj].
      * rewrite lookup_insert_eq in H3. simplify_eq. unfold precedes in Hp. cbn in Hp.
        apply andb_true_iff in Hp as [_ Hp]. lia.
      * rewrite lookup_insert_ne // in H3. by apply (Hearlier j).
    + rewrite lookup_insert_ne // in H2. destruct (swept_lookup _ _ _ H1) as (y & H4 & _ & _ & H5).
      simplify_eq. lia.
Qed.

Lemma swept_moves b t : table_evolves b t (swept t) /\ no_new t (swept t) /\ tries_in_order t (swept t).
Proof.
  split_and!.
  - intros i x Hx. destruct (swept_lookup _ _ _ Hx) as (y & H1 & H2 & _).
    exists y. split; [done|by apply evolves_weaken].
  - intros i [x Hx]. exact (swept_inv _ _ _ Hx).
  - intros i j x x1 x' H1 H2 Hlt. destruct (swept_lookup _ _ _ H1) as (y & H4 & _ & _ & H5).
    simplify_eq. lia.
Qed.
End sweep.

(** ** The calls *)

Definition table_ok (retry : string -> bool) (t t' : outbox) : Prop :=
  table_evolves retry t t' /\ no_new t t' /\ tries_in_order t t'.

Lemma table_ok_refl b t : table_ok b t t.
Proof. split_and!; [apply table_evolves_refl|apply no_new_refl|apply tries_refl]. Qed.
#[local] Hint Resolve table_ok_refl : core.

Lemma picked {A} (le : A -> A -> Prop) `{!RelDecision le} (P : A -> Prop) `{Hd : !forall x, Decision (P x)}
    (l : list A) x : head (merge_sort le (filter P l)) = Some x -> P x /\ x ∈ l.
Proof.
  intros Hh. assert (Hin : x ∈ merge_sort le (filter P l)).
  { destruct (merge_sort le (filter P l)); [done|]. cbn in Hh. simplify_eq. left. }
  rewrite (merge_sort_Permutation le) in Hin. by apply list_elem_of_filter in Hin.
Qed.

Lemma no_exists {A} (f : A -> bool) l x : existsb f l = false -> x ∈ l -> f x = false.
Proof.
  intros H Hin. destruct (f x) eqn:E; [|done]. rewrite -H. symmetry. apply existsb_exists.
  exists x. by rewrite -list_elem_of_In.
Qed.

Lemma claim_expired_moves now upd r : claim_expired now r = true ->
  evolves false r (quarantine upd r) /\ ob_status (quarantine upd r) <> "pending".
Proof.
  unfold claim_expired. intros [H _]%andb_true_iff. apply bool_decide_eq_true in H.
  split; [|done]. apply ob_set_closes; [done|member].
Qed.

Lemma overdue_moves now upd r : overdue now r = true ->
  ob_status r = "pending" /\ evolves false r (abandon upd r) /\ ob_status (abandon upd r) <> "pending".
Proof.
  unfold overdue. intros [H _]%andb_true_iff. apply bool_decide_eq_true in H.
  split; [done|split; [|done]]. apply ob_set_fails; [done|by right].
Qed.

Lemma ob_commit_ok {A} b env t t' (a : A) : table_ok b t t' -> table_ok b t (ob_commit env t t' a).1.
Proof. intros H. unfold ob_commit. by destruct (oe_commit env) as [[[] e]|]; cbn. Qed.

Lemma ob_commit_Ok {A} env t t' t2 (a a' : A) : ob_commit env t t' a = (t2, Ok a') -> t2 = t' /\ a' = a.
Proof. unfold ob_commit. destruct (oe_commit env) as [[[] e]|]; by intros [=]. Qed.


(** What a store must know of a row it claims. *)
Definition may_claim (t : outbox) (r : OutboxRow) : Prop :=
  ob_status r = "pending" /\ ob_attempt_count r < 6
  /\ forall j r', t !! j = Some r' -> precedes r' r = true -> ob_status r' = "sent".

Lemma next_message_ok env n t id r : 
  next_message env n t = Some (id, r) -> t !! id = Some r /\ may_claim t r.
Proof.
  intros H. apply picked in H as [[Hc _] Hin]. apply elem_of_map_to_list in Hin. cbn in Hc.
  split; [done|]. unfold claimable in Hc. rewrite !andb_true_iff !negb_true_iff !bool_decide_eq_true in Hc.
  destruct Hc as [[[[[Hs Hp] _] _] Hn] He]. split_and!; [done|lia|]. intros j r' Hj Hpre.
  pose proof (no_exists _ _ (j, r') He) as Hx. cbn in Hx.
  rewrite elem_of_map_to_list in Hx. specialize (Hx Hj).
  unfold precedes in Hpre. rewrite Hp in Hpre.
  destruct (bool_decide (ob_status r' = "sent")) eqn:Es; [by apply bool_decide_eq_true in Es|].
  change (match ob_result_id r' with Some _ => _ | None => false end)
    with (sql_eq (ob_result_id r') (ob_result_id r)) in Hx.
  apply andb_true_iff in Hpre as [Hpre Hlt]. by rewrite Hpre Hlt in Hx.
Qed.

Lemma next_publication_ok {R} (db : comm_db R) b env n t id r :
  next_publication db b env n t = Some (id, r) -> t !! id = Some r /\ may_claim t r.
Proof.
  intros H. apply picked in H as [[Hc _] Hin]. apply elem_of_map_to_list in Hin. cbn in Hc.
  split; [done|]. unfold claimable_publication in Hc.
  destruct (publication_of db r) as [c|] eqn:Ep; [|done].
  rewrite !andb_true_iff !negb_true_iff !bool_decide_eq_true in Hc.
  destruct Hc as [[[[[[Hs _] _] Hn] _] He] _]. split_and!; [done|lia|]. intros j r' Hj Hpre.
  pose proof (no_exists _ _ (j, r') He) as Hx. cbn in Hx.
  rewrite elem_of_map_to_list in Hx. specialize (Hx Hj).
  unfold precedes in Hpre. unfold publication_of in Ep.
  destruct (ob_publication_id r) as [p|] eqn:Epub; [|done].
  destruct (bool_decide (ob_status r' = "sent")) eqn:Es; [by apply bool_decide_eq_true in Es|].
  apply andb_true_iff in Hpre as [Hpre Hlt]. by rewrite Hpre Hlt in Hx.
Qed.

Lemma ClaimMessage_ok b env random ttl t : table_ok b t (ClaimMessage env random ttl t).1.
Proof.
  unfold ClaimMessage. destruct (oe_fault env 0), (oe_fault env 1), (oe_fault env 2); try done.
  pose proof (swept_moves _ _ _ _ (claim_expired_moves (oe_clock env 0) (oe_now env))
    (overdue_moves (oe_clock env 1) (oe_now env)) (fun _ => eq_refl) (fun _ => eq_refl)) as Hsw.
  destruct (next_message env 2 _) as [[id r]|] eqn:E; [|by apply ob_commit_ok].
  apply next_message_ok in E as (Hr & Hs & Hn & He). apply ob_commit_ok.
  by destruct (swept_claim _ _ _ _ (claim_expired_moves (oe_clock env 0) (oe_now env))
    (overdue_moves (oe_clock env 1) (oe_now env)) (fun _ => eq_refl) (fun _ => eq_refl) b t id r
    (oe_now env) random ttl (oe_clock env 2) Hr Hs Hn He) as [_ H].
Qed.

(** What the caller of a claim is given: the row was pending, has one attempt
    more and is held under the new claim. *)
Definition claim_given (t t' : outbox) (random : string) (m : Message) : Prop :=
  exists r r1, t !! ms_notification_id m = Some r /\ t' !! ms_notification_id m = Some r1
    /\ ob_status r = "pending" /\ ob_attempt_count r < 6
    /\ ob_status r1 = "sending" /\ ob_attempt_count r1 = ob_attempt_count r + 1
    /\ ob_claim_id r1 = random /\ is_Some (ob_claim_until r1)
    /\ ob_content r1 = ob_content r
    /\ ms_claim_id m = random /\ ms_content m = ob_content r /\ ms_attempt_count m = ob_attempt_count r1.

Lemma claimed_given t t2 id r now random ttl clock m :
  t !! id = Some r -> ob_status r = "pending" -> ob_attempt_count r < 6 ->
  let r1 := claimed_row now random ttl clock r in
  m = scan_message id r1 \/ m = scan_publication id r1 ->
  claim_given t (<[id := r1]> t2) random m.
Proof.
  intros Hr Hs Hn r1 Hm. assert (Hid : ms_notification_id m = id) by by destruct Hm as [-> | ->].
  exists r, r1. rewrite Hid lookup_insert_eq. destruct Hm as [-> | ->]; cbn; by split_and!.
Qed.

Lemma ClaimMessage_given env random ttl t t' m :
  ClaimMessage env random ttl t = (t', Ok (Some m)) -> claim_given t t' random m.
Proof.
  unfold ClaimMessage. destruct (oe_fault env 0), (oe_fault env 1), (oe_fault env 2); try done.
  destruct (next_message env 2 _) as [[id r]|] eqn:E; [|by intros [_ ?]%ob_commit_Ok].
  apply next_message_ok in E as (Hr & Hs & Hn & He). intros [-> [= ->]]%ob_commit_Ok.
  destruct (swept_claim _ _ _ _ (claim_expired_moves (oe_clock env 0) (oe_now env))
    (overdue_moves (oe_clock env 1) (oe_now env)) (fun _ => eq_refl) (fun _ => eq_refl)
    (fun _ => false) t id r (oe_now env) random ttl (oe_clock env 2) Hr Hs Hn He) as [H _].
  apply (claimed_given t _ id r); auto.
Qed.

Lemma FinishMessage_status m o :
  (DeliveryOutcome m o).1.1 ∈ ["sent"; "delivery_unknown"; "failed"]
  \/ (DeliveryOutcome m o).1.1 = "pending" /\ oc_status o = "absent" /\ oc_retryable o = true.
Proof.
  rewrite DeliveryOutcome_status. unfold verdict. case_bool_decide; [left; member|].
  case_bool_decide; [|left; member]. destruct (oc_retryable o && _) eqn:Er; [|left; member].
  right. by apply andb_true_iff in Er as [Er _].
Qed.

(** A call of [Finish] that reports a retryable absence. *)
Definition reports_absence (m : Message) (o : Outcome) (id : string) : bool :=
  bool_decide (ms_notification_id m = id) && bool_decide (oc_status o = "absent") && oc_retryable o.

Lemma claim_live_sending now m r : claim_live now m r = true -> ob_status r = "sending".
Proof. unfold claim_live. rewrite !andb_true_iff. intros [[_ H] _]. by apply bool_decide_eq_true in H. Qed.

Lemma FinishMessage_ok env m o t : table_ok (reports_absence m o) t (FinishMessage env m o t).1.
Proof.
  unfold FinishMessage. destruct (oe_fault env 0); [done|].
  pose proof (FinishMessage_status m o) as Hst.
  destruct (DeliveryOutcome m o) as [[status code] delay]. cbn in Hst.
  destruct (t !! ms_notification_id m) as [r|] eqn:Hr; [|done].
  destruct (claim_live _ m r) eqn:Hl; [|done]. apply claim_live_sending in Hl.
  apply ob_commit_ok. split_and!.
  - apply (insert_evolves _ _ _ r); [done|]. destruct Hst as [Hst|(-> & Ha & Hr2)].
    + by apply ob_set_closes.
    + unfold reports_absence. rewrite !bool_decide_true // Hr2. by apply ob_set_retries.
  - by apply (insert_no_new _ _ r).
  - by apply (insert_same_tries _ _ r).
Qed.

Lemma redactOutbox_ok b now redaction results t : table_ok b t (redactOutbox now redaction results t).
Proof.
  split_and!; [apply update_evolves|apply update_no_new|by apply update_same_tries].
  intros r _. apply redact_row_evolves.
Qed.

Lemma redact_publication_rows_ok b redaction message t :
  table_ok b t (redact_publication_rows redaction message t).
Proof.
  split_and!.
  - intros id r Hr. unfold redact_publication_rows, update_outbox. rewrite !lookup_fmap Hr. cbn.
    eexists. split; [done|].
    assert (Hx : evolves (b id) r (if bool_decide (ob_publication_id r = Some message)
      && negb (ob_privacy_redacted r) then redact_publication_row redaction r else r)).
    { case_bool_decide as Hp; [|apply evolves_refl]. destruct (negb _); [|apply evolves_refl].
      apply redact_publication_row_evolves. by rewrite Hp. }
    destruct (_ && _ && _); [by apply clear_representation_evolves|done].
  - intros id [r' H]. apply update_lookup in H as (x & H & _).
    by apply update_lookup in H as (r & ? & _).
  - intros i j r r1 r' H1 H2 Hlt. exfalso. apply update_lookup in H2 as (x & H2 & ->).
    apply update_lookup in H2 as (y & H2 & ->). rewrite H1 in H2. injection H2 as <-.
    repeat case_match; cbn in Hlt; lia.
Qed.

(** A send is authorized on the row as it is, which the call leaves alone. *)
Definition send_allowed (now : Z) (m : Message) (t : outbox) : Prop :=
  exists r, t !! ms_notification_id m = Some r /\ claim_live now m r = true
    /\ ob_content r = ms_content m /\ ob_privacy_redacted r = false.

Lemma AuthorizeSend_allowed env m t :
  AuthorizeSend env m t = Ok tt -> send_allowed (oe_clock env 0) m t.
Proof.
  unfold AuthorizeSend. destruct (oe_fault env 0); [done|].
  destruct (t !! ms_notification_id m) as [r|] eqn:Hr; [|done].
  destruct (claim_live _ m r) eqn:Hl; [|done]. cbn. case_bool_decide; [|done].
  destruct (ob_privacy_redacted r) eqn:Hp; [done|]. intros _. by exists r.
Qed.

Section publications.
Context {R Args : Type} `{!DeliveryGuards R Args}.
Implicit Types (d : DeliveryStore R Args) (db : comm_db R).

Lemma quarantine_publication_moves b now r :
  is_publication r && claim_expired now r && in_scope b r = true ->
  evolves false r (quarantine_publication r) /\ ob_status (quarantine_publication r) <> "pending".
Proof.
  unfold claim_expired. rewrite !andb_true_iff. intros [[_ [H _]] _].
  apply bool_decide_eq_true in H. split; [|done]. apply ob_set_closes; [done|member].
Qed.

Lemma abandon_publication_moves b now r :
  is_publication r && overdue now r && in_scope b r = true ->
  ob_status r = "pending" /\ evolves false r (abandon_publication r)
  /\ ob_status (abandon_publication r) <> "pending".
Proof.
  unfold overdue. rewrite !andb_true_iff. intros [[_ [H _]] _].
  apply bool_decide_eq_true in H. split; [done|split; [|done]]. apply ob_set_fails; [done|by right].
Qed.

Lemma DeliveryClaim_ok d b env random ttl db :
  table_ok b (cd_outbox db) (cd_outbox (DeliveryClaim d env random ttl db).1)
  /\ forall db' m, DeliveryClaim d env random ttl db = (db', Ok (Some m)) ->
       claim_given (cd_outbox db) (cd_outbox db') random m.
Proof.
  unfold DeliveryClaim. destruct (guards_missing d || _ || _); [done|].
  destruct (oe_fault env 3); [done|].
  destruct (match ds_binding d with Some _ => _ | None => false end); [done|].
  destruct (oe_fault env 0), (oe_fault env 1), (oe_fault env 4), (oe_fault env 2); try done.
  set (bb := default no_binding (ds_binding d)). set (t := cd_outbox db).
  set (M1 := quarantine_publication_moves bb (oe_clock env 0)).
  set (M2 := abandon_publication_moves bb (oe_clock env 1)).
  destruct (next_publication db bb env 2 _) as [[id r]|] eqn:E.
  - apply next_publication_ok in E as (Hr & Hs & Hn & He).
    destruct (swept_claim _ _ _ _ M1 M2 (fun _ => eq_refl) (fun _ => eq_refl) b t id r
      (ob_updated_at r) random ttl (oe_clock env 2) Hr Hs Hn He) as [Hid Hok].
    destruct (ob_commit env t _ _) as [t3 out] eqn:Ec. split.
    + cbn. pose proof (ob_commit_ok b env t _ (Some (scan_publication id
        (claimed_row (ob_updated_at r) random ttl (oe_clock env 2) r))) Hok) as H.
      by rewrite Ec in H.
    + intros db' m [= <- ->]. apply ob_commit_Ok in Ec as [-> [= ->]]. cbn.
      apply (claimed_given t _ id r); auto.
  - destruct (ob_commit env t _ _) as [t3 out] eqn:Ec. split.
    + cbn. pose proof (ob_commit_ok b env t _ (@None Message)
        (swept_moves _ _ _ _ M1 M2 (fun _ => eq_refl) (fun _ => eq_refl) b t)) as H.
      by rewrite Ec in H.
    + intros db' m [= <- ->]. by apply ob_commit_Ok in Ec as [_ ?].
Qed.

Lemma deny_claim_ok b env m db :
  table_ok b (cd_outbox db) (cd_outbox (deny_claim env m db).1)
  /\ (deny_claim env m db).2 <> Ok tt.
Proof.
  assert (Hok : table_ok b (cd_outbox db) (match cd_outbox db !! ms_notification_id m with
            | Some r => if claim_live (oe_clock env 9) m r
                        then <[ms_notification_id m := deny_publication r]> (cd_outbox db)
                        else cd_outbox db
            | None => cd_outbox db
            end)).
  { destruct (cd_outbox db !! ms_notification_id m) as [r|] eqn:Hr; [|done].
    destruct (claim_live _ m r) eqn:Hl; [|done]. apply claim_live_sending in Hl. split_and!.
    - apply (insert_evolves _ _ _ r); [done|]. apply ob_set_closes; [done|member].
    - by apply (insert_no_new _ _ r).
    - by apply (insert_same_tries _ _ r). }
  apply (ob_commit_ok b env _ _ tt) in Hok. unfold deny_claim.
  by destruct (ob_commit env _ _ tt) as [t3 [[]|e]].
Qed.

Lemma publication_facts_allowed env m db x :
  publication_facts (oe_clock env 0) m db = Some x -> send_allowed (oe_clock env 0) m (cd_outbox db).
Proof.
  unfold publication_facts, joined. intros H.
  destruct (cd_outbox db !! ms_notification_id m) as [r|] eqn:Hr; [|done]. cbn in H.
  destruct (publication_of db r) as [p|]; [|done]. cbn in H.
  destruct (ob_binding_id r) as [bid|]; [|done]. cbn in H.
  destruct (cd_bindings db !! bid) as [b|]; [|done]. cbn in H.
  case_match eqn:E; [|done]. rewrite !andb_true_iff negb_true_iff in E. destruct_and! E.
  exists r. unfold claim_live. rewrite !andb_true_iff.
  split_and!; try done. by eapply bool_decide_eq_true.
Qed.

Lemma DeliveryAuthorizeSend_ok d b env m db :
  let out := DeliveryAuthorizeSend d env m db in
  table_ok b (cd_outbox db) (cd_outbox out.1)
  /\ (out.2 = Ok tt -> out.1 = db /\ matches d m = true /\ send_allowed (oe_clock env 0) m (cd_outbox db)).
Proof.
  cbv zeta. unfold DeliveryAuthorizeSend. destruct (deny_claim_ok b env m db) as [H1 H2].
  destruct (matches d m) eqn:Em, (co_source_guard (ds_core d)), (co_channel_guard (ds_core d)); try done.
  destruct (oe_fault env 4); [done|].
  destruct (if bool_decide (oe_fault env 0 = None) then _ else None) as [[[kind task] owner]|] eqn:Ef;
    [|done].
  destruct (bool_decide (oe_fault env 0 = None)); [|done]. apply publication_facts_allowed in Ef.
  repeat (case_match; try done).
Qed.

Lemma DeliveryFinish_ok d env m o db :
  table_ok (reports_absence m o) (cd_outbox db) (cd_outbox (DeliveryFinish d env m o db).1).
Proof.
  unfold DeliveryFinish. destruct (negb _); [done|]. pose proof (FinishMessage_ok env m o (cd_outbox db)).
  by destruct (FinishMessage env m o (cd_outbox db)).
Qed.
End publications.

(** ** The invariant of the table *)

Definition ordered (t : outbox) : Prop :=
  forall i j r r', t !! i = Some r -> t !! j = Some r' -> precedes r' r = true ->
    0 < ob_attempt_count r -> ob_status r' = "sent".

(** A result with a chunk on a channel has its first one there. *)
Definition anchored (t : outbox) : Prop :=
  forall i r a, t !! i = Some r -> ob_result_id r = Some a ->
    exists j r0, t !! j = Some r0 /\ ob_result_id r0 = Some a /\ ob_channel r0 = ob_channel r
      /\ ob_chunk_index r0 = 0.

Record db_inv {R} (db : comm_db R) : Prop := mkDbInv {
  inv_rows : forall id r, cd_outbox db !! id = Some r -> row_ok r;
  inv_ordered : ordered (cd_outbox db);
  inv_anchored : anchored (cd_outbox db);
  inv_known : forall id r p, cd_outbox db !! id = Some r -> ob_publication_id r = Some p ->
    is_Some (cd_publications db !! p);
}.

Lemma identity_fields r r' : identity r' = identity r ->
  ob_result_id r' = ob_result_id r /\ ob_channel r' = ob_channel r
  /\ ob_chunk_index r' = ob_chunk_index r /\ ob_publication_id r' = ob_publication_id r
  /\ ob_binding_id r' = ob_binding_id r.
Proof. unfold identity. by intros [=]. Qed.

Lemma precedes_identity r r1 r' r1' : identity r1 = identity r -> identity r1' = identity r' ->
  precedes r1' r1 = precedes r' r.
Proof.
  intros (E1 & E2 & E3 & E4 & E5)%identity_fields (F1 & F2 & F3 & F4 & F5)%identity_fields.
  unfold precedes. by rewrite E1 E2 E3 E4 E5 F1 F2 F3 F4 F5.
Qed.

Lemma sent_stays b r r' : evolves b r r' -> ob_status r = "sent" -> ob_status r' = "sent".
Proof.
  intros [(_ & _ & _ & [E|E]) _] Hs; unfold life in E; [congruence|]. rewrite Hs in E. inversion E.
Qed.

Section table.
Context {R : Type} (db : comm_db R).

Lemma table_ok_back b t' id r' : table_ok b (cd_outbox db) t' -> t' !! id = Some r' ->
  exists r, cd_outbox db !! id = Some r /\ evolves (b id) r r'.
Proof.
  intros (H1 & H2 & _) Hr. destruct (H2 id) as [r E]; [by exists r'|].
  destruct (H1 id r E) as (x & Hx & He). simplify_eq. eauto.
Qed.

Lemma table_ok_inv b t' : db_inv db -> table_ok b (cd_outbox db) t' -> db_inv (with_outbox t' db).
Proof.
  intros [H1 H2 H3 H4] Hok. pose proof Hok as (Hev & _ & Htry). constructor; cbn.
  - intros id r' Hr. destruct (table_ok_back _ _ _ _ Hok Hr) as (r & E & [_ He]). eauto.
  - intros i j r1 r1' Hi Hj Hp Hpos.
    destruct (table_ok_back _ _ _ _ Hok Hi) as (r & Ei & Hr).
    destruct (table_ok_back _ _ _ _ Hok Hj) as (r' & Ej & Hr').
    destruct (decide (ob_attempt_count r < ob_attempt_count r1)) as [Hlt|Hge].
    + exact (Htry _ _ _ _ _ Ei Hi Hlt Hj Hp).
    + apply (sent_stays _ _ _ Hr'). apply (H2 i j r r' Ei Ej); [|lia].
      destruct Hr as [[Hid _] _], Hr' as [[Hid' _] _]. by rewrite -(precedes_identity r r1 r' r1').
  - intros i r1 a Hi Ha. destruct (table_ok_back _ _ _ _ Hok Hi) as (r & Ei & [[Hid _] _]).
    apply identity_fields in Hid as (E1 & E2 & E3 & _). rewrite E1 in Ha. rewrite E2.
    destruct (H3 i r a Ei Ha) as (j & r0 & Hj & Hr0 & Hc & Hz).
    destruct (Hev j r0 Hj) as (r0' & Hj' & [[Hid0 _] _]).
    apply identity_fields in Hid0 as (F1 & F2 & F3 & _). exists j, r0'. by rewrite F1 F2 F3.
  - intros i r1 p Hi Hp. destruct (table_ok_back _ _ _ _ Hok Hi) as (r & Ei & [[Hid _] _]).
    apply identity_fields in Hid as (_ & _ & _ & E4 & _). rewrite E4 in Hp. eauto.
Qed.
End table.

(** *** New rows *)

(** Rows that were never tried may join a table without a later chunk. *)
Lemma ordered_insert t id n : ordered t -> t !! id = None -> ob_attempt_count n = 0 ->
  (forall i r, t !! i = Some r -> precedes n r = true -> ob_attempt_count r <= 0) ->
  ordered (<[id := n]> t).
Proof.
  intros Ho Hnew Hn Hlater i j r r' Hi Hj Hp Hpos.
  destruct (decide (id = i)) as [<- |Hne].
  { rewrite lookup_insert_eq in Hi. simplify_eq. lia. }
  rewrite lookup_insert_ne // in Hi. destruct (decide (id = j)) as [<- |Hnj].
  - rewrite lookup_insert_eq in Hj. simplify_eq. specialize (Hlater i r Hi Hp). lia.
  - rewrite lookup_insert_ne // in Hj. by apply (Ho i j r r').
Qed.

Lemma anchored_insert t id n : anchored t -> t !! id = None ->
  (forall a, ob_result_id n = Some a -> ob_chunk_index n = 0
     \/ exists j r0, t !! j = Some r0 /\ ob_result_id r0 = Some a /\ ob_channel r0 = ob_channel n
          /\ ob_chunk_index r0 = 0) ->
  anchored (<[id := n]> t).
Proof.
  intros Ha Hnew Hn i r a Hi Hra.
  assert (Hkeep : forall j r0, t !! j = Some r0 -> <[id := n]> t !! j = Some r0).
  { intros j r0 Hj. rewrite lookup_insert_ne //. intros ->. congruence. }
  destruct (decide (id = i)) as [<- |Hne].
  - rewrite lookup_insert_eq in Hi. simplify_eq. destruct (Hn a Hra) as [Hz|(j & r0 & Hj & H)].
    + exists id, r. by rewrite lookup_insert_eq.
    + exists j, r0. split; [by apply Hkeep|done].
  - rewrite lookup_insert_ne // in Hi. destruct (Ha i r a Hi Hra) as (j & r0 & Hj & H).
    exists j, r0. split; [by apply Hkeep|done].
Qed.

(** Every old row stays as it is. *)
Definition extends (t t' : outbox) : Prop := forall id r, t !! id = Some r -> t' !! id = Some r.

Lemma extends_insert (t : outbox) id n : t !! id = None -> extends t (<[id := n]> t).
Proof. intros Hn i r Hi. rewrite lookup_insert_ne //. intros ->. congruence. Qed.

(** The rows of a table that a writer adds to. *)
Record table_inv (t : outbox) : Prop := mkTableInv {
  ti_rows : forall id r, t !! id = Some r -> row_ok r;
  ti_ordered : ordered t;
  ti_anchored : anchored t;
}.

Lemma rows_insert (t : outbox) id n : (forall i r, t !! i = Some r -> row_ok r) -> row_ok n ->
  forall i r, <[id := n]> t !! i = Some r -> row_ok r.
Proof.
  intros H Hn i r. destruct (decide (id = i)) as [<- |Hne].
  - rewrite lookup_insert_eq. by intros [= <-].
  - rewrite lookup_insert_ne //. apply H.
Qed.

(** A row that was just stored. *)
Lemma stored_row_ok r : ob_status r ∈ ["pending"; "result_ready"; "failed"] ->
  ob_attempt_count r = 0 -> 0 <= ob_chunk_index r -> ob_claim_until r = None ->
  ob_privacy_redacted r = false -> row_ok r.
Proof.
  intros Hs Ha Hc Hu Hp. rewrite !elem_of_cons elem_of_nil in Hs.
  constructor; rewrite ?Ha ?Hu ?Hp; [|lia|done| | |done]; destruct_or! Hs; rewrite Hs; try done; member.
  all: try done; by intros [].
Qed.

Lemma chunk_taken_spec result channel i t id r : chunk_taken result channel i t = false ->
  t !! id = Some r -> ob_result_id r = Some result -> ob_channel r = channel ->
  ob_chunk_index r <> i.
Proof.
  intros Hc Hr E1 E2 E3. pose proof (no_exists _ _ (id, r) Hc) as H. cbn in H.
  rewrite elem_of_map_to_list in H. specialize (H Hr).
  rewrite !bool_decide_true // in H. cbn in H. lia.
Qed.

(** The loop, once the chunks stored are exactly those before [i]. *)
Lemma enqueue_loop_ok env result run key channel state code now chunks i t t' :
  state ∈ ["pending"; "result_ready"; "failed"] -> table_inv t ->
  (forall id r, t !! id = Some r -> ob_result_id r = Some result -> ob_channel r = channel ->
     ob_chunk_index r < Z.of_nat i) ->
  (i = 0%nat \/ exists j r0, t !! j = Some r0 /\ ob_result_id r0 = Some result
     /\ ob_channel r0 = channel /\ ob_chunk_index r0 = 0) ->
  enqueue_loop env result run key channel state code now i chunks t = (t', Ok tt) ->
  table_inv t' /\ extends t t'.
Proof.
  intros Hs. revert i t. induction chunks as [|chunk rest IH]; intros i t [H1 H2 H3] Hlt H0 H;
    cbn [enqueue_loop] in H.
  - injection H as <-. split; [done|by intros ???].
  - destruct (oe_fault env i); [done|].
    destruct (_ || _) eqn:Et; [done|]. apply orb_false_iff in Et as [Et1 Et2].
    apply bool_decide_eq_false, eq_None_not_Some in Et1.
    set (n := new_row result run key channel state code now i chunk (oe_now env)) in H.
    set (id := notification_id result channel i) in *.
    assert (Hinv : table_inv (<[id := n]> t)).
    { constructor.
      - by apply rows_insert; [|apply stored_row_ok; cbn; [..|lia| |]].
      - apply ordered_insert; [done..|]. intros j r Hj Hp. unfold precedes in Hp.
        destruct (ob_publication_id r); [by cbn in Hp|].
        rewrite !andb_true_iff in Hp. destruct Hp as [[Ha Hc] Hl]. cbn in Hl.
        unfold sql_eq in Ha. cbn in Ha. destruct (ob_result_id r) eqn:Er; [|done].
        apply bool_decide_eq_true in Ha, Hc. cbn in Hc.
        specialize (Hlt j r Hj). rewrite Er -Ha -Hc in Hlt. specialize (Hlt eq_refl eq_refl). lia.
      - apply anchored_insert; [done..|]. intros a [= <-]. cbn. destruct H0 as [-> |H0]; [by left|by right]. }
    apply IH in H as [Hinv' Hext]; [|done|..].
    + split; [done|]. intros j r Hj. by apply Hext, extends_insert.
    + intros j r Hj E1 E2. destruct (decide (id = j)) as [<- |Hne].
      * rewrite lookup_insert_eq in Hj. injection Hj as <-. cbn. lia.
      * rewrite lookup_insert_ne // in Hj. specialize (Hlt j r Hj E1 E2). lia.
    + right. destruct H0 as [-> |(j & r0 & Hj & H0)].
      * exists id, n. by rewrite lookup_insert_eq.
      * exists j, r0. split; [by apply extends_insert|done].
Qed.

Lemma EnqueueTx_ok env result run key channel content now t t' : table_inv t ->
  EnqueueTx env result run key channel content now t = (t', Ok tt) -> table_inv t' /\ extends t t'.
Proof.
  intros Hinv. unfold EnqueueTx. destruct (negb _); [done|].
  destruct (enqueue_plan channel content) as [[chunks state] code] eqn:Ep.
  assert (Hs : state ∈ ["pending"; "result_ready"; "failed"]).
  { unfold enqueue_plan in Ep. repeat (case_match; simplify_eq); member. }
  destruct chunks as [|chunk rest]; [by intros [= <-]; split; [|intros ???]|].
  intros H. pose proof H as Hfirst. cbn [enqueue_loop] in Hfirst.
  destruct (oe_fault env 0); [done|]. destruct (_ || _) eqn:Et; [done|].
  apply orb_false_iff in Et as [_ Et].
  apply (enqueue_loop_ok _ _ _ _ _ _ _ _ _ 0 _ _ Hs Hinv) in H; [done| |by left].
  intros id r Hr E1 E2. exfalso.
  destruct (ti_anchored _ Hinv id r _ Hr E1) as (j & r0 & Hj & F1 & F2 & F3).
  rewrite E2 in F2. exact (chunk_taken_spec _ _ _ _ _ _ Et Hj F1 F2 F3).
Qed.

(** The rows of results belong to no publication. *)
Lemma enqueue_loop_publications env result run key channel state code now chunks i t t' :
  enqueue_loop env result run key channel state code now i chunks t = (t', Ok tt) ->
  forall id r p, t' !! id = Some r -> ob_publication_id r = Some p ->
    exists r0, t !! id = Some r0 /\ ob_publication_id r0 = Some p.
Proof.
  revert i t. induction chunks as [|chunk rest IH]; intros i t H; cbn [enqueue_loop] in H.
  - injection H as <-. eauto.
  - destruct (oe_fault env i); [done|]. destruct (_ || _); [done|]. intros id r p Hr Hp.
    destruct (IH _ _ H id r p Hr Hp) as (r0 & E & Ep).
    destruct (decide (notification_id result channel i = id)) as [<- |Hne].
    + rewrite lookup_insert_eq in E. injection E as <-. done.
    + rewrite lookup_insert_ne // in E. eauto.
Qed.

Lemma EnqueueTx_publications env result run key channel content now t t' :
  EnqueueTx env result run key channel content now t = (t', Ok tt) ->
  forall id r p, t' !! id = Some r -> ob_publication_id r = Some p ->
    exists r0, t !! id = Some r0 /\ ob_publication_id r0 = Some p.
Proof.
  unfold EnqueueTx. destruct (negb _); [done|].
  destruct (enqueue_plan channel content) as [[chunks state] code]. apply enqueue_loop_publications.
Qed.

(** The rows of a new publication. *)
(** Nothing of the publication was tried yet. *)
Definition untried (pub : string) (t : outbox) : Prop :=
  forall id r, t !! id = Some r -> ob_publication_id r = Some pub -> ob_attempt_count r <= 0.

Definition others_kept (pub : string) (t t' : outbox) : Prop :=
  extends t t' /\ forall id r, t' !! id = Some r -> t !! id = Some r \/ ob_publication_id r = Some pub.

Lemma others_kept_trans pub t1 t2 t3 : others_kept pub t1 t2 -> others_kept pub t2 t3 ->
  others_kept pub t1 t3.
Proof.
  intros [E1 H1] [E2 H2]. split; [by intros id r Hr; apply E2, E1|].
  intros id r Hr. destruct (H2 id r Hr); auto.
Qed.

Lemma insert_parts_ok env pub run key b status code representation parts i t t' :
  status ∈ ["pending"; "result_ready"; "failed"] -> table_inv t -> untried pub t ->
  insert_parts env pub run key b status code representation i parts t = (t', Ok tt) ->
  table_inv t' /\ untried pub t' /\ others_kept pub t t'.
Proof.
  intros Hs. revert i t. induction parts as [|part rest IH]; intros i t [H1 H2 H3] Hun H;
    cbn [insert_parts] in H.
  - injection H as <-. split; [done|split; [done|split; [by intros ???|by left]]].
  - destruct (oe_fault env i); [done|].
    destruct (_ || _) eqn:Et; [done|]. apply orb_false_iff in Et as [Et1 _].
    apply bool_decide_eq_false, eq_None_not_Some in Et1.
    set (n := part_row env pub run key b status code representation i part) in H.
    set (id := part_id pub b i) in *.
    apply IH in H as (Hinv & Hu & Hk).
    + split; [done|split; [done|]]. apply (others_kept_trans _ _ _ _) with (2 := Hk).
      split; [by apply extends_insert|]. intros j r. destruct (decide (id = j)) as [<- |Hne].
      * rewrite lookup_insert_eq. intros [= <-]. by right.
      * rewrite lookup_insert_ne //. by left.
    + constructor.
      * by apply rows_insert; [|apply stored_row_ok; cbn; [..|lia| |]].
      * apply ordered_insert; [done..|]. intros j r Hj Hp. unfold precedes in Hp.
        destruct (ob_publication_id r) as [q|] eqn:Er; [|by cbn in Hp].
        rewrite !andb_true_iff in Hp. destruct Hp as [[Ha _] _].
        unfold sql_eq in Ha. cbn in Ha. apply bool_decide_eq_true in Ha. subst q. by apply (Hun j).
      * apply anchored_insert; [done..|]. by intros a [=].
    + intros j r. destruct (decide (id = j)) as [<- |Hne].
      * rewrite lookup_insert_eq. by intros [= <-] _.
      * rewrite lookup_insert_ne //. apply Hun.
Qed.

Section traces.
Context {R Args : Type} `{!DeliveryGuards R Args}.
Implicit Types (d : DeliveryStore R Args) (db : comm_db R).

Lemma insert_bindings_ok env web pub run key canon plans denied bs t t' :
  table_inv t -> untried pub t ->
  insert_bindings env web pub run key canon plans denied bs t = (t', Ok tt) ->
  table_inv t' /\ others_kept pub t t'.
Proof.
  revert t. induction bs as [|b bs IH]; intros t Hinv Hun H; cbn [insert_bindings] in H.
  - injection H as <-. split; [done|split; [by intros ???|by left]].
  - set (refused := bool_decide (bi_id b ∈ denied)) in H.
    set (status := if refused then "failed" else _) in H.
    assert (Hs : status ∈ ["pending"; "result_ready"; "failed"]).
    { unfold status. repeat case_match; member. }
    assert (Hrest : forall code rep parts,
      match insert_parts env pub run key b status code rep 0 parts t with
      | (t', Ok _) => insert_bindings env web pub run key canon plans denied bs t'
      | (t', Err e) => (t', Err e)
      end = (t', Ok tt) -> table_inv t' /\ others_kept pub t t').
    { intros code rep parts E.
      destruct (insert_parts env pub run key b status code rep 0 parts t) as [t1 [[]|e]] eqn:Ep; [|done].
      apply insert_parts_ok in Ep as (H1 & H2 & H3); [|done..].
      destruct (IH t1 H1 H2 E) as [H4 H5]. split; [done|]. exact (others_kept_trans _ _ _ _ H3 H5). }
    destruct (dg_jsonb _) as [rep|]; [exact (Hrest _ _ _ H)|].
    destruct (if refused then [""] else default [] (plans !! bi_id b)); [exact (Hrest "" "" [] H)|done].
Qed.

Lemma store_publication_ok env web pub p run canon plans denied bs db :
  db_inv db ->
  let db' := (store_publication env web pub p run canon plans denied bs db).1 in
  db_inv db' /\ extends (cd_outbox db) (cd_outbox db').
Proof.
  intros Hinv. cbv zeta. unfold store_publication.
  destruct (bool_decide _) eqn:Ed; [by split; [|intros ???]|].
  apply bool_decide_eq_false, eq_None_not_Some in Ed.
  destruct (insert_bindings _ _ _ _ _ _ _ _ _ _) as [t [[]|e]] eqn:E; [|by split; [|intros ???]].
  destruct Hinv as [H1 H2 H3 H4]. apply insert_bindings_ok in E as [[I1 I2 I3] [K1 K2]]; [|done|].
  - split; [|done]. constructor; cbn; [done..|]. intros id r q Hr Hq.
    destruct (decide (pub = q)) as [<- |Hne]; [by rewrite lookup_insert_eq|].
    rewrite lookup_insert_ne //. destruct (K2 id r Hr) as [Hold|Hp]; [by apply (H4 id r)|congruence].
  - intros id r Hr Hp. destruct (H4 id r pub Hr Hp). congruence.
Qed.

(** ** Every writer of the table *)

(** A call of either store, a redaction of results or of a published message,
    a new result (whose transaction may still be rolled back), a new
    publication, or a change of other tables. *)
Inductive delivery_op :=
  | OpEnqueue (env : outbox_env) (result run key channel content : string) (now : Z) (commits : bool)
  | OpClaim (env : outbox_env) (random : string) (ttl : Z)
  | OpFinish (env : outbox_env) (m : Message) (o : Outcome)
  | OpRedact (now : Z) (redaction : string) (results : list string)
  | OpRedactMessage (redaction message : string)
  | OpPublish (env : outbox_env) (web : bool) (pub : string) (p : PublicationRow)
      (run canon : string) (plans : gmap string (list string)) (denied : gset string)
      (bs : list Binding)
  | OpClaimPublication d (env : outbox_env) (random : string) (ttl : Z)
  | OpAuthorizePublication d (env : outbox_env) (m : Message)
  | OpFinishPublication d (env : outbox_env) (m : Message) (o : Outcome)
  | OpOther (f : comm_db R -> comm_db R).

Definition delivery_step (op : delivery_op) db : comm_db R :=
  match op with
  | OpEnqueue env result run key channel content now commits =>
      match EnqueueTx env result run key channel content now (cd_outbox db) with
      | (t, Ok _) => if commits then with_outbox t db else db
      | (_, Err _) => db
      end
  | OpClaim env random ttl => with_outbox (ClaimMessage env random ttl (cd_outbox db)).1 db
  | OpFinish env m o => with_outbox (FinishMessage env m o (cd_outbox db)).1 db
  | OpRedact now redaction results => with_outbox (redactOutbox now redaction results (cd_outbox db)) db
  | OpRedactMessage redaction message => redactCommunicationMessage redaction message db
  | OpPublish env web pub p run canon plans denied bs =>
      (store_publication env web pub p run canon plans denied bs db).1
  | OpClaimPublication d env random ttl => (DeliveryClaim d env random ttl db).1
  | OpAuthorizePublication d env m => (DeliveryAuthorizeSend d env m db).1
  | OpFinishPublication d env m o => (DeliveryFinish d env m o db).1
  | OpOther f =>
      mkCommDb (cd_outbox db) (cd_publications db) (cd_bindings (f db)) (cd_session_user (f db))
        (cd_tasks (f db)) (cd_interactions (f db)) (cd_rest (f db))
  end.

Definition delivery_run (ops : list delivery_op) db : comm_db R :=
  fold_left (fun db op => delivery_step op db) ops db.

(** The operation reports that the message [id] was certainly not accepted and
    may be tried again. *)
Definition reports (op : delivery_op) (id : string) : bool :=
  match op with
  | OpFinish _ m o | OpFinishPublication _ _ m o => reports_absence m o id
  | _ => false
  end.

Lemma extends_evolves b t t' : extends t t' -> table_evolves b t t'.
Proof. intros He id r Hr. exists r. split; [by apply He|apply evolves_refl]. Qed.

(** The calls that only move rows. *)
Lemma moving_step op db :
  match op with OpEnqueue _ _ _ _ _ _ _ _ | OpPublish _ _ _ _ _ _ _ _ _
    | OpRedactMessage _ _ | OpOther _ => True | _ =>
    table_ok (reports op) (cd_outbox db) (cd_outbox (delivery_step op db))
    /\ delivery_step op db = with_outbox (cd_outbox (delivery_step op db)) db
  end.
Proof.
  destruct op as [| | | | | |d env random ttl|d env m|d env m o|]; try done; cbn.
  - split; [apply ClaimMessage_ok|done].
  - split; [apply FinishMessage_ok|done].
  - split; [apply redactOutbox_ok|done].
  - split; [apply DeliveryClaim_ok|]. unfold DeliveryClaim.
    repeat (case_match; try by destruct db).
  - split; [apply DeliveryAuthorizeSend_ok|]. unfold DeliveryAuthorizeSend, deny_claim.
    repeat (case_match; try by destruct db).
  - split; [apply DeliveryFinish_ok|]. unfold DeliveryFinish. repeat (case_match; try by destruct db).
Qed.
Lemma delivery_step_ok op db : db_inv db ->
  db_inv (delivery_step op db)
  /\ table_evolves (reports op) (cd_outbox db) (cd_outbox (delivery_step op db)).
Proof.
  intros Hinv. pose proof (moving_step op db) as Hm.
  assert (Hmove : table_ok (reports op) (cd_outbox db) (cd_outbox (delivery_step op db))
    /\ delivery_step op db = with_outbox (cd_outbox (delivery_step op db)) db ->
    db_inv (delivery_step op db)
    /\ table_evolves (reports op) (cd_outbox db) (cd_outbox (delivery_step op db))).
  { intros [Hok E]. split; [|apply Hok]. rewrite E. by apply (table_ok_inv _ _ _ Hinv Hok). }
  destruct op as [env result run key channel content now commits| | | |redaction message|
    env web pub p run canon plans denied bs| | | |f]; try exact (Hmove Hm); clear Hm Hmove.
  - cbn. destruct (EnqueueTx _ _ _ _ _ _ _ _) as [t [[]|e]] eqn:E;
      [|split; [done|apply table_evolves_refl]].
    destruct commits; [|split; [done|apply table_evolves_refl]].
    destruct Hinv as [H1 H2 H3 H4].
    assert (Hp : forall id r p, t !! id = Some r -> ob_publication_id r = Some p ->
      exists r0, cd_outbox db !! id = Some r0 /\ ob_publication_id r0 = Some p).
    { exact (EnqueueTx_publications _ _ _ _ _ _ _ _ _ E). }
    apply EnqueueTx_ok in E as [[I1 I2 I3] Hext]; [|done].
    split; [|by apply extends_evolves]. constructor; cbn; [done..|].
    intros id r q Hr Hq. destruct (Hp id r q Hr Hq) as (r0 & E0 & Eq). by apply (H4 id r0).
  - pose proof (redact_publication_rows_ok (reports (OpRedactMessage redaction message)) redaction
      message (cd_outbox db)) as Hok. split; [|apply Hok].
    destruct (table_ok_inv _ _ _ Hinv Hok) as [H1 H2 H3 H4]. constructor; [done..|].
    intros id r q Hr Hq. cbn. apply lookup_alter_is_Some. exact (H4 id r q Hr Hq).
  - destruct (store_publication_ok env web pub p run canon plans denied bs db Hinv) as [H1 H2].
    split; [done|by apply extends_evolves].
  - split; [by destruct Hinv|apply table_evolves_refl].
Qed.

Lemma delivery_run_inv ops db : db_inv db -> db_inv (delivery_run ops db).
Proof.
  revert db. induction ops as [|op ops IH]; intros db H; [done|]. apply IH.
  by destruct (delivery_step_ok op db H).
Qed.

(** C34: whatever results, claims, reports, publications and redactions of
    results and of published messages follow one another, every row of the
    table stays well typed: a known status, at most six attempts, a claim
    exactly while it is being sent, and once redacted no content and a status
    that is neither pending nor sending; a redacted row may still be ready only
    when it belongs to a publication. *)
Theorem outbox_rows_typed (ops : list delivery_op) db id r : db_inv db ->
  cd_outbox (delivery_run ops db) !! id = Some r -> row_ok r.
Proof. intros H. apply (inv_rows _ (delivery_run_inv ops db H)). Qed.

(** C29: a chunk is tried only after every earlier chunk of its result on the
    channel, or of its publication for the binding, was sent; whatever the
    calls of the two stores and of the writers. *)
Theorem chunks_tried_in_order (ops : list delivery_op) db : db_inv db ->
  ordered (cd_outbox (delivery_run ops db)).
Proof. intros H. apply (inv_ordered _ (delivery_run_inv ops db H)). Qed.

(** C25: every operation keeps every notification, its identity and its content
    (a redaction may empty it), and moves its status and attempts by at most
    one step of the life of a notification, back to pending only when the
    channel reported an absence that may be retried. *)
Theorem outbox_refines_life (op : delivery_op) db id r : db_inv db ->
  cd_outbox db !! id = Some r ->
  exists r', cd_outbox (delivery_step op db) !! id = Some r' /\ row_moved (reports op id) r r'.
Proof.
  intros H Hr. destruct (delivery_step_ok op db H) as [_ He].
  destruct (He id r Hr) as (r' & H' & Hm & _). eauto.
Qed.

(** How often a notification has been, or may at once be, handed out. *)
Definition chances (r : OutboxRow) : Z :=
  ob_attempt_count r + if bool_decide (ob_status r = "pending") then 1 else 0.

Definition absence_reports (ops : list delivery_op) (id : string) : Z :=
  foldr (fun op n => (if reports op id then 1 else 0) + n) 0 ops.

Lemma life_step_bounds b s n s' n' : life_step b (s, n) (s', n') ->
  n' + (if bool_decide (s' = "pending") then 1 else 0)
  <= n + (if bool_decide (s = "pending") then 1 else 0) + (if b then 1 else 0)
  /\ (s ∉ ["sent"; "delivery_unknown"; "failed"]).
Proof.
  rewrite !not_elem_of_cons.
  inversion 1 as [k Hk|k z Hz|k Hb|k|k]; subst; (split; [|by split_and?; try apply not_elem_of_nil]);
    repeat case_bool_decide; try done; try (destruct b; lia); [|lia].
  rewrite !elem_of_cons elem_of_nil in Hz. destruct_or! Hz; congruence.
Qed.

Lemma evolves_chances b r r' : evolves b r r' ->
  chances r' <= chances r + (if b then 1 else 0)
  /\ (ob_status r ∈ ["sent"; "delivery_unknown"; "failed"] -> life r' = life r).
Proof.
  intros [(_ & _ & _ & [E|E]) _]; unfold life, chances in *.
  - injection E as -> ->. split; [destruct b; lia|done].
  - apply life_step_bounds in E as [H1 H2]. split; [lia|done].
Qed.

(** C9: a message is never sent again on a mere doubt: over any operations its
    attempts grow by at most one for the time it was pending at the start and
    one for each explicit report of an absence that may be retried; and what is
    sent, unknown or failed stays as it is for good. *)
Theorem redelivery_needs_absence (ops : list delivery_op) db id r r' : db_inv db ->
  cd_outbox db !! id = Some r -> cd_outbox (delivery_run ops db) !! id = Some r' ->
  ob_attempt_count r' <= chances r + absence_reports ops id
  /\ (ob_status r ∈ ["sent"; "delivery_unknown"; "failed"] -> life r' = life r).
Proof.
  intros Hinv Hr Hr'. enough (H : chances r' <= chances r + absence_reports ops id
    /\ (ob_status r ∈ ["sent"; "delivery_unknown"; "failed"] -> life r' = life r)).
  { split; [|apply H]. destruct H as [H _]. unfold chances at 1 in H. case_bool_decide; lia. }
  revert db r Hinv Hr Hr'. induction ops as [|op ops IH]; intros db r Hinv Hr Hr'.
  - cbn in Hr' |- *. simplify_eq. split; [lia|done].
  - change (absence_reports (op :: ops) id)
      with ((if reports op id then 1 else 0) + absence_reports ops id).
    destruct (delivery_step_ok op db Hinv) as [Hinv1 He].
    destruct (He id r Hr) as (r1 & Hr1 & [H1 H2]%evolves_chances).
    destruct (IH _ r1 Hinv1 Hr1 Hr') as [H3 H4]. split; [lia|].
    intros Hin. rewrite -(H2 Hin). apply H4. pose proof (H2 Hin) as E. unfold life in E.
    injection E as -> _. done.
Qed.
End traces.

(** ** The worker *)

(** What the worker relies on: a claim hands out a pending row under a claim of
    its own, and a send is authorized on a live claim whose content is that of
    the message. *)
Class ClaimStoreLaws (DB : Type) `{!ClaimStore DB} (table : DB -> outbox) := {
  law_claim env random ttl db db' m : cs_Claim env random ttl db = (db', Ok (Some m)) ->
    claim_given (table db) (table db') random m;
  law_authorize env m db db' : cs_AuthorizeSend env m db = (db', Ok tt) ->
    db' = db /\ send_allowed (oe_clock env 0) m (table db);
}.

#[global] Instance store_laws : ClaimStoreLaws outbox (fun t => t).
Proof.
  split; cbn.
  - apply ClaimMessage_given.
  - intros env m t t' [= <- H]. split; [done|by apply AuthorizeSend_allowed].
Qed.

#[global] Instance delivery_laws {R Args} `{!DeliveryGuards R Args} (d : DeliveryStore R Args) :
  @ClaimStoreLaws (comm_db R) (delivery_claims d) cd_outbox.
Proof.
  split; cbn.
  - intros env random ttl db db' m. by apply (DeliveryClaim_ok d (fun _ => false)).
  - intros env m db db' H.
    destruct (DeliveryAuthorizeSend_ok d (fun _ => false) env m db) as [_ Hs]. rewrite H in Hs.
    destruct (Hs eq_refl) as (E & _ & Ha). cbn in E. by subst.
Qed.

(** One round: at most one message for the channel, claimed in this round from
    a pending row, and authorized when it was handed over. *)
Definition guarded {DB} (table : DB -> outbox) (v : worker_view DB) (db : DB)
    (calls : list (Message * DB)) : Prop :=
  (length calls <= 1)%nat
  /\ Forall (fun c => (exists t1, claim_given (table db) t1 (wv_random v) c.1)
                      /\ send_allowed (oe_clock (wv_authorize v) 0) c.1 (table c.2)) calls.

Lemma ProcessOne_guarded {DB} `{!ClaimStore DB} (table : DB -> outbox) `{!ClaimStoreLaws DB table}
    sender (v : worker_view DB) db : guarded table v db (ProcessOne sender v db).1.2.
Proof.
  unfold ProcessOne, guarded.
  destruct (cs_Claim _ _ _ db) as [db1 [[m|]|e]] eqn:Ec; [|by split; [cbn; lia|constructor]..].
  apply law_claim in Ec. destruct sender as [send|].
  - destruct (cs_AuthorizeSend _ m _) as [db3 [[]|e]] eqn:Ea; [|by split; [cbn; lia|constructor]].
    apply law_authorize in Ea as [-> Ha].
    destruct (cs_Finish _ m _ _) as [db4 [[]|e]]; cbn; (split; [lia|]); repeat constructor; eauto.
  - destruct (cs_Finish _ m _ _) as [db4 [[]|e]]; cbn; (split; [lia|constructor]).
Qed.

(** C32: whichever of the two stores a worker runs on, and whatever other
    workers, reports and redactions do between its calls, one round hands the
    channel at most one message: one that this round claimed from a pending row
    with fewer than six attempts, and whose claim was live, whose content was
    the stored one and which was not redacted when the send was authorized. *)
Theorem channel_called_under_claim :
  (forall sender (v : worker_view outbox) t, guarded (fun t => t) v t (ProcessOne sender v t).1.2)
  /\ forall (R Args : Type) (G : DeliveryGuards R Args) (d : DeliveryStore R Args) sender
       (v : worker_view (comm_db R)) db,
       guarded cd_outbox v db (@ProcessOne _ (delivery_claims d) sender v db).1.2.
Proof. split; intros; apply ProcessOne_guarded, _. Qed.

(** ** A run *)

Module OutboxDemo.

#[local] Instance guards : DeliveryGuards unit unit := {
  dg_task_authority _ _ _ _ := None;
  dg_decode_args _ _ := Ok tt;
  dg_jsonb s := Some s;
}.

Definition env (now : Z) : outbox_env :=
  mkOutboxEnv now (fun _ => now) (fun _ => false) (fun _ => None) None.
Definition db0 : comm_db unit := mkCommDb ∅ ∅ ∅ ∅ ∅ ∅ tt.

Lemma db0_inv : db_inv db0.
Proof. by constructor; intros ?; intros; cbn in *. Qed.

(** A text of two chunks, of which the first is sent after one refusal. *)
Fixpoint copies (n : nat) : string :=
  match n with O => "" | S n => String "a" (copies n) end.
Definition text : string := copies (Z.to_nat 4097).
Definition hour0 : Z := 1000000 * second.
Definition chunk0 : Message :=
  mkMessage "" "" 0 "" "" "result:telegram:0" "result" "run" "key" "telegram" 0 (copies (Z.to_nat 4096)) "sending" 1
    "claim1" "" "".
Definition refused : Outcome := mkOutcome "absent" "" "telegram_rejected" true 0.
Definition ops : list (@delivery_op unit unit) :=
  [OpEnqueue (env hour0) "result" "run" "key" "telegram" text hour0 true;
   OpClaim (env (hour0 + second)) "claim1" claim_ttl;
   OpFinish (env (hour0 + 2 * second)) chunk0 refused;
   OpClaim (env (hour0 + 5 * second)) "claim2" claim_ttl].
Definition after : comm_db unit := delivery_run ops db0.
Definition lives : list (option (string * Z)) :=
  (fun id => life <$> cd_outbox after !! id) <$> ["result:telegram:0"; "result:telegram:1"].

Example lives_now : lives = [Some ("sending", 2); Some ("pending", 0)].
Proof. vm_compute. reflexivity. Qed.

(** A publication to the web and to Telegram whose message is redacted: the
    row for the web stays ready, the other one fails, and both are empty. *)
Definition published : list (@delivery_op unit unit) :=
  [OpPublish (env hour0) true "msg" (mkPublicationRow "owner" "key" None 0 0 "text" 1 false)
     "run" "canon" (list_to_map [("w", ["hello"]); ("t", ["hello"])]) ∅
     [mkBinding "w" "web" "owner" 1 true []; mkBinding "t" "telegram" "chat" 1 true []];
   OpRedactMessage "erase" "msg"].

Example redacted_ready_stays_ready :
  (fun id => (fun r => (life r, ob_content r, ob_representation r))
             <$> cd_outbox (delivery_run published db0) !! id) <$> ["msg:w:1:0"; "msg:t:1:0"]
  = [Some (("result_ready", 0), "", Some "{}"); Some (("failed", 0), "", Some "{}")].
Proof. vm_compute. reflexivity. Qed.

(** Witnesses of the theorems at this run. *)
Lemma outbox_rows_typed_witness :
  exists r, cd_outbox after !! "result:telegram:0" = Some r /\ ob_status r = "sending" /\ row_ok r.
Proof.
  assert (E : (ob_status <$> cd_outbox after !! "result:telegram:0") = Some "sending")
    by (vm_compute; reflexivity).
  destruct (cd_outbox after !! "result:telegram:0") as [r|] eqn:Hr; [|discriminate E].
  exists r. injection E as E. split; [reflexivity|split; [exact E|]].
  exact (outbox_rows_typed ops db0 _ _ db0_inv Hr).
Defined.

Lemma chunks_tried_in_order_witness :
  lives = [Some ("sending", 2); Some ("pending", 0)] /\ ordered (cd_outbox after).
Proof. split; [vm_compute; reflexivity|exact (chunks_tried_in_order ops db0 db0_inv)]. Defined.

Lemma db1_inv : db_inv (delivery_run (take 2 ops) db0).
Proof. apply delivery_run_inv, db0_inv. Qed.

Lemma outbox_refines_life_witness : exists r r',
  cd_outbox (delivery_run (take 2 ops) db0) !! "result:telegram:0" = Some r
  /\ life r = ("sending", 1)
  /\ cd_outbox (delivery_run (take 3 ops) db0) !! "result:telegram:0" = Some r'
  /\ life r' = ("pending", 1) /\ row_moved true r r'.
Proof.
  assert (E : (life <$> cd_outbox (delivery_run (take 2 ops) db0) !! "result:telegram:0")
              = Some ("sending", 1)) by (vm_compute; reflexivity).
  assert (E' : (life <$> cd_outbox (delivery_run (take 3 ops) db0) !! "result:telegram:0")
              = Some ("pending", 1)) by (vm_compute; reflexivity).
  destruct (cd_outbox (delivery_run (take 2 ops) db0) !! "result:telegram:0") as [r|] eqn:Hr;
    [|discriminate E].
  destruct (outbox_refines_life (OpFinish (env (hour0 + 2 * second)) chunk0 refused) _ _ _ db1_inv Hr)
    as (r' & Hr' & Hm).
  change (delivery_step _ (delivery_run (take 2 ops) db0)) with (delivery_run (take 3 ops) db0) in Hr'.
  rewrite Hr' in E'. exists r, r'.
  split; [reflexivity|split; [by apply (inj Some)|split; [exact Hr'|split; [by apply (inj Some)|]]]].
  exact Hm.
Defined.

Lemma redelivery_needs_absence_witness : exists r r',
  cd_outbox (delivery_run (take 1 ops) db0) !! "result:telegram:0" = Some r
  /\ cd_outbox after !! "result:telegram:0" = Some r'
  /\ ob_attempt_count r = 0 /\ ob_attempt_count r' = 2
  /\ ob_attempt_count r' <= chances r + absence_reports (drop 1 ops) "result:telegram:0".
Proof.
  assert (E : (ob_attempt_count <$> cd_outbox (delivery_run (take 1 ops) db0) !! "result:telegram:0")
              = Some 0) by (vm_compute; reflexivity).
  assert (E' : (ob_attempt_count <$> cd_outbox after !! "result:telegram:0") = Some 2)
    by (vm_compute; reflexivity).
  destruct (cd_outbox (delivery_run (take 1 ops) db0) !! "result:telegram:0") as [r|] eqn:Hr;
    [|discriminate E].
  destruct (cd_outbox after !! "result:telegram:0") as [r'|] eqn:Hr'; [|discriminate E'].
  injection E as E. injection E' as E'. exists r, r'.
  split; [reflexivity|split; [reflexivity|split; [exact E|split; [exact E'|]]]].
  apply (redelivery_needs_absence (drop 1 ops) (delivery_run (take 1 ops) db0) "result:telegram:0" r r').
  - apply delivery_run_inv, db0_inv.
  - exact Hr.
  - exact Hr'.
Defined.

Lemma Split_lossless_witness :
  length (Split text 4096) = 2%nat /\ foldr String.append "" (Split text 4096) = text.
Proof. split; [vm_compute; reflexivity|apply (Split_lossless text 4096)]. Defined.

Lemma DeliveryOutcome_verdict_witness :
  0 <= ms_attempt_count chunk0 /\ (DeliveryOutcome chunk0 refused).1.1 = "pending"
  /\ second <= (DeliveryOutcome chunk0 refused).2 <= hour.
Proof.
  split; [vm_compute; discriminate|split; [vm_compute; reflexivity|]].
  pose proof (DeliveryOutcome_verdict chunk0 refused ltac:(vm_compute; discriminate)) as H.
  destruct (DeliveryOutcome chunk0 refused) as [[status code] delay]. exact (proj1 H).
Defined.
End OutboxDemo.
