(* ===== verification/Egress.v ===== *)
(** * Egress: the network boundary

    Package [internal/security/egress]: which addresses a model may reach
    ([policy.go], [http.go]), the byte counters ([counter.go]) and the proxy of
    a browser context ([proxy.go]) as a state machine whose steps are the
    critical sections of its methods and the acts on its connections.
    The HTTP messages themselves are left out; the resolver, the dialler and
    the Unicode tables are parameters. *)
From Stdlib Require Import Ascii.
From S2P Require Import Prelude GoStrings GoBytes GoNet GoUrl.
Open Scope Z_scope.
Open Scope go_scope.

Definition ErrEgressDenied : error :=
  ErrNew "egress.ErrDenied" "outbound destination denied by policy".
Definition ErrLimit : error := ErrNew "egress.ErrLimit" "outbound request byte allowance exceeded".

(** ** Names *)

Section policy.
Context `{!UnicodeLower}.

Fixpoint domain_loop (host : string) (domains : list string) : bool :=
  match domains with
  | [] => false
  | domain :: rest =>
      let domain := ToLower (TrimSpace domain) in
      if bool_decide (host = domain) then true
      else if HasPrefix domain "*." && HasSuffix host ("." +:+ TrimPrefix domain "*.") then true
      else domain_loop host rest
  end.

Definition domainAllowed (host : string) (domains : list string) : bool :=
  let host := ToLower (TrimSuffix host ".") in
  if bool_decide (domains = []) then true else domain_loop host domains.

(** ** Addresses *)

Definition MustParsePrefix (ip : string) (bits : Z) : Prefix :=
  mkPrefix (default AddrZero (ParseAddr ip)) bits.

Definition deniedPrefixes : list Prefix := Eval vm_compute in
  [MustParsePrefix "0.0.0.0" 8; MustParsePrefix "10.0.0.0" 8; MustParsePrefix "100.64.0.0" 10;
   MustParsePrefix "127.0.0.0" 8; MustParsePrefix "169.254.0.0" 16;
   MustParsePrefix "172.16.0.0" 12; MustParsePrefix "192.0.0.0" 24;
   MustParsePrefix "192.0.2.0" 24; MustParsePrefix "192.168.0.0" 16;
   MustParsePrefix "198.18.0.0" 15; MustParsePrefix "198.51.100.0" 24;
   MustParsePrefix "203.0.113.0" 24; MustParsePrefix "224.0.0.0" 4; MustParsePrefix "240.0.0.0" 4;
   MustParsePrefix "::" 96; MustParsePrefix "64:ff9b::" 96; MustParsePrefix "64:ff9b:1::" 48;
   MustParsePrefix "2001::" 32; MustParsePrefix "2001:db8::" 32; MustParsePrefix "2002::" 16].

Definition PublicAddress (ip : Addr) : bool :=
  let ip := Unmap ip in
  if negb (IsGlobalUnicast ip) || IsPrivate ip || IsLoopback ip || IsLinkLocalUnicast ip
     || IsLinkLocalMulticast ip || IsUnspecified ip
  then false else negb (existsb (fun p => PrefixContains p ip) deniedPrefixes).

(** [Policy.ValidateURL] for the allowed domains and ports. *)
Definition ValidateURL (domains ports : list string) (raw : string) : res URL :=
  match Parse (TrimSpace raw) with
  | None => Err ErrEgressDenied
  | Some u =>
      let host := str (Hostname u) in
      fail_when negb (bool_decide (u_scheme u = lit "http"))
                && negb (bool_decide (u_scheme u = lit "https"))
                || negb (bool_decide (u_user u = None)) || negb (bool_decide (u_opaque u = []))
                || bool_decide (host = "") || ContainsAny host ["%"; "\"]%char
                || negb (bool_decide (u_fragment u = [])) with ErrEgressDenied ;;
      let port := if bool_decide (Port u = [])
                  then if bool_decide (u_scheme u = lit "https") then "443" else "80"
                  else str (Port u) in
      fail_when negb (bool_decide (port = "80") || bool_decide (port = "443")
                      || bool_decide (port ∈ ports))
                || negb (domainAllowed host domains) with ErrEgressDenied ;;
      fail_when match ParseAddr host with Some ip => negb (PublicAddress ip) | None => false end
        with ErrEgressDenied ;;
      Ok u
  end.

(** ** Resolving and dialling *)

(** An answer of the resolver: the bytes of the address and its zone. *)
Record IPAddr := mkIPAddr { ia_ip : bytes; ia_zone : string }.

(** The policy: the resolver answers or fails; a dial of an address and a port
    succeeds or not.  The allowed ports are given to [ValidateURL]. *)
Record Policy := mkPolicy {
  po_allowed_domains : list string;
  po_resolver : string -> option (list IPAddr);
  po_dial : string -> Addr -> string -> bool;
}.

Fixpoint check_answers (answers : list IPAddr) : option (list Addr) :=
  match answers with
  | [] => Some []
  | a :: rest =>
      match AddrFromSlice (ia_ip a) with
      | None => None
      | Some ip =>
          if negb (PublicAddress ip) || negb (bool_decide (ia_zone a = "")) then None
          else ips ← check_answers rest; Some (Unmap ip :: ips)
      end
  end.

Definition Resolve (p : Policy) (host : string) : res (list Addr) :=
  if negb (domainAllowed host (po_allowed_domains p)) then Err ErrEgressDenied else
  match ParseAddr host with
  | Some ip => if PublicAddress ip then Ok [ip] else Err ErrEgressDenied
  | None =>
      match po_resolver p host with
      | None | Some [] => Err ErrEgressDenied
      | Some answers =>
          match check_answers answers with Some ips => Ok ips | None => Err ErrEgressDenied end
      end
  end.

(** [dial]: the addresses it tried in order, and the one it connected to. *)
Fixpoint dial_loop (p : Policy) (network port : string) (ips : list Addr) : list Addr * option Addr :=
  match ips with
  | [] => ([], None)
  | ip :: rest =>
      if po_dial p network ip port then ([ip], Some ip)
      else let (tried, conn) := dial_loop p network port rest in (ip :: tried, conn)
  end.

Definition dial (p : Policy) (network address : string) : list (Addr * string) * res Addr :=
  match SplitHostPort address with
  | None => ([], Err ErrEgressDenied)
  | Some (host, port) =>
      match Resolve p host with
      | Err e => ([], Err e)
      | Ok ips =>
          match dial_loop p network port ips with
          | (tried, Some ip) => ((fun i => (i, port)) <$> tried, Ok ip)
          | (tried, None) => ((fun i => (i, port)) <$> tried, Err ErrEgressDenied)
          end
      end
  end.
End policy.

(** ** Counters *)

(** [Take] on the bytes that remain. *)
Definition Take (n : Z) (remaining : Z) : Z * res unit :=
  if Z.ltb n 0 || Z.ltb remaining n then (remaining, Err ErrLimit) else (remaining - n, Ok tt).

(** [countingWriter.Write]. *)
Definition CountingWrite (limit : Z) (n : Z) (count : Z) : Z * res Z :=
  let count := wrap64 (count + n) in
  if Z.ltb limit count then (count, Err ErrLimit) else (count, Ok n).

(** ** The proxy *)

Definition maxProxyRequests : Z := 2048.
Definition maxProxyInflight : Z := 64.
Definition maxProxyResponseBytes : Z := 20 * 1024 * 1024.

(** A connection that the handler of a request holds: the request, the epoch
    that [begin] gave it, and whether the handler is [connect] (the connection
    is dialled, or hijacked from the client, and [track] comes later) or the
    exchange of a plain request ([RoundTrip] dials it and nothing tracks it). *)
Record open_conn := mkOpenConn {
  oc_request : Z;
  oc_epoch : Z;
  oc_connect : bool;
}.

(** [ScopedProxy], each registered request with its epoch, and what the
    connections and contexts have come to: which connections are open, tracked
    or not, which contexts were cancelled, how many bytes were accepted each
    way, and every connection there has been. *)
Record proxy := mkProxy {
  px_expires : Z;
  px_counter : Z;
  px_inbound : Z;
  px_tunnels : gset N;
  px_requests : gmap Z Z;
  px_epoch : Z;
  px_next : Z;
  px_frozen : bool;
  px_closed : bool;
  px_exhausted : bool;
  px_open : gmap N open_conn;
  px_cancelled : gset Z;
  px_sent : Z;
  px_received : Z;
  px_seen : gset N;
}.

Definition uint64 (z : Z) : Z := z mod 2 ^ 64.

Definition newProxy (expires limit : Z) : proxy :=
  mkProxy expires limit maxProxyResponseBytes ∅ ∅ 0 0 false false false ∅ ∅ 0 0 ∅.

Definition Expired (now : Z) (p : proxy) : bool := negb (Z.ltb now (px_expires p)).

Definition freezeLocked (p : proxy) : proxy :=
  mkProxy (px_expires p) (px_counter p) (px_inbound p) (px_tunnels p) (px_requests p)
    (uint64 (px_epoch p + 1)) (px_next p) true (px_closed p) (px_exhausted p)
    (filter (fun kc => kc.1 ∉ px_tunnels p) (px_open p)) (px_cancelled p ∪ dom (px_requests p))
    (px_sent p) (px_received p) (px_seen p).

Definition Freeze (p : proxy) : proxy := freezeLocked p.

Definition with_flags (closed exhausted : bool) (p : proxy) : proxy :=
  mkProxy (px_expires p) (px_counter p) (px_inbound p) (px_tunnels p) (px_requests p)
    (px_epoch p) (px_next p) (px_frozen p) closed exhausted (px_open p) (px_cancelled p)
    (px_sent p) (px_received p) (px_seen p).

Definition exhaust (p : proxy) : proxy := freezeLocked (with_flags (px_closed p) true p).

Definition CloseProxy (p : proxy) : proxy :=
  if px_closed p then p else freezeLocked (with_flags true (px_exhausted p) p).

(** [AllowUntil]: the epoch of the timer it arms. *)
Definition AllowUntil (deadline now : Z) (p : proxy) : proxy * res Z :=
  let deadline := Z.min deadline (px_expires p) in
  if px_closed p || px_exhausted p || negb (Z.ltb now deadline) then (p, Err ErrEgressDenied) else
  let epoch := uint64 (px_epoch p + 1) in
  (mkProxy (px_expires p) (px_counter p) (px_inbound p) (px_tunnels p) (px_requests p) epoch
     (px_next p) false (px_closed p) (px_exhausted p) (px_open p) (px_cancelled p) (px_sent p)
     (px_received p) (px_seen p), Ok epoch).

(** The callback of the timer armed with an epoch; a stopped timer may still
    run it. *)
Definition window_fires (epoch : Z) (p : proxy) : proxy :=
  if Z.eqb (px_epoch p) epoch then freezeLocked p else p.

(** [begin]: the request and the epoch it belongs to. *)
Definition begin_request (now : Z) (p : proxy) : proxy * option (Z * Z) :=
  if px_closed p || px_frozen p || Expired now p then (p, None) else
  if Z.leb maxProxyRequests (px_next p) then (exhaust p, None) else
  if Z.leb maxProxyInflight (Z.of_nat (size (px_requests p))) then (p, None) else
  let id := uint64 (px_next p + 1) in
  (mkProxy (px_expires p) (px_counter p) (px_inbound p) (px_tunnels p) (<[id := px_epoch p]> (px_requests p))
     (px_epoch p) id (px_frozen p) (px_closed p) (px_exhausted p) (px_open p) (px_cancelled p)
     (px_sent p) (px_received p) (px_seen p), Some (id, px_epoch p)).

(** The closure that [begin] returns. *)
Definition finish_request (id : Z) (p : proxy) : proxy :=
  mkProxy (px_expires p) (px_counter p) (px_inbound p) (px_tunnels p) (delete id (px_requests p))
    (px_epoch p) (px_next p) (px_frozen p) (px_closed p) (px_exhausted p) (px_open p)
    (px_cancelled p ∪ {[id]}) (px_sent p) (px_received p) (px_seen p).

(** A connection of a registered request becomes open: the dial of [connect]
    or of [RoundTrip] succeeds, or [Hijack] hands the client's connection over.
    The proxy's own fields do not change. *)
Definition open_connection (c : N) (id : Z) (connect : bool) (p : proxy) : option proxy :=
  match px_requests p !! id with
  | Some epoch =>
      if bool_decide (c ∈ px_seen p) then None else
      Some (mkProxy (px_expires p) (px_counter p) (px_inbound p) (px_tunnels p) (px_requests p)
              (px_epoch p) (px_next p) (px_frozen p) (px_closed p) (px_exhausted p)
              (<[c := mkOpenConn id epoch connect]> (px_open p)) (px_cancelled p) (px_sent p)
              (px_received p) (px_seen p ∪ {[c]}))
  | None => None
  end.

(** [track]; the caller closes a connection that is refused. *)
Definition track (c : N) (epoch : Z) (p : proxy) : proxy * bool :=
  if px_closed p || px_frozen p || negb (Z.eqb (px_epoch p) epoch) then (p, false) else
  (mkProxy (px_expires p) (px_counter p) (px_inbound p) (px_tunnels p ∪ {[c]}) (px_requests p)
     (px_epoch p) (px_next p) (px_frozen p) (px_closed p) (px_exhausted p) (px_open p)
     (px_cancelled p) (px_sent p) (px_received p) (px_seen p), true).

(** The [Close] of a connection, by the handler that holds it or by the
    transport, and its [untrack]. *)
Definition close_conn (c : N) (p : proxy) : proxy :=
  mkProxy (px_expires p) (px_counter p) (px_inbound p) (px_tunnels p) (px_requests p)
    (px_epoch p) (px_next p) (px_frozen p) (px_closed p) (px_exhausted p) (delete c (px_open p))
    (px_cancelled p) (px_sent p) (px_received p) (px_seen p).
Definition untrack (c : N) (p : proxy) : proxy :=
  mkProxy (px_expires p) (px_counter p) (px_inbound p) (px_tunnels p ∖ {[c]}) (px_requests p)
    (px_epoch p) (px_next p) (px_frozen p) (px_closed p) (px_exhausted p) (px_open p)
    (px_cancelled p) (px_sent p) (px_received p) (px_seen p).

Definition with_bytes (out inb sent received : Z) (p : proxy) : proxy :=
  mkProxy (px_expires p) out inb (px_tunnels p) (px_requests p) (px_epoch p) (px_next p)
    (px_frozen p) (px_closed p) (px_exhausted p) (px_open p) (px_cancelled p) sent received
    (px_seen p).

(** [Take] on the counter of the requests or of the responses; the caller
    exhausts the proxy after a refusal. *)
Definition take_out (n : Z) (p : proxy) : proxy * res unit :=
  match Take n (px_counter p) with
  | (rest, Ok _) => (with_bytes rest (px_inbound p) (px_sent p + n) (px_received p) p, Ok tt)
  | (rest, Err e) => (with_bytes rest (px_inbound p) (px_sent p) (px_received p) p, Err e)
  end.
Definition take_in (n : Z) (p : proxy) : proxy * res unit :=
  match Take n (px_inbound p) with
  | (rest, Ok _) => (with_bytes (px_counter p) rest (px_sent p) (px_received p + n) p, Ok tt)
  | (rest, Err e) => (with_bytes (px_counter p) rest (px_sent p) (px_received p) p, Err e)
  end.
