(* ===== verification/EgressProofs.v ===== *)
(** * EgressProofs: what the network boundary lets through

    Which addresses count as public, where a dial may connect to, and what the
    proxy of a browser context keeps under every interleaving of its requests,
    timers and reviews. *)
From Stdlib Require Import Ascii.
From S2P Require Import Prelude GoStrings GoBytes GoNet Egress.
Open Scope Z_scope.
Open Scope go_scope.

(** ** Special addresses *)

Definition interval (lo hi n : Z) : bool := Z.leb lo n && Z.ltb n hi.
Definition in_ranges (l : list (Z * Z)) (n : Z) : bool := existsb (fun r => interval r.1 r.2 n) l.

(** The ranges that no public destination is in: this network, private,
    carrier-grade, loopback, link-local, protocol assignments, documentation,
    benchmarking, multicast and reserved; for IPv6 the addresses that embed an
    IPv4 one, translation, Teredo, documentation, 6to4, unique local,
    link-local and multicast. *)
Definition special4 : list (Z * Z) :=
    [(0, 1 * 2^24); (10 * 2^24, 11 * 2^24); (25664 * 2^16, 25728 * 2^16);
     (127 * 2^24, 128 * 2^24); (43518 * 2^16, 43519 * 2^16); (44048 * 2^16, 44064 * 2^16);
     (12582912 * 2^8, 12582913 * 2^8); (12582914 * 2^8, 12582915 * 2^8);
     (49320 * 2^16, 49321 * 2^16); (50706 * 2^16, 50708 * 2^16);
     (12989284 * 2^8, 12989285 * 2^8); (13303921 * 2^8, 13303922 * 2^8); (224 * 2^24, 240 * 2^24);
     (240 * 2^24, 256 * 2^24)].

Definition special6 : list (Z * Z) :=
    [(0, 2^32); (6619035 * 2^96, 6619035 * 2^96 + 2^32);
     (6619035 * 2^96 + 2^80, 6619035 * 2^96 + 2 * 2^80); (536936448 * 2^96, 536936449 * 2^96);
     (536939960 * 2^96, 536939961 * 2^96); (8194 * 2^112, 8195 * 2^112);
     (252 * 2^120, 254 * 2^120); (65152 * 2^112, 65216 * 2^112); (255 * 2^120, 256 * 2^120)].

Definition zone_of (ip : Addr) : string := match ip with Addr6 _ z => z | _ => "" end.

Definition special (ip : Addr) : bool :=
  match Unmap ip with
  | AddrZero => true
  | Addr4 n => in_ranges special4 n
  | Addr6 n _ => in_ranges special6 n
  end.

Lemma top_div n k : 0 <= k -> top n k = n / 2 ^ k.
Proof. intros Hk. unfold top. by apply Z.shiftr_div_pow2. Qed.

Lemma prefix_interval n m k : 0 <= k -> 0 <= n -> 0 <= m -> m mod 2 ^ k = 0 ->
  Z.eqb (top (Z.lxor n m) k) 0 = interval m (m + 2 ^ k) n.
Proof.
  intros Hk Hn Hm Hz. unfold top. rewrite Z.shiftr_lxor.
  assert (E : Z.eqb (Z.lxor (Z.shiftr n k) (Z.shiftr m k)) 0 = Z.eqb (n / 2 ^ k) (m / 2 ^ k)).
  { rewrite !Z.shiftr_div_pow2 //. apply eq_true_iff_eq. rewrite !Z.eqb_eq.
    split; [apply Z.lxor_eq|intros ->; apply Z.lxor_nilpotent]. }
  rewrite E. unfold interval. pose proof (Z.pow_pos_nonneg 2 k ltac:(lia) Hk) as Hp.
  pose proof (Z.div_mod n (2 ^ k) ltac:(lia)) as H1.
  pose proof (Z.mod_pos_bound n (2 ^ k) Hp) as H2.
  pose proof (Z.div_mod m (2 ^ k) ltac:(lia)) as H3. rewrite Hz in H3.
  apply eq_true_iff_eq. rewrite Z.eqb_eq andb_true_iff Z.leb_le Z.ltb_lt. nia.
Qed.

(** A mask of the high bits. *)
Lemma land_high a b x : 0 <= b <= a -> 0 <= x < 2 ^ a ->
  Z.land x (Z.shiftl (Z.ones (a - b)) b) = x / 2 ^ b * 2 ^ b.
Proof.
  intros Hb Hx. rewrite -Z.shiftl_mul_pow2; first lia. rewrite -Z.shiftr_div_pow2; first lia.
  apply Z.bits_inj'. intros n Hn. rewrite Z.land_spec (Z.shiftl_spec (Z.ones _)) // (Z.shiftl_spec (Z.shiftr _ _)) //.
  destruct (Z.ltb_spec n b) as [Hlt|Hge].
  - rewrite !(Z.testbit_neg_r _ (n - b)); try lia; try apply andb_false_r.
  - rewrite Z.shiftr_spec; first lia. replace (n - b + b) with n by lia.
    rewrite Z.testbit_ones_nonneg; [lia..|].
    destruct (Z.ltb_spec (n - b) (a - b)) as [H|H]; [apply andb_true_r|].
    rewrite -(Z.mod_small x (2 ^ a) Hx) Z.mod_pow2_bits_high //. lia.
Qed.

Ltac powers :=
  repeat match goal with
  | H : context [2 ^ ?k] |- _ => let v := eval vm_compute in (2 ^ k) in change (2 ^ k) with v in H
  | |- context [2 ^ ?k] => let v := eval vm_compute in (2 ^ k) in change (2 ^ k) with v
  end.
Ltac ranges :=
  powers; unfold interval; apply eq_true_iff_eq;
  rewrite ?andb_true_iff ?Z.eqb_eq ?Z.leb_le ?Z.ltb_lt; Z.to_euclidean_division_equations; lia.

Lemma multicast4 x : 0 <= x < 256 -> Z.eqb (Z.land x 240) 224 = interval 224 240 x.
Proof.
  intros Hx. rewrite (land_high 8 4); [lia|done|]. ranges.
Qed.

Lemma private12 x : 0 <= x -> Z.eqb (Z.land x 240) 16 = Z.eqb (x mod 256 / 16) 1.
Proof.
  intros Hx. change 240 with (Z.land (Z.ones 8) 240).
  rewrite Z.land_assoc Z.land_ones; [lia|]. rewrite (land_high 8 4); [lia|powers; Z.to_euclidean_division_equations; lia|]. ranges.
Qed.

Lemma unique_local x : 0 <= x < 256 -> Z.eqb (Z.land x 254) 252 = interval 252 254 x.
Proof. intros Hx. rewrite (land_high 8 1); [lia|done|]. ranges. Qed.

Lemma link_local6 x : 0 <= x < 65536 -> Z.eqb (Z.land x 65472) 65152 = interval 65152 65216 x.
Proof. intros Hx. rewrite (land_high 16 6); [lia|done|]. ranges. Qed.

Lemma link_multicast6 x : 0 <= x < 65536 -> Z.eqb (Z.land x 65295) 65282 = true ->
  interval 65280 65536 x = true.
Proof.
  intros Hx H. apply Z.eqb_eq, (f_equal (fun z => Z.shiftr z 8)) in H.
  rewrite Z.shiftr_land in H. change (Z.shiftr 65295 8) with (Z.ones 8) in H.
  rewrite Z.land_ones // !Z.shiftr_div_pow2 // in H. powers.
  unfold interval. rewrite andb_true_iff Z.leb_le Z.ltb_lt. Z.to_euclidean_division_equations; lia.
Qed.

Lemma byte_of_16 x k : Z.eqb (Z.land x 255) k = Z.eqb (x mod 256) k.
Proof. change 255 with (Z.ones 8). by rewrite Z.land_ones. Qed.


(** Every range of one list lies in a range of the other. *)
Definition covered (l l' : list (Z * Z)) : bool :=
  forallb (fun r => existsb (fun r' => Z.leb r'.1 r.1 && Z.leb r.2 r'.2) l') l.

Lemma covered_in l l' n : covered l l' = true -> in_ranges l n = true -> in_ranges l' n = true.
Proof.
  unfold covered, in_ranges. rewrite forallb_forall !existsb_exists.
  intros Hc (r & Hr & Hn). specialize (Hc r Hr). apply existsb_exists in Hc as (r' & Hr' & Hb).
  exists r'. split; [done|]. unfold interval in *.
  rewrite !andb_true_iff !Z.leb_le Z.ltb_lt in Hb, Hn |- *. lia.
Qed.

Lemma covered_eq l l' n : covered l l' = true -> covered l' l = true -> in_ranges l n = in_ranges l' n.
Proof. intros H1 H2. apply eq_true_iff_eq. split; by apply covered_in. Qed.

(** A prefix as a range. *)
Definition width (ip : Addr) : Z := match ip with Addr4 _ => 32 | _ => 128 end.
Definition number (ip : Addr) : Z := match ip with AddrZero => 0 | Addr4 n | Addr6 n _ => n end.
Definition prefix_range (p : Prefix) : Z * Z :=
  (number (pf_addr p), number (pf_addr p) + 2 ^ (width (pf_addr p) - pf_bits p)).
Definition prefix_ok (p : Prefix) : bool :=
  let k := width (pf_addr p) - pf_bits p in
  Z.leb 0 k && Z.leb 0 (number (pf_addr p)) && Z.eqb (number (pf_addr p) mod 2 ^ k) 0.
Definition same_family (ip ip' : Addr) : bool := Z.eqb (width ip) (width ip').

Lemma prefix_contains p ip : prefix_ok p = true -> 0 <= number ip ->
  match pf_addr p, ip with AddrZero, _ | _, AddrZero => False | _, Addr6 _ z => z = "" | _, _ => True end ->
  PrefixContains p ip
  = same_family (pf_addr p) ip && interval (prefix_range p).1 (prefix_range p).2 (number ip).
Proof.
  unfold prefix_ok, PrefixContains, same_family, prefix_range. rewrite !andb_true_iff !Z.leb_le Z.eqb_eq.
  intros [[H1 H2] H3] Hn Hz. destruct (pf_addr p), ip as [| |m z]; try done; cbn in *; subst.
  all: by rewrite prefix_interval.
Qed.

Definition denied_ranges (ip : Addr) : list (Z * Z) :=
  prefix_range <$> filter (fun p => same_family (pf_addr p) ip = true) deniedPrefixes.

Lemma denied_in_ranges ip : 0 <= number ip ->
  match ip with AddrZero => False | Addr6 _ z => z = "" | _ => True end ->
  existsb (fun p => PrefixContains p ip) deniedPrefixes = in_ranges (denied_ranges ip) (number ip).
Proof.
  intros Hn Hz. unfold denied_ranges, in_ranges.
  assert (Hok : forallb (fun p => prefix_ok p && negb (bool_decide (pf_addr p = AddrZero))) deniedPrefixes = true)
    by (vm_compute; reflexivity).
  revert Hok. generalize deniedPrefixes as ps. induction ps as [|p ps IH]; [done|].
  cbn [forallb existsb]. intros [[Hp Hp0]%andb_true_iff Hps]%andb_true_iff.
  rewrite negb_true_iff bool_decide_eq_false in Hp0. rewrite IH // (prefix_contains p ip) //.
  { destruct (pf_addr p), ip; cbn in *; try congruence; done. }
  destruct (same_family (pf_addr p) ip) eqn:E.
  - rewrite filter_cons_True //.
  - rewrite filter_cons_False //. by rewrite E.
Qed.

(** The tests of an IPv4 address, other than the denied prefixes, as ranges. *)
Definition code4 : list (Z * Z) :=
  [(0, 1); (2^32 - 1, 2^32); (127 * 2^24, 128 * 2^24); (224 * 2^24, 240 * 2^24);
   (43518 * 2^16, 43519 * 2^16); (10 * 2^24, 11 * 2^24); (44048 * 2^16, 44064 * 2^16);
   (49320 * 2^16, 49321 * 2^16); (224 * 2^24, 224 * 2^24 + 256)].

(** One range after the other. *)
Ltac by_ranges :=
  repeat (match goal with |- context [interval ?a ?b ?m] => destruct (interval a b m) end;
          rewrite ?orb_true_r ?orb_false_r ?andb_false_r ?andb_true_r /=; try reflexivity).

Section four.
Context (n : Z) (Hn : 0 <= n < 2 ^ 32).

Lemma top4 k : 0 <= k <= 24 -> 0 <= top n k < 2 ^ (32 - k).
Proof.
  intros Hk. rewrite top_div; first lia. split; [apply Z.div_pos; lia|].
  apply Z.div_lt_upper_bound; [lia|]. rewrite -Z.pow_add_r; try lia. replace (k + (32 - k)) with 32 by lia. apply Hn.
Qed.

Lemma zero4 : bool_decide (Addr4 n = Addr4 0) = interval 0 1 n.
Proof. unfold interval. case_bool_decide as E; [injection E as ->; done|]. assert (n <> 0) by congruence. lia. Qed.
Lemma broadcast4 : bool_decide (Addr4 n = Addr4 (Z.ones 32)) = interval (2^32 - 1) (2^32) n.
Proof.
  unfold interval. change (Z.ones 32) with (2^32 - 1).
  case_bool_decide as E; [injection E as E; rewrite E; done|]. assert (n <> 2^32 - 1) by congruence.
  powers. lia.
Qed.
Lemma loopback4 : IsLoopback (Addr4 n) = interval (127 * 2^24) (128 * 2^24) n.
Proof. cbn. rewrite top_div //. ranges. Qed.
Lemma multicast_addr4 : IsMulticast (Addr4 n) = interval (224 * 2^24) (240 * 2^24) n.
Proof.
  cbn. pose proof (top4 24 ltac:(lia)) as H. rewrite multicast4; [exact H|].
  rewrite top_div // in H |- *. ranges.
Qed.
Lemma link_local4 : IsLinkLocalUnicast (Addr4 n) = interval (43518 * 2^16) (43519 * 2^16) n.
Proof. cbn. rewrite byte_of_16 !top_div //. ranges. Qed.
Lemma link_multicast4 : IsLinkLocalMulticast (Addr4 n) = interval (224 * 2^24) (224 * 2^24 + 256) n.
Proof. cbn. rewrite !byte_of_16 !top_div //. ranges. Qed.
Lemma private4 : IsPrivate (Addr4 n) =
  interval (10 * 2^24) (11 * 2^24) n || interval (44048 * 2^16) (44064 * 2^16) n
  || interval (49320 * 2^16) (49321 * 2^16) n.
Proof.
  cbn. rewrite byte_of_16 private12; [apply (top4 16); lia|]. rewrite !top_div //. f_equal; [f_equal|].
  all: ranges.
Qed.

Lemma public4 : PublicAddress (Addr4 n) = negb (in_ranges (code4 ++ denied_ranges (Addr4 n)) n).
Proof.
  unfold PublicAddress, IsGlobalUnicast, IsUnspecified. cbn [Unmap].
  rewrite private4 link_multicast4 link_local4 loopback4 multicast_addr4 zero4 broadcast4.
  rewrite denied_in_ranges; [apply Hn|done|]. cbn [number].
  change (bool_decide (Addr4 n = IPv6Unspecified)) with false.
  unfold in_ranges. rewrite existsb_app. generalize (existsb (fun r => interval r.1 r.2 n) (denied_ranges (Addr4 n))).
  intros b. unfold code4. cbn [existsb fst snd]. by_ranges.
Qed.
End four.

(** The same for an IPv6 address that maps no IPv4 one. *)
Definition code6 : list (Z * Z) :=
  [(0, 1); (1, 2); (255 * 2^120, 256 * 2^120); (65152 * 2^112, 65216 * 2^112);
   (252 * 2^120, 254 * 2^120)].

Section six.
Context (n : Z) (Hn : 0 <= n < 2 ^ 128) (H46 : Is4In6 (Addr6 n "") = false).

Lemma unmap6 : Unmap (Addr6 n "") = Addr6 n "".
Proof. unfold Unmap. by rewrite H46. Qed.

Lemma top6 k : 0 <= k <= 120 -> 0 <= top n k < 2 ^ (128 - k).
Proof.
  intros Hk. rewrite top_div; first lia. split; [apply Z.div_pos; lia|].
  apply Z.div_lt_upper_bound; [lia|]. rewrite -Z.pow_add_r; try lia.
  replace (k + (128 - k)) with 128 by lia. apply Hn.
Qed.

Lemma zero6 : bool_decide (Addr6 n "" = IPv6Unspecified) = interval 0 1 n.
Proof.
  unfold interval, IPv6Unspecified. case_bool_decide as E; [injection E as ->; done|].
  assert (n <> 0) by congruence. lia.
Qed.
Lemma loopback6 : IsLoopback (Addr6 n "") = interval 1 2 n.
Proof. unfold IsLoopback. rewrite unmap6. unfold interval. lia. Qed.
Lemma multicast6 : IsMulticast (Addr6 n "") = interval (255 * 2^120) (256 * 2^120) n.
Proof. unfold IsMulticast. rewrite unmap6 top_div //. ranges. Qed.
Lemma link_local_addr6 : IsLinkLocalUnicast (Addr6 n "") = interval (65152 * 2^112) (65216 * 2^112) n.
Proof.
  unfold IsLinkLocalUnicast. rewrite unmap6. pose proof (top6 112 ltac:(lia)) as H.
  rewrite link_local6; [exact H|]. rewrite top_div // in H |- *. ranges.
Qed.
Lemma private6 : IsPrivate (Addr6 n "") = interval (252 * 2^120) (254 * 2^120) n.
Proof.
  unfold IsPrivate. rewrite unmap6. pose proof (top6 120 ltac:(lia)) as H.
  rewrite unique_local; [exact H|]. rewrite top_div // in H |- *. ranges.
Qed.
Lemma link_multicast_addr6 : IsLinkLocalMulticast (Addr6 n "") = true ->
  interval (255 * 2^120) (256 * 2^120) n = true.
Proof.
  unfold IsLinkLocalMulticast. rewrite unmap6. pose proof (top6 112 ltac:(lia)) as H.
  intros E. apply link_multicast6 in E; [|exact H]. revert E. rewrite top_div //. unfold interval.
  rewrite !andb_true_iff !Z.leb_le !Z.ltb_lt. powers. Z.to_euclidean_division_equations; lia.
Qed.

Lemma public6 : PublicAddress (Addr6 n "") = negb (in_ranges (code6 ++ denied_ranges (Addr6 n "")) n).
Proof.
  unfold PublicAddress, IsGlobalUnicast, IsUnspecified. cbv zeta. rewrite !unmap6.
  rewrite private6 link_local_addr6 loopback6 multicast6 zero6.
  rewrite denied_in_ranges; [apply Hn|done|]. cbn [number].
  change (bool_decide (Addr6 n "" = Addr4 _)) with false.
  pose proof link_multicast_addr6 as HL.
  unfold in_ranges. rewrite existsb_app.
  generalize (existsb (fun r => interval r.1 r.2 n) (denied_ranges (Addr6 n ""))).
  intros b. unfold code6. cbn [existsb fst snd].
  destruct (IsLinkLocalMulticast (Addr6 n "")); [rewrite HL //|]; by_ranges.
Qed.
End six.

Lemma Unmap_cases ip : addr_ok ip = true ->
  zone_of ip = "" ->
  match Unmap ip with
  | AddrZero => True
  | Addr4 n => 0 <= n < 2 ^ 32
  | Addr6 n z => 0 <= n < 2 ^ 128 /\ z = "" /\ Is4In6 (Addr6 n "") = false
  end.
Proof.
  unfold addr_ok. destruct ip as [|n|n z]; [done| |]; rewrite ?andb_true_iff ?Z.leb_le ?Z.ltb_lt.
  - intros H _. exact H.
  - cbn [zone_of]. intros H ->. unfold Unmap. destruct (Is4In6 (Addr6 n "")) eqn:E; [|done].
    rewrite Z.land_ones //. apply Z.mod_pos_bound. lia.
Qed.

Lemma PublicAddress_Unmap ip : PublicAddress ip = PublicAddress (Unmap ip).
Proof.
  unfold PublicAddress. assert (E : Unmap (Unmap ip) = Unmap ip); [|by rewrite E].
  destruct ip as [|n|n z]; try done. cbn [Unmap]. destruct (Is4In6 (Addr6 n z)) eqn:E; [done|].
  cbn [Unmap]. by rewrite E.
Qed.

Lemma public_special (ip : Addr) : addr_ok ip = true ->
  zone_of ip = "" ->
  PublicAddress ip = negb (special ip).
Proof.
  intros Hok Hz. pose proof (Unmap_cases ip Hok Hz) as Hc.
  rewrite PublicAddress_Unmap. unfold special. destruct (Unmap ip) as [|n|n z]; [done| |].
  - rewrite public4 //. f_equal. by apply covered_eq; vm_compute.
  - destruct Hc as (Hn & -> & H46). rewrite public6 //. f_equal. by apply covered_eq; vm_compute.
Qed.

(** C28: an address without a zone is public exactly when it lies in none of the
    special ranges: this network, loopback, private, carrier-grade, link-local,
    documentation, benchmarking, multicast or reserved, also when it is written
    as an IPv4-mapped IPv6 address; and none of the IPv6 ranges that are local
    or embed an IPv4 address. *)
Theorem PublicAddress_not_special (ip : Addr) : addr_ok ip = true ->
  zone_of ip = "" ->
  PublicAddress ip = negb (special ip).
Proof. apply public_special. Qed.

(** ** Parsed addresses are in range *)

Lemma fold_digits base (l : list Z) n : 0 < base -> Forall (fun x => 0 <= x < base) l -> 0 <= n ->
  0 <= fold_left (fun n x => n * base + x) l n < (n + 1) * base ^ Z.of_nat (length l).
Proof.
  intros Hb. revert n. induction l as [|x l IH]; intros n HF Hn; cbn [fold_left length].
  - rewrite Z.pow_0_r. lia.
  - apply Forall_cons in HF as [Hx HF]. specialize (IH (n * base + x) HF ltac:(nia)).
    rewrite Nat2Z.inj_succ Z.pow_succ_r; [lia|].
    assert (0 < base ^ Z.of_nat (length l)) by (apply Z.pow_pos_nonneg; lia). nia.
Qed.

Definition bounded (k : nat) (hi : Z) (l : list Z) : Prop :=
  length l = k /\ Forall (fun x => 0 <= x < hi) l.

Lemma digit_range c d : digit c = Some d -> 0 <= d <= 9.
Proof. unfold digit. case_match eqn:E; [|done]. intros [= <-]. lia. Qed.
Lemma hex_digit_range c d : hex_digit c = Some d -> 0 <= d <= 15.
Proof. unfold hex_digit. repeat case_match; try done; intros [= <-]; lia. Qed.

Lemma parse_fields_bounded s dot val dig fields out : 0 <= val < 256 ->
  (length fields <= 3)%nat -> Forall (fun x => 0 <= x < 256) fields ->
  parse_fields dot val dig fields s = Some out -> bounded 4 256 out.
Proof.
  revert dot val dig fields. induction s as [|c s IH]; intros dot val dig fields Hv Hl HF H;
    cbn [parse_fields] in H.
  - destruct (Nat.ltb_spec (length fields) 3); [done|]. injection H as <-.
    split; [rewrite length_app; cbn; lia|]. apply Forall_app. split; [done|by apply Forall_singleton].
  - destruct (digit c) as [d|] eqn:Ed.
    + apply digit_range in Ed. destruct (_ && _); [done|].
      destruct (Z.ltb_spec 255 (val * 10 + d)); [done|]. apply IH in H; [done|lia|done|done].
    + destruct (bool_decide _); [|done].
      destruct (dot || bool_decide (s = []) || Nat.eqb (length fields) 3) eqn:E; [done|].
      rewrite !orb_false_iff Nat.eqb_neq in E. destruct E as [_ E].
      apply IH in H; [done|lia|rewrite length_app; cbn; lia|]. apply Forall_app. split; [done|by apply Forall_singleton].
Qed.

Lemma hex_run_range s off acc a o rest : 0 <= acc < 65536 ->
  hex_run off acc s = Some (a, o, rest) -> 0 <= a < 65536.
Proof.
  revert off acc. induction s as [|c s IH]; intros off acc Ha H; cbn [hex_run] in H.
  - by injection H as <- _ _.
  - destruct (hex_digit c) as [d|] eqn:Ed; [|by injection H as <- _ _]. apply hex_digit_range in Ed.
    destruct (Nat.ltb 3 off || Z.ltb 65535 (acc * 16 + d)) eqn:E; [done|].
    apply orb_false_iff in E as [_ E]. apply IH in H; [done|lia].
Qed.

Lemma expand_bounded groups e s out : (length groups <= 8)%nat ->
  Forall (fun x => 0 <= x < 65536) groups -> expand groups e s = Some out -> bounded 8 65536 out.
Proof.
  intros Hl HF. unfold expand. destruct s; [|done]. destruct e as [e|].
  - destruct (Nat.eqb_spec (8 - length groups) 0); [done|]. intros [= <-]. split.
    + rewrite !length_app length_take length_drop length_replicate. lia.
    + rewrite !Forall_app. split; [by apply Forall_take|split; [|by apply Forall_drop]].
      by apply Forall_replicate.
  - destruct (Nat.eqb_spec (8 - length groups) 0); [|done]. intros [= <-]. split; [lia|done].
Qed.

Lemma parse_groups_bounded n groups e s out : (length groups + n <= 8)%nat ->
  Forall (fun x => 0 <= x < 65536) groups -> parse_groups n groups e s = Some out ->
  bounded 8 65536 out.
Proof.
  revert groups e s out. induction n as [|n IH]; intros groups e s out Hl HF H; cbn [parse_groups] in H.
  { apply expand_bounded in H; [done|lia|done]. }
  destruct (hex_run 0 0 s) as [[[acc [|off]] rest]|] eqn:Eh; try done.
  apply hex_run_range in Eh; [|lia].
  assert (Hnext : Forall (fun x => 0 <= x < 65536) (groups ++ [acc])).
  { apply Forall_app. split; [done|by apply Forall_singleton]. }
  assert (Hlen : length (groups ++ [acc]) = S (length groups)) by (rewrite length_app; cbn; lia).
  assert (Hexp : forall e out, expand (groups ++ [acc]) e [] = Some out -> bounded 8 65536 out).
  { intros e' out' He. apply expand_bounded in He; [done|lia|done]. }
  assert (Hrec : forall e s out, parse_groups n (groups ++ [acc]) e s = Some out -> bounded 8 65536 out).
  { intros e' s' out' He. apply IH in He; [done|lia|done]. }
  assert (H4 : forall out, (if Nat.ltb 6 (length groups) then None else
              match parse_fields true 0 0 [] s with
              | Some [a; b; c; d] => expand (groups ++ [a * 256 + b; c * 256 + d]) e []
              | _ => None
              end) = Some out -> bounded 8 65536 out).
  { intros out' H4. destruct (Nat.ltb_spec 6 (length groups)); [done|].
    destruct (parse_fields true 0 0 [] s) as [fs|] eqn:Ef; [|done].
    apply parse_fields_bounded in Ef as [_ Hf]; [|lia|cbn; lia|constructor].
    destruct fs as [|a [|b [|c [|d [|]]]]]; try done.
    rewrite !Forall_cons in Hf. destruct Hf as (Ha & Hb & Hc & Hd & _).
    apply expand_bounded in H4; [done|rewrite length_app; cbn; lia|].
    apply Forall_app. split; [done|]. rewrite !Forall_cons. split; [lia|split; [lia|constructor]]. }
  clear IH Hl HF Hnext Hlen. cbv zeta in H.
  repeat (case_match; try done; eauto).
Qed.

Lemma bounded_value k hi l : 0 < hi -> bounded k hi l ->
  0 <= fold_left (fun n x => n * hi + x) l 0 < hi ^ Z.of_nat k.
Proof. intros Hh [<- HF]. pose proof (fold_digits hi l 0 Hh HF). lia. Qed.

Lemma ParseAddr_ok s ip : ParseAddr s = Some ip -> addr_ok ip = true.
Proof.
  unfold ParseAddr. generalize (lit s) at 1 as r. intros r. induction r as [|c r IH]; [done|].
  assert (H4 : forall w ip, parseIPv4 w = Some ip -> addr_ok ip = true).
  { intros w ip'. unfold parseIPv4. destruct (parse_fields _ _ _ _ w) as [fs|] eqn:E; [|done].
    cbn [mbind option_bind]. intros [= <-]. apply parse_fields_bounded in E; [|lia|cbn; lia|constructor].
    apply (bounded_value 4 256) in E; [|done]. change (256 ^ Z.of_nat 4) with (2 ^ 32) in E. unfold addr_ok. lia. }
  assert (H6 : forall w ip, parseIPv6 w = Some ip -> addr_ok ip = true).
  { intros w ip'. unfold parseIPv6. destruct (match index_byte w _ with Some _ => _ | None => _ end) as [[w' zone]|];
      [|done]. cbn [mbind option_bind].
    assert (Hg : forall e w, (groups ← parse_groups 8 [] e w; Some (Addr6 (from_groups groups) zone)) = Some ip' ->
      addr_ok ip' = true).
    { intros e x. destruct (parse_groups 8 [] e x) as [g|] eqn:E; [|done]. cbn [mbind option_bind].
      intros [= <-]. apply parse_groups_bounded in E; [|cbn; lia|constructor].
      apply (bounded_value 8 65536) in E; [|done].
      change (65536 ^ Z.of_nat 8) with (2 ^ 128) in E. unfold addr_ok, from_groups. lia. }
    destruct (has_prefix w' _); [|apply Hg]. case_bool_decide; [|apply Hg]. by intros [= <-]. }
  cbn [parse_kind]. case_bool_decide; [apply H4|]. case_bool_decide; [apply H6|].
  case_bool_decide; [done|exact IH].
Qed.

Lemma AddrFromSlice_ok b ip : AddrFromSlice b = Some ip ->
  addr_ok ip = true /\ zone_of ip = "".
Proof.
  assert (Hv : 0 <= from_bytes b < 256 ^ Z.of_nat (length b)).
  { unfold from_bytes.
    replace (fold_left _ b 0) with (fold_left (fun n x => n * 256 + x) (byte_val <$> b) 0)
      by (generalize 0; induction b as [|c b IH]; intros z; [done|apply IH]).
    apply bounded_value; [done|]. split; [by rewrite length_fmap|]. apply Forall_fmap, Forall_forall.
    intros c _. apply byte_val_range. }
  unfold AddrFromSlice. repeat case_bool_decide; intros [= <-];
    match goal with H : length b = _ |- _ => rewrite H in Hv end; split; try done; unfold addr_ok.
  - change (256 ^ Z.of_nat 4) with (2 ^ 32) in Hv. lia.
  - change (256 ^ Z.of_nat 16) with (2 ^ 128) in Hv. lia.
Qed.

(** ** Where connections go *)

Section dialling.
Context {UL : UnicodeLower} (p : Policy).

(** [host] stands for [ip]: literally, or by an answer among answers that are
    all public. *)
Definition stands_for (host : string) (ip : Addr) : Prop :=
  ParseAddr host = Some ip
  \/ ParseAddr host = None /\ exists answers, po_resolver p host = Some answers
     /\ Forall (fun a => exists i, AddrFromSlice (ia_ip a) = Some i /\ special i = false) answers
     /\ exists a i, a ∈ answers /\ AddrFromSlice (ia_ip a) = Some i /\ ip = Unmap i.

Lemma special_Unmap ip : special (Unmap ip) = special ip.
Proof.
  unfold special. destruct ip as [|n|n z]; try done. cbn [Unmap].
  destruct (Is4In6 (Addr6 n z)) eqn:E; [done|]. cbn [Unmap]. by rewrite E.
Qed.

Lemma public_slice b i : AddrFromSlice b = Some i -> PublicAddress i = true -> special i = false.
Proof.
  intros [Hok Hz]%AddrFromSlice_ok Hp. rewrite public_special // in Hp. by apply negb_true_iff.
Qed.

Lemma check_answers_ok answers ips : check_answers answers = Some ips ->
  Forall (fun a => exists i, AddrFromSlice (ia_ip a) = Some i /\ special i = false) answers
  /\ Forall (fun ip => special ip = false
                       /\ exists a i, a ∈ answers /\ AddrFromSlice (ia_ip a) = Some i /\ ip = Unmap i) ips.
Proof.
  revert ips. induction answers as [|a rest IH]; intros ips Hc; cbn [check_answers] in Hc.
  - injection Hc as <-. split; constructor.
  - destruct (AddrFromSlice (ia_ip a)) as [i|] eqn:Ei; [|done].
    destruct (negb _ || negb _) eqn:E; [done|]. apply orb_false_iff in E as [E _].
    apply negb_false_iff in E. pose proof (public_slice _ _ Ei E) as Hs.
    destruct (check_answers rest) as [ips'|]; [|done]. cbn in Hc. injection Hc as <-.
    destruct (IH ips' eq_refl) as [H1 H2]. split; constructor; eauto.
    + rewrite special_Unmap. split; [done|]. exists a, i. split; [left|done].
    + eapply Forall_impl; [exact H2|]; intros ip [Hi (a' & i' & Ha & Hrest)].
      split; [done|]. exists a', i'. split; [by right|done].
Qed.

Lemma resolved_ok host ips : Resolve p host = Ok ips ->
  domainAllowed host (po_allowed_domains p) = true
  /\ Forall (fun ip => stands_for host ip /\ (special ip = false \/ zone_of ip <> "")) ips.
Proof.
  unfold Resolve. destruct (domainAllowed _ _); [|done]. cbn. intros H. split; [done|].
  destruct (ParseAddr host) as [ip|] eqn:Ep.
  - destruct (PublicAddress ip) eqn:Epub; [|done]. injection H as <-. apply Forall_singleton.
    split; [by left|]. destruct (decide (zone_of ip = "")) as [Hz|Hz].
    + left. rewrite public_special // in Epub; [by apply (ParseAddr_ok host)|by apply negb_true_iff].
    + by right.
  - destruct (po_resolver p host) as [[|a answers]|] eqn:Er; try done.
    destruct (check_answers (a :: answers)) as [ips'|] eqn:Ec; [|done]. injection H as <-.
    apply check_answers_ok in Ec as [H1 H2]. eapply Forall_impl; [exact H2|].
    intros ip [Hs Ha]. split; [|by left]. right. split; [done|]. exists (a :: answers). eauto.
Qed.

Lemma dial_loop_ok network port ips tried conn : dial_loop p network port ips = (tried, conn) ->
  tried `prefix_of` ips
  /\ match conn with
     | Some ip => last tried = Some ip /\ po_dial p network ip port = true
     | None => tried = ips /\ Forall (fun ip => po_dial p network ip port = false) ips
     end.
Proof.
  revert tried conn. induction ips as [|ip ips IH]; intros tried conn H; cbn [dial_loop] in H.
  - injection H as <- <-. split; [done|]. split; [done|constructor].
  - destruct (po_dial p network ip port) eqn:Ed.
    + injection H as <- <-. split; [|done]. exists ips. done.
    + destruct (dial_loop p network port ips) as [t c] eqn:E. injection H as <- <-.
      destruct (IH t c eq_refl) as [Hp Hc]. split; [by apply prefix_cons|]. destruct c as [x|].
      * destruct Hc as [Hl Hd]. split; [|done]. by rewrite last_cons Hl.
      * destruct Hc as [-> HF]. split; [done|]. by constructor.
Qed.

(** C22: every connection attempt goes to an address that the one resolution of
    an allowed host gave: the address the host literally is, or one of the
    answers, all of which were checked; in no special range, except a literal
    IPv6 address with a zone; on the port asked for, and the attempts end at the
    first that succeeds. *)
Theorem dial_is_pinned (network address : string) (tried : list (Addr * string)) (out : res Addr) :
  dial p network address = (tried, out) -> tried <> [] ->
  exists host port, SplitHostPort address = Some (host, port)
    /\ domainAllowed host (po_allowed_domains p) = true
    /\ Forall (fun t => t.2 = port /\ stands_for host t.1
                        /\ (special t.1 = false \/ zone_of t.1 <> "")) tried
    /\ match out with
       | Ok ip => last tried = Some (ip, port) /\ po_dial p network ip port = true
       | Err _ => Forall (fun t => po_dial p network t.1 t.2 = false) tried
       end.
Proof.
  unfold dial. intros H Hne. destruct (SplitHostPort address) as [[host port]|]; [|by injection H as <- _].
  destruct (Resolve p host) as [ips|e] eqn:Er; [|by injection H as <- _].
  apply resolved_ok in Er as [Hd Hips]. exists host, port. split; [done|split; [done|]].
  destruct (dial_loop p network port ips) as [t conn] eqn:El. apply dial_loop_ok in El as [[rest ->] Hc].
  apply Forall_app in Hips as [Hips _].
  assert (Ht : Forall (fun t => t.2 = port /\ stands_for host t.1
      /\ (special t.1 = false \/ zone_of t.1 <> "")) ((fun i => (i, port)) <$> t)).
  { apply Forall_fmap. eapply Forall_impl; [exact Hips|]. by intros ip [H1 H2]. }
  destruct conn as [ip|]; injection H as <- <-; (split; [done|]).
  - destruct Hc as [Hl Hdial]. split; [|done]. by rewrite fmap_last Hl.
  - destruct Hc as [Heq HF]. apply Forall_fmap. rewrite -Heq in HF. exact HF.
Qed.
End dialling.

(** A host that is literally the unspecified IPv6 address with a zone
    resolves, although the same address without the zone is denied: prefixes
    contain no address with a zone, and neither the unicast test nor the test of
    the unspecified address recognizes it. *)
Theorem zoned_literal_resolves `{!UnicodeLower} (p : Policy) : po_allowed_domains p = [] ->
  Resolve p "::" = Err ErrEgressDenied /\ Resolve p "::%eth0" = Ok [Addr6 0 "eth0"].
Proof. intros Hd. unfold Resolve. rewrite Hd. by split; vm_compute. Qed.

(** ** The proxy under interleaved steps *)

(** One critical section of a method, a callback of a timer, or an act on a
    connection.  The requests, the timers and the owner interleave freely. *)
Inductive proxy_event :=
  | EvBegin (now : Z)
  | EvDone (id : Z)
  | EvFreeze
  | EvExhaust
  | EvAllow (deadline now : Z)
  | EvWindow (epoch : Z)
  | EvClose
  | EvOpen (c : N) (id : Z) (connect : bool)
  | EvTrack (c : N)
  | EvCloseConn (c : N)
  | EvUntrack (c : N)
  | EvOut (n : Z)
  | EvIn (n : Z).

(** [connect] tracks a connection that it has opened, with the epoch of its
    request, and its deferred calls close a connection before they untrack it.
    A dial may end after the freeze that cancelled its request. *)
Definition proxy_step (ev : proxy_event) (p : proxy) : option proxy :=
  match ev with
  | EvBegin now => Some (begin_request now p).1
  | EvDone id => Some (finish_request id p)
  | EvFreeze => Some (Freeze p)
  | EvExhaust => Some (exhaust p)
  | EvAllow deadline now => Some (AllowUntil deadline now p).1
  | EvWindow epoch => Some (window_fires epoch p)
  | EvClose => Some (CloseProxy p)
  | EvOpen c id connect => open_connection c id connect p
  | EvTrack c =>
      match px_open p !! c with
      | Some oc => if oc_connect oc then Some (track c (oc_epoch oc) p).1 else None
      | None => None
      end
  | EvCloseConn c => Some (close_conn c p)
  | EvUntrack c =>
      match px_open p !! c with Some _ => None | None => Some (untrack c p) end
  | EvOut n => Some (take_out n p).1
  | EvIn n => Some (take_in n p).1
  end.

Fixpoint proxy_run (evs : list proxy_event) (p : proxy) : option proxy :=
  match evs with
  | [] => Some p
  | ev :: evs => p' ← proxy_step ev p; proxy_run evs p'
  end.

(** What holds between any two steps. *)
Record proxy_inv (limit : Z) (p : proxy) : Prop := mkProxyInv {
  iv_seen : px_tunnels p ⊆ px_seen p /\ dom (px_open p) ⊆ px_seen p;
  iv_open : forall c oc, px_open p !! c = Some oc ->
    oc_request oc ∈ dom (px_requests p) ∪ px_cancelled p;
  iv_frozen : px_frozen p = true ->
    (forall c, c ∈ px_tunnels p -> px_open p !! c = None) /\ dom (px_requests p) ⊆ px_cancelled p;
  iv_terminal : px_closed p || px_exhausted p = true -> px_frozen p = true;
  iv_sent : px_sent p + px_counter p = limit /\ 0 <= px_counter p;
  iv_received : px_received p + px_inbound p = maxProxyResponseBytes /\ 0 <= px_inbound p;
  iv_next : 0 <= px_next p <= maxProxyRequests;
  iv_inflight : Z.of_nat (size (px_requests p)) <= maxProxyInflight;
}.

Lemma freezeLocked_inv limit p :
  px_tunnels p ⊆ px_seen p /\ dom (px_open p) ⊆ px_seen p ->
  (forall c oc, px_open p !! c = Some oc -> oc_request oc ∈ dom (px_requests p) ∪ px_cancelled p) ->
  px_sent p + px_counter p = limit /\ 0 <= px_counter p ->
  px_received p + px_inbound p = maxProxyResponseBytes /\ 0 <= px_inbound p ->
  0 <= px_next p <= maxProxyRequests -> Z.of_nat (size (px_requests p)) <= maxProxyInflight ->
  proxy_inv limit (freezeLocked p).
Proof.
  intros [H1 H1'] H2 H3 H4 H5 H6. constructor; cbn; try done.
  - split; [done|]. etrans; [|exact H1']. apply dom_filter_subseteq.
  - intros c oc [Hc _]%map_lookup_filter_Some. specialize (H2 _ _ Hc). clear -H2. set_solver.
  - intros _. split; [|clear; set_solver]. intros c Hc. apply map_lookup_filter_None. right.
    intros oc _ Hn. by apply Hn.
Qed.

Lemma Take_inv n r : 0 <= r -> 0 <= (Take n r).1
  /\ match (Take n r).2 with Ok _ => (Take n r).1 = r - n /\ 0 <= n | Err _ => (Take n r).1 = r end.
Proof. unfold Take. intros Hr. destruct (Z.ltb n 0 || Z.ltb r n) eqn:E; cbn; lia. Qed.

Lemma begin_inv limit now p : proxy_inv limit p -> proxy_inv limit (begin_request now p).1.
Proof.
  intros Hinv. pose proof Hinv as [H0 H1 H2 H3 H4 H5 H6 H7]. unfold begin_request.
  destruct (px_closed p || px_frozen p || Expired now p) eqn:E; [done|].
  destruct (Z.leb_spec maxProxyRequests (px_next p)); [by apply freezeLocked_inv|].
  destruct (Z.leb_spec maxProxyInflight (Z.of_nat (size (px_requests p)))); [done|].
  rewrite !orb_false_iff in E. destruct E as [[Ec Ef] _]. constructor; cbn; try done.
  - intros c oc Hc. specialize (H1 _ _ Hc). rewrite dom_insert_L. clear -H1. set_solver.
  - by rewrite Ef.
  - unfold uint64, maxProxyRequests in *. rewrite Z.mod_small; lia.
  - rewrite map_size_insert. destruct (_ !! _); unfold id; lia.
Qed.

Lemma open_inv limit c id connect p p' :
  proxy_inv limit p -> open_connection c id connect p = Some p' -> proxy_inv limit p'.
Proof.
  intros [[H0 H0'] H1 H2 H3 H4 H5 H6 H7]. unfold open_connection.
  destruct (px_requests p !! id) as [e|] eqn:Hid; [|done].
  case_bool_decide as Hc; [done|]. intros [= <-]. constructor; cbn; try done.
  - rewrite dom_insert_L. clear -H0 H0'. set_solver.
  - intros c' oc. rewrite lookup_insert_Some. intros [[_ <-]|[_ Hc']]; [|by apply (H1 c')].
    cbn. apply elem_of_union_l. by apply elem_of_dom_2 in Hid.
  - intros Hf. destruct (H2 Hf) as [Ha Hb]. split; [|done]. intros c' Hc'.
    apply lookup_insert_None. split; [by apply Ha|]. intros ->. by apply Hc, H0.
Qed.

Lemma track_inv limit c epoch p : c ∈ px_seen p -> proxy_inv limit p ->
  proxy_inv limit (track c epoch p).1.
Proof.
  intros Hc Hinv. pose proof Hinv as [[H0 H0'] H1 H2 H3 H4 H5 H6 H7]. unfold track.
  destruct (px_closed p || px_frozen p || _) eqn:E; [done|].
  rewrite !orb_false_iff in E. destruct E as [[Ec Ef] _]. constructor; cbn; try done.
  - clear -Hc H0 H0'. set_solver.
  - by rewrite Ef.
Qed.

Lemma proxy_step_inv limit ev p p' : proxy_inv limit p -> proxy_step ev p = Some p' -> proxy_inv limit p'.
Proof.
  intros Hinv. pose proof Hinv as [[H0 H0'] H1 H2 H3 H4 H5 H6 H7].
  destruct ev as [now|id| | |deadline now|epoch| |c id connect|c|c|c|n|n]; cbn.
  - intros [= <-]. by apply begin_inv.
  - intros [= <-]. constructor; cbn; try done.
    + intros c oc Hc. specialize (H1 _ _ Hc). rewrite dom_delete_L. clear -H1.
      destruct (decide (oc_request oc = id)); set_solver.
    + intros Hf. destruct (H2 Hf) as [Ha Hb]. split; [done|].
      rewrite dom_delete_L. clear -Hb. set_solver.
    + rewrite map_size_delete. destruct (_ !! _); unfold Datatypes.id; lia.
  - intros [= <-]. by apply freezeLocked_inv.
  - intros [= <-]. by apply freezeLocked_inv.
  - intros [= <-]. unfold AllowUntil. destruct (px_closed p || px_exhausted p || _) eqn:E; [done|].
    rewrite !orb_false_iff in E. destruct E as [[Ec Ee] _]. constructor; cbn; try done. by rewrite Ec Ee.
  - intros [= <-]. unfold window_fires. destruct (Z.eqb _ _); [by apply freezeLocked_inv|done].
  - intros [= <-]. unfold CloseProxy. destruct (px_closed p); [done|by apply freezeLocked_inv].
  - by apply open_inv.
  - destruct (px_open p !! c) as [oc|] eqn:Hc; [|done]. destruct (oc_connect oc); [|done].
    intros [= <-]. apply track_inv; [|done]. apply elem_of_dom_2 in Hc. by apply H0'.
  - intros [= <-]. constructor; cbn; try done; [split; [done|rewrite dom_delete_L; clear -H0'; set_solver]|..].
    + intros c' oc [_ Hc]%lookup_delete_Some. by apply (H1 c').
    + intros Hf. destruct (H2 Hf) as [Ha Hb]. split; [|done]. intros c' Hc'.
      apply lookup_delete_None. right. by apply Ha.
  - destruct (px_open p !! c) eqn:Hc; [done|]. intros [= <-]. constructor; cbn; try done.
    + split; [clear -H0; set_solver|done].
    + intros Hf. destruct (H2 Hf) as [Ha Hb]. split; [|done].
      intros c' [Hc' _]%elem_of_difference. by apply Ha.
  - intros [= <-]. unfold take_out. destruct (Take_inv n (px_counter p)) as [Ht1 Ht2]; [lia|].
    destruct (Take n (px_counter p)) as [r [[]|e]]; cbn in *; constructor; cbn; try done; lia.
  - intros [= <-]. unfold take_in. destruct (Take_inv n (px_inbound p)) as [Ht1 Ht2]; [lia|].
    destruct (Take n (px_inbound p)) as [r [[]|e]]; cbn in *; constructor; cbn; try done; lia.
Qed.

Lemma newProxy_inv expires limit : 0 <= limit -> proxy_inv limit (newProxy expires limit).
Proof. intros Hl. constructor; cbn; try done; lia. Qed.

Lemma proxy_run_inv limit evs p p' : proxy_inv limit p -> proxy_run evs p = Some p' -> proxy_inv limit p'.
Proof.
  revert p. induction evs as [|ev evs IH]; intros p Hinv H; cbn in H; [by injection H as <-|].
  destruct (proxy_step ev p) as [p1|] eqn:E; [|done]. cbn in H.
  apply proxy_step_inv with (limit := limit) in E; [|done]. by apply (IH p1).
Qed.

(** What is closed or exhausted stays so. *)
Lemma terminal_step ev p p' : proxy_step ev p = Some p' -> px_closed p || px_exhausted p = true ->
  px_closed p' || px_exhausted p' = true.
Proof.
  destruct ev as [now|id| | |deadline now|epoch| |c id connect|c|c|c|n|n]; cbn; intros H Ht.
  all: try (injection H as <-; done).
  - injection H as <-. unfold begin_request. repeat case_match; cbn; rewrite ?orb_true_r //.
  - injection H as <-. cbn. by rewrite orb_true_r.
  - injection H as <-. unfold AllowUntil. by case_match.
  - injection H as <-. unfold window_fires. by case_match.
  - injection H as <-. unfold CloseProxy. destruct (px_closed p) eqn:E; [by rewrite E|done].
  - unfold open_connection in H. repeat case_match; by simplify_eq.
  - repeat case_match; simplify_eq. unfold track. by case_match.
  - by case_match; simplify_eq.
  - injection H as <-. unfold take_out. by repeat case_match.
  - injection H as <-. unfold take_in. by repeat case_match.
Qed.

Lemma terminal_run evs p p' : proxy_run evs p = Some p' -> px_closed p || px_exhausted p = true ->
  px_closed p' || px_exhausted p' = true.
Proof.
  revert p. induction evs as [|ev evs IH]; intros p H Ht; cbn in H; [by injection H as <-|].
  destruct (proxy_step ev p) as [p1|] eqn:E; [|done]. cbn in H.
  apply (IH p1 H). by apply (terminal_step ev p).
Qed.

(** Epochs only grow, and a proxy that froze since [e] is past [e]. *)
Definition past (e : Z) (p : proxy) : Prop :=
  e <= px_epoch p /\ (px_frozen p = true -> e < px_epoch p).

Lemma epoch_step ev p p' : proxy_step ev p = Some p' -> 0 <= px_epoch p -> px_epoch p + 1 < 2 ^ 64 ->
  (px_epoch p' = px_epoch p /\ px_frozen p' = px_frozen p) \/ px_epoch p' = px_epoch p + 1.
Proof.
  intros H H0 Hlt. assert (Hu : uint64 (px_epoch p + 1) = px_epoch p + 1).
  { apply Z.mod_small. lia. }
  destruct ev as [now|id| | |deadline now|epoch| |c id connect|c|c|c|n|n]; cbn in H.
  all: try (injection H as <-; cbn; by auto).
  - injection H as <-. unfold begin_request. repeat case_match; cbn; by auto.
  - injection H as <-. unfold AllowUntil. case_match; cbn; by auto.
  - injection H as <-. unfold window_fires. case_match; cbn; by auto.
  - injection H as <-. unfold CloseProxy. case_match; cbn; by auto.
  - unfold open_connection in H. repeat case_match; simplify_eq; cbn; by auto.
  - repeat case_match; simplify_eq. unfold track. case_match; cbn; by auto.
  - case_match; simplify_eq; cbn; by auto.
  - injection H as <-. unfold take_out. repeat case_match; cbn; by auto.
  - injection H as <-. unfold take_in. repeat case_match; cbn; by auto.
Qed.

Lemma past_run e evs p p' : proxy_run evs p = Some p' -> past e p -> 0 <= px_epoch p ->
  px_epoch p + Z.of_nat (length evs) < 2 ^ 64 ->
  past e p' /\ px_epoch p <= px_epoch p' <= px_epoch p + Z.of_nat (length evs).
Proof.
  revert p. induction evs as [|ev evs IH]; intros p H Hp H0 Hlt; cbn in H.
  - injection H as <-. split; [done|cbn; lia].
  - destruct (proxy_step ev p) as [p1|] eqn:E; [|done]. cbn in H, Hlt.
    apply epoch_step in E; [|lia..].
    assert (Hp1 : past e p1).
    { destruct Hp as [Ha Hb]. unfold past. destruct E as [[-> ->]| ->]; [done|]. split; intros; lia. }
    destruct (IH p1 H Hp1) as [H1 H2]; [lia..|]. split; [done|cbn; lia].
Qed.

(** The requests and the open connections carry epochs of the past. *)
Definition epochs_past (p : proxy) : Prop :=
  (forall id e, px_requests p !! id = Some e -> past e p)
  /\ forall c oc, px_open p !! c = Some oc -> past (oc_epoch oc) p.

Lemma past_step e ev p p' : proxy_step ev p = Some p' -> past e p -> 0 <= px_epoch p ->
  px_epoch p + 1 < 2 ^ 64 -> past e p'.
Proof.
  intros H [Ha Hb] H0 Hlt. unfold past.
  destruct (epoch_step _ _ _ H H0 Hlt) as [[-> ->]| ->]; [done|]. split; intros; lia.
Qed.

(** Where a registered request and an open connection come from. *)
Lemma requests_step ev p p' id e : proxy_step ev p = Some p' -> px_requests p' !! id = Some e ->
  px_requests p !! id = Some e \/ (e = px_epoch p /\ px_epoch p' = px_epoch p /\ px_frozen p' = false).
Proof.
  intros H Hid. destruct ev; cbn in H; try (injection H as <-; by left).
  - injection H as <-. revert Hid. unfold begin_request.
    destruct (px_closed p || px_frozen p || Expired now p) eqn:E; [by left|].
    destruct (Z.leb _ _); [by left|]. destruct (Z.leb _ _); [by left|]. cbn.
    rewrite !orb_false_iff in E. rewrite lookup_insert_Some. intros [[_ <-]|[_ ?]]; [|by left].
    right. by destruct E as [[_ ->] _].
  - injection H as <-. left. cbn in Hid. by apply lookup_delete_Some in Hid as [_ ?].
  - injection H as <-. left. revert Hid. unfold AllowUntil. by case_match.
  - injection H as <-. left. revert Hid. unfold window_fires. by case_match.
  - injection H as <-. left. revert Hid. unfold CloseProxy. by case_match.
  - unfold open_connection in H. repeat case_match; simplify_eq. by left.
  - repeat case_match; simplify_eq. left. revert Hid. unfold track. by case_match.
  - case_match; simplify_eq. by left.
  - injection H as <-. left. revert Hid. unfold take_out. by repeat case_match.
  - injection H as <-. left. revert Hid. unfold take_in. by repeat case_match.
Qed.

Lemma open_step ev p p' c oc : proxy_step ev p = Some p' -> px_open p' !! c = Some oc ->
  px_open p !! c = Some oc
  \/ ((c ∉ px_seen p) /\ px_requests p !! oc_request oc = Some (oc_epoch oc)).
Proof.
  intros H Hc. destruct ev; cbn in H; try (injection H as <-; cbn in Hc;
    rewrite ?map_lookup_filter_Some ?lookup_delete_Some in Hc; by (left; naive_solver)).
  - injection H as <-. left. revert Hc. unfold begin_request. repeat case_match; cbn;
      rewrite ?map_lookup_filter_Some; naive_solver.
  - injection H as <-. left. revert Hc. unfold AllowUntil. by case_match.
  - injection H as <-. left. revert Hc. unfold window_fires. case_match; cbn;
      rewrite ?map_lookup_filter_Some; naive_solver.
  - injection H as <-. left. revert Hc. unfold CloseProxy. case_match; cbn;
      rewrite ?map_lookup_filter_Some; naive_solver.
  - unfold open_connection in H. destruct (px_requests p !! id) as [e|] eqn:Hid; [|done].
    case_bool_decide as Hs; [done|]. injection H as <-. cbn in Hc.
    apply lookup_insert_Some in Hc as [[<- <-]|[_ Hc]]; [by right|by left].
  - repeat case_match; simplify_eq. left. revert Hc. unfold track. by case_match.
  - case_match; simplify_eq. by left.
  - injection H as <-. left. revert Hc. unfold take_out. by repeat case_match.
  - injection H as <-. left. revert Hc. unfold take_in. by repeat case_match.
Qed.

Lemma epochs_past_step ev p p' : proxy_step ev p = Some p' -> 0 <= px_epoch p ->
  px_epoch p + 1 < 2 ^ 64 -> epochs_past p -> epochs_past p'.
Proof.
  intros H H0 Hlt [Hr Ho]. split.
  - intros id e Hid. destruct (requests_step _ _ _ _ _ H Hid) as [Hid'|(-> & He & Hf)].
    + by apply (past_step e ev p); [| apply (Hr id)| |].
    + unfold past. rewrite He Hf. split; [lia|done].
  - intros c oc Hc. apply (past_step _ ev p); [done| |done..].
    destruct (open_step _ _ _ _ _ H Hc) as [Hc'|[_ Hid]]; [by apply (Ho c)|by apply (Hr _ _ Hid)].
Qed.

Lemma epochs_past_run evs p p' : proxy_run evs p = Some p' -> 0 <= px_epoch p ->
  px_epoch p + Z.of_nat (length evs) < 2 ^ 64 -> epochs_past p ->
  epochs_past p' /\ px_epoch p <= px_epoch p' <= px_epoch p + Z.of_nat (length evs).
Proof.
  revert p. induction evs as [|ev evs IH]; intros p H H0 Hlt Hp; cbn in H.
  - injection H as <-. split; [done|cbn; lia].
  - destruct (proxy_step ev p) as [p1|] eqn:E; [|done]. cbn in H, Hlt.
    assert (Hp1 : epochs_past p1) by (apply (epochs_past_step ev p); [done|lia..|done]).
    apply epoch_step in E; [|lia..].
    destruct (IH p1 H) as [H1 H2]; [lia|lia|done|]. split; [done|cbn; lia].
Qed.

(** A connection that is not a tunnel and whose epoch is over, or that was
    closed, never becomes one. *)
Definition spent_conn (c : N) (p : proxy) : Prop :=
  c ∈ px_seen p /\ (c ∉ px_tunnels p)
  /\ forall oc, px_open p !! c = Some oc -> oc_epoch oc < px_epoch p.

Lemma seen_step ev p p' : proxy_step ev p = Some p' -> px_seen p ⊆ px_seen p'.
Proof.
  intros H. destruct ev; cbn in H; unfold open_connection in H; repeat case_match; simplify_eq;
    unfold begin_request, AllowUntil, window_fires, CloseProxy, track, take_out, take_in;
    repeat case_match; cbn; set_solver.
Qed.

Lemma tunnels_step ev p p' c : proxy_step ev p = Some p' -> c ∈ px_tunnels p' ->
  c ∈ px_tunnels p \/ exists oc, px_open p !! c = Some oc /\ oc_epoch oc = px_epoch p.
Proof.
  intros H Hc. destruct ev as [now|id| | |deadline now|epoch| |c0 id connect|c0|c0|c0|n|n]; cbn in H.
  9: { destruct (px_open p !! c0) as [oc|] eqn:Hc0; [|done]. destruct (oc_connect oc); [|done].
       injection H as <-. revert Hc. unfold track.
       destruct (px_closed p || px_frozen p || _) eqn:E; [by left|]. cbn.
       rewrite !orb_false_iff in E. destruct E as [_ E%negb_false_iff%Z.eqb_eq].
       rewrite elem_of_union elem_of_singleton. intros [?| ->]; [by left|]. right. by exists oc. }
  all: left; revert Hc; unfold open_connection in H; repeat case_match; simplify_eq;
    unfold begin_request, AllowUntil, window_fires, CloseProxy, take_out, take_in;
    repeat case_match; cbn; set_solver.
Qed.

Lemma spent_run c evs p p' : proxy_run evs p = Some p' -> 0 <= px_epoch p ->
  px_epoch p + Z.of_nat (length evs) < 2 ^ 64 -> spent_conn c p -> spent_conn c p'.
Proof.
  revert p. induction evs as [|ev evs IH]; intros p H H0 Hlt Hp; cbn in H; [by injection H as <-|].
  destruct (proxy_step ev p) as [p1|] eqn:E; [|done]. cbn in H, Hlt.
  assert (He : px_epoch p <= px_epoch p1 <= px_epoch p + 1).
  { destruct (epoch_step _ _ _ E) as [[-> _]| ->]; lia. }
  apply (IH p1); [done|lia|lia|]. destruct Hp as (Hs & Ht & Ho). split_and!.
  - by apply (seen_step _ _ _ E).
  - intros Hc. destruct (tunnels_step _ _ _ _ E Hc) as [?|(oc & Hoc & ?)]; [done|].
    specialize (Ho oc Hoc). lia.
  - intros oc Hoc. destruct (open_step _ _ _ _ _ E Hoc) as [Hoc'|[? _]]; [|done].
    specialize (Ho oc Hoc'). lia.
Qed.

(** C10: a frozen proxy carries nothing through a tunnel.  Whatever the
    interleaving of requests, dials, timers, reviews and the owner that led to
    it, in a frozen proxy every tracked connection is closed and every
    registered request was cancelled.  A connection may still be open: one that
    a handler dialled or hijacked and has not tracked yet, or the one of a plain
    request; it belongs to a cancelled request, and whatever happens later, new
    windows included, it never becomes a tunnel (as long as the 64-bit epoch
    does not wrap).  The bytes of a plain request that its cancellation cuts
    off are not modelled. *)
Theorem frozen_proxy_is_silent (evs : list proxy_event) (expires limit : Z) (p : proxy) : 0 <= limit ->
  proxy_run evs (newProxy expires limit) = Some p -> px_frozen p = true ->
  (forall c, c ∈ px_tunnels p -> px_open p !! c = None)
  /\ dom (px_requests p) ⊆ px_cancelled p
  /\ forall c oc, px_open p !! c = Some oc ->
       oc_request oc ∈ px_cancelled p /\ (c ∉ px_tunnels p)
       /\ forall later p', proxy_run later p = Some p' ->
            Z.of_nat (length evs) + Z.of_nat (length later) < 2 ^ 64 -> c ∉ px_tunnels p'.
Proof.
  intros Hl H Hf.
  destruct (proxy_run_inv limit _ _ _ (newProxy_inv expires limit Hl) H) as [[_ Hs] Ho Hfr _ _ _ _ _].
  destruct (Hfr Hf) as [Ht Hr]. split_and!; [done|done|]. intros c oc Hc.
  assert (Hn : c ∉ px_tunnels p) by (intros Hin; rewrite (Ht c Hin) in Hc; done).
  split_and!; [specialize (Ho c oc Hc); clear -Ho Hr; set_solver|done|]. intros later p' H' Hlt.
  destruct (epochs_past_run evs _ _ H) as [[_ Hp] He]; cbn in *; [lia|lia|by split|].
  destruct (spent_run c later p p' H') as (_ & ? & _); [lia|lia| |done].
  split_and!; [apply elem_of_dom_2 in Hc; by apply Hs|done|].
  intros oc' Hoc'. by apply (Hp c oc' Hoc').
Qed.

(** Over the whole life of a proxy, window after window, the bytes accepted
    for requests stay within its allowance and those for responses within
    twenty megabytes; at most 2048 requests begin, at most 64 at a time. *)
Theorem proxy_is_bounded (evs : list proxy_event) (expires limit : Z) (p : proxy) : 0 <= limit ->
  proxy_run evs (newProxy expires limit) = Some p ->
  px_sent p <= limit /\ px_received p <= maxProxyResponseBytes
  /\ 0 <= px_next p <= maxProxyRequests /\ Z.of_nat (size (px_requests p)) <= maxProxyInflight.
Proof.
  intros Hl H.
  destruct (proxy_run_inv limit _ _ _ (newProxy_inv expires limit Hl) H) as [_ _ _ _ H1 H2 H3 H4].
  split_and!; try done; lia.
Qed.

(** Exhaustion and closing are final: after either, whatever follows, the
    proxy is frozen with every tracked connection closed, no request begins, no
    connection is tracked and no window is granted. *)
Theorem exhaustion_is_final (evs later : list proxy_event) (expires limit : Z) (p p' : proxy) :
  0 <= limit -> proxy_run evs (newProxy expires limit) = Some p ->
  px_closed p || px_exhausted p = true -> proxy_run later p = Some p' ->
  px_frozen p' = true /\ (forall c, c ∈ px_tunnels p' -> px_open p' !! c = None)
  /\ (forall now, (begin_request now p').2 = None)
  /\ (forall c epoch, (track c epoch p').2 = false)
  /\ forall deadline now, (AllowUntil deadline now p').2 = Err ErrEgressDenied.
Proof.
  intros Hl H Ht H'. pose proof (proxy_run_inv limit _ _ _ (newProxy_inv expires limit Hl) H) as Hinv.
  pose proof (proxy_run_inv limit _ _ _ Hinv H') as [_ _ H2 H3 _ _ _ _].
  pose proof (terminal_run _ _ _ H' Ht) as Ht'. pose proof (H3 Ht') as Hf.
  split_and!; [done|by apply H2|..].
  - intros now. unfold begin_request. rewrite Hf. by rewrite orb_true_r.
  - intros c epoch. unfold track. rewrite Hf. by rewrite orb_true_r.
  - intros deadline now. unfold AllowUntil. by rewrite Ht'.
Qed.

(** A request that began before a freeze never gets a tunnel after it, even
    when the owner opened a new window: its epoch is over (as long as the
    64-bit epoch does not wrap). *)
Theorem stale_request_gets_no_tunnel (now : Z) (p p1 p2 p3 : proxy) (id e : Z) (c : N)
    (evs later : list proxy_event) : 0 <= px_epoch p ->
  px_epoch p + Z.of_nat (length evs) + Z.of_nat (length later) < 2 ^ 64 ->
  begin_request now p = (p1, Some (id, e)) -> proxy_run evs p1 = Some p2 -> px_frozen p2 = true ->
  proxy_run later p2 = Some p3 -> (track c e p3).2 = false.
Proof.
  intros H0 Hlt Hb H1 Hf H2. unfold begin_request in Hb.
  destruct (px_closed p || px_frozen p || Expired now p) eqn:E; [done|].
  rewrite !orb_false_iff in E. destruct E as [[_ Ef] _].
  destruct (Z.leb _ _); [done|]. destruct (Z.leb _ _); [done|]. injection Hb as <- _ <-.
  destruct (past_run (px_epoch p) _ _ _ H1) as [Hp2 Hr]; cbn in *; [|lia..|].
  { unfold past. cbn. rewrite Ef. split; [lia|done]. }
  destruct (past_run (px_epoch p) _ _ _ H2 Hp2) as [_ Hr2]; [lia..|].
  destruct Hp2 as [_ Hp2]. specialize (Hp2 Hf). unfold track.
  destruct (px_closed p3 || px_frozen p3); [done|]. cbn.
  destruct (Z.eqb_spec (px_epoch p3) (px_epoch p)); [lia|done].
Qed.

(** ** A run *)

Module EgressDemo.

#[local] Instance lower : UnicodeLower := fun s => s.

Definition answers (host : string) : option (list IPAddr) :=
  let public := mkIPAddr (byte_of <$> [93; 184; 215; 14]) "" in
  if bool_decide (host = "example.com")
  then Some [public; mkIPAddr (byte_of <$> [94; 1; 2; 3]) ""]
  else if bool_decide (host = "rebind.test")
  then Some [public; mkIPAddr (byte_of <$> [127; 0; 0; 1]) ""]
  else None.
Definition policy : Policy :=
  mkPolicy [] answers (fun _ ip _ => bool_decide (ip = Addr4 1577124355)).

Example dials : dial policy "tcp" "example.com:443"
  = ([(Addr4 1572394766, "443"); (Addr4 1577124355, "443")], Ok (Addr4 1577124355)).
Proof. vm_compute. reflexivity. Qed.
Example refuses : (fun a => dial policy "tcp" a) <$> ["rebind.test:80"; "127.0.0.1:80"; "[::ffff:10.0.0.1]:80"]
  = replicate 3 ([], Err ErrEgressDenied).
Proof. vm_compute. reflexivity. Qed.

Lemma PublicAddress_not_special_witness :
  addr_ok (Addr6 (65535 * 2 ^ 32 + 2130706433) "") = true
  /\ PublicAddress (Addr6 (65535 * 2 ^ 32 + 2130706433) "")
     = negb (special (Addr6 (65535 * 2 ^ 32 + 2130706433) "")).
Proof.
  split; [vm_compute; reflexivity|].
  apply (PublicAddress_not_special (Addr6 (65535 * 2 ^ 32 + 2130706433) "")); vm_compute; reflexivity.
Defined.

Lemma dial_is_pinned_witness : exists tried out,
  dial policy "tcp" "example.com:443" = (tried, out) /\ tried <> []
  /\ exists host port, SplitHostPort "example.com:443" = Some (host, port)
    /\ Forall (fun t => t.2 = port /\ stands_for policy host t.1) tried.
Proof.
  destruct (dial policy "tcp" "example.com:443") as [tried out] eqn:E.
  assert (Hne : tried <> []).
  { intros ->. vm_compute in E. discriminate E. }
  exists tried, out. split; [reflexivity|split; [exact Hne|]].
  destruct (dial_is_pinned policy "tcp" "example.com:443" tried out E Hne)
    as (host & port & Hs & _ & HF & _).
  exists host, port. split; [exact Hs|]. eapply Forall_impl; [exact HF|].
  intros t (H1 & H2 & _). split; assumption.
Defined.

Lemma zoned_literal_resolves_witness :
  po_allowed_domains policy = [] /\ Resolve policy "::%eth0" = Ok [Addr6 0 "eth0"].
Proof. split; [reflexivity|apply (zoned_literal_resolves policy); reflexivity]. Defined.

(** A request opens a tunnel and another one dials; the review freezes the
    proxy; a window opens, in which the dialled connection is refused; the
    bytes run out. *)
Definition evs : list proxy_event :=
  [EvBegin 0; EvBegin 0; EvOpen 7 1 true; EvTrack 7; EvOpen 8 2 true; EvOut 60; EvFreeze].
Definition later : list proxy_event :=
  [EvAllow 50 10; EvTrack 8; EvBegin 11; EvOut 60; EvExhaust; EvAllow 60 12].
Definition frozen : proxy := default (newProxy 100 100) (proxy_run evs (newProxy 100 100)).
Definition spent : proxy := default (newProxy 100 100) (proxy_run (evs ++ later) (newProxy 100 100)).

Lemma frozen_proxy_is_silent_witness :
  proxy_run evs (newProxy 100 100) = Some frozen /\ px_frozen frozen = true
  /\ px_open frozen !! 7%N = None /\ px_open frozen !! 8%N = Some (mkOpenConn 2 0 true)
  /\ (2 ∈ px_cancelled frozen /\ proxy_run later frozen = Some spent /\ 8%N ∉ px_tunnels spent).
Proof.
  assert (H8 : px_open frozen !! 8%N = Some (mkOpenConn 2 0 true)) by (vm_compute; reflexivity).
  destruct (frozen_proxy_is_silent evs 100 100 frozen ltac:(lia) ltac:(vm_compute; reflexivity)
    ltac:(vm_compute; reflexivity)) as (H1 & _ & H2).
  split; [vm_compute; reflexivity|split; [vm_compute; reflexivity|split; [|split; [exact H8|]]]].
  - apply H1. apply (bool_decide_unpack _). vm_compute. exact I.
  - destruct (H2 8%N _ H8) as (H3 & _ & H4). split; [exact H3|].
    split; [vm_compute; reflexivity|]. apply (H4 later); vm_compute; reflexivity.
Defined.

Lemma proxy_is_bounded_witness : px_sent spent = 60 /\ px_sent spent <= 100.
Proof.
  split; [vm_compute; reflexivity|].
  apply (proxy_is_bounded (evs ++ later) 100 100 spent); [lia|vm_compute; reflexivity].
Defined.

Lemma exhaustion_is_final_witness :
  px_exhausted spent = true /\ px_frozen spent = true
  /\ (AllowUntil 99 20 spent).2 = Err ErrEgressDenied.
Proof.
  split; [vm_compute; reflexivity|].
  destruct (exhaustion_is_final (evs ++ later) [] 100 100 spent spent ltac:(lia)
    ltac:(vm_compute; reflexivity) ltac:(vm_compute; reflexivity) ltac:(reflexivity)) as (H1 & _ & _ & _ & H2).
  split; [exact H1|apply H2].
Defined.

Lemma stale_request_gets_no_tunnel_witness : exists p3,
  proxy_run (take 3 later) frozen = Some p3 /\ px_frozen p3 = false /\ (track 8 0 p3).2 = false.
Proof.
  destruct (proxy_run (take 3 later) frozen) as [p3|] eqn:E; [|vm_compute in E; discriminate E].
  exists p3. split; [reflexivity|]. split; [vm_compute in E; injection E as <-; reflexivity|].
  destruct (begin_request 0 (newProxy 100 100)) as [p1 o] eqn:Eb.
  assert (Ho : o = Some (1, 0)) by (vm_compute in Eb; injection Eb as _ <-; reflexivity). subst o.
  apply (stale_request_gets_no_tunnel 0 (newProxy 100 100) p1 frozen p3 1 0 8 (drop 1 evs) (take 3 later)).
  - cbn. lia.
  - vm_compute. reflexivity.
  - exact Eb.
  - vm_compute in Eb. injection Eb as <-. vm_compute. reflexivity.
  - vm_compute. reflexivity.
  - exact E.
Defined.
End EgressDemo.
