(* ===== verification/Binding.v ===== *)
(** * Binding: the exact action a tool call proposes

    Package [internal/actionauth] ([binding.go], [release.go],
    [public_web_reads.go], [memory_read.go], the context of [types.go]): the
    binding of a call to its contract, arguments, resource, credentials and
    owner, the effect a tool has, and whether a call releases data to the
    network.  The messages of the protocol are records; the JSON of a binding
    and of a reviewed extension, and the arguments of the browser logins, are
    parameters. *)
From Stdlib Require Import Ascii.
From stdpp Require Import gmap sorting.
From S2P Require Import Prelude GoStrings GoBytes GoHash GoTime GoNet GoUrl GoJson GoValue Budget Canonical Delegation Approval Effect BrowserScope EffectExternal Mandate Egress.
From Stdlib Require Import QArith.
Open Scope Z_scope.
Open Scope go_scope.

(** ** Messages *)

(** [toolbrokerv1.EffectContract]. *)
Record EffectContract := mkEffectContract {
  ec_retry_safety : string; ec_idempotency_header : string; ec_verification_method : string;
  ec_scope_origin : string; ec_verification_url : string }.

(** [ExtensionContract]: the fields that are read, and the JSON of the whole. *)
Record ExtensionContract := mkExtensionContract {
  ex_extension_id : string; ex_manifest_hash : string; ex_generation : Z; ex_method : string;
  ex_effect : string; ex_json : string }.

Record ConverterContract := mkConverterContract {
  cc_converter_id : string; cc_package_hash : string; cc_need_hash : string; cc_version : string;
  cc_generation : Z; cc_profile_pin : string; cc_class : string; cc_input_schema_hash : string;
  cc_output_schema_hash : string; cc_input_bytes : Z; cc_output_bytes : Z; cc_rows : Z;
  cc_field_bytes : Z; cc_millis : Z }.

(** [ToolContract]; a nil message is [None]. *)
Record ToolContract := mkToolContract {
  tc_tool_name : string;
  tc_tool_class : string;
  tc_input_schema_json : string;
  tc_output_schema_json : string;
  tc_runtime_target : string;
  tc_risk_level : string;
  tc_supports_credential_refs : bool;
  tc_requires_approval : bool;
  tc_status : string;
  tc_allowed_domains : list string;
  tc_allowed_tools : list string;
  tc_contract_revision : string;
  tc_effect_contract : option EffectContract;
  tc_extension : option ExtensionContract;
  tc_converter : option ConverterContract;
}.

Record CallRef := mkCallRef { kr_type : string; kr_alias : string; kr_field : string }.

Record ToolCall := mkToolCall {
  tl_tool_call_id : string;
  tl_run_id : string;
  tl_tool_name : string;
  tl_args_json : string;
  tl_credential_refs : list (option CallRef);
  tl_autonomy_mode : Z;
}.

(** [ContextSnapshot]: what the code reads of it. *)
Record ContextSnapshot := mkContext {
  cx_delegation : option Contract;
  cx_run_id : string;
  cx_run_state : string;
  cx_session_key : string;
  cx_owner_id : string;
  cx_autonomy_mode : Z;
  cx_mandate_id : string;
  cx_task_id : string;
  cx_pinned_task_revision : Z;
  cx_task_revision : Z;
  cx_constraints_revision : Z;
  cx_task_status : string;
  cx_execution_policy : string;
  cx_lease_epoch : Z;
  cx_lease_id : string;
  cx_lease_expires_at : Z;
  cx_authority : option Assignment;
  cx_authority_deadline : Z;
  cx_deny_tools : list string;
  cx_deny_resources : list ResourceScope;
  cx_converter_lifecycle_ready : bool;
  cx_delegation_ready : bool;
  cx_guarded_tab_request_ready : bool;
  cx_guarded_tab_runtime_ready : bool;
  cx_memory_candidate_ready : bool;
  cx_communication_targets : gmap string string;
  cx_communication_ready : bool;
  cx_communication_methods : list string;
  cx_communication_mode : string;
  cx_schedules_ready : bool;
  cx_memory_read_ready : bool;
  cx_memory_temporal_ready : bool;
  cx_workspace_ready : bool;
  cx_input_claim_hash : string;
  cx_converter_delegation_ready : bool;
}.

(** ** Upper case *)

(** The upper case of text that is not ASCII. *)
Class UnicodeUpper := unicode_upper : string -> string.

Definition upper_byte (c : ascii) : ascii :=
  if Z.leb 97 (byte_val c) && Z.leb (byte_val c) 122 then byte_of (byte_val c - 32) else c.

(** [strings.ToUpper]. *)
Definition ToUpper `{!UnicodeUpper} (s : string) : string :=
  if is_ascii s then str (map upper_byte (lit s)) else unicode_upper s.

(** ** Arguments *)

(** The largest number [float64] holds, and half a unit more. *)
Definition float_bound : Q := inject_Z (2 ^ 1024 - 2 ^ 970).

(** [json.Unmarshal] gives a number the type [float64]; it may be too large. *)
Definition float_ok (text : string) : bool :=
  match Rat_SetString text with
  | Some q => negb (Qle_bool float_bound q) && negb (Qle_bool q (- float_bound)%Q)
  | None => false
  end.

Fixpoint floats_ok (v : gval) : bool :=
  match v with
  | VNumber t => float_ok t
  | VArray l => forallb floats_ok l
  | VObject m => forallb (fun kv => floats_ok kv.2) m
  | _ => true
  end.

(** [json.Unmarshal] into a [map[string]any]; [null] leaves the map nil. *)
Definition unmarshal_map (raw : string) : option (option (list (string * gval))) :=
  match GoValue.decode decode_any raw with
  | Some (VObject m) => if floats_ok (VObject m) then Some (Some m) else None
  | Some VNull => Some None
  | _ => None
  end.

Definition member (m : list (string * gval)) (k : string) : option gval :=
  (fun p => p.2.2) <$> list_find (fun kv => kv.1 = k) m.

(** [text, _ := m[k].(string)]. *)
Definition string_member (m : list (string * gval)) (k : string) : string :=
  match member m k with Some (VString s) => s | _ => "" end.

(** ** Credential references *)

(** The walk of [argumentRefs]; a reference is not searched further.  The
    order of a map does not matter to the sorted result. *)
Fixpoint walk_refs (v : gval) : res (list Approval.CredentialRef) :=
  match v with
  | VObject m =>
      if bool_decide (string_member m "type" = "credential_ref") then
        let alias := string_member m "alias" in let field := string_member m "field" in
        fail_when bool_decide (alias = "") || bool_decide (field = "")
          with Errorf "credential reference requires alias and field" ;;
        Ok [mkCredentialRef alias field]
      else
        (fix members (m : list (string * gval)) :=
           match m with
           | [] => Ok []
           | kv :: rest => r <-! walk_refs kv.2 ;; more <-! members rest ;; Ok (r ++ more)
           end) m
  | VArray l =>
      (fix elements (l : list gval) :=
         match l with
         | [] => Ok []
         | v :: rest => r <-! walk_refs v ;; more <-! elements rest ;; Ok (r ++ more)
         end) l
  | _ => Ok []
  end.

Definition ref_le (a b : Approval.CredentialRef) : Prop :=
  if bool_decide (cr_alias a = cr_alias b) then string_le (cr_field a) (cr_field b)
  else string_le (cr_alias a) (cr_alias b).
#[global] Instance ref_le_dec : RelDecision ref_le.
Proof. intros a b. unfold ref_le. case_bool_decide; apply _. Defined.

(** Equal neighbours are kept once. *)
Fixpoint drop_repeats (refs : list Approval.CredentialRef) : list Approval.CredentialRef :=
  match refs with
  | r :: ((r' :: _) as rest) => if bool_decide (r = r') then drop_repeats rest else r :: drop_repeats rest
  | _ => refs
  end.
Definition normalizeRefs (refs : list Approval.CredentialRef) : list Approval.CredentialRef :=
  drop_repeats (merge_sort ref_le refs).
Definition argumentRefs (m : list (string * gval)) : res (list Approval.CredentialRef) :=
  refs <-! walk_refs (VObject m) ;; Ok (normalizeRefs refs).

(** ** Resource and effect *)

Definition err_resource : error :=
  Errorf "action resource must be an HTTP(S) URL without credentials".

(** The URL of the arguments, printed anew. *)
Definition canonical_url (raw : string) : res string :=
  if bool_decide (raw = "") then Ok "" else
  match Parse raw with
  | None => Err err_resource
  | Some u =>
      fail_when bool_decide (Hostname u = []) || negb (bool_decide (u_user u = None))
                || negb (bool_decide (u_scheme u = lit "http"))
                   && negb (bool_decide (u_scheme u = lit "https")) with err_resource ;;
      Ok (str (URL_String u))
  end.

(** The URL argument a tool names its resource with. *)
Definition url_argument (tool : string) (args : list (string * gval)) : string :=
  if negb (HasPrefix tool "browser.") then string_member args "url"
  else if bool_decide (tool = LoginTool) || bool_decide (tool = SSOTool)
  then string_member args "target_url"
  else if bool_decide (string_member args "expected_url" = "") then string_member args "url"
  else string_member args "expected_url".

Definition actionResource (tool : string) (args : list (string * gval)) : res string :=
  if HasPrefix tool "credentials." then Ok ("tool:" +:+ tool) else
  if bool_decide (tool = "workspace.read") || bool_decide (tool = "workspace.write") then
    let id := string_member args "workspace_id" in
    fail_when negb (page_id id) with Errorf "exact opaque workspace identity is required" ;;
    Ok ("workspace:" +:+ id)
  else
  raw <-! canonical_url (url_argument tool args) ;;
  let browser := string_member args "browser_session_id" in
  let tab := string_member args "session_id" in
  if negb (bool_decide (browser = "")) then Ok ("browser:" +:+ browser +:+ ":" +:+ raw)
  else if negb (bool_decide (tab = "")) && HasPrefix tool "single_tab."
  then Ok ("single_tab:" +:+ tab +:+ ":" +:+ raw)
  else if negb (bool_decide (raw = "")) then Ok raw
  else Ok ("tool:" +:+ tool).

Definition read_tools : list string :=
  ["browser.open_pages"; "browser.pages"; "browser.page_snapshot"; "browser.page_freeze_snapshot";
   "browser.sso_inspect"; "tools.search"; "tools.load"; "workspace.read"; "memory.search";
   "memory.open"; "memory.neighbors"; "memory.facts"; "messages.search"; "messages.inbox";
   "browser.submit_get_form"; "browser.follow_link"; "schedule.list"; "schedule.get";
   "credentials.search"; "credentials.request_status"; "browser.freeze_snapshot";
   "converters.discover"; "converters.collect"; "skills.search"; "skills.load"; "browser.read";
   "browser.open"; "browser.navigate"; "browser.snapshot"; "browser.extract_text";
   "browser.wait_for"; "browser.close"; "single_tab.status"; "single_tab.capture_visible";
   "single_tab.extract_text"; "doctor.check_system"; "doctor.check_container";
   "doctor.check_database"; "doctor.check_provider"; "web.search"; "web.fetch"; "web.fetch_batch";
   "web.extract"; "http.download"; "http.parse_html"].
Definition prepare_tools : list string :=
  ["communication.message"; "communication.photo"; "communication.report"; "communication.widget";
   "schedule.create"; "schedule.update"; "schedule.cancel"; "credentials.request_access";
   "credentials.request_create"; "credentials.request_otp"; "credentials.request_login";
   "credentials.request_sso_login"; "credentials.request_external_login"; "workspace.create";
   "workspace.write"; "messages.process"; "memory.propose_candidate"; "single_tab.bind.guarded";
   "task.delegate"; "task.delegate_converter"; "converters.develop"; "converters.test";
   "converters.trial"; "converters.activate"; "converters.rollback"; "skills.propose";
   "browser.prepare_fill"; "browser.prepare_type"; "single_tab.bind"; "browser.set_cookie";
   "browser.restore_storage_state"; "doctor.generate_report"].

Definition classifyEffect `{!UnicodeUpper} (tool : string) (args : list (string * gval)) : string :=
  if bool_decide (tool ∈ read_tools) then EffectRead
  else if bool_decide (tool = LoginTool) || bool_decide (tool = SSOTool) then EffectCommit
  else if bool_decide (tool ∈ prepare_tools) then EffectPrepare
  else if bool_decide (tool = "http.request") then
    let method_ := ToUpper (string_member args "method") in
    if bool_decide (method_ ∈ [""; "GET"; "HEAD"; "OPTIONS"]) then EffectRead
    else if bool_decide (method_ ∈ ["POST"; "PUT"; "PATCH"; "DELETE"]) then EffectCommit
    else EffectUnknown
  else EffectUnknown.

(** ** The hash of a contract *)

(** A field that [omitempty] leaves out. *)
Definition text_member (k v : string) : list (string * string) :=
  if bool_decide (v = "") then [] else [(k, json_string v)].
Definition int_member (k : string) (v : Z) : list (string * string) :=
  if Z.eqb v 0 then [] else [(k, json_int v)].

Definition json_effect_contract (e : EffectContract) : string :=
  json_object (text_member "retry_safety" (ec_retry_safety e)
    ++ text_member "idempotency_header" (ec_idempotency_header e)
    ++ text_member "verification_method" (ec_verification_method e)
    ++ text_member "scope_origin" (ec_scope_origin e)
    ++ text_member "verification_url" (ec_verification_url e)).

Definition json_converter (c : ConverterContract) : string :=
  json_object (text_member "converter_id" (cc_converter_id c)
    ++ text_member "package_hash" (cc_package_hash c) ++ text_member "need_hash" (cc_need_hash c)
    ++ text_member "version" (cc_version c) ++ int_member "generation" (cc_generation c)
    ++ text_member "profile_pin" (cc_profile_pin c) ++ text_member "class" (cc_class c)
    ++ text_member "input_schema_hash" (cc_input_schema_hash c)
    ++ text_member "output_schema_hash" (cc_output_schema_hash c)
    ++ int_member "input_bytes" (cc_input_bytes c) ++ int_member "output_bytes" (cc_output_bytes c)
    ++ int_member "rows" (cc_rows c) ++ int_member "field_bytes" (cc_field_bytes c)
    ++ int_member "millis" (cc_millis c)).

(** A nil slice prints as [null]; [append([]string(nil), ...)] of nothing is
    nil. *)
Definition json_strings (l : list string) : string :=
  if bool_decide (l = []) then "null" else json_list (json_string <$> l).

Section binding.
Context `{!UnicodeLower} `{!UnicodeUpper} (marshal : ActionBinding -> string).

Definition ContractHash (c : ToolContract) : res string :=
  fail_when bool_decide (tc_tool_name c = "")
            || negb (bool_decide (tc_status c = "active"))
               && negb (bool_decide (tc_status c = "enabled"))
    with Errorf "active compatible tool contract is required" ;;
  input <-! or_else (Errorf "tool input contract is invalid") (canonicalJSON (tc_input_schema_json c)) ;;
  output <-! (if bool_decide (tc_output_schema_json c = "") then Ok "{}"
              else or_else (Errorf "tool output contract is invalid")
                     (canonicalJSON (tc_output_schema_json c))) ;;
  Ok (digest (json_object
    ([("Name", json_string (tc_tool_name c)); ("Class", json_string (tc_tool_class c));
      ("Input", json_string input); ("Output", json_string output);
      ("Target", json_string (tc_runtime_target c)); ("Risk", json_string (tc_risk_level c));
      ("Status", json_string (tc_status c));
      ("CredentialRefs", json_bool (tc_supports_credential_refs c));
      ("Approval", json_bool (tc_requires_approval c));
      ("Domains", json_strings
         (merge_sort string_le ((fun d => ToLower (TrimSpace d)) <$> tc_allowed_domains c)));
      ("Tools", json_strings (merge_sort string_le (tc_allowed_tools c)))]
     ++ text_member "Revision" (tc_contract_revision c)
     ++ match tc_effect_contract c with
        | Some e => [("EffectContract", json_effect_contract e)] | None => [] end
     ++ match tc_extension c with Some x => [("Extension", ex_json x)] | None => [] end
     ++ match tc_converter c with Some v => [("Converter", json_converter v)] | None => [] end))).

(** ** The binding *)

(** [b.ActionHash = digest(json.Marshal(b))] with the hash cleared first. *)
Definition with_hash (h : string) (b : ActionBinding) : ActionBinding :=
  mkBinding (ab_browser_sso_inspection b) (ab_external_auth b) (ab_browser_sso b)
    (ab_browser_page b) (ab_browser_scope_url b) (ab_browser_scope_epoch b)
    (ab_owner_communication b) (ab_communication_destinations_hash b) (ab_action_id b) h
    (ab_run_id b) (ab_tool_call_id b) (ab_tool_name b) (ab_contract_hash b)
    (ab_contract_revision b) (ab_args_hash b) (ab_resource b) (ab_credential_refs b)
    (ab_credential_metadata_hash b) (ab_task_id b) (ab_task_revision b)
    (ab_constraints_revision b) (ab_owner_id b) (ab_effect b) (ab_goal_id b) (ab_goal_revision b)
    (ab_mandate_id b) (ab_mandate_revision b) (ab_purpose b) (ab_owner_policy_revision b)
    (ab_extension_id b) (ab_extension_manifest_hash b) (ab_extension_generation b)
    (ab_extension_access_revision b) (ab_extension_access_expires_at b) (ab_converter_id b)
    (ab_converter_package_hash b) (ab_converter_need_hash b) (ab_converter_generation b)
    (ab_data_sources b).
Definition hashed (b : ActionBinding) : ActionBinding :=
  let b := with_hash "" b in with_hash (digest (marshal b)) b.

Definition isMemoryRead (tool : string) : bool :=
  bool_decide (tool ∈ ["memory.search"; "memory.open"; "memory.neighbors"; "memory.facts";
                       "messages.search"; "messages.inbox"]).
(** [toolcatalog.IsTool] and [communicationcontrol.IsTool]. *)
Definition IsCatalogTool (tool : string) : bool :=
  bool_decide (tool ∈ ["tools.search"; "tools.load"]).
Definition IsCommunicationTool (tool : string) : bool :=
  bool_decide (tool ∈ ["communication.message"; "communication.photo"; "communication.report";
                       "communication.widget"]).

(** The tools that act for the current input. *)
Definition input_bound (tool : string) : bool :=
  HasPrefix tool "communication." || HasPrefix tool "schedule."
  || bool_decide (tool ∈ ["single_tab.bind.guarded"; "memory.propose_candidate"; "messages.process"])
  || isMemoryRead tool || IsCatalogTool tool || HasPrefix tool "workspace.".

Fixpoint provided_refs (refs : list (option CallRef)) : res (list Approval.CredentialRef) :=
  match refs with
  | [] => Ok []
  | None :: _ => Err (Errorf "invalid credential reference")
  | Some r :: rest =>
      fail_when negb (bool_decide (kr_type r = "credential_ref"))
        with Errorf "invalid credential reference" ;;
      more <-! provided_refs rest ;; Ok (mkCredentialRef (kr_alias r) (kr_field r) :: more)
  end.

Definition ErrCommunication : error :=
  ErrNew "communicationcontrol.ErrDenied" "communication unavailable, stale or outside policy".

(** The communication of a call: the hash of its destinations, and whether it
    is the owner's. *)
Definition bind_communication (communication : string -> res string)
    (decode_args : string -> string -> option string) (call : ToolCall) (c : ContextSnapshot)
    (hash : string) (refs : list Approval.CredentialRef) : res (string * bool) :=
  let tool := tl_tool_name call in
  if negb (IsCommunicationTool tool) then Ok ("", false) else
  let destination := default "" (cx_communication_targets c !! tool) in
  match decode_args tool (tl_args_json call) with
  | None => Err ErrCommunication
  | Some purpose =>
      fail_when negb (bool_decide (communication tool = Ok hash)) || negb (Z.eqb (go_len destination) 64)
                || negb (bool_decide (refs = []))
        with ErrCommunication ;;
      Ok (destination, bool_decide (tool = "communication.widget")
                       || bool_decide (tool = "communication.message") && bool_decide (purpose = "blocked"))
  end.

(** The effect of a reviewed extension. *)
Definition extension_effect (tool : string) (x : ExtensionContract) : res string :=
  fail_when negb (HasPrefix tool ("extension." +:+ ex_extension_id x +:+ "."))
            || Z.leb (ex_generation x) 0 || bool_decide (ex_manifest_hash x = "")
    with Errorf "reviewed extension contract is invalid" ;;
  if bool_decide (ex_method x ∈ ["GET"; "HEAD"]) then
    fail_when negb (bool_decide (ex_effect x = "read"))
      with Errorf "extension read effect is invalid" ;; Ok EffectRead
  else if bool_decide (ex_method x ∈ ["POST"; "PUT"; "PATCH"; "DELETE"]) then
    fail_when negb (bool_decide (ex_effect x = "commit"))
      with Errorf "extension mutation effect is invalid" ;; Ok EffectCommit
  else Err (Errorf "extension operation is unsupported").

(** A pure converter. *)
Definition check_converter (tool : string) (contract : ToolContract) (v : ConverterContract)
    (refs : list Approval.CredentialRef) : res unit :=
  let permission := mkConverter (cc_converter_id v) (cc_class v) (cc_input_schema_hash v)
    (cc_output_schema_hash v) (cc_profile_pin v) (cc_input_bytes v) (cc_output_bytes v)
    (cc_rows v) (cc_field_bytes v) (cc_millis v) 1 in
  fail_when negb (is_ok (Converter_Validate permission))
            || match tc_extension contract with Some _ => true | None => false end
            || negb (bool_decide (tool = converter_tool (cc_converter_id v)))
            || negb (bool_decide (tc_tool_class contract = "pure_converter"))
            || negb (bool_decide (tc_runtime_target contract = "broker://pure-converters-v1"))
            || negb (converterDigest (cc_package_hash v)) || negb (converterDigest (cc_need_hash v))
            || Z.ltb (cc_generation v) 1 || negb (bool_decide (refs = []))
    with Errorf "bounded converter contract is invalid" ;;
  Ok tt.

(** The JSON of the references, by which they are compared. *)
Definition json_refs (refs : list Approval.CredentialRef) : string :=
  json_list ((fun r => json_object [("alias", json_string (cr_alias r));
                                    ("field", json_string (cr_field r))]) <$> refs).

(** [communication] gives the hash of the contract of a communication tool,
    [decode_args] the purpose its arguments state. *)
Definition BuildBinding (communication : string -> res string)
    (decode_args : string -> string -> option string) (actionID : string) (call : ToolCall)
    (contract : ToolContract) (c : ContextSnapshot) : res ActionBinding :=
  let tool := tl_tool_name call in
  fail_when bool_decide (actionID = "") || bool_decide (tl_run_id call = "")
            || bool_decide (tl_tool_call_id call = "")
            || negb (bool_decide (cx_run_id c = tl_run_id call)) || bool_decide (cx_owner_id c = "")
    with Errorf "trusted action identity and owner are required" ;;
  contractHash <-! ContractHash contract ;;
  fail_when negb (bool_decide (tc_tool_name contract = tool))
    with Errorf "tool contract does not match the action" ;;
  args <-! canonicalJSON (tl_args_json call) ;;
  match unmarshal_map args with
  | None | Some None => Err (Errorf "action arguments must be an object")
  | Some (Some object) =>
      refs <-! argumentRefs object ;;
      provided <-! provided_refs (tl_credential_refs call) ;;
      fail_when negb (bool_decide (json_refs refs = json_refs (normalizeRefs provided)))
        with Errorf "credential references do not match action arguments" ;;
      fail_when negb (bool_decide (refs = [])) && negb (tc_supports_credential_refs contract)
        with Errorf "tool contract does not support credential references" ;;
      resource <-! actionResource tool object ;;
      fail_when input_bound tool && negb (Z.eqb (go_len (cx_input_claim_hash c)) 64)
        with Errorf "current owning input claim required" ;;
      channel <-! bind_communication communication decode_args call c contractHash refs ;;
      extension <-! match tc_extension contract with
                    | None => Ok None
                    | Some x => effect <-! extension_effect tool x ;; Ok (Some (x, effect))
                    end ;;
      _ <-! match tc_converter contract with
            | None => Ok tt
            | Some v => check_converter tool contract v refs
            end ;;
      fail_when match cx_authority c with
                | None => false
                | Some a => negb (bool_decide (as_task_id a = cx_task_id c))
                            || negb (bool_decide (as_owner_id a = cx_owner_id c))
                end with ErrOwnerAuthority ;;
      let effect := match tc_converter contract with
                    | Some _ => EffectPrepare
                    | None => match extension with
                              | Some (_, e) => e
                              | None => classifyEffect tool object
                              end
                    end in
      let a := default empty_assignment (cx_authority c) in
      Ok (hashed (mkBinding None None None None "" 0 channel.2 channel.1 actionID "" (tl_run_id call)
        (tl_tool_call_id call) tool contractHash (tc_contract_revision contract) (digest args)
        resource (Some refs) "" (cx_task_id c) (cx_task_revision c) (cx_constraints_revision c)
        (cx_owner_id c) effect (as_goal_id a) (as_goal_revision a) (as_mandate_id a)
        (as_mandate_revision a) (as_purpose a) (as_policy_revision a)
        (from_option (fun xe => ex_extension_id xe.1) "" extension)
        (from_option (fun xe => ex_manifest_hash xe.1) "" extension)
        (from_option (fun xe => ex_generation xe.1) 0 extension) 0 None
        (from_option cc_converter_id "" (tc_converter contract))
        (from_option cc_package_hash "" (tc_converter contract))
        (from_option cc_need_hash "" (tc_converter contract))
        (from_option cc_generation 0 (tc_converter contract)) None))
  end.

(** [BindCredentialMetadata]. *)
Definition with_metadata (h : string) (b : ActionBinding) : ActionBinding :=
  mkBinding (ab_browser_sso_inspection b) (ab_external_auth b) (ab_browser_sso b)
    (ab_browser_page b) (ab_browser_scope_url b) (ab_browser_scope_epoch b)
    (ab_owner_communication b) (ab_communication_destinations_hash b) (ab_action_id b)
    (ab_action_hash b) (ab_run_id b) (ab_tool_call_id b) (ab_tool_name b) (ab_contract_hash b)
    (ab_contract_revision b) (ab_args_hash b) (ab_resource b) (ab_credential_refs b) h
    (ab_task_id b) (ab_task_revision b) (ab_constraints_revision b) (ab_owner_id b) (ab_effect b)
    (ab_goal_id b) (ab_goal_revision b) (ab_mandate_id b) (ab_mandate_revision b) (ab_purpose b)
    (ab_owner_policy_revision b) (ab_extension_id b) (ab_extension_manifest_hash b)
    (ab_extension_generation b) (ab_extension_access_revision b)
    (ab_extension_access_expires_at b) (ab_converter_id b) (ab_converter_package_hash b)
    (ab_converter_need_hash b) (ab_converter_generation b) (ab_data_sources b).
Definition BindCredentialMetadata (b : ActionBinding) (hash : string) : ActionBinding :=
  hashed (with_metadata hash b).

(** The page, the login, the provider and the inspection a binding is given. *)
Definition with_browser (page : option PageBinding) (sso : option SSOScope)
    (external : option ExternalScope) (inspection : option SSOInspection) (url : string) (epoch : Z)
    (b : ActionBinding) : ActionBinding :=
  hashed (mkBinding inspection external sso page url epoch (ab_owner_communication b)
    (ab_communication_destinations_hash b) (ab_action_id b) (ab_action_hash b) (ab_run_id b)
    (ab_tool_call_id b) (ab_tool_name b) (ab_contract_hash b) (ab_contract_revision b)
    (ab_args_hash b) (ab_resource b) (ab_credential_refs b) (ab_credential_metadata_hash b)
    (ab_task_id b) (ab_task_revision b) (ab_constraints_revision b) (ab_owner_id b) (ab_effect b)
    (ab_goal_id b) (ab_goal_revision b) (ab_mandate_id b) (ab_mandate_revision b) (ab_purpose b)
    (ab_owner_policy_revision b) (ab_extension_id b) (ab_extension_manifest_hash b)
    (ab_extension_generation b) (ab_extension_access_revision b)
    (ab_extension_access_expires_at b) (ab_converter_id b) (ab_converter_package_hash b)
    (ab_converter_need_hash b) (ab_converter_generation b) (ab_data_sources b)).

(** [bindBrowserReadScope]. *)
Definition bindBrowserReadScope (b : ActionBinding) (resource : string) (epoch : Z) : res ActionBinding :=
  match Parse resource with
  | None => Err ErrOwnerAuthority
  | Some u =>
      fail_when negb (BrowserContextRead b) || bool_decide (Hostname u = [])
                || negb (bool_decide (u_user u = None))
                || negb (bool_decide (u_scheme u = lit "http"))
                   && negb (bool_decide (u_scheme u = lit "https"))
                || Z.ltb epoch 0 with ErrOwnerAuthority ;;
      Ok (with_browser (ab_browser_page b) (ab_browser_sso b) (ab_external_auth b)
            (ab_browser_sso_inspection b) resource epoch b)
  end.
End binding.

(** ** Release of data to the network *)

(** [url.QueryEscape]. *)
Definition query_byte (c : ascii) : bytes :=
  if letter c || digit_byte c || bool_decide (c ∈ ["-"; "_"; "."; "~"]%char) then [c]
  else if bool_decide (c = " "%char) then ["+"%char]
  else ["%"%char; upper_hex (byte_val c / 16); upper_hex (byte_val c mod 16)].

(** The runes of a valid text. *)
Definition RuneCount (s : string) : nat :=
  length (List.filter (fun c => negb (in_range 128 191 c)) (lit s)).

(** [websearch.URL]. *)
Definition search_url (query : string) : res string :=
  let query := TrimSpace query in
  fail_when bool_decide (query = "") || negb (utf8_valid query) || Nat.ltb 512 (RuneCount query)
            || ContainsAny query [ascii_of_N 0; CR; LF]
    with Errorf "search query must contain 1 to 512 characters on one line" ;;
  Ok ("https://lite.duckduckgo.com/lite/?q=" +:+ str (lit query ≫= query_byte)).

(** What the arguments of the browser logins say; [None] is a parse error. *)
Record LoginParsers := mkLoginParsers {
  lp_inspection : string -> option SSOInspection;
  lp_sso : string -> option SSOScope;
}.

Definition err_release : error := Errorf "release resources are invalid".

Fixpoint string_elements (l : list gval) : res (list string) :=
  match l with
  | [] => Ok []
  | VString s :: rest => more <-! string_elements rest ;; Ok (s :: more)
  | _ => Err err_release
  end.

Definition nonempty_member (args : list (string * gval)) (k : string) : list string :=
  if bool_decide (string_member args k = "") then [] else [string_member args k].

Section release.
Context `{!UnicodeLower} `{!UnicodeUpper} (parsers : LoginParsers).

(** The destinations a call names. *)
Definition release_resources (call : ToolCall) (args : list (string * gval)) : res (list string) :=
  let tool := tl_tool_name call in
  if bool_decide (tool = browsersso.InspectTool) then
    match lp_inspection parsers (tl_args_json call) with
    | None => Err browsersso.ErrScope | Some a => Ok (browsersso.Inspection_Targets a) end
  else if bool_decide (tool = SSOTool) then
    match lp_sso parsers (tl_args_json call) with
    | None => Err browsersso.ErrScope | Some s => Ok (browsersso.SSO_Targets s) end
  else if bool_decide (tool ∈ ["browser.submit_get_form"; "browser.follow_link"]) then
    fail_when bool_decide (string_member args "expected_url" = "")
      with Errorf "GET form requires an observed public resource" ;;
    Ok [string_member args "expected_url"]
  else if bool_decide (tool = "web.search") then
    u <-! search_url (string_member args "query") ;; Ok [u]
  else if bool_decide (tool ∈ ["http.request"; "http.download"; "http.parse_html"; "web.fetch";
                               "web.extract"; "browser.read"; "browser.open"; "browser.open_pages";
                               "browser.navigate"]) then Ok (nonempty_member args "url")
  else if bool_decide (tool = "web.fetch_batch") then
    match member args "urls" with Some (VArray l) => string_elements l | _ => Err err_release end
  else if bool_decide (tool ∈ ["browser.fill"; "browser.type"; "browser.prepare_fill";
                               "browser.prepare_type"; "browser.click"; "browser.set_cookie";
                               "browser.restore_storage_state"])
  then Ok (nonempty_member args "expected_url")
  else Ok [].

(** Each destination is public; one outside the contract's domains is a
    release. *)
Fixpoint check_release (domains : list string) (resources : list string) : res bool :=
  match resources with
  | [] => Ok false
  | r :: rest =>
      fail_when negb (is_ok (ValidateURL [] [] r))
        with Errorf "network resource is outside public execution policy" ;;
      more <-! check_release domains rest ;;
      Ok (bool_decide (domains = []) || negb (is_ok (ValidateURL domains [] r)) || more)
  end.

Definition NetworkReleaseRequired (call : ToolCall) (contract : ToolContract) : res bool :=
  match unmarshal_map (tl_args_json call) with
  | None => Err (Errorf "release policy requires validated arguments")
  | Some args =>
      let args := default [] args in
      extension <-! match tc_extension contract with
                    | None => Ok []
                    | Some _ =>
                        fail_when bool_decide (string_member args "url" = "")
                          with Errorf "extension resource is invalid" ;;
                        Ok [string_member args "url"]
                    end ;;
      resources <-! release_resources call args ;;
      release <-! check_release (tc_allowed_domains contract) (extension ++ resources) ;;
      Ok (bool_decide (tl_tool_name call = "web.search") || release)
  end.

(** A contract of a guarded GET. *)
Definition guarded_get (revision : string) (contract : ToolContract) : bool :=
  bool_decide (tc_contract_revision contract = revision)
  && negb (tc_supports_credential_refs contract)
  && bool_decide (from_option ec_retry_safety "" (tc_effect_contract contract) = "read_only")
  && bool_decide (from_option ec_verification_method "" (tc_effect_contract contract)
                  = BrowserGETVerification).

(** The reads for which the operator's standing consent is enough;
    [page_contract] is [browserpage.ValidContract]. *)
Definition consented_read (page_contract : ToolContract -> bool) (call : ToolCall)
    (contract : ToolContract) (args : list (string * gval)) : bool :=
  let tool := tl_tool_name call in
  let revision3 := bool_decide (tc_contract_revision contract = "3") in
  if bool_decide (tool = browserpage.PageOpen) then page_contract contract
  else if bool_decide (tool = "browser.navigate") then guarded_get "4" contract || revision3
  else if bool_decide (tool ∈ ["browser.submit_get_form"; "browser.follow_link"])
  then guarded_get "2" contract
  else if bool_decide (tool ∈ ["web.search"; "web.fetch"; "web.fetch_batch"; "web.extract";
                               "http.download"; "http.parse_html"]) then true
  else if bool_decide (tool ∈ ["browser.read"; "browser.open"]) then revision3
  else if bool_decide (tool = "http.request")
  then bool_decide (ToUpper (string_member args "method") ∈ [""; "GET"; "HEAD"])
  else false.

(** [Service.networkReleaseRequired]. *)
Definition networkReleaseRequired (page_contract : ToolContract -> bool) (publicWebReads : bool)
    (call : ToolCall) (contract : ToolContract) : res bool :=
  required <-! NetworkReleaseRequired call contract ;;
  if negb required || negb publicWebReads || negb (bool_decide (length (tl_credential_refs call) = 0%nat))
     || match tc_extension contract with Some _ => true | None => false end
     || match tc_converter contract with Some _ => true | None => false end
  then Ok required else
  match unmarshal_map (tl_args_json call) with
  | None => Ok required
  | Some args =>
      let args := default [] args in
      if existsb (fun k => match member args k with Some _ => true | None => false end)
           ["headers"; "body"; "credential_ref"; "credential_refs"] then Ok required
      else Ok (negb (consented_read page_contract call contract args))
  end.
End release.
