(* ===== verification/Authorize.v ===== *)
(** * Authorize: from a proposed call to a permission

    Package [internal/actionauth] ([service.go], the service's part of
    [credential_control.go], [sso.go], [sso_inspection.go],
    [external_auth.go], [owner_reply.go], and the mandates of [postgres.go]):
    [liveContext], [binding], [Prepare], [Authorize] and [Verify] over the
    store of the effect journal.  The readers of the context, of approvals and
    of browser pages, the credential inspector and the capability guard are
    the fields of [Service]; a nil field is [None]. *)
From Stdlib Require Import Ascii.
From stdpp Require Import gmap.
From S2P Require Import Prelude GoStrings GoBytes GoHash GoTime GoNet GoUrl Run Scheduling Delegation Approval Effect BrowserScope EffectExternal Mandate Egress Binding.
Open Scope Z_scope.
Open Scope go_scope.

Definition ErrPage : error :=
  ErrNew "browserpage.ErrDenied" "exact browser page unavailable; refresh pages before acting".
Definition ErrVault : error :=
  ErrNew "credentialcontrol.ErrVault" "credential request unavailable or stale".

(** The arguments of a page tool: the browser and the page they name. *)
Record PageArgs := mkPageArgs { pa_session : string; pa_page : option PageRef }.

(** What the service asks of the protocol packages: the login of a call that
    comes with its reviewed contract ([browsersso.Parse] or
    [credentialcontrol.DecodeToolArgs], and [proto.Equal]), the external
    scope and the inspection likewise, the arguments of a page tool
    ([browserpage.Parse]), [browserpage.ValidContract], [ResolveEffectPolicy]
    and the purpose of a communication. *)
Record Protocol := mkProtocol {
  pt_parsers : LoginParsers;
  pt_sso : ToolCall -> ToolContract -> option SSOScope;
  pt_external : ToolCall -> ToolContract -> option ExternalScope;
  pt_inspection : ToolCall -> ToolContract -> option SSOInspection;
  pt_page_args : string -> string -> option PageArgs;
  pt_page_contract : ToolContract -> bool;
  pt_policy : ActionBinding -> ToolContract -> ToolCall -> res EffectPolicy;
  pt_communication_args : string -> string -> option string;
}.

(** [Service]: [sv_approved_local] and [sv_approved_login] are the optional
    methods of the credential inspector, with the checks of the contract and
    of the arguments that precede them; the clock is read many times, the n-th
    reading is [sv_now n]. *)
Record Service := mkService {
  sv_context : string -> res ContextSnapshot;
  sv_verify_approval : string -> ActionBinding -> res ApprovalSnapshot;
  sv_mandate : string -> res Mandate;
  sv_inspect : option (ToolCall -> res (string * bool));
  sv_approved_local : ToolCall -> ToolContract -> bool;
  sv_approved_login : ToolCall -> ToolContract -> bool;
  sv_capabilities : option (ToolCall -> ToolContract -> ActionBinding -> ContextSnapshot ->
                            res ActionBinding);
  sv_read_scope : option (ActionBinding -> res (string * Z));
  sv_page_scope : option (ActionBinding -> PageArgs -> res (option PageBinding));
  sv_public_web_reads : bool;
  sv_now : nat -> Z;
}.

Section service.
Context `{!UnicodeLower} `{!UnicodeUpper} `{!UnicodeFold}.
Context (zones : string -> option zone) (hashes : ContractHashes) (marshal : ActionBinding -> string)
  (proto : Protocol) (s : Service).

(** ** The context *)

Definition eligible_states : list string :=
  ["RUN_STATE_TOOL_PENDING"; "RUN_STATE_AWAITING_APPROVAL"; "RUN_STATE_TOOL_RUNNING";
   "tool_pending"; "awaiting_approval"; "tool_running"].

Definition liveContext (call : ToolCall) : res ContextSnapshot :=
  c <-! or_else (Errorf "trusted action context is unavailable") (sv_context s (tl_run_id call)) ;;
  fail_when negb (bool_decide (cx_run_id c = tl_run_id call)) || bool_decide (cx_owner_id c = "")
            || bool_decide (cx_session_key c = "") || bool_decide (cx_lease_id c = "")
            || Z.leb (cx_lease_epoch c) 0 || negb (After (cx_lease_expires_at c) (sv_now s 0))
    with Errorf "current run ownership is required" ;;
  fail_when negb (bool_decide (cx_run_state c ∈ eligible_states))
    with Errorf "run is not eligible for tool execution" ;;
  fail_when negb (bool_decide (cx_task_id c = ""))
            && (Z.leb (cx_task_revision c) 0 || Z.leb (cx_constraints_revision c) 0
                || negb (Z.eqb (cx_pinned_task_revision c) (cx_task_revision c))
                || bool_decide (cx_task_status c ∈ ["cancelled"; "completed"; "paused"; "blocked"]))
    with Errorf "task authority is stale or inactive" ;;
  fail_when Z.ltb (cx_autonomy_mode c) 1 || Z.ltb 4 (cx_autonomy_mode c)
    with Errorf "compatible autonomy policy is required" ;;
  fail_when negb (Z.eqb (tl_autonomy_mode call) (cx_autonomy_mode c))
    with Errorf "claimed autonomy does not match trusted policy" ;;
  Ok c.

(** ** Scopes of the browser *)

Definition rename_action (tool resource : string) (b : ActionBinding) : ActionBinding :=
  mkBinding (ab_browser_sso_inspection b) (ab_external_auth b) (ab_browser_sso b)
    (ab_browser_page b) (ab_browser_scope_url b) (ab_browser_scope_epoch b)
    (ab_owner_communication b) (ab_communication_destinations_hash b) (ab_action_id b)
    (ab_action_hash b) (ab_run_id b) (ab_tool_call_id b) tool (ab_contract_hash b)
    (ab_contract_revision b) (ab_args_hash b) resource (ab_credential_refs b)
    (ab_credential_metadata_hash b) (ab_task_id b) (ab_task_revision b)
    (ab_constraints_revision b) (ab_owner_id b) (ab_effect b) (ab_goal_id b) (ab_goal_revision b)
    (ab_mandate_id b) (ab_mandate_revision b) (ab_purpose b) (ab_owner_policy_revision b)
    (ab_extension_id b) (ab_extension_manifest_hash b) (ab_extension_generation b)
    (ab_extension_access_revision b) (ab_extension_access_expires_at b) (ab_converter_id b)
    (ab_converter_package_hash b) (ab_converter_need_hash b) (ab_converter_generation b)
    (ab_data_sources b).

(** The live page of a login: every target is public, and the page is the one
    the scope names, at its URL. *)
Definition login_page (e : error) (targets : list string) (browser : string) (page : PageRef)
    (url : string) (b : ActionBinding) : res PageBinding :=
  fail_when existsb (fun t => negb (is_ok (ValidateURL [] [] t))) targets with e ;;
  match sv_page_scope s with
  | None => Err e
  | Some reader =>
      match reader (rename_action browserpage.PageSnapshot ("browser:" +:+ browser +:+ ":") b)
              (mkPageArgs browser (Some page)) with
      | Ok (Some bound) =>
          fail_when negb (browserpage.Binding_Valid bound true)
                    || negb (bool_decide (pb_ref bound = page))
                    || negb (bool_decide (pb_url bound = url)) with e ;;
          Ok bound
      | _ => Err e
      end
  end.

Definition no_call_refs (call : ToolCall) : bool := bool_decide (length (tl_credential_refs call) = 0%nat).

Definition bindSSO (b : ActionBinding) (call : ToolCall) (contract : ToolContract) : res ActionBinding :=
  match pt_sso proto call contract with
  | None => Err browsersso.ErrScope
  | Some scope =>
      fail_when negb (bool_decide (tl_tool_name call = SSOTool)) && negb (no_call_refs call)
        with browsersso.ErrScope ;;
      page <-! login_page browsersso.ErrScope (browsersso.SSO_Targets scope) (so_browser scope)
                 (so_rp_page scope) (so_rp_url scope) b ;;
      Ok (with_browser marshal (Some page) (Some scope) (ab_external_auth b)
            (ab_browser_sso_inspection b) (ab_browser_scope_url b) (ab_browser_scope_epoch b) b)
  end.

Definition bindSSOInspection (b : ActionBinding) (call : ToolCall) (contract : ToolContract) :
    res ActionBinding :=
  match pt_inspection proto call contract with
  | None => Err browsersso.ErrScope
  | Some a =>
      fail_when negb (no_call_refs call) || negb (bool_decide (ab_effect b = EffectRead))
                || bool_decide (ab_task_id b = "") || bool_decide (ab_goal_id b = "")
                || bool_decide (ab_mandate_id b = "") with browsersso.ErrScope ;;
      page <-! login_page browsersso.ErrScope (browsersso.Inspection_Targets a) (si_browser a)
                 (si_rp_page a) (si_rp_url a) b ;;
      Ok (with_browser marshal (Some page) (ab_browser_sso b) (ab_external_auth b) (Some a)
            (ab_browser_scope_url b) (ab_browser_scope_epoch b) b)
  end.

Definition bindExternalAuth (b : ActionBinding) (call : ToolCall) (contract : ToolContract) :
    res ActionBinding :=
  match pt_external proto call contract with
  | None => Err externalauth.ErrProvider
  | Some scope =>
      fail_when bool_decide (ab_task_id b = "") || bool_decide (ab_goal_id b = "")
                || bool_decide (ab_mandate_id b = "") || Z.leb (ab_mandate_revision b) 0
                || negb (no_call_refs call) with externalauth.ErrProvider ;;
      page <-! login_page externalauth.ErrProvider (externalauth.External_Targets scope) (es_browser scope)
                 (es_rp_page scope) (es_rp_url scope) b ;;
      Ok (with_browser marshal (Some page) (ab_browser_sso b) (Some scope)
            (ab_browser_sso_inspection b) (ab_browser_scope_url b) (ab_browser_scope_epoch b) b)
  end.

(** A tool of one page is bound to the live page it names. *)
Definition bind_page (b : ActionBinding) (call : ToolCall) (contract : ToolContract) : res ActionBinding :=
  if negb (browserpage.IsPageTool (ab_tool_name b)) then Ok b else
  match pt_page_args proto (ab_tool_name b) (tl_args_json call), sv_page_scope s with
  | Some a, Some reader =>
      fail_when negb (pt_page_contract proto contract) || negb (no_refs b) with ErrPage ;;
      if bool_decide (ab_tool_name b = browserpage.PageOpen) then Ok b else
      match reader b a with
      | Ok (Some bound) =>
          fail_when negb (browserpage.Binding_Valid bound (browserpage.PageBound (ab_tool_name b)))
                    || match pa_page a with
                       | Some page => negb (bool_decide (pb_ref bound = page)) | None => false end
            with ErrPage ;;
          Ok (with_browser marshal (Some bound) (ab_browser_sso b) (ab_external_auth b)
                (ab_browser_sso_inspection b) (ab_browser_scope_url b) (ab_browser_scope_epoch b) b)
      | _ => Err ErrPage
      end
  | _, _ => Err ErrPage
  end.

(** Under an assignment a read of a browser context is bound to its URL. *)
Definition bind_read_scope (b : ActionBinding) (call : ToolCall) (contract : ToolContract)
    (c : ContextSnapshot) : res ActionBinding :=
  if bool_decide (is_Some (cx_authority c)) && BrowserContextRead b then
    match pt_policy proto b contract call, sv_read_scope s with
    | Ok policy, Some reader =>
        fail_when negb (bool_decide (ep_retry_safety policy = "read_only"))
                  || negb (bool_decide (ep_verification_method policy = "read_result"))
                  || tc_supports_credential_refs contract with ErrOwnerAuthority ;;
        scope <-! or_else ErrOwnerAuthority (reader b) ;;
        bindBrowserReadScope marshal b scope.1 scope.2
    | _, _ => Err ErrOwnerAuthority
    end
  else Ok b.

(** ** The binding *)

Definition denied (b : ActionBinding) (c : ContextSnapshot) : bool :=
  negb (is_ok (CheckDenyOverrides hashes b (cx_deny_tools c) (cx_deny_resources c))).
Definition delegated (c : ContextSnapshot) : bool := bool_decide (is_Some (cx_delegation c)).

(** The parts of the system a tool needs are there. *)
Definition check_composition (b : ActionBinding) (tool : string) (contract : ToolContract)
    (c : ContextSnapshot) : res unit :=
  let no_task := bool_decide (cx_task_id c = "") in
  fail_when IsCredentialTool tool
            && (negb (standardCredentialControl (rules hashes) b) || delegated c
                || negb (Z.eqb (go_len (cx_input_claim_hash c)) 64) || denied b c) with ErrVault ;;
  fail_when IsCommunicationTool tool
            && (negb (cx_communication_ready c) || negb (bool_decide (cx_communication_mode c = "explicit"))
                || negb (contains (cx_communication_methods c) tool) || delegated c || denied b c)
    with ErrCommunication ;;
  fail_when HasPrefix tool "schedule." && (negb (cx_schedules_ready c) || delegated c)
    with Errorf "schedule composition unavailable for this executor" ;;
  fail_when bool_decide (tool = "task.delegate") && negb (cx_delegation_ready c)
    with Delegation.ErrDenied ;;
  fail_when bool_decide (tool = "single_tab.bind.guarded")
            && (no_task || negb (cx_guarded_tab_request_ready c))
    with Errorf "guarded tab request composition is unavailable" ;;
  fail_when bool_decide (tool = "memory.propose_candidate")
            && (no_task || negb (cx_memory_candidate_ready c))
    with Errorf "memory candidate composition is unavailable" ;;
  fail_when (isMemoryRead tool || bool_decide (tool = "messages.process"))
            && (no_task || negb (cx_memory_read_ready c))
    with Errorf "memory read composition is unavailable" ;;
  fail_when bool_decide (tool = "memory.facts") && negb (cx_memory_temporal_ready c)
    with Errorf "temporal fact composition is unavailable" ;;
  fail_when HasPrefix tool "workspace." && (no_task || negb (cx_workspace_ready c))
    with Errorf "workspace execution composition is unavailable" ;;
  fail_when bool_decide (tc_contract_revision contract = "guarded-1")
            && (bool_decide (tool = "single_tab.status") || bool_decide (tool = "single_tab.click"))
            && (no_task || negb (cx_guarded_tab_runtime_ready c))
    with Errorf "guarded tab runtime composition is unavailable" ;;
  fail_when bool_decide (tool = "task.delegate_converter")
            && (no_task || negb (cx_delegation_ready c) || negb (cx_converter_delegation_ready c)
                || negb (cx_converter_lifecycle_ready c)) with Delegation.ErrDenied ;;
  Ok tt.

(** The federated tools are not for a delegate. *)
Definition bind_federated (b : ActionBinding) (call : ToolCall) (contract : ToolContract)
    (c : ContextSnapshot) : res ActionBinding :=
  let tool := tl_tool_name call in
  b <-! (if bool_decide (tool = SSOTool) || bool_decide (tool = SSORequestTool) then
           fail_when delegated c with browsersso.ErrScope ;; bindSSO b call contract
         else Ok b) ;;
  b <-! (if bool_decide (tool = browsersso.InspectTool) then
           fail_when delegated c with browsersso.ErrScope ;; bindSSOInspection b call contract
         else Ok b) ;;
  if bool_decide (tool = externalauth.RequestTool) then
    fail_when delegated c with externalauth.ErrProvider ;; bindExternalAuth b call contract
  else Ok b.

(** A tool of a reviewed capability passes its guard. *)
Definition bind_capability (b : ActionBinding) (call : ToolCall) (contract : ToolContract)
    (c : ContextSnapshot) : res ActionBinding :=
  let tool := tl_tool_name call in
  if bool_decide (tool = "task.delegate_converter") || bool_decide (is_Some (tc_extension contract))
     || HasPrefix tool "extension." || bool_decide (is_Some (tc_converter contract))
     || HasPrefix tool "converters." || HasPrefix tool "converter." then
    match sv_capabilities s with
    | None => Err (Errorf "reviewed capability admission is unavailable")
    | Some guard => guard call contract b c
    end
  else Ok b.

(** [Service.binding]: the binding, and whether the credential policy asks for
    an approval. *)
Definition binding (call : ToolCall) (contract : ToolContract) (c : ContextSnapshot) :
    res (ActionBinding * bool) :=
  let tool := tl_tool_name call in
  b <-! BuildBinding marshal (ch_communication hashes) (pt_communication_args proto)
          (StableActionID (tl_run_id call) (tl_tool_call_id call)) call contract c ;;
  b <-! bind_federated b call contract c ;;
  b <-! bind_page b call contract ;;
  b <-! bind_read_scope b call contract c ;;
  _ <-! CheckExecutionPolicy (cx_execution_policy c) (ab_effect b) ;;
  _ <-! check_composition b tool contract c ;;
  fail_when negb (delegationAllows hashes (cx_delegation c) b) with Delegation.ErrDenied ;;
  b <-! bind_capability b call contract c ;;
  fail_when IsCatalogTool tool && (negb (standardCatalogAction hashes b) || denied b c)
    with Errorf "catalog control denied" ;;
  fail_when negb (delegationAllows hashes (cx_delegation c) b) with Delegation.ErrDenied ;;
  _ <-! NetworkReleaseRequired (pt_parsers proto) call contract ;;
  br <-! (if no_refs b then Ok (b, false) else
          match sv_inspect s with
          | None => Err (Errorf "credential policy inspection is unavailable")
          | Some inspect =>
              match inspect call with
              | Ok (hash, approval) =>
                  fail_when bool_decide (hash = "")
                    with Errorf "credential policy denied this action" ;;
                  Ok (BindCredentialMetadata marshal b hash, approval)
              | Err _ => Err (Errorf "credential policy denied this action")
              end
          end) ;;
  let b := br.1 in
  _ <-! match cx_authority c with
        | None => Ok tt
        | Some a =>
            m <-! or_else ErrOwnerAuthority (sv_mandate s (as_mandate_id a)) ;;
            _ <-! CheckAssignedAction zones hashes m b (sv_now s 1) ;;
            CheckDenyOverrides hashes b (cx_deny_tools c) (cx_deny_resources c)
        end ;;
  Ok br.

(** ** Who must approve *)

Definition standardOwnerReply (b : ActionBinding) (c : ContextSnapshot) : bool :=
  Z.leb 3 (cx_autonomy_mode c) && negb (delegated c) && cx_communication_ready c
  && bool_decide (cx_communication_mode c = "explicit")
  && contains (cx_communication_methods c) (ab_tool_name b)
  && Z.eqb (go_len (cx_input_claim_hash c)) 64
  && Z.eqb (go_len (ab_communication_destinations_hash b)) 64 && no_refs b
  && bool_decide (ab_effect b = EffectPrepare)
  && bool_decide (ab_resource b = "tool:" +:+ ab_tool_name b) && negb (denied b c)
  && ownerReplyResource hashes b.

(** The owner approved this credential use beforehand. *)
Definition owner_preparation (call : ToolCall) (contract : ToolContract) (c : ContextSnapshot) : bool :=
  (sv_approved_local s call contract || sv_approved_login s call contract) && negb (delegated c).

(** A local request to the owner. *)
Definition local_request (b : ActionBinding) (c : ContextSnapshot) : bool :=
  standardCredentialControl (rules hashes) b && negb (delegated c) && negb (denied b c).

(** The rule: a mode that asks, a contract that asks, an effect, a credential
    policy that asks, or a release of data. *)
Definition approval_rule (b : ActionBinding) (contract : ToolContract) (c : ContextSnapshot)
    (credential release : bool) : bool :=
  Z.eqb (cx_autonomy_mode c) 2 || tc_requires_approval contract
  || negb (bool_decide (ab_effect b = EffectRead)) || credential || release.

(** The exceptions to the rule. *)
Definition excepted (b : ActionBinding) (call : ToolCall) (contract : ToolContract)
    (c : ContextSnapshot) : bool :=
  standardOwnerReply b c || owner_preparation call contract c || local_request b c.

(** The first mode only reads, without credentials. *)
Definition mode0_forbids (b : ActionBinding) (c : ContextSnapshot) : bool :=
  Z.eqb (cx_autonomy_mode c) 1 && (negb (bool_decide (ab_effect b = EffectRead)) || negb (no_refs b)).

Definition release_required (call : ToolCall) (contract : ToolContract) : res bool :=
  networkReleaseRequired (pt_parsers proto) (pt_page_contract proto) (sv_public_web_reads s) call contract.

(** [verifiedApproval], at the clock's n-th reading. *)
Definition verifiedApproval (n : nat) (b : ActionBinding) (id : string) : res ApprovalSnapshot :=
  let e := Errorf "exact action approval is unavailable, expired or incompatible" in
  a <-! or_else e (sv_verify_approval s id b) ;;
  fail_when negb (bool_decide (sn_approval_id a = id)) || negb (bool_decide (sn_status a = "approved"))
            || negb (bool_decide (ab_action_hash (sn_binding a) = ab_action_hash b))
            || negb (bool_decide (ab_owner_id (sn_binding a) = ab_owner_id b))
            || negb (After (sn_expires_at a) (sv_now s n)) || IsZero (sn_resolved_at a) with e ;;
  Ok a.

(** ** Prepare *)

(** [safeResource]. *)
Definition safeResource (resource : string) : string := str (fst (cut "?" (lit resource))).

Record PreparedAction := mkPrepared {
  pd_binding : ActionBinding; pd_effect_id : string; pd_requires_approval : bool;
  pd_summary : string; pd_expires_at : Z }.

(** The intent [PrepareWithLogicalRef] stores; [json] prints the binding of an
    effect's identity. *)
Definition prepare_intent (json : ActionBinding -> res string) (call : ToolCall)
    (contract : ToolContract) (logicalRef : string) : res Intent :=
  c <-! liveContext call ;;
  bc <-! binding call contract c ;;
  let b := bc.1 in
  fail_when mode0_forbids b c
    with Errorf "mode_0 permits only actions with verified read effects without credentials" ;;
  release <-! release_required call contract ;;
  let requires := approval_rule b contract c bc.2 release && negb (excepted b call contract c) in
  requires <-! (if negb (bool_decide (cx_mandate_id c = "")) && Z.leb 3 (cx_autonomy_mode c)
                   && negb (tc_requires_approval contract) && negb bc.2 then
                  m <-! or_else (Errorf "configured mandate is unavailable")
                          (sv_mandate s (cx_mandate_id c)) ;;
                  Ok (requires && negb (releaseMandateAllowed zones hashes m b release (sv_now s 2)))
                else Ok requires) ;;
  ids <-! EffectIdentity json b logicalRef ;;
  policy <-! pt_policy proto b contract call ;;
  Ok (mkIntent b requires (sv_now s 3 + 24 * hour) ids.1 ids.2 policy).

Definition summary (b : ActionBinding) : string :=
  let target := safeResource (ab_resource b) +:+
    match ab_browser_page b with
    | None => ""
    | Some page => " " +:+ pb_url page +:+
        (if bool_decide (pr_id (pb_ref page) = "") then "" else " page=" +:+ pr_id (pb_ref page))
    end in
  ab_tool_name b +:+ " (" +:+ ab_effect b +:+ ") on " +:+ target.

(** ** Authorize *)

(** The earlier of a bound, when there is one, and an expiry. *)
Definition clamp (expires : Z) (bound : option Z) : Z :=
  match bound with Some t => earlier expires t | None => expires end.

Definition deadline_of (c : ContextSnapshot) : option Z :=
  if IsZero (cx_authority_deadline c) then None else Some (cx_authority_deadline c).

(** The permission is tied to the current input. *)
Definition claim_hash_of (b : ActionBinding) (call : ToolCall) (contract : ToolContract)
    (c : ContextSnapshot) : string :=
  let tool := tl_tool_name call in
  if owner_preparation call contract c || IsCredentialTool tool || IsCommunicationTool tool
     || HasPrefix tool "schedule."
     || bool_decide (tool ∈ ["single_tab.bind.guarded"; "memory.propose_candidate"; "messages.process"])
     || isMemoryRead tool || IsCatalogTool tool || HasPrefix tool "workspace."
  then cx_input_claim_hash c else "".

(** What justifies a permission: an approval, a mandate, or nothing. *)
Record Basis := mkBasis { bs_approval : string; bs_mandate : string; bs_revision : Z; bs_bound : option Z }.

Definition find_basis (b : ActionBinding) (call : ToolCall) (contract : ToolContract)
    (c : ContextSnapshot) (credential release : bool) (approvalID mandateID : string) : res Basis :=
  if negb (bool_decide (approvalID = "")) then
    a <-! verifiedApproval 6 b approvalID ;; Ok (mkBasis approvalID "" 0 (Some (sn_expires_at a)))
  else if negb (bool_decide (mandateID = "")) && negb (excepted b call contract c) then
    fail_when negb (bool_decide (mandateID = cx_mandate_id c))
      with Errorf "mandate is not assigned by trusted run policy" ;;
    fail_when Z.ltb (cx_autonomy_mode c) 3 || credential || tc_requires_approval contract
      with Errorf "this action requires exact user approval" ;;
    match sv_mandate s mandateID with
    | Ok m =>
        fail_when negb (releaseMandateAllowed zones hashes m b release (sv_now s 6))
          with Errorf "mandate does not authorize this action" ;;
        Ok (mkBasis "" (om_id m) (om_revision m) (Some (om_expires_at m)))
    | Err _ => Err (Errorf "mandate does not authorize this action")
    end
  else
    fail_when approval_rule b contract c credential release && negb (excepted b call contract c)
      with Errorf "exact action approval or a compatible bounded mandate is required" ;;
    Ok (mkBasis "" "" 0 None).

(** The mandate of the assignment; a client may name no other. *)
Definition own_mandate (c : ContextSnapshot) (mandateID : string) : res string :=
  match cx_authority c with
  | None => Ok mandateID
  | Some a =>
      fail_when negb (bool_decide (mandateID = "")) && negb (bool_decide (mandateID = as_mandate_id a))
        with ErrOwnerAuthority ;;
      Ok (as_mandate_id a)
  end.

(** [Authorize] up to the store: [intent] is [GetIntent], [id] the random
    identity of the permission. *)
Definition authorize (intent : string -> res Intent) (id : string) (call : ToolCall)
    (contract : ToolContract) (actionID approvalID mandateID : string) : res Grant :=
  c <-! liveContext call ;;
  bc <-! binding call contract c ;;
  let b := bc.1 in
  mandateID <-! own_mandate c mandateID ;;
  fail_when mode0_forbids b c with Errorf "current mode_0 policy forbids this action" ;;
  release <-! release_required call contract ;;
  fail_when owner_preparation call contract c && negb (Z.eqb (go_len (cx_input_claim_hash c)) 64)
    with Errorf "current owning Input is required for credential preparation" ;;
  i <-! or_else (Errorf "prepared action is missing, stale or changed") (intent actionID) ;;
  fail_when negb (bool_decide (ab_action_id b = actionID))
            || negb (bool_decide (ab_action_hash (it_binding i) = ab_action_hash b))
            || negb (After (it_expires_at i) (sv_now s 2))
    with Errorf "prepared action is missing, stale or changed" ;;
  fail_when IsCommunicationTool (tl_tool_name call)
            && (negb (cx_communication_ready c) || negb (bool_decide (cx_communication_mode c = "explicit"))
                || negb (contains (cx_communication_methods c) (tl_tool_name call)) || delegated c
                || denied b c) with ErrCommunication ;;
  let expires := clamp (clamp (earlier (sv_now s 3 + minute) (cx_lease_expires_at c)) (deadline_of c))
                   (ab_extension_access_expires_at b) in
  fail_when negb (After expires (sv_now s 4)) with ErrOwnerAuthority ;;
  basis <-! find_basis b call contract c bc.2 release approvalID mandateID ;;
  let expires := clamp expires (bs_bound basis) in
  fail_when negb (After expires (sv_now s 7)) with ErrOwnerAuthority ;;
  Ok (mkGrant (claim_hash_of b call contract c) id b (bs_approval basis) (bs_mandate basis)
        (bs_revision basis) (cx_lease_id c) (cx_lease_epoch c) (cx_autonomy_mode c) expires "authorized").

(** ** Verify *)

(** The tools whose permission is tied to the input that asked. *)
Definition claim_bound (tool : string) : bool :=
  IsCommunicationTool tool || IsCredentialTool tool || HasPrefix tool "schedule."
  || HasPrefix tool "workspace." || isMemoryRead tool || IsCatalogTool tool
  || bool_decide (tool = "messages.process").

(** [Verify]: [grant] is [GetGrant]. *)
Definition verify (grant : string -> res Grant) (call : ToolCall) (contract : ToolContract)
    (id : string) : res Grant :=
  fail_when bool_decide (id = "") with Errorf "dispatch authorization is required" ;;
  c <-! liveContext call ;;
  bc <-! binding call contract c ;;
  let b := bc.1 in
  let stale := Errorf "dispatch grant is stale, changed, revoked or already dispatched" in
  g <-! or_else stale (grant id) ;;
  fail_when negb (bool_decide (gt_state g = "authorized")) || negb (After (gt_expires_at g) (sv_now s 2))
            || negb (bool_decide (ab_action_hash (gt_binding g) = ab_action_hash b))
            || negb (bool_decide (gt_lease_id g = cx_lease_id c))
            || negb (Z.eqb (gt_lease_epoch g) (cx_lease_epoch c))
            || negb (Z.eqb (gt_autonomy_mode g) (cx_autonomy_mode c)) with stale ;;
  let claim_changed := bool_decide (gt_input_claim_hash g = "")
                       || negb (bool_decide (gt_input_claim_hash g = cx_input_claim_hash c)) in
  let approved_use := sv_approved_local s call contract || sv_approved_login s call contract in
  fail_when claim_bound (tl_tool_name call) && claim_changed
    with Errorf "original owning input claim is no longer current" ;;
  fail_when approved_use && claim_changed with Errorf "credential preparation Input claim changed" ;;
  _ <-! (if bool_decide (gt_approval_id g = "") then Ok tt
         else _ <-! verifiedApproval 3 b (gt_approval_id g) ;; Ok tt) ;;
  release <-! release_required call contract ;;
  fail_when release && bool_decide (gt_approval_id g = "") && bool_decide (gt_mandate_id g = "")
            && negb approved_use
    with Errorf "current data-release authorization is required" ;;
  _ <-! (if bool_decide (gt_mandate_id g = "") then Ok tt else
         fail_when negb (bool_decide (gt_mandate_id g = cx_mandate_id c))
           with Errorf "mandate assignment changed" ;;
         match sv_mandate s (gt_mandate_id g) with
         | Ok m =>
             fail_when negb (Z.eqb (om_revision m) (gt_mandate_revision g))
                       || negb (releaseMandateAllowed zones hashes m b release (sv_now s 4))
               with Errorf "mandate is stale or revoked" ;; Ok tt
         | Err _ => Err (Errorf "mandate is stale or revoked")
         end) ;;
  Ok g.

(** ** Over the store *)

Context `{!Column ActionBinding} `{!Column EffectPolicy} `{!Column Grant} `{!Column EffectEvidence}.
Context {R : Type}.

(** [PrepareWithLogicalRef]: [e1] and [e2] are what its two calls of the store
    meet. *)
Definition PrepareWithLogicalRef (json : ActionBinding -> res string) (e1 e2 : effect_env)
    (call : ToolCall) (contract : ToolContract) (logicalRef : string) (db : effect_db R) :
    effect_db R * res PreparedAction :=
  match prepare_intent json call contract logicalRef with
  | Err e => (db, Err e)
  | Ok i =>
      let b := it_binding i in
      match PutIntent e1 i db with
      | (db, Err _) =>
          (db, Err (Errorf "exact action intent could not be persisted or its identity changed"))
      | (db, Ok _) =>
          match GetIntent e2 (ab_action_id b) db with
          | Ok stored =>
              if negb (bool_decide (ab_action_hash (it_binding stored) = ab_action_hash b))
              then (db, Err (Errorf "persisted action intent is unavailable"))
              else (db, Ok (mkPrepared b (it_effect_id stored) (it_requires_approval i) (summary b)
                              (it_expires_at stored)))
          | Err _ => (db, Err (Errorf "persisted action intent is unavailable"))
          end
      end
  end.

Definition Authorize (e1 e2 : effect_env) (id : string) (call : ToolCall) (contract : ToolContract)
    (actionID approvalID mandateID : string) (db : effect_db R) : effect_db R * res Grant :=
  match authorize (fun action => GetIntent e1 action db) id call contract actionID approvalID mandateID with
  | Err e => (db, Err e)
  | Ok g => PutGrant e2 g db
  end.

Definition Verify (env : effect_env) (call : ToolCall) (contract : ToolContract) (id : string)
    (db : effect_db R) : res Grant :=
  verify (fun id => GetGrant env id db) call contract id.
End service.

(** [PostgresStore.GetMandate]: the columns replace what the JSON says. *)
Definition GetMandate `{!Column Mandate} (fault : option error) (rows : gmap string MandateTableRow)
    (id : string) : res Mandate :=
  match fault, rows !! id with
  | Some e, _ => Err e
  | None, None => Err ErrNoRows
  | None, Some r =>
      m <-! column (mt_data r) ;;
      Ok (with_row m (mkMandateTableRow (mt_owner_id r) (mt_revision r) (mt_data r) (mt_status r)
                        (om_scope_kind m) (mt_goal_id r) (mt_goal_revision r) (mt_expires_at r)
                        (mt_revoked_at r)))
  end.
