(* ===== verification/AuthorizeProofs.v ===== *)
(** * AuthorizeProofs: what a permission rests on

    Every permission [Authorize] issues is short, tied to the live lease, and
    rests on an exact approval, on an assigned mandate, or on a rule that asks
    for neither; [Verify] checks again what may have changed since. *)
From Stdlib Require Import Ascii.
From stdpp Require Import gmap.
From S2P Require Import Prelude GoStrings GoBytes GoHash GoTime GoNet GoUrl GoValue Ownership Run Scheduling Input Delegation Approval Effect EffectProofs BrowserScope EffectExternal Mandate MandateProofs Egress Binding Authorize.
Open Scope Z_scope.
Open Scope go_scope.

Section service.
Context {UL : UnicodeLower} {UU : UnicodeUpper} {UF : UnicodeFold}.
Context (zones : string -> option zone) (hashes : ContractHashes) (marshal : ActionBinding -> string)
  (proto : Protocol) (s : Service).

Abbreviation binding := (binding zones hashes marshal proto s).
Abbreviation authorize := (authorize zones hashes marshal proto s).
Abbreviation verify := (verify zones hashes marshal proto s).

(** ** Expiry *)

Lemma or_else_Ok {A} e (r : res A) a : or_else e r = Ok a -> r = Ok a.
Proof. by destruct r. Qed.

Lemma clamp_le expires bound : clamp expires bound <= expires.
Proof. destruct bound; simpl; [rewrite earlier_min|]; lia. Qed.

Lemma clamp_bound expires t : clamp expires (Some t) <= t.
Proof. simpl. rewrite earlier_min. lia. Qed.

(** ** The context *)

(** The run is live: it is the call's, its lease has not expired, it is at a
    tool, its task is pinned to the current revision, and the mode the call
    claims is the run's. *)
Definition live (call : ToolCall) (c : ContextSnapshot) : Prop :=
  sv_context s (tl_run_id call) = Ok c /\ cx_run_id c = tl_run_id call
  /\ sv_now s 0 < cx_lease_expires_at c /\ cx_run_state c ∈ eligible_states
  /\ (cx_task_id c <> "" -> cx_pinned_task_revision c = cx_task_revision c)
  /\ 1 <= cx_autonomy_mode c <= 4 /\ tl_autonomy_mode call = cx_autonomy_mode c.

Lemma liveContext_Ok call c : liveContext s call = Ok c -> live call c.
Proof.
  unfold liveContext, live. intros H1. apply res_bind_Ok in H1 as (c' & Hc%or_else_Ok & H1).
  unfold After in H1. go_ok H1. injection H1 as <-. unbool. split_and!; try done; try lia.
  intros Hne. match goal with H2 : negb _ && _ = false |- _ =>
    rewrite bool_decide_eq_false_2 // in H2; simpl in H2; unbool end. done.
Qed.

(** ** The basis of a permission *)

(** An approval of exactly this action, by its owner, that has not expired. *)
Definition approved (n : nat) (b : ActionBinding) (id : string) (a : ApprovalSnapshot) : Prop :=
  sv_verify_approval s id b = Ok a /\ sn_approval_id a = id /\ sn_status a = "approved"
  /\ ab_action_hash (sn_binding a) = ab_action_hash b /\ ab_owner_id (sn_binding a) = ab_owner_id b
  /\ sv_now s n < sn_expires_at a /\ sn_resolved_at a <> zero_time.

Lemma verifiedApproval_Ok n b id a : verifiedApproval s n b id = Ok a -> approved n b id a.
Proof.
  unfold verifiedApproval, approved. intros H1. apply res_bind_Ok in H1 as (a' & Ha%or_else_Ok & H1).
  unfold After, IsZero in H1. go_ok H1. injection H1 as <-. unbool. by split_and!.
Qed.

(** The rule asks for no approval: the action only reads, in a mode that does
    not ask, under a contract and a credential policy that do not ask, and
    releases nothing. *)
Definition unattended (b : ActionBinding) (contract : ToolContract) (c : ContextSnapshot)
    (credential release : bool) : Prop :=
  cx_autonomy_mode c <> 2 /\ tc_requires_approval contract = false /\ ab_effect b = EffectRead
  /\ credential = false /\ release = false.

(** What a permission rests on. *)
Inductive justified (b : ActionBinding) (call : ToolCall) (contract : ToolContract)
    (c : ContextSnapshot) (credential release : bool) : Basis -> Prop :=
| justified_approval id a : id <> "" -> approved 6 b id a ->
    justified b call contract c credential release (mkBasis id "" 0 (Some (sn_expires_at a)))
| justified_mandate m : cx_mandate_id c <> "" -> sv_mandate s (cx_mandate_id c) = Ok m ->
    3 <= cx_autonomy_mode c -> credential = false -> tc_requires_approval contract = false ->
    releaseMandateAllowed zones hashes m b release (sv_now s 6) = true ->
    justified b call contract c credential release
      (mkBasis "" (om_id m) (om_revision m) (Some (om_expires_at m)))
| justified_rule : unattended b contract c credential release \/ excepted hashes s b call contract c = true ->
    justified b call contract c credential release (mkBasis "" "" 0 None).

Lemma find_basis_Ok b call contract c credential release approvalID mandateID basis :
  find_basis zones hashes s b call contract c credential release approvalID mandateID = Ok basis ->
  justified b call contract c credential release basis.
Proof.
  unfold find_basis. destruct (decide (approvalID = "")) as [->|Ha].
  2:{ rewrite (bool_decide_eq_false_2 _ Ha) /=. intros H1.
      apply res_bind_Ok in H1 as (a & Hv%verifiedApproval_Ok & [= <-]). by econstructor. }
  rewrite bool_decide_eq_true_2 //=. destruct (_ && negb (excepted _ _ _ _ _ _)) eqn:E.
  - intros H1. apply fail_if_Ok in H1 as [->%negb_false_iff%bool_decide_eq_true H1].
    apply fail_if_Ok in H1 as [Hm H1]. destruct (sv_mandate s (cx_mandate_id c)) as [m|] eqn:Hs; [|done].
    apply fail_if_Ok in H1 as [Hr%negb_false_iff [= <-]]. unbool.
    by apply (justified_mandate _ _ _ _ _ _ m).
  - intros H1. apply fail_if_Ok in H1 as [Hr [= <-]]. constructor.
    apply andb_false_iff in Hr as [Hr|Hr%negb_false_iff]; [left|by right].
    unfold approval_rule, unattended in *. unbool. by split_and!.
Qed.

(** ** The binding under an assignment *)

(** The action is inside the assignment: the mandate covers it, no denial of
    the context applies, and the contract of a delegate allows it. *)
Definition inside_assignment (b : ActionBinding) (c : ContextSnapshot) : Prop :=
  delegationAllows hashes (cx_delegation c) b = true
  /\ forall a, cx_authority c = Some a ->
       exists m, sv_mandate s (as_mandate_id a) = Ok m /\ covered zones hashes m b (sv_now s 1)
         /\ (ab_tool_name b ∉ cx_deny_tools c)
         /\ forall r, r ∈ cx_deny_resources c -> scopedResourceWithin hashes r b = false.

Lemma delegationAllows_metadata d b h :
  delegationAllows hashes d (BindCredentialMetadata marshal b h) = delegationAllows hashes d b.
Proof. reflexivity. Qed.

Lemma binding_Ok call contract c bc : binding call contract c = Ok bc -> inside_assignment bc.1 c.
Proof.
  unfold Authorize.binding. intros Hb. apply res_bind_Ok in Hb as (b1 & _ & Hb).
  apply res_bind_Ok in Hb as (b2 & _ & Hb). apply res_bind_Ok in Hb as (b3 & _ & Hb).
  apply res_bind_Ok in Hb as (b4 & _ & Hb). apply res_bind_Ok in Hb as (u1 & _ & Hb).
  apply res_bind_Ok in Hb as (u2 & _ & Hb). apply fail_if_Ok in Hb as [_ Hb].
  apply res_bind_Ok in Hb as (b5 & _ & Hb). apply fail_if_Ok in Hb as [_ Hb].
  apply fail_if_Ok in Hb as [Hd%negb_false_iff Hb]. apply res_bind_Ok in Hb as (u3 & _ & Hb).
  apply res_bind_Ok in Hb as (br & Hbr & Hb). apply res_bind_Ok in Hb as (u4 & Ha & [= <-]).
  split.
  - destruct (no_refs b5); [by injection Hbr as <-|].
    destruct (sv_inspect s) as [inspect|]; [|done]. destruct (inspect call) as [[h ap]|]; [|done].
    apply fail_if_Ok in Hbr as [_ [= <-]]. by rewrite delegationAllows_metadata.
  - intros a Hau. rewrite Hau in Ha. apply res_bind_Ok in Ha as (m & Hm%or_else_Ok & Ha).
    apply res_bind_Ok in Ha as (u5 & Hact & Ha). exists m. split; [done|].
    apply fail_if_Ok in Hact as [Hact%negb_false_iff _].
    split; [by apply ownerMandateAllows_covered|]. by apply CheckDenyOverrides_Ok in Ha.
Qed.

(** ** Permissions *)

(** The steps of [Authorize] that led to a permission. *)
Lemma authorize_Ok intent id call contract actionID approvalID mandateID g :
  authorize intent id call contract actionID approvalID mandateID = Ok g ->
  exists c credential release basis i mid, live call c
    /\ binding call contract c = Ok (gt_binding g, credential)
    /\ mode0_forbids (gt_binding g) c = false
    /\ release_required proto s call contract = Ok release
    /\ intent actionID = Ok i /\ ab_action_hash (it_binding i) = ab_action_hash (gt_binding g)
    /\ ab_action_id (gt_binding g) = actionID /\ sv_now s 2 < it_expires_at i
    /\ find_basis zones hashes s (gt_binding g) call contract c credential release approvalID mid = Ok basis
    /\ sv_now s 7 < gt_expires_at g
    /\ g = mkGrant (claim_hash_of s (gt_binding g) call contract c) id (gt_binding g)
             (bs_approval basis) (bs_mandate basis) (bs_revision basis) (cx_lease_id c)
             (cx_lease_epoch c) (cx_autonomy_mode c)
             (clamp (clamp (clamp (earlier (sv_now s 3 + minute) (cx_lease_expires_at c)) (deadline_of c))
                       (ab_extension_access_expires_at (gt_binding g))) (bs_bound basis)) "authorized".
Proof.
  unfold Authorize.authorize. intros Hg. apply res_bind_Ok in Hg as (c & Hc%liveContext_Ok & Hg).
  apply res_bind_Ok in Hg as ([b credential] & Hb & Hg). apply res_bind_Ok in Hg as (mid & _ & Hg).
  apply fail_if_Ok in Hg as [Hmode Hg]. apply res_bind_Ok in Hg as (release & Hr & Hg).
  apply fail_if_Ok in Hg as [_ Hg]. apply res_bind_Ok in Hg as (i & Hi%or_else_Ok & Hg).
  apply fail_if_Ok in Hg as [Hid Hg]. apply fail_if_Ok in Hg as [_ Hg].
  apply fail_if_Ok in Hg as [_ Hg]. apply res_bind_Ok in Hg as (basis & Hbasis & Hg).
  apply fail_if_Ok in Hg as [Hend Hg]. injection Hg as <-. simpl in *. unfold After in *. unbool.
  exists c, credential, release, basis, i, mid. by split_and!.
Qed.

(** C20: a permission is short and tied to its run.  A permission [Authorize]
    issues names the live lease and its epoch, is still valid when it is
    issued, and lasts no longer than a minute, the lease, the authority of the
    assignment and the access of the extension it uses; when it rests on an
    approval it does not outlive that approval, and when it rests on a mandate
    it names that mandate's revision and does not outlive it; the action is the
    one that was prepared. *)
Theorem grant_is_bounded intent id call contract actionID approvalID mandateID g :
  authorize intent id call contract actionID approvalID mandateID = Ok g ->
  exists c i, live call c /\ gt_state g = "authorized" /\ gt_lease_id g = cx_lease_id c
    /\ gt_lease_epoch g = cx_lease_epoch c /\ gt_autonomy_mode g = cx_autonomy_mode c
    /\ sv_now s 7 < gt_expires_at g <= sv_now s 3 + minute
    /\ gt_expires_at g <= cx_lease_expires_at c
    /\ (cx_authority_deadline c <> zero_time -> gt_expires_at g <= cx_authority_deadline c)
    /\ (forall t, ab_extension_access_expires_at (gt_binding g) = Some t -> gt_expires_at g <= t)
    /\ (gt_approval_id g <> "" -> exists a, approved 6 (gt_binding g) (gt_approval_id g) a
          /\ gt_expires_at g <= sn_expires_at a)
    /\ (gt_mandate_id g <> "" -> exists m, sv_mandate s (cx_mandate_id c) = Ok m
          /\ om_id m = gt_mandate_id g /\ om_revision m = gt_mandate_revision g
          /\ gt_expires_at g <= om_expires_at m)
    /\ intent actionID = Ok i /\ ab_action_id (gt_binding g) = actionID
    /\ ab_action_hash (it_binding i) = ab_action_hash (gt_binding g) /\ sv_now s 2 < it_expires_at i.
Proof.
  intros Hg. apply authorize_Ok in Hg as (c & credential & release & basis & i & mid & Hc & _ & _ & _ &
    Hi & Hh & Ha & Hie & Hbasis%find_basis_Ok & Hend & Eg).
  exists c, i. destruct g as [h gid b ap md rv li le mo ex st]. cbn [gt_binding gt_state gt_lease_id
    gt_lease_epoch gt_autonomy_mode gt_expires_at gt_approval_id gt_mandate_id gt_mandate_revision] in *.
  injection Eg as -> -> -> -> -> -> -> -> ->.
  set (e0 := earlier _ _) in *. set (e1 := clamp e0 _) in *. set (e2 := clamp e1 _) in *.
  assert (H0 : e0 <= sv_now s 3 + minute /\ e0 <= cx_lease_expires_at c)
    by (unfold e0; rewrite earlier_min; lia).
  assert (L1 : e1 <= e0) by apply clamp_le. assert (L2 : e2 <= e1) by apply clamp_le.
  pose proof (clamp_le e2 (bs_bound basis)). split_and!; try done; try lia.
  - intros Hz. assert (e1 <= cx_authority_deadline c); [|lia].
    unfold e1, deadline_of, IsZero. destruct (Z.eqb_spec (cx_authority_deadline c) zero_time); [done|].
    apply clamp_bound.
  - intros t Ht. assert (e2 <= t); [|lia]. unfold e2. rewrite Ht. apply clamp_bound.
  - intros Hne. destruct Hbasis as [aid a _ Hap|m|]; [|done..]. exists a. split; [done|apply clamp_bound].
  - intros Hne. destruct Hbasis as [|m _ Hm|]; [done| |done].
    exists m. split_and!; [done|done|done|apply clamp_bound].
Qed.

(** C12: no effect without authority.  A permission rests on an approval of
    exactly this action by its owner, on the mandate assigned to the run, in a
    mode that acts alone and for a contract and credentials that do not ask,
    or on a rule that asks for neither: the action only reads and releases
    nothing, or is a reply, a credential request or a use the owner approved;
    it never outlives what it rests on.  The first mode only reads, without
    credentials.  Under an assignment the mandate covers the action and no
    denial applies, whatever the permission rests on. *)
Theorem grant_is_justified intent id call contract actionID approvalID mandateID g :
  authorize intent id call contract actionID approvalID mandateID = Ok g ->
  exists c credential release basis, live call c
    /\ binding call contract c = Ok (gt_binding g, credential)
    /\ release_required proto s call contract = Ok release
    /\ justified (gt_binding g) call contract c credential release basis
    /\ gt_approval_id g = bs_approval basis /\ gt_mandate_id g = bs_mandate basis
    /\ gt_mandate_revision g = bs_revision basis
    /\ (forall t, bs_bound basis = Some t -> gt_expires_at g <= t)
    /\ (cx_autonomy_mode c = 1 -> ab_effect (gt_binding g) = EffectRead /\ refs_of (gt_binding g) = [])
    /\ inside_assignment (gt_binding g) c.
Proof.
  intros Hg. apply authorize_Ok in Hg as (c & credential & release & basis & i & mid & Hc & Hb & Hmode &
    Hr & _ & _ & _ & _ & Hbasis & _ & Eg).
  exists c, credential, release, basis. destruct g as [h gid b ap md rv li le mo ex st]. cbn [gt_binding gt_state gt_lease_id
    gt_lease_epoch gt_autonomy_mode gt_expires_at gt_approval_id gt_mandate_id gt_mandate_revision] in *.
  injection Eg as -> -> -> -> -> -> -> -> ->.
  apply find_basis_Ok in Hbasis. pose proof (binding_Ok _ _ _ _ Hb). split_and!; try done.
  - intros t ->. apply clamp_bound.
  - unfold mode0_forbids in Hmode. intros E. rewrite E /= in Hmode. unfold no_refs in Hmode. unbool. done.
Qed.

(** C17: what is dispatched is still authorised.  A permission that [Verify]
    accepts is unused and unexpired, for the action the call proposes now, by
    the same lease and epoch and in the same mode; its approval is still an
    approval of this action, its mandate is still the assigned one at the
    revision it was issued for and still allows the action; and a release of
    data rests on one of them or on a use the owner approved. *)
Theorem verified_grant_is_current grant call contract id g :
  verify grant call contract id = Ok g ->
  exists c b credential release, live call c /\ grant id = Ok g
    /\ binding call contract c = Ok (b, credential) /\ gt_state g = "authorized"
    /\ sv_now s 2 < gt_expires_at g /\ ab_action_hash (gt_binding g) = ab_action_hash b
    /\ gt_lease_id g = cx_lease_id c /\ gt_lease_epoch g = cx_lease_epoch c
    /\ gt_autonomy_mode g = cx_autonomy_mode c
    /\ release_required proto s call contract = Ok release
    /\ (gt_approval_id g <> "" -> exists a, approved 3 b (gt_approval_id g) a)
    /\ (gt_mandate_id g <> "" -> gt_mandate_id g = cx_mandate_id c /\
         exists m, sv_mandate s (gt_mandate_id g) = Ok m /\ om_revision m = gt_mandate_revision g
           /\ releaseMandateAllowed zones hashes m b release (sv_now s 4) = true)
    /\ (release = true -> gt_approval_id g <> "" \/ gt_mandate_id g <> ""
          \/ sv_approved_local s call contract || sv_approved_login s call contract = true)
    /\ inside_assignment b c.
Proof.
  unfold Authorize.verify. intros Hv. apply fail_if_Ok in Hv as [_ Hv].
  apply res_bind_Ok in Hv as (c & Hc%liveContext_Ok & Hv).
  apply res_bind_Ok in Hv as ([b credential] & Hb & Hv).
  apply res_bind_Ok in Hv as (g' & Hg%or_else_Ok & Hv). apply fail_if_Ok in Hv as [Hst Hv].
  apply fail_if_Ok in Hv as [_ Hv]. apply fail_if_Ok in Hv as [_ Hv].
  apply res_bind_Ok in Hv as (u1 & Hap & Hv). apply res_bind_Ok in Hv as (release & Hr & Hv).
  apply fail_if_Ok in Hv as [Hrel Hv]. apply res_bind_Ok in Hv as (u2 & Hm & [= ->]). simpl in *.
  exists c, b, credential, release. unfold After in *. unbool. split_and!; try done.
  - intros Hne. rewrite bool_decide_eq_false_2 // in Hap.
    apply res_bind_Ok in Hap as (a & Ha%verifiedApproval_Ok & _). by exists a.
  - intros Hne. rewrite bool_decide_eq_false_2 // in Hm.
    apply fail_if_Ok in Hm as [Heq%negb_false_iff%bool_decide_eq_true Hm]. split; [done|].
    destruct (sv_mandate s (gt_mandate_id g)) as [m|] eqn:E; [|done].
    apply fail_if_Ok in Hm as [Hrev _]. unbool. by exists m.
  - intros ->. simpl in Hrel. apply andb_false_iff in Hrel as [Hrel|Hrel%negb_false_iff]; [|by auto].
    apply andb_false_iff in Hrel as [?%bool_decide_eq_false|?%bool_decide_eq_false]; auto.
  - exact (binding_Ok _ _ _ _ Hb).
Qed.
End service.

(** ** Witnesses *)

Module AuthorizeDemo.
#[local] Instance lower : UnicodeLower := id.
#[local] Instance upper : UnicodeUpper := id.
#[local] Instance fold : UnicodeFold := fun a b => bool_decide (a = b).

(** A printer of bindings for these examples. *)
Definition print (b : ActionBinding) : string :=
  ab_action_id b +:+ ab_tool_name b +:+ ab_resource b +:+ ab_effect b.

Definition call (tool args : string) : ToolCall := mkToolCall "call-1" "run-1" tool args [] 3.
Definition contract (tool : string) : ToolContract :=
  mkToolContract tool "web" "{}" "" "tool-http:9090" "low" false false "active" ["shop.example"] []
    "1" None None None.

Definition context : ContextSnapshot :=
  mkContext None "run-1" "tool_running" "chat" "owner" 3 "mandate-1" "task-1" 1 1 1 "active" "" 1
    "lease-1" (30 * second) (Some (mkAssignment "task-1" "owner" "goal-1" 1 "mandate-1" 1 "shopping"
                                    "" "" 4)) (20 * second) [] [] false false false false false ∅ false []
    "" false false false false "" false.

Definition service : Service :=
  mkService (fun _ => Ok context) (fun _ _ => Err (Errorf "no approval"))
    (fun _ => Ok (MandateDemo.mandate None (3600 * second))) None (fun _ _ => false) (fun _ _ => false)
    None None None false (fun n => Z.of_nat n).
Definition protocol : Protocol :=
  mkProtocol (mkLoginParsers (fun _ => None) (fun _ => None)) (fun _ _ => None) (fun _ _ => None)
    (fun _ _ => None) (fun _ _ => None) (fun _ => false) (fun _ _ _ => Err (Errorf "no policy"))
    (fun _ _ => None).

Definition args : string := encode (VObject [("method", VString "POST");
  ("url", VString "https://shop.example/orders/7")]).
Definition order : ToolCall := call "http.request" args.

Abbreviation bound := (binding MandateDemo.zones MandateDemo.hashes print protocol service order
                         (contract "http.request") context).
Definition prepared : res Intent :=
  bc <-! bound ;;
  Ok (mkIntent bc.1 true (3600 * second) "effect-1" "print"
        (mkEffectPolicy None None "unsafe" "read_result" "" "" "" None)).
Definition action : string := StableActionID "run-1" "call-1".
Abbreviation issued := (authorize MandateDemo.zones MandateDemo.hashes print protocol service
                          (fun _ => prepared) "auth-1" order (contract "http.request") action "" "").

Lemma grant_is_bounded_witness : exists g, issued = Ok g /\ gt_expires_at g <= 30 * second
  /\ exists m, gt_mandate_id g = "mandate-1" /\ gt_expires_at g <= om_expires_at m.
Proof.
  destruct issued as [g|e] eqn:E; [|vm_compute in E; discriminate E]. exists g. split; [reflexivity|].
  destruct (grant_is_bounded _ _ _ _ _ _ _ _ _ _ _ _ _ E)
    as (c & i & Hc & _ & _ & _ & _ & _ & Hl & _ & _ & _ & Hm & _).
  destruct Hc as [Hc _]. injection Hc as <-. split; [exact Hl|].
  assert (Eg : gt_mandate_id g = "mandate-1") by (vm_compute in E; injection E as <-; reflexivity).
  destruct Hm as (m & _ & _ & _ & Hle); [rewrite Eg; discriminate|].
  exists m. split; [exact Eg|exact Hle].
Defined.

Lemma grant_is_justified_witness :
  exists g, issued = Ok g /\ gt_mandate_id g = "mandate-1" /\ gt_approval_id g = ""
    /\ inside_assignment MandateDemo.zones MandateDemo.hashes service (gt_binding g) context.
Proof.
  destruct issued as [g|e] eqn:E; [|vm_compute in E; discriminate E]. exists g. split; [reflexivity|].
  destruct (grant_is_justified _ _ _ _ _ _ _ _ _ _ _ _ _ E)
    as (c & cr & r & basis & Hc & _ & _ & _ & _ & _ & _ & _ & _ & Hin).
  destruct Hc as [Hc _]. injection Hc as <-.
  vm_compute in E. injection E as <-. split; [reflexivity|]. split; [reflexivity|exact Hin].
Defined.

Abbreviation checked := (verify MandateDemo.zones MandateDemo.hashes print protocol service
                           (fun _ => issued) order (contract "http.request") "auth-1").

Lemma verified_grant_is_current_witness : exists g, checked = Ok g /\ gt_lease_id g = "lease-1".
Proof.
  destruct checked as [g|e] eqn:E; [|vm_compute in E; discriminate E]. exists g. split; [reflexivity|].
  destruct (verified_grant_is_current _ _ _ _ _ _ _ _ _ _ E)
    as (c & b & cr & r & Hc & _ & _ & _ & _ & _ & Hl & _).
  destruct Hc as [Hc _]. injection Hc as <-. exact Hl.
Defined.
End AuthorizeDemo.
